(* ===== verification/_CoqProject ===== *)
-Q . S2P
Prelude.v
Xous.v
SysCall.v
Permissions.v
Server.v
Scheduler.v
Threads.v
Connections.v
PermissionRequests.v
Irq.v
Process.v
MemManager.v
PageTable.v
Mapping.v
Memory.v
Isolation.v
IsolationOps.v
Kernel.v
Services.v
KernelRules.v
Elf.v
ElfImage.v
Loading.v
BootImage.v
Syscalls.v
Traps.v
Boot.v
KernelIsolation.v
WriteExecute.v
KernelInvariant.v
KernelLifecycle.v
KernelCreate.v
KernelCalls.v
BootInvariant.v
BootBoard.v
Loader.v
LoaderPages.v
LoaderRun.v
LoaderStart.v
Privilege.v
BootTable.v
MessageAccess.v
Names.v
NamesRules.v
NameServing.v
