(* ===== verification/Prelude.v ===== *)
(** * A verification library for the KeyOS microkernel

    KeyOS is a capability-style microkernel (Xous, [src/xous/kernel]) with user-space servers
    above it.  This library models the kernel for the device (the ARM build, [cfg(keyos)]) and
    the ABI crate it shares with the processes ([src/xous/xous-rs]), and proves what the rest
    of the system relies on: messages are delivered once, in order and only with permission;
    memory belongs to one process at a time; threads are scheduled fairly; ids do not go
    stale; and every trap, whatever its arguments, leaves the kernel consistent.  It also models
    the way there: the tool that writes the boot image ([src/xtask]), the loader
    ([src/loader]) and the start of the kernel, so that the states the theorems about traps
    begin with are those that a device reaches.

    ** The program and the files

    A process enters the kernel by a trap: the [svc] instruction with a system call in eight
    registers, an abort, an undefined instruction or an interrupt.  The kernel decodes the call,
    works on its tables and chooses the thread that runs next.

    - [Xous], [SysCall]: the ABI.  The types of [definitions.rs], the word codecs of results,
      messages, thread and process descriptions, and of all system calls ([syscall.rs]).
    - [Permissions], [Server], [Connections], [PermissionRequests]: message passing.
      The set of permitted message ids of a connection, the queue of a server with its ring of
      slots ([server.rs]), the connection table of a process ([process.rs]), the table of
      refused sends ([permission_requests.rs]).
    - [Scheduler], [Threads], [Process], [Irq]: execution.  The circular ready queues
      ([scheduler.rs]), the saved registers ([arch/arm/process.rs]), the process record
      ([process.rs]) and the interrupt table ([irq.rs]).
    - [MemManager], [PageTable], [Mapping], [Memory]: memory.  Owners and bitmaps of the
      physical pages with the page zeroer ([mem.rs], [page_zeroer.rs]), the words of page table
      entries and the two-level tables ([arch/arm/mem.rs], [imports/armv7]), and the operations
      on ranges with their rollback.
    - [Kernel], [Services], [Syscalls], [Traps]: the whole.  The state of the kernel, the
      operations of [SystemServices] ([services.rs]), the system calls ([syscall.rs]) and the
      trap handlers ([arch/arm/irq.rs]).
    - [Elf], [ElfImage], [Loading]: new processes.  The ELF loader ([arch/arm/elf.rs]) over the
      kernel and the bytes of the new address space, the image it builds, and the creation of a
      process ([services.rs], [arch/arm/process.rs]).
    - [BootImage]: the boot image.  The arguments that the build tool writes
      ([xtask/src/xous_arguments.rs], [tags/]) and the iterator that reads them back
      ([kernel/src/args.rs]).
    - [Loader], [LoaderPages], [LoaderRun], [LoaderStart]: the loader ([loader/src/main.rs],
      [boot.rs], [load.rs]).  Its operations, the layout of pages that each stage keeps, the
      stages, and the run as a whole with an image on the chip.
    - [Boot], [BootInvariant], [BootBoard], [BootTable]: the start of the kernel ([kernel/src/main.rs],
      [init_from_memory] in [services.rs], [platform/atsama5d2]).  The operations, the
      invariant of the start, a board on which it runs to its end, and the process table it leaves.
    - [Isolation], [IsolationOps], [KernelRules], [KernelIsolation], [KernelInvariant],
      [KernelLifecycle], [KernelCreate], [KernelCalls], [WriteExecute], [Privilege],
      [MessageAccess]: the theorems on the composed kernel.
    - [Names], [NamesRules], [NameServing]: the name server ([xous/names/src/main.rs]), a
      user-space server over the calls of the kernel.  Its tables and requests, the
      consistency of the tables and what each handler asks of the kernel, and its theorems.
    - [Prelude]: results, panics, machine words, hint databases, generic lemmas.

    ** How operations are represented

    Operations have the names of the source.  A machine word is a [Z] with its wrap-around
    written where the source wraps.  A computation that can fail returns a [result]; one that
    can panic returns an [option], [None] being the panic.  From [Kernel] on, a [KS]
    computation takes the state and ends with a value, an error or a panic, and with the state
    that is left in every case.  The components below it keep a state of their own and are
    lifted by an accessor for their field.  The loader has its own state, [Loader.BootConfig].

    Interfaces: [Server.SystemOps] is what [Server::destroy] asks of the rest of the
    kernel, stated with its laws; [Services] gives the instance over the whole state.
    Parameters: the generated tables of the board ([regions], [shared_peripherals],
    [permitted]), the preemption timer ([usage], [period]), the bytes of user memory
    ([user_memory]), the random number generator ([random], [rand], [canary]), UTF-8 validation
    ([utf8]), the parser of manifests ([parse_manifest], the crate [serde_json]) and the answers
    of the kernel to the name server ([Names.KernelAnswers]), the debug console, the parser of ELF files ([parse_elf], the crate [xmas_elf]),
    of which the theorems ask that the fields of a header are 32-bit words
    ([Elf.wf_parser]), the padding in a boot image, and the memory bridge of the loader ([seal], [unseal]).

    ** What is shown

    - Messages: a queue delivers each accepted message once and in order, across generations of
      recycled slots ([Server.queue_fifo] and the theorems on the single operations); a message
      that is not permitted waits for the broker and reaches no server before it
      ([MessageAccess.forbidden_message_waits]); an answer goes to the thread that sent the
      message ([MessageAccess.answer_resumes_sender]); the set an [add] grants is exact; ids of
      connections and of permission requests never name something else later.
    - Memory: every free page is accounted for, no stale page is handed out, owners change only
      by the operations that say so; a page of the RAM is mapped at most once, by its owner,
      through any history of operations on memory ([IsolationOps.memory_isolation]) and of
      traps ([KernelIsolation.syscalls_isolated]), with the exceptions that these theorems name:
      mirroring, the return of a page that was lent on, and the calls that return pages as they
      destroy a server or end a process; lending and returning restores the two
      processes; no page is ever writable and executable ([WriteExecute.write_xor_execute]),
      which holds of all traps without exception; the words of the page tables decode to what was encoded.
    - Execution: the linked queues refine lists ([Scheduler.scheduler_refines]); a ready thread
      waits a bounded number of turns; threads and scheduler agree ([Process.threads_coherent]).
    - The kernel: every trap that does not panic keeps all the tables consistent with each other
      ([KernelCalls.kernel_stays_consistent]), but for a flag of the scheduler when a process ends
      in its own interrupt handler ([KernelCalls.handler_lost]).
    - New processes: an image is accepted only when its segments are apart and none is writable
      and executable ([Elf.plan_elf_correct]); it goes to a place of its window, any of which
      can be drawn ([Elf.aslr_choice_correct]); the loaded image is the file, then
      zeroes, with the slide added to the words that the table of relocations names
      ([ElfImage.load_elf_correct]).
    - From the build to the first thread: the kernel reads from the image what the tool put in
      ([BootImage.boot_image_read]); when the loader comes to the jump, its page tables and its
      tracker are a sound start ([LoaderStart.loader_isolates]: the small pages, and nothing next to
      them but the sections of the window on the RAM) through which the kernel finds
      itself and the image ([LoaderStart.kernel_loaded]); from such a start [Boot.init] panics or
      ends in a consistent state ([BootInvariant.start_consistent]) whose process table is that of
      the image ([BootTable.start_privileges]).  Privileges never grow after that
      ([Privilege.privileges_never_grow]), so the image bounds what a process may ask for through
      any history ([BootTable.image_limits_processes]).
    - The name server: a name is bound only for the application that owns it and never bound
      anew while it is in use ([NameServing.names_bound]); the kernel is asked for the
      connections that the manifests permit, no more ([NameServing.connections_granted]) and
      no less ([NameServing.connect_answered]); a manifest takes effect as a whole
      ([NameServing.manifest_installed]); all who wait for a name are answered
      ([NameServing.registration_wakes]); and of the requests that block their sender only those stop
      the server that lend memory for reading, or meet one that does
      ([NameServing.read_only_request_panics]).
    - The ABI: calls and results survive the registers, and the decoder yields only well-typed
      calls from any eight words.

    ** Fuel and bounds

    Loops that follow links or advance through slots take fuel; each use passes a bound that
    the theorems show to suffice: the number of threads for the ready queues
    ([Scheduler.bounded_waiting]), the number of slots for a queue
    ([Server.take_next_message_correct]), the size of the request table
    ([PermissionRequests.tombstone_all_correct]), the number of pages of the area for the search
    of a free range ([Process.find_virtual_address_correct]), the pages of a segment for the
    loader ([ElfImage.load_elf_correct] says that every byte of the segment is there), the bytes of
    the image for the iterator over its arguments ([BootImage.boot_image_read]), four tries for
    the aligned table of the loader, the number in the code, the number of waiting requests for
    the name server ([NameServing.registration_wakes]).

    ** Not modelled

    The assembly before and behind the loader, its stack canary and the registers of the memory
    bridge: processor and device state.  The loader copies a data section whose size wraps around
    over its own tracker; the theorems about it ask that sizes do not wrap.  The sections of its
    window on the RAM are writable and executable for the kernel; the theorems on execution are
    about pages.  The boot stages before the loader check signatures with third-party code.  Caches,
    the TLB and the contents of data pages: they are not in the state, except for those of the
    address space the ELF loader fills; that a page is scrubbed before it is reused is the
    bookkeeping of [MemManager].  Text on the serial line.
    What the drivers of the board do, apart from the page zeroer and the preemption timer, beyond
    mapping memory and claiming interrupts: register accesses.  The kernel of the hosted build.  The creation of the
    name server and its logging.  The other user-space servers, the frameworks, the applications,
    the user interface and the host tools. *)
From Stdlib Require Export ZArith Lia ZifyBool.
From stdpp Require Export base tactics list gmap.
From stdpp Require Export numbers.

(** ** Rust's [core::result::Result], and fallible computations *)

Inductive result (E A : Type) : Type :=
| Ok (a : A)
| Err (e : E).
Arguments Ok {E A} a.
Arguments Err {E A} e.

Declare Scope keyos_scope.
Delimit Scope keyos_scope with keyos.
Open Scope keyos_scope.
Open Scope Z_scope.

(** The [?] operator on a [Result]. *)
Notation "'let?' x ':=' e 'in' k" :=
  (match e with Ok x => k | Err err => Err err end)
  (at level 10, x pattern, e at level 100, k at level 200) : keyos_scope.

(** A computation that may panic returns an [option]: [None] is the panic. *)
Notation "'let!' x ':=' e 'in' k" :=
  (match e with Some x => k | None => None end)
  (at level 10, x pattern, e at level 100, k at level 200) : keyos_scope.

Definition is_Ok {E A} (r : result E A) : bool :=
  match r with Ok _ => true | Err _ => false end.

Definition ok_or {E A} (o : option A) (e : E) : result E A :=
  match o with Some a => Ok a | None => Err e end.

(** ** Machine integers: values are [Z], casts wrap explicitly *)

Definition u8 (x : Z) : Z := x mod 2 ^ 8.
Definition u16 (x : Z) : Z := x mod 2 ^ 16.
Definition u32 (x : Z) : Z := x mod 2 ^ 32.
(** [usize] is 32 bits wide on the device. *)
Definition usize (x : Z) : Z := x mod 2 ^ 32.
(** The cast to [i32]: two's complement. *)
Definition i32 (x : Z) : Z := (x + 2 ^ 31) mod 2 ^ 32 - 2 ^ 31.
Definition USIZE_MAX : Z := 2 ^ 32 - 1.

Definition is_u8 (x : Z) : Prop := 0 <= x < 2 ^ 8.
Definition is_u16 (x : Z) : Prop := 0 <= x < 2 ^ 16.
Definition is_u32 (x : Z) : Prop := 0 <= x < 2 ^ 32.
Definition is_i32 (x : Z) : Prop := - 2 ^ 31 <= x < 2 ^ 31.
Definition is_usize (x : Z) : Prop := 0 <= x < 2 ^ 32.

(** [NonZero::new]. *)
Definition nonzero_new (x : Z) : option Z := if x =? 0 then None else Some x.
(** [o.map(|x| x.get()).unwrap_or(0)]. *)
Definition nonzero_or0 (o : option Z) : Z := match o with Some x => x | None => 0 end.

Definition is_nonzero (x : Z) : Prop := 0 < x < 2 ^ 32.
Definition is_opt_nonzero (o : option Z) : Prop :=
  match o with Some x => is_nonzero x | None => True end.
(** A [NonZeroU8], the type of process ids. *)
Definition is_pid (x : Z) : Prop := 0 < x < 2 ^ 8.

(** [checked_add] on [usize]. *)
Definition checked_add (a b : Z) : option Z := if a + b <? 2 ^ 32 then Some (a + b) else None.
(** [saturating_add] on [usize]. *)
Definition saturating_add (a b : Z) : Z := Z.min (a + b) USIZE_MAX.

Ltac unfold_ints :=
  unfold is_pid, is_opt_nonzero, is_nonzero, is_u8, is_u16, is_u32, is_i32, is_usize,
    u8, u16, u32, i32, usize, USIZE_MAX in *.

Lemma u32_id x : is_u32 x -> u32 x = x.
Proof. unfold_ints. intros. apply Z.mod_small; lia. Qed.
Lemma usize_id x : is_usize x -> usize x = x.
Proof. unfold_ints. intros. apply Z.mod_small; lia. Qed.
Lemma u8_id x : is_u8 x -> u8 x = x.
Proof. unfold_ints. intros. apply Z.mod_small; lia. Qed.
Lemma u16_id x : is_u16 x -> u16 x = x.
Proof. unfold_ints. intros. apply Z.mod_small; lia. Qed.
Lemma i32_usize x : is_i32 x -> i32 (usize x) = x.
Proof. unfold_ints. intros. Z.div_mod_to_equations. lia. Qed.
Lemma u8_pid x : is_pid x -> u8 x = x.
Proof. unfold_ints. intros. apply Z.mod_small; lia. Qed.
Lemma u8_range x : is_u8 (u8 x).
Proof. unfold_ints. apply Z.mod_pos_bound. lia. Qed.
Lemma u32_range x : is_u32 (u32 x).
Proof. unfold_ints. apply Z.mod_pos_bound. lia. Qed.

Lemma nonzero_new_pos x : is_nonzero x -> nonzero_new x = Some x.
Proof. unfold nonzero_new, is_nonzero. intros. destruct (Z.eqb_spec x 0); [lia|done]. Qed.
Lemma nonzero_new_pid x : is_pid x -> nonzero_new x = Some x.
Proof. unfold nonzero_new, is_pid. intros. destruct (Z.eqb_spec x 0); [lia|done]. Qed.
Lemma nonzero_new_or0 o : is_opt_nonzero o -> nonzero_new (nonzero_or0 o) = o.
Proof. destruct o; cbn; [apply nonzero_new_pos|done]. Qed.
Lemma nonzero_new_wf x : is_usize x -> is_opt_nonzero (nonzero_new x).
Proof. unfold nonzero_new. unfold_ints. destruct (Z.eqb_spec x 0); [done|lia]. Qed.
Lemma nonzero_or0_wf o : is_opt_nonzero o -> is_usize (nonzero_or0 o).
Proof. destruct o; unfold_ints; cbn; lia. Qed.
Lemma nonzero_new_Some x y : is_usize x -> nonzero_new x = Some y -> y = x /\ is_nonzero x.
Proof. unfold nonzero_new. unfold_ints. destruct (Z.eqb_spec x 0); intros; simplify_eq; lia. Qed.

Create HintDb ints.
Create Rewrite HintDb ints.
#[export] Hint Resolve u8_range u32_range nonzero_new_wf nonzero_or0_wf : ints.
#[export] Hint Rewrite u8_id u16_id u32_id usize_id i32_usize u8_pid nonzero_new_pos nonzero_new_pid
  nonzero_new_or0 using (first [assumption | done]) : ints.

(** ** Bit fields *)

Lemma land_shiftl_small a b n : 0 <= n -> 0 <= b < 2 ^ n -> Z.land (Z.shiftl a n) b = 0.
Proof.
  intros Hn Hb. apply Z.bits_inj'. intros i Hi. rewrite Z.land_spec, Z.bits_0.
  destruct (Z.lt_ge_cases i n) as [Hlt|Hge].
  - by rewrite Z.shiftl_spec_low.
  - enough (Z.testbit b i = false) as -> by apply andb_false_r.
    destruct (Z.eq_dec b 0) as [->|]; [apply Z.bits_0|].
    apply Z.bits_above_log2; [lia|]. apply Z.log2_lt_pow2; [lia|].
    apply Z.lt_le_trans with (2 ^ n); [lia|]. apply Z.pow_le_mono_r; lia.
Qed.

(** Two disjoint fields: or is addition. *)
Lemma lor_shiftl_add a b n :
  0 <= n -> 0 <= b < 2 ^ n -> Z.lor (Z.shiftl a n) b = a * 2 ^ n + b.
Proof.
  intros Hn Hb. pose proof (land_shiftl_small a b n Hn Hb) as E.
  rewrite <-Z.shiftl_mul_pow2 by done. rewrite Z.add_nocarry_lxor by done. by rewrite Z.lxor_lor.
Qed.

Lemma land_ones_mod a n : 0 <= n -> Z.land a (2 ^ n - 1) = a mod 2 ^ n.
Proof. intros. by rewrite <-Z.land_ones, Z.ones_equiv by done. Qed.

Lemma testbit_mask x n : 0 <= n -> (Z.land x (Z.shiftl 1 n) =? 0) = negb (Z.testbit x n).
Proof.
  intros Hn. rewrite Z.shiftl_1_l. destruct (Z.testbit x n) eqn:E; cbn [negb].
  - apply Z.eqb_neq. intros H. apply (f_equal (fun y => Z.testbit y n)) in H.
    rewrite Z.land_spec, Z.pow2_bits_true, E, Z.bits_0 in H by done. done.
  - apply Z.eqb_eq. apply Z.bits_inj'. intros i Hi.
    rewrite Z.land_spec, Z.bits_0, Z.pow2_bits_eqb by done.
    destruct (Z.eqb_spec n i) as [->|]; [by rewrite E|apply andb_false_r].
Qed.

Lemma testbit_set x n i :
  0 <= n -> 0 <= i -> Z.testbit (Z.lor x (Z.shiftl 1 n)) i = Z.testbit x i || (i =? n).
Proof.
  intros Hn Hi. rewrite Z.lor_spec, Z.shiftl_1_l. f_equal.
  destruct (Z.eqb_spec i n) as [->|]; [by apply Z.pow2_bits_true|apply Z.pow2_bits_false; lia].
Qed.

(** ** Searching lists the way [Iterator::position] and [find] do *)

Fixpoint position {A} (p : A -> bool) (l : list A) : option nat :=
  match l with
  | [] => None
  | x :: l => if p x then Some 0%nat else S <$> position p l
  end.

Lemma position_Some {A} (p : A -> bool) l i :
  position p l = Some i <->
  (exists x, l !! i = Some x /\ p x = true)
  /\ (forall j x, (j < i)%nat -> l !! j = Some x -> p x = false).
Proof.
  revert i. induction l as [|y l IH]; intros i; cbn.
  - split; [done|]. intros [(x & Hx & _) _]. by rewrite lookup_nil in Hx.
  - destruct (p y) eqn:E.
    + split.
      * intros [= <-]. split; [by exists y|]. intros; lia.
      * intros [(x & Hx & Hp) Hmin]. destruct i as [|i]; [done|].
        specialize (Hmin 0%nat y ltac:(lia) eq_refl). congruence.
    + rewrite fmap_Some. split.
      * intros (k & Hk & ->). apply IH in Hk as [(x & Hx & Hp) Hmin].
        split; [by exists x|]. intros [|j] z Hj Hz; cbn in *; [congruence|].
        apply (Hmin j z); [lia|done].
      * intros [(x & Hx & Hp) Hmin]. destruct i as [|i]; cbn in Hx; [congruence|].
        exists i. split; [|done]. apply IH. split; [by exists x|].
        intros j z Hj Hz. apply (Hmin (S j) z); [lia|done].
Qed.

Lemma position_None {A} (p : A -> bool) l :
  position p l = None <-> (forall i x, l !! i = Some x -> p x = false).
Proof.
  induction l as [|y l IH]; cbn.
  - split; [|done]. intros _ i x H. by rewrite lookup_nil in H.
  - destruct (p y) eqn:E.
    + split; [done|]. intros H. specialize (H 0%nat y eq_refl). congruence.
    + rewrite fmap_None, IH. split.
      * intros H [|i] x Hx; cbn in *; [congruence|by eapply H].
      * intros H i x Hx. by apply (H (S i) x).
Qed.

(** The number of entries satisfying a boolean predicate. *)
Definition countb {A} (p : A -> bool) (l : list A) : Z :=
  Z.of_nat (length (List.filter p l)).

Lemma countb_cons {A} (p : A -> bool) x l :
  countb p (x :: l) = (if p x then 1 else 0) + countb p l.
Proof. unfold countb; cbn. destruct (p x); cbn [length]; lia. Qed.

Lemma countb_insert {A} (p : A -> bool) l i x y :
  l !! i = Some x ->
  countb p (<[i:=y]> l) = countb p l - (if p x then 1 else 0) + (if p y then 1 else 0).
Proof.
  revert i. induction l as [|z l IH]; intros i; [by rewrite lookup_nil|].
  destruct i as [|i]; simpl; rewrite !countb_cons.
  - intros [= ->]. lia.
  - intros H. rewrite (IH _ H). lia.
Qed.

Lemma countb_nonneg {A} (p : A -> bool) l : 0 <= countb p l.
Proof. unfold countb. lia. Qed.

Lemma countb_pos {A} (p : A -> bool) l :
  0 < countb p l <-> exists i x, l !! i = Some x /\ p x = true.
Proof.
  induction l as [|z l IH].
  - split; [unfold countb; simpl; lia|]. intros (i & x & H & _). by rewrite lookup_nil in H.
  - rewrite countb_cons. destruct (p z) eqn:E.
    + pose proof (countb_nonneg p l). split; [|lia]. intros _. by exists 0%nat, z.
    + rewrite Z.add_0_l, IH. split.
      * intros (i & x & H & Hp). by exists (S i), x.
      * intros ([|i] & x & H & Hp); cbn in H; [congruence|]. by exists i, x.
Qed.

Lemma countb_le_length {A} (p : A -> bool) l : countb p l <= Z.of_nat (length l).
Proof. unfold countb. pose proof (List.filter_length_le p l). lia. Qed.

(** ** Stateful code that can fail or panic

    A computation on a state [S] ends with a value, an error returned to the caller or a panic;
    the state it leaves is kept in all three cases, since Rust does not roll back. *)
Inductive outcome (E A : Type) : Type :=
| Done (a : A)
| Fail (e : E)
| Panic.
Arguments Done {E A} a.
Arguments Fail {E A} e.
Arguments Panic {E A}.

Definition state (S E A : Type) : Type := S -> S * outcome E A.

(** A fallible computation without a state. *)
Definition out_bind {E A B} (m : outcome E A) (k : A -> outcome E B) : outcome E B :=
  match m with Done a => k a | Fail e => Fail e | Panic => Panic end.
Definition out_unwrap {E A} (o : option A) : outcome E A :=
  match o with Some a => Done a | None => Panic end.
Notation "'let+' x ':=' m 'in' k" := (out_bind m (fun x => k))
  (at level 10, x pattern, m at level 100, k at level 200) : keyos_scope.

Section State.
Context {S E : Type}.

Definition st_ret {A} (a : A) : state S E A := fun s => (s, Done a).
Definition st_bind {A B} (m : state S E A) (k : A -> state S E B) : state S E B := fun s =>
  match m s with
  | (s, Done a) => k a s
  | (s, Fail e) => (s, Fail e)
  | (s, Panic) => (s, Panic)
  end.
Definition st_get : state S E S := fun s => (s, Done s).
Definition st_put (s : S) : state S E unit := fun _ => (s, Done tt).
Definition st_modify (f : S -> S) : state S E unit := fun s => (f s, Done tt).
Definition st_fail {A} (e : E) : state S E A := fun s => (s, Fail e).
Definition st_panic {A} : state S E A := fun s => (s, Panic).
(** [m.ok()], [if let Err(_) = m]: an error becomes a value; a panic stays one. *)
Definition st_try {A} (m : state S E A) : state S E (result E A) := fun s =>
  match m s with
  | (s, Done a) => (s, Done (Ok a))
  | (s, Fail e) => (s, Done (Err e))
  | (s, Panic) => (s, Panic)
  end.
(** [r?] on a [Result], [o.unwrap()] on an [Option], [assert!]. *)
Definition st_lift {A} (r : result E A) : state S E A :=
  match r with Ok a => st_ret a | Err e => st_fail e end.
Definition st_unwrap {A} (o : option A) : state S E A :=
  match o with Some a => st_ret a | None => st_panic end.
Definition st_outcome {A} (o : outcome E A) : state S E A := fun s => (s, o).
Definition st_assert (b : bool) : state S E unit := if b then st_ret tt else st_panic.

End State.

Notation "'let*' x ':=' m 'in' k" := (st_bind m (fun x => k))
  (at level 10, x pattern, m at level 100, k at level 200) : keyos_scope.

(** Postconditions: [Q] of a value, [X] of the state after an error or a panic. *)
Definition ends {S E A} (Q : A -> S -> Prop) (X : S -> Prop) (r : S * outcome E A) : Prop :=
  match r with (s, Done a) => Q a s | (s, Fail _) => X s | (s, Panic) => X s end.

Lemma ends_bind {S E A B} (m : state S E A) (k : A -> state S E B) Q X s :
  ends (fun a s' => ends Q X (k a s')) X (m s) -> ends Q X (st_bind m k s).
Proof. unfold st_bind, ends. by destruct (m s) as [s' [a|e|]]. Qed.

Lemma ends_mono {S E A} (Q Q' : A -> S -> Prop) (X X' : S -> Prop) (r : S * outcome E A) :
  ends Q X r -> (forall a s, Q a s -> Q' a s) -> (forall s, X s -> X' s) -> ends Q' X' r.
Proof. unfold ends. destruct r as [s' [a|e|]]; auto. Qed.

Lemma ends_try {S E A} (m : state S E A) Q X s :
  ends (fun a => Q (Ok a)) (fun s' => (forall e, Q (Err e) s') /\ X s') (m s) -> ends Q X (st_try m s).
Proof. unfold st_try, ends. destruct (m s) as [s' [a|e|]]; naive_solver. Qed.

(** The value of a pure outcome. *)
Lemma ends_outcome {S E A} (o : outcome E A) (Q : A -> S -> Prop) X s :
  (forall a, o = Done a -> Q a s) -> X s -> ends Q X (st_outcome o s).
Proof. destruct o; cbn; auto. Qed.

Lemma st_bind_Done {S E A B} (m : state S E A) (k : A -> state S E B) s s' b :
  st_bind m k s = (s', Done b) -> exists a s1, m s = (s1, Done a) /\ k a s1 = (s', Done b).
Proof. unfold st_bind. destruct (m s) as [s1 [a|e|]]; [eauto|done..]. Qed.

Lemma ends_Done {S E A} (m : state S E A) Q X s s' a : ends Q X (m s) -> m s = (s', Done a) -> Q a s'.
Proof. intros H E'. by rewrite E' in H. Qed.

(** Take apart a run that ended with a value: its first part [E] with the value [a] and the
    state [s] in between. *)
Ltac st_inv H a s E := apply st_bind_Done in H as (a & s & E & H).
