(* ===== verification/Xous.v ===== *)
(** * The kernel ABI data types (xous/xous-rs/src/definitions.rs and definitions/)

    Errors, ids, memory ranges and flags, messages and syscall results, with the
    word-level codecs that carry them over the [svc] boundary. *)
From S2P Require Import Prelude.

(** ** Errors *)

Inductive Error : Type :=
| NoError | BadAlignment | BadAddress | OutOfMemory | MemoryInUse | InterruptNotFound
| InterruptInUse | InvalidString | ServerExists | ServerNotFound | ProcessNotFound
| ProcessNotChild | ProcessTerminated | Timeout | InternalError | ServerQueueFull
| ThreadNotAvailable | UnhandledSyscall | InvalidSyscall | ShareViolation | InvalidThread
| InvalidPID | UnknownError | AccessDenied | Again | DoubleFree | DebugInProgress
| InvalidLimit | ParseError | InvalidPhysicalAddress | InvalidArguments | KernelTableFull.

#[export] Instance Error_eq_dec : EqDecision Error.
Proof. solve_decision. Defined.

Definition Error_discriminant (e : Error) : Z :=
  match e with
  | NoError => 0 | BadAlignment => 1 | BadAddress => 2 | OutOfMemory => 3 | MemoryInUse => 4
  | InterruptNotFound => 5 | InterruptInUse => 6 | InvalidString => 7 | ServerExists => 8
  | ServerNotFound => 9 | ProcessNotFound => 10 | ProcessNotChild => 11
  | ProcessTerminated => 12 | Timeout => 13 | InternalError => 14 | ServerQueueFull => 15
  | ThreadNotAvailable => 16 | UnhandledSyscall => 17 | InvalidSyscall => 18
  | ShareViolation => 19 | InvalidThread => 20 | InvalidPID => 21 | UnknownError => 22
  | AccessDenied => 23 | Again => 24 | DoubleFree => 25 | DebugInProgress => 26
  | InvalidLimit => 27 | ParseError => 28 | InvalidPhysicalAddress => 29
  | InvalidArguments => 30 | KernelTableFull => 31
  end.

Definition Error_from_usize (arg : Z) : Error :=
  match arg with
  | 0 => NoError | 1 => BadAlignment | 2 => BadAddress | 3 => OutOfMemory | 4 => MemoryInUse
  | 5 => InterruptNotFound | 6 => InterruptInUse | 7 => InvalidString | 8 => ServerExists
  | 9 => ServerNotFound | 10 => ProcessNotFound | 11 => ProcessNotChild
  | 12 => ProcessTerminated | 13 => Timeout | 14 => InternalError | 15 => ServerQueueFull
  | 16 => ThreadNotAvailable | 17 => UnhandledSyscall | 18 => InvalidSyscall
  | 19 => ShareViolation | 20 => InvalidThread | 21 => InvalidPID
  | 23 => AccessDenied | 24 => Again | 25 => DoubleFree | 26 => DebugInProgress
  | 27 => InvalidLimit | 28 => ParseError | 29 => InvalidPhysicalAddress
  | 30 => InvalidArguments | 31 => KernelTableFull
  | _ => UnknownError
  end.

Definition Error_to_usize (e : Error) : Z :=
  if decide (e = UnknownError) then USIZE_MAX else Error_discriminant e.

(** ** Identifiers *)

(** A server id: four 32-bit words. *)
Record SID : Type := mkSID { sid0 : Z; sid1 : Z; sid2 : Z; sid3 : Z }.

#[export] Instance SID_eq_dec : EqDecision SID.
Proof. solve_decision. Defined.

Definition SID_from_u32 (a0 a1 a2 a3 : Z) : SID := mkSID a0 a1 a2 a3.
Definition SID_quick_hash (s : SID) : Z :=
  Z.lxor (Z.lxor (Z.lxor (sid0 s) (sid1 s)) (sid2 s)) (sid3 s).

Definition wf_SID (s : SID) : Prop :=
  is_u32 (sid0 s) /\ is_u32 (sid1 s) /\ is_u32 (sid2 s) /\ is_u32 (sid3 s).

(** [u32::to_le_bytes] and [u32::from_le_bytes]. *)
Definition u32_to_le_bytes (x : Z) : list Z :=
  [x mod 256; x / 2 ^ 8 mod 256; x / 2 ^ 16 mod 256; x / 2 ^ 24 mod 256].
Definition u32_from_le_bytes (b0 b1 b2 b3 : Z) : Z :=
  b0 + b1 * 2 ^ 8 + b2 * 2 ^ 16 + b3 * 2 ^ 24.

(** The chunk reader of [SID::from_bytes]: the next four bytes, if there are four. *)
Definition next_chunk (b : list Z) : option Z * list Z :=
  match b with
  | b0 :: b1 :: b2 :: b3 :: rest => (Some (u32_from_le_bytes b0 b1 b2 b3), rest)
  | _ => (None, [])
  end.

Definition SID_from_bytes (b : list Z) : option SID :=
  if decide (16 < length b)%nat then None
  else
    let '(w0, b) := next_chunk b in
    let '(w1, b) := next_chunk b in
    let '(w2, b) := next_chunk b in
    let '(w3, _) := next_chunk b in
    Some (mkSID (nonzero_or0 w0) (nonzero_or0 w1) (nonzero_or0 w2) (nonzero_or0 w3)).

Definition SID_to_bytes (s : SID) : list Z :=
  u32_to_le_bytes (sid0 s) ++ u32_to_le_bytes (sid1 s)
    ++ u32_to_le_bytes (sid2 s) ++ u32_to_le_bytes (sid3 s).

(** An app id: sixteen bytes. *)
Record AppId : Type := mkAppId { app_bytes : list Z }.

#[export] Instance AppId_eq_dec : EqDecision AppId.
Proof. solve_decision. Defined.

Definition APP_ID_SIZE : nat := 16.

Definition wf_AppId (a : AppId) : Prop :=
  length (app_bytes a) = APP_ID_SIZE /\ Forall is_u8 (app_bytes a).

Definition byte_at (l : list Z) (i : nat) : Z := nth i l 0.

(** [From<&AppId> for [u32; 4]]. *)
Definition AppId_to_words (a : AppId) : Z * Z * Z * Z :=
  let w k := u32_from_le_bytes (byte_at (app_bytes a) k) (byte_at (app_bytes a) (k + 1))
               (byte_at (app_bytes a) (k + 2)) (byte_at (app_bytes a) (k + 3)) in
  (w 0%nat, w 4%nat, w 8%nat, w 12%nat).

(** [From<[u32; 4]> for AppId]. *)
Definition AppId_from_words (w0 w1 w2 w3 : Z) : AppId :=
  mkAppId (u32_to_le_bytes w0 ++ u32_to_le_bytes w1 ++ u32_to_le_bytes w2 ++ u32_to_le_bytes w3).

(** [AppId::truncate]: the first sixteen bytes, zero padded. *)
Definition AppId_truncate (bytes : list Z) : AppId :=
  mkAppId (take APP_ID_SIZE bytes ++ replicate (APP_ID_SIZE - length bytes) 0).

Definition pid_from_usize (src : Z) : result Error Z :=
  if src >? 255 then Err InvalidPID else ok_or (nonzero_new (u8 src)) InvalidPID.

(** ** Memory ranges and flags *)

Record MemoryRange : Type := mkRange { range_addr : Z; range_size : Z }.

#[export] Instance MemoryRange_eq_dec : EqDecision MemoryRange.
Proof. solve_decision. Defined.

Definition wf_range (r : MemoryRange) : Prop :=
  is_nonzero (range_addr r) /\ is_nonzero (range_size r).

Definition MemoryRange_new (addr size : Z) : result Error MemoryRange :=
  let? a := ok_or (nonzero_new addr) BadAddress in
  let? s := ok_or (nonzero_new size) BadAddress in
  Ok (mkRange a s).

Definition MemoryRange_subrange (r : MemoryRange) (offset len : Z) : option MemoryRange :=
  let! e := checked_add offset len in
  if e >? range_size r then None
  else
    let! a := checked_add (range_addr r) offset in
    let! l := nonzero_new len in
    Some (mkRange a l).

(** Memory flags are their [bits]. *)
Definition FLAGS_ALL : Z := 0x7d.
Definition MF_POPULATE : Z := 0x01.
Definition MF_W : Z := 0x04.
Definition MF_X : Z := 0x08.
Definition MF_DEV : Z := 0x10.
Definition MF_NO_CACHE : Z := 0x20.
Definition MF_PLAINTEXT : Z := 0x40.
Definition MemoryFlags_from_bits (raw : Z) : Z := Z.land raw FLAGS_ALL.
Definition MemoryFlags_is_set (flags mask : Z) : bool := Z.land flags mask =? mask.

(** The operators of [core::ops] on the [usize] bits: [!x] is the bitwise complement in the width
    of a [usize]. [Not] keeps the low four bits only. *)
Definition usize_not (x : Z) : Z := Z.lxor x USIZE_MAX.
Definition MemoryFlags_bitor (a b : Z) : Z := Z.lor a b.
Definition MemoryFlags_bitxor (a b : Z) : Z := Z.lxor a b.
Definition MemoryFlags_bitand (a b : Z) : Z := Z.land a b.
Definition MemoryFlags_sub (a b : Z) : Z := Z.land a (usize_not b).
Definition MemoryFlags_not (a : Z) : Z := Z.land (usize_not a) 15.

Definition wf_flags (f : Z) : Prop := MemoryFlags_from_bits f = f.

(** ** Small enumerations carried as one word *)

Inductive CacheOperation : Type := Clean | Invalidate | CleanAndInvalidate.
Definition CacheOperation_as_usize (o : CacheOperation) : Z :=
  match o with Clean => 0 | Invalidate => 1 | CleanAndInvalidate => 2 end.
Definition CacheOperation_from (v : Z) : CacheOperation :=
  match v with 0 => Clean | 1 => Invalidate | _ => CleanAndInvalidate end.

Inductive DramIdleMode : Type := KeepClocked | LowPower.
Definition DramIdleMode_as_usize (m : DramIdleMode) : Z :=
  match m with KeepClocked => 0 | LowPower => 1 end.
Definition DramIdleMode_from (v : Z) : DramIdleMode :=
  match v with 1 => LowPower | _ => KeepClocked end.

Inductive SystemEvent : Type := ChildTerminated | Disconnected | LowFreeMemory | PermissionRequested.
Definition SystemEvent_as_usize (e : SystemEvent) : Z :=
  match e with ChildTerminated => 0 | Disconnected => 1 | LowFreeMemory => 2
  | PermissionRequested => 3 end.
Definition SystemEvent_from (v : Z) : SystemEvent :=
  match v with 0 => ChildTerminated | 1 => Disconnected | 2 => LowFreeMemory
  | 3 => PermissionRequested | _ => ChildTerminated end.
Definition NUM_SYSTEM_EVENTS : nat := 4.

Inductive ServerEvent : Type := NewConnection | ServerDisconnected.
Definition ServerEvent_as_usize (e : ServerEvent) : Z :=
  match e with NewConnection => 0 | ServerDisconnected => 1 end.
Definition ServerEvent_from (v : Z) : ServerEvent :=
  match v with 0 => NewConnection | 1 => ServerDisconnected | _ => NewConnection end.
Definition NUM_SERVER_EVENTS : nat := 2.

Inductive SystemStat : Type := FreeMemory | IsSystemLowOnMemory.
Definition SystemStat_as_usize (s : SystemStat) : Z :=
  match s with FreeMemory => 0 | IsSystemLowOnMemory => 1 end.
Definition SystemStat_from (v : Z) : SystemStat :=
  match v with 0 => FreeMemory | 1 => IsSystemLowOnMemory | _ => FreeMemory end.

Inductive PermissionRequestField : Type := Target | FieldAppId.
Definition PermissionRequestField_to_usize (f : PermissionRequestField) : Z :=
  match f with Target => 0 | FieldAppId => 1 end.
Definition PermissionRequestField_from (v : Z) : PermissionRequestField :=
  match v with 1 => FieldAppId | _ => Target end.

Inductive ThreadPriority : Type :=
| Idle | AppBackground0 | AppBackground1 | AppDefault | AppHigh0 | AppHigh1
| System0 | System1 | System2 | System3 | System4 | System5 | System6 | System7 | System8
| Highest.

#[export] Instance ThreadPriority_eq_dec : EqDecision ThreadPriority.
Proof. solve_decision. Defined.

Definition ThreadPriority_as_usize (p : ThreadPriority) : Z :=
  match p with
  | Idle => 0 | AppBackground0 => 1 | AppBackground1 => 2 | AppDefault => 3 | AppHigh0 => 4
  | AppHigh1 => 5 | System0 => 6 | System1 => 7 | System2 => 8 | System3 => 9 | System4 => 10
  | System5 => 11 | System6 => 12 | System7 => 13 | System8 => 14 | Highest => 15
  end.
Definition ThreadPriority_from (v : Z) : ThreadPriority :=
  match v with
  | 0 => Idle | 1 => AppBackground0 | 2 => AppBackground1 | 3 => AppDefault | 4 => AppHigh0
  | 5 => AppHigh1 | 6 => System0 | 7 => System1 | 8 => System2 | 9 => System3 | 10 => System4
  | 11 => System5 | 12 => System6 | 13 => System7 | 14 => System8 | 15 => Highest
  | _ => AppDefault
  end.

(** ** Messages *)

Record MemoryMessage : Type := mkMemoryMessage {
  mm_id : Z;
  mm_buf : MemoryRange;
  mm_offset : option Z;
  mm_valid : option Z
}.

Record ScalarMessage : Type := mkScalarMessage {
  sc_id : Z; sc_arg1 : Z; sc_arg2 : Z; sc_arg3 : Z; sc_arg4 : Z
}.

Inductive Message : Type :=
| MutableBorrow (m : MemoryMessage)
| Borrow (m : MemoryMessage)
| Move (m : MemoryMessage)
| Scalar (m : ScalarMessage)
| BlockingScalar (m : ScalarMessage)
| BlockingMove (m : MemoryMessage).

(** A message sender is one opaque word. *)
Definition MessageSender : Type := Z.
Definition MessageSender_pid (data : MessageSender) : option Z :=
  nonzero_new (Z.land (Z.shiftr data 24) 0xff).

Record MessageEnvelope : Type := mkEnvelope { env_sender : MessageSender; env_body : Message }.

(** Five and six word payloads. *)
Inductive words5 : Type := W5 (w0 w1 w2 w3 w4 : Z).
Inductive words6 : Type := W6 (w0 w1 w2 w3 w4 w5 : Z).
Inductive words7 : Type := W7 (w0 w1 w2 w3 w4 w5 w6 : Z).
Inductive words8 : Type := W8 (w0 w1 w2 w3 w4 w5 w6 w7 : Z).

Definition MemoryMessage_from_usize (id addr size offset valid : Z) : option MemoryMessage :=
  let! a := nonzero_new addr in
  let! s := nonzero_new size in
  Some (mkMemoryMessage id (mkRange a s) (nonzero_new offset) (nonzero_new valid)).

Definition MemoryMessage_to_usize (m : MemoryMessage) : words5 :=
  W5 (mm_id m) (range_addr (mm_buf m)) (range_size (mm_buf m))
     (nonzero_or0 (mm_offset m)) (nonzero_or0 (mm_valid m)).

Definition ScalarMessage_from_usize (id arg1 arg2 arg3 arg4 : Z) : ScalarMessage :=
  mkScalarMessage id arg1 arg2 arg3 arg4.

Definition ScalarMessage_to_usize (m : ScalarMessage) : words5 :=
  W5 (sc_id m) (sc_arg1 m) (sc_arg2 m) (sc_arg3 m) (sc_arg4 m).

Definition new_scalar (id a1 a2 a3 a4 : Z) : Message := Scalar (mkScalarMessage id a1 a2 a3 a4).

Definition is_blocking (m : Message) : bool :=
  match m with
  | MutableBorrow _ | Borrow _ | BlockingScalar _ | BlockingMove _ => true
  | Move _ | Scalar _ => false
  end.

Definition has_memory (m : Message) : bool :=
  match m with
  | MutableBorrow _ | Borrow _ | Move _ | BlockingMove _ => true
  | BlockingScalar _ | Scalar _ => false
  end.

Definition memory_message (m : Message) : option MemoryMessage :=
  match m with
  | MutableBorrow m | Borrow m | Move m | BlockingMove m => Some m
  | BlockingScalar _ | Scalar _ => None
  end.

Definition message_memory (m : Message) : option MemoryRange := mm_buf <$> memory_message m.

Definition message_type (m : Message) : Z :=
  match m with
  | MutableBorrow _ => 1 | Borrow _ => 2 | Move _ => 3
  | Scalar _ => 4 | BlockingScalar _ => 5 | BlockingMove _ => 6
  end.

Definition message_id (m : Message) : Z :=
  match m with
  | MutableBorrow m | Borrow m | Move m | BlockingMove m => mm_id m
  | Scalar s | BlockingScalar s => sc_id s
  end.

Definition Message_to_usize (m : Message) : words6 :=
  let '(tag, W5 w0 w1 w2 w3 w4) :=
    match m with
    | MutableBorrow m => (0, MemoryMessage_to_usize m)
    | Borrow m => (1, MemoryMessage_to_usize m)
    | Move m => (2, MemoryMessage_to_usize m)
    | Scalar m => (3, ScalarMessage_to_usize m)
    | BlockingScalar m => (4, ScalarMessage_to_usize m)
    | BlockingMove m => (5, MemoryMessage_to_usize m)
    end in
  W6 tag w0 w1 w2 w3 w4.

(** The syscall-side decoder, [TryFrom<(usize, ..)> for Message]: tags 1 to 6. *)
Definition Message_try_from (v0 v1 v2 v3 v4 v5 : Z) : option Message :=
  let memory (c : MemoryMessage -> Message) : option Message :=
    match MemoryRange_new v2 v3 with
    | Ok buf => Some (c (mkMemoryMessage v1 buf (nonzero_new v4) (nonzero_new v5)))
    | Err _ => None
    end in
  match v0 with
  | 1 => memory MutableBorrow
  | 2 => memory Borrow
  | 3 => memory Move
  | 4 => Some (Scalar (mkScalarMessage v1 v2 v3 v4 v5))
  | 5 => Some (BlockingScalar (mkScalarMessage v1 v2 v3 v4 v5))
  | 6 => memory BlockingMove
  | _ => None
  end.

Definition Envelope_to_usize (e : MessageEnvelope) : words7 :=
  let '(W6 b0 b1 b2 b3 b4 b5) := Message_to_usize (env_body e) in
  W7 (env_sender e) b0 b1 b2 b3 b4 b5.

Definition wf_memory_message (m : MemoryMessage) : Prop :=
  is_usize (mm_id m) /\ wf_range (mm_buf m)
  /\ is_opt_nonzero (mm_offset m) /\ is_opt_nonzero (mm_valid m).
Definition wf_scalar_message (m : ScalarMessage) : Prop :=
  is_usize (sc_id m) /\ is_usize (sc_arg1 m) /\ is_usize (sc_arg2 m)
  /\ is_usize (sc_arg3 m) /\ is_usize (sc_arg4 m).
Definition wf_message (m : Message) : Prop :=
  match m with
  | MutableBorrow m | Borrow m | Move m | BlockingMove m => wf_memory_message m
  | Scalar s | BlockingScalar s => wf_scalar_message s
  end.

(** ** Syscall results *)

(** What [create_process] hands back: the new process id (xous-rs/src/arch/arm/mod.rs). *)
Record ProcessStartup : Type := mkStartup { startup_pid : Z }.

Definition ProcessStartup_into (p : ProcessStartup) : words7 := W7 (startup_pid p) 0 0 0 0 0 0.
Definition ProcessStartup_from (src : words8) : ProcessStartup :=
  let '(W8 _ s1 _ _ _ _ _ _) := src in
  mkStartup (match nonzero_new (u8 s1) with Some o => o | None => 255 end).

Inductive Result : Type :=
| ROk
| RError (e : Error)
| RMemoryAddress (a : Z)
| RMemoryRange (r : MemoryRange)
| RReadyThreads (count pid0 ctx0 pid1 ctx1 pid2 ctx2 : Z)
| RResumeProcess
| RServerID (s : SID)
| RConnectionID (c : Z)
| RNewServerID (s : SID)
| RMessageEnvelope (m : MessageEnvelope)
| RThreadID (t : Z)
| RProcessID (p : Z)
| RUnimplemented
| RReserved
| RScalar1 (a : Z)
| RScalar2 (a b : Z)
| RRetryCall
| RNone
| RMemoryReturned (r : MemoryRange) (offset valid : option Z)
| RNewProcess (p : ProcessStartup)
| RScalar5 (a b c d e : Z)
| RMessage (m : Message)
| RUnknownResult (a1 a2 a3 a4 a5 a6 a7 : Z).

Definition add_opcode (opcode : Z) (args : words7) : words8 :=
  let '(W7 a0 a1 a2 a3 a4 a5 a6) := args in W8 opcode a0 a1 a2 a3 a4 a5 a6.

Definition Result_to_args (r : Result) : words8 :=
  match r with
  | ROk => W8 0 0 0 0 0 0 0 0
  | RError e => W8 1 (Error_to_usize e) 0 0 0 0 0 0
  | RMemoryAddress s => W8 2 s 0 0 0 0 0 0
  | RMemoryRange r => W8 3 (range_addr r) (range_size r) 0 0 0 0 0
  | RReadyThreads count pid0 ctx0 pid1 ctx1 pid2 ctx2 => W8 4 count pid0 ctx0 pid1 ctx1 pid2 ctx2
  | RResumeProcess => W8 5 0 0 0 0 0 0 0
  | RServerID s => W8 6 (sid0 s) (sid1 s) (sid2 s) (sid3 s) 0 0 0
  | RConnectionID cid => W8 7 cid 0 0 0 0 0 0
  | RMessageEnvelope me =>
      let '(W7 m0 m1 m2 m3 m4 m5 m6) := Envelope_to_usize me in W8 9 m0 m1 m2 m3 m4 m5 m6
  | RThreadID ctx => W8 10 ctx 0 0 0 0 0 0
  | RProcessID pid => W8 11 pid 0 0 0 0 0 0
  | RUnimplemented => W8 21 0 0 0 0 0 0 0
  | RReserved => W8 13 0 0 0 0 0 0 0
  | RScalar1 a => W8 14 a 0 0 0 0 0 0
  | RScalar2 a b => W8 15 a b 0 0 0 0 0
  | RNewServerID s => W8 8 (sid0 s) (sid1 s) (sid2 s) (sid3 s) 0 0 0
  | RRetryCall => W8 16 0 0 0 0 0 0 0
  | RNone => W8 17 0 0 0 0 0 0 0
  | RMemoryReturned range offset valid =>
      W8 18 (nonzero_or0 offset) (nonzero_or0 valid) (range_addr range) (range_size range) 0 0 0
  | RNewProcess p => add_opcode 19 (ProcessStartup_into p)
  | RScalar5 a b c d e => W8 20 a b c d e 0 0
  | RMessage message =>
      let '(W6 e0 e1 e2 e3 e4 e5) := Message_to_usize message in W8 21 e0 e1 e2 e3 e4 e5 0
  | RUnknownResult a1 a2 a3 a4 a5 a6 a7 => W8 USIZE_MAX a1 a2 a3 a4 a5 a6 a7
  end.

(** The message decoder both message-carrying results use: tags 0 to 5. *)
Definition message_from_result (tag w0 w1 w2 w3 w4 : Z) : option Message :=
  match tag with
  | 0 => MutableBorrow <$> MemoryMessage_from_usize w0 w1 w2 w3 w4
  | 1 => Borrow <$> MemoryMessage_from_usize w0 w1 w2 w3 w4
  | 2 => Move <$> MemoryMessage_from_usize w0 w1 w2 w3 w4
  | 3 => Some (Scalar (ScalarMessage_from_usize w0 w1 w2 w3 w4))
  | 4 => Some (BlockingScalar (ScalarMessage_from_usize w0 w1 w2 w3 w4))
  | 5 => BlockingMove <$> MemoryMessage_from_usize w0 w1 w2 w3 w4
  | _ => None
  end.

(** [None] is the [unwrap] panic on a process id whose low byte is zero. *)
Definition Result_from_args (src : words8) : option Result :=
  let '(W8 s0 s1 s2 s3 s4 s5 s6 s7) := src in
  match s0 with
  | 0 => Some ROk
  | 1 => Some (RError (Error_from_usize s1))
  | 2 => Some (match nonzero_new s1 with
               | None => RError InternalError
               | Some s => RMemoryAddress s
               end)
  | 3 => Some (match nonzero_new s1, nonzero_new s2 with
               | Some addr, Some size => RMemoryRange (mkRange addr size)
               | _, _ => RError InternalError
               end)
  | 4 => Some (RReadyThreads s1 s2 s3 s4 s5 s6 s7)
  | 5 => Some RResumeProcess
  | 6 => Some (RServerID (SID_from_u32 (u32 s1) (u32 s2) (u32 s3) (u32 s4)))
  | 7 => Some (RConnectionID (u32 s1))
  | 8 => Some (RNewServerID (SID_from_u32 (u32 s1) (u32 s2) (u32 s3) (u32 s4)))
  | 9 => Some (match message_from_result s2 s3 s4 s5 s6 s7 with
               | None => RError InternalError
               | Some message => RMessageEnvelope (mkEnvelope s1 message)
               end)
  | 10 => Some (RThreadID s1)
  | 11 => let! p := nonzero_new (u8 s1) in Some (RProcessID p)
  | 12 => Some RUnimplemented
  | 13 => Some RReserved
  | 14 => Some (RScalar1 s1)
  | 15 => Some (RScalar2 s1 s2)
  | 16 => Some RRetryCall
  | 17 => Some RNone
  | 18 => Some (match nonzero_new s3, nonzero_new s4 with
                | Some addr, Some size =>
                    RMemoryReturned (mkRange addr size) (nonzero_new s1) (nonzero_new s2)
                | _, _ => RError InternalError
                end)
  | 19 => Some (RNewProcess (ProcessStartup_from src))
  | 20 => Some (RScalar5 s1 s2 s3 s4 s5)
  | 21 => Some (match message_from_result s1 s2 s3 s4 s5 s6 with
                | None => RError InternalError
                | Some m => RMessage m
                end)
  | _ => Some (RUnknownResult s0 s1 s2 s3 s4 s5 s6)
  end.

(** Values whose fields have their Rust types. *)
Definition wf_result (r : Result) : Prop :=
  match r with
  | RMemoryAddress a => is_nonzero a
  | RMemoryRange r => wf_range r
  | RServerID s | RNewServerID s => wf_SID s
  | RConnectionID c => is_u32 c
  | RMessageEnvelope e => wf_message (env_body e)
  | RProcessID p => is_pid p
  | RMemoryReturned r o v => wf_range r /\ is_opt_nonzero o /\ is_opt_nonzero v
  | RNewProcess p => is_pid (startup_pid p)
  | RMessage m => wf_message m
  | _ => True
  end.

(** What the receiver of a result sees: the two values whose encoding is not the one
    [Result_from_args] expects are read as something else. *)
Definition received (r : Result) : Result :=
  match r with
  | RUnimplemented => RError InternalError
  | RUnknownResult a1 a2 a3 a4 a5 a6 _ => RUnknownResult USIZE_MAX a1 a2 a3 a4 a5 a6
  | r => r
  end.

#[global] Arguments AppId_to_words : simpl never.
#[global] Arguments AppId_from_words : simpl never.

(** ** Lemmas *)

Lemma Error_usize_roundtrip e : Error_from_usize (Error_to_usize e) = e.
Proof. by destruct e. Qed.

Lemma wf_memory_message_roundtrip m :
  wf_memory_message m ->
  let '(W5 w0 w1 w2 w3 w4) := MemoryMessage_to_usize m in
  MemoryMessage_from_usize w0 w1 w2 w3 w4 = Some m.
Proof.
  destruct m as [id [a s] o v]; cbn. intros (Hid & [Ha Hs] & Ho & Hv).
  unfold MemoryMessage_from_usize; cbn in *. autorewrite with ints. done.
Qed.

Lemma message_from_result_roundtrip m :
  wf_message m ->
  let '(W6 t w0 w1 w2 w3 w4) := Message_to_usize m in
  message_from_result t w0 w1 w2 w3 w4 = Some m.
Proof.
  destruct m as [m|m|m|m|m|m]; cbn; intros Hm;
    try (pose proof (wf_memory_message_roundtrip _ Hm) as E;
         unfold MemoryMessage_to_usize in *; by rewrite E);
    by destruct m.
Qed.

(** The syscall-side decoder reads the same payload under the tag [message_type]. *)
Lemma Message_try_from_roundtrip m :
  wf_message m ->
  let '(W6 _ w0 w1 w2 w3 w4) := Message_to_usize m in
  Message_try_from (message_type m) w0 w1 w2 w3 w4 = Some m.
Proof.
  destruct m as [m|m|m|m|m|m]; cbn; intros Hm; destruct m; cbn in *; try done;
    destruct mm_buf0 as [a s], Hm as (? & [Ha Hs] & ? & ?); cbn in *;
    unfold Message_try_from, MemoryRange_new; by autorewrite with ints.
Qed.

Lemma ProcessStartup_roundtrip p :
  is_pid (startup_pid p) -> ProcessStartup_from (add_opcode 19 (ProcessStartup_into p)) = p.
Proof. destruct p; cbn. intros H. by autorewrite with ints. Qed.

#[export] Hint Rewrite Error_usize_roundtrip : ints.

(** C36: A result written to the eight syscall registers is read back by user space as the same value,
    for every result whose fields have their Rust types; the exceptions are exactly
    [Unimplemented], whose opcode is the one of a message and which therefore reads back as
    [Error(InternalError)], and [UnknownResult], whose registers come back shifted by one. *)
Theorem Result_roundtrip r :
  wf_result r -> Result_from_args (Result_to_args r) = Some (received r).
Proof.
  destruct r as [|e|a|[]| | |[]| |[]|[snd m]| | | | | | | | |[] o v|p| |m|]; intros Hwf;
    cbn -[Error_from_usize Error_to_usize u8 u32 ProcessStartup_from] in *;
    unfold wf_SID, wf_range in *; cbn in Hwf; destruct_and?; try by autorewrite with ints.
  - pose proof (message_from_result_roundtrip _ Hwf) as E. unfold Envelope_to_usize; cbn.
    destruct (Message_to_usize m). cbn -[message_from_result]. by rewrite E.
  - f_equal. f_equal. by apply ProcessStartup_roundtrip.
  - pose proof (message_from_result_roundtrip _ Hwf) as E.
    destruct (Message_to_usize m). cbn -[message_from_result]. by rewrite E.
Qed.

Lemma Result_roundtrip_witness :
  let r := RMessageEnvelope (mkEnvelope 0x2000005
             (MutableBorrow (mkMemoryMessage 7 (mkRange 0x10000 4096) (Some 5) None))) in
  wf_result r /\ Result_from_args (Result_to_args r) = Some r.
Proof.
  split; [vm_compute; intuition congruence|].
  apply (Result_roundtrip (RMessageEnvelope (mkEnvelope 0x2000005
           (MutableBorrow (mkMemoryMessage 7 (mkRange 0x10000 4096) (Some 5) None))))).
  vm_compute; intuition congruence.
Defined.

Lemma u32_le_bytes_roundtrip x :
  is_u32 x ->
  u32_from_le_bytes (x mod 256) (x / 2 ^ 8 mod 256) (x / 2 ^ 16 mod 256) (x / 2 ^ 24 mod 256) = x.
Proof.
  unfold u32_from_le_bytes, is_u32. intros Hx.
  change (2 ^ 8) with 256; change (2 ^ 16) with (256 * 256); change (2 ^ 24) with (256 * 256 * 256).
  rewrite <-!Z.div_div by lia. Z.div_mod_to_equations. lia.
Qed.

Lemma u32_to_le_bytes_wf x : Forall is_u8 (u32_to_le_bytes x).
Proof.
  unfold u32_to_le_bytes, is_u8. repeat constructor; apply Z.mod_pos_bound; lia.
Qed.

(** A server id printed to bytes parses back. *)
Lemma SID_bytes_roundtrip s : wf_SID s -> SID_from_bytes (SID_to_bytes s) = Some s.
Proof.
  destruct s as [a b c d]; unfold wf_SID; cbn -[Z.pow Z.div Z.modulo u32_from_le_bytes].
  intros (?&?&?&?). unfold SID_from_bytes; cbn -[Z.pow Z.div Z.modulo u32_from_le_bytes].
  by rewrite !u32_le_bytes_roundtrip.
Qed.

Lemma AppId_words_roundtrip w0 w1 w2 w3 :
  is_u32 w0 -> is_u32 w1 -> is_u32 w2 -> is_u32 w3 ->
  AppId_to_words (AppId_from_words w0 w1 w2 w3) = (w0, w1, w2, w3).
Proof.
  intros. unfold AppId_to_words, AppId_from_words, byte_at;
    cbn -[Z.pow Z.div Z.modulo u32_from_le_bytes].
  by rewrite !u32_le_bytes_roundtrip.
Qed.

Lemma u32_from_le_bytes_bytes b0 b1 b2 b3 :
  is_u8 b0 -> is_u8 b1 -> is_u8 b2 -> is_u8 b3 ->
  u32_to_le_bytes (u32_from_le_bytes b0 b1 b2 b3) = [b0; b1; b2; b3]
  /\ is_u32 (u32_from_le_bytes b0 b1 b2 b3).
Proof.
  unfold u32_to_le_bytes, u32_from_le_bytes, is_u8, is_u32. intros.
  change (2 ^ 8) with 256 in *; change (2 ^ 16) with (256 * 256);
    change (2 ^ 24) with (256 * 256 * 256).
  split; [|lia]. rewrite <-!Z.div_div by lia.
  f_equal; [|f_equal; [|f_equal; [|f_equal]]]; Z.div_mod_to_equations; lia.
Qed.

(** Sixteen bytes survive the trip through four words. *)
Lemma AppId_bytes_roundtrip a :
  wf_AppId a -> let '(w0, w1, w2, w3) := AppId_to_words a in
  AppId_from_words w0 w1 w2 w3 = a /\ is_u32 w0 /\ is_u32 w1 /\ is_u32 w2 /\ is_u32 w3.
Proof.
  destruct a as [l]. intros [Hlen Hb]; cbn in Hlen, Hb.
  do 16 (destruct l as [|? l]; [discriminate Hlen|]). destruct l; [|discriminate Hlen].
  rewrite !Forall_cons_iff in Hb. destruct_and! Hb.
  unfold AppId_to_words, AppId_from_words, byte_at;
    cbn -[u32_from_le_bytes u32_to_le_bytes is_u32].
  repeat match goal with
  | |- context [u32_from_le_bytes ?a ?b ?c ?d] =>
      lazymatch goal with
      | _ : is_u32 (u32_from_le_bytes a b c d) |- _ => fail
      | _ => destruct (u32_from_le_bytes_bytes a b c d) as [-> ?]; [done..|]
      end
  end.
  split_and!; done.
Qed.
