(* ===== verification/SysCall.v ===== *)
(** * The syscall codec (xous/xous-rs/src/syscall.rs)

    The [SysCall] type, its eight-word encoding [as_args] and the kernel's decoder
    [from_args], with the classification predicates the kernel applies to a call. *)
From S2P Require Import Prelude Xous.

(** ** Thread and process start-up arguments (xous-rs/src/arch/arm/mod.rs) *)

Record ThreadInit : Type := mkThreadInit {
  ti_call : Z; ti_stack : MemoryRange; ti_arg1 : Z; ti_arg2 : Z; ti_arg3 : Z; ti_arg4 : Z
}.

Definition PAGE_SIZE : Z := 4096.

Definition args_to_thread (a1 a2 a3 a4 a5 a6 a7 : Z) : result Error ThreadInit :=
  if negb (Z.land a2 (PAGE_SIZE - 1) =? 0) || negb (Z.land a3 (PAGE_SIZE - 1) =? 0)
  then Err BadAlignment
  else match MemoryRange_new a2 a3 with
       | Ok stack => Ok (mkThreadInit a1 stack a4 a5 a6 a7)
       | Err _ => Err InvalidSyscall
       end.

Definition thread_to_args (syscall : Z) (init : ThreadInit) : words8 :=
  W8 syscall (ti_call init) (range_addr (ti_stack init)) (range_size (ti_stack init))
     (ti_arg1 init) (ti_arg2 init) (ti_arg3 init) (ti_arg4 init).

Record ProcessInit : Type := mkProcessInit {
  pi_elf : MemoryRange; pi_name_addr : Z; pi_app_id : AppId
}.

Definition ProcessInit_into (src : ProcessInit) : words7 :=
  let '(w0, w1, w2, w3) := AppId_to_words (pi_app_id src) in
  W7 (range_addr (pi_elf src)) (range_size (pi_elf src)) (pi_name_addr src) w0 w1 w2 w3.

Definition ProcessInit_try_from (s0 s1 s2 s3 s4 s5 s6 : Z) : result Error ProcessInit :=
  match MemoryRange_new s0 s1 with
  | Err _ => Err OutOfMemory
  | Ok elf =>
      let? name_addr := ok_or (nonzero_new s2) OutOfMemory in
      Ok (mkProcessInit elf name_addr (AppId_from_words (u32 s3) (u32 s4) (u32 s5) (u32 s6)))
  end.

(** ** System calls *)

(** A half-open range of message ids, [core::ops::Range<MessageId>]. *)
Record MessageRange : Type := mkMsgRange { r_start : Z; r_end : Z }.

Inductive SysCall : Type :=
| MapMemory (phys virt : option Z) (size : Z) (flags : Z)
| UnmapMemory (r : MemoryRange)
| UpdateMemoryFlags (r : MemoryRange) (flags : Z) (pid : option Z)
| Yield
| SetThreadPriority (p : ThreadPriority)
| ReceiveMessage (s : SID)
| TryReceiveMessage (s : SID)
| ClaimInterrupt (irq : Z) (callback : Z) (arg : option Z)
| FreeInterrupt (irq : Z)
| FutexWait (addr val : Z)
| FutexWake (addr n : Z)
| CreateServerWithAddress (s : SID) (messages : MessageRange)
| Connect (s : SID)
| TryConnect (s : SID)
| SendMessage (cid : Z) (m : Message)
| TrySendMessage (cid : Z) (m : Message)
| ReturnMemory (sender : MessageSender) (r : MemoryRange) (offset valid : option Z)
| ReturnScalar1 (sender : MessageSender) (a : Z)
| ReturnScalar2 (sender : MessageSender) (a b : Z)
| CreateThread (init : ThreadInit)
| CreateProcess (init : ProcessInit)
| TerminateProcess (code : Z)
| TerminatePid (pid code : Z)
| Shutdown (code : Z)
| CreateServer
| CreateServerId
| ConnectForProcess (pid : Z) (s : SID)
| GetRemoteProcessId (cid : Z)
| GetServerOwner (s : SID)
| GetThreadId
| GetProcessId
| DestroyServer (s : SID)
| Disconnect (cid : Z)
| JoinThread (tid : Z)
| VirtToPhys (vaddr : Z)
| ReturnScalar5 (sender : MessageSender) (a b c d e : Z)
| VirtToPhysPid (pid vaddr : Z)
| GetAppId (pid : Z)
| AllowMessagesSID (s : SID) (messages : MessageRange)
| AllowMessagesCID (pid cid : Z) (messages : MessageRange)
| ResolveMessagePermission (request_id : Z) (allow : bool)
| GetPermissionRequestData (request_id : Z) (field : PermissionRequestField)
| FlushCache (r : MemoryRange) (op : CacheOperation)
| PowerManagement (m : DramIdleMode)
| AppIdToPid (a : AppId)
| ServerEventHandler (e : ServerEvent) (s : SID) (id : Z)
| MirrorMemoryToPid (r : MemoryRange) (pid : Z)
| DebugCommand (r : MemoryRange) (cmd : Z)
| GetSystemStats (s : SystemStat)
| SystemEventHandler (e : SystemEvent) (s : SID) (id : Z)
| AppendPanicMessage (len a1 a2 a3 a4 a5 a6 : Z)
| GetPanicMessage (r : MemoryRange)
| Invalid (a1 a2 a3 a4 a5 a6 a7 : Z).

Inductive SysCallNumber : Type :=
| NMapMemory | NYield | NSetThreadPriority | NClaimInterrupt | NFreeInterrupt | NFutexWait
| NFutexWake | NUpdateMemoryFlags | NCreateServerWithAddress | NReceiveMessage | NSendMessage
| NConnect | NCreateThread | NUnmapMemory | NReturnMemory | NCreateProcess
| NTerminateProcess | NShutdown | NTrySendMessage | NTryConnect | NReturnScalar1
| NReturnScalar2 | NTryReceiveMessage | NCreateServer | NConnectForProcess | NCreateServerId
| NGetThreadId | NGetProcessId | NDestroyServer | NDisconnect | NJoinThread
| NGetRemoteProcessId | NGetServerOwner | NVirtToPhys | NReturnScalar5 | NVirtToPhysPid
| NGetAppId | NAllowMessagesSID | NAllowMessagesCID | NInvalidateCache | NPowerManagement
| NAppIdToPid | NServerEventHandler | NMirrorMemoryToPid | NDebugCommand | NGetSystemStats
| NTerminatePid | NSystemEventHandler | NAppendPanicMessage | NGetPanicMessage
| NResolveMessagePermission | NGetPermissionRequestData | NInvalid.

Definition SysCallNumber_as_usize (n : SysCallNumber) : Z :=
  match n with
  | NMapMemory => 2 | NYield => 3 | NSetThreadPriority => 4 | NClaimInterrupt => 5
  | NFreeInterrupt => 6 | NFutexWait => 7 | NFutexWake => 8 | NUpdateMemoryFlags => 12
  | NCreateServerWithAddress => 14 | NReceiveMessage => 15 | NSendMessage => 16
  | NConnect => 17 | NCreateThread => 18 | NUnmapMemory => 19 | NReturnMemory => 20
  | NCreateProcess => 21 | NTerminateProcess => 22 | NShutdown => 23 | NTrySendMessage => 24
  | NTryConnect => 25 | NReturnScalar1 => 26 | NReturnScalar2 => 27
  | NTryReceiveMessage => 28 | NCreateServer => 29 | NConnectForProcess => 30
  | NCreateServerId => 31 | NGetThreadId => 32 | NGetProcessId => 33 | NDestroyServer => 34
  | NDisconnect => 35 | NJoinThread => 36 | NGetRemoteProcessId => 37 | NGetServerOwner => 38
  | NVirtToPhys => 39 | NReturnScalar5 => 40 | NVirtToPhysPid => 42 | NGetAppId => 43
  | NAllowMessagesSID => 44 | NAllowMessagesCID => 45 | NInvalidateCache => 46
  | NPowerManagement => 47 | NAppIdToPid => 48 | NServerEventHandler => 49
  | NMirrorMemoryToPid => 50 | NDebugCommand => 51 | NGetSystemStats => 52
  | NTerminatePid => 53 | NSystemEventHandler => 54 | NAppendPanicMessage => 55
  | NGetPanicMessage => 56 | NResolveMessagePermission => 57
  | NGetPermissionRequestData => 58 | NInvalid => 59
  end.

Definition SysCallNumber_from (val : Z) : SysCallNumber :=
  match val with
  | 2 => NMapMemory | 3 => NYield | 4 => NSetThreadPriority | 5 => NClaimInterrupt
  | 6 => NFreeInterrupt | 7 => NFutexWait | 8 => NFutexWake | 12 => NUpdateMemoryFlags
  | 14 => NCreateServerWithAddress | 15 => NReceiveMessage | 16 => NSendMessage
  | 17 => NConnect | 18 => NCreateThread | 19 => NUnmapMemory | 20 => NReturnMemory
  | 21 => NCreateProcess | 22 => NTerminateProcess | 23 => NShutdown | 24 => NTrySendMessage
  | 25 => NTryConnect | 26 => NReturnScalar1 | 27 => NReturnScalar2
  | 28 => NTryReceiveMessage | 29 => NCreateServer | 30 => NConnectForProcess
  | 31 => NCreateServerId | 32 => NGetThreadId | 33 => NGetProcessId | 34 => NDestroyServer
  | 35 => NDisconnect | 36 => NJoinThread | 37 => NGetRemoteProcessId | 38 => NGetServerOwner
  | 39 => NVirtToPhys | 40 => NReturnScalar5 | 42 => NVirtToPhysPid | 43 => NGetAppId
  | 44 => NAllowMessagesSID | 45 => NAllowMessagesCID | 46 => NInvalidateCache
  | 47 => NPowerManagement | 48 => NAppIdToPid | 49 => NServerEventHandler
  | 50 => NMirrorMemoryToPid | 51 => NDebugCommand | 52 => NGetSystemStats
  | 53 => NTerminatePid | 54 => NSystemEventHandler | 55 => NAppendPanicMessage
  | 56 => NGetPanicMessage | 57 => NResolveMessagePermission
  | 58 => NGetPermissionRequestData
  | _ => NInvalid
  end.

Lemma SysCallNumber_roundtrip n : SysCallNumber_from (SysCallNumber_as_usize n) = n.
Proof. by destruct n. Qed.

(** The words a message contributes to [SendMessage] and [TrySendMessage]. *)
Definition message_args (m : Message) : words6 :=
  match m with
  | MutableBorrow mm | Borrow mm | Move mm | BlockingMove mm =>
      W6 (message_type m) (mm_id mm) (range_addr (mm_buf mm)) (range_size (mm_buf mm))
         (nonzero_or0 (mm_offset mm)) (nonzero_or0 (mm_valid mm))
  | Scalar sc | BlockingScalar sc =>
      W6 (message_type m) (sc_id sc) (sc_arg1 sc) (sc_arg2 sc) (sc_arg3 sc) (sc_arg4 sc)
  end.

(** The words of a call that carries a server id. *)
Definition sid_args (n : SysCallNumber) (s : SID) : words8 :=
  W8 (SysCallNumber_as_usize n) (sid0 s) (sid1 s) (sid2 s) (sid3 s) 0 0 0.

(** [SysCall::as_args]. *)
Definition as_args (c : SysCall) : words8 :=
  let N := SysCallNumber_as_usize in
  match c with
  | MapMemory a1 a2 a3 a4 =>
      W8 (N NMapMemory) (nonzero_or0 a1) (nonzero_or0 a2) a3 a4 0 0 0
  | UnmapMemory r => W8 (N NUnmapMemory) (range_addr r) (range_size r) 0 0 0 0 0
  | Yield => W8 (N NYield) 0 0 0 0 0 0 0
  | SetThreadPriority p => W8 (N NSetThreadPriority) (ThreadPriority_as_usize p) 0 0 0 0 0 0
  | ReceiveMessage s => sid_args NReceiveMessage s
  | TryReceiveMessage s => sid_args NTryReceiveMessage s
  | ConnectForProcess pid s =>
      W8 (N NConnectForProcess) pid (sid0 s) (sid1 s) (sid2 s) (sid3 s) 0 0
  | CreateServerId => W8 (N NCreateServerId) 0 0 0 0 0 0 0
  | ClaimInterrupt a1 a2 a3 => W8 (N NClaimInterrupt) a1 a2 (nonzero_or0 a3) 0 0 0 0
  | FreeInterrupt a1 => W8 (N NFreeInterrupt) a1 0 0 0 0 0 0
  | FutexWait addr val => W8 (N NFutexWait) addr val 0 0 0 0 0
  | FutexWake addr n => W8 (N NFutexWake) addr n 0 0 0 0 0
  | UpdateMemoryFlags r f p =>
      W8 (N NUpdateMemoryFlags) (range_addr r) (range_size r) f (nonzero_or0 p) 0 0 0
  | CreateServerWithAddress s ms =>
      W8 (N NCreateServerWithAddress) (sid0 s) (sid1 s) (sid2 s) (sid3 s)
         (r_start ms) (r_end ms) 0
  | CreateServer => W8 (N NCreateServer) 0 0 0 0 0 0 0
  | Connect s => sid_args NConnect s
  | SendMessage cid m =>
      let '(W6 w0 w1 w2 w3 w4 w5) := message_args m in
      W8 (N NSendMessage) cid w0 w1 w2 w3 w4 w5
  | ReturnMemory sender buf offset valid =>
      W8 (N NReturnMemory) sender (range_addr buf) (range_size buf)
         (nonzero_or0 offset) (nonzero_or0 valid) 0 0
  | CreateThread init => thread_to_args (N NCreateThread) init
  | CreateProcess init => add_opcode (N NCreateProcess) (ProcessInit_into init)
  | TerminateProcess code => W8 (N NTerminateProcess) code 0 0 0 0 0 0
  | Shutdown code => W8 (N NShutdown) (usize code) 0 0 0 0 0 0
  | TryConnect s => sid_args NTryConnect s
  | TrySendMessage cid m =>
      let '(W6 w0 w1 w2 w3 w4 w5) := message_args m in
      W8 (N NTrySendMessage) cid w0 w1 w2 w3 w4 w5
  | ReturnScalar1 sender a => W8 (N NReturnScalar1) sender a 0 0 0 0 0
  | ReturnScalar2 sender a b => W8 (N NReturnScalar2) sender a b 0 0 0 0
  | GetThreadId => W8 (N NGetThreadId) 0 0 0 0 0 0 0
  | GetProcessId => W8 (N NGetProcessId) 0 0 0 0 0 0 0
  | DestroyServer s => sid_args NDestroyServer s
  | Disconnect cid => W8 (N NDisconnect) cid 0 0 0 0 0 0
  | JoinThread tid => W8 (N NJoinThread) tid 0 0 0 0 0 0
  | GetRemoteProcessId cid => W8 (N NGetRemoteProcessId) cid 0 0 0 0 0 0
  | GetServerOwner s => sid_args NGetServerOwner s
  | VirtToPhys vaddr => W8 (N NVirtToPhys) vaddr 0 0 0 0 0 0
  | ReturnScalar5 sender a b c d e => W8 (N NReturnScalar5) sender a b c d e 0
  | VirtToPhysPid pid vaddr => W8 (N NVirtToPhysPid) pid vaddr 0 0 0 0 0
  | GetAppId pid => W8 (N NGetAppId) pid 0 0 0 0 0 0
  | ServerEventHandler e s id =>
      W8 (N NServerEventHandler) (ServerEvent_as_usize e) (sid0 s) (sid1 s) (sid2 s) (sid3 s) id 0
  | AllowMessagesSID s ms =>
      W8 (N NAllowMessagesSID) (sid0 s) (sid1 s) (sid2 s) (sid3 s) (r_start ms) (r_end ms) 0
  | AllowMessagesCID pid cid ms => W8 (N NAllowMessagesCID) pid cid (r_start ms) (r_end ms) 0 0 0
  | ResolveMessagePermission id allow =>
      W8 (N NResolveMessagePermission) id (if allow then 1 else 0) 0 0 0 0 0
  | FlushCache r op =>
      W8 (N NInvalidateCache) (range_addr r) (range_size r) (CacheOperation_as_usize op) 0 0 0 0
  | PowerManagement m => W8 (N NPowerManagement) (DramIdleMode_as_usize m) 0 0 0 0 0 0
  | AppIdToPid a =>
      let '(w0, w1, w2, w3) := AppId_to_words a in W8 (N NAppIdToPid) w0 w1 w2 w3 0 0 0
  | MirrorMemoryToPid r pid =>
      W8 (N NMirrorMemoryToPid) (range_addr r) (range_size r) pid 0 0 0 0
  | DebugCommand r cmd => W8 (N NDebugCommand) (range_addr r) (range_size r) cmd 0 0 0 0
  | GetSystemStats s => W8 (N NGetSystemStats) (SystemStat_as_usize s) 0 0 0 0 0 0
  | SystemEventHandler e s id =>
      W8 (N NSystemEventHandler) (SystemEvent_as_usize e) (sid0 s) (sid1 s) (sid2 s) (sid3 s) id 0
  | AppendPanicMessage len a2 a3 a4 a5 a6 a7 =>
      W8 (N NAppendPanicMessage) len a2 a3 a4 a5 a6 a7
  | GetPanicMessage r => W8 (N NGetPanicMessage) (range_addr r) (range_size r) 0 0 0 0 0
  | GetPermissionRequestData id f =>
      W8 (N NGetPermissionRequestData) id (PermissionRequestField_to_usize f) 0 0 0 0 0
  | TerminatePid pid code => W8 (N NTerminatePid) pid code 0 0 0 0 0
  | Invalid a1 a2 a3 a4 a5 a6 a7 => W8 (N NInvalid) a1 a2 a3 a4 a5 a6 a7
  end.

(** [TrySendMessage] decodes its message in place: a null range is an error there, where
    [SendMessage] turns the whole call into [Invalid]. *)
Definition try_send_from_args (a1 a2 a3 a4 a5 a6 a7 : Z) : result Error SysCall :=
  let memory (c : MemoryMessage -> Message) : result Error SysCall :=
    let? buf := MemoryRange_new a4 a5 in
    Ok (TrySendMessage (u32 a1) (c (mkMemoryMessage a3 buf (nonzero_new a6) (nonzero_new a7)))) in
  match a2 with
  | 1 => memory MutableBorrow
  | 2 => memory Borrow
  | 3 => memory Move
  | 4 => Ok (TrySendMessage (u32 a1) (Scalar (mkScalarMessage a3 a4 a5 a6 a7)))
  | 5 => Ok (TrySendMessage (u32 a1) (BlockingScalar (mkScalarMessage a3 a4 a5 a6 a7)))
  | 6 => memory BlockingMove
  | _ => Ok (Invalid a1 a2 a3 a4 a5 a6 a7)
  end.

(** [SysCall::from_args] on the device ([cfg(keyos)]). *)
Definition from_args (a0 a1 a2 a3 a4 a5 a6 a7 : Z) : result Error SysCall :=
  let sid1234 := SID_from_u32 (u32 a1) (u32 a2) (u32 a3) (u32 a4) in
  let sid2345 := SID_from_u32 (u32 a2) (u32 a3) (u32 a4) (u32 a5) in
  let pid_or_invalid a := ok_or (nonzero_new (u8 a)) InvalidSyscall in
  match SysCallNumber_from a0 with
  | NMapMemory =>
      let? size := ok_or (nonzero_new a3) InvalidSyscall in
      Ok (MapMemory (nonzero_new a1) (nonzero_new a2) size (MemoryFlags_from_bits a4))
  | NUnmapMemory =>
      match MemoryRange_new a1 a2 with
      | Ok r => Ok (UnmapMemory r)
      | Err _ => Err InvalidSyscall
      end
  | NYield => Ok Yield
  | NSetThreadPriority => Ok (SetThreadPriority (ThreadPriority_from a1))
  | NReceiveMessage => Ok (ReceiveMessage sid1234)
  | NTryReceiveMessage => Ok (TryReceiveMessage sid1234)
  | NClaimInterrupt =>
      let? callback := ok_or (nonzero_new a2) InvalidSyscall in
      Ok (ClaimInterrupt a1 callback (nonzero_new a3))
  | NFreeInterrupt => Ok (FreeInterrupt a1)
  | NFutexWait => Ok (FutexWait a1 a2)
  | NFutexWake => Ok (FutexWake a1 a2)
  | NUpdateMemoryFlags =>
      let? r := MemoryRange_new a1 a2 in
      Ok (UpdateMemoryFlags r (MemoryFlags_from_bits a3) (nonzero_new (u8 a4)))
  | NCreateServerWithAddress => Ok (CreateServerWithAddress sid1234 (mkMsgRange a5 a6))
  | NCreateServer => Ok CreateServer
  | NConnect => Ok (Connect sid1234)
  | NSendMessage =>
      match Message_try_from a2 a3 a4 a5 a6 a7 with
      | Some m => Ok (SendMessage (u32 a1) m)
      | None => Ok (Invalid a1 a2 a3 a4 a5 a6 a7)
      end
  | NReturnMemory =>
      let? r := MemoryRange_new a2 a3 in
      Ok (ReturnMemory a1 r (nonzero_new a4) (nonzero_new a5))
  | NCreateThread =>
      let? init := args_to_thread a1 a2 a3 a4 a5 a6 a7 in Ok (CreateThread init)
  | NCreateProcess =>
      let? init := ProcessInit_try_from a1 a2 a3 a4 a5 a6 a7 in Ok (CreateProcess init)
  | NTerminateProcess => Ok (TerminateProcess (u32 a1))
  | NShutdown => Ok (Shutdown (i32 a1))
  | NTryConnect => Ok (TryConnect sid1234)
  | NTrySendMessage => try_send_from_args a1 a2 a3 a4 a5 a6 a7
  | NReturnScalar1 => Ok (ReturnScalar1 a1 a2)
  | NReturnScalar2 => Ok (ReturnScalar2 a1 a2 a3)
  | NConnectForProcess =>
      let? pid := pid_or_invalid a1 in Ok (ConnectForProcess pid sid2345)
  | NCreateServerId => Ok CreateServerId
  | NGetThreadId => Ok GetThreadId
  | NGetProcessId => Ok GetProcessId
  | NDestroyServer => Ok (DestroyServer sid1234)
  | NDisconnect => Ok (Disconnect (u32 a1))
  | NJoinThread => Ok (JoinThread a1)
  | NGetRemoteProcessId => Ok (GetRemoteProcessId (u32 a1))
  | NGetServerOwner => Ok (GetServerOwner sid1234)
  | NVirtToPhys => Ok (VirtToPhys a1)
  | NVirtToPhysPid => let? pid := pid_from_usize a1 in Ok (VirtToPhysPid pid a2)
  | NReturnScalar5 => Ok (ReturnScalar5 a1 a2 a3 a4 a5 a6)
  | NGetAppId => let? pid := pid_or_invalid a1 in Ok (GetAppId pid)
  | NAllowMessagesSID => Ok (AllowMessagesSID sid1234 (mkMsgRange a5 a6))
  | NAllowMessagesCID =>
      let? pid := pid_or_invalid a1 in Ok (AllowMessagesCID pid (u32 a2) (mkMsgRange a3 a4))
  | NResolveMessagePermission => Ok (ResolveMessagePermission (u16 a1) (negb (a2 =? 0)))
  | NGetPermissionRequestData =>
      Ok (GetPermissionRequestData (u16 a1) (PermissionRequestField_from a2))
  | NInvalidateCache =>
      let? r := MemoryRange_new a1 a2 in Ok (FlushCache r (CacheOperation_from a3))
  | NPowerManagement => Ok (PowerManagement (DramIdleMode_from a1))
  | NAppIdToPid => Ok (AppIdToPid (AppId_from_words (u32 a1) (u32 a2) (u32 a3) (u32 a4)))
  | NServerEventHandler => Ok (ServerEventHandler (ServerEvent_from a1) sid2345 a6)
  | NMirrorMemoryToPid =>
      let? r := MemoryRange_new a1 a2 in
      let? pid := pid_or_invalid a3 in Ok (MirrorMemoryToPid r pid)
  | NDebugCommand => let? r := MemoryRange_new a1 a2 in Ok (DebugCommand r (u8 a3))
  | NGetSystemStats => Ok (GetSystemStats (SystemStat_from a1))
  | NSystemEventHandler => Ok (SystemEventHandler (SystemEvent_from a1) sid2345 a6)
  | NAppendPanicMessage => Ok (AppendPanicMessage a1 a2 a3 a4 a5 a6 a7)
  | NGetPanicMessage => let? r := MemoryRange_new a1 a2 in Ok (GetPanicMessage r)
  | NTerminatePid => let? pid := pid_or_invalid a1 in Ok (TerminatePid pid (u32 a2))
  | NInvalid => Ok (Invalid a1 a2 a3 a4 a5 a6 a7)
  end.

(** [from_args] applied to the eight registers. *)
Definition decode (w : words8) : result Error SysCall :=
  let '(W8 a0 a1 a2 a3 a4 a5 a6 a7) := w in from_args a0 a1 a2 a3 a4 a5 a6 a7.

(** ** Classification of calls *)

Definition syscall_message (c : SysCall) : option Message :=
  match c with SendMessage _ m | TrySendMessage _ m => Some m | _ => None end.

Definition syscall_has_memory (c : SysCall) : bool :=
  match c with
  | TrySendMessage _ m | SendMessage _ m =>
      match m with Move _ | Borrow _ | MutableBorrow _ | BlockingMove _ => true | _ => false end
  | ReturnMemory _ _ _ _ => true
  | _ => false
  end.

Definition is_move (c : SysCall) : bool :=
  match c with TrySendMessage _ (Move _) | SendMessage _ (Move _) => true | _ => false end.
Definition is_blocking_move (c : SysCall) : bool :=
  match c with
  | TrySendMessage _ (BlockingMove _) | SendMessage _ (BlockingMove _) => true | _ => false end.
Definition is_borrow (c : SysCall) : bool :=
  match c with TrySendMessage _ (Borrow _) | SendMessage _ (Borrow _) => true | _ => false end.
Definition is_mutableborrow (c : SysCall) : bool :=
  match c with
  | TrySendMessage _ (MutableBorrow _) | SendMessage _ (MutableBorrow _) => true | _ => false end.
Definition is_return_memory (c : SysCall) : bool :=
  match c with ReturnMemory _ _ _ _ => true | _ => false end.

Definition syscall_memory (c : SysCall) : option MemoryRange :=
  match c with
  | TrySendMessage _ m | SendMessage _ m =>
      match m with
      | Move mm | Borrow mm | MutableBorrow mm | BlockingMove mm => Some (mm_buf mm)
      | _ => None
      end
  | ReturnMemory _ r _ _ => Some r
  | FlushCache r _ => Some r
  | _ => None
  end.

Definition with_buf (new : MemoryRange) (m : MemoryMessage) : MemoryMessage :=
  mkMemoryMessage (mm_id m) new (mm_offset m) (mm_valid m).

Definition replace_message_memory (new : MemoryRange) (m : Message) : Message :=
  match m with
  | Move mm => Move (with_buf new mm)
  | Borrow mm => Borrow (with_buf new mm)
  | MutableBorrow mm => MutableBorrow (with_buf new mm)
  | BlockingMove mm => BlockingMove (with_buf new mm)
  | m => m
  end.

Definition replace_memory (new : MemoryRange) (c : SysCall) : SysCall :=
  match c with
  | TrySendMessage cid m => TrySendMessage cid (replace_message_memory new m)
  | SendMessage cid m => SendMessage cid (replace_message_memory new m)
  | ReturnMemory s _ o v => ReturnMemory s new o v
  | FlushCache _ op => FlushCache new op
  | c => c
  end.

Definition can_call_from_interrupt (c : SysCall) : bool :=
  match c with
  | TrySendMessage _ msg => negb (is_blocking msg)
  | TryConnect _ | FreeInterrupt _ | ClaimInterrupt _ _ _ | TryReceiveMessage _
  | ReturnScalar5 _ _ _ _ _ _ | ReturnScalar2 _ _ _ | ReturnScalar1 _ _
  | ReturnMemory _ _ _ _ | MapMemory _ _ _ _ | UnmapMemory _ => true
  | _ => false
  end.

(** ** Values of the Rust types *)

Definition wf_opt_pid (p : option Z) : Prop := match p with Some p => is_pid p | None => True end.
(** The stack is page aligned, too: the type of the source does not say so, but [args_to_thread]
    refuses a [CreateThread] with any other stack. *)
Definition wf_thread_init (t : ThreadInit) : Prop :=
  wf_range (ti_stack t)
  /\ Z.land (range_addr (ti_stack t)) (PAGE_SIZE - 1) = 0
  /\ Z.land (range_size (ti_stack t)) (PAGE_SIZE - 1) = 0.

Definition wf_syscall (c : SysCall) : Prop :=
  match c with
  | MapMemory p v s f => is_opt_nonzero p /\ is_opt_nonzero v /\ is_nonzero s /\ wf_flags f
  | UnmapMemory r | GetPanicMessage r | FlushCache r _ => wf_range r
  | UpdateMemoryFlags r f p => wf_range r /\ wf_flags f /\ wf_opt_pid p
  | ReceiveMessage s | TryReceiveMessage s | Connect s | TryConnect s | GetServerOwner s
  | DestroyServer s | CreateServerWithAddress s _ | AllowMessagesSID s _
  | ServerEventHandler _ s _ | SystemEventHandler _ s _ => wf_SID s
  | ClaimInterrupt _ c a => is_nonzero c /\ is_opt_nonzero a
  | SendMessage cid m | TrySendMessage cid m => is_u32 cid /\ wf_message m
  | ReturnMemory _ r o v => wf_range r /\ is_opt_nonzero o /\ is_opt_nonzero v
  | CreateThread t => wf_thread_init t
  | CreateProcess p => wf_range (pi_elf p) /\ is_nonzero (pi_name_addr p) /\ wf_AppId (pi_app_id p)
  | TerminateProcess c => is_u32 c
  | TerminatePid p c => is_pid p /\ is_u32 c
  | Shutdown c => is_i32 c
  | ConnectForProcess p s => is_pid p /\ wf_SID s
  | GetRemoteProcessId c | Disconnect c => is_u32 c
  | VirtToPhysPid p _ | GetAppId p => is_pid p
  | AllowMessagesCID p c _ => is_pid p /\ is_u32 c
  | ResolveMessagePermission id _ | GetPermissionRequestData id _ => is_u16 id
  | AppIdToPid a => wf_AppId a
  | MirrorMemoryToPid r p => wf_range r /\ is_pid p
  | FutexWake _ n => is_usize n
  | DebugCommand r c => wf_range r /\ is_u8 c
  | _ => True
  end.

(** ** Lemmas *)

Lemma MemoryRange_new_wf r : wf_range r -> MemoryRange_new (range_addr r) (range_size r) = Ok r.
Proof. destruct r as [a s]; intros [Ha Hs]; cbn in *. unfold MemoryRange_new. by autorewrite with ints. Qed.

Lemma opt_pid_roundtrip o : wf_opt_pid o -> nonzero_new (u8 (nonzero_or0 o)) = o.
Proof. destruct o; cbn -[u8]; [|done]. intros. by autorewrite with ints. Qed.

Lemma CacheOperation_roundtrip o : CacheOperation_from (CacheOperation_as_usize o) = o.
Proof. by destruct o. Qed.
Lemma DramIdleMode_roundtrip o : DramIdleMode_from (DramIdleMode_as_usize o) = o.
Proof. by destruct o. Qed.
Lemma SystemEvent_roundtrip o : SystemEvent_from (SystemEvent_as_usize o) = o.
Proof. by destruct o. Qed.
Lemma ServerEvent_roundtrip o : ServerEvent_from (ServerEvent_as_usize o) = o.
Proof. by destruct o. Qed.
Lemma SystemStat_roundtrip o : SystemStat_from (SystemStat_as_usize o) = o.
Proof. by destruct o. Qed.
Lemma PermissionRequestField_roundtrip o :
  PermissionRequestField_from (PermissionRequestField_to_usize o) = o.
Proof. by destruct o. Qed.
Lemma ThreadPriority_roundtrip o : ThreadPriority_from (ThreadPriority_as_usize o) = o.
Proof. by destruct o. Qed.

#[export] Hint Rewrite MemoryRange_new_wf opt_pid_roundtrip using assumption : ints.
#[export] Hint Rewrite CacheOperation_roundtrip DramIdleMode_roundtrip SystemEvent_roundtrip
  ServerEvent_roundtrip SystemStat_roundtrip PermissionRequestField_roundtrip
  ThreadPriority_roundtrip : ints.

Lemma SID_words_roundtrip s :
  wf_SID s -> SID_from_u32 (u32 (sid0 s)) (u32 (sid1 s)) (u32 (sid2 s)) (u32 (sid3 s)) = s.
Proof. destruct s; unfold wf_SID; cbn. intros (?&?&?&?). by autorewrite with ints. Qed.

#[export] Hint Rewrite SID_words_roundtrip using assumption : ints.

Lemma AppId_u32_roundtrip a :
  wf_AppId a -> let '(w0, w1, w2, w3) := AppId_to_words a in
  AppId_from_words (u32 w0) (u32 w1) (u32 w2) (u32 w3) = a.
Proof.
  intros Ha. pose proof (AppId_bytes_roundtrip a Ha) as H.
  destruct (AppId_to_words a) as [[[w0 w1] w2] w3]. destruct_and!. by autorewrite with ints.
Qed.

Lemma args_to_thread_roundtrip n t :
  wf_thread_init t ->
  let '(W8 _ a1 a2 a3 a4 a5 a6 a7) := thread_to_args n t in
  args_to_thread a1 a2 a3 a4 a5 a6 a7 = Ok t.
Proof.
  destruct t as [c [a s] a1 a2 a3 a4]; intros (Hr & Ha & Hs); cbn in *.
  unfold args_to_thread. rewrite Ha, Hs; cbn. unfold MemoryRange_new. destruct Hr; cbn in *.
  by autorewrite with ints.
Qed.

Lemma ProcessInit_roundtrip p :
  wf_range (pi_elf p) -> is_nonzero (pi_name_addr p) -> wf_AppId (pi_app_id p) ->
  let '(W7 s0 s1 s2 s3 s4 s5 s6) := ProcessInit_into p in
  ProcessInit_try_from s0 s1 s2 s3 s4 s5 s6 = Ok p.
Proof.
  destruct p as [elf name app]; unfold ProcessInit_into, ProcessInit_try_from; cbn -[u32].
  intros Helf Hname Happ. pose proof (AppId_u32_roundtrip _ Happ) as H.
  destruct (AppId_to_words app) as [[[w0 w1] w2] w3]. autorewrite with ints; cbn -[u32 AppId_from_words]. by rewrite H.
Qed.

Lemma send_args_roundtrip m :
  wf_message m ->
  let '(W6 w0 w1 w2 w3 w4 w5) := message_args m in
  Message_try_from w0 w1 w2 w3 w4 w5 = Some m
  /\ forall cid, is_u32 cid -> try_send_from_args cid w0 w1 w2 w3 w4 w5 = Ok (TrySendMessage cid m).
Proof.
  intros Hm. pose proof (Message_try_from_roundtrip m Hm) as E.
  assert (message_args m = let '(W6 _ w0 w1 w2 w3 w4) := Message_to_usize m in
                           W6 (message_type m) w0 w1 w2 w3 w4) as -> by (by destruct m).
  destruct (Message_to_usize m) as [t w0 w1 w2 w3 w4] eqn:Em. split; [done|].
  intros cid Hcid. unfold try_send_from_args. rewrite (u32_id _ Hcid). unfold Message_try_from in E.
  destruct m; cbn in E |- *; destruct (MemoryRange_new w1 w2); by simplify_eq.
Qed.

Ltac solve_call :=
  cbn -[u8 u16 u32 i32 usize MemoryRange_new SID_from_u32 Z.pow MemoryFlags_from_bits
        Message_try_from try_send_from_args args_to_thread ProcessInit_try_from wf_range nonzero_or0] in *;
  destruct_and?;
  autorewrite with ints; try done.

Lemma decode_as_args c : wf_syscall c -> decode (as_args c) = Ok c.
Proof.
  destruct c; intros Hwf; unfold decode, as_args, sid_args, from_args, wf_flags in *;
    try by solve_call.
  - (* MapMemory *) solve_call. unfold wf_flags in *. cbn -[MemoryFlags_from_bits]. congruence.
  - (* UpdateMemoryFlags *) solve_call. unfold wf_flags in *. cbn -[MemoryFlags_from_bits]. congruence.
  - solve_call. by destruct messages.
  - (* SendMessage *) destruct Hwf as [Hc Hm]. destruct (message_args m) eqn:Em.
    pose proof (send_args_roundtrip _ Hm) as H; rewrite Em in H; destruct H as [H _].
    cbn -[Message_try_from u32]. rewrite H, u32_id; done.
  - (* TrySendMessage *) destruct Hwf as [Hc Hm]. destruct (message_args m) eqn:Em.
    pose proof (send_args_roundtrip _ Hm) as H; rewrite Em in H; destruct H as [_ H].
    specialize (H _ Hc). solve_call.
  - pose proof (args_to_thread_roundtrip (SysCallNumber_as_usize NCreateThread) _ Hwf) as H.
    destruct init as [c [a s]]. cbn -[args_to_thread] in *. by rewrite H.
  - destruct Hwf as (He & Hn & Ha). pose proof (ProcessInit_roundtrip _ He Hn Ha) as H.
    destruct (ProcessInit_into init). cbn -[ProcessInit_try_from] in *. by rewrite H.
  - (* VirtToPhysPid *) solve_call. unfold pid_from_usize.
    destruct (Z.gtb_spec pid 255); [unfold is_pid in *; lia|]. by autorewrite with ints.
  - solve_call. by destruct messages.
  - solve_call. by destruct messages.
  - solve_call. by destruct allow.
  - pose proof (AppId_u32_roundtrip _ Hwf) as H.
    destruct (AppId_to_words a) as [[[w0 w1] w2] w3]. cbn -[u32 AppId_from_words]. by rewrite H.
Qed.

Definition words_wf (w : words8) : Prop :=
  let '(W8 a0 a1 a2 a3 a4 a5 a6 a7) := w in
  is_usize a0 /\ is_usize a1 /\ is_usize a2 /\ is_usize a3
  /\ is_usize a4 /\ is_usize a5 /\ is_usize a6 /\ is_usize a7.

Lemma MemoryRange_new_Ok a s r :
  is_usize a -> is_usize s -> MemoryRange_new a s = Ok r ->
  wf_range r /\ r = mkRange a s.
Proof.
  intros Ha Hs. unfold MemoryRange_new, wf_range.
  destruct (nonzero_new a) eqn:Ea; cbn; [|done]. destruct (nonzero_new s) eqn:Es; cbn; [|done].
  apply nonzero_new_Some in Ea as [-> ?]; [|done]. apply nonzero_new_Some in Es as [-> ?]; [|done].
  by intros [= <-].
Qed.

Lemma ok_or_Ok {A} (o : option A) (e : Error) a : ok_or o e = Ok a -> o = Some a.
Proof. destruct o; cbn; congruence. Qed.

Lemma nonzero_u8_pid a p : nonzero_new (u8 a) = Some p -> is_pid p.
Proof.
  pose proof (u8_range a) as Hr. unfold nonzero_new, is_pid. unfold is_u8 in Hr.
  destruct (Z.eqb_spec (u8 a) 0); intros; simplify_eq; lia.
Qed.

Lemma MemoryFlags_from_bits_wf f : wf_flags (MemoryFlags_from_bits f).
Proof. unfold wf_flags, MemoryFlags_from_bits. by rewrite <-Z.land_assoc, Z.land_diag. Qed.

Lemma SID_from_u32_wf a b c d : wf_SID (SID_from_u32 (u32 a) (u32 b) (u32 c) (u32 d)).
Proof. unfold wf_SID; cbn -[u32]. auto with ints. Qed.

Lemma AppId_from_words_wf a b c d : wf_AppId (AppId_from_words a b c d).
Proof.
  split; [done|]. unfold AppId_from_words; cbn [app_bytes].
  rewrite !Forall_app. auto using u32_to_le_bytes_wf.
Qed.

Lemma i32_range a : is_i32 (i32 a).
Proof.
  unfold_ints. pose proof (Z.mod_pos_bound (a + 2 ^ 31) (2 ^ 32) ltac:(lia)). lia.
Qed.
Lemma u16_range a : is_u16 (u16 a).
Proof. unfold_ints. apply Z.mod_pos_bound. lia. Qed.
Lemma nonzero_u8_opt_pid a : wf_opt_pid (nonzero_new (u8 a)).
Proof. destruct (nonzero_new (u8 a)) eqn:E; [by eapply nonzero_u8_pid|done]. Qed.

#[export] Hint Resolve MemoryFlags_from_bits_wf SID_from_u32_wf AppId_from_words_wf i32_range
  u16_range nonzero_u8_opt_pid nonzero_u8_pid : ints.

Lemma args_to_thread_wf a1 a2 a3 a4 a5 a6 a7 t :
  is_usize a2 -> is_usize a3 -> args_to_thread a1 a2 a3 a4 a5 a6 a7 = Ok t -> wf_thread_init t.
Proof.
  intros H2 H3. unfold args_to_thread.
  destruct (Z.eqb_spec (Z.land a2 (PAGE_SIZE - 1)) 0) as [E2|]; [|done].
  destruct (Z.eqb_spec (Z.land a3 (PAGE_SIZE - 1)) 0) as [E3|]; [|done].
  cbn -[MemoryRange_new Z.land]. destruct (MemoryRange_new a2 a3) as [r|] eqn:E; [|done].
  intros [= <-]. apply MemoryRange_new_Ok in E as [? ->]; done.
Qed.

Lemma ProcessInit_try_from_wf s0 s1 s2 s3 s4 s5 s6 p :
  is_usize s0 -> is_usize s1 -> is_usize s2 ->
  ProcessInit_try_from s0 s1 s2 s3 s4 s5 s6 = Ok p ->
  wf_range (pi_elf p) /\ is_nonzero (pi_name_addr p) /\ wf_AppId (pi_app_id p).
Proof.
  intros H0 H1 H2. unfold ProcessInit_try_from.
  destruct (MemoryRange_new s0 s1) as [r|] eqn:E; [|done].
  destruct (nonzero_new s2) eqn:E2; cbn -[u32]; [|done]. intros [= <-]; cbn -[u32].
  apply MemoryRange_new_Ok in E as [? _]; [|done..].
  apply nonzero_new_Some in E2 as [-> ?]; auto with ints.
Qed.

Lemma Message_try_from_wf v0 v1 v2 v3 v4 v5 m :
  is_usize v1 -> is_usize v2 -> is_usize v3 -> is_usize v4 -> is_usize v5 ->
  Message_try_from v0 v1 v2 v3 v4 v5 = Some m -> wf_message m.
Proof.
  intros H1 H2 H3 H4 H5. unfold Message_try_from. destruct (MemoryRange_new v2 v3) eqn:E.
  - apply MemoryRange_new_Ok in E as [? _]; [|done..].
    repeat case_match; intros [= <-]; cbn; unfold wf_memory_message, wf_scalar_message; cbn;
      auto 10 with ints.
  - repeat case_match; intros [= <-]; cbn; unfold wf_scalar_message; cbn; auto.
Qed.

Lemma try_send_from_args_wf a1 a2 a3 a4 a5 a6 a7 c :
  is_usize a3 -> is_usize a4 -> is_usize a5 -> is_usize a6 -> is_usize a7 ->
  try_send_from_args a1 a2 a3 a4 a5 a6 a7 = Ok c -> wf_syscall c.
Proof.
  intros H3 H4 H5 H6 H7. unfold try_send_from_args. destruct (MemoryRange_new a4 a5) eqn:E.
  - apply MemoryRange_new_Ok in E as [? _]; [|done..].
    repeat case_match; intros [= <-]; cbn -[u32];
      unfold wf_memory_message, wf_scalar_message; cbn -[u32]; auto 10 with ints.
  - repeat case_match; intros [= <-]; cbn -[u32]; unfold wf_scalar_message; auto 10 with ints.
Qed.

(** One step of inverting a decoder branch. *)
Ltac inv_decode :=
  match goal with
  | H : context [ok_or ?o ?e] |- _ =>
      let E := fresh "E" in destruct (ok_or o e) eqn:E; [apply ok_or_Ok in E|discriminate H]
  | H : context [MemoryRange_new ?a ?b] |- _ =>
      let E := fresh "E" in destruct (MemoryRange_new a b) eqn:E; [|discriminate H];
      apply MemoryRange_new_Ok in E as [? ->]; [|assumption|assumption]
  | H : Ok _ = Ok _ |- _ => injection H as <-
  | H : nonzero_new ?a = Some _, Ha : is_usize ?a |- _ =>
      apply (nonzero_new_Some _ _ Ha) in H as [-> ?]
  end.

Lemma decode_wf w c : words_wf w -> decode w = Ok c -> wf_syscall c.
Proof.
  intros Hw Hd.
  destruct w as [a0 a1 a2 a3 a4 a5 a6 a7]; cbn -[from_args] in *. destruct_and!.
  unfold from_args in Hd. destruct (SysCallNumber_from a0); cbn -[ok_or MemoryRange_new SID_from_u32
    u8 u16 u32 i32 args_to_thread ProcessInit_try_from try_send_from_args Message_try_from
    pid_from_usize AppId_from_words MemoryFlags_from_bits] in Hd;
    repeat inv_decode; cbn -[u8 u16 u32 i32 SID_from_u32 MemoryFlags_from_bits]; eauto 10 with ints.
  - destruct (Message_try_from a2 a3 a4 a5 a6 a7) eqn:E; simplify_eq; cbn -[u32]; [|done].
    split; auto with ints. by apply Message_try_from_wf in E.
  - destruct (args_to_thread a1 a2 a3 a4 a5 a6 a7) eqn:E; simplify_eq; cbn.
    by apply args_to_thread_wf in E.
  - destruct (ProcessInit_try_from a1 a2 a3 a4 a5 a6 a7) eqn:E; simplify_eq.
    by apply ProcessInit_try_from_wf in E.
  - by apply try_send_from_args_wf in Hd.
  - unfold pid_from_usize in Hd. destruct (a1 >? 255); [done|].
    repeat inv_decode. by eapply nonzero_u8_pid.
Qed.

(** C35: The kernel only ever sees well-typed calls: whatever the eight registers hold, a call that
    decodes has fields in their Rust types, and encoding it again decodes to the same call. *)
Theorem decode_well_typed w c :
  words_wf w -> decode w = Ok c -> wf_syscall c /\ decode (as_args c) = Ok c.
Proof. intros Hw Hd. pose proof (decode_wf w c Hw Hd) as H. split; [exact H|by apply decode_as_args]. Qed.

Lemma decode_well_typed_witness :
  let w := W8 2 0 0x10000 4096 0x7d 0 0 0 in
  words_wf w /\ exists c, decode w = Ok c /\ wf_syscall c.
Proof.
  split; [vm_compute; intuition congruence|].
  eexists; split; [vm_compute; reflexivity|].
  refine (proj1 (decode_well_typed (W8 2 0 0x10000 4096 0x7d 0 0 0) _ _ _));
    [vm_compute; intuition congruence|vm_compute; reflexivity].
Defined.

(** C34: Every well-typed system call is decoded by the kernel to the call user space encoded: through
    the eight registers of the trap, for all the calls of the interface, with the calls that
    carry a message, a memory range, a server id or an application id included.  The stack of a
    new thread must be page aligned in address and size, which its type does not ask but the
    decoder does ([wf_thread_init]): it refuses others with an error. *)
Theorem syscall_roundtrip c : wf_syscall c -> decode (as_args c) = Ok c.
Proof. apply decode_as_args. Qed.

Lemma syscall_roundtrip_witness :
  let c := SendMessage 9 (BlockingMove (mkMemoryMessage 3 (mkRange 0x20000 8192) None (Some 12))) in
  wf_syscall c /\ decode (as_args c) = Ok c.
Proof.
  split; [vm_compute; intuition congruence|].
  apply (syscall_roundtrip
    (SendMessage 9 (BlockingMove (mkMemoryMessage 3 (mkRange 0x20000 8192) None (Some 12))))).
  vm_compute; intuition congruence.
Defined.
