(* ===== verification/Permissions.v ===== *)
(** * Message permissions of a connection ([xous/kernel/src/server.rs], [MessagePermissions])

    A connection carries the set of message ids its client may send: a 64-bit mask for the
    ids below 64 and four half-open ranges for the others.  [permissions_add] is
    [MessagePermissions::add], [is_permitted] is [MessagePermissions::is_permitted].  The
    abstract view of a value is the predicate [fun id => is_permitted p id = true]; the
    theorems say which set each outcome of [add] leaves. *)
From S2P Require Import Prelude Xous SysCall.

Definition MESSAGE_PERMISSION_COUNT : nat := 4.

(** [Range::is_empty], [Range::contains]. *)
Definition range_is_empty (r : MessageRange) : bool := negb (r_start r <? r_end r).
Definition range_contains (r : MessageRange) (id : Z) : bool :=
  (r_start r <=? id) && (id <? r_end r).

Record MessagePermissions : Type := mkPermissions {
  perm_mask : Z;                (* u64 *)
  perm_list : list MessageRange (* [Range<MessageId>; MESSAGE_PERMISSION_COUNT] *)
}.

(** [#[derive(Default)]]. *)
Definition MessagePermissions_default : MessagePermissions :=
  mkPermissions 0 (repeat (mkMsgRange 0 0) MESSAGE_PERMISSION_COUNT).

(** [for message_id in start..end.min(64) { mask |= 1 << message_id }]. *)
Definition mask_add (mask start stop : Z) : Z :=
  fold_left (fun m id => Z.lor m (Z.shiftl 1 id)) (seqZ start (Z.min stop 64 - start)) mask.

(** The body of [for list_slot in &mut self.list]: [None] when no slot takes the range. *)
Fixpoint list_add (l : list MessageRange) (msgs : MessageRange) : option (list MessageRange) :=
  match l with
  | [] => None
  | slot :: l =>
      if (r_start slot <=? r_end msgs) && (r_start msgs <=? r_end slot) then
        Some (mkMsgRange (Z.min (r_start slot) (r_start msgs)) (Z.max (r_end slot) (r_end msgs)) :: l)
      else if range_is_empty slot then Some (msgs :: l)
      else cons slot <$> list_add l msgs
  end.

Definition permissions_add (p : MessagePermissions) (msgs : MessageRange)
    : MessagePermissions * result Error Result :=
  if range_is_empty msgs then (p, Err InvalidArguments) else
  let mask := mask_add (perm_mask p) (r_start msgs) (r_end msgs) in
  if r_end msgs <=? 64 then (mkPermissions mask (perm_list p), Ok ROk) else
  match list_add (perm_list p) msgs with
  | Some l => (mkPermissions mask l, Ok ROk)
  | None => (mkPermissions mask (perm_list p), Err KernelTableFull)
  end.

Definition is_permitted (p : MessagePermissions) (id : Z) : bool :=
  if id <? 64 then negb (Z.land (perm_mask p) (Z.shiftl 1 id) =? 0)
  else existsb (fun r => range_contains r id) (perm_list p).

Definition wf_msg_range (r : MessageRange) : Prop := is_usize (r_start r) /\ is_usize (r_end r).

(** The invariant of a value built from the default by [add]: four slots, a 64-bit mask, and
    a slot is either the default empty range or a range that reaches past 64. *)
Definition wf_permissions (p : MessagePermissions) : Prop :=
  0 <= perm_mask p < 2 ^ 64
  /\ length (perm_list p) = MESSAGE_PERMISSION_COUNT
  /\ Forall (fun r => r = mkMsgRange 0 0 \/ (0 <= r_start r < r_end r /\ 64 < r_end r)) (perm_list p).

(** ** Lemmas *)

Lemma mask_add_spec mask start stop i :
  0 <= start -> 0 <= i ->
  Z.testbit (mask_add mask start stop) i
  = Z.testbit mask i || ((start <=? i) && (i <? Z.min stop 64)).
Proof.
  intros Hs Hi. unfold mask_add. generalize (Z.min stop 64) as e. clear stop. intros e.
  remember (Z.to_nat (e - start)) as n eqn:En. revert start mask Hs En.
  induction n as [|n IH]; intros start mask Hs En.
  - rewrite seqZ_nil by lia. cbn. replace ((start <=? i) && (i <? e)) with false by lia.
    by rewrite orb_false_r.
  - rewrite seqZ_cons by lia. cbn [fold_left].
    replace (Z.pred (e - start)) with (e - Z.succ start) by lia.
    rewrite IH, testbit_set by lia. rewrite <-orb_assoc. f_equal. lia.
Qed.

Lemma mask_add_range mask start stop :
  0 <= start -> 0 <= mask < 2 ^ 64 -> 0 <= mask_add mask start stop < 2 ^ 64.
Proof.
  intros Hs Hm. unfold mask_add. set (ids := seqZ _ _).
  assert (Forall (fun i => 0 <= i < 64) ids) as Hids.
  { apply list.Forall_forall. intros i Hi. apply elem_of_seqZ in Hi. lia. }
  clearbody ids. revert mask Hm. induction Hids as [|i ids Hi _ IH]; intros mask Hm; [done|].
  cbn. apply IH. split; [apply Z.lor_nonneg; split; [lia|apply Z.shiftl_nonneg; lia]|].
  destruct (Z.eq_dec mask 0) as [->|].
  - rewrite Z.lor_0_l, Z.shiftl_1_l. apply Z.pow_lt_mono_r; lia.
  - apply Z.log2_lt_pow2; [|].
    + assert (Z.lor mask (Z.shiftl 1 i) <> 0); [|pose proof (Z.lor_nonneg mask (Z.shiftl 1 i));
        pose proof (Z.shiftl_nonneg 1 i); lia].
      intros [? _]%Z.lor_eq_0_iff. lia.
    + rewrite Z.log2_lor by (try apply Z.shiftl_nonneg; lia).
      rewrite Z.shiftl_1_l, Z.log2_pow2 by lia. apply Z.max_lub_lt; [|lia].
      apply Z.log2_lt_pow2; lia.
Qed.

Lemma is_permitted_low p id :
  0 <= id < 64 -> is_permitted p id = Z.testbit (perm_mask p) id.
Proof.
  intros. unfold is_permitted. replace (id <? 64) with true by lia.
  by rewrite testbit_mask, negb_involutive by lia.
Qed.

Lemma is_permitted_high p id :
  64 <= id -> is_permitted p id = existsb (fun r => range_contains r id) (perm_list p).
Proof. intros. unfold is_permitted. by replace (id <? 64) with false by lia. Qed.

Definition slot_ok (r : MessageRange) : Prop :=
  r = mkMsgRange 0 0 \/ (0 <= r_start r < r_end r /\ 64 < r_end r).

Lemma list_add_spec l msgs l' id :
  Forall slot_ok l -> 0 <= r_start msgs < r_end msgs -> 64 < r_end msgs -> 64 <= id ->
  list_add l msgs = Some l' ->
  existsb (fun r => range_contains r id) l'
  = existsb (fun r => range_contains r id) l || range_contains msgs id.
Proof.
  intros Hl Hm H64 Hid. revert l'. induction Hl as [|slot l Hslot Hl IH]; intros l' E; [done|].
  cbn in E. repeat case_match; simplify_eq; cbn.
  - destruct Hslot as [->|Hslot]; unfold range_contains in *; cbn in *.
    + destruct (existsb _ l); lia.
    + destruct (existsb _ l); lia.
  - unfold range_is_empty, range_contains in *. destruct (existsb _ l); lia.
  - apply fmap_Some in E as (l1 & E & ->). cbn. rewrite (IH _ E). by rewrite orb_assoc.
Qed.

Lemma list_add_wf l msgs l' :
  Forall slot_ok l -> 0 <= r_start msgs < r_end msgs -> 64 < r_end msgs ->
  list_add l msgs = Some l' -> Forall slot_ok l' /\ length l' = length l.
Proof.
  intros Hl Hm H64. revert l'. induction Hl as [|slot l Hslot Hl IH]; intros l' E; [done|].
  cbn in E. repeat case_match; simplify_eq; cbn.
  - split; [|done]. constructor; [|done]. right. cbn.
    destruct Hslot as [->|?]; cbn in *; lia.
  - split; [|done]. constructor; [|done]. by right.
  - apply fmap_Some in E as (l1 & E & ->). destruct (IH _ E) as [? ?].
    split; [by constructor|]. cbn. congruence.
Qed.

(** The range finds no slot exactly when every slot is in use and none touches it. *)
Lemma list_add_None l msgs :
  list_add l msgs = None <->
  Forall (fun r => range_is_empty r = false
                   /\ ((r_start r <=? r_end msgs) && (r_start msgs <=? r_end r)) = false) l.
Proof.
  induction l as [|slot l IH]; cbn; [done|]. rewrite list.Forall_cons.
  repeat case_match; rewrite ?fmap_None, ?IH; intuition congruence.
Qed.

(** Whatever was permitted before, a success permits the range. *)
Lemma list_add_contains l msgs l' id :
  range_contains msgs id = true -> list_add l msgs = Some l' -> existsb (fun r => range_contains r id) l' = true.
Proof.
  intros Hid. revert l'. induction l as [|slot l IH]; intros l' E; [done|].
  cbn in E. repeat case_match; simplify_eq; cbn.
  - unfold range_contains in *. cbn. apply orb_true_iff. left. lia.
  - by rewrite Hid.
  - apply fmap_Some in E as (l1 & E & ->). cbn. rewrite (IH _ E). apply orb_true_r.
Qed.
Lemma permissions_add_grants p msgs p' v id :
  permissions_add p msgs = (p', Ok v) -> 0 <= r_start msgs -> range_contains msgs id = true -> is_permitted p' id = true.
Proof.
  intros E Hs Hid. pose proof Hid as Hr. unfold range_contains in Hr. unfold permissions_add in E.
  destruct (range_is_empty msgs); [done|]. destruct (Z.lt_ge_cases id 64).
  - assert (perm_mask p' = mask_add (perm_mask p) (r_start msgs) (r_end msgs)) as Hm by (by repeat case_match; simplify_eq).
    rewrite is_permitted_low, Hm, mask_add_spec by lia. apply orb_true_iff. right. lia.
  - rewrite is_permitted_high by done. destruct (r_end msgs <=? 64) eqn:E64; [lia|].
    destruct (list_add _ _) as [l|] eqn:El; [|done]. injection E as <- _. by eapply list_add_contains.
Qed.

Lemma wf_permissions_default : wf_permissions MessagePermissions_default.
Proof. split_and!; [done|cbn; lia|done|]. cbn. repeat (constructor; [by left|]). constructor. Qed.

Lemma add_wf p msgs :
  wf_permissions p -> wf_msg_range msgs -> wf_permissions (permissions_add p msgs).1.
Proof.
  intros (Hm & Hlen & Hl) [Hs He]. unfold permissions_add, wf_permissions. unfold_ints.
  destruct (range_is_empty msgs) eqn:Emp; [done|]. unfold range_is_empty in Emp.
  pose proof (mask_add_range (perm_mask p) (r_start msgs) (r_end msgs) ltac:(lia) Hm).
  destruct (r_end msgs <=? 64) eqn:E64; [done|].
  destruct (list_add _ _) as [l|] eqn:E; cbn; [|done].
  apply list_add_wf in E as [? ?]; [|done|lia|lia]. by rewrite <-Hlen.
Qed.

Lemma add_spec p msgs p' r :
  wf_permissions p -> wf_msg_range msgs -> permissions_add p msgs = (p', r) ->
  wf_permissions p' /\
  match r with
  | Ok v => v = ROk /\ range_is_empty msgs = false
      /\ forall id, 0 <= id -> is_permitted p' id = is_permitted p id || range_contains msgs id
  | Err InvalidArguments => p' = p /\ range_is_empty msgs = true
  | Err e => e = KernelTableFull
      /\ (forall id, 0 <= id -> is_permitted p' id
            = is_permitted p id || (range_contains msgs id && (id <? 64)))
      /\ Forall (fun r => range_is_empty r = false
            /\ ((r_start r <=? r_end msgs) && (r_start msgs <=? r_end r)) = false) (perm_list p)
  end.
Proof.
  intros Hp Hr E. split; [pose proof (add_wf p msgs Hp Hr) as H; by rewrite E in H|].
  destruct Hp as (Hm & Hlen & Hl), Hr as [Hs He]. unfold_ints.
  unfold permissions_add in E. destruct (range_is_empty msgs) eqn:Emp; [by simplify_eq|].
  unfold range_is_empty in Emp.
  assert (forall id, 0 <= id < 64 -> forall l,
    is_permitted (mkPermissions (mask_add (perm_mask p) (r_start msgs) (r_end msgs)) l) id
    = is_permitted p id || range_contains msgs id) as Hlow.
  { intros id Hid l. rewrite !is_permitted_low by lia. cbn. rewrite mask_add_spec by lia.
    f_equal. unfold range_contains. lia. }
  destruct (r_end msgs <=? 64) eqn:E64; simplify_eq.
  - split; [done|]. split; [done|]. intros id Hid.
    destruct (Z.lt_ge_cases id 64); [by apply Hlow|].
    rewrite !is_permitted_high by lia. cbn.
    replace (range_contains msgs id) with false by (unfold range_contains; lia).
    by rewrite orb_false_r.
  - destruct (list_add _ _) as [l|] eqn:El; simplify_eq.
    + split; [done|]. split; [done|]. intros id Hid.
      destruct (Z.lt_ge_cases id 64); [by apply Hlow|].
      rewrite !is_permitted_high by lia. cbn. eapply list_add_spec; [done|lia..|done].
    + split; [done|]. split; [|by apply list_add_None]. intros id Hid.
      destruct (Z.lt_ge_cases id 64).
      * rewrite Hlow by lia. replace (id <? 64) with true by lia. by rewrite andb_true_r.
      * rewrite !is_permitted_high by lia. cbn. replace (id <? 64) with false by lia.
        by rewrite andb_false_r, orb_false_r.
Qed.

(** [MessagePermissions::add]: a success permits exactly the ids of the range in addition to
    those already permitted; a failure permits no new id from 64 up, and leaves the ids below
    64 of the range permitted when it is [KernelTableFull]; an empty range changes nothing.
    The value stays well formed, and the table is full only if all four slots hold a
    non-empty range that does not touch the new one. *)
Theorem add_exact p msgs p' r :
  wf_permissions p -> wf_msg_range msgs -> permissions_add p msgs = (p', r) ->
  wf_permissions p' /\
  match r with
  | Ok v => v = ROk /\ range_is_empty msgs = false
      /\ forall id, 0 <= id -> is_permitted p' id = is_permitted p id || range_contains msgs id
  | Err InvalidArguments => p' = p /\ range_is_empty msgs = true
  | Err e => e = KernelTableFull
      /\ (forall id, 0 <= id -> is_permitted p' id
            = is_permitted p id || (range_contains msgs id && (id <? 64)))
      /\ Forall (fun r => range_is_empty r = false
            /\ ((r_start r <=? r_end msgs) && (r_start msgs <=? r_end r)) = false) (perm_list p)
  end.
Proof. exact (add_spec p msgs p' r). Qed.

Lemma add_exact_witness :
  exists p' r, permissions_add MessagePermissions_default (mkMsgRange 60 70) = (p', r)
  /\ wf_permissions p' /\ r = Ok ROk
  /\ forall id, 0 <= id -> is_permitted p' id
       = is_permitted MessagePermissions_default id || range_contains (mkMsgRange 60 70) id.
Proof.
  eexists _, _. split; [reflexivity|].
  edestruct (add_exact MessagePermissions_default (mkMsgRange 60 70)) as [H1 H2];
    [apply wf_permissions_default|unfold wf_msg_range; cbn; unfold_ints; lia|reflexivity|].
  split; [exact H1|]. split; [reflexivity|]. apply H2.
Defined.

(** The failure is not atomic: with four disjoint ranges in use, a fifth range is refused
    with [KernelTableFull] and its ids below 64 are permitted all the same. *)
Example add_failure_not_atomic :
  let ranges := [mkMsgRange 100 101; mkMsgRange 200 201; mkMsgRange 300 301; mkMsgRange 400 401] in
  let p := mkPermissions 0 ranges in
  let '(p', r) := permissions_add p (mkMsgRange 63 66) in
  r = Err KernelTableFull /\ is_permitted p 63 = false /\ is_permitted p' 63 = true.
Proof. by vm_compute. Qed.
