(* ===== verification/Server.v ===== *)
(** * The message queue of a server ([xous/kernel/src/server.rs])

    [Server] is the state of the struct of that name on the device ([cfg(keyos)]): a fixed
    array of slots, the two 8-bit generation counters that order the messages, the count of
    empty slots and the mask of parked threads.  Each operation of the source is a definition
    of the same name; a computation that can panic returns an [option].

    The abstract view of a queue is the list of its undelivered messages in the order they
    were accepted.  [queue_repr] relates a state to it; the theorems show that the operations
    implement a first-in-first-out queue over this list, whatever slots are recycled. *)
From S2P Require Import Prelude Xous SysCall Permissions.

(** ** Sender identifiers *)

Record SenderID : Type := mkSenderID { sid_sidx : Z; sid_idx : Z; sid_pid : option Z }.

Definition SenderID_from_usize (item : Z) : SenderID :=
  mkSenderID (Z.land (Z.shiftr item 16) 0xff) (Z.land item 0xffff)
             (nonzero_new (u8 (Z.shiftr item 24))).

Definition SenderID_into_usize (val : SenderID) : Z :=
  Z.lor (Z.lor (usize (Z.shiftl (nonzero_or0 (sid_pid val)) 24))
               (Z.land (usize (Z.shiftl (sid_sidx val) 16)) 0x00ff0000))
        (Z.land (sid_idx val) 0xffff).

(** [MessageSender] wraps the word, so the two conversions are those of [usize]. *)
Definition sender_of (s : SenderID) : MessageSender := SenderID_into_usize s.

(** ** Slots *)

Inductive WaitingMessage : Type :=
| WNone
| WBorrowedMemory (pid tid client_addr : Z)
| WMovedMemory (pid tid client_addr buf_size : Z)
| WScalarMessage (pid tid : Z)
| WScalarMessageTerminated
| WForgetMemory (range : MemoryRange).

Record ServerBuffer : Type := mkServerBuffer { sb_addr : Z; sb_size : Z }.

Definition ServerBuffer_new (range : MemoryRange) : result Error ServerBuffer :=
  let? addr := ok_or (nonzero_new (range_addr range)) BadAddress in
  let? size := ok_or (nonzero_new (range_size range)) InvalidArguments in
  Ok (mkServerBuffer addr size).

(** [MemoryRange::from_parts]. *)
Definition ServerBuffer_range (b : ServerBuffer) : MemoryRange := mkRange (sb_addr b) (sb_size b).

#[export] Instance ServerBuffer_eq_dec : EqDecision ServerBuffer.
Proof. solve_decision. Defined.

(** [args: [usize; 4]]. *)
Record args4 : Type := mkArgs { arg0 : Z; arg1 : Z; arg2 : Z; arg3 : Z }.

#[export] Instance args4_eq_dec : EqDecision args4.
Proof. solve_decision. Defined.

Inductive QueuedMessage : Type :=
| QEmpty
| QBlockingScalarMessage (pid tid idx msg_id : Z) (args : args4)
| QScalarMessage (pid idx msg_id : Z) (args : args4)
| QMemoryMessageSend (pid idx msg_id : Z) (buf : ServerBuffer) (offset valid : Z)
| QMemoryMessageBlockingSend (pid tid idx msg_id client_addr : Z) (buf : ServerBuffer) (offset valid : Z)
| QMemoryMessageROLend (pid tid idx msg_id client_addr : Z) (buf : ServerBuffer) (offset valid : Z)
| QMemoryMessageRWLend (pid tid idx msg_id client_addr : Z) (buf : ServerBuffer) (offset valid : Z)
| QMemoryMessageROLendTerminated (idx msg_id : Z) (buf : ServerBuffer) (offset valid : Z)
| QMemoryMessageRWLendTerminated (idx msg_id : Z) (buf : ServerBuffer) (offset valid : Z)
| QMemoryMessageBlockingSendTerminated (idx msg_id : Z) (buf : ServerBuffer) (offset valid : Z)
| QBlockingScalarTerminated (idx msg_id : Z) (args : args4)
| QWaitingReturnMemory (pid tid : Z) (buf : ServerBuffer) (client_addr : Z)
| QWaitingReturnMoved (pid tid client_addr buf_size : Z)
| QWaitingReturnMovedTerminated
| QWaitingForget (buf : ServerBuffer)
| QWaitingReturnScalar (pid tid : Z)
| QWaitingReturnScalarTerminated.

#[export] Instance QueuedMessage_eq_dec : EqDecision QueuedMessage.
Proof. solve_decision. Defined.

(** [size_of::<QueuedMessage>()] on the device. *)
Definition QUEUED_MESSAGE_SIZE : Z := 32.

Definition is_empty_slot (m : QueuedMessage) : bool :=
  match m with QEmpty => true | _ => false end.

(** ** The server *)

Record Server : Type := mkServer {
  server_sid : SID;
  server_pid : Z;
  queue_head : nat;
  queue_tail : nat;
  head_generation : Z;     (* u8 *)
  tail_generation : Z;     (* u8 *)
  empty_count : Z;
  queue : list QueuedMessage;
  ready_threads : Z;
  default_permissions : MessagePermissions;
  event_handlers : list (option Z)
}.

Definition set_queue (s : Server) (q : list QueuedMessage) : Server :=
  mkServer (server_sid s) (server_pid s) (queue_head s) (queue_tail s) (head_generation s)
    (tail_generation s) (empty_count s) q (ready_threads s) (default_permissions s) (event_handlers s).
Definition set_queue_head (s : Server) (h : nat) : Server :=
  mkServer (server_sid s) (server_pid s) h (queue_tail s) (head_generation s)
    (tail_generation s) (empty_count s) (queue s) (ready_threads s) (default_permissions s) (event_handlers s).
Definition set_queue_tail (s : Server) (t : nat) : Server :=
  mkServer (server_sid s) (server_pid s) (queue_head s) t (head_generation s)
    (tail_generation s) (empty_count s) (queue s) (ready_threads s) (default_permissions s) (event_handlers s).
Definition set_head_generation (s : Server) (g : Z) : Server :=
  mkServer (server_sid s) (server_pid s) (queue_head s) (queue_tail s) g
    (tail_generation s) (empty_count s) (queue s) (ready_threads s) (default_permissions s) (event_handlers s).
Definition set_tail_generation (s : Server) (g : Z) : Server :=
  mkServer (server_sid s) (server_pid s) (queue_head s) (queue_tail s) (head_generation s)
    g (empty_count s) (queue s) (ready_threads s) (default_permissions s) (event_handlers s).
Definition set_empty_count (s : Server) (c : Z) : Server :=
  mkServer (server_sid s) (server_pid s) (queue_head s) (queue_tail s) (head_generation s)
    (tail_generation s) c (queue s) (ready_threads s) (default_permissions s) (event_handlers s).
Definition set_ready_threads (s : Server) (r : Z) : Server :=
  mkServer (server_sid s) (server_pid s) (queue_head s) (queue_tail s) (head_generation s)
    (tail_generation s) (empty_count s) (queue s) r (default_permissions s) (event_handlers s).
Definition set_event_handlers (s : Server) (h : list (option Z)) : Server :=
  mkServer (server_sid s) (server_pid s) (queue_head s) (queue_tail s) (head_generation s)
    (tail_generation s) (empty_count s) (queue s) (ready_threads s) (default_permissions s) h.
Definition set_default_permissions (s : Server) (p : MessagePermissions) : Server :=
  mkServer (server_sid s) (server_pid s) (queue_head s) (queue_tail s) (head_generation s)
    (tail_generation s) (empty_count s) (queue s) (ready_threads s) p (event_handlers s).

(** [Server::init].  The backing pages are zeroed when the kernel hands them over, and a
    zeroed slot is [Empty], the variant of discriminant 0. *)
Definition init (new : option Server) (pid : Z) (sid : SID) (backing : MemoryRange)
    (initial_permissions : MessageRange) : option Server * result Error unit :=
  match new with
  | Some _ => (new, Err MemoryInUse)
  | None =>
      let queue := repeat QEmpty (Z.to_nat (range_size backing / QUEUED_MESSAGE_SIZE)) in
      let '(perms, r) :=
        if range_is_empty initial_permissions then (MessagePermissions_default, Ok ROk)
        else permissions_add MessagePermissions_default initial_permissions in
      match r with
      | Err e => (new, Err e)
      | Ok _ =>
          (Some (mkServer sid pid 0 0 0 0 (Z.of_nat (length queue)) queue 0 perms
                   (repeat None NUM_SERVER_EVENTS)), Ok tt)
      end
  end.

Definition is_queue_full (s : Server) : bool := empty_count s =? 0.

(** [queue_idx + 1], back to 0 past the end. *)
Definition next_slot (n idx : nat) : nat := if decide (n <= S idx)%nat then 0%nat else S idx.

(** ** Delivering a message *)

Definition memory_body (msg_id : Z) (buf : ServerBuffer) (offset valid : Z) : MemoryMessage :=
  mkMemoryMessage msg_id (ServerBuffer_range buf) (nonzero_new offset) (nonzero_new valid).
Definition scalar_body (msg_id : Z) (args : args4) : ScalarMessage :=
  mkScalarMessage msg_id (arg0 args) (arg1 args) (arg2 args) (arg3 args).
(** [SenderID::new(sidx, queue_idx, pid).into()]. *)
Definition envelope (sidx : Z) (queue_idx : nat) (pid : option Z) (body : Message) : MessageEnvelope :=
  mkEnvelope (sender_of (mkSenderID sidx (Z.of_nat queue_idx) pid)) body.

(** The arms of the [match] of [take_next_message]: the envelope and the slot's new content
    when the slot holds the message whose turn it is; [None] is the arm [other]. *)
Definition deliver (sidx : Z) (queue_idx : nat) (head_generation : Z) (entry : QueuedMessage)
    : option (MessageEnvelope * QueuedMessage) :=
  let turn idx k := if idx =? head_generation then Some k else None in
  let env := envelope sidx queue_idx in
  match entry with
  | QMemoryMessageROLend pid tid idx msg_id client_addr buf offset valid =>
      turn idx (env (Some pid) (Borrow (memory_body msg_id buf offset valid)),
                QWaitingReturnMemory pid tid buf client_addr)
  | QMemoryMessageRWLend pid tid idx msg_id client_addr buf offset valid =>
      turn idx (env (Some pid) (MutableBorrow (memory_body msg_id buf offset valid)),
                QWaitingReturnMemory pid tid buf client_addr)
  | QMemoryMessageROLendTerminated idx msg_id buf offset valid =>
      turn idx (env (nonzero_new 255) (Borrow (memory_body msg_id buf offset valid)),
                QWaitingForget buf)
  | QMemoryMessageRWLendTerminated idx msg_id buf offset valid =>
      turn idx (env (nonzero_new 255) (MutableBorrow (memory_body msg_id buf offset valid)),
                QWaitingForget buf)
  | QBlockingScalarMessage pid tid idx msg_id args =>
      turn idx (env (Some pid) (BlockingScalar (scalar_body msg_id args)),
                QWaitingReturnScalar pid tid)
  | QMemoryMessageSend pid idx msg_id buf offset valid =>
      turn idx (env (Some pid) (Move (memory_body msg_id buf offset valid)), QEmpty)
  | QMemoryMessageBlockingSend pid tid idx msg_id client_addr buf offset valid =>
      turn idx (env (Some pid) (BlockingMove (memory_body msg_id buf offset valid)),
                QWaitingReturnMoved pid tid client_addr (sb_size buf))
  | QMemoryMessageBlockingSendTerminated idx msg_id buf offset valid =>
      turn idx (env (nonzero_new 255) (BlockingMove (memory_body msg_id buf offset valid)),
                QWaitingReturnMovedTerminated)
  | QScalarMessage pid idx msg_id args =>
      turn idx (env (Some pid) (Scalar (scalar_body msg_id args)), QEmpty)
  | QBlockingScalarTerminated idx msg_id args =>
      turn idx (env (nonzero_new 255) (BlockingScalar (scalar_body msg_id args)),
                QWaitingReturnScalarTerminated)
  | QEmpty | QWaitingReturnMemory _ _ _ _ | QWaitingReturnMoved _ _ _ _
  | QWaitingReturnMovedTerminated | QWaitingForget _ | QWaitingReturnScalar _ _
  | QWaitingReturnScalarTerminated => None
  end.

(** The state after slot [queue_idx] was delivered and became [response]. *)
Definition after_delivery (s : Server) (queue_idx : nat) (response : QueuedMessage) : Server :=
  let s := set_queue_tail s (next_slot (length (queue s)) queue_idx) in
  let s := if is_empty_slot response then set_empty_count s (empty_count s + 1) else s in
  let s := set_queue s (<[queue_idx := response]> (queue s)) in
  set_head_generation s (u8 (head_generation s + 1)).

(** The [loop] of [take_next_message]; [None] is an index out of range, or no fuel. *)
Fixpoint take_next_loop (fuel : nat) (s : Server) (sidx : Z) (queue_idx : nat)
    : option (Server * option MessageEnvelope) :=
  match fuel with
  | O => None
  | S fuel =>
      let! entry := queue s !! queue_idx in
      match deliver sidx queue_idx (head_generation s) entry with
      | Some (result, response) => Some (after_delivery s queue_idx response, Some result)
      | None =>
          let queue_idx := next_slot (length (queue s)) queue_idx in
          if decide (queue_idx = queue_tail s) then Some (s, None)
          else take_next_loop fuel s sidx queue_idx
      end
  end.

Definition take_next_message (s : Server) (sidx : Z) : option (Server * option MessageEnvelope) :=
  if tail_generation s =? head_generation s then Some (s, None)
  else take_next_loop (length (queue s)) s sidx (queue_tail s).

(** ** Accepting a message *)

(** [(head..len).chain(0..head)], the order in which slots are tried. *)
Definition slot_order (s : Server) : list nat :=
  seq (queue_head s) (length (queue s) - queue_head s) ++ seq 0 (queue_head s).

Definition slot_is_empty (q : list QueuedMessage) (i : nat) : bool :=
  match q !! i with Some m => is_empty_slot m | None => false end.

Definition find_empty_slot (s : Server) : Server * result Error nat :=
  match List.find (slot_is_empty (queue s)) (slot_order s) with
  | Some queue_idx => (set_queue_head s (next_slot (length (queue s)) queue_idx), Ok queue_idx)
  | None => (s, Err ServerQueueFull)
  end.

(** The slot written for a message: the right-hand side of the assignment of
    [queue_message], where [?] can fail. *)
Definition queued_entry (pid tid idx : Z) (message : Message) (original_address : option Z)
    : result Error QueuedMessage :=
  let scalar_args msg := mkArgs (sc_arg1 msg) (sc_arg2 msg) (sc_arg3 msg) (sc_arg4 msg) in
  match message with
  | Scalar msg => Ok (QScalarMessage pid idx (sc_id msg) (scalar_args msg))
  | BlockingScalar msg => Ok (QBlockingScalarMessage pid (u8 tid) idx (sc_id msg) (scalar_args msg))
  | Move msg =>
      let? buf := ServerBuffer_new (mm_buf msg) in
      Ok (QMemoryMessageSend pid idx (mm_id msg) buf
            (nonzero_or0 (mm_offset msg)) (nonzero_or0 (mm_valid msg)))
  | BlockingMove msg =>
      let? client_addr := ok_or original_address InvalidArguments in
      let? buf := ServerBuffer_new (mm_buf msg) in
      Ok (QMemoryMessageBlockingSend pid (u8 tid) idx (mm_id msg) client_addr buf
            (nonzero_or0 (mm_offset msg)) (nonzero_or0 (mm_valid msg)))
  | MutableBorrow msg =>
      let? client_addr := ok_or original_address InvalidArguments in
      let? buf := ServerBuffer_new (mm_buf msg) in
      Ok (QMemoryMessageRWLend pid (u8 tid) idx (mm_id msg) client_addr buf
            (nonzero_or0 (mm_offset msg)) (nonzero_or0 (mm_valid msg)))
  | Borrow msg =>
      let? client_addr := ok_or original_address InvalidArguments in
      let? buf := ServerBuffer_new (mm_buf msg) in
      Ok (QMemoryMessageROLend pid (u8 tid) idx (mm_id msg) client_addr buf
            (nonzero_or0 (mm_offset msg)) (nonzero_or0 (mm_valid msg)))
  end.

(** [Server::queue_message]; [None] is the failure of the closing [assert_ne]. *)
Definition queue_message (s : Server) (pid tid : Z) (message : Message) (original_address : option Z)
    : option (Server * result Error nat) :=
  let '(s, slot) := find_empty_slot s in
  match slot with
  | Err e => Some (s, Err e)
  | Ok queue_idx =>
      match queued_entry pid tid (tail_generation s) message original_address with
      | Err e => Some (s, Err e)
      | Ok entry =>
          let s := set_queue s (<[queue_idx := entry]> (queue s)) in
          let s := set_empty_count s (usize (empty_count s - 1)) in
          let s := set_tail_generation s (u8 (tail_generation s + 1)) in
          if tail_generation s =? head_generation s then None else Some (s, Ok queue_idx)
      end
  end.

Definition response_entry (pid tid : Z) (message : Message) (client_address : option Z)
    : result Error QueuedMessage :=
  match message with
  | Scalar _ | BlockingScalar _ => Ok (QWaitingReturnScalar pid (u8 tid))
  | Move msg => let? buf := ServerBuffer_new (mm_buf msg) in Ok (QWaitingForget buf)
  | BlockingMove msg =>
      let? client_addr := ok_or client_address InvalidArguments in
      let? buf_size := ok_or (nonzero_new (range_size (mm_buf msg))) InvalidArguments in
      Ok (QWaitingReturnMoved pid (u8 tid) client_addr buf_size)
  | MutableBorrow msg | Borrow msg =>
      let? client_addr := ok_or client_address InvalidArguments in
      let? buf := ServerBuffer_new (mm_buf msg) in
      Ok (QWaitingReturnMemory pid (u8 tid) buf client_addr)
  end.

Definition queue_response (s : Server) (pid tid : Z) (message : Message) (client_address : option Z)
    : Server * result Error nat :=
  let '(s, slot) := find_empty_slot s in
  match slot with
  | Err e => (s, Err e)
  | Ok queue_idx =>
      match response_entry pid tid message client_address with
      | Err e => (s, Err e)
      | Ok entry =>
          let s := set_queue s (<[queue_idx := entry]> (queue s)) in
          (set_empty_count s (usize (empty_count s - 1)), Ok queue_idx)
      end
  end.

(** ** Answering a message *)

(** The address and size checks done before the slot is taken. *)
Definition waiting_mismatch (current : QueuedMessage) (buf : option MemoryRange) : bool :=
  match buf, current with
  | Some buf, QWaitingReturnMemory _ _ server_buf _ | Some buf, QWaitingForget server_buf =>
      negb (sb_addr server_buf =? range_addr buf) || negb (sb_size server_buf =? range_size buf)
  | _, _ => false
  end.

(** The arms that take the slot: [Ok None] is the arm [other], which puts it back. *)
Definition take_waiting (current : QueuedMessage) (buf : option MemoryRange)
    : result Error (option WaitingMessage) :=
  match current with
  | QWaitingReturnMemory pid tid _ client_addr => Ok (Some (WBorrowedMemory pid tid client_addr))
  | QWaitingForget server_buf => Ok (Some (WForgetMemory (ServerBuffer_range server_buf)))
  | QWaitingReturnMoved pid tid client_addr buf_size =>
      Ok (Some (WMovedMemory pid tid client_addr buf_size))
  | QWaitingReturnMovedTerminated =>
      match buf with
      | Some buf => Ok (Some (WForgetMemory buf))
      | None => Err BadAddress
      end
  | QWaitingReturnScalar pid tid => Ok (Some (WScalarMessage pid tid))
  | QWaitingReturnScalarTerminated => Ok (Some WScalarMessageTerminated)
  | _ => Ok None
  end.

Definition take_waiting_message (s : Server) (message_index : nat) (buf : option MemoryRange)
    : Server * result Error WaitingMessage :=
  match queue s !! message_index with
  | None => (s, Err BadAddress)
  | Some current =>
      if waiting_mismatch current buf then (s, Err BadAddress) else
      match take_waiting current buf with
      | Err e => (s, Err e)
      | Ok None => (s, Ok WNone)
      | Ok (Some w) =>
          let s := set_queue s (<[message_index := QEmpty]> (queue s)) in
          let s := set_empty_count s (empty_count s + 1) in
          (set_queue_tail s (next_slot (length (queue s)) message_index), Ok w)
      end
  end.

(** ** A client that terminates *)

(** The arms of [discard_messages_for_pid]. *)
Definition discard_entry (pid : Z) (entry : QueuedMessage) : QueuedMessage :=
  match entry with
  | QMemoryMessageROLend msg_pid _ idx msg_id _ buf offset valid =>
      if msg_pid =? pid then QMemoryMessageROLendTerminated idx msg_id buf offset valid else entry
  | QMemoryMessageRWLend msg_pid _ idx msg_id _ buf offset valid =>
      if msg_pid =? pid then QMemoryMessageRWLendTerminated idx msg_id buf offset valid else entry
  | QMemoryMessageBlockingSend msg_pid _ idx msg_id _ buf offset valid =>
      if msg_pid =? pid then QMemoryMessageBlockingSendTerminated idx msg_id buf offset valid
      else entry
  | QBlockingScalarMessage msg_pid _ idx msg_id args =>
      if msg_pid =? pid then QBlockingScalarTerminated idx msg_id args else entry
  | QWaitingReturnMemory msg_pid _ buf _ => if msg_pid =? pid then QWaitingForget buf else entry
  | QWaitingReturnMoved msg_pid _ _ _ =>
      if msg_pid =? pid then QWaitingReturnMovedTerminated else entry
  | QWaitingReturnScalar msg_pid _ =>
      if msg_pid =? pid then QWaitingReturnScalarTerminated else entry
  | other => other
  end.

Definition discard_messages_for_pid (s : Server) (pid : Z) : Server :=
  set_queue s (map (discard_entry pid) (queue s)).

(** ** Parked threads *)

(** [x.rotate_left(1)] on [usize]. *)
Definition rotate_left1 (x : Z) : Z := Z.lor (usize (Z.shiftl x 1)) (Z.shiftr x 31).
(** [1 << tid]: the shift amount is taken modulo the width. *)
Definition thread_bit (tid : Z) : Z := Z.shiftl 1 (tid mod 32).

(** The [loop] of [take_available_thread]; [None] is the panic. *)
Fixpoint take_thread_loop (fuel : nat) (ready mask thread_number : Z) : option (Z * Z) :=
  match fuel with
  | O => None
  | S fuel =>
      if Z.land ready mask =? mask then Some (Z.ldiff ready mask, thread_number) else
      let mask := rotate_left1 mask in
      if mask =? 1 then None else take_thread_loop fuel ready mask (thread_number + 1)
  end.

Definition take_available_thread (s : Server) : option (Server * option Z) :=
  if ready_threads s =? 0 then Some (s, None) else
  let! (ready, tid) := take_thread_loop 32 (ready_threads s) 1 0 in
  Some (set_ready_threads s ready, Some tid).

Definition return_available_thread (s : Server) (tid : Z) : option Server :=
  if negb (Z.land (ready_threads s) (thread_bit tid) =? 0) then None
  else Some (set_ready_threads s (Z.lor (ready_threads s) (thread_bit tid))).

Definition park_thread (s : Server) (tid : Z) : option Server :=
  if Z.land (ready_threads s) (thread_bit tid) =? 0
  then Some (set_ready_threads s (Z.lor (ready_threads s) (thread_bit tid)))
  else None.

(** ** Event handlers *)

Definition set_event_handler (s : Server) (event : ServerEvent) (id : Z)
    : option (Server * result Error unit) :=
  let i := Z.to_nat (ServerEvent_as_usize event) in
  let! existing := event_handlers s !! i in
  match existing with
  | Some _ => Some (s, Err MemoryInUse)
  | None => Some (set_event_handlers s (<[i := Some id]> (event_handlers s)), Ok tt)
  end.

Definition get_event_handler (s : Server) (event : ServerEvent) : option (option Z) :=
  event_handlers s !! Z.to_nat (ServerEvent_as_usize event).

(** ** Destroying a server *)

(** The operations of [SystemServices] and of the memory manager that [destroy] calls, over
    a state [W].  [None] is a panic. *)
Class SystemOps (W : Type) := {
  op_return_memory : W -> Z -> Z -> Z -> Z -> Z -> option (W * result Error Z);
  op_clear_shared_range : W -> Z -> Z -> Z -> option W;
  op_set_thread_ready : W -> Z -> Z -> option W;
  op_set_thread_result : W -> Z -> Z -> Result -> option W;
  op_unmap_range : W -> Z -> Z -> option (W * result Error unit)
}.

Section destroy.
Context {W : Type} `{SystemOps W}.

  (** [free_untaken] and [free_delivered] are the same unmapping on the device; an error of
      the unmapping is dropped. *)
Definition free_buffer (w : W) (buf : ServerBuffer) : option W :=
    fst <$> op_unmap_range w (sb_addr buf) (sb_size buf).

Definition fail_then_wake (w : W) (pid tid : Z) : option W :=
    let! w := op_set_thread_result w pid tid (RError ServerNotFound) in
    op_set_thread_ready w pid tid.

Definition return_memory_and_unblock_client (w : W) (pid tid client_addr : Z)
      (buf : ServerBuffer) : option W :=
    let! (w, r) := op_return_memory w (sb_addr buf) pid tid client_addr (sb_size buf) in
    let! w := if is_Ok r then Some w else op_clear_shared_range w pid client_addr (sb_size buf) in
    let! w := op_set_thread_ready w pid tid in
    op_set_thread_result w pid tid (RError ServerNotFound).

Definition destroy_entry (w : W) (entry : QueuedMessage) : option W :=
    match entry with
    | QEmpty | QScalarMessage _ _ _ _ | QBlockingScalarTerminated _ _ _
    | QWaitingReturnScalarTerminated | QWaitingReturnMovedTerminated => Some w
    | QMemoryMessageSend _ _ _ buf _ _
    | QMemoryMessageBlockingSendTerminated _ _ buf _ _
    | QMemoryMessageROLendTerminated _ _ buf _ _
    | QMemoryMessageRWLendTerminated _ _ buf _ _ => free_buffer w buf
    | QWaitingForget buf => free_buffer w buf
    | QBlockingScalarMessage pid tid _ _ _ | QWaitingReturnScalar pid tid =>
        fail_then_wake w pid tid
    | QMemoryMessageROLend pid tid _ _ client_addr buf _ _
    | QMemoryMessageRWLend pid tid _ _ client_addr buf _ _ =>
        return_memory_and_unblock_client w pid tid client_addr buf
    | QWaitingReturnMemory pid tid buf client_addr =>
        return_memory_and_unblock_client w pid tid client_addr buf
    | QMemoryMessageBlockingSend pid tid _ _ client_addr buf _ _ =>
        let! w := free_buffer w buf in
        let! w := op_clear_shared_range w pid client_addr (sb_size buf) in
        fail_then_wake w pid tid
    | QWaitingReturnMoved pid tid client_addr buf_size =>
        let! w := op_clear_shared_range w pid client_addr buf_size in
        fail_then_wake w pid tid
    end.

Fixpoint destroy_entries (w : W) (q : list QueuedMessage) : option W :=
    match q with
    | [] => Some w
    | entry :: q => let! w := destroy_entry w entry in destroy_entries w q
    end.

  (** [while let Some(server_tid) = self.take_available_thread()]. *)
Fixpoint wake_server_threads (fuel : nat) (s : Server) (pid : Z) (w : W) : option W :=
    match fuel with
    | O => None
    | S fuel =>
        let! (s, tid) := take_available_thread s in
        match tid with
        | None => Some w
        | Some tid =>
            let! w := op_set_thread_ready w pid tid in
            let! w := op_set_thread_result w pid tid (RError ServerNotFound) in
            wake_server_threads fuel s pid w
        end
    end.

  (** [destroy]: [current_pid] is the caller's process, [backing] the address of the queue. *)
Definition destroy (s : Server) (current_pid backing : Z) (w : W) : option W :=
    let! w := destroy_entries w (queue s) in
    let! w := wake_server_threads 33 s current_pid w in
    match op_unmap_range w backing (Z.of_nat (length (queue s)) * QUEUED_MESSAGE_SIZE) with
    | Some (w, Ok _) => Some w
    | _ => None
    end.
End destroy.

(** What every call keeps, destroying a server keeps. *)
Record ops_keep {W} `{SystemOps W} (I : W -> Prop) : Prop := {
  keep_return : forall w src pid tid dest size w' r,
    op_return_memory w src pid tid dest size = Some (w', r) -> I w -> I w';
  keep_clear : forall w pid addr size w', op_clear_shared_range w pid addr size = Some w' -> I w -> I w';
  keep_ready : forall w pid tid w', op_set_thread_ready w pid tid = Some w' -> I w -> I w';
  keep_result : forall w pid tid r w', op_set_thread_result w pid tid r = Some w' -> I w -> I w';
  keep_unmap : forall w addr size w' r, op_unmap_range w addr size = Some (w', r) -> I w -> I w'
}.

Section DestroyKeeps.
Context {W : Type} `{SystemOps W} (I : W -> Prop) (HI : ops_keep I).

Lemma free_buffer_keeps w buf w' : free_buffer w buf = Some w' -> I w -> I w'.
Proof.
  unfold free_buffer. destruct (op_unmap_range w _ _) as [[w1 r]|] eqn:E; [|done]. intros [= <-]. by apply (keep_unmap I HI _ _ _ _ _ E).
Qed.
Lemma fail_then_wake_keeps w pid tid w' : fail_then_wake w pid tid = Some w' -> I w -> I w'.
Proof.
  unfold fail_then_wake. destruct (op_set_thread_result w _ _ _) as [w1|] eqn:E; [|done]. intros E' Hw.
  apply (keep_ready I HI _ _ _ _ E'). by apply (keep_result I HI _ _ _ _ _ E).
Qed.
Lemma unblock_keeps w pid tid client_addr buf w' :
  return_memory_and_unblock_client w pid tid client_addr buf = Some w' -> I w -> I w'.
Proof.
  unfold return_memory_and_unblock_client. intros H0 Hw.
  destruct (op_return_memory w _ _ _ _ _) as [[w1 r]|] eqn:E1; [|done]. apply (keep_return I HI) in E1; [|done].
  destruct (if is_Ok r then Some w1 else _) as [w2|] eqn:E2; [|done].
  assert (I w2) as Hw2 by (destruct (is_Ok r); [by injection E2 as <-|by apply (keep_clear I HI _ _ _ _ _ E2)]).
  destruct (op_set_thread_ready w2 pid tid) as [w3|] eqn:E3; [|done].
  apply (keep_result I HI _ _ _ _ _ H0). by apply (keep_ready I HI _ _ _ _ E3).
Qed.
Lemma destroy_entry_keeps w entry w' : destroy_entry w entry = Some w' -> I w -> I w'.
Proof.
  intros H0 Hw. destruct entry; cbn [destroy_entry] in H0;
    try (by injection H0 as <-); try (by eapply free_buffer_keeps); try (by eapply fail_then_wake_keeps);
    try (by eapply unblock_keeps).
  - destruct (free_buffer w _) as [w1|] eqn:E1; [|done]. apply free_buffer_keeps in E1; [|done].
    destruct (op_clear_shared_range w1 _ _ _) as [w2|] eqn:E2; [|done].
    eapply fail_then_wake_keeps; [exact H0|]. by apply (keep_clear I HI _ _ _ _ _ E2).
  - destruct (op_clear_shared_range w _ _ _) as [w2|] eqn:E2; [|done].
    eapply fail_then_wake_keeps; [exact H0|]. by apply (keep_clear I HI _ _ _ _ _ E2).
Qed.
Lemma destroy_entries_keeps q : forall w w', destroy_entries w q = Some w' -> I w -> I w'.
Proof.
  induction q as [|entry q IH]; intros w w' H0 Hw; cbn in H0; [by injection H0 as <-|].
  destruct (destroy_entry w entry) as [w1|] eqn:E; [|done]. eapply IH; [exact H0|]. by eapply destroy_entry_keeps.
Qed.
Lemma wake_server_threads_keeps fuel : forall s pid w w', wake_server_threads fuel s pid w = Some w' -> I w -> I w'.
Proof.
  induction fuel as [|fuel IH]; intros s pid w w' H0 Hw; cbn [wake_server_threads] in H0; [done|].
  destruct (take_available_thread s) as [[s1 [tid|]]|]; [|by injection H0 as <-|done].
  destruct (op_set_thread_ready w pid tid) as [w1|] eqn:E1; [|done].
  destruct (op_set_thread_result w1 pid tid _) as [w2|] eqn:E2; [|done].
  eapply IH; [exact H0|]. apply (keep_result I HI _ _ _ _ _ E2). by apply (keep_ready I HI _ _ _ _ E1).
Qed.
Lemma destroy_keeps s pid addr w w' : destroy s pid addr w = Some w' -> I w -> I w'.
Proof.
  unfold destroy. intros H0 Hw. destruct (destroy_entries w (queue s)) as [w1|] eqn:E1; [|done].
  destruct (wake_server_threads 33 s pid w1) as [w2|] eqn:E2; [|done].
  destruct (op_unmap_range w2 addr _) as [[w3 [u|e]]|] eqn:E3; [|done..]. injection H0 as <-.
  apply (keep_unmap I HI _ _ _ _ _ E3). eapply wake_server_threads_keeps; [exact E2|]. by eapply destroy_entries_keeps.
Qed.
End DestroyKeeps.

(** ** The abstract queue *)

(** The generation a slot waits for, if its message is not delivered yet. *)
Definition generation (entry : QueuedMessage) : option Z :=
  match entry with
  | QBlockingScalarMessage _ _ idx _ _ | QScalarMessage _ idx _ _
  | QMemoryMessageSend _ idx _ _ _ _ | QMemoryMessageBlockingSend _ _ idx _ _ _ _ _
  | QMemoryMessageROLend _ _ idx _ _ _ _ _ | QMemoryMessageRWLend _ _ idx _ _ _ _ _
  | QMemoryMessageROLendTerminated idx _ _ _ _ | QMemoryMessageRWLendTerminated idx _ _ _ _
  | QMemoryMessageBlockingSendTerminated idx _ _ _ _ | QBlockingScalarTerminated idx _ _ =>
      Some idx
  | _ => None
  end.

(** The message an undelivered slot carries. *)
Definition body_of (entry : QueuedMessage) : option Message :=
  match entry with
  | QMemoryMessageROLend _ _ _ msg_id _ buf offset valid
  | QMemoryMessageROLendTerminated _ msg_id buf offset valid =>
      Some (Borrow (memory_body msg_id buf offset valid))
  | QMemoryMessageRWLend _ _ _ msg_id _ buf offset valid
  | QMemoryMessageRWLendTerminated _ msg_id buf offset valid =>
      Some (MutableBorrow (memory_body msg_id buf offset valid))
  | QMemoryMessageSend _ _ msg_id buf offset valid => Some (Move (memory_body msg_id buf offset valid))
  | QMemoryMessageBlockingSend _ _ _ msg_id _ buf offset valid
  | QMemoryMessageBlockingSendTerminated _ msg_id buf offset valid =>
      Some (BlockingMove (memory_body msg_id buf offset valid))
  | QBlockingScalarMessage _ _ _ msg_id args | QBlockingScalarTerminated _ msg_id args =>
      Some (BlockingScalar (scalar_body msg_id args))
  | QScalarMessage _ _ msg_id args => Some (Scalar (scalar_body msg_id args))
  | _ => None
  end.

(** The undelivered messages in order: for each generation from the head to the tail, the
    slot that carries it. *)
Definition has_generation (g : Z) (entry : QueuedMessage) : bool :=
  match generation entry with Some idx => idx =? g | None => false end.
Definition pending (s : Server) : list QueuedMessage :=
  omap (fun k => List.find (has_generation (u8 (head_generation s + Z.of_nat k))) (queue s))
       (seq 0 (Z.to_nat (u8 (tail_generation s - head_generation s)))).

(** Slots [ixs], in this order, are the undelivered ones, from generation [hg] on. *)
Definition queue_repr (q : list QueuedMessage) (hg : Z) (ixs : list nat) : Prop :=
  NoDup ixs
  /\ (forall k i, ixs !! k = Some i -> exists m, q !! i = Some m
                   /\ generation m = Some (u8 (hg + Z.of_nat k)))
  /\ (forall i m, q !! i = Some m -> is_Some (generation m) -> i ∈ ixs).

(** The shape of a server's state: between 1 and 255 slots (128 on the device), indices in
    range, an exact count of the empty slots. *)
Definition wf_shape (s : Server) : Prop :=
  (0 < length (queue s) < 256)%nat
  /\ (queue_head s < length (queue s))%nat /\ (queue_tail s < length (queue s))%nat
  /\ is_u8 (head_generation s)
  /\ empty_count s = countb is_empty_slot (queue s).

Definition wf_server (s : Server) : Prop :=
  wf_shape s
  /\ exists ixs, queue_repr (queue s) (head_generation s) ixs
       /\ tail_generation s = u8 (head_generation s + Z.of_nat (length ixs)).

(** ** Lemmas on the representation *)

Lemma u8_inj_near hg k1 k2 :
  0 <= k1 < 256 -> 0 <= k2 < 256 -> u8 (hg + k1) = u8 (hg + k2) -> k1 = k2.
Proof. unfold u8. intros. Z.div_mod_to_equations. lia. Qed.

Lemma u8_succ hg k : u8 (u8 (hg + 1) + k) = u8 (hg + (k + 1)).
Proof. unfold u8. rewrite Zplus_mod_idemp_l. f_equal. lia. Qed.

Lemma repr_lt q hg ixs : queue_repr q hg ixs -> Forall (fun i => i < length q)%nat ixs.
Proof.
  intros (_ & H & _). apply list.Forall_forall. intros i Hi.
  apply list_elem_of_lookup in Hi as [k Hk]. destruct (H _ _ Hk) as (m & Hm & _).
  by eapply lookup_lt_Some.
Qed.

Lemma NoDup_bounded (l : list nat) n : NoDup l -> Forall (fun i => i < n)%nat l -> (length l <= n)%nat.
Proof.
  intros Hnd Hlt. rewrite <-(length_seq n 0). apply submseteq_length, NoDup_submseteq; [done|].
  intros i Hi. apply elem_of_seq. pose proof (proj1 (list.Forall_forall _ _) Hlt i Hi). cbn in *. lia.
Qed.

Lemma repr_length q hg ixs : queue_repr q hg ixs -> (length ixs <= length q)%nat.
Proof. intros H. apply NoDup_bounded; [apply H|by eapply repr_lt]. Qed.

Lemma repr_notin q hg ixs i m :
  queue_repr q hg ixs -> q !! i = Some m -> generation m = None -> i ∉ ixs.
Proof.
  intros (_ & H & _) Hm Hg Hi. apply list_elem_of_lookup in Hi as [k Hk].
  destruct (H _ _ Hk) as (m' & Hm' & Hg'). congruence.
Qed.

(** Two undelivered slots of one generation are the same slot. *)
Lemma repr_generation_inj q hg ixs i j m m' g :
  (length q < 256)%nat -> queue_repr q hg ixs ->
  q !! i = Some m -> q !! j = Some m' -> generation m = Some g -> generation m' = Some g -> i = j.
Proof.
  intros Hn H Hm Hm' Hg Hg'. pose proof (repr_length _ _ _ H) as Hlen. destruct H as (_ & H & Hin).
  assert (i ∈ ixs) as [ki Hki]%list_elem_of_lookup by (eapply Hin; eauto).
  assert (j ∈ ixs) as [kj Hkj]%list_elem_of_lookup by (eapply Hin; eauto).
  pose proof (lookup_lt_Some _ _ _ Hki). pose proof (lookup_lt_Some _ _ _ Hkj).
  destruct (H _ _ Hki) as (m1 & ? & ?), (H _ _ Hkj) as (m2 & ? & ?). simplify_eq.
  assert (Z.of_nat ki = Z.of_nat kj) by (apply (u8_inj_near hg); [lia|lia|congruence]).
  replace kj with ki in * by lia. congruence.
Qed.

Lemma repr_insert q hg ixs i m m' :
  q !! i = Some m -> generation m = None -> generation m' = None ->
  queue_repr q hg ixs -> queue_repr (<[i := m']> q) hg ixs.
Proof.
  intros Hm Hg Hg' H. pose proof (repr_notin _ _ _ _ _ H Hm Hg) as Hni.
  destruct H as (Hnd & H & Hin). split; [done|]. split.
  - intros k j Hk. destruct (H _ _ Hk) as (mj & ? & ?). exists mj.
    assert (i <> j) by (intros ->; apply Hni; by eapply list_elem_of_lookup_2).
    by rewrite list_lookup_insert_ne.
  - intros j mj Hj Hgj. destruct (decide (i = j)) as [->|].
    + rewrite list_lookup_insert_eq in Hj by (by eapply lookup_lt_Some).
      simplify_eq. rewrite Hg' in Hgj. by destruct Hgj.
    + rewrite list_lookup_insert_ne in Hj by done. by eapply Hin.
Qed.

Lemma repr_push q hg ixs i m m' :
  q !! i = Some m -> generation m = None ->
  generation m' = Some (u8 (hg + Z.of_nat (length ixs))) ->
  queue_repr q hg ixs -> queue_repr (<[i := m']> q) hg (ixs ++ [i]).
Proof.
  intros Hm Hg Hg' H. pose proof (repr_notin _ _ _ _ _ H Hm Hg) as Hni.
  pose proof (lookup_lt_Some _ _ _ Hm).
  destruct H as (Hnd & H & Hin). split; [|split].
  - apply list.NoDup_app. split; [done|]. split; [|apply NoDup_singleton].
    intros j Hj ->%list_elem_of_singleton. done.
  - intros k j Hk. apply lookup_app_Some in Hk as [Hk|[Hle Hk]].
    + destruct (H _ _ Hk) as (mj & ? & ?). exists mj.
      assert (i <> j) by (intros ->; apply Hni; by eapply list_elem_of_lookup_2).
      by rewrite list_lookup_insert_ne.
    + apply list_lookup_singleton_Some in Hk as [? <-]. exists m'.
      rewrite list_lookup_insert_eq by done. split; [done|]. rewrite Hg'. repeat f_equal. lia.
  - intros j mj Hj Hgj. apply elem_of_app. destruct (decide (i = j)) as [->|].
    + right. by apply list_elem_of_singleton.
    + left. rewrite list_lookup_insert_ne in Hj by done. by eapply Hin.
Qed.

Lemma repr_pop q hg ixs i m' :
  generation m' = None ->
  queue_repr q hg (i :: ixs) -> queue_repr (<[i := m']> q) (u8 (hg + 1)) ixs.
Proof.
  intros Hg' (Hnd & H & Hin). apply list.NoDup_cons in Hnd as [Hni Hnd].
  split; [done|]. split.
  - intros k j Hk. destruct (H (S k) j Hk) as (mj & ? & Hg). exists mj.
    assert (i <> j) by (intros ->; apply Hni; by eapply list_elem_of_lookup_2).
    rewrite list_lookup_insert_ne, u8_succ by done. split; [done|]. rewrite Hg. repeat f_equal. lia.
  - intros j mj Hj Hgj. destruct (decide (i = j)) as [->|].
    + apply list_lookup_insert_Some in Hj as [(_ & <- & _)|[? _]]; [|done].
      rewrite Hg' in Hgj. by destruct Hgj.
    + rewrite list_lookup_insert_ne in Hj by done.
      specialize (Hin _ _ Hj Hgj). by apply elem_of_cons in Hin as [->|].
Qed.

Lemma repr_map (f : QueuedMessage -> QueuedMessage) q hg ixs :
  (forall m, generation (f m) = generation m) ->
  queue_repr q hg ixs -> queue_repr (map f q) hg ixs.
Proof.
  intros Hf (Hnd & H & Hin). split; [done|]. split.
  - intros k i Hk. destruct (H _ _ Hk) as (m & Hm & Hg). exists (f m).
    rewrite list_lookup_fmap, Hm. split; [done|]. by rewrite Hf.
  - intros i m Hm Hg. rewrite list_lookup_fmap in Hm. apply fmap_Some in Hm as (m0 & Hm & ->).
    rewrite Hf in Hg. by eapply Hin.
Qed.

Lemma has_generation_iff g m : has_generation g m = true <-> generation m = Some g.
Proof.
  unfold has_generation. destruct (generation m) as [idx|]; [|done].
  rewrite Z.eqb_eq. split; congruence.
Qed.

Lemma find_generation q hg ixs k i m :
  (length q < 256)%nat -> queue_repr q hg ixs -> ixs !! k = Some i -> q !! i = Some m ->
  List.find (has_generation (u8 (hg + Z.of_nat k))) q = Some m.
Proof.
  intros Hn H Hk Hm.
  assert (generation m = Some (u8 (hg + Z.of_nat k))) as Hg.
  { destruct H as (_ & H & _). destruct (H _ _ Hk) as (m' & ? & ?). congruence. }
  destruct (List.find _ q) as [m'|] eqn:E.
  - pose proof (List.find_some _ _ E) as [Hin Hg'%has_generation_iff].
    apply list_elem_of_In, list_elem_of_lookup in Hin as [j Hj].
    assert (j = i) as -> by (eapply (repr_generation_inj q); eauto). congruence.
  - exfalso. pose proof (List.find_none _ _ E m) as Hno.
    rewrite (proj2 (has_generation_iff _ m) Hg) in Hno. discriminate Hno.
    apply list_elem_of_In. by eapply list_elem_of_lookup_2.
Qed.

(** The executable view [pending] reads the slots of the representation in order. *)
Lemma pending_repr s ixs :
  (length (queue s) < 256)%nat -> queue_repr (queue s) (head_generation s) ixs ->
  tail_generation s = u8 (head_generation s + Z.of_nat (length ixs)) ->
  pending s = omap (fun i => queue s !! i) ixs.
Proof.
  intros Hn H Ht. unfold pending. rewrite Ht.
  assert (length ixs < 256)%nat by (pose proof (repr_length _ _ _ H); lia).
  replace (u8 (u8 _ - _)) with (Z.of_nat (length ixs)).
  2: { unfold u8. rewrite Zminus_mod_idemp_l. symmetry.
       replace (_ - _) with (Z.of_nat (length ixs)) by lia. apply Z.mod_small. lia. }
  rewrite Nat2Z.id.
  assert (forall k i, ixs !! k = Some i ->
    List.find (has_generation (u8 (head_generation s + Z.of_nat k))) (queue s) = queue s !! i) as Hf.
  { intros k i Hk. destruct (queue s !! i) as [m|] eqn:Hm; [by eapply find_generation|].
    destruct H as (_ & H & _). destruct (H _ _ Hk) as (m' & ? & _). congruence. }
  clear - Hf. remember (fun k => List.find _ _) as f eqn:Ef.
  assert (forall k i, ixs !! k = Some i -> f k = queue s !! i) as Hf' by (intros; subst; by apply Hf).
  clear Hf Ef. cut (forall b, (forall k i, ixs !! k = Some i -> f (b + k)%nat = queue s !! i) ->
    omap f (seq b (length ixs)) = omap (fun i => queue s !! i) ixs); [intros G; by apply (G 0%nat)|].
  clear Hf'. induction ixs as [|i ixs IH]; intros b Hb; [done|]. cbn.
  rewrite <-(Nat.add_0_r b) at 1. rewrite (Hb 0%nat i eq_refl).
  rewrite (IH (S b)); [done|]. intros k j Hk. rewrite <-(Hb (S k) j Hk). f_equal. lia.
Qed.

Lemma omap_insert_notin (q : list QueuedMessage) (ixs : list nat) i m :
  i ∉ ixs -> omap (fun j => <[i := m]> q !! j) ixs = omap (fun j => q !! j) ixs.
Proof.
  induction ixs as [|j ixs IH]; [done|]. intros Hni. apply not_elem_of_cons in Hni as [? ?].
  cbn. rewrite list_lookup_insert_ne by done. by rewrite IH.
Qed.

(** [deliver] hands out a slot exactly when its generation is the head's. *)
Lemma deliver_Some sidx i hg m :
  is_Some (deliver sidx i hg m) <-> generation m = Some hg.
Proof.
  destruct m; cbn; try (split; [by intros []|congruence]).
  all: destruct (Z.eqb_spec idx hg) as [->|]; split; intros; simplify_eq; eauto.
  all: match goal with H : is_Some None |- _ => by destruct H end.
Qed.

Lemma deliver_result sidx i hg m env m' :
  deliver sidx i hg m = Some (env, m') ->
  body_of m = Some (env_body env) /\ generation m' = None.
Proof. destruct m; cbn; intros; repeat case_match; by simplify_eq. Qed.

(** *** Walking round the slots *)

Definition dist (n i j : nat) : nat := if decide (i <= j)%nat then (j - i)%nat else (n - i + j)%nat.

Lemma next_slot_lt n i : (0 < n)%nat -> (next_slot n i < n)%nat.
Proof. unfold next_slot. case_decide; lia. Qed.

Lemma dist_next n i j :
  (i < n)%nat -> (j < n)%nat -> i <> j -> dist n i j = S (dist n (next_slot n i) j).
Proof. intros. unfold dist, next_slot. repeat case_decide; lia. Qed.

Lemma take_next_loop_finds s sidx i0 fuel j m env m' :
  (0 < length (queue s))%nat ->
  queue s !! i0 = Some m -> deliver sidx i0 (head_generation s) m = Some (env, m') ->
  (forall i mi, queue s !! i = Some mi -> generation mi = Some (head_generation s) -> i = i0) ->
  (j < length (queue s))%nat -> (queue_tail s < length (queue s))%nat ->
  (dist (length (queue s)) j i0 <= dist (length (queue s)) (queue_tail s) i0)%nat ->
  (dist (length (queue s)) j i0 < fuel)%nat ->
  take_next_loop fuel s sidx j = Some (after_delivery s i0 m', Some env).
Proof.
  intros H0 Hm Hd Huniq. revert j. induction fuel as [|fuel IH]; intros j Hj Ht Hle Hfuel; [lia|].
  cbn [take_next_loop]. pose proof (lookup_lt_Some _ _ _ Hm).
  destruct (lookup_lt_is_Some_2 _ _ Hj) as [mj Hmj]. rewrite Hmj.
  destruct (decide (j = i0)) as [->|Hne].
  - replace mj with m by congruence. by rewrite Hd.
  - destruct (deliver sidx j (head_generation s) mj) as [[env' mj']|] eqn:Ed.
    + exfalso. apply Hne. apply (Huniq j mj Hmj). apply (deliver_Some sidx j). by rewrite Ed.
    + pose proof (dist_next (length (queue s)) j i0 Hj ltac:(lia) Hne).
      rewrite decide_False.
      * apply IH; [by apply next_slot_lt|done|lia|lia].
      * intros E. rewrite E in *. lia.
Qed.

(** ** First in, first out *)

Lemma wf_server_pending s :
  wf_server s -> exists ixs, queue_repr (queue s) (head_generation s) ixs
    /\ tail_generation s = u8 (head_generation s + Z.of_nat (length ixs))
    /\ pending s = omap (fun i => queue s !! i) ixs.
Proof.
  intros [Hs (ixs & H & Ht)]. exists ixs. split; [done|]. split; [done|].
  apply pending_repr; [apply Hs|done|done].
Qed.

(** The generations agree exactly when nothing is pending. *)
Lemma generations_eq s ixs :
  wf_shape s -> queue_repr (queue s) (head_generation s) ixs ->
  tail_generation s = u8 (head_generation s + Z.of_nat (length ixs)) ->
  (tail_generation s =? head_generation s) = true <-> ixs = [].
Proof.
  intros (Hn & _ & _ & Hu & _) H Ht. rewrite Z.eqb_eq, Ht. pose proof (repr_length _ _ _ H) as Hlen.
  split.
  - intros E. destruct ixs as [|i ixs]; [done|exfalso].
    rewrite <-(u8_id (head_generation s)), <-(Z.add_0_r (head_generation s)) in E at 2 by done.
    apply u8_inj_near in E; cbn [length] in *; lia.
  - intros ->. cbn. rewrite Z.add_0_r. by apply u8_id.
Qed.

Lemma after_delivery_fields s i m' :
  queue (after_delivery s i m') = <[i := m']> (queue s)
  /\ head_generation (after_delivery s i m') = u8 (head_generation s + 1)
  /\ tail_generation (after_delivery s i m') = tail_generation s
  /\ queue_head (after_delivery s i m') = queue_head s
  /\ queue_tail (after_delivery s i m') = next_slot (length (queue s)) i
  /\ empty_count (after_delivery s i m')
     = empty_count s + (if is_empty_slot m' then 1 else 0).
Proof. unfold after_delivery. destruct m'; cbn; split_and!; auto; lia. Qed.

Lemma generation_not_empty m g : generation m = Some g -> is_empty_slot m = false.
Proof. by destruct m. Qed.
Lemma empty_no_generation m : is_empty_slot m = true -> m = QEmpty /\ generation m = None.
Proof. by destruct m. Qed.

Lemma take_next_pop s sidx i ixs :
  wf_shape s -> queue_repr (queue s) (head_generation s) (i :: ixs) ->
  tail_generation s = u8 (head_generation s + Z.of_nat (length (i :: ixs))) ->
  exists m env m', queue s !! i = Some m /\ generation m = Some (head_generation s)
    /\ deliver sidx i (head_generation s) m = Some (env, m')
    /\ take_next_message s sidx = Some (after_delivery s i m', Some env).
Proof.
  intros Hs H Ht. pose proof (generations_eq s _ Hs H Ht) as Hg.
  destruct Hs as (Hn & Hh & Htl & Hu & _).
  pose proof H as (_ & Hk & _). destruct (Hk 0%nat i eq_refl) as (m & Hm & Hgen).
  rewrite Z.add_0_r, u8_id in Hgen by done.
  destruct (proj2 (deliver_Some sidx i (head_generation s) m) Hgen) as [[env m'] Hd].
  exists m, env, m'. split; [done|]. split; [done|]. split; [done|].
  unfold take_next_message. destruct (_ =? _); [discriminate (proj1 Hg eq_refl)|].
  eapply take_next_loop_finds; eauto; [lia| |].
  - intros j mj Hj Hgj. eapply (repr_generation_inj (queue s)); eauto. lia.
  - unfold dist. pose proof (lookup_lt_Some _ _ _ Hm). case_decide; lia.
Qed.

Lemma take_next_message_spec s sidx :
  wf_server s ->
  exists s' r, take_next_message s sidx = Some (s', r) /\ wf_server s' /\
  match pending s with
  | [] => s' = s /\ r = None
  | m :: ms =>
      pending s' = ms
      /\ exists i env m', queue s !! i = Some m
         /\ deliver sidx i (head_generation s) m = Some (env, m') /\ r = Some env
         /\ body_of m = Some (env_body env) /\ queue s' = <[i := m']> (queue s)
  end.
Proof.
  intros Hwf. destruct (wf_server_pending s Hwf) as (ixs & H & Ht & Hp). rewrite Hp.
  destruct Hwf as [Hs _]. destruct ixs as [|i ixs].
  - exists s, None. unfold take_next_message.
    rewrite (proj2 (generations_eq s [] Hs H Ht) eq_refl). cbn. split; [done|]. split; [|done].
    split; [done|]. by exists [].
  - destruct (take_next_pop s sidx i ixs Hs H Ht) as (m & env & m' & Hm & Hgen & Hd & Hr).
    destruct (deliver_result _ _ _ _ _ _ Hd) as [Hb Hg'].
    exists (after_delivery s i m'), (Some env).
    pose proof (after_delivery_fields s i m') as (Eq & Eh & Et & Eqh & Eqt & Ec).
    assert (queue_repr (queue (after_delivery s i m')) (head_generation (after_delivery s i m')) ixs)
      as H' by (rewrite Eq, Eh; by apply repr_pop).
    assert (tail_generation (after_delivery s i m')
            = u8 (head_generation (after_delivery s i m') + Z.of_nat (length ixs))) as Ht'.
    { rewrite Et, Eh, Ht, u8_succ. cbn [length]. f_equal. lia. }
    assert (wf_shape (after_delivery s i m')) as Hs'.
    { destruct Hs as (Hn & Hh & Htl & Hu & Hc). unfold wf_shape.
      rewrite Eq, Eqh, Eqt, Eh, Ec, length_insert. split_and!; try lia.
      - apply next_slot_lt. lia.
      - apply u8_range.
      - rewrite (countb_insert _ _ _ _ _ Hm), (generation_not_empty m _ Hgen). lia. }
    split; [done|]. split; [split; [done|by exists ixs]|]. cbn. rewrite Hm.
    split.
    + rewrite (pending_repr _ ixs); [|apply Hs'|done|done]. rewrite Eq.
      apply omap_insert_notin. destruct H as (Hnd & _). by apply list.NoDup_cons in Hnd as [? _].
    + exists i, env, m'. split_and!; done.
Qed.

(** ** Finding and filling a slot *)

Lemma slot_order_elem s i :
  (queue_head s < length (queue s))%nat -> (i < length (queue s))%nat -> In i (slot_order s).
Proof.
  intros Hh Hi. unfold slot_order. rewrite in_app_iff, !in_seq. lia.
Qed.

Lemma find_empty_slot_spec s :
  wf_shape s ->
  (0 < empty_count s /\ exists i, find_empty_slot s
      = (set_queue_head s (next_slot (length (queue s)) i), Ok i) /\ queue s !! i = Some QEmpty)
  \/ (empty_count s = 0 /\ find_empty_slot s = (s, Err ServerQueueFull)).
Proof.
  intros (Hn & Hh & Ht & _ & Hc). unfold find_empty_slot.
  destruct (List.find _ _) as [i|] eqn:E.
  - left. apply List.find_some in E as [_ E]. unfold slot_is_empty in E.
    destruct (queue s !! i) as [m|] eqn:Hm; [|done]. apply empty_no_generation in E as E'.
    destruct E' as [-> _]. split; [|by exists i].
    rewrite Hc. apply countb_pos. by exists i, QEmpty.
  - right. split; [|done]. pose proof (countb_nonneg is_empty_slot (queue s)).
    destruct (Z.eq_dec (countb is_empty_slot (queue s)) 0); [lia|exfalso].
    destruct (proj1 (countb_pos is_empty_slot (queue s)) ltac:(lia)) as (i & m & Hm & He).
    pose proof (List.find_none _ _ E i (slot_order_elem s i Hh (lookup_lt_Some _ _ _ Hm))) as Hno.
    unfold slot_is_empty in Hno. rewrite Hm in Hno. congruence.
Qed.

Lemma queued_entry_gen pid tid idx msg addr m :
  queued_entry pid tid idx msg addr = Ok m -> generation m = Some idx.
Proof. unfold queued_entry. intros. repeat case_match; by simplify_eq. Qed.

Lemma response_entry_gen pid tid msg addr m :
  response_entry pid tid msg addr = Ok m -> generation m = None /\ is_empty_slot m = false.
Proof. unfold response_entry. intros. repeat case_match; by simplify_eq. Qed.

Lemma wf_shape_fill s i m h :
  wf_shape s -> queue s !! i = Some QEmpty -> is_empty_slot m = false -> (h < length (queue s))%nat ->
  forall g, wf_shape (mkServer (server_sid s) (server_pid s) h (queue_tail s) (head_generation s) g
    (usize (empty_count s - 1)) (<[i := m]> (queue s)) (ready_threads s) (default_permissions s)
    (event_handlers s)).
Proof.
  intros (Hn & Hh & Ht & Hu & Hc) Hi Hm Hlt g. unfold wf_shape. cbn. rewrite length_insert.
  split_and!; try done; try lia. rewrite (countb_insert _ _ _ _ _ Hi), Hm, <-Hc. cbn.
  assert (0 < empty_count s) by (rewrite Hc; apply countb_pos; by exists i, QEmpty).
  pose proof (countb_le_length is_empty_slot (queue s)).
  rewrite usize_id; [lia|]. unfold_ints. lia.
Qed.

Lemma wf_shape_head s h :
  wf_shape s -> (h < length (queue s))%nat -> wf_shape (set_queue_head s h).
Proof. by intros (? & ? & ? & ? & ?) ?. Qed.

Lemma pending_set_head s h : pending (set_queue_head s h) = pending s.
Proof. done. Qed.

Lemma queue_message_spec s pid tid msg addr :
  wf_server s ->
  exists s' r, queue_message s pid tid msg addr = Some (s', r) /\ wf_server s' /\
  match r with
  | Ok i => exists m, queued_entry pid tid (tail_generation s) msg addr = Ok m
      /\ queue s !! i = Some QEmpty /\ queue s' = <[i := m]> (queue s)
      /\ pending s' = pending s ++ [m]
  | Err e => queue s' = queue s /\ pending s' = pending s
      /\ ((is_queue_full s = true /\ e = ServerQueueFull)
          \/ (is_queue_full s = false
              /\ queued_entry pid tid (tail_generation s) msg addr = Err e))
  end.
Proof.
  intros Hwf. destruct (wf_server_pending s Hwf) as (ixs & H & Ht & Hp).
  destruct Hwf as [Hs _]. unfold queue_message, is_queue_full.
  destruct (find_empty_slot_spec s Hs) as [(Hc & i & -> & Hi)|(Hc & ->)].
  2: { exists s, (Err ServerQueueFull). split; [done|]. split; [by split; [|exists ixs]|].
       split_and!; [done..|]. left. split; [lia|done]. }
  cbn. pose proof Hs as (Hn & _). pose proof (lookup_lt_Some _ _ _ Hi).
  pose proof (next_slot_lt (length (queue s)) i ltac:(lia)) as Hnext.
  destruct (queued_entry _ _ _ _ _) as [m|e] eqn:Em.
  2: { eexists _, (Err e). split; [done|].
       split; [split; [by apply wf_shape_head|by exists ixs]|].
       split_and!; [done..|]. right. split; [lia|done]. }
  pose proof (queued_entry_gen _ _ _ _ _ _ Em) as Hgen. rewrite Ht in Hgen.
  set (s' := set_tail_generation _ _).
  assert (queue_repr (queue s') (head_generation s') (ixs ++ [i])) as H'
    by (by eapply repr_push).
  assert (tail_generation s' = u8 (head_generation s' + Z.of_nat (length (ixs ++ [i])))) as Ht'.
  { cbn. rewrite Ht, length_app. unfold u8. rewrite Zplus_mod_idemp_l. f_equal. cbn. lia. }
  assert (wf_shape s') as Hs' by (exact (wf_shape_fill s i m _ Hs Hi (generation_not_empty _ _ Hgen) Hnext _)).
  pose proof (generations_eq s' _ Hs' H' Ht') as Hne.
  change (u8 (tail_generation s + 1)) with (tail_generation s').
  change (head_generation s) with (head_generation s').
  destruct (_ =? _); [by destruct ixs; discriminate (proj1 Hne eq_refl)|].
  exists s', (Ok i). split; [done|]. split; [split; [done|by exists (ixs ++ [i])]|].
  exists m. split_and!; [done..|]. rewrite (pending_repr s' (ixs ++ [i])) by (done || apply Hs').
  rewrite omap_app. cbn. rewrite list_lookup_insert_eq by done. f_equal.
  rewrite Hp. apply omap_insert_notin. exact (repr_notin _ _ _ _ _ H Hi eq_refl).
Qed.

(** [queue_response] fills an empty slot with the answer awaited; the pending messages are
    untouched. *)
Lemma queue_response_spec s pid tid msg addr :
  wf_server s ->
  let '(s', r) := queue_response s pid tid msg addr in
  wf_server s' /\ pending s' = pending s /\
  match r with
  | Ok i => exists m, response_entry pid tid msg addr = Ok m
      /\ queue s !! i = Some QEmpty /\ queue s' = <[i := m]> (queue s)
  | Err e => queue s' = queue s
      /\ ((is_queue_full s = true /\ e = ServerQueueFull)
          \/ (is_queue_full s = false /\ response_entry pid tid msg addr = Err e))
  end.
Proof.
  intros Hwf. destruct (wf_server_pending s Hwf) as (ixs & H & Ht & Hp).
  destruct Hwf as [Hs _]. unfold queue_response, is_queue_full.
  destruct (find_empty_slot_spec s Hs) as [(Hc & i & -> & Hi)|(Hc & ->)].
  2: { split; [by split; [|exists ixs]|]. split_and!; [done..|]. left. split; [lia|done]. }
  pose proof Hs as (Hn & _). pose proof (lookup_lt_Some _ _ _ Hi).
  pose proof (next_slot_lt (length (queue s)) i ltac:(lia)) as Hnext.
  destruct (response_entry _ _ _ _) as [m|e] eqn:Em.
  2: { split; [split; [by apply wf_shape_head|by exists ixs]|].
       split_and!; [done..|]. right. split; [lia|done]. }
  destruct (response_entry_gen _ _ _ _ _ Em) as [Hgen Hne]. set (s' := set_empty_count _ _).
  assert (queue_repr (queue s') (head_generation s') ixs) as H' by (by eapply repr_insert).
  assert (wf_shape s') as Hs' by (exact (wf_shape_fill s i m _ Hs Hi Hne Hnext _)).
  split; [split; [done|by exists ixs]|]. split.
  - rewrite (pending_repr s' ixs) by (done || apply Hs'). rewrite Hp.
    apply omap_insert_notin. exact (repr_notin _ _ _ _ _ H Hi eq_refl).
  - by exists m.
Qed.

(** ** Taking an answer *)

(** A slot that waits for the server's answer. *)
Definition is_waiting (entry : QueuedMessage) : bool :=
  match entry with
  | QWaitingReturnMemory _ _ _ _ | QWaitingReturnMoved _ _ _ _ | QWaitingReturnMovedTerminated
  | QWaitingForget _ | QWaitingReturnScalar _ _ | QWaitingReturnScalarTerminated => true
  | _ => false
  end.

Lemma take_waiting_None m buf : take_waiting m buf = Ok None <-> is_waiting m = false.
Proof. destruct m; cbn; try done; repeat case_match; naive_solver. Qed.

Lemma is_waiting_gen m : is_waiting m = true -> generation m = None /\ is_empty_slot m = false.
Proof. by destruct m. Qed.

Lemma take_waiting_message_spec s i buf :
  wf_server s ->
  let '(s', r) := take_waiting_message s i buf in
  wf_server s' /\ pending s' = pending s /\
  match queue s !! i, r with
  | None, _ => s' = s /\ r = Err BadAddress
  | Some m, Ok WNone => s' = s /\ is_waiting m = false
  | Some m, Ok w => is_waiting m = true /\ waiting_mismatch m buf = false
      /\ take_waiting m buf = Ok (Some w) /\ queue s' = <[i := QEmpty]> (queue s)
      /\ (forall buf', take_waiting_message s' i buf' = (s', Ok WNone))
  | Some m, Err e => s' = s /\ e = BadAddress
      /\ (waiting_mismatch m buf = true \/ (m = QWaitingReturnMovedTerminated /\ buf = None))
  end.
Proof.
  intros Hwf. destruct (wf_server_pending s Hwf) as (ixs & H & Ht & Hp).
  destruct Hwf as [Hs Hex]. unfold take_waiting_message at 1.
  destruct (queue s !! i) as [m|] eqn:Hm; [|by split; [|]].
  destruct (waiting_mismatch m buf) eqn:Emis.
  { split; [done|]. split; [done|]. auto. }
  destruct (take_waiting m buf) as [[w|]|e] eqn:Ew.
  2: { split; [done|]. split; [done|]. split; [done|]. by apply take_waiting_None in Ew. }
  2: { split; [done|]. split; [done|]. split; [done|].
       destruct m; cbn in Ew; repeat case_match; simplify_eq. auto. }
  assert (is_waiting m = true) as Hw.
  { destruct (is_waiting m) eqn:E; [done|]. apply (take_waiting_None m buf) in E. congruence. }
  destruct (is_waiting_gen _ Hw) as [Hgen Hne]. set (s' := set_queue_tail _ _).
  pose proof (lookup_lt_Some _ _ _ Hm).
  assert (queue_repr (queue s') (head_generation s') ixs) as H' by (by eapply repr_insert).
  assert (wf_shape s') as Hs'.
  { destruct Hs as (Hn & Hh & Htl & Hu & Hc). unfold wf_shape. cbn. rewrite length_insert.
    split_and!; try done; try lia; [apply next_slot_lt; lia|].
    rewrite (countb_insert _ _ _ _ _ Hm), Hne. cbn. lia. }
  split; [split; [done|by exists ixs]|]. split.
  { rewrite (pending_repr s' ixs) by (done || apply Hs'). rewrite Hp.
    apply omap_insert_notin. exact (repr_notin _ _ _ _ _ H Hm Hgen). }
  assert (w <> WNone) as HwN by (by destruct m; cbn in Ew; repeat case_match; simplify_eq).
  assert (forall buf', take_waiting_message s' i buf' = (s', Ok WNone)) as Hagain.
  { intros buf'. unfold take_waiting_message. cbn [queue s' set_queue_tail set_empty_count set_queue].
    rewrite list_lookup_insert_eq by done. by destruct buf'. }
  assert (queue s' = <[i := QEmpty]> (queue s)) as Hq by done.
  clearbody s'. destruct w; try done; split_and!; done.
Qed.

(** ** A terminated client *)

(** The client thread that is blocked on a slot. *)
Definition blocked_sender (entry : QueuedMessage) : option (Z * Z) :=
  match entry with
  | QBlockingScalarMessage pid tid _ _ _ | QMemoryMessageBlockingSend pid tid _ _ _ _ _ _
  | QMemoryMessageROLend pid tid _ _ _ _ _ _ | QMemoryMessageRWLend pid tid _ _ _ _ _ _
  | QWaitingReturnMemory pid tid _ _ | QWaitingReturnMoved pid tid _ _
  | QWaitingReturnScalar pid tid => Some (pid, tid)
  | _ => None
  end.

(** The buffer the server was handed with a message it answers by returning memory. *)
Definition handed_out (entry : QueuedMessage) : option ServerBuffer :=
  match entry with
  | QWaitingReturnMemory _ _ buf _ | QWaitingForget buf => Some buf
  | _ => None
  end.
(** The client an answer goes to, and the address the memory returns to there. *)
Definition answer_client (w : WaitingMessage) : option (Z * Z) :=
  match w with
  | WBorrowedMemory pid tid _ | WMovedMemory pid tid _ _ | WScalarMessage pid tid => Some (pid, tid)
  | _ => None
  end.
Definition answer_addr (w : WaitingMessage) : option Z :=
  match w with WBorrowedMemory _ _ addr | WMovedMemory _ _ addr _ => Some addr | _ => None end.
Definition client_buffer_addr (entry : QueuedMessage) : option Z :=
  match entry with
  | QWaitingReturnMemory _ _ _ addr | QWaitingReturnMoved _ _ addr _ => Some addr
  | _ => None
  end.
(** An answer matches the slot it was taken from: it goes to the client blocked on the slot, at
    the address the client gave, a buffer of a terminated client is forgotten whole, and a
    buffer given back is the one handed out. *)
Definition answers (m : QueuedMessage) (buf : option MemoryRange) (w : WaitingMessage) : Prop :=
  answer_client w = blocked_sender m /\ answer_addr w = client_buffer_addr m
  /\ (forall b r, handed_out m = Some b -> buf = Some r -> r = ServerBuffer_range b)
  /\ (forall r, w = WForgetMemory r ->
        (ServerBuffer_range <$> handed_out m) = Some r \/ (handed_out m = None /\ buf = Some r)).
(** The answers that are refused: another buffer than the one handed out, or none where the
    client of a [BlockingMove] has gone. *)
Definition refused_answer (m : QueuedMessage) (buf : option MemoryRange) : Prop :=
  (exists b r, handed_out m = Some b /\ buf = Some r /\ r <> ServerBuffer_range b)
  \/ (m = QWaitingReturnMovedTerminated /\ buf = None).

Lemma waiting_mismatch_iff m buf :
  waiting_mismatch m buf = true
  <-> exists b r, handed_out m = Some b /\ buf = Some r /\ r <> ServerBuffer_range b.
Proof.
  assert (forall (b : ServerBuffer) (r : MemoryRange),
    negb (sb_addr b =? range_addr r) || negb (sb_size b =? range_size r) = true
    <-> r <> ServerBuffer_range b) as Hd.
  { intros [a n] [a' n']. unfold ServerBuffer_range; cbn. split.
    - intros H [= -> ->]. lia.
    - intros H. destruct (decide (a' = a)), (decide (n' = n)); [congruence|lia..]. }
  unfold waiting_mismatch. destruct buf as [r|], m; cbn; try naive_solver;
    rewrite Hd; naive_solver.
Qed.

Lemma take_waiting_answers m buf w :
  waiting_mismatch m buf = false -> take_waiting m buf = Ok (Some w) -> answers m buf w.
Proof.
  intros Hmis Ht. assert (forall b r, handed_out m = Some b -> buf = Some r -> r = ServerBuffer_range b) as Hb.
  { intros b r H1 H2. destruct (decide (r = ServerBuffer_range b)) as [|Hne]; [done|].
    assert (waiting_mismatch m buf = true) by (apply waiting_mismatch_iff; eauto). congruence. }
  destruct m; cbn in Ht; repeat case_match; simplify_eq; unfold answers; cbn in *;
    split_and!; try done; by eauto || naive_solver.
Qed.

Lemma discard_entry_spec pid m :
  generation (discard_entry pid m) = generation m
  /\ body_of (discard_entry pid m) = body_of m
  /\ is_empty_slot (discard_entry pid m) = is_empty_slot m
  /\ is_waiting (discard_entry pid m) = is_waiting m
  /\ blocked_sender (discard_entry pid m)
     = match blocked_sender m with
       | Some (p, t) => if p =? pid then None else Some (p, t)
       | None => None
       end.
Proof. destruct m; cbn; try done; by destruct (_ =? pid). Qed.

Lemma countb_map_eq {A} (p : A -> bool) (f : A -> A) l :
  (forall x, p (f x) = p x) -> countb p (map f l) = countb p l.
Proof. intros Hf. induction l as [|x l IH]; [done|]. cbn. by rewrite !countb_cons, Hf, IH. Qed.

Lemma discard_repr s pid ixs :
  wf_shape s -> queue_repr (queue s) (head_generation s) ixs ->
  wf_shape (discard_messages_for_pid s pid)
  /\ queue_repr (queue (discard_messages_for_pid s pid)) (head_generation s) ixs.
Proof.
  intros (Hn & Hh & Ht & Hu & Hc) H. split.
  - unfold wf_shape. cbn. rewrite length_map. split_and!; try done; try lia.
    rewrite Hc. symmetry. apply countb_map_eq. intros m. apply discard_entry_spec.
  - apply repr_map; [|done]. intros m. apply discard_entry_spec.
Qed.

Lemma discard_messages_spec s pid :
  wf_server s ->
  wf_server (discard_messages_for_pid s pid)
  /\ pending (discard_messages_for_pid s pid) = map (discard_entry pid) (pending s)
  /\ omap body_of (pending (discard_messages_for_pid s pid)) = omap body_of (pending s)
  /\ (forall i m p t, queue (discard_messages_for_pid s pid) !! i = Some m ->
        blocked_sender m = Some (p, t) -> p <> pid /\ queue s !! i = Some m).
Proof.
  intros Hwf. destruct (wf_server_pending s Hwf) as (ixs & H & Ht & Hp).
  destruct Hwf as [Hs Hex]. destruct (discard_repr s pid ixs Hs H) as [Hs' H'].
  assert (pending (discard_messages_for_pid s pid) = map (discard_entry pid) (pending s)) as Ep.
  { rewrite (pending_repr _ ixs) by (done || apply Hs'). rewrite Hp. clear. cbn.
    induction ixs as [|i ixs IH]; [done|]. cbn. rewrite list_lookup_fmap.
    destruct (queue s !! i); cbn; by rewrite IH. }
  split; [split; [done|by exists ixs]|]. split; [done|]. rewrite Ep. split.
  - clear. induction (pending s) as [|m l IH]; [done|]. cbn.
    destruct (discard_entry_spec pid m) as (_ & -> & _). by rewrite IH.
  - intros i m p t Hm Hb. cbn in Hm. rewrite list_lookup_fmap in Hm.
    apply fmap_Some in Hm as (m0 & Hm & ->).
    destruct (discard_entry_spec pid m0) as (_ & _ & _ & _ & E). rewrite E in Hb.
    destruct (blocked_sender m0) as [[p0 t0]|] eqn:Eb; [|done].
    destruct (Z.eqb_spec p0 pid); simplify_eq. split; [done|].
    rewrite Hm. f_equal. destruct m0; cbn in Eb |- *; simplify_eq; try done;
      by destruct (Z.eqb_spec p pid).
Qed.

(** ** A fresh server *)

Lemma fresh_server_wf sid pid n p h :
  (0 < n < 256)%nat -> wf_server (mkServer sid pid 0 0 0 0 (Z.of_nat (length (repeat QEmpty n))) (repeat QEmpty n) 0 p h).
Proof.
  intros Hn. assert (Forall (eq QEmpty) (repeat QEmpty n)) as Hq.
  { apply list.Forall_forall. intros m Hm%list_elem_of_In%repeat_spec. done. }
  assert (countb is_empty_slot (repeat QEmpty n) = Z.of_nat (length (repeat QEmpty n))) as Hc.
  { clear - Hq. induction Hq as [|m q <- Hq IH]; [done|]. rewrite countb_cons, IH. cbn. lia. }
  assert (length (repeat QEmpty n) = n) as Hlen by apply repeat_length. split.
  - unfold wf_shape. cbn [queue queue_head queue_tail head_generation empty_count]. split_and!; try lia. unfold_ints. lia.
  - exists []. split; [|done]. split; [constructor|]. split; [done|]. intros i m Hm [g Hg].
    pose proof (Forall_lookup_1 _ _ _ _ Hq Hm). by subst m.
Qed.

(** [Server::init] on a free entry builds a well-formed server with every slot empty, with
    the initial permissions and no pending message, parked thread or event handler; a range
    of permissions the table cannot hold, or an entry in use, is refused without effect. *)
Theorem init_correct new pid sid backing perms :
  32 <= range_size backing < 256 * 32 -> wf_msg_range perms ->
  match init new pid sid backing perms with
  | (Some s, Ok _) => new = None /\ wf_server s /\ pending s = [] /\ is_queue_full s = false
      /\ Forall (eq QEmpty) (queue s) /\ server_sid s = sid /\ server_pid s = pid
      /\ ready_threads s = 0
      /\ (forall id, 0 <= id -> is_permitted (default_permissions s) id = range_contains perms id)
  | (None, Ok _) => False
  | (new', Err e) => new' = new /\ is_Some new /\ e = MemoryInUse
  end.
Proof.
  intros Hb Hperm. unfold init. destruct new as [s0|]; [by eauto|].
  assert (forall id, 0 <= id -> is_permitted MessagePermissions_default id = false) as Hdef.
  { intros id Hid. destruct (Z.lt_ge_cases id 64).
    - rewrite is_permitted_low by done. apply Z.bits_0.
    - rewrite is_permitted_high by done. cbn. unfold range_contains. cbn. lia. }
  set (q := repeat QEmpty _).
  assert (1 <= range_size backing / QUEUED_MESSAGE_SIZE < 256).
  { unfold QUEUED_MESSAGE_SIZE. Z.div_mod_to_equations. lia. }
  assert (0 < length q < 256)%nat as Hlen by (unfold q; rewrite repeat_length; lia).
  assert (Forall (eq QEmpty) q) as Hq.
  { apply list.Forall_forall. intros m Hm%list_elem_of_In%repeat_spec. done. }
  assert (forall p, wf_server (mkServer sid pid 0 0 0 0 (Z.of_nat (length q)) q 0 p
    (repeat None NUM_SERVER_EVENTS))) as Hwf by (intros p; apply fresh_server_wf; lia).
  assert (forall p, is_queue_full (mkServer sid pid 0 0 0 0 (Z.of_nat (length q)) q 0 p
    (repeat None NUM_SERVER_EVENTS)) = false) as Hfull by (intros; unfold is_queue_full; cbn; lia).
  clearbody q. destruct (range_is_empty perms) eqn:Ee.
  - split_and!; auto. intros id Hid. cbn. rewrite Hdef by done.
    unfold range_is_empty, range_contains in *. lia.
  - destruct (permissions_add _ _) as [p r] eqn:Ea.
    destruct (add_spec _ _ _ _ wf_permissions_default Hperm Ea) as [_ Hadd].
    destruct r as [v|e].
    + split_and!; auto. intros id Hid. cbn. destruct Hadd as (_ & _ & ->); [|done].
      by rewrite Hdef.
    + exfalso. assert (list_add (perm_list MessagePermissions_default) perms <> None) as Hno.
      { rewrite list_add_None. intros Hall. by apply list.Forall_cons in Hall as [[? _] _]. }
      unfold permissions_add in Ea. rewrite Ee in Ea. repeat case_match; simplify_eq.
Qed.

(** The server of a page of queue. *)
Lemma init_page pid sid backing perms s :
  range_size backing = 4096 -> init None pid sid backing perms = (Some s, Ok tt) ->
  wf_server s /\ server_pid s = pid /\ server_sid s = sid.
Proof.
  intros Hb H. unfold init in H. rewrite Hb in H. change (Z.to_nat (4096 / QUEUED_MESSAGE_SIZE)) with 128%nat in H.
  destruct (if range_is_empty perms then _ else _) as [p [r|e]]; [|done]. injection H as <-.
  split; [exact (fresh_server_wf sid pid 128 p (repeat None NUM_SERVER_EVENTS) ltac:(lia))|done].
Qed.

(** ** Histories *)

(** The operations of a server's queue, in any interleaving. *)
Inductive queue_op : Type :=
| OpQueueMessage (pid tid : Z) (message : Message) (original_address : option Z)
| OpQueueResponse (pid tid : Z) (message : Message) (client_address : option Z)
| OpTakeNextMessage (sidx : Z)
| OpTakeWaitingMessage (message_index : nat) (buf : option MemoryRange)
| OpDiscardMessages (pid : Z).

(** One operation: the next state, the message accepted and the message delivered, if any. *)
Definition queue_step (s : Server) (o : queue_op)
    : option (Server * option Message * option Message) :=
  match o with
  | OpQueueMessage pid tid msg addr =>
      let! (s, r) := queue_message s pid tid msg addr in
      Some (s, if is_Ok r then Some msg else None, None)
  | OpQueueResponse pid tid msg addr => Some ((queue_response s pid tid msg addr).1, None, None)
  | OpTakeNextMessage sidx =>
      let! (s, r) := take_next_message s sidx in
      Some (s, None, env_body <$> r)
  | OpTakeWaitingMessage i buf => Some ((take_waiting_message s i buf).1, None, None)
  | OpDiscardMessages pid => Some (discard_messages_for_pid s pid, None, None)
  end.

(** A history: the final state, the messages accepted and the messages delivered, in order. *)
Fixpoint queue_run (s : Server) (ops : list queue_op)
    : option (Server * list Message * list Message) :=
  match ops with
  | [] => Some (s, [], [])
  | o :: ops =>
      let! (s, a, d) := queue_step s o in
      let! (s, accepted, delivered) := queue_run s ops in
      Some (s, option_list a ++ accepted, option_list d ++ delivered)
  end.

(** Messages reach the kernel with well-formed words (see [SysCall.decode_well_typed]). *)
Definition wf_queue_op (o : queue_op) : Prop :=
  match o with OpQueueMessage _ _ msg _ => wf_message msg | _ => True end.

Lemma ServerBuffer_new_range r b : ServerBuffer_new r = Ok b -> ServerBuffer_range b = r.
Proof.
  unfold ServerBuffer_new, ok_or, nonzero_new. intros. repeat case_match; simplify_eq.
  by destruct r.
Qed.

Lemma memory_body_new m b :
  wf_memory_message m -> ServerBuffer_new (mm_buf m) = Ok b ->
  memory_body (mm_id m) b (nonzero_or0 (mm_offset m)) (nonzero_or0 (mm_valid m)) = m.
Proof.
  intros Hm Hb. unfold memory_body. rewrite (ServerBuffer_new_range _ _ Hb).
  destruct Hm as (_ & _ & Ho & Hv). rewrite !nonzero_new_or0 by done. by destruct m.
Qed.

(** The slot written for a message carries that message. *)
Lemma queued_entry_body pid tid idx msg addr m :
  wf_message msg -> queued_entry pid tid idx msg addr = Ok m -> body_of m = Some msg.
Proof.
  intros Hwf E. destruct msg as [mm|mm|mm|sm|sm|mm]; cbn in Hwf, E;
    repeat case_match; simplify_eq; cbn; f_equal; f_equal.
  all: first [by apply memory_body_new | by destruct sm].
Qed.

Lemma queue_step_fifo s o :
  wf_server s -> wf_queue_op o ->
  exists s' a d, queue_step s o = Some (s', a, d) /\ wf_server s'
    /\ omap body_of (pending s) ++ option_list a = option_list d ++ omap body_of (pending s').
Proof.
  intros Hs Ho. destruct o as [pid tid msg addr|pid tid msg addr|sidx|i buf|pid]; cbn.
  - destruct (queue_message_spec s pid tid msg addr Hs) as (s' & r & -> & Hs' & H).
    eexists _, _, _. split; [done|]. split; [done|]. destruct r as [i|e]; cbn.
    + destruct H as (m & Em & _ & _ & ->). rewrite omap_app. cbn.
      by rewrite (queued_entry_body _ _ _ _ _ _ Ho Em).
    + destruct H as (_ & -> & _). by rewrite app_nil_r.
  - pose proof (queue_response_spec s pid tid msg addr Hs) as H.
    destruct (queue_response s pid tid msg addr) as [s' r]. destruct H as (Hs' & Hp & _).
    eexists _, _, _. split; [done|]. split; [done|]. cbn. by rewrite Hp, app_nil_r.
  - destruct (take_next_message_spec s sidx Hs) as (s' & r & -> & Hs' & H).
    eexists _, _, _. split; [done|]. split; [done|]. rewrite app_nil_r.
    destruct (pending s) as [|m ms] eqn:Ep; [by destruct H as [-> ->]; rewrite Ep|].
    destruct H as (<- & i & env & m' & _ & _ & -> & Hb & _). cbn. by rewrite Hb.
  - pose proof (take_waiting_message_spec s i buf Hs) as H.
    destruct (take_waiting_message s i buf) as [s' r]. destruct H as (Hs' & Hp & _).
    eexists _, _, _. split; [done|]. split; [done|]. cbn. by rewrite Hp, app_nil_r.
  - destruct (discard_messages_spec s pid Hs) as (Hs' & _ & Hb & _).
    eexists _, _, _. split; [done|]. split; [done|]. cbn. by rewrite Hb, app_nil_r.
Qed.

(** C1: Every history of a server's queue runs without a panic and delivers the accepted messages
    first in, first out: what was pending followed by what is accepted is what is delivered
    followed by what is left pending.  No message is lost, duplicated, reordered or altered,
    whatever answers, direct responses and terminated clients come in between. *)
Theorem queue_fifo s ops :
  wf_server s -> Forall wf_queue_op ops ->
  exists s' accepted delivered, queue_run s ops = Some (s', accepted, delivered)
    /\ wf_server s'
    /\ omap body_of (pending s) ++ accepted = delivered ++ omap body_of (pending s').
Proof.
  intros Hs Hops. revert s Hs. induction Hops as [|o ops Ho Hops IH]; intros s Hs.
  - exists s, [], []. split; [done|]. split; [done|]. cbn. by rewrite app_nil_r.
  - destruct (queue_step_fifo s o Hs Ho) as (s1 & a & d & E & Hs1 & H1).
    destruct (IH s1 Hs1) as (s2 & acc & del & E2 & Hs2 & H2).
    exists s2, (option_list a ++ acc), (option_list d ++ del).
    split; [by cbn; rewrite E, E2|]. split; [done|].
    by rewrite app_assoc, H1, <-!app_assoc, H2.
Qed.

(** ** Parked threads *)

(** Thread [tid] of the server's process is parked, waiting for a message. *)
Definition is_parked (s : Server) (tid : Z) : bool := Z.testbit (ready_threads s) tid.

Lemma land_pow2 r k : 0 <= k -> (Z.land r (2 ^ k) =? 2 ^ k) = Z.testbit r k.
Proof.
  intros Hk. pose proof (testbit_mask r k Hk) as H. rewrite Z.shiftl_1_l in H.
  destruct (Z.testbit r k) eqn:E; cbn in H.
  - apply Z.eqb_eq. apply Z.bits_inj'. intros i Hi. rewrite Z.land_spec, Z.pow2_bits_eqb by done.
    destruct (Z.eqb_spec k i) as [->|]; [by rewrite E|apply andb_false_r].
  - apply Z.eqb_eq in H. rewrite H. apply Z.eqb_neq. pose proof (Z.pow_pos_nonneg 2 k). lia.
Qed.

Lemma rotate_left1_pow2 k : 0 <= k < 31 -> rotate_left1 (2 ^ k) = 2 ^ (k + 1).
Proof.
  intros Hk. unfold rotate_left1. rewrite Z.shiftl_mul_pow2, Z.shiftr_div_pow2 by lia.
  rewrite Z.div_small by (split; [lia|apply Z.pow_lt_mono_r; lia]). rewrite Z.lor_0_r.
  change (2 ^ 1) with 2. rewrite Z.mul_comm, <-Z.pow_succ_r by lia. apply usize_id.
  unfold_ints. split; [lia|apply Z.pow_lt_mono_r; lia].
Qed.

Lemma take_thread_loop_spec fuel r k t :
  0 <= k -> k <= t < 32 -> Z.testbit r t = true -> (forall j, k <= j < t -> Z.testbit r j = false) ->
  t - k < Z.of_nat fuel ->
  take_thread_loop fuel r (2 ^ k) k = Some (Z.ldiff r (2 ^ t), t).
Proof.
  revert k. induction fuel as [|fuel IH]; intros k Hk Ht Hb Hmin Hf; [lia|].
  cbn [take_thread_loop]. rewrite land_pow2 by done. destruct (decide (k = t)) as [->|Hne].
  - by rewrite Hb.
  - rewrite Hmin by lia. rewrite rotate_left1_pow2 by lia.
    replace (2 ^ (k + 1) =? 1) with false.
    + apply IH; [lia|lia|done|intros; apply Hmin; lia|lia].
    + symmetry. apply Z.eqb_neq. assert (1 < 2 ^ (k + 1)); [apply Z.pow_gt_1; lia|lia].
Qed.

Lemma lowest_bit r : 0 < r < 2 ^ 32 ->
  exists t, 0 <= t < 32 /\ Z.testbit r t = true /\ forall j, 0 <= j < t -> Z.testbit r j = false.
Proof.
  intros Hr. destruct (position (fun j => Z.testbit r j) (seqZ 0 32)) as [i|] eqn:E.
  - apply position_Some in E as [(x & Hx & Hb) Hmin]. apply lookup_seqZ in Hx as [-> Hi].
    exists (0 + Z.of_nat i). split; [lia|]. split; [done|]. intros j Hj.
    apply (Hmin (Z.to_nat j) j); [lia|]. apply lookup_seqZ. lia.
  - exfalso. rewrite position_None in E. assert (r = 0); [|lia].
    apply Z.bits_inj'. intros j Hj. rewrite Z.bits_0. destruct (Z.lt_ge_cases j 32).
    + apply (E (Z.to_nat j) j). apply lookup_seqZ. lia.
    + apply Z.bits_above_log2; [lia|]. assert (Z.log2 r < 32); [|lia]. apply Z.log2_lt_pow2; lia.
Qed.

(** [take_available_thread]: it never panics; it returns [None] exactly when no thread is
    parked, and otherwise the parked thread of the lowest number, which it unparks, leaving
    the others parked and the queue untouched. *)
Lemma take_available_thread_spec s :
  is_usize (ready_threads s) ->
  exists s' r, take_available_thread s = Some (s', r) /\ is_usize (ready_threads s')
    /\ s' = set_ready_threads s (ready_threads s') /\
  match r with
  | None => s' = s /\ (forall t, 0 <= t -> is_parked s t = false)
  | Some tid => 0 <= tid < 32 /\ is_parked s tid = true
      /\ (forall t, 0 <= t < tid -> is_parked s t = false)
      /\ (forall t, 0 <= t -> is_parked s' t = is_parked s t && negb (t =? tid))
  end.
Proof.
  unfold_ints. intros Hr. unfold take_available_thread. destruct (Z.eqb_spec (ready_threads s) 0) as [E|E].
  - exists s, None. unfold is_parked. rewrite E. split_and!; try done; try lia.
    + by destruct s; cbn in *; subst.
    + intros. apply Z.bits_0.
  - destruct (lowest_bit (ready_threads s)) as (t & Ht & Hb & Hmin); [lia|].
    change 1 with (2 ^ 0). rewrite (take_thread_loop_spec 32 _ 0 t); try done; try lia.
    eexists _, (Some t). split; [done|]. cbn [ready_threads set_ready_threads].
    assert (forall j, 0 <= j -> Z.testbit (Z.ldiff (ready_threads s) (2 ^ t)) j
                      = Z.testbit (ready_threads s) j && negb (j =? t)) as Hbits.
    { intros j Hj. rewrite Z.ldiff_spec, Z.pow2_bits_eqb by lia. by rewrite (Z.eqb_sym t j). }
    split; [|split_and!; try done; lia].
    assert (0 <= Z.ldiff (ready_threads s) (2 ^ t)) by (apply Z.ldiff_nonneg; lia).
    pose proof (Z.pow_pos_nonneg 2 t). assert (Z.ldiff (2 ^ t) (ready_threads s) = 0) as Hl.
    2: { pose proof (Z.sub_nocarry_ldiff _ _ Hl). lia. }
    apply Z.bits_inj'. intros j Hj. rewrite Z.ldiff_spec, Z.pow2_bits_eqb, Z.bits_0 by lia.
    destruct (Z.eqb_spec t j) as [->|]; [by rewrite Hb|done].
Qed.

(** [park_thread] and [return_available_thread] panic exactly when the thread is parked
    already, and otherwise park it and nothing else. *)
Lemma park_thread_correct s tid :
  is_usize (ready_threads s) -> 0 <= tid < 32 ->
  park_thread s tid = return_available_thread s tid /\
  match park_thread s tid with
  | None => is_parked s tid = true
  | Some s' => is_parked s tid = false /\ s' = set_ready_threads s (ready_threads s')
      /\ forall t, 0 <= t -> is_parked s' t = is_parked s t || (t =? tid)
  end.
Proof.
  intros Hr Ht. unfold park_thread, return_available_thread, thread_bit, is_parked.
  rewrite (Z.mod_small tid 32), testbit_mask by lia.
  destruct (Z.testbit (ready_threads s) tid); [done|]. cbn. split; [done|]. split; [done|].
  split; [done|]. intros t Ht'. apply testbit_set; lia.
Qed.

(** ** Sender identifiers *)

(** A [SenderID] survives the word it is sent as, for any server index below 256, slot index
    below 65536 and process id: the answer comes back to the slot the message came from. *)
Theorem SenderID_roundtrip s :
  is_u8 (sid_sidx s) -> is_u16 (sid_idx s) ->
  match sid_pid s with Some p => is_pid p | None => True end ->
  SenderID_from_usize (SenderID_into_usize s) = s
  /\ MessageSender_pid (sender_of s) = sid_pid s.
Proof.
  destruct s as [sidx idx pid]; cbn. intros Hs Hi Hp.
  assert (0 <= nonzero_or0 pid < 256) as Hp' by (destruct pid; cbn; unfold_ints; lia).
  assert (SenderID_into_usize (mkSenderID sidx idx pid) = nonzero_or0 pid * 2 ^ 24 + sidx * 2 ^ 16 + idx) as E.
  { unfold SenderID_into_usize. cbn. unfold_ints. change 0xffff with (2 ^ 16 - 1).
    rewrite land_ones_mod, (Z.mod_small idx) by lia.
    assert (Z.land (Z.shiftl sidx 16 mod 2 ^ 32) 0xff0000 = Z.shiftl sidx 16) as ->.
    { rewrite Z.mod_small by (rewrite Z.shiftl_mul_pow2; lia).
      change 0xff0000 with (Z.shiftl 0xff 16). rewrite <-Z.shiftl_land.
      change 0xff with (2 ^ 8 - 1). rewrite land_ones_mod, Z.mod_small by lia. done. }
    rewrite Z.mod_small by (rewrite Z.shiftl_mul_pow2; lia).
    rewrite <-Z.lor_assoc, (lor_shiftl_add sidx idx 16), lor_shiftl_add by lia. lia. }
  unfold sender_of, MessageSender_pid, SenderID_from_usize. rewrite E. clear E.
  change 0xff with (2 ^ 8 - 1). change 0xffff with (2 ^ 16 - 1).
  rewrite !land_ones_mod, !Z.shiftr_div_pow2 by lia. unfold_ints.
  assert ((nonzero_or0 pid * 2 ^ 24 + sidx * 2 ^ 16 + idx) / 2 ^ 24 mod 2 ^ 8 = nonzero_or0 pid) as ->
    by (Z.div_mod_to_equations; lia).
  replace ((nonzero_or0 pid * 2 ^ 24 + sidx * 2 ^ 16 + idx) / 2 ^ 16 mod 2 ^ 8) with sidx
    by (Z.div_mod_to_equations; lia).
  replace ((nonzero_or0 pid * 2 ^ 24 + sidx * 2 ^ 16 + idx) mod 2 ^ 16) with idx
    by (Z.div_mod_to_equations; lia).
  assert (nonzero_new (nonzero_or0 pid) = pid) as ->.
  { destruct pid as [p|]; cbn; [by apply nonzero_new_pid|done]. }
  done.
Qed.

(** ** Destroying a server *)

(** The calls [destroy] makes, recorded by an instance of [SystemOps]. *)
Inductive system_call : Type :=
| CallReturnMemory (src pid tid dest size : Z)
| CallClearShared (pid addr size : Z)
| CallThreadReady (pid tid : Z)
| CallThreadResult (pid tid : Z) (r : Result)
| CallUnmap (addr size : Z).

Section recording.
  (** The outcome of each [return_memory]: the borrower may have freed the pages. *)
Context (returned : Z -> Z -> result Error Z).

Definition recording : SystemOps (list system_call) := {|
    op_return_memory w src pid tid dest size :=
      Some (w ++ [CallReturnMemory src pid tid dest size], returned src size);
    op_clear_shared_range w pid addr size := Some (w ++ [CallClearShared pid addr size]);
    op_set_thread_ready w pid tid := Some (w ++ [CallThreadReady pid tid]);
    op_set_thread_result w pid tid r := Some (w ++ [CallThreadResult pid tid r]);
    op_unmap_range w addr size := Some (w ++ [CallUnmap addr size], Ok tt)
  |}.

Definition woken (c : system_call) : option (Z * Z) :=
    match c with CallThreadReady pid tid => Some (pid, tid) | _ => None end.
Definition answered (c : system_call) : option (Z * Z * Result) :=
    match c with CallThreadResult pid tid r => Some (pid, tid, r) | _ => None end.
Definition unmapped (c : system_call) : option (Z * Z) :=
    match c with CallUnmap addr size => Some (addr, size) | _ => None end.

  (** The buffers the server holds for no client: [destroy] frees them. *)
Definition orphan_buffer (entry : QueuedMessage) : option (Z * Z) :=
    match entry with
    | QMemoryMessageSend _ _ _ buf _ _ | QMemoryMessageBlockingSend _ _ _ _ _ buf _ _
    | QMemoryMessageBlockingSendTerminated _ _ buf _ _ | QMemoryMessageROLendTerminated _ _ buf _ _
    | QMemoryMessageRWLendTerminated _ _ buf _ _ | QWaitingForget buf =>
        Some (sb_addr buf, sb_size buf)
    | _ => None
    end.

Definition server_not_found (p : Z * Z) : Z * Z * Result := (p.1, p.2, RError ServerNotFound).

Definition entry_calls_ok (m : QueuedMessage) (evs : list system_call) : Prop :=
    omap woken evs = option_list (blocked_sender m)
    /\ omap answered evs = option_list (server_not_found <$> blocked_sender m)
    /\ omap unmapped evs = option_list (orphan_buffer m).

Lemma destroy_entry_calls w m :
    exists evs, destroy_entry (H := recording) w m = Some (w ++ evs) /\ entry_calls_ok m evs.
  Proof.
    destruct m; cbn; unfold return_memory_and_unblock_client, fail_then_wake, free_buffer; cbn;
      try (destruct (is_Ok (returned _ _)); cbn); rewrite <-?app_assoc;
      first [exists []; split; [by rewrite app_nil_r|done] | by eexists].
  Qed.

Lemma omap_option_list {A B} (f : A -> option B) l :
    omap f l = flat_map (fun x => option_list (f x)) l.
  Proof. induction l as [|x l IH]; [done|]. cbn. destruct (f x); cbn; by rewrite IH. Qed.

Lemma destroy_entries_calls w q :
    exists evs, destroy_entries (H := recording) w q = Some (w ++ evs)
      /\ omap woken evs = omap blocked_sender q
      /\ omap answered evs = map server_not_found (omap blocked_sender q)
      /\ omap unmapped evs = omap orphan_buffer q.
  Proof.
    revert w. induction q as [|m q IH]; intros w.
    - exists []. split; [by rewrite app_nil_r|done].
    - cbn. destruct (destroy_entry_calls w m) as (e1 & -> & H1 & H2 & H3).
      destruct (IH (w ++ e1)) as (e2 & -> & G1 & G2 & G3). exists (e1 ++ e2).
      rewrite !omap_app, H1, H2, H3, G1, G2, G3, app_assoc.
      split; [done|]. destruct (blocked_sender m), (orphan_buffer m); done.
  Qed.

  (** The parked threads, in increasing order. *)
Definition parked_threads (s : Server) : list Z := List.filter (is_parked s) (seqZ 0 32).

Lemma filter_false {A} (p : A -> bool) l :
    (forall x, x ∈ l -> p x = false) -> List.filter p l = [].
  Proof.
    induction l as [|x l IH]; [done|]. intros Hp. cbn. rewrite Hp by left.
    apply IH. intros y Hy. apply Hp. by right.
  Qed.

Lemma parked_threads_take s s' tid :
    0 <= tid < 32 -> is_parked s tid = true -> (forall t, 0 <= t < tid -> is_parked s t = false) ->
    (forall t, 0 <= t -> is_parked s' t = is_parked s t && negb (t =? tid)) ->
    parked_threads s = tid :: parked_threads s'.
  Proof.
    intros Ht Hp Hmin Hs'. unfold parked_threads.
    assert (seqZ 0 32 = seqZ 0 tid ++ tid :: seqZ (tid + 1) (31 - tid)) as ->.
    { replace 32 with (tid + (32 - tid)) at 1 by lia. rewrite seqZ_app by lia.
      rewrite (seqZ_cons (0 + tid)) by lia. repeat f_equal; lia. }
    rewrite !filter_app. cbn. rewrite Hp, Hs' by lia. rewrite Z.eqb_refl, andb_false_r.
    rewrite !(filter_false _ (seqZ 0 tid)).
    - cbn. f_equal. apply filter_ext_in. intros t Hin%list_elem_of_In%elem_of_seqZ.
      rewrite Hs' by lia. replace (t =? tid) with false by lia. by rewrite andb_true_r.
    - intros t [? ?]%elem_of_seqZ. rewrite Hs', Hmin by lia. done.
    - intros t [? ?]%elem_of_seqZ. apply Hmin; lia.
  Qed.

Lemma parked_threads_nil s :
    (forall t, 0 <= t -> is_parked s t = false) -> parked_threads s = [].
  Proof. intros Hno. apply filter_false. intros t [? ?]%elem_of_seqZ. apply Hno; lia. Qed.

Lemma wake_server_threads_calls fuel s pid w l :
    is_usize (ready_threads s) -> parked_threads s = l -> (length l < fuel)%nat ->
    exists evs, wake_server_threads (H := recording) fuel s pid w = Some (w ++ evs)
      /\ omap woken evs = map (pair pid) l
      /\ omap answered evs = map (fun t => server_not_found (pid, t)) l
      /\ omap unmapped evs = [].
  Proof.
    revert s w l. induction fuel as [|fuel IH]; intros s w l Hr El Hf; [lia|].
    cbn [wake_server_threads].
    destruct (take_available_thread_spec s Hr) as (s' & r & -> & Hr' & _ & H).
    destruct r as [tid|].
    - destruct H as (Ht & Hp & Hmin & Hs').
      rewrite (parked_threads_take s s' tid Ht Hp Hmin Hs') in El.
      destruct l as [|t l]; [done|]. injection El as <- El. cbn [length] in Hf.
      destruct (IH s' ((w ++ [CallThreadReady pid tid])
        ++ [CallThreadResult pid tid (RError ServerNotFound)]) l Hr' El ltac:(lia))
        as (evs & E & G1 & G2 & G3).
      exists ([CallThreadReady pid tid; CallThreadResult pid tid (RError ServerNotFound)] ++ evs).
      cbn [op_set_thread_ready op_set_thread_result recording map].
      rewrite E, <-!app_assoc, !omap_app, G1, G2, G3. by split_and!.
    - destruct H as (_ & H). rewrite (parked_threads_nil s H) in El. subst l.
      exists []. by rewrite app_nil_r.
  Qed.

  (** C26: [destroy] never panics by itself.  Every client thread blocked on a slot, and then every
      parked thread of the server, is set ready exactly once and receives [ServerNotFound];
      nobody else is woken.  The buffers no client waits for are unmapped, each once, and the
      backing memory last. *)
Theorem destroy_correct s current_pid backing :
    is_usize (ready_threads s) ->
    exists evs, destroy (H := recording) s current_pid backing [] = Some evs
      /\ omap woken evs
         = omap blocked_sender (queue s) ++ map (pair current_pid) (parked_threads s)
      /\ omap answered evs
         = map server_not_found
             (omap blocked_sender (queue s) ++ map (pair current_pid) (parked_threads s))
      /\ omap unmapped evs
         = omap orphan_buffer (queue s)
           ++ [(backing, Z.of_nat (length (queue s)) * QUEUED_MESSAGE_SIZE)].
  Proof.
    intros Hr. unfold destroy.
    destruct (destroy_entries_calls [] (queue s)) as (e1 & -> & H1 & H2 & H3).
    destruct (wake_server_threads_calls 33 s current_pid ([] ++ e1) _ Hr eq_refl)
      as (e2 & -> & G1 & G2 & G3).
    { unfold parked_threads. pose proof (List.filter_length_le (is_parked s) (seqZ 0 32)) as Hl.
      rewrite length_seqZ in Hl. lia. }
    eexists. split; [done|]. rewrite !omap_app, H1, H2, H3, G1, G2, G3. cbn.
    rewrite !app_nil_r, map_app, map_map. done.
  Qed.
End recording.

(** ** The contract of the queue *)

(** [queue_message] appends to the pending messages: it fails with [ServerQueueFull] exactly
    when no slot is empty, or with the error of a malformed message, and then no slot
    changes; otherwise one empty slot takes the message, behind all pending ones.  The
    closing assertion that the generations differ never fails. *)
Theorem queue_message_correct s pid tid msg addr :
  wf_server s ->
  exists s' r, queue_message s pid tid msg addr = Some (s', r) /\ wf_server s' /\
  match r with
  | Ok i => exists m, queued_entry pid tid (tail_generation s) msg addr = Ok m
      /\ queue s !! i = Some QEmpty /\ queue s' = <[i := m]> (queue s)
      /\ pending s' = pending s ++ [m]
  | Err e => queue s' = queue s /\ pending s' = pending s
      /\ ((is_queue_full s = true /\ e = ServerQueueFull)
          \/ (is_queue_full s = false
              /\ queued_entry pid tid (tail_generation s) msg addr = Err e))
  end.
Proof. exact (queue_message_spec s pid tid msg addr). Qed.

(** C28: [take_next_message] delivers the oldest pending message and nothing else: it never
    panics and its loop terminates, it returns [None] exactly when nothing is pending, and
    otherwise the slot found holds the head of the queue, its body is the one delivered and
    only that slot changes. *)
Theorem take_next_message_correct s sidx :
  wf_server s ->
  exists s' r, take_next_message s sidx = Some (s', r) /\ wf_server s' /\
  match pending s with
  | [] => s' = s /\ r = None
  | m :: ms =>
      pending s' = ms
      /\ exists i env m', queue s !! i = Some m
         /\ deliver sidx i (head_generation s) m = Some (env, m') /\ r = Some env
         /\ body_of m = Some (env_body env) /\ queue s' = <[i := m']> (queue s)
  end.
Proof. exact (take_next_message_spec s sidx). Qed.

(** [take_waiting_message] takes an answer at most once: a slot that awaits no answer is left
    alone and reported as [None]; a buffer at another address or of another size is refused
    with [BadAddress], as are an index out of range and a terminated [BlockingMove] answered
    without a buffer, all without effect; otherwise the slot becomes empty, and any further
    answer to it is reported as [None].  The answer goes to the client blocked on the slot, at
    the address that client gave.  Pending messages are never touched. *)
Theorem take_waiting_message_correct s i buf :
  wf_server s ->
  let '(s', r) := take_waiting_message s i buf in
  wf_server s' /\ pending s' = pending s /\
  match queue s !! i, r with
  | None, _ => s' = s /\ r = Err BadAddress
  | Some m, Ok WNone => s' = s /\ is_waiting m = false
  | Some m, Ok w => is_waiting m = true /\ answers m buf w /\ queue s' = <[i := QEmpty]> (queue s)
      /\ (forall buf', take_waiting_message s' i buf' = (s', Ok WNone))
  | Some m, Err e => s' = s /\ e = BadAddress /\ refused_answer m buf
  end.
Proof.
  intros Hwf. pose proof (take_waiting_message_spec s i buf Hwf) as H.
  destruct (take_waiting_message s i buf) as [s' r], H as (Hs & Hp & H). do 2 (split; [done|]).
  destruct (queue s !! i) as [m|]; [|done]. destruct r as [w|e].
  - destruct w; try done; destruct H as (? & Hm & Ht & ? & ?); eauto using take_waiting_answers.
  - unfold refused_answer. by rewrite <-waiting_mismatch_iff.
Qed.

(** [discard_messages_for_pid]: afterwards no slot blocks a thread of the terminated process,
    the slots of the other processes are unchanged, and the pending messages keep their order
    and their bodies, so the server still receives every one of them. *)
Theorem discard_messages_correct s pid :
  wf_server s ->
  wf_server (discard_messages_for_pid s pid)
  /\ pending (discard_messages_for_pid s pid) = map (discard_entry pid) (pending s)
  /\ omap body_of (pending (discard_messages_for_pid s pid)) = omap body_of (pending s)
  /\ (forall i m p t, queue (discard_messages_for_pid s pid) !! i = Some m ->
        blocked_sender m = Some (p, t) -> p <> pid /\ queue s !! i = Some m).
Proof. exact (discard_messages_spec s pid). Qed.

(** ** A concrete server *)

(** Three slots: a lend of process 5 at generation 255 awaits delivery, an answer to process
    6 is awaited, a slot is empty; threads 1 and 4 are parked. *)
Definition demo_buffer : ServerBuffer := mkServerBuffer 0x4000 0x1000.
Definition demo_server : Server :=
  mkServer (mkSID 1 2 3 4) 3 2 1 255 0 1
    [QMemoryMessageROLend 5 1 255 70 0x8000 demo_buffer 0 16;
     QWaitingReturnMemory 6 2 (mkServerBuffer 0x9000 0x1000) 0xa000; QEmpty]
    18 MessagePermissions_default [None; None].

Lemma demo_server_wf : wf_server demo_server.
Proof.
  split; [unfold wf_shape; cbn; unfold_ints; split_and!; first [lia|done]|]. exists [0%nat]. split; [|done]. split; [apply NoDup_singleton|]. split.
  - intros [|k] i Hk; [|done]. injection Hk as <-. eexists. by split.
  - intros [|[|[|i]]] m Hm [g Hg]; simpl in Hm; simplify_eq; by left.
Qed.

Lemma demo_message_wf : wf_message (Scalar (mkScalarMessage 7 1 2 3 4)).
Proof. cbn. unfold wf_scalar_message. cbn. unfold_ints. lia. Qed.

Lemma init_correct_witness :
  exists s, init None 3 (mkSID 1 2 3 4) (mkRange 0x1000 4096) (mkMsgRange 0 10) = (Some s, Ok tt)
  /\ wf_server s /\ pending s = [] /\ length (queue s) = 128%nat /\ is_permitted (default_permissions s) 9 = true.
Proof.
  pose proof (init_correct None 3 (mkSID 1 2 3 4) (mkRange 0x1000 4096) (mkMsgRange 0 10)) as H.
  destruct H as (_ & Hwf & Hp & _); [cbn; lia|unfold wf_msg_range; cbn; unfold_ints; lia|].
  eexists. split; [reflexivity|]. split; [exact Hwf|]. split; [exact Hp|]. split; reflexivity.
Defined.

Lemma queue_fifo_witness :
  exists s' accepted delivered,
    queue_run demo_server [OpQueueMessage 5 1 (Scalar (mkScalarMessage 7 1 2 3 4)) None;
      OpDiscardMessages 5; OpTakeNextMessage 0; OpTakeWaitingMessage 1 None; OpTakeNextMessage 0]
      = Some (s', accepted, delivered)
    /\ wf_server s' /\ length delivered = 2%nat
    /\ omap body_of (pending demo_server) ++ accepted = delivered ++ omap body_of (pending s').
Proof.
  destruct (queue_fifo demo_server [OpQueueMessage 5 1 (Scalar (mkScalarMessage 7 1 2 3 4)) None;
      OpDiscardMessages 5; OpTakeNextMessage 0; OpTakeWaitingMessage 1 None; OpTakeNextMessage 0]
      demo_server_wf) as (s' & a & d & E & Hs' & H).
  { repeat constructor; apply demo_message_wf. }
  exists s', a, d. split; [exact E|]. split; [exact Hs'|]. split; [|exact H].
  vm_compute in E. injection E as _ _ <-. reflexivity.
Defined.

Lemma SenderID_roundtrip_witness :
  SenderID_from_usize (SenderID_into_usize (mkSenderID 127 300 (Some 9))) = mkSenderID 127 300 (Some 9).
Proof. apply (SenderID_roundtrip (mkSenderID 127 300 (Some 9))); cbn; unfold_ints; lia. Defined.

Lemma destroy_correct_witness :
  exists evs, destroy (H := recording (fun _ _ => Err DoubleFree)) demo_server 3 0x2000 [] = Some evs
  /\ omap woken evs = [(5, 1); (6, 2); (3, 1); (3, 4)].
Proof.
  destruct (destroy_correct (fun _ _ => Err DoubleFree) demo_server 3 0x2000) as (evs & E & H & _).
  { cbn. unfold_ints. lia. }
  exists evs. split; [exact E|]. rewrite H. reflexivity.
Defined.

Lemma queue_message_correct_witness :
  exists s', queue_message demo_server 5 1 (Scalar (mkScalarMessage 7 1 2 3 4)) None = Some (s', Ok 2%nat)
  /\ wf_server s' /\ length (pending s') = 2%nat.
Proof.
  destruct (queue_message_correct demo_server 5 1 (Scalar (mkScalarMessage 7 1 2 3 4)) None
              demo_server_wf) as (s' & r & E & Hs' & _).
  vm_compute in E. injection E as <- <-. eexists. split; [reflexivity|]. split; [exact Hs'|reflexivity].
Defined.

Lemma take_next_message_correct_witness :
  exists s' env, take_next_message demo_server 12 = Some (s', Some env) /\ wf_server s' /\ pending s' = [].
Proof.
  destruct (take_next_message_correct demo_server 12 demo_server_wf) as (s' & r & E & Hs' & _).
  vm_compute in E. injection E as <- <-. eexists _, _. split; [reflexivity|]. split; [exact Hs'|reflexivity].
Defined.

Lemma take_waiting_message_correct_witness :
  wf_server (take_waiting_message demo_server 1 (Some (mkRange 0x9000 0x1000))).1
  /\ (take_waiting_message demo_server 1 (Some (mkRange 0x9000 0x1000))).2
     = Ok (WBorrowedMemory 6 2 0xa000)
  /\ (take_waiting_message demo_server 1 (Some (mkRange 0x9000 0x2000))).2 = Err BadAddress.
Proof.
  split; [|by vm_compute].
  exact (proj1 (take_waiting_message_correct demo_server 1 (Some (mkRange 0x9000 0x1000)) demo_server_wf)).
Defined.

Lemma discard_messages_correct_witness :
  wf_server (discard_messages_for_pid demo_server 6)
  /\ omap blocked_sender (queue (discard_messages_for_pid demo_server 6)) = [(5, 1)].
Proof.
  split; [|reflexivity]. exact (proj1 (discard_messages_correct demo_server 6 demo_server_wf)).
Defined.
