(* ===== verification/Scheduler.v ===== *)
(** * The scheduler ([xous/kernel/src/scheduler.rs])

    Ready threads are kept in one circular doubly-linked list per priority; the links of all
    threads are stored in a table indexed by process and thread, and [queue_heads] points
    into each circle.  [ready_thread], [park_thread], [yield_thread] and [activate_current]
    are the functions of the source on the device; [None] is a panic (an [assert], an
    [expect], an index out of range).

    The abstract state is a list of queues, one per priority.  [sched_repr] says that the
    links of each queue form its circle; the theorems show that the four functions are
    appending to, removing from, rotating and reading the head of these queues. *)
From S2P Require Import Prelude Xous.

Definition NUM_PRIORITIES : nat := 16.
Definition MAX_PROCESS_COUNT : Z := 64.
Definition MAX_THREAD_COUNT : Z := 8.
Definition IRQ_TID : Z := 0.
Definition CPU_MEASUREMENT_COUNT : nat := 1024.

(** A thread of a process. *)
Abbreviation thread := (Z * Z)%type.

Record SchedulerLink : Type := mkLink { next_pid : Z; next_tid : Z; prev_pid : Z; prev_tid : Z }.

Record Scheduler : Type := mkScheduler {
  queue_heads : list (option thread);
  links : gmap thread SchedulerLink; (* the [Some] entries of the table *)
  highest_ready_priority : nat;
  in_irq_handler : bool;
  cpu_usage : list (Z * Z);
  cpu_usage_index : nat;
  currently_measuring : Z
}.

Definition Scheduler_initial : Scheduler :=
  mkScheduler (repeat None NUM_PRIORITIES) ∅ 0 false (repeat (0, 0) CPU_MEASUREMENT_COUNT) 0 0.

Definition set_heads (s : Scheduler) (h : list (option thread)) : Scheduler :=
  mkScheduler h (links s) (highest_ready_priority s) (in_irq_handler s) (cpu_usage s)
    (cpu_usage_index s) (currently_measuring s).
Definition set_links (s : Scheduler) (l : gmap thread SchedulerLink) : Scheduler :=
  mkScheduler (queue_heads s) l (highest_ready_priority s) (in_irq_handler s) (cpu_usage s)
    (cpu_usage_index s) (currently_measuring s).
Definition set_highest (s : Scheduler) (p : nat) : Scheduler :=
  mkScheduler (queue_heads s) (links s) p (in_irq_handler s) (cpu_usage s)
    (cpu_usage_index s) (currently_measuring s).
Definition set_in_irq (s : Scheduler) (b : bool) : Scheduler :=
  mkScheduler (queue_heads s) (links s) (highest_ready_priority s) b (cpu_usage s)
    (cpu_usage_index s) (currently_measuring s).
Definition set_measuring (s : Scheduler) (pid : Z) : Scheduler :=
  mkScheduler (queue_heads s) (links s) (highest_ready_priority s) (in_irq_handler s) (cpu_usage s)
    (cpu_usage_index s) pid.

(** [priority as usize]. *)
Definition prio (p : ThreadPriority) : nat := Z.to_nat (ThreadPriority_as_usize p).

(** [links[pid - 1][tid - 1]] is in range. *)
Definition valid_thread (t : thread) : bool :=
  (1 <=? t.1) && (t.1 <=? MAX_PROCESS_COUNT) && (1 <=? t.2) && (t.2 <=? MAX_THREAD_COUNT).

Definition link_copy (s : Scheduler) (t : thread) : option (option SchedulerLink) :=
  if valid_thread t then Some (links s !! t) else None.
(** [link_copy(..).expect(..)]. *)
Definition link_expect (s : Scheduler) (t : thread) : option SchedulerLink := mjoin (link_copy s t).
(** [*self.link_mut(..) = Some(l)]. *)
Definition link_set (s : Scheduler) (t : thread) (l : SchedulerLink) : option Scheduler :=
  if valid_thread t then Some (set_links s (<[t := l]> (links s))) else None.
(** [self.link_mut(..).as_mut().expect(..)], updated by [f]. *)
Definition link_update (s : Scheduler) (t : thread) (f : SchedulerLink -> SchedulerLink)
    : option Scheduler :=
  let! l := link_expect s t in link_set s t (f l).

Definition link_next (l : SchedulerLink) : thread := (next_pid l, next_tid l).
Definition link_prev (l : SchedulerLink) : thread := (prev_pid l, prev_tid l).
Definition with_next (t : thread) (l : SchedulerLink) : SchedulerLink :=
  mkLink t.1 t.2 (prev_pid l) (prev_tid l).
Definition with_prev (t : thread) (l : SchedulerLink) : SchedulerLink :=
  mkLink (next_pid l) (next_tid l) t.1 t.2.
Definition link_to (next prev : thread) : SchedulerLink := mkLink next.1 next.2 prev.1 prev.2.

Definition ready_thread (s : Scheduler) (pid tid : Z) (priority : ThreadPriority) : option Scheduler :=
  if tid =? IRQ_TID then
    if in_irq_handler s then None else Some (set_in_irq s true)
  else
  let priority := prio priority in
  let! head := queue_heads s !! priority in
  match head with
  | None =>
      let s := set_heads s (<[priority := Some (pid, tid)]> (queue_heads s)) in
      let s := if decide (highest_ready_priority s < priority)%nat then set_highest s priority else s in
      link_set s (pid, tid) (link_to (pid, tid) (pid, tid))
  | Some head =>
      let! own := link_copy s (pid, tid) in
      match own with
      | Some _ => None
      | None =>
          let! head_copy := link_expect s head in
          let! s := link_set s head (with_prev (pid, tid) head_copy) in
          let! s := link_update s (link_prev head_copy) (with_next (pid, tid)) in
          link_set s (pid, tid) (link_to head (link_prev head_copy))
      end
  end.

(** [heads.iter().take(n).rposition(|h| h.is_some())]. *)
Fixpoint rposition_some (heads : list (option thread)) (n : nat) : option nat :=
  match n with
  | O => None
  | S n => match heads !! n with
           | Some (Some _) => Some n
           | _ => rposition_some heads n
           end
  end.

Definition park_thread (s : Scheduler) (pid tid : Z) (priority : ThreadPriority) : option Scheduler :=
  if tid =? IRQ_TID then
    if in_irq_handler s then Some (set_in_irq s false) else None
  else
  let priority := prio priority in
  let! link := link_expect s (pid, tid) in
  let s := set_links s (delete (pid, tid) (links s)) in
  if decide (link_next link = (pid, tid)) then
    let! _ := queue_heads s !! priority in
    let s := set_heads s (<[priority := None]> (queue_heads s)) in
    if decide (priority = highest_ready_priority s) then
      let! highest := rposition_some (queue_heads s) priority in
      Some (set_highest s highest)
    else Some s
  else
    let! head := queue_heads s !! priority in
    let s := if decide (head = Some (pid, tid))
             then set_heads s (<[priority := Some (link_next link)]> (queue_heads s)) else s in
    let! s := link_update s (link_prev link) (with_next (link_next link)) in
    link_update s (link_next link) (with_prev (link_prev link)).

Definition yield_thread (s : Scheduler) (pid tid : Z) (priority : ThreadPriority) : option Scheduler :=
  let priority := prio priority in
  let! head := queue_heads s !! priority in
  if decide (head = Some (pid, tid)) then
    let! link := link_expect s (pid, tid) in
    Some (set_heads s (<[priority := Some (link_next link)]> (queue_heads s)))
  else Some s.

Definition record_cpu_usage (s : Scheduler) (ticks : Z) : Scheduler :=
  let i := Nat.modulo (cpu_usage_index s + 1) (length (cpu_usage s)) in
  mkScheduler (queue_heads s) (links s) (highest_ready_priority s) (in_irq_handler s)
    (<[i := (currently_measuring s, ticks)]> (cpu_usage s)) i (currently_measuring s).

(** What [activate_current] does to the processor: nothing, or activating a thread, after
    arming the preemption timer or, for the idle process, the free-running measurement. *)
Inductive activation : Type :=
| KeepCurrent
| ActivateThread (pid tid : Z) (measuring_idle : bool).

(** [usage] is what the timer reports ([cancel_preemption]); [None] is a panic. *)
Definition activate_current (s : Scheduler) (current : thread) (usage : Z)
    : option (Scheduler * activation) :=
  if in_irq_handler s then Some (s, KeepCurrent) else
  let! head := queue_heads s !! highest_ready_priority s in
  let! next := head in
  if decide (next = current) then Some (s, KeepCurrent) else
  let! last := cpu_usage s !! cpu_usage_index s in
  let s := if (1 <? usage) && negb (usage =? last.2) then record_cpu_usage s usage else s in
  Some (set_measuring s next.1, ActivateThread next.1 next.2 (next.1 =? 1)).

(** ** Circles of links *)

(** [chain L p l n]: the links of [l] lead from each thread to the next and back, with [p]
    before the first and [n] after the last. *)
Fixpoint chain (L : gmap thread SchedulerLink) (p : thread) (l : list thread) (n : thread) : Prop :=
  match l with
  | [] => True
  | x :: t => L !! x = Some (link_to (hd n t) p) /\ chain L x t n
  end.

Definition ring (L : gmap thread SchedulerLink) (l : list thread) : Prop :=
  chain L (List.last l (0, 0)) l (hd (0, 0) l).

Lemma link_to_next n p : link_next (link_to n p) = n.
Proof. by destruct n. Qed.
Lemma link_to_prev n p : link_prev (link_to n p) = p.
Proof. by destruct p. Qed.
Lemma with_next_to n p m : with_next m (link_to n p) = link_to m p.
Proof. done. Qed.
Lemma with_prev_to n p m : with_prev m (link_to n p) = link_to n m.
Proof. done. Qed.

Lemma last_cons {A} (x d d' : A) l : List.last (x :: l) d = List.last (x :: l) d'.
Proof. revert x. induction l as [|y l IH]; intros x; [done|]. apply (IH y). Qed.

Lemma last_app_r {A} (l1 l2 : list A) d : l2 <> [] -> List.last (l1 ++ l2) d = List.last l2 d.
Proof.
  intros Hne. induction l1 as [|x l1 IH]; [done|]. cbn. rewrite IH.
  destruct (l1 ++ l2) eqn:E; [|done]. by apply app_nil in E as [_ ->].
Qed.

Lemma chain_app L p l1 l2 n :
  l2 <> [] ->
  chain L p (l1 ++ l2) n
  <-> chain L p l1 (hd n l2) /\ chain L (List.last (p :: l1) p) l2 n.
Proof.
  intros Hne. revert p. induction l1 as [|x l1 IH]; intros p; cbn [app chain]; [tauto|].
  rewrite IH. change (List.last (p :: x :: l1) p) with (List.last (x :: l1) p).
  rewrite (last_cons x p x).
  assert (hd n (l1 ++ l2) = hd (hd n l2) l1) as -> by (by destruct l1, l2). tauto.
Qed.

(** A circle may be entered anywhere. *)
Lemma ring_rotate L l1 l2 : ring L (l1 ++ l2) <-> ring L (l2 ++ l1).
Proof.
  destruct l1 as [|x l1]; [by rewrite app_nil_r|]. destruct l2 as [|y l2]; [by rewrite app_nil_r|].
  unfold ring. rewrite !last_app_r, !chain_app by done. cbn [app hd].
  assert (forall (a b d : thread) l, List.last (a :: b :: l) d = List.last (b :: l) d) as E by done.
  rewrite !E, (last_cons x (List.last (y :: l2) _) (0, 0)), (last_cons y (List.last (x :: l1) _) (0, 0)).
  tauto.
Qed.

Lemma chain_frame L L' p l n :
  (forall x, x ∈ l -> L' !! x = L !! x) -> chain L p l n -> chain L' p l n.
Proof.
  revert p. induction l as [|x l IH]; intros p HL; [done|]. cbn. intros [Hx Hl]. split.
  - rewrite HL; [done|by left].
  - apply IH; [|done]. intros y Hy. apply HL. by right.
Qed.

Lemma ring_frame L L' l : (forall x, x ∈ l -> L' !! x = L !! x) -> ring L l -> ring L' l.
Proof. apply chain_frame. Qed.

(** Redirecting the last thread's successor. *)
Lemma chain_set_next L p l z n n' :
  NoDup (l ++ [z]) -> chain L p (l ++ [z]) n ->
  exists k, L !! z = Some k /\ chain (<[z := with_next n' k]> L) p (l ++ [z]) n'.
Proof.
  intros Hnd H. apply list.NoDup_app in Hnd as (_ & Hni & _).
  apply chain_app in H as [H1 [Hz _]]; [|done]. cbn [hd] in H1, Hz.
  eexists. split; [exact Hz|]. apply chain_app; [done|]. cbn [hd]. split.
  - eapply chain_frame; [|exact H1]. intros x Hx. apply lookup_insert_ne.
    intros ->. apply (Hni x Hx). by left.
  - split; [|done]. by rewrite lookup_insert_eq.
Qed.

(** Redirecting the first thread's predecessor. *)
Lemma chain_set_prev L p x l n p' :
  NoDup (x :: l) -> chain L p (x :: l) n ->
  exists k, L !! x = Some k /\ chain (<[x := with_prev p' k]> L) p' (x :: l) n.
Proof.
  intros Hnd [Hx Hl]. apply list.NoDup_cons in Hnd as [Hni _].
  eexists. split; [exact Hx|]. split; [by rewrite lookup_insert_eq|].
  eapply chain_frame; [|exact Hl]. intros y Hy. apply lookup_insert_ne. by intros ->.
Qed.

Lemma chain_lookup L p l n x :
  x ∈ l -> chain L p l n -> is_Some (L !! x).
Proof.
  revert p. induction l as [|y l IH]; intros p Hx; [by apply elem_of_nil in Hx|].
  cbn. intros [Hy Hl]. apply elem_of_cons in Hx as [->|Hx]; [by rewrite Hy|by eapply IH].
Qed.

Lemma app_last {A} (l : list A) d : l <> [] -> exists l', l = l' ++ [List.last l d].
Proof. intros Hne. exists (removelast l). by apply app_removelast_last. Qed.

(** [ready_thread]'s relinking: insert a thread before the head. *)
Lemma ring_push L h t x :
  NoDup (h :: t ++ [x]) -> ring L (h :: t) ->
  exists kh kz, L !! h = Some kh /\ link_prev kh ∈ h :: t
    /\ let L1 := <[h := with_prev x kh]> L in
       L1 !! link_prev kh = Some kz
       /\ ring (<[x := link_to h (link_prev kh)]> (<[link_prev kh := with_next x kz]> L1)) (h :: t ++ [x]).
Proof.
  intros Hnd Hr. change (h :: t ++ [x]) with ((h :: t) ++ [x]) in *.
  pose proof Hnd as Hnd'. apply list.NoDup_app in Hnd' as (Hl & Hni & _).
  unfold ring in Hr. cbn [hd] in Hr. set (z := List.last (h :: t) (0, 0)) in *.
  assert (L !! h = Some (link_to (hd h t) z)) as Hh by apply Hr.
  destruct (chain_set_prev L z h t h x Hl Hr) as (kh & Hkh & H1).
  assert (link_prev kh = z) as Hz by (replace kh with (link_to (hd h t) z) by congruence; apply link_to_prev).
  destruct (app_last (h :: t) (0, 0)) as [l' El]; [done|]. fold z in El.
  pose proof Hl as Hl'. rewrite El in Hl', H1. destruct (chain_set_next _ x l' z h x Hl' H1) as (kz & Hkz & H2).
  exists kh, kz. split; [done|]. rewrite Hz.
  split; [rewrite El; apply elem_of_app; right; by left|]. split; [done|].
  unfold ring. rewrite last_app_r by done. cbn [List.last]. change (hd (0,0) ((h :: t) ++ [x])) with h.
  apply chain_app; [done|]. cbn [hd]. split.
  - rewrite El. eapply chain_frame; [|exact H2]. intros y Hy. apply lookup_insert_ne.
    intros ->. rewrite <-El in Hy. apply (Hni y Hy). by left.
  - split; [|done]. cbn [hd]. rewrite lookup_insert_eq. do 2 f_equal.
    unfold z. change (List.last (x :: h :: t) x) with (List.last (h :: t) x). apply last_cons.
Qed.

(** [park_thread]'s relinking: take a thread out of a circle of at least two. *)
Lemma ring_remove L x y r :
  NoDup (x :: y :: r) -> ring L (x :: y :: r) ->
  exists k kp kn, L !! x = Some k /\ link_next k = y
    /\ let L1 := delete x L in
       L1 !! link_prev k = Some kp
       /\ let L2 := <[link_prev k := with_next y kp]> L1 in
          L2 !! y = Some kn /\ ring (<[y := with_prev (link_prev k) kn]> L2) (y :: r)
          /\ link_prev k ∈ y :: r.
Proof.
  intros Hnd Hr. unfold ring in Hr. cbn [hd] in Hr.
  change (List.last (x :: y :: r) (0, 0)) with (List.last (y :: r) (0, 0)) in Hr.
  set (z := List.last (y :: r) (0, 0)) in *. destruct Hr as [Hx Hl]. cbn [hd] in Hx.
  apply list.NoDup_cons in Hnd as [Hni Hnd].
  assert (chain (delete x L) x (y :: r) x) as H0.
  { eapply chain_frame; [|exact Hl]. intros w Hw. apply lookup_delete_ne. by intros ->. }
  destruct (app_last (y :: r) (0, 0)) as [l' El]; [done|]. fold z in El.
  pose proof Hnd as Hnd'. rewrite El in H0, Hnd'.
  destruct (chain_set_next _ x l' z x y Hnd' H0) as (kp & Hkp & H1).
  rewrite <-El in H1. destruct (chain_set_prev _ x y r y z Hnd H1) as (kn & Hkn & H2).
  exists (link_to y z), kp, kn. rewrite link_to_next, link_to_prev.
  assert (z ∈ y :: r) by (rewrite El; apply elem_of_app; right; by left).
  cbn zeta. split_and!; done.
Qed.

Lemma ring_single L x : ring L [x] <-> L !! x = Some (link_to x x).
Proof. unfold ring. cbn. tauto. Qed.

Lemma ring_link L x t : ring L (x :: t) ->
  exists k, L !! x = Some k /\ link_next k = hd x t.
Proof. intros [Hx _]. eexists. split; [exact Hx|]. apply link_to_next. Qed.

(** ** The queues *)

(** The abstract operations on the queues, one list per priority. *)
Definition spec_ready (qs : list (list thread)) (t : thread) (p : nat) : list (list thread) :=
  alter (fun l => l ++ [t]) p qs.
Definition spec_park (qs : list (list thread)) (t : thread) (p : nat) : list (list thread) :=
  alter (List.filter (fun u => negb (bool_decide (u = t)))) p qs.
Definition spec_yield (qs : list (list thread)) (t : thread) (p : nat) : list (list thread) :=
  alter (fun l => match l with
                  | [] => []
                  | h :: r => if decide (h = t) then r ++ [h] else l
                  end) p qs.

Definition rings (L : gmap thread SchedulerLink) (heads : list (option thread))
    (qs : list (list thread)) : Prop :=
  forall p l, qs !! p = Some l -> heads !! p = Some (head l) /\ ring L l.

(** [highest] is the highest priority with a ready thread, and 0 if no thread is ready. *)
Definition is_highest (qs : list (list thread)) (highest : nat) : Prop :=
  (highest < NUM_PRIORITIES)%nat
  /\ (forall p l, qs !! p = Some l -> l <> [] -> (p <= highest)%nat)
  /\ ((concat qs = [] /\ highest = 0%nat) \/ exists l, qs !! highest = Some l /\ l <> []).

Definition sched_repr (s : Scheduler) (qs : list (list thread)) : Prop :=
  length (queue_heads s) = NUM_PRIORITIES /\ length qs = NUM_PRIORITIES
  /\ NoDup (concat qs) /\ Forall (fun t => valid_thread t = true) (concat qs)
  /\ rings (links s) (queue_heads s) qs
  /\ (forall t, is_Some (links s !! t) -> t ∈ concat qs)
  /\ is_highest qs (highest_ready_priority s).

Lemma prio_lt p : (prio p < NUM_PRIORITIES)%nat.
Proof. unfold NUM_PRIORITIES. destruct p; vm_compute; lia. Qed.

(** Splitting one queue off: the threads of the others. *)
Lemma concat_split (qs : list (list thread)) p l :
  qs !! p = Some l ->
  exists rest, concat qs ≡ₚ l ++ rest /\ (forall l', concat (<[p := l']> qs) ≡ₚ l' ++ rest)
    /\ (forall q l2 t, q <> p -> qs !! q = Some l2 -> t ∈ l2 -> t ∈ rest).
Proof.
  intros Hp. pose proof (lookup_lt_Some _ _ _ Hp).
  exists (concat (take p qs) ++ concat (drop (S p) qs)). split_and!.
  - rewrite <-(take_drop_middle qs p l Hp) at 1. rewrite concat_app. cbn.
    by rewrite !app_assoc, (Permutation_app_comm (concat (take p qs)) l).
  - intros l'. rewrite insert_take_drop by done. rewrite concat_app. cbn.
    by rewrite !app_assoc, (Permutation_app_comm (concat (take p qs)) l').
  - intros q l2 t Hqp Hq Ht. apply list_elem_of_In, in_app_iff.
    rewrite !in_concat. destruct (decide (q < p)%nat).
    + left. exists l2. split; [|by apply list_elem_of_In]. apply list_elem_of_In.
      eapply (list_elem_of_lookup_2 _ q). by rewrite lookup_take_lt.
    + right. exists l2. split; [|by apply list_elem_of_In]. apply list_elem_of_In.
      eapply (list_elem_of_lookup_2 _ (q - S p)). rewrite lookup_drop. by replace (S p + (q - S p))%nat with q by lia.
Qed.

Lemma rings_update L L' heads qs p l l' (rest : list thread) :
  rings L heads qs -> qs !! p = Some l -> (p < length heads)%nat ->
  (forall q l2 t, q <> p -> qs !! q = Some l2 -> t ∈ l2 -> t ∈ rest) ->
  (forall t, t ∈ rest -> L' !! t = L !! t) -> ring L' l' ->
  rings L' (<[p := head l']> heads) (<[p := l']> qs).
Proof.
  intros Hr Hp Hlt Hrest Hframe Hl' q l2 Hq. pose proof (lookup_lt_Some _ _ _ Hp).
  destruct (decide (p = q)) as [<-|Hne].
  - rewrite list_lookup_insert_eq in Hq by done. simplify_eq.
    by rewrite list_lookup_insert_eq.
  - rewrite list_lookup_insert_ne in Hq by done. rewrite list_lookup_insert_ne by done. destruct (Hr q l2 Hq) as [Hh Hl2].
    split; [done|]. eapply ring_frame; [|exact Hl2]. intros t Ht. apply Hframe. by eapply Hrest.
Qed.

Lemma alter_insert {A} (f : A -> A) (l : list A) i x :
  l !! i = Some x -> alter f i l = <[i := f x]> l.
Proof. intros H. apply list_eq. intros j. destruct (decide (i = j)) as [<-|].
  - rewrite list_lookup_alter_eq, list_lookup_insert_eq, H by (by eapply lookup_lt_Some). done.
  - by rewrite list_lookup_alter_ne, list_lookup_insert_ne. Qed.

Lemma spec_ready_concat qs t p :
  (p < length qs)%nat -> concat (spec_ready qs t p) ≡ₚ t :: concat qs.
Proof.
  intros Hp. destruct (lookup_lt_is_Some_2 qs p Hp) as [l Hl].
  unfold spec_ready. rewrite (alter_insert _ _ _ _ Hl).
  destruct (concat_split qs p l Hl) as (rest & -> & H & _). rewrite H.
  by rewrite (Permutation_app_comm l [t]).
Qed.

Lemma head_app_cons {A} (h : A) t l : head ((h :: t) ++ l) = Some h.
Proof. done. Qed.

Lemma head_None {A} (l : list A) : head l = None <-> l = [].
Proof. by destruct l. Qed.

Lemma is_highest_ready qs t p h :
  (p < length qs)%nat -> length qs = NUM_PRIORITIES -> is_highest qs h ->
  is_highest (spec_ready qs t p) (Nat.max h p).
Proof.
  intros Hp Hlen (Hh & Hmax & Hne). unfold spec_ready.
  destruct (lookup_lt_is_Some_2 qs p Hp) as [l Hl]. rewrite (alter_insert _ _ _ _ Hl).
  split; [lia|]. split.
  - intros q l2 Hq Hl2. destruct (decide (p = q)) as [<-|]; [lia|].
    rewrite list_lookup_insert_ne in Hq by done. specialize (Hmax q l2 Hq Hl2). lia.
  - right. destruct (Nat.max_spec h p) as [[? ->]|[? ->]].
    + exists (l ++ [t]). rewrite list_lookup_insert_eq by done. split; [done|]. by destruct l.
    + destruct (decide (p = h)) as [<-|].
      * exists (l ++ [t]). rewrite list_lookup_insert_eq by done. split; [done|]. by destruct l.
      * destruct Hne as [[_ ->]|(l2 & Hl2 & ?)]; [lia|].
        exists l2. by rewrite list_lookup_insert_ne.
Qed.

Lemma link_expect_valid s t : valid_thread t = true -> link_expect s t = links s !! t.
Proof. intros Hv. unfold link_expect, link_copy. rewrite Hv. cbn. by destruct (links s !! t). Qed.

Lemma link_set_valid s t l :
  valid_thread t = true -> link_set s t l = Some (set_links s (<[t := l]> (links s))).
Proof. intros Hv. unfold link_set. by rewrite Hv. Qed.

(** [ready_thread] appends a thread that is not ready yet to the queue of its priority. *)
Lemma ready_thread_spec s qs pid tid priority :
  sched_repr s qs -> tid <> IRQ_TID -> valid_thread (pid, tid) = true -> (pid, tid) ∉ concat qs ->
  exists s', ready_thread s pid tid priority = Some s'
    /\ sched_repr s' (spec_ready qs (pid, tid) (prio priority))
    /\ in_irq_handler s' = in_irq_handler s.
Proof.
  intros (Hlh & Hlq & Hnd & Hval & Hr & Hdom & Hhi) Hirq Hv Hni. unfold ready_thread.
  replace (tid =? IRQ_TID) with false by lia.
  remember (pid, tid) as t eqn:Et. set (p := prio priority). pose proof (prio_lt priority) as Hp. fold p in Hp.
  destruct (lookup_lt_is_Some_2 qs p ltac:(lia)) as [l Hl]. destruct (Hr p l Hl) as [Hhead Hring].
  destruct (concat_split qs p l Hl) as (rest & Hperm & Hperm' & Hrest).
  rewrite Hhead.
  assert (links s !! t = None) as Hnone.
  { destruct (links s !! t) as [k|] eqn:E; [|done]. exfalso. apply Hni, Hdom. by eexists. }
  assert (t ∉ rest) as Htrest by (rewrite Hperm in Hni; set_solver).
  assert (NoDup (l ++ rest)) as Hnd2 by (by rewrite <-Hperm).
  apply list.NoDup_app in Hnd2 as (Hndl & Hdisj & _).
  pose proof (spec_ready_concat qs t p ltac:(lia)) as Hcat.
  pose proof (is_highest_ready qs t p _ ltac:(lia) Hlq Hhi) as Hhi'.
  assert (forall s', (forall u, is_Some (links s' !! u) -> u = t \/ is_Some (links s !! u)) ->
    length (queue_heads s') = NUM_PRIORITIES ->
    rings (links s') (queue_heads s') (spec_ready qs t p) ->
    highest_ready_priority s' = Nat.max (highest_ready_priority s) p ->
    sched_repr s' (spec_ready qs t p)) as Hfinish.
  { intros s' Hd Hlen Hrings Hh. split_and!; try done.
    - unfold spec_ready. by rewrite length_alter.
    - rewrite Hcat. by constructor.
    - rewrite Hcat. by constructor.
    - intros u Hu. rewrite Hcat. destruct (Hd u Hu) as [->|Hu']; [by left|right; by apply Hdom].
    - by rewrite Hh. }
  clear Hcat Hhi'. unfold spec_ready in *. rewrite (alter_insert _ _ _ _ Hl) in *.
  destruct l as [|h r]; cbn [head].
  - unfold link_set. rewrite Hv. eexists. split; [done|]. split; [|by case_decide].
    apply Hfinish; cbn.
    + intros u. case_decide; cbn; rewrite lookup_insert_is_Some; intros [->|[_ ?]]; auto.
    + case_decide; cbn; by rewrite length_insert.
    + assert (rings (<[t := link_to t t]> (links s)) (<[p := Some t]> (queue_heads s)) (<[p := [t]]> qs)).
      { eapply (rings_update (links s) _ _ _ _ [] [t] rest); try done; [lia| |by rewrite ring_single, lookup_insert_eq].
        intros u Hu. apply lookup_insert_ne. by intros ->. }
      by case_decide.
    + case_decide; cbn; lia.
  - unfold link_copy. rewrite Hv, Hnone.
    assert (NoDup (h :: r ++ [t])) as Hnd3.
    { change (h :: r ++ [t]) with ((h :: r) ++ [t]). apply list.NoDup_app. split; [done|].
      split; [|apply NoDup_singleton]. intros u Hu ->%list_elem_of_singleton.
      apply Hni. rewrite Hperm. apply elem_of_app. by left. }
    destruct (ring_push _ h r t Hnd3 Hring) as (kh & kz & Hkh & Hz & Hkz & Hring').
    assert (forall u, u ∈ concat qs -> valid_thread u = true) as Hval'
      by (by apply list.Forall_forall).
    assert (valid_thread h = true) as Hvh by (apply Hval'; rewrite Hperm; by left).
    assert (valid_thread (link_prev kh) = true) as Hvz
      by (apply Hval'; rewrite Hperm; apply elem_of_app; by left).
    rewrite (link_expect_valid s h Hvh), Hkh. cbn [mjoin option_join].
    rewrite (link_set_valid s h _ Hvh). unfold link_update.
    rewrite link_expect_valid by done. cbn [links set_links]. rewrite Hkz.
    rewrite !link_set_valid by done. eexists. split; [done|]. split; [|done].
    cbn [links set_links] in *.
    assert (forall u, u ∈ rest -> u <> t /\ u <> h /\ u <> link_prev kh) as Hfr.
    { intros u Hu. split_and!; intros ->; [done| |exact (Hdisj _ Hz Hu)].
      refine (Hdisj h _ Hu). by left. }
    apply Hfinish; cbn [links set_links queue_heads highest_ready_priority].
    + intros u. rewrite !lookup_insert_is_Some'.
      intros [<-|[<-|[<-|?]]]; auto; right.
      exact (chain_lookup _ _ _ _ _ Hz Hring).
    + done.
    + rewrite <-(list_insert_id (queue_heads s) p (Some h)) by done.
      change (Some h) with (head ((h :: r) ++ [t])).
      eapply (rings_update (links s) _ _ _ _ (h :: r) ((h :: r) ++ [t]) rest); try done; [lia|].
      intros u Hu. destruct (Hfr u Hu) as (? & ? & ?). by rewrite !lookup_insert_ne.
    + assert (p <= highest_ready_priority s)%nat by (by eapply Hhi). lia.
Qed.

(** *** Taking a thread out *)

Lemma rposition_some_spec heads n :
  match rposition_some heads n with
  | Some h => (h < n)%nat /\ (exists t, heads !! h = Some (Some t))
      /\ (forall q t, (h < q < n)%nat -> heads !! q <> Some (Some t))
  | None => forall q t, (q < n)%nat -> heads !! q <> Some (Some t)
  end.
Proof.
  induction n as [|n IH]; cbn; [intros; lia|].
  destruct (heads !! n) as [[t|]|] eqn:E.
  - split_and!; [lia|by exists t|]. intros q u Hq. lia.
  - destruct (rposition_some heads n) as [h|].
    + destruct IH as (? & ? & Hno). split_and!; [lia|done|]. intros q u Hq.
      destruct (decide (q = n)) as [->|]; [congruence|apply Hno; lia].
    + intros q u Hq. destruct (decide (q = n)) as [->|]; [congruence|apply IH; lia].
  - destruct (rposition_some heads n) as [h|].
    + destruct IH as (? & ? & Hno). split_and!; [lia|done|]. intros q u Hq.
      destruct (decide (q = n)) as [->|]; [congruence|apply Hno; lia].
    + intros q u Hq. destruct (decide (q = n)) as [->|]; [congruence|apply IH; lia].
Qed.

Lemma filter_remove (l1 l2 : list thread) x :
  NoDup (l1 ++ x :: l2) ->
  List.filter (fun u => negb (bool_decide (u = x))) (l1 ++ x :: l2) = l1 ++ l2.
Proof.
  intros Hnd. apply list.NoDup_app in Hnd as (_ & Hd & Hnd).
  apply list.NoDup_cons in Hnd as [Hni _]. rewrite List.filter_app. cbn.
  rewrite bool_decide_eq_true_2 by done. cbn.
  assert (forall l, x ∉ l -> List.filter (fun u => negb (bool_decide (u = x))) l = l) as Hid.
  { induction l as [|y l IH]; [done|]. intros Hx. apply not_elem_of_cons in Hx as [? ?].
    cbn. rewrite bool_decide_eq_false_2 by done. cbn. by rewrite IH. }
  rewrite !Hid; [done|done|]. intros Hx. apply (Hd x Hx). by left.
Qed.

Lemma concat_nil_iff (qs : list (list thread)) :
  concat qs = [] <-> forall p l, qs !! p = Some l -> l = [].
Proof.
  split.
  - intros H p l Hp. destruct (concat_split qs p l Hp) as (rest & E & _). rewrite H in E.
    apply Permutation_nil_l in E. symmetry in E. by apply app_nil in E as [? _].
  - induction qs as [|l qs IH]; intros H; [done|]. cbn. rewrite (H 0%nat l eq_refl). cbn.
    apply IH. intros p l' Hp. by apply (H (S p)).
Qed.

(** The threads left when one is removed, and what their links must be. *)
Lemma repr_removed s qs t p l1 l2 s' h :
  sched_repr s qs -> qs !! p = Some (l1 ++ t :: l2) ->
  links s' !! t = None -> (forall u, is_Some (links s' !! u) -> is_Some (links s !! u)) ->
  (forall u, u ∉ l1 ++ t :: l2 -> links s' !! u = links s !! u) ->
  ring (links s') (l1 ++ l2) ->
  queue_heads s' = <[p := head (l1 ++ l2)]> (queue_heads s) ->
  highest_ready_priority s' = h -> is_highest (<[p := l1 ++ l2]> qs) h ->
  sched_repr s' (<[p := l1 ++ l2]> qs).
Proof.
  intros (Hlh & Hlq & Hnd & Hval & Hr & Hdom & Hhi) Hl Hnone Hd Hfr Hring Hheads Hh Hhi'.
  pose proof (lookup_lt_Some _ _ _ Hl).
  destruct (concat_split qs p _ Hl) as (rest & Hperm & Hperm' & Hrest).
  assert (concat qs ≡ₚ t :: concat (<[p := l1 ++ l2]> qs)) as Hcat.
  { rewrite Hperm, Hperm', <-Permutation_middle. done. }
  rewrite Hcat in Hnd, Hval. apply list.NoDup_cons in Hnd as [Hni Hnd].
  apply list.Forall_cons in Hval as [_ Hval].
  split_and!; try done.
  - by rewrite Hheads, length_insert.
  - by rewrite length_insert.
  - rewrite Hheads. eapply rings_update; try done; [lia|]. intros u Hu. apply Hfr.
    assert (NoDup (rest ++ (l1 ++ t :: l2))) as Hnd2.
    { rewrite (Permutation_app_comm rest), <-Hperm, Hcat. by constructor. }
    apply list.NoDup_app in Hnd2 as (_ & Hd2 & _). by apply Hd2.
  - intros u Hu. specialize (Hdom u (Hd u Hu)). rewrite Hcat in Hdom.
    apply elem_of_cons in Hdom as [->|?]; [|done]. rewrite Hnone in Hu. by destruct Hu.
  - by rewrite Hh.
Qed.

Lemma is_highest_removed qs p l l' h :
  is_highest qs h -> qs !! p = Some l -> (l' = [] -> p <> h) -> l <> [] ->
  is_highest (<[p := l']> qs) h.
Proof.
  intros (Hh & Hmax & Hne) Hl Hp Hlne. pose proof (lookup_lt_Some _ _ _ Hl).
  split; [done|]. split.
  - intros q l2 Hq Hl2. destruct (decide (p = q)) as [<-|]; [by eapply Hmax|].
    rewrite list_lookup_insert_ne in Hq by done. by eapply Hmax.
  - right. destruct Hne as [[Hnil _]|(l2 & Hl2 & ?)].
    { rewrite concat_nil_iff in Hnil. by rewrite (Hnil _ _ Hl) in Hlne. }
    destruct (decide (p = h)) as [<-|]; [|by exists l2; rewrite list_lookup_insert_ne].
    exists l'. rewrite list_lookup_insert_eq by done. split; [done|]. intros ->. by apply Hp.
Qed.

Lemma is_highest_fallback qs heads p :
  is_highest qs p -> (forall q l, (q < p)%nat -> qs !! q = Some l -> heads !! q = Some (head l)) ->
  (p < length qs)%nat ->
  match rposition_some heads p with
  | Some h => is_highest (<[p := []]> qs) h /\ concat (<[p := []]> qs) <> []
  | None => concat (<[p := []]> qs) = []
  end.
Proof.
  intros (Hh & Hmax & _) Hheads Hp. pose proof (rposition_some_spec heads p) as H.
  destruct (rposition_some heads p) as [h|].
  - destruct H as (Hlt & (t & Ht) & Hno).
    destruct (lookup_lt_is_Some_2 qs h ltac:(lia)) as [l Hl].
    pose proof (Hheads h l Hlt Hl) as Hhl. rewrite Ht in Hhl. injection Hhl as Hhl.
    assert (<[p := []]> qs !! h = Some l) as Hl' by (by rewrite list_lookup_insert_ne by lia).
    assert (l <> []) by (by destruct l).
    split; [|by rewrite concat_nil_iff; intros G; specialize (G h l Hl')].
    split; [lia|]. split; [|right; by exists l].
    intros q l2 Hq Hl2. destruct (decide (p = q)) as [<-|].
    { rewrite list_lookup_insert_eq in Hq by done. congruence. }
    rewrite list_lookup_insert_ne in Hq by done. pose proof (Hmax q l2 Hq Hl2).
    destruct (decide (q <= h)%nat); [done|exfalso]. destruct l2 as [|u l2]; [done|].
    apply (Hno q u); [lia|]. rewrite (Hheads q (u :: l2)) by (done || lia). done.
  - rewrite concat_nil_iff. intros q l Hq. destruct (decide (p = q)) as [<-|].
    { rewrite list_lookup_insert_eq in Hq by done. congruence. }
    rewrite list_lookup_insert_ne in Hq by done. destruct l as [|u l]; [done|exfalso].
    pose proof (Hmax q _ Hq ltac:(done)). apply (H q u); [lia|].
    rewrite (Hheads q (u :: l)) by (done || lia). done.
Qed.

(** Parking the only thread of a priority. *)
Lemma park_single s qs t priority :
  sched_repr s qs -> t.2 <> IRQ_TID -> qs !! prio priority = Some [t] -> valid_thread t = true ->
  match park_thread s t.1 t.2 priority with
  | Some s' => sched_repr s' (<[prio priority := []]> qs)
      /\ concat (<[prio priority := []]> qs) <> [] /\ in_irq_handler s' = in_irq_handler s
  | None => concat (<[prio priority := []]> qs) = []
  end.
Proof.
  intros Hrepr Hirq Hl Hv. pose proof Hrepr as (Hlh & Hlq & _ & _ & Hr & _ & Hhi).
  unfold park_thread. replace (t.2 =? IRQ_TID) with false by lia. rewrite <-surjective_pairing.
  set (p := prio priority) in *. pose proof (lookup_lt_Some _ _ _ Hl) as Hp.
  destruct (Hr p _ Hl) as [Hhead Hring]. apply ring_single in Hring.
  rewrite link_expect_valid, Hring, link_to_next, decide_True by done.
  cbn [queue_heads set_links]. rewrite Hhead. cbn [highest_ready_priority set_heads set_links].
  assert (forall s' h, links s' = delete t (links s) ->
    queue_heads s' = <[p := None]> (queue_heads s) -> highest_ready_priority s' = h ->
    is_highest (<[p := []]> qs) h -> sched_repr s' (<[p := []]> qs)) as Hfin.
  { intros s' h EL EH Eh Hh. eapply (repr_removed s qs t p [] [] s'); try done; rewrite EL.
    - apply lookup_delete_eq.
    - intros u [k Hk]. apply lookup_delete_Some in Hk as [_ Hk]. by eexists.
    - intros u Hu. apply lookup_delete_ne. intros ->. apply Hu. by left. }
  case_decide as Eh.
  - rewrite <-Eh in Hhi. cbn [queue_heads].
    pose proof (is_highest_fallback qs (<[p := None]> (queue_heads s)) p Hhi) as Hf.
    assert (forall q l, (q < p)%nat -> qs !! q = Some l ->
      <[p := None]> (queue_heads s) !! q = Some (head l)) as Hheads.
    { intros q l Hq Hl'. rewrite list_lookup_insert_ne by lia. by apply Hr. }
    specialize (Hf Hheads Hp). destruct (rposition_some _ _) as [h|]; [|done].
    destruct Hf as [Hf ?]. split_and!; try done. by eapply Hfin.
  - assert (is_highest (<[p := []]> qs) (highest_ready_priority s)) as Hh
      by (by eapply is_highest_removed).
    split_and!; [by eapply Hfin| |done]. destruct Hh as (_ & _ & [[H0 H1]|(l & Hl' & Hne)]).
    + exfalso. destruct Hhi as (_ & Hmax & _). specialize (Hmax p [t] Hl ltac:(done)). lia.
    + rewrite concat_nil_iff. intros G. by apply Hne, (G (highest_ready_priority s)).
Qed.

(** Parking a thread while others of its priority are ready. *)
Lemma park_many s qs t priority l1 l2 :
  sched_repr s qs -> t.2 <> IRQ_TID -> qs !! prio priority = Some (l1 ++ t :: l2) ->
  NoDup (l1 ++ t :: l2) -> (forall u, u ∈ l1 ++ t :: l2 -> valid_thread u = true) ->
  l1 ++ l2 <> [] ->
  exists s', park_thread s t.1 t.2 priority = Some s'
    /\ sched_repr s' (<[prio priority := l1 ++ l2]> qs) /\ in_irq_handler s' = in_irq_handler s.
Proof.
  intros Hrepr Hirq Hl Hnd Hval Hne. pose proof Hrepr as (Hlh & Hlq & _ & _ & Hr & _ & Hhi).
  unfold park_thread. replace (t.2 =? IRQ_TID) with false by lia. rewrite <-surjective_pairing.
  set (p := prio priority) in *. pose proof (lookup_lt_Some _ _ _ Hl) as Hp.
  destruct (Hr p _ Hl) as [Hhead Hring].
  apply ring_rotate in Hring. cbn [app] in Hring.
  assert (NoDup (t :: l2 ++ l1)) as Hnd' by (by rewrite (Permutation_app_comm l2), Permutation_middle).
  destruct (l2 ++ l1) as [|y r] eqn:E21; [by apply app_nil in E21 as [-> ->]|].
  destruct (ring_remove _ t y r Hnd' Hring) as (k & kp & kn & Hk & Hy & Hkp & Hkn & Hring' & Hin).
  assert (forall u, u ∈ y :: r -> u ∈ l1 ++ t :: l2) as Hsub.
  { intros u. rewrite <-E21, !elem_of_app, elem_of_cons. tauto. }
  rewrite link_expect_valid, Hk by (apply Hval, elem_of_app; right; by left).
  apply list.NoDup_cons in Hnd' as [Htni _].
  rewrite decide_False by (rewrite Hy; intros ->; apply Htni; by left).
  cbn [queue_heads set_links]. rewrite Hhead.
  set (s1 := if decide _ then _ else _).
  assert (links s1 = delete t (links s)) as EL by (unfold s1; by case_decide).
  unfold link_update. rewrite link_expect_valid, EL, Hkp by (by apply Hval, Hsub).
  rewrite link_set_valid by (by apply Hval, Hsub).
  rewrite link_expect_valid by (apply Hval, Hsub; rewrite Hy; by left).
  cbn [links set_links]. rewrite EL, Hy, Hkn.
  rewrite link_set_valid by (apply Hval, Hsub; by left).
  eexists. split; [done|]. split; [|by unfold s1; case_decide].
  cbn [links set_links].
  eapply (repr_removed s qs t p l1 l2); try done; cbn [links set_links queue_heads highest_ready_priority].
  - rewrite !lookup_insert_ne; [apply lookup_delete_eq| |]; intros <-; apply Htni; [done|by left].
  - intros u. rewrite !lookup_insert_is_Some'. intros [<-|[<-|Hu]].
    + eapply chain_lookup; [|exact Hring]. right. by left.
    + eapply chain_lookup; [|exact Hring]. right. done.
    + destruct Hu as [ku Hu]. apply lookup_delete_Some in Hu as [_ Hu]. by eexists.
  - intros u Hu. rewrite !lookup_insert_ne; [apply lookup_delete_ne| |]; intros <-; apply Hu.
    + apply elem_of_app. right. by left.
    + by apply Hsub.
    + apply Hsub. by left.
  - rewrite ring_rotate, E21. done.
  - unfold s1. destruct l1 as [|h l1]; cbn [head app].
    + rewrite decide_True by done. cbn. rewrite app_nil_r in E21. subst l2. by rewrite Hy.
    + rewrite decide_False.
      * cbn. by rewrite list_insert_id.
      * intros [= ->]. apply list.NoDup_cons in Hnd as [Hni _]. apply Hni, elem_of_app. right. by left.
  - replace (highest_ready_priority s1) with (highest_ready_priority s) by (unfold s1; by case_decide).
    eapply is_highest_removed; [done|done| |]; [done|by destruct l1].
Qed.

(** [park_thread] removes a ready thread from the queue of its priority; it panics exactly
    when no ready thread is left. *)
Lemma park_thread_spec s qs pid tid priority l :
  sched_repr s qs -> tid <> IRQ_TID -> qs !! prio priority = Some l -> (pid, tid) ∈ l ->
  match park_thread s pid tid priority with
  | Some s' => sched_repr s' (spec_park qs (pid, tid) (prio priority))
      /\ concat (spec_park qs (pid, tid) (prio priority)) <> []
      /\ in_irq_handler s' = in_irq_handler s
  | None => concat (spec_park qs (pid, tid) (prio priority)) = []
  end.
Proof.
  intros Hrepr Hirq Hl Ht. pose proof Hrepr as (_ & _ & Hnd & Hval & _).
  destruct (concat_split qs _ l Hl) as (rest & Hperm & _).
  assert (NoDup l) as Hndl by (rewrite Hperm in Hnd; by apply list.NoDup_app in Hnd as (? & _)).
  assert (forall u, u ∈ l -> valid_thread u = true) as Hval'.
  { rewrite Hperm in Hval. intros u Hu. eapply list.Forall_forall in Hval; [done|].
    apply elem_of_app. by left. }
  pose proof (lookup_lt_Some _ _ _ Hl). apply list_elem_of_split in Ht as (l1 & l2 & ->).
  unfold spec_park. rewrite (alter_insert _ _ _ _ Hl), filter_remove by done.
  change pid with (pid, tid).1. change tid with (pid, tid).2 at 2.
  destruct (decide (l1 ++ l2 = [])) as [E|Hne].
  - rewrite E. apply app_nil in E as [-> ->]. apply park_single; try done. apply Hval'. by left.
  - destruct (park_many s qs (pid, tid) priority l1 l2 Hrepr Hirq Hl Hndl Hval' Hne)
      as (s' & -> & H1 & H2).
    split_and!; try done. rewrite concat_nil_iff. intros G. apply Hne, (G (prio priority)).
    by rewrite list_lookup_insert_eq.
Qed.

(** *** Yielding and activating *)

Lemma is_highest_rotated qs p l l' h :
  is_highest qs h -> qs !! p = Some l -> (l' = [] <-> l = []) -> is_highest (<[p := l']> qs) h.
Proof.
  intros (Hh & Hmax & Hne) Hl Hiff. pose proof (lookup_lt_Some _ _ _ Hl).
  split; [done|]. split.
  - intros q l2 Hq Hl2. destruct (decide (p = q)) as [<-|].
    + rewrite list_lookup_insert_eq in Hq by done. apply (Hmax p l Hl). intros ->. simplify_eq. by rewrite (proj2 Hiff) in Hl2.
    + rewrite list_lookup_insert_ne in Hq by done. by eapply Hmax.
  - destruct Hne as [[Hnil ->]|(l2 & Hl2 & Hne)].
    + left. split; [|done]. rewrite concat_nil_iff in Hnil |- *. intros q l2 Hq.
      destruct (decide (p = q)) as [<-|].
      * rewrite list_lookup_insert_eq in Hq by done. simplify_eq. by apply Hiff, (Hnil p).
      * rewrite list_lookup_insert_ne in Hq by done. by eapply Hnil.
    + right. destruct (decide (p = h)) as [<-|].
      * exists l'. rewrite list_lookup_insert_eq by done. simplify_eq. split; [done|]. by intros ->%Hiff.
      * exists l2. by rewrite list_lookup_insert_ne.
Qed.

(** Replacing a queue by one of its rotations, the links being unchanged. *)
Lemma repr_rotated s qs p l1 l2 :
  sched_repr s qs -> qs !! p = Some (l1 ++ l2) ->
  sched_repr (set_heads s (<[p := head (l2 ++ l1)]> (queue_heads s))) (<[p := l2 ++ l1]> qs).
Proof.
  intros (Hlh & Hlq & Hnd & Hval & Hr & Hdom & Hhi) Hl. pose proof (lookup_lt_Some _ _ _ Hl).
  destruct (concat_split qs p _ Hl) as (rest & Hperm & Hperm' & Hrest).
  assert (concat (<[p := l2 ++ l1]> qs) ≡ₚ concat qs) as Hcat.
  { rewrite Hperm, Hperm'. by rewrite (Permutation_app_comm l1). }
  split_and!; cbn; rewrite ?length_insert, ?Hcat; try done.
  - eapply rings_update; try done; [lia|]. apply ring_rotate. by apply Hr in Hl as [_ ?].
  - intros u Hu. rewrite Hcat. by apply Hdom.
  - eapply is_highest_rotated; [done|done|]. split; intros E; apply app_nil in E as [-> ->]; done.
Qed.

(** [yield_thread] moves the head of a queue to its end, and ignores any other thread. *)
Lemma yield_thread_spec s qs pid tid priority :
  sched_repr s qs ->
  exists s', yield_thread s pid tid priority = Some s'
    /\ sched_repr s' (spec_yield qs (pid, tid) (prio priority))
    /\ in_irq_handler s' = in_irq_handler s.
Proof.
  intros Hrepr. pose proof Hrepr as (Hlh & Hlq & _ & Hval & Hr & _ & _). unfold yield_thread, spec_yield.
  pose proof (prio_lt priority) as Hp. set (p := prio priority) in *.
  destruct (lookup_lt_is_Some_2 qs p ltac:(lia)) as [l Hl]. destruct (Hr p l Hl) as [Hhead Hring].
  rewrite Hhead, (alter_insert _ _ _ _ Hl). destruct l as [|h r]; cbn [head].
  - rewrite decide_False by done. exists s. split; [done|]. by rewrite list_insert_id.
  - destruct (decide (h = (pid, tid))) as [->|Hne].
    + rewrite decide_True by done.
      destruct (concat_split qs p _ Hl) as (rest & Hperm & _). rewrite Hperm in Hval.
      apply list.Forall_cons in Hval as [Hv _]. rewrite link_expect_valid by done.
      destruct (ring_link _ _ _ Hring) as (k & -> & Hnext).
      eexists. split; [done|]. split; [|done].
      replace (Some (link_next k)) with (head (r ++ [(pid, tid)])) by (rewrite Hnext; by destruct r).
      by apply (repr_rotated s qs p [(pid, tid)] r).
    + rewrite decide_False by congruence. exists s. split; [done|]. by rewrite list_insert_id.
Qed.

Definition wf_cpu_usage (s : Scheduler) : Prop := (cpu_usage_index s < length (cpu_usage s))%nat.

(** [activate_current] never panics while a thread is ready: outside of an interrupt handler
    it activates the head of the highest non-empty queue, unless it is running already; the
    queues are unchanged. *)
Lemma activate_current_spec s qs current usage :
  sched_repr s qs -> wf_cpu_usage s -> concat qs <> [] ->
  exists s' a, activate_current s current usage = Some (s', a)
    /\ sched_repr s' qs /\ wf_cpu_usage s' /\ in_irq_handler s' = in_irq_handler s /\
    if in_irq_handler s then s' = s /\ a = KeepCurrent
    else exists p t l, qs !! p = Some (t :: l)
      /\ (forall q lq, (p < q)%nat -> qs !! q = Some lq -> lq = [])
      /\ a = if decide (t = current) then KeepCurrent else ActivateThread t.1 t.2 (t.1 =? 1).
Proof.
  intros Hrepr Hcpu Hne. pose proof Hrepr as (Hlh & Hlq & _ & _ & Hr & _ & (Hh & Hmax & Hhi)).
  unfold activate_current. destruct (in_irq_handler s) eqn:Eirq; [by eexists _, _|].
  destruct Hhi as [[? _]|(l & Hl & Hlne)]; [done|]. destruct l as [|t l]; [done|].
  destruct (Hr _ _ Hl) as [-> _]. cbn [head].
  assert (forall q lq, (highest_ready_priority s < q)%nat -> qs !! q = Some lq -> lq = []) as Habove.
  { intros q lq Hq Hlq'. destruct lq as [|u lq]; [done|]. specialize (Hmax q _ Hlq' ltac:(done)). lia. }
  case_decide as Et.
  - eexists _, _. split; [done|]. split_and!; try done. exists (highest_ready_priority s), t, l.
    by rewrite decide_True.
  - destruct (lookup_lt_is_Some_2 (cpu_usage s) (cpu_usage_index s) Hcpu) as [m ->].
    eexists _, _. split; [done|]. split; [|split; [|split]].
    + destruct Hrepr as (? & ? & ? & ? & ? & ? & ?). by destruct (_ && _).
    + destruct (_ && _); [|done]. unfold wf_cpu_usage in *. cbn. rewrite length_insert.
      apply Nat.mod_upper_bound. lia.
    + by destruct (_ && _).
    + exists (highest_ready_priority s), t, l. by rewrite decide_False.
Qed.

(** ** Histories *)

Inductive sched_op : Type :=
| OpReady (pid tid : Z) (priority : ThreadPriority)
| OpPark (pid tid : Z) (priority : ThreadPriority)
| OpYield (pid tid : Z) (priority : ThreadPriority).

Definition sched_step (s : Scheduler) (o : sched_op) : option Scheduler :=
  match o with
  | OpReady pid tid p => ready_thread s pid tid p
  | OpPark pid tid p => park_thread s pid tid p
  | OpYield pid tid p => yield_thread s pid tid p
  end.
Fixpoint sched_run (s : Scheduler) (ops : list sched_op) : option Scheduler :=
  match ops with
  | [] => Some s
  | o :: ops => let! s := sched_step s o in sched_run s ops
  end.

Definition spec_step (qs : list (list thread)) (o : sched_op) : list (list thread) :=
  match o with
  | OpReady pid tid p => spec_ready qs (pid, tid) (prio p)
  | OpPark pid tid p => spec_park qs (pid, tid) (prio p)
  | OpYield pid tid p => spec_yield qs (pid, tid) (prio p)
  end.

(** The discipline of [Process::set_thread_state]: only a thread that is not ready is made
    ready, only a ready thread is parked, with the priority it is queued at, and the idle
    thread keeps the queues from all being empty. *)
Definition allowed (qs : list (list thread)) (o : sched_op) : Prop :=
  match o with
  | OpReady pid tid p =>
      tid <> IRQ_TID /\ valid_thread (pid, tid) = true /\ (pid, tid) ∉ concat qs
  | OpPark pid tid p =>
      tid <> IRQ_TID /\ (exists l, qs !! prio p = Some l /\ (pid, tid) ∈ l)
      /\ concat (spec_park qs (pid, tid) (prio p)) <> []
  | OpYield _ _ _ => True
  end.
Fixpoint allowed_all (qs : list (list thread)) (ops : list sched_op) : Prop :=
  match ops with
  | [] => True
  | o :: ops => allowed qs o /\ allowed_all (spec_step qs o) ops
  end.

Lemma sched_step_refines s qs o :
  sched_repr s qs -> allowed qs o ->
  exists s', sched_step s o = Some s' /\ sched_repr s' (spec_step qs o).
Proof.
  intros Hs Ho. destruct o as [pid tid p|pid tid p|pid tid p]; cbn in *.
  - destruct Ho as (? & ? & ?). destruct (ready_thread_spec s qs pid tid p) as (s' & ? & ? & _); eauto.
  - destruct Ho as (? & (l & Hl & Ht) & Hne).
    pose proof (park_thread_spec s qs pid tid p l Hs) as Hpark.
    destruct (park_thread s pid tid p) as [s'|]; [|by destruct Hne; apply Hpark].
    exists s'. split; [done|]. by apply Hpark.
  - destruct (yield_thread_spec s qs pid tid p Hs) as (s' & ? & ? & _). by exists s'.
Qed.

Lemma sched_run_repr s qs ops :
  sched_repr s qs -> allowed_all qs ops ->
  exists s', sched_run s ops = Some s' /\ sched_repr s' (fold_left spec_step ops qs).
Proof.
  revert s qs. induction ops as [|o ops IH]; intros s qs Hs Hops; [by exists s|].
  destruct Hops as [Ho Hops]. destruct (sched_step_refines s qs o Hs Ho) as (s1 & E & Hs1).
  destruct (IH s1 _ Hs1 Hops) as (s2 & E2 & Hs2). exists s2. by cbn; rewrite E.
Qed.

(** The queue operations do not touch the record of processor usage. *)
Lemma sched_step_cpu s o s' :
  sched_step s o = Some s' -> wf_cpu_usage s -> wf_cpu_usage s'.
Proof.
  unfold wf_cpu_usage. destruct o; cbn; unfold ready_thread, park_thread, yield_thread, link_update, link_set;
    intros E; repeat case_match; simplify_eq; by cbn.
Qed.
Lemma sched_run_cpu s ops s' :
  sched_run s ops = Some s' -> wf_cpu_usage s -> wf_cpu_usage s'.
Proof.
  revert s. induction ops as [|o ops IH]; intros s E Hs; cbn in E; [by simplify_eq|].
  destruct (sched_step s o) as [s1|] eqn:E1; [|done]. eauto using sched_step_cpu.
Qed.

(** C20: The scheduler refines its queues: every history that follows the discipline runs without
    a panic and ends in a state that represents the queues the abstract operations compute. *)
Theorem scheduler_refines s qs ops :
  sched_repr s qs -> allowed_all qs ops ->
  exists s', sched_run s ops = Some s' /\ sched_repr s' (fold_left spec_step ops qs).
Proof.
  apply sched_run_repr.
Qed.

(** *** Waiting *)

Definition op_thread (o : sched_op) : thread :=
  match o with OpReady pid tid _ | OpPark pid tid _ | OpYield pid tid _ => (pid, tid) end.

(** The operation ends the turn of the head of queue [p]: it parks it or it yields. *)
Definition ends_turn (p : nat) (qs : list (list thread)) (o : sched_op) : nat :=
  match o with
  | OpReady _ _ _ => 0
  | OpPark pid tid priority | OpYield pid tid priority =>
      if decide (prio priority = p /\ (qs !! p ≫= head) = Some (pid, tid)) then 1 else 0
  end.
Fixpoint turns (p : nat) (qs : list (list thread)) (ops : list sched_op) : nat :=
  match ops with
  | [] => 0
  | o :: ops => ends_turn p qs o + turns p (spec_step qs o) ops
  end.

Lemma lookup_alter_cases {A} (f : A -> A) (l : list A) p q x :
  l !! p = Some x -> alter f q l !! p = Some (if decide (q = p) then f x else x).
Proof.
  intros Hx. case_decide as E; [subst; by rewrite list_lookup_alter_eq, Hx|].
  by rewrite list_lookup_alter_ne.
Qed.

Lemma wait_step qs p l i t o :
  NoDup (concat qs) -> allowed qs o -> qs !! p = Some l -> l !! i = Some t -> op_thread o <> t ->
  exists l' i', spec_step qs o !! p = Some l' /\ l' !! i' = Some t /\ (i' + ends_turn p qs o <= i)%nat.
Proof.
  intros Hnd Ho Hl Hi Hne. destruct (concat_split qs p l Hl) as (rest & Hperm & _).
  rewrite Hperm in Hnd. apply list.NoDup_app in Hnd as (Hnd & _).
  destruct o as [pid tid priority|pid tid priority|pid tid priority]; cbn in *;
    unfold spec_ready, spec_park, spec_yield; rewrite (lookup_alter_cases _ _ _ _ _ Hl), ?Hl.
  - eexists _, i. split; [done|]. split; [|lia]. case_decide; [|done].
    by apply lookup_app_l_Some.
  - destruct Ho as (_ & (l0 & Hl0 & Hin) & _). case_decide as Ep.
    2: { eexists _, i. split; [done|]. split; [done|]. rewrite decide_False; [lia|tauto]. }
    assert (l0 = l) as -> by congruence. apply list_elem_of_split in Hin as (l1 & l2 & ->).
    rewrite filter_remove by done. apply lookup_app_Some in Hi as [Hi|[Hle Hi]].
    + eexists _, i. split; [done|]. split; [by apply lookup_app_l_Some|].
      rewrite decide_False; [lia|]. intros [_ Hh]. destruct l1 as [|h l1]; [done|].
      injection Hh as ->. apply list.NoDup_cons in Hnd as [Hni _]. apply Hni, elem_of_app.
      right. by left.
    + destruct (i - length l1)%nat as [|j] eqn:Ej; cbn in Hi; [congruence|].
      eexists _, (length l1 + j)%nat. split; [done|].
      split; [by rewrite lookup_app_r, Nat.add_comm, Nat.add_sub by lia|]. case_decide; lia.
  - case_decide as Ep.
    2: { eexists _, i. split; [done|]. split; [done|]. rewrite decide_False; [lia|tauto]. }
    destruct l as [|h r]; [done|]. cbn. destruct (decide (h = (pid, tid))) as [->|Hh].
    + destruct i as [|i]; cbn in Hi; [congruence|]. eexists _, i. split; [done|].
      split; [by apply lookup_app_l_Some|]. rewrite decide_True by done. lia.
    + eexists _, i. split; [done|]. split; [done|]. rewrite decide_False; [lia|].
      intros [_ [= ?]]. done.
Qed.

(** C27: Round robin: a ready thread waits for at most as many turns of its priority as there are
    threads ahead of it.  As long as it neither parks nor yields, no operation on other
    threads moves it back, every turn that ends moves it forward, and once nobody is ahead
    of it its queue's head points to it. *)
Theorem bounded_waiting s qs ops priority l i t :
  sched_repr s qs -> allowed_all qs ops -> Forall (fun o => op_thread o <> t) ops ->
  qs !! prio priority = Some l -> l !! i = Some t ->
  exists s' l' i', sched_run s ops = Some s'
    /\ fold_left spec_step ops qs !! prio priority = Some l' /\ l' !! i' = Some t
    /\ (i' + turns (prio priority) qs ops <= i)%nat
    /\ (i' = 0%nat -> queue_heads s' !! prio priority = Some (Some t)).
Proof.
  intros Hs Hops Hall. set (p := prio priority). revert s qs l i Hs Hops.
  induction Hall as [|o ops Ho Hall IH]; intros s qs l i Hs Hops Hl Hi.
  - exists s, l, i. split; [done|]. split; [done|]. split; [done|]. split; [cbn; lia|].
    intros ->. destruct Hs as (_ & _ & _ & _ & Hr & _). destruct (Hr p l Hl) as [-> _].
    by destruct l; cbn in Hi; simplify_eq.
  - destruct Hops as [Hok Hops]. pose proof Hs as (_ & _ & Hnd & _).
    destruct (wait_step qs p l i t o Hnd Hok Hl Hi Ho) as (l1 & i1 & Hl1 & Hi1 & Hle).
    destruct (sched_step_refines s qs o Hs Hok) as (s1 & E & Hs1).
    destruct (IH s1 _ l1 i1 Hs1 Hops Hl1 Hi1) as (s2 & l2 & i2 & E2 & Hl2 & Hi2 & Hle2 & Hh).
    exists s2, l2, i2. split; [by cbn; rewrite E|]. split; [done|]. split; [done|].
    split; [cbn [turns]; lia|done].
Qed.

(** A fresh scheduler represents empty queues. *)
Lemma Scheduler_initial_repr : sched_repr Scheduler_initial (repeat [] NUM_PRIORITIES).
Proof.
  assert (forall p (l : list thread), repeat [] NUM_PRIORITIES !! p = Some l ->
    l = [] /\ (p < NUM_PRIORITIES)%nat) as Hrep.
  { intros p l Hp. pose proof (lookup_lt_Some _ _ _ Hp) as Hlt. rewrite repeat_length in Hlt.
    apply list_elem_of_lookup_2, list_elem_of_In, repeat_spec in Hp. done. }
  split_and!; try done.
  - apply NoDup_nil_2.
  - intros p l Hp. apply Hrep in Hp as [-> Hp]. split; [|done].
    assert (forall n k, (k < n)%nat -> repeat (@None thread) n !! k = Some None) as Hn.
    { induction n as [|n IH]; intros [|k] Hk; try lia; [done|]. cbn. apply IH. lia. }
    by apply Hn.
  - intros t [k Hk]. cbn [links Scheduler_initial] in Hk. by rewrite lookup_empty in Hk.
  - split; [cbn; unfold NUM_PRIORITIES; lia|]. split; [|by left].
    intros p l Hp. by apply Hrep in Hp as [-> _].
Qed.

(** ** A concrete history *)

Definition demo_ops : list sched_op :=
  [OpReady 1 1 Idle; OpReady 5 1 AppDefault; OpReady 5 2 AppDefault; OpReady 6 1 AppDefault;
   OpYield 5 1 AppDefault; OpPark 5 2 AppDefault].

Lemma demo_ops_allowed : allowed_all (repeat [] NUM_PRIORITIES) demo_ops.
Proof.
  cbn [allowed_all demo_ops]. split_and!.
  all: try exact I.
  all: cbn [allowed]; split_and!; try discriminate; try reflexivity.
  all: try (apply (bool_decide_unpack _); vm_compute; exact I).
  eexists. split; [reflexivity|]. apply (bool_decide_unpack _); vm_compute; exact I.
Qed.

Lemma scheduler_refines_witness :
  exists s', sched_run Scheduler_initial demo_ops = Some s'
  /\ sched_repr s' (fold_left spec_step demo_ops (repeat [] NUM_PRIORITIES))
  /\ fold_left spec_step demo_ops (repeat [] NUM_PRIORITIES) !! prio AppDefault = Some [(6, 1); (5, 1)].
Proof.
  destruct (scheduler_refines Scheduler_initial (repeat [] NUM_PRIORITIES) demo_ops
    Scheduler_initial_repr demo_ops_allowed) as (s' & E & H).
  exists s'. split; [exact E|]. split; [exact H|]. reflexivity.
Defined.

(** The queues after the four threads of [demo_ops] became ready. *)
Definition demo_queues : list (list thread) := fold_left spec_step (take 4 demo_ops) (repeat [] NUM_PRIORITIES).

Lemma demo_queues_repr :
  exists s, sched_run Scheduler_initial (take 4 demo_ops) = Some s
    /\ sched_repr s demo_queues /\ wf_cpu_usage s.
Proof.
  destruct demo_ops_allowed as (H1 & H2 & H3 & H4 & _).
  assert (allowed_all (repeat [] NUM_PRIORITIES) (take 4 demo_ops)) as Hok by (split_and!; done).
  destruct (sched_run_repr _ _ _ Scheduler_initial_repr Hok) as (s & E & Hs).
  exists s. split; [done|]. split; [done|]. apply (sched_run_cpu _ _ _ E).
  unfold wf_cpu_usage. cbn [cpu_usage cpu_usage_index Scheduler_initial].
  rewrite repeat_length. unfold CPU_MEASUREMENT_COUNT. lia.
Qed.

Lemma bounded_waiting_witness :
  exists s s', sched_run Scheduler_initial (take 4 demo_ops) = Some s
    /\ sched_run s [OpYield 5 1 AppDefault; OpPark 5 2 AppDefault] = Some s'
    /\ queue_heads s' !! prio AppDefault = Some (Some (6, 1)).
Proof.
  destruct demo_queues_repr as (s & E & Hs & _). destruct demo_ops_allowed as (_ & _ & _ & _ & H5 & H6 & _).
  destruct (bounded_waiting s demo_queues [OpYield 5 1 AppDefault; OpPark 5 2 AppDefault] AppDefault
    [(5, 1); (5, 2); (6, 1)] 2 (6, 1)) as (s' & l' & i' & Er & _ & _ & Hle & Hh); try reflexivity.
  - exact Hs.
  - split; [exact H5|]. split; [exact H6|exact I].
  - constructor; [discriminate|]. constructor; [discriminate|constructor].
  - exists s, s'. split; [exact E|]. split; [exact Er|]. apply Hh.
    assert (turns (prio AppDefault) demo_queues [OpYield 5 1 AppDefault; OpPark 5 2 AppDefault] = 2%nat)
      as E2 by reflexivity. rewrite E2 in Hle. clear - Hle. lia.
Defined.
