(* ===== verification/Threads.v ===== *)
(** * Thread contexts ([xous/kernel/src/arch/arm/process.rs])

    The saved registers of the threads of a process, as far as the kernel reads or writes
    them: the eight argument registers, the stack pointer, the link register, the program
    counter, the status register and the stack of the thread.  A process has eight contexts in
    one page, at an index out of range the kernel panics ([None]).  A context whose program
    counter is 0 is free.

    The theorem shows that the results written for a thread are the ones it reads, that
    rewinding a call undoes the step of the [svc] instruction in both instruction sets, and
    that a new thread starts in user mode in a context that was free. *)
From S2P Require Import Prelude Xous SysCall Scheduler.

Definition EXIT_THREAD : Z := 0xff806000.
Definition PROCESSOR_MODE_MASK : Z := 0x1f.

Inductive ProcessorMode : Type :=
| ModeUser | ModeFIQ | ModeIRQ | ModeService | ModeMonitor | ModeAbort | ModeUndefined
| ModeSystem | ModeInvalid.
Definition mode_to_usize (m : ProcessorMode) : Z :=
  match m with
  | ModeUser => 0x10 | ModeFIQ => 0x11 | ModeIRQ => 0x12 | ModeService => 0x13
  | ModeMonitor => 0x16 | ModeAbort => 0x17 | ModeUndefined => 0x1b | ModeSystem => 0x1f
  | ModeInvalid => 0
  end.
Definition mode_from_psr (psr : Z) : ProcessorMode :=
  match Z.land psr PROCESSOR_MODE_MASK with
  | 0x10 => ModeUser | 0x11 => ModeFIQ | 0x12 => ModeIRQ | 0x13 => ModeService
  | 0x16 => ModeMonitor | 0x17 => ModeAbort | 0x1b => ModeUndefined | 0x1f => ModeSystem
  | _ => ModeInvalid
  end.

Record Thread : Type := mkThread {
  th_args : words8; (* r0 - r5, r8, r9 *)
  th_sp : Z;
  th_lr : Z;
  th_pc : Z;
  th_psr : Z;
  th_stack : option MemoryRange
}.
Definition Thread_default : Thread := mkThread (W8 0 0 0 0 0 0 0 0) 0 0 0 0 None.

Definition set_args (t : Thread) (args : words8) : Thread :=
  mkThread args (th_sp t) (th_lr t) (th_pc t) (th_psr t) (th_stack t).
Definition set_stack (t : Thread) (stack : MemoryRange) : Thread :=
  mkThread (th_args t) (usize (range_addr stack + range_size stack)) (th_lr t) (th_pc t) (th_psr t) (Some stack).
Definition set_lr (t : Thread) (lr : Z) : Thread :=
  mkThread (th_args t) (th_sp t) lr (th_pc t) (th_psr t) (th_stack t).
Definition set_psr (t : Thread) (psr : Z) : Thread :=
  mkThread (th_args t) (th_sp t) (th_lr t) (th_pc t) psr (th_stack t).
Definition set_pc_raw (t : Thread) (pc : Z) : Thread :=
  mkThread (th_args t) (th_sp t) (th_lr t) pc (th_psr t) (th_stack t).

Definition is_in_thumb_mode (t : Thread) : bool := negb (Z.land (th_psr t) (Z.shiftl 1 5) =? 0).
Definition previous_instr_pc (t : Thread) : Z :=
  Z.max 0 (th_pc t - (if is_in_thumb_mode t then 2 else 4)).
Definition set_pc (t : Thread) (pc : Z) : Thread :=
  let t := set_pc_raw t (Z.land pc (usize_not 1)) in
  if Z.land pc 1 =? 0 then set_psr t (Z.land (th_psr t) (usize_not (Z.shiftl 1 5)))
  else set_psr t (Z.lor (th_psr t) (Z.shiftl 1 5)).
Definition processor_mode (t : Thread) : ProcessorMode := mode_from_psr (th_psr t).
Definition set_processor_mode (t : Thread) (m : ProcessorMode) : Thread :=
  set_psr t (Z.lor (Z.land (th_psr t) (usize_not PROCESSOR_MODE_MASK)) (mode_to_usize m)).
Definition disable_interrupts (t : Thread) : Thread := set_psr t (Z.lor (th_psr t) (Z.lor 0x80 0x40)).

(** ** The contexts of a process *)

Abbreviation Contexts := (list Thread).
Definition contexts_new : Contexts := repeat Thread_default (Z.to_nat MAX_THREAD_COUNT).

Definition update_thread (cs : Contexts) (tid : Z) (f : Thread -> Thread) : option Contexts :=
  let! t := cs !! Z.to_nat tid in Some (<[Z.to_nat tid := f t]> cs).

Definition is_free_context (tid : nat) (t : Thread) : bool := negb (Z.of_nat tid =? IRQ_TID) && (th_pc t =? 0).
Definition find_free_thread (cs : Contexts) : option Z :=
  Z.of_nat <$> List.find (fun tid => match cs !! tid with Some t => is_free_context tid t | None => false end)
                 (seq 0 (length cs)).

Definition set_context_result (cs : Contexts) (tid : Z) (result : Result) : option Contexts :=
  update_thread cs tid (fun t => set_args t (Result_to_args result)).
Definition retry_swi_instruction (cs : Contexts) (tid : Z) : option Contexts :=
  update_thread cs tid (fun t => set_pc_raw t (previous_instr_pc t)).

Definition setup_thread (cs : Contexts) (pid new_tid : Z) (setup : ThreadInit) : option Contexts :=
  if pid =? 1 then None else
  update_thread cs new_tid (fun t =>
    let t := set_processor_mode t ModeUser in
    let t := set_lr (set_pc t (ti_call setup)) EXIT_THREAD in
    let t := set_stack t (ti_stack setup) in
    let '(W8 _ _ _ _ r4 r5 r8 r9) := th_args t in
    set_args t (W8 (ti_arg1 setup) (ti_arg2 setup) (ti_arg3 setup) (ti_arg4 setup) r4 r5 r8 r9)).

(** [canary] is the random word the first thread gets in [r2]. *)
Definition setup_process (pid entry_point canary : Z) (stack irq_stack : MemoryRange) : option Contexts :=
  let mode := if pid =? 1 then ModeSystem else ModeUser in
  let! cs := update_thread contexts_new 1 (fun t =>
    let t := set_args t (W8 0 0 canary 0 0 0 0 0) in
    let t := set_processor_mode t mode in
    let t := if pid =? 1 then disable_interrupts t else t in
    set_stack (set_lr (set_pc t entry_point) EXIT_THREAD) stack) in
  update_thread cs IRQ_TID (fun t => set_stack (disable_interrupts (set_processor_mode t mode)) irq_stack).

Definition run_irq_handler (cs : Contexts) (pc irq_no arg : Z) : option Contexts :=
  let! t := cs !! Z.to_nat IRQ_TID in
  let! stack := th_stack t in
  let t := set_lr (set_stack (set_pc t pc) stack) EXIT_THREAD in
  let '(W8 _ _ r2 r3 r4 r5 r8 r9) := th_args t in
  Some (<[Z.to_nat IRQ_TID := set_args t (W8 irq_no arg r2 r3 r4 r5 r8 r9)]> cs).

(** The return value and the stack of the thread. *)
Definition destroy_thread (cs : Contexts) (tid : Z) : option (Contexts * result Error (Z * option MemoryRange)) :=
  let! t := cs !! Z.to_nat tid in
  if (th_sp t =? 0) || (tid =? IRQ_TID) then Some (cs, Err ThreadNotAvailable) else
  let '(W8 r0 _ _ _ _ _ _ _) := th_args t in
  Some (<[Z.to_nat tid := Thread_default]> cs, Ok (r0, th_stack t)).

(** ** Theorems *)

Lemma update_thread_Some cs tid f t :
  cs !! Z.to_nat tid = Some t -> update_thread cs tid f = Some (<[Z.to_nat tid := f t]> cs).
Proof. unfold update_thread. by intros ->. Qed.

Lemma user_mode_psr psr : mode_from_psr (Z.lor (Z.land psr (usize_not PROCESSOR_MODE_MASK)) (mode_to_usize ModeUser)) = ModeUser.
Proof.
  unfold mode_from_psr, PROCESSOR_MODE_MASK. rewrite Z.land_lor_distr_l, <-Z.land_assoc.
  change (Z.land (usize_not 31) 31) with 0. by rewrite Z.land_0_r.
Qed.

Lemma set_pc_mode t pc : processor_mode (set_pc t pc) = processor_mode t.
Proof.
  unfold processor_mode, mode_from_psr, PROCESSOR_MODE_MASK, set_pc. destruct (Z.land pc 1 =? 0); cbn [th_psr set_psr set_pc_raw].
  - rewrite <-Z.land_assoc. by change (Z.land (usize_not (Z.shiftl 1 5)) 31) with 31.
  - rewrite Z.land_lor_distr_l. change (Z.land (Z.shiftl 1 5) 31) with 0. by rewrite Z.lor_0_r.
Qed.

Lemma set_pc_thumb t pc : is_in_thumb_mode (set_pc t pc) = Z.odd pc.
Proof.
  unfold is_in_thumb_mode, set_pc. change 1 with (Z.ones 1) at 1. rewrite Z.land_ones, Zmod_odd by lia.
  destruct (Z.odd pc); cbn [Z.eqb th_psr set_psr set_pc_raw]; rewrite testbit_mask by lia.
  - rewrite testbit_set by lia. by rewrite orb_true_r.
  - rewrite Z.land_spec. change (Z.testbit (usize_not (Z.shiftl 1 5)) 5) with false. by rewrite andb_false_r.
Qed.

Lemma find_free_thread_spec cs tid :
  find_free_thread cs = Some tid ->
  exists t, cs !! Z.to_nat tid = Some t /\ th_pc t = 0 /\ tid <> IRQ_TID /\ 0 <= tid < Z.of_nat (length cs).
Proof.
  unfold find_free_thread. intros H. apply fmap_Some in H as (i & H & ->).
  apply List.find_some in H as [Hin H]. apply in_seq in Hin. rewrite Nat2Z.id.
  destruct (cs !! i) as [t|]; [|done]. unfold is_free_context in H. exists t. split; [done|]. lia.
Qed.

(** C37: What a thread sees of the kernel.  The result of a call is in its registers and nothing
    else of the context or of another context changes; rewinding a call brings the program
    counter back to the [svc] instruction, in either instruction set.  A context is found for
    a new thread only where no thread is, never the interrupt handler's: the thread starts
    there in user mode at its entry point in the right instruction set with its arguments and
    at the end of its stack, returning from it is the exit of the thread.  When the thread
    ends, its context is free again and what it returned and its stack are handed back. *)
Theorem contexts_correct (cs : Contexts) (pid tid : Z) (t : Thread) :
  cs !! Z.to_nat tid = Some t ->
  (forall result, exists t',
      set_context_result cs tid result = Some (<[Z.to_nat tid := t']> cs)
      /\ th_args t' = Result_to_args result
      /\ (th_sp t', th_lr t', th_pc t', th_psr t', th_stack t') = (th_sp t, th_lr t, th_pc t, th_psr t, th_stack t))
  /\ (forall svc, 0 <= svc -> th_pc t = svc + (if is_in_thumb_mode t then 2 else 4) ->
      exists t', retry_swi_instruction cs tid = Some (<[Z.to_nat tid := t']> cs)
        /\ th_pc t' = svc /\ is_in_thumb_mode t' = is_in_thumb_mode t
        /\ (th_args t', th_sp t', th_lr t', th_stack t') = (th_args t, th_sp t, th_lr t, th_stack t))
  /\ (forall init, pid <> 1 -> find_free_thread cs = Some tid ->
      th_pc t = 0 /\ tid <> IRQ_TID /\
      exists t' a4 a5 a8 a9, setup_thread cs pid tid init = Some (<[Z.to_nat tid := t']> cs)
        /\ processor_mode t' = ModeUser
        /\ th_pc t' = Z.land (ti_call init) (usize_not 1) /\ is_in_thumb_mode t' = Z.odd (ti_call init)
        /\ th_lr t' = EXIT_THREAD /\ th_stack t' = Some (ti_stack init)
        /\ th_sp t' = usize (range_addr (ti_stack init) + range_size (ti_stack init))
        /\ th_args t' = W8 (ti_arg1 init) (ti_arg2 init) (ti_arg3 init) (ti_arg4 init) a4 a5 a8 a9)
  /\ (th_sp t <> 0 -> 0 <= tid -> tid <> IRQ_TID ->
      exists return_value a1 a2 a3 a4 a5 a8 a9, th_args t = W8 return_value a1 a2 a3 a4 a5 a8 a9
        /\ destroy_thread cs tid = Some (<[Z.to_nat tid := Thread_default]> cs, Ok (return_value, th_stack t))
        /\ is_free_context (Z.to_nat tid) Thread_default = true).
Proof.
  intros Ht. repeat split.
  - intros result. eexists. split; [by apply update_thread_Some|done].
  - intros svc Hsvc Hpc. eexists. split; [by apply update_thread_Some|].
    split; [|done]. cbn. unfold previous_instr_pc. destruct (is_in_thumb_mode t); lia.
  - apply find_free_thread_spec in H0 as (t0 & Ht0 & Hpc & _). congruence.
  - apply find_free_thread_spec in H0 as (t0 & _ & _ & Hirq & _). done.
  - unfold setup_thread. rewrite (proj2 (Z.eqb_neq pid 1) H). rewrite (update_thread_Some _ _ _ t Ht).
    destruct (th_args t) as [a0 a1 a2 a3 a4 a5 a8 a9] eqn:Ea.
    assert (th_args (set_stack (set_lr (set_pc (set_processor_mode t ModeUser) (ti_call init)) EXIT_THREAD) (ti_stack init))
            = W8 a0 a1 a2 a3 a4 a5 a8 a9) as ->.
    { unfold set_pc. by destruct (_ =? 0). }
    exists (set_args (set_stack (set_lr (set_pc (set_processor_mode t ModeUser) (ti_call init)) EXIT_THREAD) (ti_stack init))
         (W8 (ti_arg1 init) (ti_arg2 init) (ti_arg3 init) (ti_arg4 init) a4 a5 a8 a9)), a4, a5, a8, a9.
    split; [done|]. split; [|split; [|split; [|done]]].
    + etransitivity; [exact (set_pc_mode (set_processor_mode t ModeUser) (ti_call init))|]. apply user_mode_psr.
    + unfold set_pc. by destruct (_ =? 0).
    + exact (set_pc_thumb (set_processor_mode t ModeUser) (ti_call init)).
  - intros Hsp H0 Hirq. destruct (th_args t) as [a0 a1 a2 a3 a4 a5 a8 a9] eqn:Ea.
    exists a0, a1, a2, a3, a4, a5, a8, a9. split; [done|]. split.
    + unfold destroy_thread. rewrite Ht. rewrite Ea. by rewrite (proj2 (Z.eqb_neq _ _) Hsp), (proj2 (Z.eqb_neq _ _) Hirq).
    + unfold is_free_context. cbn. unfold IRQ_TID in *. lia.
Qed.

Definition demo_contexts : Contexts := <[1%nat := mkThread (W8 0 0 0 0 0 0 0 0) 0x7fff0000 EXIT_THREAD 0x10004 0x10 None]> contexts_new.

Lemma contexts_correct_witness :
  find_free_thread demo_contexts = Some 2
  /\ (exists t', setup_thread demo_contexts 3 2 (mkThreadInit 0x20001 (mkRange 0x1000 0x1000) 1 2 3 4) = Some (<[2%nat := t']> demo_contexts)
       /\ processor_mode t' = ModeUser /\ is_in_thumb_mode t' = true)
  /\ (exists t', retry_swi_instruction demo_contexts 1 = Some (<[1%nat := t']> demo_contexts) /\ th_pc t' = 0x10000).
Proof.
  split; [reflexivity|]. split.
  - destruct (contexts_correct demo_contexts 3 2 Thread_default eq_refl) as (_ & _ & H & _).
    destruct (H (mkThreadInit 0x20001 (mkRange 0x1000 0x1000) 1 2 3 4) ltac:(lia) eq_refl)
      as (_ & _ & t' & a4 & a5 & a8 & a9 & E & Hm & _ & Hth & _).
    exists t'. split; [exact E|]. split; [exact Hm|exact Hth].
  - destruct (contexts_correct demo_contexts 3 1 (mkThread (W8 0 0 0 0 0 0 0 0) 0x7fff0000 EXIT_THREAD 0x10004 0x10 None) eq_refl) as (_ & H & _).
    destruct (H 0x10000 ltac:(lia) eq_refl) as (t' & E & Hpc & _).
    exists t'. split; [exact E|exact Hpc].
Defined.
