(* ===== verification/Connections.v ===== *)
(** * Connections of a process ([xous/kernel/src/process.rs], [connection_map])

    A process names the servers it is connected to by connection ids (CIDs).  A CID packs the
    index of a slot and the slot's generation, which rises each time the slot is reallocated;
    a slot that runs out of generations is condemned.  The definitions are the methods of
    [Process] on its [connection_map], and [disconnect_slot], the part of
    [SystemServices::disconnect_from_server] that changes the map.

    The theorems show that the packing is injective, that the invariant of the map is kept by
    every operation, and that a CID which stopped resolving never resolves again, whatever
    happens to its slot. *)
From S2P Require Import Prelude Xous SysCall Permissions.

Definition MAX_CONNECTIONS : nat := 64.
Definition CID_INDEX_BITS : Z := 8.
Definition CID_INDEX_MASK : Z := Z.shiftl 1 CID_INDEX_BITS - 1.
Definition CID_INDEX_BIAS : Z := 2.
(** [(u32::MAX >> CID_INDEX_BITS) - 1]. *)
Definition MAX_GENERATION : Z := Z.shiftr (2 ^ 32 - 1) CID_INDEX_BITS - 1.

Inductive ConnectionSlot : Type :=
| SlotFree (generation : Z)
| SlotTombstone (refcount generation : Z)
| SlotConnected (sidx refcount generation : Z) (permissions : MessagePermissions)
| SlotCondemned.

Definition free_or_condemn (generation : Z) : ConnectionSlot :=
  if MAX_GENERATION <=? generation then SlotCondemned else SlotFree generation.

Definition pack_cid (cidx : nat) (generation : Z) : Z :=
  Z.lor (u32 (Z.shiftl generation CID_INDEX_BITS)) (u32 (Z.of_nat cidx + CID_INDEX_BIAS)).

Definition unpack_cid (cid : Z) : result Error (nat * Z) :=
  let index := Z.land cid CID_INDEX_MASK in
  if index <? CID_INDEX_BIAS then Err ServerNotFound
  else Ok (Z.to_nat (index - CID_INDEX_BIAS), Z.shiftr cid CID_INDEX_BITS).

Abbreviation ConnectionMap := (list ConnectionSlot).
Definition connection_map_new : ConnectionMap := repeat (SlotFree 0) MAX_CONNECTIONS.

(** The slot is [Connected] to this server. *)
Definition connected_to (sidx : Z) (slot : ConnectionSlot) : bool :=
  match slot with SlotConnected sidx' _ _ _ => sidx' =? u8 sidx | _ => false end.
Definition is_free_slot (slot : ConnectionSlot) : bool :=
  match slot with SlotFree _ => true | _ => false end.

Definition tombstone_connection_by_sidx (m : ConnectionMap) (dead_sidx : Z)
    : ConnectionMap * option Z :=
  match position (connected_to dead_sidx) m with
  | Some cidx =>
      match m !! cidx with
      | Some (SlotConnected _ refcount generation _) =>
          (<[cidx := SlotTombstone refcount generation]> m, Some (pack_cid cidx generation))
      | _ => (m, None)
      end
  | None => (m, None)
  end.

(** The second loop of [add_connection]: take the first free slot. *)
Definition add_new_connection (m : ConnectionMap) (sidx : Z) (permissions : MessagePermissions)
    : ConnectionMap * result Error (Z * bool) :=
  match position is_free_slot m with
  | Some cidx =>
      match m !! cidx with
      | Some (SlotFree generation) =>
          let generation := u32 (generation + 1) in
          (<[cidx := SlotConnected (u8 sidx) 1 generation permissions]> m,
           Ok (pack_cid cidx generation, true))
      | _ => (m, Err KernelTableFull)
      end
  | None => (m, Err KernelTableFull)
  end.

Definition add_connection (m : ConnectionMap) (sidx : Z) (permissions : MessagePermissions)
    : ConnectionMap * result Error (Z * bool) :=
  match position (connected_to sidx) m with
  | Some cidx =>
      match m !! cidx with
      | Some (SlotConnected sidx_other refcount generation perms) =>
          match checked_add refcount 1 with
          | Some refcount =>
              (<[cidx := SlotConnected sidx_other refcount generation perms]> m,
               Ok (pack_cid cidx generation, false))
          | None => (m, Err KernelTableFull)
          end
      | _ => (m, Err KernelTableFull)
      end
  | None => add_new_connection m sidx permissions
  end.

(** The slot a CID names and its index: the body shared by [connection] and
    [connection_mut]. *)
Definition connection_mut (m : ConnectionMap) (cid : Z) : result Error (nat * ConnectionSlot) :=
  let? (cidx, generation) := unpack_cid cid in
  let? slot := ok_or (m !! cidx) ServerNotFound in
  match slot with
  | SlotConnected _ _ slot_generation _ | SlotTombstone _ slot_generation =>
      if slot_generation =? generation then Ok (cidx, slot) else Err ServerNotFound
  | _ => Err ServerNotFound
  end.
Definition connection (m : ConnectionMap) (cid : Z) : result Error ConnectionSlot :=
  let? (_, slot) := connection_mut m cid in Ok slot.

(** [disconnect_from_server] on the map: the result is the server to notify, if the last
    reference to a live connection was dropped. *)
Definition disconnect_slot (m : ConnectionMap) (cid : Z) : ConnectionMap * result Error (option Z) :=
  match connection_mut m cid with
  | Err e => (m, Err e)
  | Ok (cidx, slot) =>
      match slot with
      | SlotFree _ | SlotCondemned => (m, Err ServerNotFound)
      | SlotTombstone refcount generation =>
          if 1 <? refcount then (<[cidx := SlotTombstone (refcount - 1) generation]> m, Ok None)
          else (<[cidx := free_or_condemn generation]> m, Ok None)
      | SlotConnected sidx refcount generation permissions =>
          if 1 <? refcount
          then (<[cidx := SlotConnected sidx (refcount - 1) generation permissions]> m, Ok None)
          else (<[cidx := free_or_condemn generation]> m, Ok (Some sidx))
      end
  end.

(** The map's part of [AllowMessagesCID] and of the grant of [ResolveMessagePermission]. *)
Definition allow_messages (m : ConnectionMap) (cid : Z) (messages : MessageRange)
    : ConnectionMap * result Error Result :=
  match connection_mut m cid with
  | Ok (cidx, SlotConnected sidx refcount generation permissions) =>
      let '(permissions, r) := permissions_add permissions messages in
      (<[cidx := SlotConnected sidx refcount generation permissions]> m, r)
  | _ => (m, Err ServerNotFound)
  end.

Definition number_of_connections (m : ConnectionMap) : Z :=
  countb (fun c => match c with SlotConnected _ _ _ _ | SlotTombstone _ _ => true | _ => false end) m.

Definition connected_sidxes (m : ConnectionMap) : list Z :=
  omap (fun c => match c with SlotConnected sidx _ _ _ => Some sidx | _ => None end) m.

(** ** The packing *)

Lemma MAX_GENERATION_eq : MAX_GENERATION = 2 ^ 24 - 2.
Proof. reflexivity. Qed.

Lemma pack_cid_eq cidx generation :
  (cidx < MAX_CONNECTIONS)%nat -> 0 <= generation <= MAX_GENERATION ->
  pack_cid cidx generation = generation * 2 ^ 8 + (Z.of_nat cidx + 2).
Proof.
  rewrite MAX_GENERATION_eq. unfold MAX_CONNECTIONS. intros Hi Hg.
  unfold pack_cid, CID_INDEX_BITS, CID_INDEX_BIAS. unfold_ints.
  rewrite (Z.mod_small (Z.of_nat cidx + 2)) by lia.
  rewrite Z.mod_small by (rewrite Z.shiftl_mul_pow2; lia). apply lor_shiftl_add; lia.
Qed.

Lemma unpack_cid_eq cid :
  unpack_cid cid = if cid mod 2 ^ 8 <? 2 then Err ServerNotFound
                   else Ok (Z.to_nat (cid mod 2 ^ 8 - 2), cid / 2 ^ 8).
Proof.
  unfold unpack_cid, CID_INDEX_MASK, CID_INDEX_BITS, CID_INDEX_BIAS.
  change (Z.shiftl 1 8 - 1) with (2 ^ 8 - 1). by rewrite land_ones_mod, Z.shiftr_div_pow2 by lia.
Qed.

Lemma unpack_pack cidx generation :
  (cidx < MAX_CONNECTIONS)%nat -> 0 <= generation <= MAX_GENERATION ->
  unpack_cid (pack_cid cidx generation) = Ok (cidx, generation).
Proof.
  intros Hi Hg. rewrite unpack_cid_eq, pack_cid_eq by done. revert Hi Hg.
  rewrite MAX_GENERATION_eq. unfold MAX_CONNECTIONS. intros Hi Hg.
  replace ((generation * 2 ^ 8 + (Z.of_nat cidx + 2)) mod 2 ^ 8) with (Z.of_nat cidx + 2)
    by (Z.div_mod_to_equations; lia).
  replace ((generation * 2 ^ 8 + (Z.of_nat cidx + 2)) / 2 ^ 8) with generation
    by (Z.div_mod_to_equations; lia).
  replace (Z.of_nat cidx + 2 <? 2) with false by lia. do 2 f_equal. lia.
Qed.

(** A CID is a [u32] that is neither 0 nor 1, and unpacks to the slot and generation it was
    packed from; so two CIDs are equal only if they name the same generation of one slot. *)
Theorem cid_roundtrip cidx generation :
  (cidx < MAX_CONNECTIONS)%nat -> 0 <= generation <= MAX_GENERATION ->
  2 <= pack_cid cidx generation < 2 ^ 32
  /\ unpack_cid (pack_cid cidx generation) = Ok (cidx, generation)
  /\ forall cidx' generation', (cidx' < MAX_CONNECTIONS)%nat -> 0 <= generation' <= MAX_GENERATION ->
       pack_cid cidx' generation' = pack_cid cidx generation ->
       cidx' = cidx /\ generation' = generation.
Proof.
  intros Hi Hg. split; [|split; [by apply unpack_pack|]].
  - rewrite pack_cid_eq by done. revert Hi Hg. rewrite MAX_GENERATION_eq. unfold MAX_CONNECTIONS. lia.
  - intros i' g' Hi' Hg' E. pose proof (unpack_pack i' g' Hi' Hg') as H.
    rewrite E, unpack_pack in H by done. by simplify_eq.
Qed.

(** ** The life of a slot *)

(** The transitions of a slot. *)
Inductive slot_step : ConnectionSlot -> ConnectionSlot -> Prop :=
| step_open g sidx perms : slot_step (SlotFree g) (SlotConnected (u8 sidx) 1 (g + 1) perms)
| step_ref sidx r g perms : r + 1 < 2 ^ 32 ->
    slot_step (SlotConnected sidx r g perms) (SlotConnected sidx (r + 1) g perms)
| step_unref sidx r g perms : 1 < r ->
    slot_step (SlotConnected sidx r g perms) (SlotConnected sidx (r - 1) g perms)
| step_permissions sidx r g perms perms' :
    slot_step (SlotConnected sidx r g perms) (SlotConnected sidx r g perms')
| step_tombstone sidx r g perms : slot_step (SlotConnected sidx r g perms) (SlotTombstone r g)
| step_unref_tombstone r g : 1 < r -> slot_step (SlotTombstone r g) (SlotTombstone (r - 1) g)
| step_close sidx r g perms : slot_step (SlotConnected sidx r g perms) (free_or_condemn g)
| step_close_tombstone r g : slot_step (SlotTombstone r g) (free_or_condemn g).

Definition wf_slot (slot : ConnectionSlot) : Prop :=
  match slot with
  | SlotFree g => 0 <= g < MAX_GENERATION
  | SlotTombstone r g => 1 <= r < 2 ^ 32 /\ 1 <= g <= MAX_GENERATION
  | SlotConnected sidx r g _ => is_u8 sidx /\ 1 <= r < 2 ^ 32 /\ 1 <= g <= MAX_GENERATION
  | SlotCondemned => True
  end.

(** 64 slots, counters in range, and at most one live connection to each server. *)
Definition wf_connections (m : ConnectionMap) : Prop :=
  length m = MAX_CONNECTIONS /\ Forall wf_slot m
  /\ (forall i j sidx r g p r' g' p', m !! i = Some (SlotConnected sidx r g p) ->
        m !! j = Some (SlotConnected sidx r' g' p') -> i = j).

(** One operation changes at most one slot, by a transition, and a slot is only opened for a
    server no slot is connected to. *)
Inductive map_step (m : ConnectionMap) : ConnectionMap -> Prop :=
| map_same : map_step m m
| map_slot i old new : m !! i = Some old -> slot_step old new ->
    (forall sidx r g p, new = SlotConnected sidx r g p -> is_free_slot old = true ->
       forall j r' g' p', m !! j <> Some (SlotConnected sidx r' g' p')) ->
    map_step m (<[i := new]> m).

Lemma wf_slot_step old new : wf_slot old -> slot_step old new -> wf_slot new.
Proof.
  intros Hw Hs. assert (forall g, 1 <= g <= MAX_GENERATION -> wf_slot (free_or_condemn g)) as Hfc.
  { intros g Hg. unfold free_or_condemn. destruct (Z.leb_spec MAX_GENERATION g); [done|cbn; lia]. }
  destruct Hs; cbn -[MAX_GENERATION] in *; repeat match goal with H : _ /\ _ |- _ => destruct H end;
    split_and?; auto using u8_range; try lia.
  all: unfold u8, is_u8; Z.div_mod_to_equations; lia.
Qed.

Lemma wf_map_step m m' : wf_connections m -> map_step m m' -> wf_connections m'.
Proof.
  intros (Hlen & Hall & Huniq) [|i old new Hi Hs Hnew]; [done|].
  pose proof (lookup_lt_Some _ _ _ Hi).
  assert (wf_slot new) as Hw by (eapply wf_slot_step; [by eapply Forall_lookup_1|done]).
  split; [by rewrite length_insert|]. split; [by apply Forall_insert|].
  assert (forall j sidx r g p r' g' p', new = SlotConnected sidx r g p -> i <> j ->
    m !! j <> Some (SlotConnected sidx r' g' p')) as Hdiff.
  { intros j sidx r g p r' g' p' -> Hij Hj. destruct (is_free_slot old) eqn:Ef.
    - by eapply (Hnew sidx r g p).
    - apply Hij. inversion Hs; subst; try discriminate;
        try (eapply (Huniq i j); [exact Hi|exact Hj]).
      all: unfold free_or_condemn in *; case_match; discriminate. }
  intros j k sidx r g p r' g' p' Hj Hk.
  destruct (decide (i = j)) as [<-|Hij], (decide (i = k)) as [<-|Hik]; [done| | |].
  - rewrite list_lookup_insert_eq in Hj by done. rewrite list_lookup_insert_ne in Hk by done.
    simplify_eq. exfalso. by eapply (Hdiff k).
  - rewrite list_lookup_insert_eq in Hk by done. rewrite list_lookup_insert_ne in Hj by done.
    simplify_eq. exfalso. by eapply (Hdiff j).
  - rewrite list_lookup_insert_ne in Hj, Hk by done. by eapply (Huniq j k).
Qed.

(** *** Every operation is a step of the map *)

Lemma u32_generation g : 0 <= g < MAX_GENERATION -> u32 (g + 1) = g + 1.
Proof. rewrite MAX_GENERATION_eq. intros. apply u32_id. unfold_ints. lia. Qed.

Lemma position_lookup {A} (p : A -> bool) l i :
  position p l = Some i -> exists x, l !! i = Some x /\ p x = true.
Proof. intros H. by apply position_Some in H as [? _]. Qed.

Lemma add_connection_step m sidx perms :
  wf_connections m -> map_step m (add_connection m sidx perms).1.
Proof.
  intros (_ & Hall & _). unfold add_connection, add_new_connection.
  destruct (position (connected_to sidx) m) as [i|] eqn:E.
  - apply position_lookup in E as (slot & Hi & Hc). rewrite Hi.
    destruct slot as [|?|sidx' r g p|]; try done. destruct (checked_add r 1) as [r'|] eqn:Er; [|constructor].
    unfold checked_add in Er. case_match; [|done]. simplify_eq.
    eapply map_slot; [done| |done]. apply step_ref. lia.
  - destruct (position is_free_slot m) as [i|] eqn:Ef; [|constructor].
    apply position_lookup in Ef as (slot & Hi & Hf). rewrite Hi. destruct slot as [g| | |]; try done.
    pose proof (Forall_lookup_1 _ _ _ _ Hall Hi) as Hg. rewrite u32_generation by done.
    eapply map_slot; [done|apply step_open|]. intros ? ? ? ? [= <- _ _ _] _ j r' g' p' Hj.
    rewrite position_None in E. specialize (E j _ Hj). unfold connected_to in E. lia.
Qed.

Lemma tombstone_step m sidx : map_step m (tombstone_connection_by_sidx m sidx).1.
Proof.
  unfold tombstone_connection_by_sidx. destruct (position _ m) as [i|] eqn:E; [|constructor].
  apply position_lookup in E as (slot & Hi & Hc). rewrite Hi. destruct slot as [|?|sidx' r g p|]; try done.
  eapply map_slot; [done|apply step_tombstone|done].
Qed.

Lemma connection_mut_Ok m cid i slot :
  connection_mut m cid = Ok (i, slot) ->
  m !! i = Some slot /\ exists g, unpack_cid cid = Ok (i, g)
    /\ ((exists sidx r p, slot = SlotConnected sidx r g p) \/ (exists r, slot = SlotTombstone r g)).
Proof.
  unfold connection_mut. destruct (unpack_cid cid) as [[i' g]|]; [|done].
  destruct (m !! i') as [slot'|] eqn:Hi; [|done]. cbn.
  destruct slot' as [|r g'|sidx r g' p|]; try done; destruct (Z.eqb_spec g' g); intros; simplify_eq;
    (split; [done|]); exists g; split; eauto 10.
Qed.

Lemma disconnect_step m cid : map_step m (disconnect_slot m cid).1.
Proof.
  unfold disconnect_slot. destruct (connection_mut m cid) as [[i slot]|] eqn:E; [|constructor].
  apply connection_mut_Ok in E as (Hi & _). destruct slot as [|r g|sidx r g p|]; try constructor;
    destruct (Z.ltb_spec 1 r); cbn; (eapply map_slot; [done|by constructor|]); try done.
  all: intros sidx' r' g' p' E; discriminate.
Qed.

Lemma allow_messages_step m cid msgs : map_step m (allow_messages m cid msgs).1.
Proof.
  unfold allow_messages. destruct (connection_mut m cid) as [[i slot]|] eqn:E; [|constructor].
  apply connection_mut_Ok in E as (Hi & _). destruct slot as [| |sidx r g p|]; try constructor.
  destruct (permissions_add p msgs) as [p' res]. eapply map_slot; [done|apply step_permissions|done].
Qed.

(** ** Histories *)

Inductive conn_op : Type :=
| ConnAdd (sidx : Z) (permissions : MessagePermissions)
| ConnDisconnect (cid : Z)
| ConnServerDestroyed (sidx : Z)
| ConnAllowMessages (cid : Z) (messages : MessageRange).

Definition conn_step (m : ConnectionMap) (o : conn_op) : ConnectionMap :=
  match o with
  | ConnAdd sidx permissions => (add_connection m sidx permissions).1
  | ConnDisconnect cid => (disconnect_slot m cid).1
  | ConnServerDestroyed sidx => (tombstone_connection_by_sidx m sidx).1
  | ConnAllowMessages cid messages => (allow_messages m cid messages).1
  end.
Definition conn_run (m : ConnectionMap) (ops : list conn_op) : ConnectionMap :=
  fold_left conn_step ops m.

Lemma conn_step_map m o : wf_connections m -> map_step m (conn_step m o).
Proof.
  intros Hm. destruct o; cbn; auto using add_connection_step, tombstone_step, disconnect_step,
    allow_messages_step.
Qed.

Lemma conn_step_wf m o : wf_connections m -> wf_connections (conn_step m o).
Proof. intros Hm. eapply wf_map_step; [done|by apply conn_step_map]. Qed.

(** The slot has gone past generation [g]: no CID of it can name the slot again. *)
Definition gen_past (g : Z) (slot : ConnectionSlot) : Prop :=
  match slot with
  | SlotFree g' => g <= g'
  | SlotTombstone _ g' | SlotConnected _ _ g' _ => g < g'
  | SlotCondemned => True
  end.
Definition cid_dead (m : ConnectionMap) (cid : Z) : Prop :=
  match unpack_cid cid with
  | Err _ => True
  | Ok (i, g) => forall slot, m !! i = Some slot -> gen_past g slot
  end.

Lemma cid_dead_connection m cid : cid_dead m cid -> connection m cid = Err ServerNotFound.
Proof.
  unfold cid_dead, connection, connection_mut. destruct (unpack_cid cid) as [[i g]|e] eqn:E.
  - destruct (m !! i) as [slot|]; [|done]. intros H. specialize (H slot eq_refl).
    destruct slot as [|r g'|sidx r g' p|]; try done; cbn in *; (destruct (Z.eqb_spec g' g); [lia|done]).
  - intros _. rewrite unpack_cid_eq in E. case_match; by simplify_eq.
Qed.

Lemma gen_past_step g old new : gen_past g old -> slot_step old new -> gen_past g new.
Proof.
  intros Hp Hs. revert Hp. destruct Hs; cbn; try done; try lia.
  all: intros Hp; unfold free_or_condemn; case_match; cbn; [done|lia].
Qed.

Lemma cid_dead_step m m' cid : cid_dead m cid -> map_step m m' -> cid_dead m' cid.
Proof.
  intros Hd [|i old new Hi Hs _]; [done|]. unfold cid_dead in *.
  destruct (unpack_cid cid) as [[j g]|]; [|done]. intros slot Hj.
  apply list_lookup_insert_Some in Hj as [(-> & <- & _)|[_ Hj]]; [|by apply Hd].
  eapply gen_past_step; [by apply Hd|done].
Qed.

(** [slot'] still stands for the server [slot] stood for, or for its absence. *)
Definition same_target (slot slot' : ConnectionSlot) : Prop :=
  match slot, slot' with
  | SlotConnected sidx _ g _, SlotConnected sidx' _ g' _ => sidx' = sidx /\ g' = g
  | SlotConnected _ _ g _, SlotTombstone _ g' | SlotTombstone _ g, SlotTombstone _ g' => g' = g
  | _, _ => False
  end.

Lemma connection_Ok m cid slot :
  connection m cid = Ok slot <-> exists i, connection_mut m cid = Ok (i, slot).
Proof.
  unfold connection. destruct (connection_mut m cid) as [[i s]|]; split; intros H; simplify_eq; eauto.
  - by destruct H as (j & [= _ <-]).
  - by destruct H as (j & H).
Qed.

Lemma connection_mut_intro m cid i g slot :
  unpack_cid cid = Ok (i, g) -> m !! i = Some slot ->
  ((exists sidx r p, slot = SlotConnected sidx r g p) \/ (exists r, slot = SlotTombstone r g)) ->
  connection_mut m cid = Ok (i, slot).
Proof.
  intros E Hi Hs. unfold connection_mut. rewrite E, Hi. cbn.
  destruct Hs as [(sidx & r & p & ->)|(r & ->)]; by rewrite Z.eqb_refl.
Qed.

Lemma same_target_refl slot :
  (exists g, (exists sidx r p, slot = SlotConnected sidx r g p) \/ (exists r, slot = SlotTombstone r g)) ->
  same_target slot slot.
Proof. intros (g & [(sidx & r & p & ->)|(r & ->)]); by cbn. Qed.

Lemma same_target_trans s1 s2 s3 : same_target s1 s2 -> same_target s2 s3 -> same_target s1 s3.
Proof. destruct s1, s2, s3; cbn; try done; intuition congruence. Qed.

(** One step leaves a CID on its target, or kills it. *)
Lemma connection_step m m' cid slot :
  connection m cid = Ok slot -> map_step m m' ->
  (exists slot', connection m' cid = Ok slot' /\ same_target slot slot') \/ cid_dead m' cid.
Proof.
  intros Hc Hm. apply connection_Ok in Hc as (i & Hc).
  pose proof (connection_mut_Ok _ _ _ _ Hc) as (Hi & g & Eu & Hs).
  destruct Hm as [|j old new Hj Hstep _].
  { left. exists slot. split; [by apply connection_Ok; exists i|]. by apply same_target_refl; exists g. }
  pose proof (lookup_lt_Some _ _ _ Hj). destruct (decide (j = i)) as [->|Hne].
  2: { left. exists slot. split; [|by apply same_target_refl; exists g].
       apply connection_Ok. exists i. eapply connection_mut_intro; [done| |done].
       by rewrite list_lookup_insert_ne. }
  assert (old = slot) as -> by congruence.
  assert (<[i := new]> m !! i = Some new) as Hnew by (by apply list_lookup_insert_eq).
  assert (gen_past g new -> cid_dead (<[i := new]> m) cid) as Hdead.
  { intros Hp. unfold cid_dead. rewrite Eu. intros slot' Hs'. congruence. }
  assert (forall slot', new = slot' ->
    ((exists sidx r p, slot' = SlotConnected sidx r g p) \/ (exists r, slot' = SlotTombstone r g)) ->
    connection (<[i := new]> m) cid = Ok slot') as Hlive.
  { intros slot' -> Hs'. apply connection_Ok. exists i. by eapply connection_mut_intro. }
  assert (gen_past g (free_or_condemn g)) as Hfc by (unfold free_or_condemn; case_match; cbn; [done|lia]).
  destruct Hs as [(sidx & r & p & ->)|(r & ->)]; inversion Hstep; subst; auto;
    left; eexists; (split; [by apply Hlive; eauto|by cbn]).
Qed.

(** C21: CIDs are stable: through any history of connections, disconnections, destroyed servers
    and permission changes, a CID that resolves keeps naming the same server until that
    server is destroyed, then its tombstone; and once it no longer resolves it never resolves
    again, however often its slot is reused. *)
Theorem cid_stable m cid slot ops :
  wf_connections m -> connection m cid = Ok slot ->
  match connection (conn_run m ops) cid with
  | Ok slot' => same_target slot slot'
  | Err e => e = ServerNotFound
      /\ forall ops', connection (conn_run (conn_run m ops) ops') cid = Err ServerNotFound
  end.
Proof.
  intros Hm Hc.
  assert (forall ops m, wf_connections m -> cid_dead m cid ->
    wf_connections (conn_run m ops) /\ cid_dead (conn_run m ops) cid) as Hdead.
  { clear. induction ops as [|o ops IH]; intros m Hm Hd; [done|]. cbn. apply IH.
    - by apply conn_step_wf.
    - eapply cid_dead_step; [done|by apply conn_step_map]. }
  assert ((exists slot', connection (conn_run m ops) cid = Ok slot' /\ same_target slot slot')
    \/ (wf_connections (conn_run m ops) /\ cid_dead (conn_run m ops) cid)) as H.
  { clear -Hm Hc Hdead. revert m slot Hm Hc. induction ops as [|o ops IH]; intros m slot Hm Hc.
    - left. exists slot. split; [done|]. apply same_target_refl.
      apply connection_Ok in Hc as (i & Hc). apply connection_mut_Ok in Hc as (_ & g & _ & ?). by exists g.
    - cbn. destruct (connection_step m _ cid slot Hc (conn_step_map m o Hm)) as [(s1 & Hc1 & Ht1)|Hd].
      + destruct (IH _ s1 (conn_step_wf m o Hm) Hc1) as [(s2 & Hc2 & Ht2)|?]; [|by right].
        left. exists s2. split; [done|by eapply same_target_trans].
      + right. apply Hdead; [by apply conn_step_wf|done]. }
  destruct H as [(s' & -> & Ht)|[Hwf Hd]]; [done|].
  rewrite (cid_dead_connection _ _ Hd). split; [done|]. intros ops'.
  apply cid_dead_connection. by apply Hdead.
Qed.

(** ** Connecting and disconnecting *)

Definition refcount_of (slot : ConnectionSlot) : Z :=
  match slot with SlotTombstone r _ | SlotConnected _ r _ _ => r | _ => 0 end.

(** [add_connection]: a server the process is connected to keeps its CID and gains a
    reference; otherwise the first free slot is opened under a CID that did not resolve
    before, with one reference and the given permissions.  It fails, without effect, only when
    no slot is free or the count is at its maximum. *)
Theorem add_connection_correct m sidx perms :
  wf_connections m -> is_u8 sidx ->
  let '(m', r) := add_connection m sidx perms in
  wf_connections m' /\
  match r with
  | Ok (cid, false) => exists r g p, connection m cid = Ok (SlotConnected sidx r g p)
      /\ connection m' cid = Ok (SlotConnected sidx (r + 1) g p)
      /\ number_of_connections m' = number_of_connections m
  | Ok (cid, true) => (sidx ∈ connected_sidxes m -> False)
      /\ connection m cid = Err ServerNotFound
      /\ (exists g, connection m' cid = Ok (SlotConnected sidx 1 g perms))
      /\ number_of_connections m' = number_of_connections m + 1
  | Err e => e = KernelTableFull /\ m' = m
      /\ ((forall i g, m !! i <> Some (SlotFree g))
          \/ exists i g p, m !! i = Some (SlotConnected sidx USIZE_MAX g p))
  end.
Proof.
  intros Hm Hsidx. pose proof Hm as (Hlen & Hall & _).
  pose proof (wf_map_step m _ Hm (add_connection_step m sidx perms Hm)) as Hwf. revert Hwf.
  assert (forall i g sidx' r p, (i < MAX_CONNECTIONS)%nat -> 1 <= g <= MAX_GENERATION ->
    forall m0, m0 !! i = Some (SlotConnected sidx' r g p) ->
    connection m0 (pack_cid i g) = Ok (SlotConnected sidx' r g p)) as Hres.
  { intros i g sidx' r p Hi Hg m0 Hm0. apply connection_Ok. exists i.
    eapply connection_mut_intro; [apply unpack_pack; [done|lia]|done|eauto]. }
  unfold add_connection, add_new_connection.
  destruct (position (connected_to sidx) m) as [i|] eqn:E.
  - apply position_lookup in E as (slot & Hi & Hc). rewrite Hi.
    pose proof (lookup_lt_Some _ _ _ Hi) as Hlt. pose proof (Forall_lookup_1 _ _ _ _ Hall Hi) as Hw.
    destruct slot as [|?|sidx' r g p|]; try done. cbn in Hc, Hw. rewrite (u8_id sidx) in Hc by done.
    apply Z.eqb_eq in Hc as ->. destruct (checked_add r 1) as [r'|] eqn:Er; unfold checked_add in Er; case_match; simplify_eq.
    + intros Hwf. split; [done|]. exists r, g, p. split; [by apply Hres; [lia|tauto|]|].
      split; [apply Hres; [lia|tauto|by apply list_lookup_insert_eq]|].
      unfold number_of_connections. rewrite (countb_insert _ _ _ _ _ Hi). cbn -[countb]. lia.
    + intros Hwf. split; [done|]. split; [done|]. split; [done|]. right. exists i, g, p.
      replace USIZE_MAX with r; [done|]. unfold USIZE_MAX. lia.
  - rewrite position_None in E. destruct (position is_free_slot m) as [i|] eqn:Ef.
    + apply position_lookup in Ef as (slot & Hi & Hf). rewrite Hi. destruct slot as [g| | |]; try done.
      pose proof (lookup_lt_Some _ _ _ Hi) as Hlt. pose proof (Forall_lookup_1 _ _ _ _ Hall Hi) as Hg.
      cbn in Hg. rewrite u32_generation, u8_id by done. intros Hwf. split; [done|]. split.
      { intros Hin. apply list_elem_of_omap in Hin as (slot & Hin & Hs).
        apply list_elem_of_lookup in Hin as [j Hj]. specialize (E j _ Hj).
        destruct slot as [| |sidx' r g' p|]; simplify_eq. cbn in E. rewrite u8_id in E by done. lia. }
      split; [|split].
      * unfold connection, connection_mut. by rewrite unpack_pack, Hi by lia.
      * exists (g + 1). apply Hres; [lia|lia|by apply list_lookup_insert_eq].
      * unfold number_of_connections. rewrite (countb_insert _ _ _ _ _ Hi). cbn -[countb]. lia.
    + intros Hwf. split; [done|]. split; [done|]. split; [done|]. left. intros i g Hi.
      rewrite position_None in Ef. by specialize (Ef i _ Hi).
Qed.

(** [disconnect_from_server] on the map: a CID that does not resolve is refused without
    effect; one of several references is dropped and the CID still resolves; the last one
    closes the slot, the CID stops resolving for good, and the server is reported exactly
    when the connection was live. *)
Theorem disconnect_correct m cid :
  wf_connections m ->
  let '(m', r) := disconnect_slot m cid in
  wf_connections m' /\
  match connection m cid with
  | Err e => m' = m /\ r = Err e
  | Ok slot =>
      if 1 <? refcount_of slot then
        r = Ok None
        /\ exists slot', connection m' cid = Ok slot' /\ same_target slot slot'
             /\ refcount_of slot' = refcount_of slot - 1
      else r = Ok (match slot with SlotConnected sidx _ _ _ => Some sidx | _ => None end)
        /\ number_of_connections m' = number_of_connections m - 1
        /\ forall ops, connection (conn_run m' ops) cid = Err ServerNotFound
  end.
Proof.
  intros Hm. pose proof (wf_map_step m _ Hm (disconnect_step m cid)) as Hwf. revert Hwf.
  unfold disconnect_slot, connection. destruct (connection_mut m cid) as [[i slot]|e] eqn:E; [|done].
  pose proof (connection_mut_Ok _ _ _ _ E) as (Hi & g & Eu & Hs).
  pose proof (lookup_lt_Some _ _ _ Hi) as Hlt.
  assert (forall m', wf_connections m' -> m' = <[i := free_or_condemn g]> m ->
    forall ops, connection (conn_run m' ops) cid = Err ServerNotFound) as Hdead.
  { intros m' Hwf -> ops. apply cid_dead_connection.
    assert (cid_dead (<[i := free_or_condemn g]> m) cid) as Hd.
    { unfold cid_dead. rewrite Eu. intros slot'. rewrite list_lookup_insert_eq by done.
      intros [= <-]. unfold free_or_condemn. case_match; cbn; [done|lia]. }
    revert Hwf Hd. generalize (<[i := free_or_condemn g]> m). clear.
    induction ops as [|o ops IH]; intros m Hwf Hd; [done|]. cbn. apply IH; [by apply conn_step_wf|].
    eapply cid_dead_step; [done|by apply conn_step_map]. }
  assert (number_of_connections (<[i := free_or_condemn g]> m) = number_of_connections m - 1) as Hnum.
  { unfold number_of_connections. rewrite (countb_insert _ _ _ _ _ Hi).
    unfold free_or_condemn. destruct (MAX_GENERATION <=? g), Hs as [(? & ? & ? & ->)|(? & ->)]; cbn -[countb]; lia. }
  assert (forall slot', ((exists sidx r p, slot' = SlotConnected sidx r g p)
      \/ (exists r, slot' = SlotTombstone r g)) ->
    connection (<[i := slot']> m) cid = Ok slot') as Hlive.
  { intros slot' Hs'. apply connection_Ok. exists i. eapply connection_mut_intro; [done| |done].
    by apply list_lookup_insert_eq. }
  unfold connection in Hlive.
  destruct Hs as [(sidx & r & p & ->)|(r & ->)]; cbn; destruct (1 <? r); cbn; intros Hwf;
    (split; [done|]); (split; [done|]); try (split; [done|by apply Hdead]).
  all: eexists; split; [apply Hlive; eauto|by cbn].
Qed.

(** ** Examples *)

Lemma connection_map_new_wf : wf_connections connection_map_new.
Proof.
  split; [done|]. split.
  - apply list.Forall_forall. intros s Hs%list_elem_of_In%repeat_spec. subst s.
    cbn [wf_slot]. rewrite MAX_GENERATION_eq. lia.
  - intros i j sidx r g p r' g' p' Hi. exfalso.
    apply list_elem_of_lookup_2, list_elem_of_In, repeat_spec in Hi. discriminate Hi.
Qed.

(** The map of a process connected to server 7 under CID [0x102]. *)
Definition demo_map : ConnectionMap := (add_connection connection_map_new 7 MessagePermissions_default).1.
Lemma demo_map_wf : wf_connections demo_map.
Proof.
  eapply wf_map_step; [apply connection_map_new_wf|apply add_connection_step, connection_map_new_wf].
Qed.

Lemma cid_roundtrip_witness : unpack_cid (pack_cid 63 MAX_GENERATION) = Ok (63%nat, MAX_GENERATION).
Proof. apply cid_roundtrip; [unfold MAX_CONNECTIONS; lia|rewrite MAX_GENERATION_eq; lia]. Defined.

Lemma cid_stable_witness :
  connection (conn_run demo_map [ConnDisconnect 0x102; ConnAdd 9 MessagePermissions_default]) 0x102
    = Err ServerNotFound
  /\ connection (conn_run demo_map [ConnServerDestroyed 7; ConnAdd 7 MessagePermissions_default]) 0x102
    = Ok (SlotTombstone 1 1).
Proof.
  pose proof (cid_stable demo_map 0x102 (SlotConnected 7 1 1 MessagePermissions_default)
    [ConnDisconnect 0x102; ConnAdd 9 MessagePermissions_default] demo_map_wf eq_refl) as [_ H].
  split; [exact (H [])|reflexivity].
Defined.

Lemma add_connection_correct_witness :
  exists m', add_connection demo_map 7 MessagePermissions_default = (m', Ok (0x102, false))
  /\ wf_connections m'.
Proof.
  pose proof (add_connection_correct demo_map 7 MessagePermissions_default demo_map_wf) as H.
  assert (is_u8 7) as Hu by (unfold is_u8; lia). specialize (H Hu).
  destruct (add_connection demo_map 7 MessagePermissions_default) as [m' r] eqn:E.
  exists m'. destruct H as [Hwf _]. split; [|exact Hwf]. vm_compute in E. injection E as <- <-. reflexivity.
Defined.

Lemma disconnect_correct_witness :
  exists m', disconnect_slot demo_map 0x102 = (m', Ok (Some 7)) /\ wf_connections m'.
Proof.
  pose proof (disconnect_correct demo_map 0x102 demo_map_wf) as H.
  destruct (disconnect_slot demo_map 0x102) as [m' r] eqn:E.
  exists m'. destruct H as [Hwf _]. split; [|exact Hwf]. vm_compute in E. injection E as <- <-. reflexivity.
Defined.
