(* ===== verification/PermissionRequests.v ===== *)
(** * Permission requests ([xous/kernel/src/permission_requests.rs])

    A send that the connection's permissions forbid is recorded in a table of 64 entries and
    its thread is parked until the permission broker answers by id.  The id is the slot index:
    [insert] records, [get] and [take] are the broker's accesses, [tombstone_next] invalidates
    one matching request; [tombstone_all] is the [while let] loop the kernel runs around it
    ([services.rs]).

    The theorems show what the ids are good for: an id names one request until the broker
    takes it, and an invalidated request releases its sender exactly once. *)
From S2P Require Import Prelude Xous.

Definition MAX_PERMISSION_REQUESTS : nat := 64.

Record PermissionRequest : Type := mkRequest {
  sender_pid : Z;
  sender_app_id : AppId;
  sender_tid : Z;
  request_cid : Z;
  request_sidx : Z;
  request_server_sid : SID;
  request_message_id : Z;
  valid : bool
}.

Abbreviation PermissionRequests := (list (option PermissionRequest)).
Definition requests_new : PermissionRequests := repeat None MAX_PERMISSION_REQUESTS.

Definition is_vacant (entry : option PermissionRequest) : bool :=
  match entry with None => true | Some _ => false end.

Definition insert_request (entries : PermissionRequests) (current_pid : Z) (app : AppId)
    (tid cid sidx : Z) (sid : SID) (message_id : Z) : PermissionRequests * option Z :=
  match position is_vacant entries with
  | None => (entries, None)
  | Some slot =>
      (<[slot := Some (mkRequest current_pid app tid cid sidx sid message_id true)]> entries,
       Some (u16 (Z.of_nat slot)))
  end.

Definition get_request (entries : PermissionRequests) (id : Z) : option PermissionRequest :=
  mjoin (entries !! Z.to_nat id).

Definition take_request (entries : PermissionRequests) (id : Z)
    : PermissionRequests * option PermissionRequest :=
  match entries !! Z.to_nat id with
  | None => (entries, None)
  | Some entry => (<[Z.to_nat id := None]> entries, entry)
  end.

Definition invalidated (r : PermissionRequest) : PermissionRequest :=
  mkRequest (sender_pid r) (sender_app_id r) (sender_tid r) (request_cid r) (request_sidx r)
    (request_server_sid r) (request_message_id r) false.

(** The entry [find_map] stops at. *)
Definition matching (pred : PermissionRequest -> bool) (entry : option PermissionRequest) : bool :=
  match entry with Some r => valid r && pred r | None => false end.

Definition tombstone_next (entries : PermissionRequests) (pred : PermissionRequest -> bool)
    : PermissionRequests * option (Z * Z * Z) :=
  match position (matching pred) entries with
  | None => (entries, None)
  | Some slot =>
      match entries !! slot with
      | Some (Some r) =>
          (<[slot := Some (invalidated r)]> entries,
           Some (sender_pid r, sender_tid r, u16 (Z.of_nat slot)))
      | _ => (entries, None)
      end
  end.

(** [while let Some(sender) = tombstone_next(pred)]: the senders released, in order; [None] is
    a loop that has not ended. *)
Fixpoint tombstone_all (fuel : nat) (entries : PermissionRequests) (pred : PermissionRequest -> bool)
    : option (PermissionRequests * list (Z * Z * Z)) :=
  match fuel with
  | O => None
  | S fuel =>
      match tombstone_next entries pred with
      | (entries, None) => Some (entries, [])
      | (entries, Some sender) =>
          let! (entries, senders) := tombstone_all fuel entries pred in
          Some (entries, sender :: senders)
      end
  end.

(** ** Draining *)

(** What the loop does to each entry, and the sender it releases for it. *)
Definition drained (pred : PermissionRequest -> bool) (entry : option PermissionRequest)
    : option PermissionRequest :=
  if matching pred entry then invalidated <$> entry else entry.
Definition released (pred : PermissionRequest -> bool) (slot : nat) (entry : option PermissionRequest)
    : option (Z * Z * Z) :=
  match entry with
  | Some r => if valid r && pred r then Some (sender_pid r, sender_tid r, u16 (Z.of_nat slot)) else None
  | None => None
  end.
Fixpoint released_from (pred : PermissionRequest -> bool) (slot : nat) (entries : PermissionRequests)
    : list (Z * Z * Z) :=
  match entries with
  | [] => []
  | e :: entries => option_list (released pred slot e) ++ released_from pred (S slot) entries
  end.

Lemma matching_invalidated pred r : matching pred (Some (invalidated r)) = false.
Proof. done. Qed.

Lemma drained_id pred entries :
  (forall i e, entries !! i = Some e -> matching pred e = false) -> map (drained pred) entries = entries.
Proof.
  induction entries as [|e entries IH]; intros H; [done|]. cbn. rewrite IH.
  - unfold drained. by rewrite (H 0%nat e eq_refl).
  - intros i e' Hi. by apply (H (S i)).
Qed.

Lemma released_from_nil pred k entries :
  (forall i e, entries !! i = Some e -> matching pred e = false) -> released_from pred k entries = [].
Proof.
  revert k. induction entries as [|e entries IH]; intros k H; [done|]. cbn. rewrite IH.
  - specialize (H 0%nat e eq_refl). destruct e as [r|]; cbn in *; [by rewrite H|done].
  - intros i e' Hi. by apply (H (S i)).
Qed.

(** Invalidating the first match: the rest of the drain is unchanged. *)
Lemma drain_step pred entries slot r :
  entries !! slot = Some (Some r) -> matching pred (Some r) = true ->
  (forall j x, (j < slot)%nat -> entries !! j = Some x -> matching pred x = false) ->
  map (drained pred) entries = map (drained pred) (<[slot := Some (invalidated r)]> entries)
  /\ (forall k, released_from pred k entries
      = (sender_pid r, sender_tid r, u16 (Z.of_nat (k + slot)))
        :: released_from pred k (<[slot := Some (invalidated r)]> entries))
  /\ countb (matching pred) (<[slot := Some (invalidated r)]> entries)
     = countb (matching pred) entries - 1.
Proof.
  intros Hs Hm Hmin. split_and!.
  - apply list_eq. intros i. rewrite !list_lookup_fmap. destruct (decide (slot = i)) as [<-|].
    + rewrite list_lookup_insert_eq by (by eapply lookup_lt_Some). rewrite Hs. cbn.
      unfold drained. by rewrite Hm.
    + by rewrite list_lookup_insert_ne.
  - revert slot Hs Hmin. induction entries as [|e entries IH]; intros slot Hs Hmin k; [done|].
    destruct slot as [|slot].
    + injection Hs as ->. cbn [released_from insert list_insert]. cbn. cbn in Hm. rewrite Hm, Nat.add_0_r. done.
    + cbn in Hs. assert (released pred k e = None) as He.
      { specialize (Hmin 0%nat e ltac:(lia) eq_refl). destruct e as [r'|]; [|done]. cbn in *. by rewrite Hmin. }
      change (<[S slot := ?x]> (e :: entries)) with (e :: <[slot := x]> entries).
      cbn [released_from]. rewrite He. cbn [option_list app]. rewrite (IH slot Hs).
      * by replace (k + S slot)%nat with (S k + slot)%nat by lia.
      * intros j x Hj Hx. by apply (Hmin (S j) x); [lia|].
  - rewrite (countb_insert _ _ _ _ _ Hs), Hm, matching_invalidated. lia.
Qed.

(** The drain ends, invalidates exactly the valid requests that match and releases the
    sender of each of them once, in the order of their ids; every other request is left as it
    is, and no id is freed. *)
Theorem tombstone_all_correct entries pred fuel :
  (length entries < fuel)%nat ->
  tombstone_all fuel entries pred
  = Some (map (drained pred) entries, released_from pred 0 entries).
Proof.
  intros Hf.
  assert (forall n entries, countb (matching pred) entries < Z.of_nat n ->
    tombstone_all n entries pred = Some (map (drained pred) entries, released_from pred 0 entries)) as H.
  { clear. induction n as [|n IH]; intros entries Hn.
    - pose proof (countb_nonneg (matching pred) entries). lia.
    - cbn [tombstone_all]. unfold tombstone_next. destruct (position _ _) as [slot|] eqn:E.
      + apply position_Some in E as [(e & He & Hm) Hmin]. rewrite He. destruct e as [r|]; [|done].
        destruct (drain_step pred entries slot r He Hm Hmin) as (E1 & E2 & E3).
        rewrite IH by lia. by rewrite <-E1, (E2 0%nat).
      + rewrite position_None in E. by rewrite drained_id, released_from_nil. }
  apply H. pose proof (countb_le_length (matching pred) entries). lia.
Qed.

(** ** Ids *)

Inductive request_op : Type :=
| ReqInsert (current_pid : Z) (app : AppId) (tid cid sidx : Z) (sid : SID) (message_id : Z)
| ReqTake (id : Z)
| ReqTombstone (pred : PermissionRequest -> bool).

(** One operation: the table, and the id issued by an insertion. *)
Definition request_step (entries : PermissionRequests) (o : request_op)
    : PermissionRequests * option Z :=
  match o with
  | ReqInsert pid app tid cid sidx sid message_id =>
      insert_request entries pid app tid cid sidx sid message_id
  | ReqTake id => ((take_request entries id).1, None)
  | ReqTombstone pred => ((tombstone_next entries pred).1, None)
  end.
Fixpoint request_run (entries : PermissionRequests) (ops : list request_op)
    : PermissionRequests * list Z :=
  match ops with
  | [] => (entries, [])
  | o :: ops =>
      let '(entries, id) := request_step entries o in
      let '(entries, ids) := request_run entries ops in
      (entries, option_list id ++ ids)
  end.

(** The same request, possibly invalidated meanwhile. *)
Definition same_request (r r' : PermissionRequest) : Prop := r' = r \/ r' = invalidated r.

Definition is_take (id : Z) (o : request_op) : bool :=
  match o with ReqTake id' => bool_decide (Z.to_nat id' = Z.to_nat id) | _ => false end.

Lemma insert_request_spec entries pid app tid cid sidx sid mid :
  length entries = MAX_PERMISSION_REQUESTS ->
  match insert_request entries pid app tid cid sidx sid mid with
  | (entries', Some id) =>
      0 <= id < 64 /\ entries !! Z.to_nat id = Some None
      /\ entries' = <[Z.to_nat id := Some (mkRequest pid app tid cid sidx sid mid true)]> entries
  | (entries', None) => entries' = entries /\ forall i, entries !! i <> Some None
  end.
Proof.
  intros Hlen. unfold insert_request. destruct (position _ _) as [slot|] eqn:E.
  - apply position_Some in E as [(e & He & Hv) _]. destruct e; [done|].
    pose proof (lookup_lt_Some _ _ _ He) as Hlt. rewrite Hlen in Hlt. unfold MAX_PERMISSION_REQUESTS in Hlt.
    assert (u16 (Z.of_nat slot) = Z.of_nat slot) as -> by (apply u16_id; unfold is_u16; lia).
    rewrite Nat2Z.id. split; [lia|done].
  - rewrite position_None in E. split; [done|]. intros i Hi. by specialize (E i _ Hi).
Qed.

Lemma tombstone_next_lookup entries pred i r :
  entries !! i = Some (Some r) ->
  exists r', (tombstone_next entries pred).1 !! i = Some (Some r') /\ (r' = r \/ r' = invalidated r).
Proof.
  intros Hi. unfold tombstone_next. destruct (position _ _) as [slot|]; [|by exists r; auto].
  destruct (entries !! slot) as [[r0|]|] eqn:Es; [|by exists r; auto..].
  destruct (decide (slot = i)) as [->|]; cbn.
  - exists (invalidated r0). rewrite list_lookup_insert_eq by (by eapply lookup_lt_Some).
    simplify_eq. auto.
  - exists r. rewrite list_lookup_insert_ne by done. auto.
Qed.

Lemma request_step_length entries o : length (request_step entries o).1 = length entries.
Proof.
  destruct o; cbn; unfold insert_request, take_request, tombstone_next;
    repeat case_match; simplify_eq; cbn; by rewrite ?length_insert.
Qed.

Lemma request_step_stable entries o id r :
  length entries = MAX_PERMISSION_REQUESTS -> is_take id o = false -> 0 <= id ->
  entries !! Z.to_nat id = Some (Some r) ->
  let '(entries', issued) := request_step entries o in
  issued <> Some id
  /\ exists r', entries' !! Z.to_nat id = Some (Some r') /\ same_request r r'.
Proof.
  intros Hlen Ho Hid Hr. destruct o as [pid app tid cid sidx sid mid|id'|pred]; cbn in *.
  - pose proof (insert_request_spec entries pid app tid cid sidx sid mid Hlen) as H.
    destruct (insert_request _ _ _ _ _ _ _ _) as [entries' [id'|]].
    + destruct H as (Hid' & Hnone & ->). assert (id' <> id) as Hne by (intros ->; congruence).
      split; [congruence|]. exists r. rewrite list_lookup_insert_ne by lia. split; [done|by left].
    + destruct H as [-> _]. split; [done|]. exists r. split; [done|by left].
  - split; [done|]. exists r. unfold take_request. split; [|by left].
    apply bool_decide_eq_false in Ho. destruct (entries !! Z.to_nat id') as [e|] eqn:E; [|done]. cbn.
    by rewrite list_lookup_insert_ne.
  - split; [done|]. destruct (tombstone_next_lookup entries pred _ _ Hr) as (r' & ? & ?). by exists r'.
Qed.

Lemma same_request_step r r1 r2 : same_request r r1 -> same_request r1 r2 -> same_request r r2.
Proof. unfold same_request. intros [-> | ->] [-> | ->]; auto. Qed.

Lemma request_run_stable ops : forall entries id r,
  length entries = MAX_PERMISSION_REQUESTS -> 0 <= id -> forallb (fun o => negb (is_take id o)) ops = true ->
  entries !! Z.to_nat id = Some (Some r) ->
  let '(entries', issued) := request_run entries ops in
  (id ∉ issued) /\ exists r', entries' !! Z.to_nat id = Some (Some r') /\ same_request r r'.
Proof.
  induction ops as [|o ops IH]; intros entries id r Hlen Hid Hops Hr; cbn.
  - split; [apply not_elem_of_nil|]. exists r. split; [done|by left].
  - cbn in Hops. apply andb_true_iff in Hops as [Ho Hops]. apply negb_true_iff in Ho.
    pose proof (request_step_stable entries o id r Hlen Ho Hid Hr) as H.
    pose proof (request_step_length entries o) as Hl.
    destruct (request_step entries o) as [e1 i1]. cbn in Hl. destruct H as (Hi1 & r1 & Hr1 & Hs1).
    specialize (IH e1 id r1 ltac:(congruence) Hid Hops Hr1).
    destruct (request_run e1 ops) as [e2 i2]. destruct IH as (Hi2 & r2 & Hr2 & Hs2).
    split; [|exists r2; split; [done|by eapply same_request_step]].
    destruct i1 as [i1|]; cbn; [|done]. apply not_elem_of_cons. split; [congruence|done].
Qed.

(** An id names one request until the broker takes it: through any history of insertions,
    invalidations and answers to other ids, [get] on the id returns that request, at most
    invalidated, and no other insertion is given the same id. *)
Theorem request_id_stable entries pid app tid cid sidx sid mid entries1 id ops :
  length entries = MAX_PERMISSION_REQUESTS ->
  insert_request entries pid app tid cid sidx sid mid = (entries1, Some id) ->
  forallb (fun o => negb (is_take id o)) ops = true ->
  let '(entries2, issued) := request_run entries1 ops in
  (id ∉ issued)
  /\ exists r, get_request entries2 id = Some r
       /\ same_request (mkRequest pid app tid cid sidx sid mid true) r
       /\ (take_request entries2 id).2 = Some r.
Proof.
  intros Hlen Hins Hops. pose proof (insert_request_spec entries pid app tid cid sidx sid mid Hlen) as H.
  rewrite Hins in H. destruct H as (Hid & Hnone & ->).
  pose proof (request_run_stable ops (<[Z.to_nat id := Some (mkRequest pid app tid cid sidx sid mid true)]> entries)
    id (mkRequest pid app tid cid sidx sid mid true)) as H.
  rewrite length_insert in H. specialize (H Hlen ltac:(lia) Hops).
  rewrite list_lookup_insert_eq in H by (by eapply lookup_lt_Some). specialize (H eq_refl).
  destruct (request_run _ ops) as [e2 issued]. destruct H as (Hni & r & Hr & Hs).
  split; [done|]. exists r. unfold get_request, take_request. rewrite Hr. by split_and!.
Qed.

(** ** Examples *)

Definition demo_requests : PermissionRequests :=
  (insert_request requests_new 5 (mkAppId []) 1 0x102 7 (mkSID 1 2 3 4) 70).1.

Lemma tombstone_all_correct_witness :
  tombstone_all 65 demo_requests (fun r => sender_pid r =? 5)
  = Some (map (drained (fun r => sender_pid r =? 5)) demo_requests, [(5, 1, 0)]).
Proof. rewrite tombstone_all_correct; [reflexivity|]. vm_compute. lia. Defined.

Lemma request_id_stable_witness :
  exists r, get_request
      (request_run demo_requests [ReqInsert 6 (mkAppId []) 2 0x103 8 (mkSID 1 2 3 4) 71;
         ReqTombstone (fun r => sender_pid r =? 5); ReqTake 1]).1 0 = Some r
    /\ sender_pid r = 5 /\ valid r = false.
Proof.
  pose proof (request_id_stable requests_new 5 (mkAppId []) 1 0x102 7 (mkSID 1 2 3 4) 70 demo_requests 0
    [ReqInsert 6 (mkAppId []) 2 0x103 8 (mkSID 1 2 3 4) 71;
     ReqTombstone (fun r => sender_pid r =? 5); ReqTake 1] eq_refl eq_refl eq_refl) as H.
  destruct (request_run _ _) as [e2 issued] eqn:E. destruct H as (_ & r & Hr & _ & _).
  exists r. split; [exact Hr|]. vm_compute in E. injection E as <- _. vm_compute in Hr.
  injection Hr as <-. split; reflexivity.
Defined.
