(* ===== verification/Process.v ===== *)
(** * Processes ([xous/kernel/src/process.rs])

    [Process] is the process record without its page tables.  The methods on the connection
    map are in [Connections]; here are the thread states, kept in step with the scheduler,
    the permissions, the event handlers, the name and the choice of virtual addresses.

    [coherent] relates the scheduler to the table of processes: the queue of each priority
    holds exactly the ready threads of that priority, and the interrupt flag is up exactly
    when some process runs its interrupt thread.  The theorems show that changing a thread's
    state or priority keeps the two coherent and never panics while some other thread is
    ready. *)
From S2P Require Import Prelude Xous SysCall Permissions Scheduler Connections.

Definition MEMORY_PERMISSION_COUNT : nat := 8.
Definition MAX_PROCESS_NAME_LEN : nat := 32.
Definition INITIAL_TID : nat := 1.
(** [keyos/src/lib.rs]. *)
Definition MMAP_AREA_VIRT : Z := 0x30000000.
Definition MMAP_AREA_VIRT_END : Z := 0x40000000.
Definition MEMORY_MIRROR_AREA_VIRT : Z := 0x40000000.
Definition RAM_SIZE : Z := 128 * 1024 * 1024.
Definition PLAINTEXT_DRAM_BASE : Z := 0x20000000.
Definition PLAINTEXT_DRAM_END : Z := PLAINTEXT_DRAM_BASE + RAM_SIZE.
Definition ENCRYPTED_DRAM_BASE : Z := 0x40000000.
Definition ENCRYPTED_DRAM_END : Z := ENCRYPTED_DRAM_BASE + RAM_SIZE.
Definition is_address_encrypted (addr : Z) : bool :=
  (ENCRYPTED_DRAM_BASE <=? addr) && (addr <? ENCRYPTED_DRAM_END).
Definition is_address_in_plaintext_dram (addr : Z) : bool :=
  (PLAINTEXT_DRAM_BASE <=? addr) && (addr <? PLAINTEXT_DRAM_END).
Definition to_encrypted_phys_addr (addr : Z) : Z :=
  Z.lor ENCRYPTED_DRAM_BASE (Z.land addr (PLAINTEXT_DRAM_BASE - 1)).
Definition to_plaintext_phys_addr (addr : Z) : Z :=
  Z.lor PLAINTEXT_DRAM_BASE (Z.land addr (ENCRYPTED_DRAM_BASE - 1)).

Inductive ThreadState : Type :=
| TFree
| TReady
| TWaitJoin (tid : Z)
| TWaitBlocking (sidx : Z)
| TWaitReceive (sidx : Z)
| TWaitFutex (addr : Z)
| TRetryConnect (sid_hash : Z)
| TRetryQueueFull (sidx : Z)
| TWaitMapZero
| TRetryMapZero
| TRetryPermission (request_id : Z).

#[export] Instance ThreadState_eq_dec : EqDecision ThreadState.
Proof. solve_decision. Defined.

Record EventHandler : Type := mkEventHandler { handler_sid : SID; handler_message_id : Z }.

Record Process : Type := mkProcess {
  process_pid : Z;
  ppid : option Z;
  process_name : option (list Z);
  threads : list ThreadState;
  thread_priorities : list ThreadPriority;
  system_event_handlers : list (option EventHandler);
  process_app_id : AppId;
  memory_permissions : list MessageRange; (* [Range<usize>] *)
  syscall_permissions : Z;                (* u64 *)
  connection_map : ConnectionMap;
  allocation_hint : Z;
  next_mirror_address : Z;
  aslr_slide : Z
}.

Definition THREADS : nat := Z.to_nat MAX_THREAD_COUNT.

Definition Process_new (pid parent : Z) (app_id : AppId) : Process :=
  mkProcess pid (Some parent) None (repeat TFree THREADS) (repeat AppDefault THREADS)
    (repeat None NUM_SYSTEM_EVENTS) app_id (repeat (mkMsgRange 0 0) MEMORY_PERMISSION_COUNT) 0
    connection_map_new MMAP_AREA_VIRT MEMORY_MIRROR_AREA_VIRT 0.

Definition set_threads (p : Process) (t : list ThreadState) : Process :=
  mkProcess (process_pid p) (ppid p) (process_name p) t (thread_priorities p)
    (system_event_handlers p) (process_app_id p) (memory_permissions p) (syscall_permissions p)
    (connection_map p) (allocation_hint p) (next_mirror_address p) (aslr_slide p).
Definition set_priorities (p : Process) (t : list ThreadPriority) : Process :=
  mkProcess (process_pid p) (ppid p) (process_name p) (threads p) t
    (system_event_handlers p) (process_app_id p) (memory_permissions p) (syscall_permissions p)
    (connection_map p) (allocation_hint p) (next_mirror_address p) (aslr_slide p).
Definition set_allocation_hint (p : Process) (h : Z) : Process :=
  mkProcess (process_pid p) (ppid p) (process_name p) (threads p) (thread_priorities p)
    (system_event_handlers p) (process_app_id p) (memory_permissions p) (syscall_permissions p)
    (connection_map p) h (next_mirror_address p) (aslr_slide p).
Definition set_memory_permissions (p : Process) (l : list MessageRange) : Process :=
  mkProcess (process_pid p) (ppid p) (process_name p) (threads p) (thread_priorities p)
    (system_event_handlers p) (process_app_id p) l (syscall_permissions p)
    (connection_map p) (allocation_hint p) (next_mirror_address p) (aslr_slide p).
Definition set_syscall_permissions (p : Process) (permission_mask : Z) : Process :=
  mkProcess (process_pid p) (ppid p) (process_name p) (threads p) (thread_priorities p)
    (system_event_handlers p) (process_app_id p) (memory_permissions p) permission_mask
    (connection_map p) (allocation_hint p) (next_mirror_address p) (aslr_slide p).
Definition set_handlers (p : Process) (l : list (option EventHandler)) : Process :=
  mkProcess (process_pid p) (ppid p) (process_name p) (threads p) (thread_priorities p)
    l (process_app_id p) (memory_permissions p) (syscall_permissions p)
    (connection_map p) (allocation_hint p) (next_mirror_address p) (aslr_slide p).
Definition set_process_name (p : Process) (name : option (list Z)) : Process :=
  mkProcess (process_pid p) (ppid p) name (threads p) (thread_priorities p)
    (system_event_handlers p) (process_app_id p) (memory_permissions p) (syscall_permissions p)
    (connection_map p) (allocation_hint p) (next_mirror_address p) (aslr_slide p).

(** ** Virtual addresses *)

Definition release_allocation_hint (p : Process) (virt : Z) : Process :=
  if (MMAP_AREA_VIRT <=? virt) && (virt <? MMAP_AREA_VIRT_END)
  then set_allocation_hint p (Z.min (allocation_hint p) virt) else p.

(** [free_run from stop needed] is [MemoryMapping::find_free_run] on the process's tables. *)
Definition find_virtual_address (free_run : Z -> Z -> Z -> option Z) (p : Process) (virt_ptr size : Z)
    : Process * result Error Z :=
  if negb (virt_ptr =? 0) then (p, Ok virt_ptr) else
  if MMAP_AREA_VIRT_END - MMAP_AREA_VIRT <? size then (p, Err OutOfMemory) else
  let needed := size / PAGE_SIZE in
  let start :=
    match free_run (allocation_hint p) MMAP_AREA_VIRT_END needed with
    | Some start => Some start
    | None => free_run MMAP_AREA_VIRT
                (Z.min (saturating_add (allocation_hint p) size) MMAP_AREA_VIRT_END) needed
    end in
  match start with
  | None => (p, Err BadAddress)
  | Some start =>
      (set_allocation_hint p (Z.min (usize (start + size)) MMAP_AREA_VIRT_END), Ok start)
  end.

(** ** Threads; [None] is a panic *)

Definition thread_state (p : Process) (tid : nat) : option ThreadState := threads p !! tid.
Definition thread_priority (p : Process) (tid : nat) : option ThreadPriority :=
  thread_priorities p !! tid.

Definition set_thread_state (sch : Scheduler) (p : Process) (tid : nat) (state : ThreadState)
    : option (Scheduler * Process) :=
  let! prio := thread_priority p tid in
  let! old := thread_state p tid in
  let! sch := if decide (old = TReady /\ state <> TReady)
              then park_thread sch (process_pid p) (Z.of_nat tid) prio else Some sch in
  let! sch := if decide (old <> TReady /\ state = TReady)
              then ready_thread sch (process_pid p) (Z.of_nat tid) prio else Some sch in
  Some (sch, set_threads p (<[tid := state]> (threads p))).

Definition set_thread_priority (sch : Scheduler) (p : Process) (tid : nat) (priority : ThreadPriority)
    : option (Scheduler * Process) :=
  let! current_priority := thread_priority p tid in
  if decide (current_priority = priority) then Some (sch, p) else
  let! state := thread_state p tid in
  let! sch :=
    if decide (state = TReady) then
      let! sch := park_thread sch (process_pid p) (Z.of_nat tid) current_priority in
      ready_thread sch (process_pid p) (Z.of_nat tid) priority
    else Some sch in
  Some (sch, set_priorities p (<[tid := priority]> (thread_priorities p))).

(** The [for tid in 1..MAX_THREAD_COUNT] of [wake_threads_with_state]. *)
Fixpoint wake_loop (tids : list nat) (sch : Scheduler) (p : Process) (state : ThreadState) (n : Z)
    : option (Scheduler * Process) :=
  match tids with
  | [] => Some (sch, p)
  | tid :: tids =>
      let! st := thread_state p tid in
      if decide (st = state) then
        let! (sch, p) := set_thread_state sch p tid TReady in
        if n - 1 =? 0 then Some (sch, p) else wake_loop tids sch p state (n - 1)
      else wake_loop tids sch p state n
  end.
Definition wake_threads_with_state (sch : Scheduler) (p : Process) (state : ThreadState) (n : Z)
    : option (Scheduler * Process) :=
  if n =? 0 then Some (sch, p) else wake_loop (seq 1 (THREADS - 1)) sch p state n.

(** The first loop of [terminate]: every thread but the interrupt thread is freed. *)
Fixpoint free_threads (tids : list nat) (sch : Scheduler) (p : Process) : option (Scheduler * Process) :=
  match tids with
  | [] => Some (sch, p)
  | tid :: tids =>
      let! (sch, p) := set_thread_state sch p tid TFree in free_threads tids sch p
  end.
Definition terminate_threads (sch : Scheduler) (p : Process) : option (Scheduler * Process) :=
  free_threads (seq 1 (THREADS - 1)) sch p.

(** ** Permissions, event handlers, name *)

(** The loop of [check_memory_permission]: it stops at the first unused region. *)
Fixpoint region_permitted (regions : list MessageRange) (addr : Z) : bool :=
  match regions with
  | [] => false
  | r :: regions =>
      if range_contains r addr then true
      else if r_end r =? 0 then false else region_permitted regions addr
  end.
Definition check_memory_permission (p : Process) (addr : Z) : result Error unit :=
  if (process_pid p =? 1) || is_address_in_plaintext_dram addr || is_address_encrypted addr then Ok tt
  else if region_permitted (memory_permissions p) addr then Ok tt
  else Err AccessDenied.

Fixpoint add_region (regions : list MessageRange) (r : MessageRange) : option (list MessageRange) :=
  match regions with
  | [] => None
  | r0 :: regions =>
      if r_end r0 =? 0 then Some (r :: regions) else cons r0 <$> add_region regions r
  end.
Definition add_memory_permission (p : Process) (addr_range : MessageRange)
    : Process * result Error unit :=
  match add_region (memory_permissions p) addr_range with
  | Some regions => (set_memory_permissions p regions, Ok tt)
  | None => (p, Err KernelTableFull)
  end.

Definition set_system_event_handler (p : Process) (event : SystemEvent) (sid : SID) (id : Z)
    : option (Process * result Error unit) :=
  let i := Z.to_nat (SystemEvent_as_usize event) in
  let! existing := system_event_handlers p !! i in
  match existing with
  | Some _ => Some (p, Err MemoryInUse)
  | None => Some (set_handlers p (<[i := Some (mkEventHandler sid id)]> (system_event_handlers p)), Ok tt)
  end.
Definition get_system_event_handler (p : Process) (event : SystemEvent) : option (option (SID * Z)) :=
  let! h := system_event_handlers p !! Z.to_nat (SystemEvent_as_usize event) in
  Some ((fun h => (handler_sid h, handler_message_id h)) <$> h).

(** [utf8] is [core::str::from_utf8(..).is_ok()]. *)
Definition get_name (utf8 : list Z -> bool) (p : Process) : option (list Z) :=
  match process_name p with
  | None => None
  | Some name_bytes =>
      let name_len := default MAX_PROCESS_NAME_LEN (position (fun b => b =? 0) name_bytes) in
      let name := take name_len name_bytes in
      if utf8 name && negb (Nat.eqb (length name) 0) then Some name else None
  end.
Definition set_name (utf8 : list Z -> bool) (p : Process) (name_bytes : list Z)
    : Process * result Error unit :=
  if Nat.ltb MAX_PROCESS_NAME_LEN (length name_bytes) then (p, Err InvalidString) else
  match get_name utf8 p with
  | Some _ => (p, Err InternalError)
  | None =>
      (set_process_name p (Some (name_bytes ++ repeat 0 (MAX_PROCESS_NAME_LEN - length name_bytes))), Ok tt)
  end.

(** ** Queues and threads *)

Definition in_queue (qs : list (list thread)) (pr : nat) (t : thread) : Prop :=
  exists l, qs !! pr = Some l /\ t ∈ l.

Lemma in_queue_concat qs t : t ∈ concat qs <-> exists pr, in_queue qs pr t.
Proof.
  rewrite list_elem_of_In, in_concat. split.
  - intros (l & Hl & Ht). apply list_elem_of_In, list_elem_of_lookup in Hl as [pr Hl].
    exists pr, l. split; [done|by apply list_elem_of_In].
  - intros (pr & l & Hl & Ht). exists l. split; [|by apply list_elem_of_In].
    apply list_elem_of_In. by eapply list_elem_of_lookup_2.
Qed.

Lemma in_queue_unique qs p q t :
  NoDup (concat qs) -> in_queue qs p t -> in_queue qs q t -> p = q.
Proof.
  intros Hnd (l & Hl & Ht) (l' & Hl' & Ht'). destruct (decide (q = p)) as [|Hne]; [done|exfalso].
  destruct (concat_split qs p l Hl) as (rest & Hperm & _ & Hrest).
  rewrite Hperm in Hnd. apply list.NoDup_app in Hnd as (_ & Hd & _).
  by apply (Hd t Ht), (Hrest q l').
Qed.

Lemma in_queue_ready qs t p q u :
  (p < length qs)%nat -> in_queue (spec_ready qs t p) q u <-> in_queue qs q u \/ (u = t /\ q = p).
Proof.
  intros Hp. unfold in_queue, spec_ready. destruct (decide (p = q)) as [<-|Hne].
  - destruct (lookup_lt_is_Some_2 qs p Hp) as [l Hl]. rewrite list_lookup_alter_eq, Hl. cbn. split.
    + intros (l' & [= <-] & Hu). apply elem_of_app in Hu as [Hu|Hu]; [left; by exists l|].
      right. by apply list_elem_of_singleton in Hu.
    + intros [(l' & [= <-] & Hu)|[-> _]]; eexists; (split; [done|]); apply elem_of_app; [by left|].
      right. by apply list_elem_of_singleton.
  - rewrite list_lookup_alter_ne by done. split; [by left|]. by intros [?|[_ ->]].
Qed.

Lemma in_queue_park qs t p q u :
  in_queue (spec_park qs t p) q u <-> in_queue qs q u /\ ~ (u = t /\ q = p).
Proof.
  unfold in_queue, spec_park. destruct (decide (p = q)) as [<-|Hne].
  - rewrite list_lookup_alter_eq. destruct (qs !! p) as [l|] eqn:Hl; cbn.
    + split.
      * intros (l' & [= <-] & Hu). apply list_elem_of_In, filter_In in Hu as [Hu Hne].
        split; [exists l; split; [done|by apply list_elem_of_In]|]. intros [-> _].
        by rewrite bool_decide_eq_true_2 in Hne.
      * intros [(l' & [= <-] & Hu) Hne]. eexists. split; [done|]. apply list_elem_of_In, filter_In.
        split; [by apply list_elem_of_In|]. rewrite bool_decide_eq_false_2; [done|]. intros ->. by apply Hne.
    + split; [by intros (? & ? & ?)|by intros [(? & ? & ?) _]].
  - rewrite list_lookup_alter_ne by done. split; [|by intros [? _]]. intros H. split; [done|]. by intros [_ ->].
Qed.

(** ** Coherence *)

Abbreviation ProcessTable := (gmap Z Process).

(** Thread [tid] of process [pid] is ready, with priority [pr]. *)
Definition is_ready (procs : ProcessTable) (pid : Z) (tid : nat) (pr : nat) : Prop :=
  exists p q, procs !! pid = Some p /\ threads p !! tid = Some TReady
    /\ thread_priorities p !! tid = Some q /\ prio q = pr.

Definition wf_process (pid : Z) (p : Process) : Prop :=
  process_pid p = pid /\ 1 <= pid <= MAX_PROCESS_COUNT
  /\ length (threads p) = THREADS /\ length (thread_priorities p) = THREADS.

(** [orphan]: an interrupt handler began and its process is gone, so no thread will end it. *)
Definition coherent_gen (orphan : Prop) (sch : Scheduler) (procs : ProcessTable) : Prop :=
  map_Forall wf_process procs
  /\ (exists qs, sched_repr sch qs
        /\ forall pr pid tid, in_queue qs pr (pid, tid)
             <-> exists n, tid = Z.of_nat n /\ n <> 0%nat /\ is_ready procs pid n pr)
  /\ (in_irq_handler sch = true <-> orphan \/ exists pid pr, is_ready procs pid 0 pr)
  /\ (forall pid pid' pr pr', is_ready procs pid 0 pr -> is_ready procs pid' 0 pr' -> pid = pid')
  /\ (orphan -> forall pid pr, ~ is_ready procs pid 0 pr).

Section Coherence.
Context {orphan : Prop}.
Abbreviation coherent := (coherent_gen orphan).

(** A turn that ends leaves the same threads in the queues. *)
Lemma yield_coherent sch procs pid tid priority :
  coherent sch procs -> exists sch', yield_thread sch pid tid priority = Some sch' /\ coherent sch' procs.
Proof.
  intros (Hwf & (qs & Hrepr & Hq) & Hirq & Huniq & Horphan).
  destruct (yield_thread_spec sch qs pid tid priority Hrepr) as (sch' & E & Hrepr' & Hi). exists sch'. split; [done|].
  split; [done|]. split; [|split; [by rewrite Hi|done]]. exists (spec_yield qs (pid, tid) (prio priority)). split; [done|].
  intros pr q t. rewrite <-Hq. unfold in_queue, spec_yield. destruct (qs !! pr) as [l|] eqn:El.
  - rewrite (lookup_alter_cases _ _ _ _ _ El). case_decide; [|done]. subst pr.
    assert (forall u, u ∈ (match l with [] => [] | h :: r => if decide (h = (pid, tid)) then r ++ [h] else l end) <-> u ∈ l) as Hl.
    { intros u. destruct l as [|h r]; [done|]. case_decide; [|done]. rewrite list.elem_of_app, list_elem_of_singleton, elem_of_cons. tauto. }
    naive_solver.
  - assert (alter (fun l : list thread => match l with [] => [] | h :: r => if decide (h = (pid, tid)) then r ++ [h] else l end)
      (prio priority) qs !! pr = None) as ->; [|done]. apply lookup_ge_None. rewrite length_alter. by apply lookup_ge_None.
Qed.

(** Changing one thread of one process. *)
Lemma is_ready_update procs pid p p' tid0 pid' tid pr :
  procs !! pid = Some p ->
  (forall n, n <> tid0 -> threads p' !! n = threads p !! n /\ thread_priorities p' !! n = thread_priorities p !! n) ->
  (pid', tid) <> (pid, tid0) ->
  is_ready (<[pid := p']> procs) pid' tid pr <-> is_ready procs pid' tid pr.
Proof.
  intros Hp Heq Hne. unfold is_ready. destruct (decide (pid = pid')) as [<-|].
  - rewrite lookup_insert_eq, Hp. assert (tid <> tid0) as Ht by congruence.
    destruct (Heq tid Ht) as [E1 E2]. split; intros (x & q & [= <-] & H1 & H2 & H3).
    + rewrite E1 in H1. rewrite E2 in H2. by exists p, q.
    + rewrite <-E1 in H1. rewrite <-E2 in H2. by exists p', q.
  - by rewrite lookup_insert_ne.
Qed.

Lemma is_ready_self procs pid p' tid pr :
  is_ready (<[pid := p']> procs) pid tid pr
  <-> threads p' !! tid = Some TReady /\ exists q, thread_priorities p' !! tid = Some q /\ prio q = pr.
Proof.
  unfold is_ready. rewrite lookup_insert_eq. split.
  - intros (x & q & [= <-] & H1 & H2 & H3). split; [done|]. by exists q.
  - intros (H1 & q & H2 & H3). by exists p', q.
Qed.

(** Only thread [tid] differs. *)
Definition same_but (p p' : Process) (tid : nat) : Prop :=
  process_pid p' = process_pid p
  /\ length (threads p') = length (threads p)
  /\ length (thread_priorities p') = length (thread_priorities p)
  /\ forall n, n <> tid -> threads p' !! n = threads p !! n
                /\ thread_priorities p' !! n = thread_priorities p !! n.

Lemma wf_same_but pid p p' tid : wf_process pid p -> same_but p p' tid -> wf_process pid p'.
Proof. intros (? & ? & ? & ?) (? & ? & ? & _). unfold wf_process. split_and!; congruence || lia. Qed.

Lemma same_but_threads p tid st : same_but p (set_threads p (<[tid := st]> (threads p))) tid.
Proof.
  split_and!; cbn; rewrite ?length_insert; try done.
  intros n Hn. by rewrite list_lookup_insert_ne by done.
Qed.
Lemma same_but_priorities p tid pr :
  same_but p (set_priorities p (<[tid := pr]> (thread_priorities p))) tid.
Proof.
  split_and!; cbn; rewrite ?length_insert; try done.
  intros n Hn. by rewrite list_lookup_insert_ne by done.
Qed.

(** A change of an ordinary thread: its queue entry must follow it. *)
Lemma coherent_thread sch sch' procs pid p p' tid qs qs' :
  coherent sch procs -> procs !! pid = Some p -> same_but p p' tid -> tid <> 0%nat ->
  sched_repr sch qs ->
  (forall pr pid tid, in_queue qs pr (pid, tid)
     <-> exists n, tid = Z.of_nat n /\ n <> 0%nat /\ is_ready procs pid n pr) ->
  sched_repr sch' qs' -> in_irq_handler sch' = in_irq_handler sch ->
  (forall pr u, in_queue qs' pr u <->
     (u <> (pid, Z.of_nat tid) /\ in_queue qs pr u)
     \/ (u = (pid, Z.of_nat tid) /\ is_ready (<[pid := p']> procs) pid tid pr)) ->
  coherent sch' (<[pid := p']> procs).
Proof.
  intros (Hwf & _ & Hirq & Huniq & Horphan) Hp Hsame Htid Hrepr Hq Hrepr' Hi Hq'.
  pose proof Hsame as (_ & _ & _ & Heq).
  assert (forall pid' pr, is_ready (<[pid := p']> procs) pid' 0 pr <-> is_ready procs pid' 0 pr) as H0.
  { intros pid' pr. apply (is_ready_update procs pid p p' tid); [done|done|congruence]. }
  split; [|split; [|split]].
  - apply map_Forall_insert_2; [|done]. eapply wf_same_but; [by apply Hwf|done].
  - exists qs'. split; [done|]. intros pr pid' tid'. rewrite Hq'. split.
    + intros [[Hne Hin]|[[= -> ->] Hr]]; [|by exists tid].
      apply Hq in Hin as (n & -> & Hn & Hr). exists n. split; [done|]. split; [done|].
      apply (is_ready_update procs pid p p' tid); [done|done| |done]. intros [= -> ->]. done.
    + intros (n & -> & Hn & Hr). destruct (decide ((pid', n) = (pid, tid))) as [[= -> ->]|Hne]; [by right|].
      left. split; [intros [= -> ?%Nat2Z.inj]; congruence|]. apply Hq. exists n. split; [done|]. split; [done|].
      by apply (is_ready_update procs pid p p' tid) in Hr.
  - rewrite Hi, Hirq. by setoid_rewrite H0.
  - split; [intros p1 p2 pr1 pr2 H1 H2; apply H0 in H1, H2; by eapply Huniq|]. intros Ho pid' pr H1%H0. by eapply Horphan.
Qed.

(** A change of an interrupt thread: the interrupt flag must follow it. *)
Lemma coherent_irq sch sch' procs pid p p' :
  coherent sch procs -> procs !! pid = Some p -> same_but p p' 0 ->
  (forall qs, sched_repr sch qs -> sched_repr sch' qs) ->
  (in_irq_handler sch' = true <-> orphan \/
     (exists pr, is_ready (<[pid := p']> procs) pid 0 pr)
     \/ (exists pid' pr, pid' <> pid /\ is_ready procs pid' 0 pr)) ->
  (forall pid' pr pr', is_ready (<[pid := p']> procs) pid 0 pr -> is_ready procs pid' 0 pr' -> pid' = pid) ->
  (orphan -> forall pr, ~ is_ready (<[pid := p']> procs) pid 0 pr) ->
  coherent sch' (<[pid := p']> procs).
Proof.
  intros (Hwf & (qs & Hrepr & Hq) & Hirq & Huniq & Horphan) Hp Hsame Hrepr' Hi Hu Ho.
  pose proof Hsame as (_ & _ & _ & Heq).
  assert (forall pid' n pr, (pid', n) <> (pid, 0%nat) ->
    is_ready (<[pid := p']> procs) pid' n pr <-> is_ready procs pid' n pr) as H0.
  { intros pid' n pr Hne. by apply (is_ready_update procs pid p p' 0). }
  split; [|split; [|split]].
  - apply map_Forall_insert_2; [|done]. eapply wf_same_but; [by apply Hwf|done].
  - exists qs. split; [by apply Hrepr'|]. intros pr pid' tid'. rewrite Hq.
    split; intros (n & -> & Hn & Hr); exists n; (split; [done|]); (split; [done|]).
    + apply H0; [|done]. congruence.
    + apply H0 in Hr; [done|congruence].
  - rewrite Hi. split.
    + intros [?|[(pr & H)|(pid' & pr & Hne & H)]]; [by left|right; by exists pid, pr|].
      right. exists pid', pr. apply H0; [congruence|done].
    + intros [?|(pid' & pr & H)]; [by left|]. destruct (decide (pid' = pid)) as [->|Hne]; [right; left; by exists pr|].
      right; right. exists pid', pr. split; [done|]. apply H0 in H; [done|congruence].
  - split.
    2: { intros Hor pid' pr H. destruct (decide (pid' = pid)) as [->|Hne]; [by eapply Ho|].
         apply H0 in H; [by eapply Horphan|congruence]. }
    intros p1 p2 pr1 pr2 H1 H2.
    destruct (decide (p1 = pid)) as [->|Hn1], (decide (p2 = pid)) as [->|Hn2]; [done| | |].
    + apply H0 in H2; [|congruence]. symmetry. by eapply Hu.
    + apply H0 in H1; [|congruence]. by eapply Hu.
    + apply H0 in H1; [|congruence]. apply H0 in H2; [|congruence]. by eapply Huniq.
Qed.

(** What makes a change of state harmless: an interrupt thread starts only when no other one
    runs, and an ordinary thread stops only while another one stays ready. *)
Definition change_allowed (procs : ProcessTable) (pid : Z) (tid : nat) (state : ThreadState) : Prop :=
  if decide (tid = 0%nat) then
    state = TReady -> forall pid' pr, is_ready procs pid' 0 pr -> pid' = pid
  else
    state <> TReady -> exists pid' tid' pr', tid' <> 0%nat /\ (pid', tid') <> (pid, tid)
                         /\ is_ready procs pid' tid' pr'.

Lemma set_thread_state_same sch procs pid p tid old state :
  coherent sch procs -> procs !! pid = Some p -> threads p !! tid = Some old ->
  (old = TReady <-> state = TReady) ->
  coherent sch (<[pid := set_threads p (<[tid := state]> (threads p))]> procs).
Proof.
  intros Hc Hp Hold Hiff. pose proof Hc as (Hwf & (qs & Hrepr & Hq) & Hirq & Huniq & Horphan).
  pose proof (same_but_threads p tid state) as Hsame. pose proof (lookup_lt_Some _ _ _ Hold) as Hlt.
  assert (forall pr, is_ready (<[pid := set_threads p (<[tid := state]> (threads p))]> procs) pid tid pr
    <-> is_ready procs pid tid pr) as Hr.
  { intros pr. rewrite is_ready_self. cbn. rewrite list_lookup_insert_eq by done. unfold is_ready. split.
    - intros ([= ->] & q & H1 & H2). exists p, q. split_and!; try done. rewrite Hold. f_equal. by apply Hiff.
    - intros (x & q & Hx & H1 & H2 & H3). simplify_eq. rewrite (proj1 Hiff eq_refl). split; [done|by exists q]. }
  destruct (decide (tid = 0%nat)) as [->|Htid].
  - eapply (coherent_irq sch); [done|done|done|done| | |].
    + rewrite Hirq. setoid_rewrite Hr. split.
      * intros [?|(pid' & pr & H)]; [by left|]. right. destruct (decide (pid' = pid)) as [->|]; [left; by exists pr|].
        right. by exists pid', pr.
      * intros [?|[(pr & H)|(pid' & pr & _ & H)]]; [by left|right; by eexists _, _..].
    + intros pid' pr pr' H1 H2. apply Hr in H1. by eapply Huniq.
    + intros Ho pr H1%Hr. by eapply Horphan.
  - eapply (coherent_thread sch sch procs pid p _ tid qs qs); try done.
    intros pr u. setoid_rewrite Hr. destruct (decide (u = (pid, Z.of_nat tid))) as [->|Hne].
    + rewrite Hq. split.
      * intros (n & ->%Nat2Z.inj & _ & ?). by right.
      * intros [[? _]|[_ ?]]; [done|]. by exists tid.
    + split; [by left|]. by intros [[_ ?]|[? _]].
Qed.

Lemma sched_repr_irq sch b qs : sched_repr sch qs -> sched_repr (set_in_irq sch b) qs.
Proof. done. Qed.

(** Starting or stopping an interrupt thread. *)
Lemma set_irq_thread sch procs pid p old state :
  coherent sch procs -> procs !! pid = Some p -> threads p !! 0%nat = Some old ->
  change_allowed procs pid 0 state -> (orphan -> state <> TReady) -> (old = TReady <-> state = TReady) \/ (
  coherent (set_in_irq sch (bool_decide (state = TReady)))
    (<[pid := set_threads p (<[0%nat := state]> (threads p))]> procs)
  /\ in_irq_handler sch = negb (bool_decide (state = TReady))).
Proof.
  intros Hc Hp Hold Hok Hno. pose proof Hc as (Hwf & _ & Hirq & Huniq & Horphan).
  pose proof (lookup_lt_Some _ _ _ Hold) as Hlt. pose proof (Hwf _ _ Hp) as (_ & _ & Hlt1 & Hlt2).
  destruct (lookup_lt_is_Some_2 (thread_priorities p) 0 ltac:(lia)) as [q Hq].
  assert (forall pr, is_ready procs pid 0 pr -> old = TReady) as Hr1.
  { intros pr (x & ? & ? & ? & _). simplify_eq. congruence. }
  assert (old = TReady -> is_ready procs pid 0 (prio q)) as Hr2 by (intros ->; by exists p, q).
  assert (forall pr, is_ready (<[pid := set_threads p (<[0%nat := state]> (threads p))]> procs) pid 0 pr
    <-> state = TReady /\ pr = prio q) as Hr3.
  { intros pr. rewrite is_ready_self. cbn [threads set_threads thread_priorities].
    rewrite list_lookup_insert_eq, Hq by done. split.
    - intros ([= ->] & q' & [= <-] & <-). done.
    - intros [-> ->]. split; [done|]. by exists q. }
  destruct (decide (old = TReady)) as [Eo|Eo], (decide (state = TReady)) as [Es|Es];
    [left; tauto| | |left; tauto]; right.
  - rewrite (bool_decide_eq_false_2 (state = TReady)) by done. split.
    2: { cbn. apply Hirq. right. exists pid, (prio q). auto. }
    eapply (coherent_irq sch); [done|done|apply same_but_threads|done| | |].
    + cbn. split; [done|]. intros [Ho|[(pr & H)|(pid' & pr & Hne & H)]]; [|by apply Hr3 in H as [? _]|].
      * exfalso. eapply Horphan; [done|by apply Hr2].
      * exfalso. apply Hne. by eapply Huniq; [|apply Hr2].
    + intros pid' pr pr' H _. by apply Hr3 in H as [? _].
    + intros _ pr H. by apply Hr3 in H as [? _].
  - unfold change_allowed in Hok. cbn in Hok.
    assert (forall pid' pr, is_ready procs pid' 0 pr -> False) as Hnone.
    { intros pid' pr H. pose proof (Hok Es pid' pr H) as ->. by eapply Eo, Hr1. }
    rewrite (bool_decide_eq_true_2 (state = TReady)) by done. split.
    2: { cbn. apply not_true_iff_false. rewrite Hirq. intros [Ho|(? & ? & ?)]; [by apply (Hno Ho)|by eapply Hnone]. }
    eapply (coherent_irq sch); [done|done|apply same_but_threads|done| | |].
    + cbn. split; [|done]. intros _. right. left. exists (prio q). by apply Hr3.
    + intros pid' pr pr' _ H. by apply Hnone in H.
    + intros Ho. by destruct (Hno Ho).
Qed.

(** [set_thread_state] keeps the scheduler and the threads coherent and does not panic when
    the change is harmless. *)
Lemma set_thread_state_spec sch procs pid p tid state :
  coherent sch procs -> procs !! pid = Some p -> (tid < THREADS)%nat ->
  change_allowed procs pid tid state -> (tid = 0%nat -> orphan -> state <> TReady) ->
  exists sch', set_thread_state sch p tid state
      = Some (sch', set_threads p (<[tid := state]> (threads p)))
    /\ coherent sch' (<[pid := set_threads p (<[tid := state]> (threads p))]> procs).
Proof.
  intros Hc Hp Htid Hok Hno. pose proof Hc as (Hwf & (qs & Hrepr & Hq) & Hirq & Huniq & Horphan).
  pose proof (Hwf _ _ Hp) as (Hpid & Hrange & Hlt1 & Hlt2).
  unfold set_thread_state, thread_priority, thread_state.
  destruct (lookup_lt_is_Some_2 (thread_priorities p) tid ltac:(lia)) as [q Eq].
  destruct (lookup_lt_is_Some_2 (threads p) tid ltac:(lia)) as [old Eold]. rewrite Eq, Eold.
  destruct (decide ((old = TReady <-> state = TReady))) as [Hsame|Hdiff].
  { rewrite !decide_False by tauto. eexists. split; [done|]. by eapply set_thread_state_same. }
  destruct (decide (tid = 0%nat)) as [->|Hne0].
  - destruct (set_irq_thread sch procs pid p old state Hc Hp Eold Hok (Hno eq_refl)) as [?|[Hc' Hi]]; [done|].
    change (Z.of_nat 0) with IRQ_TID. unfold park_thread, ready_thread. rewrite !Z.eqb_refl.
    destruct (decide (state = TReady)) as [Es|Es].
    + rewrite bool_decide_eq_true_2 in Hc', Hi by done.
      rewrite decide_False, decide_True, Hi by tauto.
      eexists. split; [reflexivity|exact Hc'].
    + rewrite bool_decide_eq_false_2 in Hc', Hi by done.
      assert (old = TReady) as Eo by (destruct (decide (old = TReady)); tauto).
      rewrite decide_True, Hi by tauto. cbn [negb]. rewrite decide_False by tauto.
      eexists. split; [reflexivity|exact Hc'].
  - assert (Z.of_nat tid <> IRQ_TID) as Hirqt by (unfold IRQ_TID; lia).
    assert (forall pr, is_ready (<[pid := set_threads p (<[tid := state]> (threads p))]> procs) pid tid pr
      <-> state = TReady /\ pr = prio q) as Hr.
    { intros pr. rewrite is_ready_self. cbn [threads set_threads thread_priorities].
      rewrite list_lookup_insert_eq, Eq by lia. split.
      - intros ([= ->] & q' & [= <-] & <-). done.
      - intros [-> ->]. split; [done|]. by exists q. }
    destruct (decide (old = TReady)) as [Eo|Eo].
    + assert (state <> TReady) as Es by tauto. rewrite decide_True by tauto.
      assert (in_queue qs (prio q) (pid, Z.of_nat tid)) as Hin.
      { apply Hq. exists tid. split; [done|]. split; [done|]. exists p, q. split_and!; congruence. }
      pose proof Hin as (l & Hl & Hinl). rewrite <-Hpid in Hinl.
      pose proof (park_thread_spec sch qs _ _ q l Hrepr Hirqt Hl Hinl) as Hpark.
      unfold change_allowed in Hok. rewrite decide_False in Hok by done.
      destruct (Hok Es) as (pid' & tid' & pr' & Ht' & Hne & Hrd).
      assert (concat (spec_park qs (process_pid p, Z.of_nat tid) (prio q)) <> []) as Hnonempty.
      { assert ((pid', Z.of_nat tid') ∈ concat (spec_park qs (process_pid p, Z.of_nat tid) (prio q))) as Hx.
        { apply in_queue_concat. exists pr'. apply in_queue_park. split; [apply Hq; by exists tid'|].
          intros [[= -> ?%Nat2Z.inj] _]. apply Hne. congruence. }
        intros E. rewrite E in Hx. by apply elem_of_nil in Hx. }
      destruct (park_thread sch (process_pid p) (Z.of_nat tid) q) as [sch'|]; [|by destruct Hnonempty].
      destruct Hpark as (Hrepr' & _ & Hi). rewrite decide_False by tauto. eexists. split; [done|].
      eapply (coherent_thread sch sch' procs pid p _ tid qs); try done; [apply same_but_threads|].
      intros pr u. rewrite in_queue_park, Hr, Hpid. split.
      * intros [Hu Hnu]. left. split; [|done]. intros ->. apply Hnu. split; [done|].
        eapply in_queue_unique; [apply Hrepr|done|done].
      * intros [[Hu Hinu]|[_ [? _]]]; [|done]. split; [done|]. by intros [-> _].
    + assert (state = TReady) as Es by (destruct (decide (state = TReady)); tauto).
      rewrite decide_False, decide_True by tauto.
      assert (valid_thread (process_pid p, Z.of_nat tid) = true) as Hv.
      { unfold valid_thread. cbn [fst snd]. unfold THREADS, MAX_THREAD_COUNT, MAX_PROCESS_COUNT in *. lia. }
      assert ((process_pid p, Z.of_nat tid) ∉ concat qs) as Hni.
      { rewrite in_queue_concat, Hpid. intros (pr & Hin). apply Hq in Hin as (n & ->%Nat2Z.inj & _ & Hrd).
        destruct Hrd as (x & ? & ? & ? & _). by simplify_eq. }
      destruct (ready_thread_spec sch qs _ _ q Hrepr Hirqt Hv Hni) as (sch' & -> & Hrepr' & Hi).
      eexists. split; [done|].
      eapply (coherent_thread sch sch' procs pid p _ tid qs); try done; [apply same_but_threads|].
      intros pr u. pose proof Hrepr as (_ & Hlq & _). rewrite in_queue_ready by (rewrite Hlq; apply prio_lt). rewrite Hr, Hpid.
      split.
      * intros [Hin|[-> ->]]; [|by right]. left. split; [|done]. intros ->. apply Hni.
        apply in_queue_concat. rewrite Hpid. by exists pr.
      * intros [[_ Hin]|[-> [_ ->]]]; [by left|by right].
Qed.

(** A thread that is not ready may change its priority freely. *)
Lemma priority_of_parked sch procs pid p tid priority :
  coherent sch procs -> procs !! pid = Some p -> (tid < THREADS)%nat -> threads p !! tid <> Some TReady ->
  coherent sch (<[pid := set_priorities p (<[tid := priority]> (thread_priorities p))]> procs).
Proof.
  intros Hc Hp Htid Hnr. pose proof Hc as (Hwf & (qs & Hrepr & Hq) & Hirq & Huniq & Horphan).
  set (p' := set_priorities _ _).
  assert (forall pr, ~ is_ready (<[pid := p']> procs) pid tid pr) as Hr1.
  { intros pr. rewrite is_ready_self. cbn. by intros [? _]. }
  assert (forall pr, ~ is_ready procs pid tid pr) as Hr2.
  { intros pr (x & ? & ? & ? & _). by simplify_eq. }
  destruct (decide (tid = 0%nat)) as [->|Hne].
  - eapply (coherent_irq sch); [done|done|apply same_but_priorities|done| | |].
    + rewrite Hirq. split.
      * intros [?|(pid' & pr & H)]; [by left|]. right; right. exists pid', pr. split; [|done]. intros ->. by apply Hr2 in H.
      * intros [?|[(pr & H)|(pid' & pr & _ & H)]]; [by left|by apply Hr1 in H|right; by exists pid', pr].
    + intros pid' pr pr' H _. by apply Hr1 in H.
    + intros _ pr H. by apply Hr1 in H.
  - eapply (coherent_thread sch sch procs pid p p' tid qs qs); try done; [apply same_but_priorities|].
    intros pr u. split.
    + intros Hin. left. split; [|done]. intros ->. apply Hq in Hin as (n & ->%Nat2Z.inj & _ & H).
      by apply Hr2 in H.
    + intros [[_ ?]|[_ H]]; [done|by apply Hr1 in H].
Qed.

(** [set_thread_priority] keeps the scheduler and the threads coherent; a ready thread moves
    to the queue of its new priority. *)
Lemma set_thread_priority_spec sch procs pid p tid priority :
  coherent sch procs -> procs !! pid = Some p -> (tid < THREADS)%nat ->
  change_allowed procs pid tid TFree ->
  exists sch' p', set_thread_priority sch p tid priority = Some (sch', p')
    /\ p' = set_priorities p (<[tid := priority]> (thread_priorities p))
    /\ coherent sch' (<[pid := p']> procs).
Proof.
  intros Hc Hp Htid Hok. pose proof Hc as (Hwf & _ & _ & Huniq & Horphan).
  pose proof (Hwf _ _ Hp) as (Hpid & Hrange & Hlt1 & Hlt2).
  destruct (lookup_lt_is_Some_2 (thread_priorities p) tid ltac:(lia)) as [q Eq].
  destruct (lookup_lt_is_Some_2 (threads p) tid ltac:(lia)) as [old Eold].
  unfold set_thread_priority, thread_priority, thread_state. rewrite Eq, Eold.
  destruct (decide (q = priority)) as [->|Hne].
  { exists sch, p. rewrite list_insert_id by done. split; [done|].
    assert (set_priorities p (thread_priorities p) = p) as -> by (by destruct p).
    by rewrite insert_id. }
  destruct (decide (old = TReady)) as [->|Hnr].
  2: { eexists _, _. split; [done|]. split; [done|]. apply priority_of_parked; try done. congruence. }
  destruct (set_thread_state_spec sch procs pid p tid TFree Hc Hp Htid Hok ltac:(done)) as (sch1 & E1 & Hc1).
  unfold set_thread_state, thread_priority, thread_state in E1. rewrite Eq, Eold in E1.
  rewrite decide_True in E1 by done.
  destruct (park_thread sch (process_pid p) (Z.of_nat tid) q) as [s1|]; [|done].
  rewrite decide_False in E1 by tauto. injection E1 as ->.
  set (p1 := set_threads p _) in Hc1.
  assert (threads p1 !! tid <> Some TReady) as Hnr1.
  { cbn. by rewrite list_lookup_insert_eq by lia. }
  pose proof (priority_of_parked sch1 _ pid p1 tid priority Hc1 (lookup_insert_eq _ _ _) Htid Hnr1) as Hc2.
  rewrite insert_insert_eq in Hc2. set (p2 := set_priorities p1 _) in Hc2.
  assert (change_allowed (<[pid := p2]> procs) pid tid TReady) as Hok2.
  { unfold change_allowed. case_decide as E; [|done]. subst tid. intros _ pid' pr H.
    destruct (decide (pid' = pid)) as [|Hne']; [done|]. destruct H as (x & q' & H & Ht & Hq' & _).
    rewrite lookup_insert_ne in H by done. eapply Huniq; [by exists x, q'|by exists p, q]. }
  assert (tid = 0%nat -> orphan -> TReady <> TReady) as Hno2.
  { intros -> Ho. destruct (Horphan Ho pid (prio q)). by exists p, q. }
  destruct (set_thread_state_spec sch1 _ pid p2 tid TReady Hc2 (lookup_insert_eq _ _ _) Htid Hok2 Hno2)
    as (sch2 & E2 & Hc3).
  unfold set_thread_state, thread_priority, thread_state in E2. cbn in E2.
  rewrite !list_lookup_insert_eq in E2 by lia. rewrite decide_False in E2 by tauto.
  rewrite decide_True in E2 by done.
  destruct (ready_thread sch1 (process_pid p) (Z.of_nat tid) priority) as [s2|]; [|done].
  injection E2 as ->. eexists _, _. split; [done|]. split; [done|].
  rewrite insert_insert_eq in Hc3. unfold p2, p1 in Hc3. cbn in Hc3.
  rewrite list_insert_insert_eq, (list_insert_id (threads p) tid TReady Eold) in Hc3.
  unfold set_threads, set_priorities in Hc3 |- *. exact Hc3.
Qed.

(** ** Waking *)

(** The first [n] threads in the state, made ready. *)
Fixpoint wake_spec (l : list ThreadState) (state : ThreadState) (n : Z) : list ThreadState :=
  match l with
  | [] => []
  | st :: l =>
      if n <=? 0 then st :: l
      else if decide (st = state) then TReady :: wake_spec l state (n - 1)
      else st :: wake_spec l state n
  end.

Lemma wake_spec_0 l state n : n <= 0 -> wake_spec l state n = l.
Proof. intros Hn. destruct l; cbn; [done|]. by replace (n <=? 0) with true by lia. Qed.

Lemma change_allowed_ready procs pid tid : tid <> 0%nat -> change_allowed procs pid tid TReady.
Proof. intros Hne. unfold change_allowed. by rewrite decide_False. Qed.

Lemma wake_loop_spec procs pid state m : forall k sch p n,
  coherent sch (<[pid := p]> procs) -> (0 < k)%nat -> (k + m = THREADS)%nat -> 0 < n ->
  exists sch', wake_loop (seq k m) sch p state n
      = Some (sch', set_threads p (take k (threads p) ++ wake_spec (drop k (threads p)) state n))
    /\ coherent sch' (<[pid := set_threads p (take k (threads p) ++ wake_spec (drop k (threads p)) state n)]> procs).
Proof.
  induction m as [|m IH]; intros k sch p n Hc Hk Hkm Hn.
  - pose proof Hc as (Hwf & _). pose proof (Hwf pid p (lookup_insert_eq _ _ _)) as (_ & _ & Hlen & _).
    cbn. rewrite take_ge, drop_ge by lia. cbn. rewrite app_nil_r.
    assert (set_threads p (threads p) = p) as -> by (by destruct p). by exists sch.
  - pose proof Hc as (Hwf & _). pose proof (Hwf pid p (lookup_insert_eq _ _ _)) as (_ & _ & Hlen & _).
    destruct (lookup_lt_is_Some_2 (threads p) k ltac:(lia)) as [st Est].
    cbn [seq wake_loop]. unfold thread_state at 1. rewrite Est.
    rewrite (drop_S _ _ _ Est). cbn [wake_spec]. replace (n <=? 0) with false by lia.
    destruct (decide (st = state)) as [->|Hne].
    + assert (k <> 0%nat) as Hk0 by lia.
      destruct (set_thread_state_spec sch _ pid p k TReady Hc (lookup_insert_eq _ _ _) ltac:(lia)
        (change_allowed_ready _ _ _ Hk0) ltac:(lia)) as (sch1 & -> & Hc1).
      rewrite insert_insert_eq in Hc1. set (p1 := set_threads p _) in *.
      assert (take (S k) (threads p1) = take k (threads p) ++ [TReady]) as Et.
      { cbn. rewrite (take_S_r _ _ TReady) by (by rewrite list_lookup_insert_eq by lia).
        by rewrite take_insert_ge by lia. }
      assert (drop (S k) (threads p1) = drop (S k) (threads p)) as Ed.
      { cbn. by rewrite drop_insert_lt by lia. }
      assert (forall l, set_threads p1 (take (S k) (threads p1) ++ l)
        = set_threads p (take k (threads p) ++ TReady :: l)) as Ep.
      { intros l. rewrite Et. unfold p1, set_threads. cbn. by rewrite <-app_assoc. }
      destruct (Z.eqb_spec (n - 1) 0) as [E0|E0].
      * exists sch1. rewrite wake_spec_0 by lia. rewrite <-Ep, <-Ed, take_drop.
        assert (set_threads p1 (threads p1) = p1) as -> by done. done.
      * destruct (IH (S k) sch1 p1 (n - 1) Hc1 ltac:(lia) ltac:(lia) ltac:(lia)) as (sch2 & E2 & Hc2).
        rewrite Ed, Ep in E2, Hc2. by exists sch2.
    + destruct (IH (S k) sch p n Hc ltac:(lia) ltac:(lia) Hn) as (sch2 & E2 & Hc2).
      rewrite (take_S_r _ _ st Est), <-app_assoc in E2, Hc2. by exists sch2.
Qed.

Lemma free_threads_spec procs pid m : forall k sch p,
  coherent sch (<[pid := p]> procs) -> (0 < k)%nat -> (k + m = THREADS)%nat ->
  (exists pid' tid' pr', pid' <> pid /\ tid' <> 0%nat /\ is_ready procs pid' tid' pr') ->
  exists sch', free_threads (seq k m) sch p
      = Some (sch', set_threads p (take k (threads p) ++ repeat TFree m))
    /\ coherent sch' (<[pid := set_threads p (take k (threads p) ++ repeat TFree m)]> procs).
Proof.
  induction m as [|m IH]; intros k sch p Hc Hk Hkm Hother.
  - pose proof Hc as (Hwf & _). pose proof (Hwf pid p (lookup_insert_eq _ _ _)) as (_ & _ & Hlen & _).
    cbn. rewrite take_ge, app_nil_r by lia.
    assert (set_threads p (threads p) = p) as -> by (by destruct p). by exists sch.
  - pose proof Hc as (Hwf & _). pose proof (Hwf pid p (lookup_insert_eq _ _ _)) as (_ & _ & Hlen & _).
    cbn [seq free_threads].
    assert (change_allowed (<[pid := p]> procs) pid k TFree) as Hok.
    { unfold change_allowed. rewrite decide_False by lia. intros _.
      destruct Hother as (pid' & tid' & pr' & Hne & Ht & x & q & Hx & H).
      exists pid', tid', pr'. split; [done|]. split; [congruence|]. exists x, q.
      by rewrite lookup_insert_ne by done. }
    destruct (set_thread_state_spec sch _ pid p k TFree Hc (lookup_insert_eq _ _ _) ltac:(lia) Hok ltac:(done))
      as (sch1 & -> & Hc1).
    rewrite insert_insert_eq in Hc1. set (p1 := set_threads p _) in *.
    destruct (IH (S k) sch1 p1 Hc1 ltac:(lia) ltac:(lia) Hother) as (sch2 & E2 & Hc2).
    assert (set_threads p1 (take (S k) (threads p1) ++ repeat TFree m)
      = set_threads p (take k (threads p) ++ repeat TFree (S m))) as Ep.
    { unfold p1, set_threads. cbn. rewrite (take_S_r _ _ TFree) by (by rewrite list_lookup_insert_eq by lia).
      rewrite take_insert_ge by lia. by rewrite <-app_assoc. }
    rewrite Ep in E2, Hc2. by exists sch2.
Qed.

(** ** Changes that did not panic

    A change that would stop the last ready thread or start a second interrupt thread panics;
    what does not panic keeps the coherence. *)

Lemma is_ready_ext procs pid p p' :
  procs !! pid = Some p -> threads p' = threads p -> thread_priorities p' = thread_priorities p ->
  forall q tid pr, is_ready (<[pid := p']> procs) q tid pr <-> is_ready procs q tid pr.
Proof.
  intros Hp Ht Hq q tid pr. destruct (decide (q = pid)) as [->|Hne].
  - rewrite is_ready_self, Ht, Hq. unfold is_ready. rewrite Hp. split.
    + intros (H1 & x & H2 & H3). by exists p, x.
    + intros (y & x & [= <-] & H1 & H2 & H3). split; [done|]. by exists x.
  - unfold is_ready. by rewrite lookup_insert_ne.
Qed.

(** Only the threads of a process matter. *)
Lemma coherent_same sch procs pid p p' :
  coherent sch procs -> procs !! pid = Some p -> process_pid p' = process_pid p ->
  threads p' = threads p -> thread_priorities p' = thread_priorities p ->
  coherent sch (<[pid := p']> procs).
Proof.
  intros (Hwf & (qs & Hrepr & Hq) & Hirq & Huniq & Horphan) Hp Hpid Ht Hpr.
  pose proof (is_ready_ext procs pid p p' Hp Ht Hpr) as Hr. split; [|split; [|split]].
  - apply map_Forall_insert_2; [|done]. unfold wf_process. rewrite Hpid, Ht, Hpr. exact (Hwf _ _ Hp).
  - exists qs. split; [done|]. intros pr q tid. rewrite Hq. by setoid_rewrite Hr.
  - rewrite Hirq. by setoid_rewrite Hr.
  - split; [intros a b pr pr' H1 H2; apply Hr in H1, H2; by eapply Huniq|]. intros Ho q pr H%Hr. by eapply Horphan.
Qed.

(** A thread that could be parked was not the only one that is ready. *)
Lemma other_ready sch procs pid p tid q sch' :
  coherent sch procs -> procs !! pid = Some p -> threads p !! tid = Some TReady ->
  thread_priorities p !! tid = Some q -> tid <> 0%nat ->
  park_thread sch (process_pid p) (Z.of_nat tid) q = Some sch' ->
  exists pid' tid' pr', tid' <> 0%nat /\ (pid', tid') <> (pid, tid) /\ is_ready procs pid' tid' pr'.
Proof.
  intros (Hwf & (qs & Hrepr & Hq) & _) Hp Ht Hpr Hne E. pose proof (Hwf _ _ Hp) as (Hpid & _).
  assert (Z.of_nat tid <> IRQ_TID) as Hirqt by (unfold IRQ_TID; lia).
  assert (in_queue qs (prio q) (pid, Z.of_nat tid)) as Hin.
  { apply Hq. exists tid. split; [done|]. split; [done|]. by exists p, q. }
  pose proof Hin as (l & Hl & Hinl). rewrite <-Hpid in Hinl.
  pose proof (park_thread_spec sch qs _ _ q l Hrepr Hirqt Hl Hinl) as Hpark. rewrite E in Hpark.
  destruct Hpark as (_ & Hne1 & _). destruct (concat _) as [|[pid' t'] rest] eqn:Ec; [done|].
  assert ((pid', t') ∈ concat (spec_park qs (process_pid p, Z.of_nat tid) (prio q))) as Hx
    by (rewrite Ec; apply elem_of_cons; by left).
  apply in_queue_concat in Hx as (pr' & Hx). apply in_queue_park in Hx as [Hx Hxne].
  pose proof Hx as (n & -> & Hn & Hr)%Hq. exists pid', n, pr'. split; [done|]. split; [|done].
  intros [= E1 E2]. rewrite E1, E2 in Hx. apply Hxne. rewrite E1, E2, Hpid. split; [done|].
  eapply in_queue_unique; [apply Hrepr|exact Hx|exact Hin].
Qed.

Lemma set_thread_state_Some sch procs pid p tid state sch' p' :
  coherent sch procs -> procs !! pid = Some p -> set_thread_state sch p tid state = Some (sch', p') ->
  p' = set_threads p (<[tid := state]> (threads p)) /\ coherent sch' (<[pid := p']> procs).
Proof.
  intros Hc Hp E. pose proof Hc as (Hwf & (qs & Hrepr & Hq) & Hirq & Huniq & Horphan).
  pose proof (Hwf _ _ Hp) as (Hpid & Hrange & Hlt1 & Hlt2). pose proof E as E'.
  unfold set_thread_state, thread_priority, thread_state in E'.
  destruct (thread_priorities p !! tid) as [q|] eqn:Eq; [|done].
  destruct (threads p !! tid) as [old|] eqn:Eold; [|done].
  assert (tid < THREADS)%nat as Htid by (apply lookup_lt_Some in Eold; lia).
  destruct (decide (old = TReady <-> state = TReady)) as [Hsame|Hdiff].
  { rewrite !decide_False in E' by tauto. injection E' as <- <-. split; [done|]. by eapply set_thread_state_same. }
  assert (change_allowed procs pid tid state) as Hok.
  { unfold change_allowed. destruct (decide (tid = 0%nat)) as [->|Hne].
    - intros Es pid' pr Hr. rewrite decide_False, decide_True in E' by tauto. change (Z.of_nat 0) with IRQ_TID in E'.
      unfold ready_thread in E'. rewrite Z.eqb_refl in E'.
      destruct (in_irq_handler sch) eqn:Ei; [done|]. exfalso.
      assert (false = true) by (apply Hirq; right; by exists pid', pr). done.
    - intros Es. assert (old = TReady) as -> by (destruct (decide (old = TReady)); tauto).
      rewrite decide_True in E' by tauto.
      destruct (park_thread sch (process_pid p) (Z.of_nat tid) q) as [sch1|] eqn:Ep; [|done]. by eapply other_ready. }
  assert (tid = 0%nat -> orphan -> state <> TReady) as Hno.
  { intros -> Ho Es. rewrite decide_False, decide_True in E' by tauto. change (Z.of_nat 0) with IRQ_TID in E'.
    unfold ready_thread in E'. rewrite Z.eqb_refl in E'. destruct (in_irq_handler sch) eqn:Ei; [done|].
    assert (false = true) by (apply Hirq; by left). done. }
  destruct (set_thread_state_spec sch procs pid p tid state Hc Hp Htid Hok Hno) as (sch1 & E1 & Hc1).
  rewrite E1 in E. by injection E as <- <-.
Qed.

Lemma set_thread_priority_Some sch procs pid p tid priority sch' p' :
  coherent sch procs -> procs !! pid = Some p -> set_thread_priority sch p tid priority = Some (sch', p') ->
  p' = set_priorities p (<[tid := priority]> (thread_priorities p)) /\ coherent sch' (<[pid := p']> procs).
Proof.
  intros Hc Hp E. pose proof Hc as (Hwf & _). pose proof (Hwf _ _ Hp) as (Hpid & Hrange & Hlt1 & Hlt2).
  pose proof E as E'. unfold set_thread_priority, thread_priority, thread_state in E'.
  destruct (thread_priorities p !! tid) as [q|] eqn:Eq; [|done].
  assert (tid < THREADS)%nat as Htid by (apply lookup_lt_Some in Eq; lia).
  destruct (decide (q = priority)) as [->|Hne].
  { injection E' as <- <-. rewrite list_insert_id by done.
    assert (set_priorities p (thread_priorities p) = p) as -> by (by destruct p). by rewrite insert_id. }
  destruct (threads p !! tid) as [old|] eqn:Eold; [|done]. destruct (decide (old = TReady)) as [->|Hnr].
  2: { injection E' as <- <-. split; [done|]. apply priority_of_parked; try done. congruence. }
  destruct (park_thread sch (process_pid p) (Z.of_nat tid) q) as [s1|] eqn:Ep; [|done].
  destruct (decide (tid = 0%nat)) as [->|Hne0].
  - destruct (set_thread_priority_spec sch procs pid p 0 priority Hc Hp Htid) as (s3 & p3 & E3 & -> & Hc3); [by cbn|].
    rewrite E3 in E. by injection E as <- <-.
  - destruct (set_thread_priority_spec sch procs pid p tid priority Hc Hp Htid) as (s3 & p3 & E3 & -> & Hc3).
    { unfold change_allowed. rewrite decide_False by done. intros _. by eapply other_ready. }
    rewrite E3 in E. by injection E as <- <-.
Qed.

Lemma wake_threads_Some sch procs pid p state n sch' p' :
  coherent sch procs -> procs !! pid = Some p -> 0 <= n ->
  wake_threads_with_state sch p state n = Some (sch', p') ->
  (exists ts, p' = set_threads p ts) /\ coherent sch' (<[pid := p']> procs).
Proof.
  intros Hc Hp Hn E. unfold wake_threads_with_state in E. destruct (Z.eqb_spec n 0) as [->|Hn0].
  { injection E as <- <-. rewrite insert_id by done. split; [|done]. exists (threads p). by destruct p. }
  assert (coherent sch (<[pid := p]> procs)) as Hc' by (by rewrite insert_id).
  destruct (wake_loop_spec procs pid state (THREADS - 1) 1 sch p n Hc' ltac:(lia) ltac:(done) ltac:(lia)) as (s1 & E1 & Hc1).
  rewrite E1 in E. injection E as <- <-. split; [by eexists|done].
Qed.

Lemma free_threads_Some procs pid tids : forall sch p sch' p',
  coherent sch (<[pid := p]> procs) -> free_threads tids sch p = Some (sch', p') ->
  (exists ts, p' = set_threads p ts) /\ coherent sch' (<[pid := p']> procs)
  /\ (forall tid, tid ∈ tids -> threads p' !! tid = Some TFree)
  /\ (forall tid, threads p !! tid = Some TFree -> threads p' !! tid = Some TFree).
Proof.
  induction tids as [|t tids IH]; intros sch p sch' p' Hc E; cbn [free_threads] in E.
  { injection E as <- <-. split_and!; [exists (threads p); by destruct p|done| |done]. by intros tid ?%elem_of_nil. }
  destruct (set_thread_state sch p t TFree) as [[s1 p1]|] eqn:E1; [|done].
  pose proof E1 as Hlt. unfold set_thread_state, thread_priority, thread_state in Hlt.
  destruct (thread_priorities p !! t); [|done]. destruct (threads p !! t) as [old|] eqn:Eold; [|done].
  destruct (set_thread_state_Some sch _ pid p t TFree s1 p1 Hc (lookup_insert_eq _ _ _) E1) as [-> Hc1].
  rewrite insert_insert_eq in Hc1. destruct (IH _ _ _ _ Hc1 E) as ((ts & ->) & Hc2 & H1 & H2).
  assert (threads (set_threads p (<[t := TFree]> (threads p))) !! t = Some TFree) as Ht.
  { cbn. apply list_lookup_insert_eq. by eapply lookup_lt_Some. }
  split_and!; [by exists ts|done| |].
  - intros tid [->|?]%elem_of_cons; [by apply H2|by apply H1].
  - intros tid Htid. apply H2. cbn. destruct (decide (t = tid)) as [->|]; [done|]. by rewrite list_lookup_insert_ne.
Qed.

End Coherence.
Abbreviation coherent := (coherent_gen False).

(** ** Histories of threads *)

Inductive thread_op : Type :=
| OpSetState (pid : Z) (tid : nat) (state : ThreadState)
| OpSetPriority (pid : Z) (tid : nat) (priority : ThreadPriority)
| OpWake (pid : Z) (state : ThreadState) (n : Z)
| OpTerminateThreads (pid : Z).

(** One operation on the scheduler and the table of processes; a process that is not in the
    table is a panic (the callers unwrap it). *)
Definition thread_step (sch : Scheduler) (procs : ProcessTable) (o : thread_op)
    : option (Scheduler * ProcessTable) :=
  match o with
  | OpSetState pid tid state =>
      let! p := procs !! pid in
      let! (sch, p) := set_thread_state sch p tid state in Some (sch, <[pid := p]> procs)
  | OpSetPriority pid tid priority =>
      let! p := procs !! pid in
      let! (sch, p) := set_thread_priority sch p tid priority in Some (sch, <[pid := p]> procs)
  | OpWake pid state n =>
      let! p := procs !! pid in
      let! (sch, p) := wake_threads_with_state sch p state n in Some (sch, <[pid := p]> procs)
  | OpTerminateThreads pid =>
      let! p := procs !! pid in
      let! (sch, p) := terminate_threads sch p in Some (sch, <[pid := p]> procs)
  end.
Fixpoint thread_run (sch : Scheduler) (procs : ProcessTable) (ops : list thread_op)
    : option (Scheduler * ProcessTable) :=
  match ops with
  | [] => Some (sch, procs)
  | o :: ops => let! (sch, procs) := thread_step sch procs o in thread_run sch procs ops
  end.

(** The idle thread: thread 1 of process 1. *)
Definition idle_ready (procs : ProcessTable) : Prop := exists pr, is_ready procs 1 1 pr.

(** Operations on threads of processes in the table that leave the idle thread alone; an
    interrupt thread is started only if no other one runs. *)
Definition allowed_op (sch : Scheduler) (procs : ProcessTable) (o : thread_op) : Prop :=
  match o with
  | OpSetState pid tid state =>
      pid ∈ dom procs /\ (tid < THREADS)%nat /\ (pid, tid) <> (1, 1%nat)
      /\ (tid = 0%nat -> state = TReady -> in_irq_handler sch = false \/ exists pr, is_ready procs pid 0 pr)
  | OpSetPriority pid tid _ => pid ∈ dom procs /\ (tid < THREADS)%nat /\ (pid, tid) <> (1, 1%nat)
  | OpWake pid _ n => pid ∈ dom procs /\ 0 <= n
  | OpTerminateThreads pid => pid ∈ dom procs /\ pid <> 1
  end.
Fixpoint allowed_ops (sch : Scheduler) (procs : ProcessTable) (ops : list thread_op) : Prop :=
  match ops with
  | [] => True
  | o :: ops =>
      allowed_op sch procs o
      /\ match thread_step sch procs o with Some (sch', procs') => allowed_ops sch' procs' ops | None => True end
  end.

Lemma idle_allows procs pid tid state :
  idle_ready procs -> tid <> 0%nat -> (pid, tid) <> (1, 1%nat) -> change_allowed procs pid tid state.
Proof.
  intros (pr & Hr) Ht Hne. unfold change_allowed. rewrite decide_False by done.
  intros _. exists 1, 1%nat, pr. split_and!; [done|congruence|done].
Qed.
Lemma irq_allows sch procs pid state :
  coherent sch procs -> (state = TReady -> in_irq_handler sch = false \/ exists pr, is_ready procs pid 0 pr) ->
  change_allowed procs pid 0 state.
Proof.
  intros (_ & _ & Hirq & Huniq & _) H. unfold change_allowed. cbn. intros Es pid' pr Hr. destruct (H Es) as [Hf|[pr' Hr']].
  - assert (false = true); [|done]. rewrite <-Hf. apply Hirq. right. by exists pid', pr.
  - by eapply Huniq.
Qed.

Lemma idle_ready_other procs pid p : idle_ready procs -> pid <> 1 -> idle_ready (<[pid := p]> procs).
Proof. intros (pr & x & q & Hx & H) Hne. exists pr, x, q. by rewrite lookup_insert_ne. Qed.

Lemma idle_ready_frame procs pid p p' tid :
  idle_ready procs -> procs !! pid = Some p -> same_but p p' tid -> (pid, tid) <> (1, 1%nat) ->
  idle_ready (<[pid := p']> procs).
Proof.
  intros (pr & H) Hp (_ & _ & _ & Heq) Hne. exists pr.
  apply (is_ready_update procs pid p p' tid); [done|done|congruence|done].
Qed.

Lemma wake_spec_ready l state n i : l !! i = Some TReady -> wake_spec l state n !! i = Some TReady.
Proof.
  revert i n. induction l as [|st l IH]; intros i n Hi; [done|]. cbn.
  destruct (n <=? 0); [done|]. destruct i as [|i]; cbn in Hi.
  - injection Hi as ->. by case_decide.
  - case_decide; cbn; by apply IH.
Qed.

Lemma thread_step_coherent sch procs o :
  coherent sch procs -> idle_ready procs -> allowed_op sch procs o ->
  exists sch' procs', thread_step sch procs o = Some (sch', procs')
    /\ coherent sch' procs' /\ idle_ready procs'.
Proof.
  intros Hc Hidle Ho.
  destruct o as [pid tid state|pid tid priority|pid state n|pid]; cbn in Ho;
    destruct Ho as [Hin Ho]; pose proof Hin as [p Hp]%elem_of_dom; cbn [thread_step]; rewrite Hp.
  - destruct Ho as (Ht & Hne & Hirq).
    destruct (set_thread_state_spec sch procs pid p tid state Hc Hp Ht) as (sch' & -> & Hc'); [|done|].
    { destruct (decide (tid = 0%nat)) as [->|]; [eapply irq_allows; eauto|by apply idle_allows]. }
    eexists _, _. split; [done|]. split; [done|].
    by eapply idle_ready_frame; [|done|apply same_but_threads|].
  - destruct Ho as [Ht Hne].
    destruct (set_thread_priority_spec sch procs pid p tid priority Hc Hp Ht) as (sch' & p' & -> & -> & Hc').
    { destruct (decide (tid = 0%nat)) as [->|]; [by cbn|by apply idle_allows]. }
    eexists _, _. split; [done|]. split; [done|].
    by eapply idle_ready_frame; [|done|apply same_but_priorities|].
  - unfold wake_threads_with_state. destruct (Z.eqb_spec n 0) as [->|Hn].
    { eexists _, _. split; [done|]. by rewrite insert_id. }
    rewrite <-(insert_id procs pid p Hp) in Hc.
    destruct (wake_loop_spec procs pid state (THREADS - 1) 1 sch p n Hc ltac:(lia) eq_refl ltac:(lia))
      as (sch' & -> & Hc').
    eexists _, _. split; [done|]. split; [done|].
    destruct Hidle as (pr & x & q & Hx & Htx & Hq & Hpr). destruct (decide (pid = 1)) as [->|Hne].
    + assert (x = p) as -> by congruence. exists pr. apply is_ready_self. split; [|by exists q].
      cbn [threads set_threads]. destruct (threads p) as [|t0 l] eqn:El; [done|].
      cbn. by apply (wake_spec_ready l state n 0).
    + exists pr, x, q. by rewrite lookup_insert_ne.
  - rewrite <-(insert_id procs pid p Hp) in Hc. unfold terminate_threads.
    destruct (free_threads_spec procs pid (THREADS - 1) 1 sch p Hc ltac:(lia) eq_refl) as (sch' & -> & Hc').
    { destruct Hidle as (pr & H). exists 1, 1%nat, pr. by split_and!. }
    eexists _, _. split; [done|]. split; [done|]. by apply idle_ready_other.
Qed.

Lemma thread_run_coherent ops : forall sch procs,
  coherent sch procs -> idle_ready procs -> allowed_ops sch procs ops ->
  exists sch' procs', thread_run sch procs ops = Some (sch', procs')
    /\ coherent sch' procs' /\ idle_ready procs'.
Proof.
  induction ops as [|o ops IH]; intros sch procs Hc Hi Hops; [by exists sch, procs|]. destruct Hops as [Ho Hops].
  destruct (thread_step_coherent sch procs o Hc Hi Ho) as (sch1 & procs1 & E & Hc1 & Hi1).
  rewrite E in Hops. destruct (IH sch1 procs1 Hc1 Hi1 Hops) as (sch2 & procs2 & E2 & H2).
  exists sch2, procs2. by cbn; rewrite E.
Qed.

(** C25: Threads and scheduler stay coherent: starting from a coherent state, no history of
    changes of states and priorities, wake-ups and ends of all the threads of a process panics,
    for the processes that are in the table, as long as the idle thread is left alone and an
    interrupt thread is started only while no other one runs; the queues then still hold exactly
    the ready threads, the flag of the scheduler says whether an interrupt thread runs, and
    outside of an interrupt handler the next thread to run is ready and no ready thread has a
    higher priority. *)
Theorem threads_coherent sch procs ops :
  coherent sch procs -> idle_ready procs -> allowed_ops sch procs ops ->
  exists sch' procs', thread_run sch procs ops = Some (sch', procs')
    /\ coherent sch' procs'
    /\ forall current usage, wf_cpu_usage sch' -> in_irq_handler sch' = false ->
         exists sch'' a t n pr, activate_current sch' current usage = Some (sch'', a)
           /\ a = (if decide (t = current) then KeepCurrent else ActivateThread t.1 t.2 (t.1 =? 1))
           /\ t.2 = Z.of_nat n /\ n <> 0%nat /\ is_ready procs' t.1 n pr
           /\ forall pid' n' pr', n' <> 0%nat -> is_ready procs' pid' n' pr' -> (pr' <= pr)%nat.
Proof.
  intros Hc Hi Hops. destruct (thread_run_coherent ops sch procs Hc Hi Hops) as (sch' & procs' & E & Hc' & Hi').
  exists sch', procs'. split; [done|]. split; [done|]. intros current usage Hcpu Hirq.
  destruct Hc' as (Hwf & (qs & Hrepr & Hq) & _). destruct Hi' as (pri & Hidle).
  assert (concat qs <> []) as Hne.
  { intros E0. assert ((1, 1) ∈ concat qs) as Hx; [|rewrite E0 in Hx; by apply elem_of_nil in Hx].
    apply in_queue_concat. exists pri. apply Hq. by exists 1%nat. }
  destruct (activate_current_spec sch' qs current usage Hrepr Hcpu Hne)
    as (s' & a & Ea & _ & _ & _ & H). rewrite Hirq in H. destruct H as (p & t & l & Hl & Habove & Ha).
  assert (in_queue qs p (t.1, t.2)) as Hin by (exists (t :: l); split; [done|]; destruct t; by left).
  apply Hq in Hin as (n & Hn & Hn0 & Hr). exists s', a, t, n, p. split_and!; try done.
  intros pid' n' pr' Hn' Hr'. assert (in_queue qs pr' (pid', Z.of_nat n')) as (l' & Hl' & Hx).
  { apply Hq. by exists n'. }
  destruct (decide (pr' <= p)%nat) as [|Hgt]; [done|exfalso].
  rewrite (Habove pr' l') in Hx by (done || lia). by apply elem_of_nil in Hx.
Qed.

(** [wake_threads_with_state] wakes the first [n] ordinary threads that are in the state, no
    other thread changes, and the scheduler follows. *)
Theorem wake_threads_correct sch procs pid p state n :
  coherent sch procs -> procs !! pid = Some p -> 0 <= n ->
  exists sch' t0 rest, threads p = t0 :: rest
    /\ wake_threads_with_state sch p state n
       = Some (sch', set_threads p (t0 :: wake_spec rest state n))
    /\ coherent sch' (<[pid := set_threads p (t0 :: wake_spec rest state n)]> procs).
Proof.
  intros Hc Hp Hn. pose proof Hc as (Hwf & _). pose proof (Hwf _ _ Hp) as (_ & _ & Hlen & _).
  assert (exists t0 rest, threads p = t0 :: rest) as (t0 & rest & El).
  { destruct (threads p) as [|t0 rest] eqn:El; [done|by exists t0, rest]. }
  unfold wake_threads_with_state. destruct (Z.eqb_spec n 0) as [->|Hn0].
  - exists sch, t0, rest. rewrite wake_spec_0, <-El by lia. split; [done|].
    assert (set_threads p (threads p) = p) as -> by (by destruct p). by rewrite insert_id.
  - rewrite <-(insert_id procs pid p Hp) in Hc.
    destruct (wake_loop_spec procs pid state (THREADS - 1) 1 sch p n Hc ltac:(lia) eq_refl ltac:(lia))
      as (sch' & E & Hc'). rewrite El in E, Hc'. cbn [take drop app] in E, Hc'.
    exists sch', t0, rest. split; [done|]. split; [exact E|exact Hc'].
Qed.

(** ** Memory permissions *)

(** The regions in use come first; the unused ones are empty and end at 0. *)
Definition regions_repr (regions used : list MessageRange) : Prop :=
  regions = used ++ repeat (mkMsgRange 0 0) (MEMORY_PERMISSION_COUNT - length used)
  /\ (length used <= MEMORY_PERMISSION_COUNT)%nat /\ Forall (fun r => 0 < r_end r) used.

Lemma region_permitted_app used k addr :
  Forall (fun r => 0 < r_end r) used -> 0 <= addr ->
  region_permitted (used ++ repeat (mkMsgRange 0 0) k) addr = existsb (fun r => range_contains r addr) used.
Proof.
  intros Hall Ha. induction Hall as [|r used Hr Hall IH]; cbn.
  - destruct k as [|k]; [done|]. cbn. unfold range_contains. cbn.
    replace ((0 <=? addr) && (addr <? 0)) with false by lia. done.
  - rewrite IH. replace (r_end r =? 0) with false by lia. by destruct (range_contains r addr).
Qed.

Lemma add_region_app used k r :
  Forall (fun r => 0 < r_end r) used ->
  add_region (used ++ repeat (mkMsgRange 0 0) k) r
  = match k with
    | O => None
    | S k => Some ((used ++ [r]) ++ repeat (mkMsgRange 0 0) k)
    end.
Proof.
  intros Hall. induction Hall as [|r0 used Hr Hall IH]; cbn; [by destruct k|].
  replace (r_end r0 =? 0) with false by lia. rewrite IH. by destruct k.
Qed.

Lemma add_memory_permission_spec p used r :
  regions_repr (memory_permissions p) used -> 0 < r_end r ->
  match add_memory_permission p r with
  | (p', Ok _) => regions_repr (memory_permissions p') (used ++ [r]) /\ p' = set_memory_permissions p (memory_permissions p')
  | (p', Err e) => e = KernelTableFull /\ p' = p /\ length used = MEMORY_PERMISSION_COUNT
  end.
Proof.
  intros (Hreg & Hlen & Hall) Hr. unfold add_memory_permission. rewrite Hreg, add_region_app by done.
  destruct (MEMORY_PERMISSION_COUNT - length used)%nat as [|k] eqn:Ek; [split_and!; [done|done|lia]|].
  cbn. split; [|done]. unfold regions_repr. rewrite length_app. cbn [length]. split; [|split; [lia|]].
  - do 2 f_equal. lia.
  - apply Forall_app. split; [done|]. by constructor.
Qed.

(** [add_memory_permission] and [check_memory_permission]: a process other than the kernel
    may access the DRAM and exactly the regions it was given; the table takes eight regions
    and refuses a ninth with [KernelTableFull], without effect. *)
Theorem memory_permission_correct p used r addr :
  regions_repr (memory_permissions p) used -> 0 < r_end r -> 0 <= addr ->
  (check_memory_permission p addr
   = if (process_pid p =? 1) || is_address_in_plaintext_dram addr || is_address_encrypted addr
        || existsb (fun r => range_contains r addr) used then Ok tt else Err AccessDenied)
  /\ match add_memory_permission p r with
     | (p', Ok _) => regions_repr (memory_permissions p') (used ++ [r])
         /\ p' = set_memory_permissions p (memory_permissions p')
     | (p', Err e) => e = KernelTableFull /\ p' = p /\ length used = MEMORY_PERMISSION_COUNT
     end.
Proof.
  intros Hrepr Hr Ha. split; [|by apply add_memory_permission_spec]. destruct Hrepr as (Hreg & _ & Hall).
  unfold check_memory_permission. rewrite Hreg, region_permitted_app by done.
  by destruct (_ || is_address_encrypted addr), (existsb _ _).
Qed.

(** ** Choosing a virtual address *)

(** [addr] starts [needed] free pages inside [[from, stop)]. *)
Definition free_range (is_free : Z -> Prop) (from stop needed addr : Z) : Prop :=
  from <= addr /\ addr mod PAGE_SIZE = 0 /\ addr + needed * PAGE_SIZE <= stop
  /\ forall k, 0 <= k < needed -> is_free (addr + k * PAGE_SIZE).

(** What the page tables promise: a search between page boundaries returns a free range
    inside the bounds, and fails only if there is none. *)
Class FreeRuns (is_free : Z -> Prop) (free_run : Z -> Z -> Z -> option Z) : Prop := {
  free_run_Some from stop needed addr :
    from mod PAGE_SIZE = 0 -> stop mod PAGE_SIZE = 0 -> 0 < needed ->
    free_run from stop needed = Some addr -> free_range is_free from stop needed addr;
  free_run_None from stop needed :
    from mod PAGE_SIZE = 0 -> stop mod PAGE_SIZE = 0 -> 0 < needed ->
    free_run from stop needed = None -> forall addr, ~ free_range is_free from stop needed addr
}.

Definition wf_hint (p : Process) : Prop :=
  MMAP_AREA_VIRT <= allocation_hint p <= MMAP_AREA_VIRT_END /\ allocation_hint p mod PAGE_SIZE = 0.

Section addresses.
Context (is_free : Z -> Prop) (free_run : Z -> Z -> Z -> option Z) `{!FreeRuns is_free free_run}.

  (** [find_virtual_address] without a given address returns a free range of the mapping area
      and moves the hint to its end; it fails with [BadAddress] only if no free range of that
      size exists anywhere in the area, and with [OutOfMemory] only if the size exceeds it.
      A given address is returned as it is. *)
Theorem find_virtual_address_correct p virt_ptr size :
    wf_hint p -> 0 < size < 2 ^ 32 -> size mod PAGE_SIZE = 0 ->
    let needed := size / PAGE_SIZE in
    match find_virtual_address free_run p virt_ptr size with
    | (p', Ok addr) =>
        wf_hint p' /\
        if virt_ptr =? 0 then
          free_range is_free MMAP_AREA_VIRT MMAP_AREA_VIRT_END needed addr
          /\ p' = set_allocation_hint p (addr + size)
        else addr = virt_ptr /\ p' = p
    | (p', Err e) => p' = p /\ virt_ptr = 0 /\
        ((e = OutOfMemory /\ MMAP_AREA_VIRT_END - MMAP_AREA_VIRT < size)
         \/ (e = BadAddress
             /\ forall addr, ~ free_range is_free MMAP_AREA_VIRT MMAP_AREA_VIRT_END needed addr))
    end.
  Proof.
    intros [Hhint Halign] Hsize Hmod needed. unfold find_virtual_address.
    destruct (Z.eqb_spec virt_ptr 0) as [->|Hne]; cbn [negb]; [|by split_and!].
    destruct (Z.ltb_spec (MMAP_AREA_VIRT_END - MMAP_AREA_VIRT) size); [split_and!; try done; left; split; [done|lia]|].
    fold needed. assert (size = needed * PAGE_SIZE /\ 0 < needed) as [Esize Hn].
    { unfold needed, PAGE_SIZE in *. Z.div_mod_to_equations. lia. }
    assert (forall addr, free_range is_free MMAP_AREA_VIRT MMAP_AREA_VIRT_END needed addr ->
      wf_hint (set_allocation_hint p (Z.min (usize (addr + size)) MMAP_AREA_VIRT_END))
      /\ Z.min (usize (addr + size)) MMAP_AREA_VIRT_END = addr + size) as Hfin.
    { intros addr (H1 & H2 & H3 & _). rewrite <-Esize in H3.
      assert (Z.min (usize (addr + size)) MMAP_AREA_VIRT_END = addr + size) as E.
      { rewrite usize_id; [lia|]. unfold is_usize, MMAP_AREA_VIRT, MMAP_AREA_VIRT_END in *. lia. }
      rewrite E. split; [|done]. unfold wf_hint. cbn [allocation_hint set_allocation_hint].
      split; [lia|]. unfold PAGE_SIZE in *. Z.div_mod_to_equations. lia. }
    set (stop2 := Z.min (saturating_add (allocation_hint p) size) MMAP_AREA_VIRT_END).
    assert (stop2 mod PAGE_SIZE = 0) as Hstop2.
    { unfold stop2, saturating_add, USIZE_MAX, MMAP_AREA_VIRT, MMAP_AREA_VIRT_END, PAGE_SIZE in *.
      Z.div_mod_to_equations. lia. }
    destruct (free_run (allocation_hint p) MMAP_AREA_VIRT_END needed) as [addr|] eqn:E1.
    - apply free_run_Some in E1 as (H1 & H2 & H3 & H4); [|done..].
      assert (free_range is_free MMAP_AREA_VIRT MMAP_AREA_VIRT_END needed addr) as Hf
        by (split_and!; try done; lia).
      destruct (Hfin _ Hf) as [Hw E]. rewrite E in Hw |- *. done.
    - destruct (free_run MMAP_AREA_VIRT stop2 needed) as [addr|] eqn:E2.
      + apply free_run_Some in E2 as (H1 & H2 & H3 & H4); [|done..].
        assert (free_range is_free MMAP_AREA_VIRT MMAP_AREA_VIRT_END needed addr) as Hf
          by (split_and!; try done; lia).
        destruct (Hfin _ Hf) as [Hw E]. rewrite E in Hw |- *. done.
      + split_and!; [done..|]. right. split; [done|]. intros addr (H1 & H2 & H3 & H4).
        destruct (Z.le_gt_cases (allocation_hint p) addr).
        * by apply (free_run_None _ MMAP_AREA_VIRT_END _ Halign eq_refl Hn E1 addr).
        * apply (free_run_None MMAP_AREA_VIRT _ _ eq_refl Hstop2 Hn E2 addr).
          split; [done|]. split; [done|]. split; [|done].
          unfold stop2, saturating_add, USIZE_MAX, MMAP_AREA_VIRT_END in *. lia.
  Qed.
End addresses.

(** ** Examples *)

(** The table at boot: the kernel's process, whose first thread is the idle thread, and one
    other process. *)
Definition boot_idle : Process :=
  set_priorities (Process_new 1 1 (mkAppId [])) (<[1%nat := Idle]> (repeat AppDefault THREADS)).
Definition boot_procs : ProcessTable := <[1 := boot_idle]> (<[5 := Process_new 5 1 (mkAppId [])]> ∅).

Lemma boot_lookup pid p :
  boot_procs !! pid = Some p -> (pid = 1 /\ p = boot_idle) \/ (pid = 5 /\ p = Process_new 5 1 (mkAppId [])).
Proof.
  unfold boot_procs. intros H. apply lookup_insert_Some in H as [[<- <-]|[_ H]]; [by left|].
  apply lookup_insert_Some in H as [[<- <-]|[_ H]]; [by right|]. by rewrite lookup_empty in H.
Qed.

Lemma boot_not_ready pid tid pr : ~ is_ready boot_procs pid tid pr.
Proof.
  intros (p & q & Hp & Ht & _).
  assert (threads p = repeat TFree THREADS) as E by (by apply boot_lookup in Hp as [[_ ->]|[_ ->]]).
  rewrite E in Ht. apply list_elem_of_lookup_2, list_elem_of_In, repeat_spec in Ht. done.
Qed.

Lemma boot_coherent : coherent Scheduler_initial boot_procs.
Proof.
  split; [|split; [|split]].
  - intros pid p Hp. unfold wf_process, MAX_PROCESS_COUNT.
    apply boot_lookup in Hp as [[-> ->]|[-> ->]]; split_and!; done.
  - exists (repeat [] NUM_PRIORITIES). split; [apply Scheduler_initial_repr|]. intros pr pid tid. split.
    + intros (l & Hl & Hin). apply list_elem_of_lookup_2, list_elem_of_In, repeat_spec in Hl.
      subst l. by apply elem_of_nil in Hin.
    + intros (n & _ & _ & H). by apply boot_not_ready in H.
  - split; [done|]. intros [[]|(pid & pr & H)]. by apply boot_not_ready in H.
  - split; [|done]. intros pid pid' pr pr' H. by apply boot_not_ready in H.
Qed.

Definition running_idle : Process := set_threads boot_idle (<[1%nat := TReady]> (threads boot_idle)).
Definition running_procs : ProcessTable := <[1 := running_idle]> boot_procs.

(** The state once the idle thread was made ready. *)
Lemma running_coherent :
  exists sch, set_thread_state Scheduler_initial boot_idle 1 TReady = Some (sch, running_idle)
    /\ coherent sch running_procs /\ idle_ready running_procs.
Proof.
  destruct (set_thread_state_spec Scheduler_initial boot_procs 1 boot_idle 1 TReady boot_coherent)
    as (sch & E & Hc).
  - apply lookup_insert_eq.
  - unfold THREADS, MAX_THREAD_COUNT. lia.
  - by apply change_allowed_ready.
  - done.
  - exists sch. split; [exact E|]. split; [exact Hc|]. exists (prio Idle). apply is_ready_self.
    split; [done|]. by exists Idle.
Qed.

Lemma thread_step_dom sch procs o sch' procs' : thread_step sch procs o = Some (sch', procs') -> dom procs' = dom procs.
Proof.
  assert (forall pid p p', procs !! pid = Some p -> dom (<[pid := p']> procs) = dom procs) as H.
  { intros pid p p' Hp. apply dom_insert_lookup_L. by exists p. }
  destruct o as [pid ? ?|pid ? ?|pid ? ?|pid]; cbn; destruct (procs !! pid) as [p|] eqn:Hp; try done; cbn;
    match goal with |- context [match ?x with _ => _ end] => destruct x as [[? ?]|] end; try done;
    intros [= <- <-]; by eapply H.
Qed.
(** An interrupt handler runs and ends, and threads wait and wake. *)
Definition demo_thread_ops : list thread_op :=
  [OpSetState 5 0 TReady; OpSetState 5 1 TReady; OpSetState 5 0 TFree; OpSetState 5 2 (TWaitReceive 7);
   OpSetPriority 5 1 System0; OpWake 5 (TWaitReceive 7) 1; OpSetState 5 1 (TWaitJoin 2)].
Lemma threads_coherent_witness :
  exists sch sch' procs', set_thread_state Scheduler_initial boot_idle 1 TReady = Some (sch, running_idle)
    /\ thread_run sch running_procs demo_thread_ops = Some (sch', procs')
    /\ coherent sch' procs'.
Proof.
  destruct running_coherent as (sch & E & Hc & Hi).
  destruct (threads_coherent sch running_procs demo_thread_ops Hc Hi) as (sch' & procs' & Er & Hc' & _).
  - assert (5 ∈ dom running_procs) as H5 by (apply elem_of_dom; eexists; reflexivity).
    assert (in_irq_handler sch = false) as Hf.
    { assert (in_irq_handler ∘ fst <$> set_thread_state Scheduler_initial boot_idle 1 TReady = Some false) as Hf by (vm_compute; reflexivity).
      rewrite E in Hf. by injection Hf. }
    unfold demo_thread_ops. generalize dependent running_procs. intros procs _ _ H5. cbn [allowed_ops].
    split; [cbn; split; [done|]; split; [unfold THREADS, MAX_THREAD_COUNT; lia|]; split; [done|]; by left|].
    do 6 (destruct (thread_step _ _ _) as [[? ?]|] eqn:Es; [|exact I]; apply thread_step_dom in Es;
      match type of Es with dom ?q = _ => assert (5 ∈ dom q) as H6 by (rewrite Es; exact H5) end; clear H5 Es; rename H6 into H5;
      split; [cbn; split; [exact H5|]; unfold THREADS, MAX_THREAD_COUNT; repeat split; first [lia|discriminate|done]|]).
    by destruct (thread_step _ _ _) as [[? ?]|].
  - exists sch, sch', procs'. split; [exact E|]. split; [exact Er|exact Hc'].
Defined.

Lemma wake_threads_correct_witness :
  exists sch sch', coherent sch running_procs
    /\ wake_threads_with_state sch running_idle TFree 2
       = Some (sch', set_threads running_idle [TFree; TReady; TReady; TReady; TFree; TFree; TFree; TFree]).
Proof.
  destruct running_coherent as (sch & E & Hc & _).
  destruct (wake_threads_correct sch running_procs 1 running_idle TFree 2 Hc (lookup_insert_eq _ _ _)
    ltac:(lia)) as (sch' & t0 & rest & Et & Ew & _).
  exists sch, sch'. split; [exact Hc|]. injection Et as <- <-. exact Ew.
Defined.

Lemma memory_permission_correct_witness :
  regions_repr (memory_permissions (add_memory_permission boot_idle (mkMsgRange 0xf0000000 0xf0004000)).1)
    [mkMsgRange 0xf0000000 0xf0004000]
  /\ check_memory_permission (add_memory_permission (Process_new 5 1 (mkAppId []))
        (mkMsgRange 0xf0000000 0xf0004000)).1 0xf0003fff = Ok tt.
Proof.
  split; [|reflexivity].
  destruct (memory_permission_correct boot_idle [] (mkMsgRange 0xf0000000 0xf0004000) 0) as [_ H].
  - split; [reflexivity|]. split; [cbn; lia|constructor].
  - cbn. lia.
  - lia.
  - exact (proj1 H).
Defined.

(** A table in which every page is free. *)
Definition all_free_run (from stop needed : Z) : option Z :=
  if from + needed * PAGE_SIZE <=? stop then Some from else None.
#[export] Instance all_free_runs : FreeRuns (fun _ => True) all_free_run.
Proof.
  split; unfold all_free_run, free_range.
  - intros from stop needed addr Hm _ Hn E. case_match; simplify_eq. split_and!; [lia|done|lia|done].
  - intros from stop needed Hm _ Hn E addr (? & _ & ? & _). case_match; [done|]. lia.
Qed.

Lemma find_virtual_address_correct_witness :
  find_virtual_address all_free_run boot_idle 0 0x5000
    = (set_allocation_hint boot_idle (MMAP_AREA_VIRT + 0x5000), Ok MMAP_AREA_VIRT)
  /\ free_range (fun _ => True) MMAP_AREA_VIRT MMAP_AREA_VIRT_END 5 MMAP_AREA_VIRT.
Proof.
  split; [reflexivity|].
  pose proof (find_virtual_address_correct (fun _ => True) all_free_run boot_idle 0 0x5000) as H.
  destruct H as (_ & H & _); [split; [cbn; unfold MMAP_AREA_VIRT, MMAP_AREA_VIRT_END; lia|reflexivity]|lia|reflexivity|].
  exact H.
Defined.
