(* ===== verification/MemManager.v ===== *)
(** * The physical memory manager ([xous/kernel/src/mem.rs], [platform/atsama5d2/page_zeroer.rs])

    [MemoryManager] is the owner table of the physical pages, the two bitmaps of the free pages
    of the RAM (dirty, zeroed) and the counter of the free pages, with the statics of the page
    zeroer, which scrubs free pages in the background.  A bitmap is the set of the indices that
    are set, the owner table a map in which a page without an owner has no entry.

    The generated tables of the board are parameters: [regions] are the address ranges beside
    the RAM, [shared_peripherals] the pages any process may share, and [permitted pid addr] the
    memory permissions of the processes.

    [mm_calls] records what the manager asks of the rest of the system: the broadcast of
    [LowFreeMemory] and the transfers given to the DMA engine.

    [wf_mm] says that every page of the RAM is in exactly one place: owned, dirty, zeroed or
    being zeroed, and that the counter counts the last three. *)
From stdpp Require Import sets fin_sets gmap.
From S2P Require Import Prelude Xous SysCall Process.

(** ** Consecutive indices *)

(** [seqZ a n], counting as it goes. *)
Fixpoint indices_from (n : nat) (a : Z) : list Z :=
  match n with O => [] | S n => a :: indices_from n (a + 1) end.
Definition indices (a n : Z) : list Z := indices_from (Z.to_nat n) a.
Lemma indices_seqZ a n : indices a n = seqZ a n.
Proof.
  unfold indices, seqZ. generalize (Z.to_nat n). clear n. intros n. revert a. induction n as [|n IH]; intros a; [done|].
  cbn [indices_from seq fmap list_fmap]. rewrite IH. f_equal. rewrite <-fmap_S_seq, <-list_fmap_compose.
  apply list_fmap_ext. intros i x _. unfold compose. lia.
Qed.

Definition range_set (a n : Z) : gset Z := list_to_set (seqZ a n).
Lemma elem_of_range_set a n i : i ∈ range_set a n <-> a <= i < a + n.
Proof. unfold range_set. rewrite elem_of_list_to_set, elem_of_seqZ. done. Qed.
Lemma size_range_set a n : 0 <= n -> Z.of_nat (size (range_set a n)) = n.
Proof.
  intros Hn. unfold range_set. rewrite size_list_to_set by apply NoDup_seqZ.
  rewrite length_seqZ. lia.
Qed.

(** ** State *)

Definition RAM_PAGES : Z := RAM_SIZE / PAGE_SIZE.
Definition LOW_MEMORY_THRESHOLD : Z := 24 * 1024 * 1024.
Definition LOW_MEMORY_HYSTERESIS : Z := 1024 * 1024.
Definition BIG_ALLOC_RESERVED_BYTES : Z := 40 * 1024 * 1024.
Definition FRAGMENTED_AREA_PAGES : Z := RAM_PAGES - BIG_ALLOC_RESERVED_BYTES / PAGE_SIZE.

Inductive ClaimReleaseMove : Type :=
| Claim
| Release
| MoveFrom (existing_pid : Z).

Record PendingMapZero : Type := mkPending {
  pz_phys : Z; pz_virt : Z; pz_size : Z; pz_flags : Z; pz_pid : Z; pz_tid : Z
}.

Inductive mm_call : Type :=
| BroadcastLowFreeMemory
| ZeroTransfer (phys words : Z).

Record MemoryManager : Type := mkMM {
  allocations : gmap Z Z;
  free_pages_dirty : gset Z;
  next_dirty_page_hint : option Z;
  free_pages_zeroed : gset Z;
  next_zeroed_page_hint : Z;
  num_free_pages : Z;
  low_memory : bool;
  pending_map_zero : option PendingMapZero;
  (* the statics of the page zeroer *)
  zeroer_running : bool;
  zeroer_initialized : bool;
  current_page : Z;
  current_page_num : Z;
  mm_calls : list mm_call
}.

Definition with_allocations (f : gmap Z Z -> gmap Z Z) (s : MemoryManager) : MemoryManager :=
  mkMM (f (allocations s)) (free_pages_dirty s) (next_dirty_page_hint s) (free_pages_zeroed s)
    (next_zeroed_page_hint s) (num_free_pages s) (low_memory s) (pending_map_zero s)
    (zeroer_running s) (zeroer_initialized s) (current_page s) (current_page_num s) (mm_calls s).
Definition with_dirty (f : gset Z -> gset Z) (s : MemoryManager) : MemoryManager :=
  mkMM (allocations s) (f (free_pages_dirty s)) (next_dirty_page_hint s) (free_pages_zeroed s)
    (next_zeroed_page_hint s) (num_free_pages s) (low_memory s) (pending_map_zero s)
    (zeroer_running s) (zeroer_initialized s) (current_page s) (current_page_num s) (mm_calls s).
Definition with_zeroed (f : gset Z -> gset Z) (s : MemoryManager) : MemoryManager :=
  mkMM (allocations s) (free_pages_dirty s) (next_dirty_page_hint s) (f (free_pages_zeroed s))
    (next_zeroed_page_hint s) (num_free_pages s) (low_memory s) (pending_map_zero s)
    (zeroer_running s) (zeroer_initialized s) (current_page s) (current_page_num s) (mm_calls s).
Definition set_dirty_hint (h : option Z) (s : MemoryManager) : MemoryManager :=
  mkMM (allocations s) (free_pages_dirty s) h (free_pages_zeroed s)
    (next_zeroed_page_hint s) (num_free_pages s) (low_memory s) (pending_map_zero s)
    (zeroer_running s) (zeroer_initialized s) (current_page s) (current_page_num s) (mm_calls s).
Definition set_zeroed_hint (h : Z) (s : MemoryManager) : MemoryManager :=
  mkMM (allocations s) (free_pages_dirty s) (next_dirty_page_hint s) (free_pages_zeroed s)
    h (num_free_pages s) (low_memory s) (pending_map_zero s)
    (zeroer_running s) (zeroer_initialized s) (current_page s) (current_page_num s) (mm_calls s).
Definition set_free (n : Z) (low : bool) (s : MemoryManager) : MemoryManager :=
  mkMM (allocations s) (free_pages_dirty s) (next_dirty_page_hint s) (free_pages_zeroed s)
    (next_zeroed_page_hint s) n low (pending_map_zero s)
    (zeroer_running s) (zeroer_initialized s) (current_page s) (current_page_num s) (mm_calls s).
Definition set_pending (p : option PendingMapZero) (s : MemoryManager) : MemoryManager :=
  mkMM (allocations s) (free_pages_dirty s) (next_dirty_page_hint s) (free_pages_zeroed s)
    (next_zeroed_page_hint s) (num_free_pages s) (low_memory s) p
    (zeroer_running s) (zeroer_initialized s) (current_page s) (current_page_num s) (mm_calls s).
Definition set_zeroer (running : bool) (page num : Z) (s : MemoryManager) : MemoryManager :=
  mkMM (allocations s) (free_pages_dirty s) (next_dirty_page_hint s) (free_pages_zeroed s)
    (next_zeroed_page_hint s) (num_free_pages s) (low_memory s) (pending_map_zero s)
    running (zeroer_initialized s) page num (mm_calls s).
Definition mm_call_out (c : mm_call) (s : MemoryManager) : MemoryManager :=
  mkMM (allocations s) (free_pages_dirty s) (next_dirty_page_hint s) (free_pages_zeroed s)
    (next_zeroed_page_hint s) (num_free_pages s) (low_memory s) (pending_map_zero s)
    (zeroer_running s) (zeroer_initialized s) (current_page s) (current_page_num s)
    (mm_calls s ++ [c]).

Abbreviation MM := (state MemoryManager Error).

(** [default_hack]; the zeroer's statics start at false and 0. *)
Definition mm_initial : MemoryManager :=
  mkMM ∅ ∅ None ∅ 0 0 false None false false 0 0 [].

(** ** Bitmaps *)

(** [bitmap[a..b].first_one()], as an index of the whole bitmap. *)
Definition first_one (s : gset Z) (a b : Z) : option Z :=
  List.find (fun i => bool_decide (i ∈ s)) (indices a (b - a)).
(** [bitmap[i..i + n].all()]. *)
Definition all_ones (s : gset Z) (i n : Z) : bool :=
  forallb (fun j => bool_decide (j ∈ s)) (seqZ i n).
(** [bitmap[a..].leading_ones()] over [n] bits. *)
Fixpoint leading_ones (n : nat) (s : gset Z) (a : Z) : Z :=
  match n with
  | O => 0
  | S n => if bool_decide (a ∈ s) then 1 + leading_ones n s (a + 1) else 0
  end.

(** ** Counters *)

Definition add_free_pages (pages : Z) : MM unit :=
  let* s := st_get in
  let* _ := st_assert (saturating_add (num_free_pages s) pages <=? RAM_PAGES) in
  let n := num_free_pages s + pages in
  let low := low_memory s && negb ((LOW_MEMORY_THRESHOLD + LOW_MEMORY_HYSTERESIS) / PAGE_SIZE <=? n) in
  st_modify (set_free n low).

Definition subtract_free_pages (pages : Z) : MM unit :=
  let* s := st_get in
  let* _ := st_assert (pages <=? num_free_pages s) in
  let n := num_free_pages s - pages in
  if negb (low_memory s) && (n <? LOW_MEMORY_THRESHOLD / PAGE_SIZE) then
    let* _ := st_modify (set_free n true) in st_modify (mm_call_out BroadcastLowFreeMemory)
  else st_modify (set_free n (low_memory s)).

Definition ram_free (s : MemoryManager) : Z := num_free_pages s * PAGE_SIZE.
Definition ram_used_by (s : MemoryManager) (pid : Z) : Z :=
  countb (fun i => bool_decide (allocations s !! i = Some pid)) (seqZ 0 RAM_PAGES) * PAGE_SIZE.

(** ** Allocation *)

Definition page_address (idx : Z) : Z := ENCRYPTED_DRAM_BASE + idx * PAGE_SIZE.

(** The page [alloc_single_page] chooses, and whether it is zeroed. *)
Definition single_page_choice (s : MemoryManager) : option (Z * bool) :=
  match first_one (free_pages_zeroed s) (next_zeroed_page_hint s) FRAGMENTED_AREA_PAGES with
  | Some idx => Some (idx, true)
  | None =>
  match first_one (free_pages_zeroed s) 0 (next_zeroed_page_hint s) with
  | Some idx => Some (idx, true)
  | None =>
  match first_one (free_pages_dirty s) 0 FRAGMENTED_AREA_PAGES with
  | Some idx => Some (idx, false)
  | None =>
  match first_one (free_pages_zeroed s) FRAGMENTED_AREA_PAGES RAM_PAGES with
  | Some idx => Some (idx, true)
  | None =>
  match first_one (free_pages_dirty s) FRAGMENTED_AREA_PAGES RAM_PAGES with
  | Some idx => Some (idx, false)
  | None => None
  end end end end end.

(** The slice [hint..FRAGMENTED_AREA_PAGES] panics if the hint lies beyond its end. *)
Definition alloc_single_page (pid : Z) : MM (Z * bool) :=
  let* s := st_get in
  let* _ := st_assert (next_zeroed_page_hint s <=? FRAGMENTED_AREA_PAGES) in
  match single_page_choice s with
  | None => st_fail OutOfMemory
  | Some (idx, zeroed) =>
      let* _ := st_modify (if zeroed : bool then with_zeroed (fun z => z ∖ {[idx]})
                           else with_dirty (fun d => d ∖ {[idx]})) in
      let phys := page_address idx in
      let* _ := subtract_free_pages 1 in
      let* _ := st_modify (with_allocations (insert idx pid)) in
      let* _ := st_modify (set_zeroed_hint (if FRAGMENTED_AREA_PAGES <? idx + 1 then 0 else idx + 1)) in
      st_ret (phys, zeroed)
  end.

(** The block [alloc_range_aligned] chooses: the last one that is all zeroed, else the last
    one that is all free. *)
Definition range_choice (align_pages num_pages : Z) (s : MemoryManager) : option (Z * bool) :=
  let end_ := RAM_PAGES - num_pages + 1 in
  match List.find (fun i => all_ones (free_pages_zeroed s) i num_pages)
          (List.filter (fun i => Z.land i (align_pages - 1) =? 0)
            (List.filter (fun i => bool_decide (i ∈ free_pages_zeroed s)) (rev' (indices 0 end_)))) with
  | Some idx => Some (idx, true)
  | None =>
  match List.find (fun i => all_ones (free_pages_zeroed s ∪ free_pages_dirty s) i num_pages)
          (rev' (List.filter (fun i => i mod align_pages =? 0) (indices 0 end_))) with
  | Some idx => Some (idx, false)
  | None => None
  end end.

Definition own_range (idx n pid : Z) (m : gmap Z Z) : gmap Z Z :=
  foldr (fun i => insert i pid) m (seqZ idx n).

Definition alloc_range_aligned (align_pages num_pages pid : Z) : MM (Z * bool) :=
  if num_pages =? 0 then st_fail InvalidArguments else
  if RAM_PAGES <? num_pages then st_fail OutOfMemory else
  let* s := st_get in
  match range_choice align_pages num_pages s with
  | None => st_fail OutOfMemory
  | Some (idx, zeroed) =>
      let block_start := page_address idx in
      let* _ := subtract_free_pages num_pages in
      let* _ := st_modify (with_allocations (own_range idx num_pages pid)) in
      let* _ := st_modify (with_zeroed (fun z => z ∖ range_set idx num_pages)) in
      let* _ := st_modify (if zeroed : bool then id
                           else with_dirty (fun d => d ∖ range_set idx num_pages)) in
      st_ret (block_start, zeroed)
  end.

(** The result is the physical address to map and whether it still needs zeroing. *)
Definition alloc_range (num_pages pid flags : Z) : MM (Z * bool) :=
  let* (allocated, zeroed) :=
    if num_pages =? 1 then alloc_single_page pid else alloc_range_aligned 1 num_pages pid in
  if MemoryFlags_is_set flags MF_PLAINTEXT || MemoryFlags_is_set flags MF_NO_CACHE
     || MemoryFlags_is_set flags MF_DEV
  then st_ret (to_plaintext_phys_addr allocated, true)
  else st_ret (allocated, negb zeroed).

(** ** The page zeroer *)

Definition ZEROER_PAGES_MAX : Z := 8 * 1024 * 1024 / PAGE_SIZE.

Definition take_dirty_pages : MM (option (Z * Z)) :=
  let* s := st_get in
  let start := default 0 (next_dirty_page_hint s) in
  let* _ := st_assert (start <=? RAM_PAGES) in
  let first := match first_one (free_pages_dirty s) start RAM_PAGES with
               | Some idx => Some idx
               | None => first_one (free_pages_dirty s) 0 start
               end in
  match first with
  | None => let* _ := st_modify (set_dirty_hint None) in st_ret None
  | Some offset =>
      let pages := Z.min (leading_ones (Z.to_nat (RAM_PAGES - offset)) (free_pages_dirty s) offset)
                     ZEROER_PAGES_MAX in
      let* _ := st_modify (with_dirty (fun d => d ∖ range_set offset pages)) in
      let* _ := st_modify (set_dirty_hint (Some ((offset + pages) mod RAM_PAGES))) in
      st_ret (Some (page_address offset, pages))
  end.

(** [page_zeroer::start]. *)
Definition zeroer_start : MM unit :=
  let* s := st_get in
  if zeroer_running s || negb (zeroer_initialized s) then st_ret tt else
  let* t := take_dirty_pages in
  match t with
  | None => st_ret tt
  | Some (phys, pages) =>
      let* _ := st_modify (set_zeroer true phys pages) in
      st_modify (mm_call_out (ZeroTransfer phys (pages * PAGE_SIZE / 4)))
  end.

(** ** Ownership *)

Section Board.
Context (regions : list (Z * Z)) (shared_peripherals : list Z)
        (permitted : Z -> Z -> result Error unit).

(** The loop over [additional_regions] of [address_to_allocation_offset]. *)
Fixpoint region_offset (regions : list (Z * Z)) (offset addr : Z) : option Z :=
  match regions with
  | [] => None
  | (start, stop) :: regions =>
      if (start <=? addr) && (addr <? stop) then Some (offset + (addr - start) / PAGE_SIZE)
      else region_offset regions (offset + (stop - start) / PAGE_SIZE) addr
  end.

Definition address_to_allocation_offset (addr : Z) : option Z :=
  if is_address_encrypted addr then Some ((addr - ENCRYPTED_DRAM_BASE) / PAGE_SIZE)
  else if is_address_in_plaintext_dram addr then Some ((addr - PLAINTEXT_DRAM_BASE) / PAGE_SIZE)
  else region_offset regions RAM_PAGES addr.

(** The length of the owner table. *)
Definition mem_pages : Z :=
  fold_left (fun n r => n + (r.2 - r.1) / PAGE_SIZE) regions RAM_PAGES.

Definition page_owner (s : MemoryManager) (addr : Z) : option Z :=
  let! offset := address_to_allocation_offset addr in allocations s !! offset.

Definition init_from_memory (owners : gmap Z Z) (s : MemoryManager) : MemoryManager :=
  fold_left (fun s offset =>
      if bool_decide (owners !! offset = None)
      then set_free (num_free_pages s + 1) (low_memory s) (with_dirty (union {[offset]}) s) else s)
    (seqZ 0 RAM_PAGES) (with_allocations (fun _ => owners) s).

Definition set_pages_to_zeroed (phys pages : Z) : MM unit :=
  let* offset := st_unwrap (address_to_allocation_offset phys) in
  let* _ := st_assert (offset + pages <=? RAM_PAGES) in
  st_modify (with_zeroed (union (range_set offset pages))).

(** The last line of [page_zeroer::init]. *)
Definition zeroer_init (s : MemoryManager) : MemoryManager :=
  mkMM (allocations s) (free_pages_dirty s) (next_dirty_page_hint s) (free_pages_zeroed s)
    (next_zeroed_page_hint s) (num_free_pages s) (low_memory s) (pending_map_zero s)
    (zeroer_running s) true (current_page s) (current_page_num s) (mm_calls s).

(** The background half of [xdmac_interrupt]: the transfer in flight has ended. *)
Definition zeroer_done : MM unit :=
  let* s := st_get in
  let* _ := st_modify (set_zeroer (zeroer_running s) 0 0) in
  let* _ := set_pages_to_zeroed (current_page s) (current_page_num s) in
  let* _ := st_modify (set_zeroer false 0 0) in
  zeroer_start.

(** [addr] is one of the pages of a shared peripheral. *)
Definition is_shared_peripheral (addr : Z) : bool :=
  existsb (fun base => (addr =? base) || (addr =? base + 0x1000) || (addr =? base + 0x2000)
                       || (addr =? base + 0x3000)) shared_peripherals.

Definition claim_at (offset pid : Z) : MM unit :=
  let* s := st_get in
  if bool_decide (is_Some (allocations s !! offset)) then st_fail MemoryInUse else
  let* _ :=
    if offset <? RAM_PAGES then
      let* _ :=
        if bool_decide (offset ∈ free_pages_zeroed s)
        then st_modify (with_zeroed (fun z => z ∖ {[offset]}))
        else if bool_decide (offset ∈ free_pages_dirty s)
        then st_modify (with_dirty (fun d => d ∖ {[offset]}))
        else st_fail MemoryInUse in
      subtract_free_pages 1
    else st_ret tt in
  st_modify (with_allocations (insert offset pid)).

Definition move_at (offset pid existing_pid : Z) : MM unit :=
  let* s := st_get in
  match allocations s !! offset with
  | None => st_fail DoubleFree
  | Some current_pid =>
      if negb (current_pid =? pid) && negb (existing_pid =? current_pid) then st_fail MemoryInUse
      else st_modify (with_allocations (insert offset pid))
  end.

Definition note_dirty (offset : Z) (s : MemoryManager) : MemoryManager :=
  match next_dirty_page_hint s with
  | None => set_dirty_hint (Some offset) s
  | Some _ => s
  end.

Definition release_at (offset pid : Z) : MM unit :=
  let* s := st_get in
  match allocations s !! offset with
  | None => st_fail DoubleFree
  | Some current_pid =>
      if negb (current_pid =? pid) then st_fail MemoryInUse else
      let* _ :=
        if offset <? RAM_PAGES then
          let* _ := st_modify (with_dirty (union {[offset]})) in
          let* _ := st_modify (note_dirty offset) in
          let* _ := zeroer_start in
          add_free_pages 1
        else st_ret tt in
      st_modify (with_allocations (delete offset))
  end.

Definition claim_release_move (addr pid : Z) (action : ClaimReleaseMove) : MM unit :=
  if negb (Z.land addr 0xfff =? 0) then st_fail BadAlignment else
  let is_ram := is_address_encrypted addr || is_address_in_plaintext_dram addr in
  let* _ := if is_ram then st_ret tt else st_lift (permitted pid addr) in
  if negb is_ram && negb (pid =? 1) && is_shared_peripheral addr then st_ret tt else
  let* offset := st_lift (ok_or (address_to_allocation_offset addr) BadAddress) in
  match action with
  | Claim => claim_at offset pid
  | MoveFrom existing_pid => move_at offset pid existing_pid
  | Release => release_at offset pid
  end.

Definition claim_page (addr pid : Z) : MM unit := claim_release_move addr pid Claim.
Definition release_page (addr pid : Z) : MM unit := claim_release_move addr pid Release.

(** Claim the pages of a range in order; the pages claimed are released again when one is
    refused ([map_range]). *)
Fixpoint release_pages (pages : list Z) (pid : Z) : MM unit :=
  match pages with
  | [] => st_ret tt
  | addr :: pages => let* _ := st_try (release_page addr pid) in release_pages pages pid
  end.
Definition pages_of (addr size : Z) : list Z :=
  map (fun k => addr + k * PAGE_SIZE) (seqZ 0 ((size + PAGE_SIZE - 1) / PAGE_SIZE)).
Definition release_range (phys size pid : Z) : MM unit :=
  if phys =? 0 then st_ret tt else release_pages (pages_of phys size) pid.
Fixpoint claim_pages (claimed pages : list Z) (pid : Z) : MM unit :=
  match pages with
  | [] => st_ret tt
  | addr :: pages =>
      let* r := st_try (claim_page addr pid) in
      match r with
      | Ok _ => claim_pages (claimed ++ [addr]) pages pid
      | Err e => let* _ := release_pages claimed pid in st_fail e
      end
  end.

(** The loop of [release_all_memory_for_process], then the zeroer is started. *)
Definition release_owned_page (idx pid : Z) : MM unit :=
  let* s := st_get in
  if bool_decide (allocations s !! idx = Some pid) then
    let* _ := st_modify (with_allocations (delete idx)) in
    if idx <? RAM_PAGES then
      let* _ := st_modify (with_dirty (union {[idx]})) in add_free_pages 1
    else st_ret tt
  else st_ret tt.
Fixpoint release_owned (idxs : list Z) (pid : Z) : MM unit :=
  match idxs with
  | [] => st_ret tt
  | idx :: idxs => let* _ := release_owned_page idx pid in release_owned idxs pid
  end.
Definition release_all_memory_for_process (pid : Z) : MM unit :=
  let* _ := release_owned (seqZ 0 mem_pages) pid in zeroer_start.
End Board.

#[global] Arguments add_free_pages : simpl never.
#[global] Arguments subtract_free_pages : simpl never.
#[global] Arguments alloc_single_page : simpl never.
#[global] Arguments alloc_range_aligned : simpl never.
#[global] Arguments take_dirty_pages : simpl never.
#[global] Arguments zeroer_start : simpl never.
#[global] Arguments claim_at : simpl never.
#[global] Arguments release_at : simpl never.
#[global] Arguments move_at : simpl never.

(** ** Lemmas on bitmaps *)

Lemma RAM_PAGES_eq : RAM_PAGES = 32768. Proof. reflexivity. Qed.
Lemma FRAGMENTED_AREA_PAGES_eq : FRAGMENTED_AREA_PAGES = 22528. Proof. reflexivity. Qed.
#[global] Opaque RAM_PAGES FRAGMENTED_AREA_PAGES.

Lemma first_one_Some s a b i : first_one s a b = Some i -> a <= i < b /\ i ∈ s.
Proof.
  unfold first_one. rewrite indices_seqZ. intros H. apply find_some in H as [Hi Hs]. apply list_elem_of_In, elem_of_seqZ in Hi.
  apply bool_decide_eq_true in Hs. split; [lia|done].
Qed.
Lemma first_one_None s a b i : first_one s a b = None -> a <= i < b -> i ∉ s.
Proof.
  unfold first_one. rewrite indices_seqZ. intros H Hi. pose proof (find_none _ _ H i) as Hn. cbn in Hn.
  rewrite bool_decide_eq_false in Hn. apply Hn. apply list_elem_of_In, elem_of_seqZ. lia.
Qed.

Lemma all_ones_iff s i n : all_ones s i n = true <-> forall j, i <= j < i + n -> j ∈ s.
Proof.
  unfold all_ones. rewrite forallb_forall. split.
  - intros H j Hj. specialize (H j). rewrite bool_decide_eq_true in H. apply H.
    apply list_elem_of_In, elem_of_seqZ. lia.
  - intros H j Hj. apply bool_decide_eq_true, H. by apply list_elem_of_In, elem_of_seqZ in Hj.
Qed.

Lemma leading_ones_spec n s a :
  0 <= leading_ones n s a <= Z.of_nat n
  /\ (forall j, a <= j < a + leading_ones n s a -> j ∈ s)
  /\ ((0 < n)%nat -> a ∈ s -> 0 < leading_ones n s a).
Proof.
  revert a. induction n as [|n IH]; intros a; cbn [leading_ones]; [split_and!; lia|].
  destruct (IH (a + 1)) as (Hb & Hin & _). case_bool_decide as Ha; split_and!; try lia; try done.
  intros j Hj. destruct (decide (j = a)) as [->|]; [done|apply Hin; lia].
Qed.

Lemma page_address_index i : (page_address i - ENCRYPTED_DRAM_BASE) / PAGE_SIZE = i.
Proof. unfold page_address, PAGE_SIZE. rewrite Z.add_simpl_l. apply Z.div_mul. lia. Qed.

Lemma page_address_encrypted i : 0 <= i < RAM_PAGES -> is_address_encrypted (page_address i) = true.
Proof.
  rewrite RAM_PAGES_eq. unfold is_address_encrypted, page_address, PAGE_SIZE.
  change ENCRYPTED_DRAM_END with (ENCRYPTED_DRAM_BASE + 134217728). lia.
Qed.

Lemma page_address_offset regions i :
  0 <= i < RAM_PAGES -> address_to_allocation_offset regions (page_address i) = Some i.
Proof.
  intros Hi. unfold address_to_allocation_offset. rewrite page_address_encrypted by done.
  by rewrite page_address_index.
Qed.

Lemma own_range_lookup idx n pid m i :
  own_range idx n pid m !! i = if bool_decide (idx <= i < idx + n) then Some pid else m !! i.
Proof.
  unfold own_range.
  enough (forall l, foldr (fun i => insert i pid) m l !! i
                    = if bool_decide (i ∈ l) then Some pid else m !! i) as ->.
  { rewrite (bool_decide_ext _ (idx <= i < idx + n)); [done|]. by rewrite elem_of_seqZ. }
  induction l as [|j l IH]; cbn; [done|].
  destruct (decide (j = i)) as [->|Hne].
  - rewrite lookup_insert_eq. by rewrite bool_decide_eq_true_2 by (apply elem_of_cons; by left).
  - rewrite lookup_insert_ne, IH by done. rewrite (bool_decide_ext (i ∈ j :: l) (i ∈ l)); [done|].
    rewrite elem_of_cons. naive_solver.
Qed.

(** ** The pages of the RAM *)

(** The pages being zeroed: in no bitmap and without an owner. *)
Definition in_flight (s : MemoryManager) : gset Z :=
  if zeroer_running s
  then range_set ((current_page s - ENCRYPTED_DRAM_BASE) / PAGE_SIZE) (current_page_num s) else ∅.

(** Each page of the RAM is owned or in exactly one of the dirty, the zeroed and the busy
    pages, and [n] counts the latter three. *)
Definition wf_pages (D Z0 F : gset Z) (A : gmap Z Z) (n : Z) : Prop :=
  (forall i, i ∈ D ∪ Z0 ∪ F -> 0 <= i < RAM_PAGES)
  /\ D ## Z0 /\ D ## F /\ Z0 ## F
  /\ (forall i, 0 <= i < RAM_PAGES -> i ∈ D ∪ Z0 ∪ F <-> A !! i = None)
  /\ n = Z.of_nat (size (D ∪ Z0 ∪ F)).

Definition wf_hints (s : MemoryManager) : Prop :=
  0 <= next_zeroed_page_hint s <= FRAGMENTED_AREA_PAGES
  /\ (forall h, next_dirty_page_hint s = Some h -> 0 <= h < RAM_PAGES)
  /\ (zeroer_running s = true -> exists off, current_page s = page_address off
        /\ 0 <= off /\ 0 < current_page_num s /\ off + current_page_num s <= RAM_PAGES).

Definition wf_mm (s : MemoryManager) : Prop :=
  wf_pages (free_pages_dirty s) (free_pages_zeroed s) (in_flight s) (allocations s) (num_free_pages s)
  /\ wf_hints s.

Lemma wf_pages_claim D Z0 F A n X A' D' Z0' :
  wf_pages D Z0 F A n -> X ⊆ D ∪ Z0 ->
  (forall i, A' !! i = None <-> A !! i = None /\ i ∉ X) ->
  D' = D ∖ X -> Z0' = Z0 ∖ X ->
  Z.of_nat (size X) <= n /\ wf_pages D' Z0' F A' (n - Z.of_nat (size X)).
Proof.
  intros (Hram & H1 & H2 & H3 & Hiff & ->) HX HA -> ->.
  assert (X ⊆ D ∪ Z0 ∪ F) as HX' by set_solver.
  assert ((D ∖ X) ∪ (Z0 ∖ X) ∪ F = (D ∪ Z0 ∪ F) ∖ X) as Heq by set_solver.
  pose proof (subseteq_size _ _ HX'). split; [lia|]. unfold wf_pages. rewrite Heq. split_and!.
  - intros i Hi. apply Hram. set_solver.
  - set_solver.
  - set_solver.
  - set_solver.
  - intros i Hi. rewrite elem_of_difference, HA, (Hiff i Hi). done.
  - rewrite (size_difference (D ∪ Z0 ∪ F) X HX'). lia.
Qed.

Lemma wf_pages_free D Z0 F A n i :
  wf_pages D Z0 F A n -> is_Some (A !! i) -> 0 <= i < RAM_PAGES ->
  wf_pages ({[i]} ∪ D) Z0 F (delete i A) (n + 1)
  /\ n + 1 <= RAM_PAGES.
Proof.
  intros (Hram & H1 & H2 & H3 & Hiff & ->) [p Hp] Hi.
  assert (i ∉ D ∪ Z0 ∪ F) as Hni by (rewrite (Hiff i Hi), Hp; done).
  assert (size ({[i]} ∪ (D ∪ Z0 ∪ F)) = S (size (D ∪ Z0 ∪ F))) as Hsz.
  { rewrite size_union by set_solver. by rewrite size_singleton. }
  assert (({[i]} ∪ D) ∪ Z0 ∪ F = {[i]} ∪ (D ∪ Z0 ∪ F)) as Heq by set_solver.
  split.
  - unfold wf_pages. rewrite Heq, Hsz. split_and!; [set_solver..| |lia].
    intros j Hj. destruct (decide (i = j)) as [<-|Hne].
    + rewrite lookup_delete_eq. set_solver.
    + rewrite lookup_delete_ne by done. rewrite <-(Hiff j Hj). set_solver.
  - assert ({[i]} ∪ (D ∪ Z0 ∪ F) ⊆ range_set 0 RAM_PAGES) as Hsub.
    { intros j Hj. apply elem_of_range_set. rewrite elem_of_union, elem_of_singleton in Hj.
      destruct Hj as [->|Hj]; [lia|]. specialize (Hram j Hj). lia. }
    apply subseteq_size in Hsub. rewrite Hsz in Hsub.
    pose proof (size_range_set 0 RAM_PAGES). rewrite RAM_PAGES_eq in *. lia.
Qed.

(** ** The operations on the invariant *)

(** Nothing but counter, low-memory flag and recorded calls differs. *)
Definition same_pages (s s' : MemoryManager) : Prop :=
  allocations s' = allocations s /\ free_pages_dirty s' = free_pages_dirty s
  /\ free_pages_zeroed s' = free_pages_zeroed s /\ next_dirty_page_hint s' = next_dirty_page_hint s
  /\ next_zeroed_page_hint s' = next_zeroed_page_hint s /\ zeroer_running s' = zeroer_running s
  /\ zeroer_initialized s' = zeroer_initialized s
  /\ current_page s' = current_page s /\ current_page_num s' = current_page_num s
  /\ pending_map_zero s' = pending_map_zero s.

Lemma same_pages_in_flight s s' : same_pages s s' -> in_flight s' = in_flight s.
Proof. intros (?&?&?&?&?& E1 &?& E2 & E3 &?). unfold in_flight. by rewrite E1, E2, E3. Qed.
Lemma same_pages_hints s s' : same_pages s s' -> wf_hints s -> wf_hints s'.
Proof.
  intros (?&?&?& E1 & E2 & E3 &?& E4 & E5 &?). unfold wf_hints. by rewrite E1, E2, E3, E4, E5.
Qed.

Lemma subtract_free_pages_spec n s :
  n <= num_free_pages s ->
  exists s', subtract_free_pages n s = (s', Done tt)
    /\ same_pages s s' /\ num_free_pages s' = num_free_pages s - n
    /\ (num_free_pages s' < LOW_MEMORY_THRESHOLD / PAGE_SIZE -> low_memory s' = true).
Proof.
  intros Hn. unfold subtract_free_pages, st_bind, st_get, st_assert, st_ret.
  destruct (Z.leb_spec n (num_free_pages s)); [|lia].
  destruct (negb (low_memory s) && (num_free_pages s - n <? LOW_MEMORY_THRESHOLD / PAGE_SIZE)) eqn:E;
    eexists; (split; [reflexivity|]); cbn; split_and!; try done.
  intros Hlt. destruct (low_memory s); [done|]. cbn in E. lia.
Qed.

Lemma add_free_pages_spec n s :
  0 <= num_free_pages s -> 0 <= n -> num_free_pages s + n <= RAM_PAGES ->
  exists s', add_free_pages n s = (s', Done tt)
    /\ same_pages s s' /\ num_free_pages s' = num_free_pages s + n.
Proof.
  intros Hs Hn Hle. unfold add_free_pages, st_bind, st_get, st_assert, st_ret.
  destruct (Z.leb_spec (saturating_add (num_free_pages s) n) RAM_PAGES).
  - eexists. split; [reflexivity|]. cbn. by split_and!.
  - unfold saturating_add, USIZE_MAX in *. rewrite RAM_PAGES_eq in *. lia.
Qed.

(** What [zeroer_start] leaves alone. *)
Definition same_owners (s s' : MemoryManager) : Prop :=
  allocations s' = allocations s /\ free_pages_zeroed s' = free_pages_zeroed s
  /\ next_zeroed_page_hint s' = next_zeroed_page_hint s
  /\ num_free_pages s' = num_free_pages s /\ low_memory s' = low_memory s
  /\ zeroer_initialized s' = zeroer_initialized s /\ pending_map_zero s' = pending_map_zero s.

Lemma zeroer_start_spec s :
  wf_hints s -> (forall i, i ∈ free_pages_dirty s -> 0 <= i < RAM_PAGES) ->
  exists s', zeroer_start s = (s', Done tt) /\ wf_hints s' /\ same_owners s s'
    /\ ((free_pages_dirty s' = free_pages_dirty s /\ in_flight s' = in_flight s)
        \/ (in_flight s = ∅ /\ in_flight s' ⊆ free_pages_dirty s
            /\ free_pages_dirty s' = free_pages_dirty s ∖ in_flight s')).
Proof.
  intros (Hz & Hd & Hr) Hram.
  unfold zeroer_start, st_bind, st_get.
  destruct (zeroer_running s || negb (zeroer_initialized s)) eqn:Erun.
  { eexists. split; [reflexivity|]. split; [done|]. split; [done|]. by left. }
  apply orb_false_iff in Erun as [Erun Einit].
  assert (in_flight s = ∅) as Hfl by (unfold in_flight; by rewrite Erun).
  unfold take_dirty_pages, st_bind, st_get.
  set (start := default 0 (next_dirty_page_hint s)).
  assert (0 <= start < RAM_PAGES) as Hstart.
  { subst start. destruct (next_dirty_page_hint s); cbn; [by apply Hd|rewrite RAM_PAGES_eq; lia]. }
  assert ((start <=? RAM_PAGES) = true) as -> by lia. cbn [st_assert st_ret].
  set (first := match first_one _ start RAM_PAGES with Some _ => _ | None => _ end).
  destruct first as [offset|] eqn:Efirst; cbn.
  2: { eexists. split; [reflexivity|]. cbn. split; [by split_and!; cbn; first [lia|done]|].
       split; [done|]. left. split; [done|]. unfold in_flight; cbn. done. }
  assert (0 <= offset < RAM_PAGES /\ offset ∈ free_pages_dirty s) as [Hoff Hin].
  { subst first. destruct (first_one _ start RAM_PAGES) eqn:E1.
    - simplify_eq. apply first_one_Some in E1 as [? ?]. split; [lia|done].
    - apply first_one_Some in Efirst as [? ?]. split; [lia|done]. }
  destruct (leading_ones_spec (Z.to_nat (RAM_PAGES - offset)) (free_pages_dirty s) offset)
    as (Hlb & Hlin & Hlpos).
  specialize (Hlpos ltac:(lia) Hin). clearbody start first. clear Efirst.
  set (lead := leading_ones _ _ _) in *. clearbody lead.
  set (pages := Z.min lead ZEROER_PAGES_MAX).
  assert (0 < pages <= lead) as Hpages
    by (subst pages; change ZEROER_PAGES_MAX with 2048; lia).
  assert (offset + pages <= RAM_PAGES) as Hend by lia.
  eexists. split; [reflexivity|]. split.
  { split_and!; cbn; try lia.
    - intros h [= <-]. apply Z.mod_pos_bound. rewrite RAM_PAGES_eq. lia.
    - intros _. exists offset. split_and!; [done|lia..]. }
  split; [done|]. right. unfold in_flight at 1 2. cbn. rewrite page_address_index.
  split; [done|]. split; [|done].
  intros i Hi. apply elem_of_range_set in Hi. apply Hlin. lia.
Qed.

(** Starting the zeroer keeps the pages accounted for. *)
Lemma wf_pages_zeroer D Z0 F A n D' F' :
  wf_pages D Z0 F A n ->
  ((D' = D /\ F' = F) \/ (F = ∅ /\ F' ⊆ D /\ D' = D ∖ F')) -> wf_pages D' Z0 F' A n.
Proof.
  intros H [[-> ->]|(-> & HF & ->)]; [done|].
  destruct H as (Hram & H1 & H2 & H3 & Hiff & ->).
  assert ((D ∖ F') ∪ Z0 ∪ F' = D ∪ Z0 ∪ ∅) as Heq.
  { apply set_eq. intros i. destruct (decide (i ∈ F')); set_solver. }
  unfold wf_pages. rewrite Heq. split_and!; try done; set_solver.
Qed.

Lemma wf_mm_start s :
  wf_mm s -> exists s', zeroer_start s = (s', Done tt) /\ wf_mm s' /\ same_owners s s'
    /\ ((free_pages_dirty s' = free_pages_dirty s /\ in_flight s' = in_flight s)
        \/ (in_flight s = ∅ /\ in_flight s' ⊆ free_pages_dirty s
            /\ free_pages_dirty s' = free_pages_dirty s ∖ in_flight s')).
Proof.
  intros [Hp Hh]. destruct (zeroer_start_spec s Hh) as (s' & E & Hh' & Hs & Hc).
  { intros i Hi. destruct Hp as [Hram _]. apply Hram. set_solver. }
  exists s'. split; [done|]. split; [|done]. split; [|done].
  destruct Hs as (-> & -> & ? & -> & _). by eapply wf_pages_zeroer.
Qed.

(** ** Allocation *)

Lemma wf_mm_ram s i : wf_mm s -> i ∈ free_pages_dirty s ∪ free_pages_zeroed s -> 0 <= i < RAM_PAGES.
Proof. intros [[H _] _] Hi. apply H. set_solver. Qed.

Lemma wf_mm_free s i :
  wf_mm s -> i ∈ free_pages_dirty s ∪ free_pages_zeroed s -> allocations s !! i = None.
Proof.
  intros Hwf Hi. pose proof (wf_mm_ram s i Hwf Hi) as Hr.
  destruct Hwf as [(_ & _ & _ & _ & H & _) _]. apply (H i Hr). set_solver.
Qed.

Lemma single_page_choice_spec s :
  0 <= next_zeroed_page_hint s <= FRAGMENTED_AREA_PAGES ->
  match single_page_choice s with
  | Some (idx, zeroed) => idx ∈ (if zeroed : bool then free_pages_zeroed s else free_pages_dirty s)
  | None => forall i, 0 <= i < RAM_PAGES -> i ∉ free_pages_dirty s ∪ free_pages_zeroed s
  end.
Proof.
  intros Hh. unfold single_page_choice.
  destruct (first_one (free_pages_zeroed s) (next_zeroed_page_hint s) _) eqn:E1;
    [by apply first_one_Some in E1 as [_ ?]|].
  destruct (first_one (free_pages_zeroed s) 0 _) eqn:E2; [by apply first_one_Some in E2 as [_ ?]|].
  destruct (first_one (free_pages_dirty s) 0 _) eqn:E3; [by apply first_one_Some in E3 as [_ ?]|].
  destruct (first_one (free_pages_zeroed s) FRAGMENTED_AREA_PAGES _) eqn:E4;
    [by apply first_one_Some in E4 as [_ ?]|].
  destruct (first_one (free_pages_dirty s) FRAGMENTED_AREA_PAGES _) eqn:E5;
    [by apply first_one_Some in E5 as [_ ?]|].
  intros i Hi. rewrite elem_of_union. intros [H|H].
  - destruct (decide (i < FRAGMENTED_AREA_PAGES)).
    + eapply first_one_None in E3; [done|]. lia.
    + eapply first_one_None in E5; [done|]. lia.
  - destruct (decide (i < FRAGMENTED_AREA_PAGES)); [destruct (decide (i < next_zeroed_page_hint s))|].
    + eapply first_one_None in E2; [done|]. lia.
    + eapply first_one_None in E1; [done|]. lia.
    + eapply first_one_None in E4; [done|]. lia.
Qed.

(** What an allocation does to the manager: the pages [X] were free, [zeroed] says that all
    of them were zeroed, and now they are owned by [pid]; no other page changes. *)
Definition allocated (s s' : MemoryManager) (X : gset Z) (pid : Z) (zeroed : bool) : Prop :=
  X ⊆ free_pages_dirty s ∪ free_pages_zeroed s
  /\ (zeroed = true -> X ⊆ free_pages_zeroed s)
  /\ (forall i, allocations s' !! i = if bool_decide (i ∈ X) then Some pid else allocations s !! i)
  /\ free_pages_dirty s' = free_pages_dirty s ∖ X
  /\ free_pages_zeroed s' = free_pages_zeroed s ∖ X
  /\ in_flight s' = in_flight s
  /\ num_free_pages s' = num_free_pages s - Z.of_nat (size X)
  /\ pending_map_zero s' = pending_map_zero s
  /\ (num_free_pages s' < LOW_MEMORY_THRESHOLD / PAGE_SIZE -> low_memory s' = true).

Lemma allocated_wf s s' X pid zeroed :
  wf_mm s -> wf_hints s' -> allocated s s' X pid zeroed -> wf_mm s'.
Proof.
  intros [Hp _] Hh (HX & _ & HA & HD & HZ & HF & Hn & _ & _). split; [|done].
  rewrite HF, Hn. eapply wf_pages_claim; [done|done| |done|done].
  intros i. rewrite HA. case_bool_decide; naive_solver.
Qed.

Lemma wf_mm_count s X :
  wf_mm s -> X ⊆ free_pages_dirty s ∪ free_pages_zeroed s -> Z.of_nat (size X) <= num_free_pages s.
Proof.
  intros [(_ & _ & _ & _ & _ & ->) _] HX. apply inj_le, subseteq_size. set_solver.
Qed.

Lemma alloc_single_page_spec pid s :
  wf_mm s ->
  match alloc_single_page pid s with
  | (s', Done (phys, zeroed)) => wf_mm s' /\ exists idx, phys = page_address idx
      /\ 0 <= idx < RAM_PAGES /\ allocated s s' {[idx]} pid zeroed
  | (s', Fail e) => s' = s /\ e = OutOfMemory /\ free_pages_dirty s ∪ free_pages_zeroed s = ∅
  | (_, Panic) => False
  end.
Proof.
  intros Hwf. destruct Hwf as [Hp Hh] eqn:Ewf. clear Ewf. destruct Hh as (Hz & Hd & Hr).
  unfold alloc_single_page, st_bind, st_get.
  assert ((next_zeroed_page_hint s <=? FRAGMENTED_AREA_PAGES) = true) as -> by lia.
  cbn [st_assert st_ret]. pose proof (single_page_choice_spec s Hz) as Hc.
  destruct (single_page_choice s) as [[idx zeroed]|]; cbn [st_fail].
  2: { split; [done|]. split; [done|]. apply set_eq. intros i. split; [|set_solver].
       intros Hi. exfalso. apply (Hc i); [by apply (wf_mm_ram s)|done]. }
  assert (idx ∈ free_pages_dirty s ∪ free_pages_zeroed s) as Hin by (destruct zeroed; set_solver).
  assert (0 <= idx < RAM_PAGES) as Hi by (by apply (wf_mm_ram s)).
  assert ({[idx]} ⊆ free_pages_dirty s ∪ free_pages_zeroed s) as HX by set_solver.
  pose proof (wf_mm_count s _ Hwf HX) as Hcnt. rewrite size_singleton in Hcnt.
  cbn [st_modify].
  set (s1 := (if zeroed then with_zeroed (fun z => z ∖ {[idx]}) else with_dirty (fun d => d ∖ {[idx]})) s).
  assert (free_pages_dirty s1 = free_pages_dirty s ∖ {[idx]}
          /\ free_pages_zeroed s1 = free_pages_zeroed s ∖ {[idx]}) as [HD1 HZ1].
  { destruct Hp as (_ & H1 & _). subst s1. destruct zeroed; cbn; split; try done; set_solver. }
  assert (num_free_pages s1 = num_free_pages s /\ allocations s1 = allocations s
    /\ in_flight s1 = in_flight s /\ wf_hints s1 /\ pending_map_zero s1 = pending_map_zero s)
    as (Hn1 & HA1 & HF1 & Hh1 & Hpd1)
    by (subst s1; destruct zeroed; split_and!; done).
  clearbody s1. destruct (subtract_free_pages_spec 1 s1) as (s2 & E2 & Hs2 & Hn2 & Hl2); [lia|].
  rewrite E2. cbn [st_modify st_ret].
  pose proof (same_pages_in_flight _ _ Hs2) as HF2. pose proof (same_pages_hints _ _ Hs2 Hh1) as Hh2.
  destruct Hs2 as (HA2 & HD2 & HZ2 & _ & _ & _ & _ & _ & _ & Hpd2).
  set (s3 := set_zeroed_hint _ _).
  assert (allocated s s3 {[idx]} pid zeroed) as Hall.
  { unfold allocated. rewrite size_singleton. split_and!; try done.
    - intros ->. set_solver.
    - intros i. cbn. rewrite HA2, HA1. destruct (decide (idx = i)) as [<-|Hne].
      + rewrite lookup_insert_eq, bool_decide_eq_true_2; [done|set_solver].
      + rewrite lookup_insert_ne, bool_decide_eq_false_2 by (done || set_solver). done.
    - cbn. by rewrite HD2.
    - cbn. by rewrite HZ2.
    - change (in_flight s3) with (in_flight s2). by rewrite HF2.
    - cbn. rewrite Hn2. lia.
    - cbn. by rewrite Hpd2. }
  split; [|by exists idx]. apply (allocated_wf s s3 {[idx]} pid zeroed Hwf); [|done].
  destruct Hh2 as (_ & Hd2 & Hr2). split; [|done]. cbn.
  destruct (Z.ltb_spec FRAGMENTED_AREA_PAGES (idx + 1)); [|lia]. rewrite FRAGMENTED_AREA_PAGES_eq. lia.
Qed.

(** A block of free pages at an aligned index. *)
Definition free_block (s : MemoryManager) (align_pages num_pages idx : Z) : Prop :=
  0 <= idx /\ idx + num_pages <= RAM_PAGES /\ idx mod align_pages = 0
  /\ forall j, idx <= j < idx + num_pages -> j ∈ free_pages_zeroed s ∪ free_pages_dirty s.

Lemma range_choice_spec k num_pages s :
  0 <= k -> 0 < num_pages ->
  match range_choice (2 ^ k) num_pages s with
  | Some (idx, zeroed) => free_block s (2 ^ k) num_pages idx
      /\ (zeroed = true -> forall j, idx <= j < idx + num_pages -> j ∈ free_pages_zeroed s)
  | None => forall idx, ~ free_block s (2 ^ k) num_pages idx
  end.
Proof.
  intros Hk Hn. unfold range_choice, rev'. rewrite <-!rev_alt, indices_seqZ.
  destruct (List.find (fun i => all_ones (free_pages_zeroed s) i num_pages) _) as [idx|] eqn:E1.
  { apply find_some in E1 as [Hi Hall]. rewrite all_ones_iff in Hall.
    apply filter_In in Hi as [Hi Hal]. apply filter_In in Hi as [Hi _].
    apply in_rev, list_elem_of_In, elem_of_seqZ in Hi. rewrite land_ones_mod in Hal by done.
    split; [|done]. split_and!; [lia..|]. intros j Hj. apply elem_of_union_l, Hall, Hj. }
  clear E1. destruct (List.find (fun i => all_ones (_ ∪ _) i num_pages) _) as [idx|] eqn:E2.
  { apply find_some in E2 as [Hi Hall]. rewrite all_ones_iff in Hall.
    apply in_rev, filter_In in Hi as [Hi Hal]. apply list_elem_of_In, elem_of_seqZ in Hi.
    split; [|done]. by split_and!; [lia..|]. }
  intros idx (H0 & Hend & Hal & Hall). pose proof (find_none _ _ E2 idx) as Hf. cbn in Hf.
  enough (all_ones (free_pages_zeroed s ∪ free_pages_dirty s) idx num_pages = false) as Hc.
  { apply not_true_iff_false in Hc. apply Hc. by apply all_ones_iff. }
  apply Hf. rewrite <-in_rev. apply filter_In. split; [|lia].
  apply list_elem_of_In, elem_of_seqZ. lia.
Qed.

Lemma alloc_range_aligned_spec k num_pages pid s :
  wf_mm s -> 0 <= k -> 0 <= num_pages ->
  match alloc_range_aligned (2 ^ k) num_pages pid s with
  | (s', Done (phys, zeroed)) => wf_mm s' /\ exists idx, phys = page_address idx
      /\ free_block s (2 ^ k) num_pages idx /\ 0 < num_pages
      /\ allocated s s' (range_set idx num_pages) pid zeroed
  | (s', Fail e) => s' = s /\ ((num_pages = 0 /\ e = InvalidArguments)
      \/ (0 < num_pages /\ e = OutOfMemory /\ forall idx, ~ free_block s (2 ^ k) num_pages idx))
  | (_, Panic) => False
  end.
Proof.
  intros Hwf Hk Hn. unfold alloc_range_aligned.
  destruct (Z.eqb_spec num_pages 0) as [->|]; [split; [done|by left]|].
  destruct (Z.ltb_spec RAM_PAGES num_pages) as [Hbig|_].
  { split; [done|]. right. split; [lia|]. split; [done|]. intros idx (? & ? & _). lia. }
  unfold st_bind, st_get. pose proof (range_choice_spec k num_pages s Hk ltac:(lia)) as Hc.
  destruct (range_choice (2 ^ k) num_pages s) as [[idx zeroed]|]; cbn [st_fail].
  2: { split; [done|]. right. split; [lia|done]. }
  destruct Hc as [Hfree Hzeroed]. set (X := range_set idx num_pages).
  assert (X ⊆ free_pages_dirty s ∪ free_pages_zeroed s) as HX.
  { intros i Hi. apply elem_of_range_set in Hi. destruct Hfree as (_ & _ & _ & Hf).
    specialize (Hf i Hi). set_solver. }
  assert (zeroed = true -> X ⊆ free_pages_zeroed s) as HXz.
  { intros Ez i Hi. by apply elem_of_range_set, (Hzeroed Ez) in Hi. }
  assert (Z.of_nat (size X) = num_pages) as Hsz by (apply size_range_set; lia).
  pose proof (wf_mm_count s X Hwf HX) as Hcnt.
  destruct (subtract_free_pages_spec num_pages s) as (s2 & E2 & Hs2 & Hn2 & Hl2); [lia|].
  rewrite E2. cbn [st_modify st_ret].
  pose proof (same_pages_in_flight _ _ Hs2) as HF2.
  pose proof (same_pages_hints _ _ Hs2 (proj2 Hwf)) as Hh2.
  destruct Hs2 as (HA2 & HD2 & HZ2 & _ & _ & _ & _ & _ & _ & Hpd2).
  set (s4 := with_zeroed _ _).
  set (s5 := (if zeroed then id else with_dirty (fun d => d ∖ range_set idx num_pages)) s4).
  assert (allocated s s5 X pid zeroed) as Hall.
  { pose proof Hwf as [(_ & H1 & _) _].
    assert (free_pages_dirty s5 = free_pages_dirty s ∖ X) as HD5.
    { subst s5. destruct zeroed; cbn; rewrite HD2; [specialize (HXz eq_refl); set_solver|done]. }
    assert (free_pages_zeroed s5 = free_pages_zeroed s ∖ X) as HZ5
      by (subst s5; destruct zeroed; cbn; by rewrite HZ2).
    assert (allocations s5 = own_range idx num_pages pid (allocations s)) as HA5
      by (subst s5; destruct zeroed; cbn; by rewrite HA2).
    assert (in_flight s5 = in_flight s) as HF5 by (rewrite <-HF2; subst s5; by destruct zeroed).
    assert (num_free_pages s5 = num_free_pages s - num_pages
            /\ pending_map_zero s5 = pending_map_zero s
            /\ low_memory s5 = low_memory s2) as (Hn5 & Hpd5 & Hlow)
      by (subst s5; destruct zeroed; cbn; by split_and!).
    unfold allocated. split_and!; try done; [|by rewrite Hsz|by rewrite Hlow, Hn5, <-Hn2].
    intros i. rewrite HA5, own_range_lookup.
    rewrite (bool_decide_ext (idx <= i < idx + num_pages) (i ∈ X)); [done|].
    subst X. by rewrite elem_of_range_set. }
  split.
  - apply (allocated_wf s s5 X pid zeroed Hwf); [|done].
    assert (wf_hints s4) by done. subst s5. by destruct zeroed.
  - exists idx. by split_and!; [|lia..| |lia|].
Qed.

(** ** Ownership changes *)

(** Owners outside of the RAM, or replaced by other owners, do not matter to the bitmaps. *)
Lemma wf_pages_owners D Z0 F A A' n :
  wf_pages D Z0 F A n ->
  (forall i, 0 <= i < RAM_PAGES -> A' !! i = None <-> A !! i = None) -> wf_pages D Z0 F A' n.
Proof.
  intros (H1 & H2 & H3 & H4 & H5 & H6) HA. split_and!; try done.
  intros i Hi. by rewrite (H5 i Hi), (HA i Hi).
Qed.

(** No page is lost: the owners are those of [A'], and the rest of the state follows. *)
Lemma move_at_spec offset pid existing s :
  wf_mm s ->
  match move_at offset pid existing s with
  | (s', Done _) => wf_mm s' /\ s' = with_allocations (insert offset pid) s
      /\ exists owner, allocations s !! offset = Some owner /\ (owner = pid \/ owner = existing)
  | (s', Fail e) => s' = s /\
      ((allocations s !! offset = None /\ e = DoubleFree)
       \/ (exists owner, allocations s !! offset = Some owner /\ owner <> pid /\ owner <> existing
             /\ e = MemoryInUse))
  | (_, Panic) => False
  end.
Proof.
  intros [Hp Hh]. unfold move_at, st_bind, st_get.
  destruct (allocations s !! offset) as [owner|] eqn:Eo; cbn; [|split; [done|by left]].
  destruct (negb (owner =? pid) && negb (existing =? owner)) eqn:E; cbn.
  - split; [done|]. right. exists owner. split_and!; [done|lia..|done].
  - split; [|split; [done|]; exists owner; split; [done|lia]].
    split; [|done]. eapply wf_pages_owners; [exact Hp|]. intros i _. cbn.
    destruct (decide (offset = i)) as [<-|]; [rewrite lookup_insert_eq, Eo; done|].
    by rewrite lookup_insert_ne.
Qed.

Lemma claim_at_spec offset pid s :
  wf_mm s -> 0 <= offset ->
  match claim_at offset pid s with
  | (s', Done _) => wf_mm s' /\ allocations s !! offset = None
      /\ allocations s' = <[offset := pid]> (allocations s)
      /\ (offset < RAM_PAGES -> allocated s s' {[offset]} pid (bool_decide (offset ∈ free_pages_zeroed s)))
      /\ (RAM_PAGES <= offset -> s' = with_allocations (insert offset pid) s)
  | (s', Fail e) => s' = s /\ e = MemoryInUse
      /\ (is_Some (allocations s !! offset) \/ offset ∈ in_flight s)
  | (_, Panic) => False
  end.
Proof.
  intros Hwf Hoff. unfold claim_at, st_bind, st_get.
  case_bool_decide as Hown; [by split_and!; [| |left]|].
  assert (allocations s !! offset = None) as Ho by (by apply eq_None_not_Some).
  destruct (Z.ltb_spec offset RAM_PAGES) as [Hlt|Hge].
  2: { cbn. split; [|by split_and!; [| |lia|]]. destruct Hwf as [Hp Hh]. split; [|done].
       eapply wf_pages_owners; [exact Hp|]. intros i Hi. cbn.
       rewrite lookup_insert_ne; [done|lia]. }
  set (step := if bool_decide (offset ∈ free_pages_zeroed s) then _ else _).
  assert (offset ∈ free_pages_dirty s ∪ free_pages_zeroed s -> exists s1, step s = (s1, Done tt)
    /\ free_pages_dirty s1 = free_pages_dirty s ∖ {[offset]}
    /\ free_pages_zeroed s1 = free_pages_zeroed s ∖ {[offset]}
    /\ num_free_pages s1 = num_free_pages s /\ allocations s1 = allocations s
    /\ in_flight s1 = in_flight s /\ wf_hints s1 /\ pending_map_zero s1 = pending_map_zero s) as Hstep.
  { intros Hin. destruct Hwf as [(_ & H1 & _) Hh]. subst step.
    case_bool_decide as Hz.
    - eexists. split; [reflexivity|]. cbn. split_and!; try done; apply Hh || set_solver.
    - assert (offset ∈ free_pages_dirty s) by set_solver.
      rewrite bool_decide_eq_true_2 by done. eexists. split; [reflexivity|]. cbn.
      split_and!; try done; apply Hh || set_solver. }
  destruct (decide (offset ∈ free_pages_dirty s ∪ free_pages_zeroed s)) as [Hin|Hnin].
  2: { assert (step s = (s, Fail MemoryInUse)) as ->.
       { subst step. rewrite !bool_decide_eq_false_2 by set_solver. done. }
       split_and!; [done..|]. right. destruct Hwf as [(_ & _ & _ & _ & Hiff & _) _].
       apply (Hiff offset ltac:(lia)) in Ho. set_solver. }
  destruct (Hstep Hin) as (s1 & -> & HD1 & HZ1 & Hn1 & HA1 & HF1 & Hh1 & Hpd1). clear Hstep step.
  assert ({[offset]} ⊆ free_pages_dirty s ∪ free_pages_zeroed s) as HX by set_solver.
  pose proof (wf_mm_count s _ Hwf HX) as Hcnt. rewrite size_singleton in Hcnt.
  destruct (subtract_free_pages_spec 1 s1) as (s2 & E2 & Hs2 & Hn2 & Hl2); [lia|].
  rewrite E2. cbn [st_modify].
  pose proof (same_pages_in_flight _ _ Hs2) as HF2. pose proof (same_pages_hints _ _ Hs2 Hh1) as Hh2.
  destruct Hs2 as (HA2 & HD2 & HZ2 & _ & _ & _ & _ & _ & _ & Hpd2).
  set (s3 := with_allocations (insert offset pid) s2).
  assert (allocations s3 = <[offset := pid]> (allocations s)) as HA3 by (cbn; by rewrite HA2, HA1).
  assert (allocated s s3 {[offset]} pid (bool_decide (offset ∈ free_pages_zeroed s))) as Hall.
  { unfold allocated. rewrite size_singleton. split_and!; try done.
    - intros Hz%bool_decide_eq_true. set_solver.
    - intros i. rewrite HA3. destruct (decide (offset = i)) as [<-|Hne].
      + rewrite lookup_insert_eq, bool_decide_eq_true_2; [done|set_solver].
      + rewrite lookup_insert_ne, bool_decide_eq_false_2 by (done || set_solver). done.
    - cbn. by rewrite HD2.
    - cbn. by rewrite HZ2.
    - change (in_flight s3) with (in_flight s2). by rewrite HF2.
    - cbn. rewrite Hn2. lia.
    - cbn. by rewrite Hpd2. }
  split; [by eapply (allocated_wf s s3 {[offset]} pid)|]. by split_and!; [| | |lia].
Qed.

Lemma release_at_spec offset pid s :
  wf_mm s -> 0 <= offset ->
  match release_at offset pid s with
  | (s', Done _) => wf_mm s' /\ allocations s !! offset = Some pid
      /\ allocations s' = delete offset (allocations s)
      /\ free_pages_zeroed s' = free_pages_zeroed s /\ pending_map_zero s' = pending_map_zero s
      /\ num_free_pages s' = num_free_pages s + (if offset <? RAM_PAGES then 1 else 0)
  | (s', Fail e) => s' = s /\
      ((allocations s !! offset = None /\ e = DoubleFree)
       \/ (exists owner, allocations s !! offset = Some owner /\ owner <> pid /\ e = MemoryInUse))
  | (_, Panic) => False
  end.
Proof.
  intros Hwf Hoff. unfold release_at, st_bind, st_get.
  destruct (allocations s !! offset) as [owner|] eqn:Eo; cbn; [|split; [done|by left]].
  destruct (Z.eqb_spec owner pid) as [->|Hne]; cbn; [|split; [done|right; eauto]].
  destruct Hwf as [Hp Hh]. destruct (Z.ltb_spec offset RAM_PAGES) as [Hlt|Hge].
  2: { cbn. split; [|split_and!; try done; lia]. split; [|done]. eapply wf_pages_owners; [exact Hp|].
       intros i Hi. cbn. rewrite lookup_delete_ne; [done|lia]. }
  cbn [st_modify].
  set (s2 := note_dirty offset (with_dirty (union {[offset]}) s)).
  destruct (wf_pages_free _ _ _ _ _ offset Hp) as [Hp' Hle]; [by rewrite Eo|lia|].
  assert (free_pages_dirty s2 = {[offset]} ∪ free_pages_dirty s /\ in_flight s2 = in_flight s
    /\ free_pages_zeroed s2 = free_pages_zeroed s /\ allocations s2 = allocations s
    /\ num_free_pages s2 = num_free_pages s /\ pending_map_zero s2 = pending_map_zero s)
    as (HD2 & HF2 & HZ2 & HA2 & Hn2 & Hpd2).
  { subst s2. unfold note_dirty. cbn. destruct (next_dirty_page_hint s); by split_and!. }
  assert (wf_hints s2) as Hh2.
  { destruct Hh as (? & Hd & ?). subst s2. unfold note_dirty. cbn. destruct (next_dirty_page_hint s) eqn:E.
    - split_and!; try done; cbn; rewrite ?E; try lia. intros h [= <-]. by apply Hd.
    - split_and!; try done; cbn; try lia. intros h [= <-]. lia. }
  clearbody s2.
  destruct (zeroer_start_spec s2 Hh2) as (s3 & -> & Hh3 & Hs3 & Hc3).
  { intros i Hi. destruct Hp' as [Hram _]. apply Hram. rewrite HD2 in Hi. set_solver. }
  destruct Hs3 as (HA3 & HZ3 & _ & Hn3 & _ & _ & Hpd3).
  destruct (add_free_pages_spec 1 s3) as (s4 & -> & Hs4 & Hn4).
  { destruct Hp as (_ & _ & _ & _ & _ & Hn). lia. } { lia. } { lia. }
  pose proof (same_pages_in_flight _ _ Hs4) as HF4. pose proof (same_pages_hints _ _ Hs4 Hh3) as Hh4.
  destruct Hs4 as (HA4 & HD4 & HZ4 & _ & _ & _ & _ & _ & _ & Hpd4). cbn.
  rewrite HA4, HA3, HA2, HZ4, HZ3, HZ2, Hpd4, Hpd3, Hpd2, Hn4, Hn3, Hn2.
  split; [|done]. split; [|done]. cbn.
  change (in_flight (with_allocations _ s4)) with (in_flight s4).
  rewrite HA4, HA3, HA2, HZ4, HZ3, HZ2, HD4, HF4, Hn4, Hn3, Hn2.
  eapply wf_pages_zeroer; [exact Hp'|]. by rewrite <-HD2, <-HF2.
Qed.

Lemma zeroer_done_spec regions s :
  wf_mm s -> zeroer_running s = true ->
  exists s', zeroer_done regions s = (s', Done tt) /\ wf_mm s'
    /\ allocations s' = allocations s /\ pending_map_zero s' = pending_map_zero s
    /\ num_free_pages s' = num_free_pages s
    /\ free_pages_zeroed s' = free_pages_zeroed s ∪ in_flight s
    /\ in_flight s' ⊆ free_pages_dirty s.
Proof.
  intros [Hp Hh] Hrun. pose proof Hh as (Hz & Hd & Hr).
  destruct (Hr Hrun) as (off & Hcur & Hoff & Hnum & Hend).
  unfold zeroer_done, set_pages_to_zeroed, st_bind, st_get; cbn [st_modify].
  rewrite Hcur, page_address_offset by lia. cbn [st_unwrap st_ret].
  destruct (Z.leb_spec (off + current_page_num s) RAM_PAGES); [|lia]. cbn [st_assert st_ret st_modify].
  set (s1 := set_zeroer false 0 0 _).
  assert (in_flight s = range_set off (current_page_num s)) as Hfl.
  { unfold in_flight. by rewrite Hrun, Hcur, page_address_index. }
  assert (free_pages_dirty s ∪ (range_set off (current_page_num s) ∪ free_pages_zeroed s) ∪ ∅
          = free_pages_dirty s ∪ free_pages_zeroed s ∪ in_flight s) as Heq by (rewrite Hfl; set_solver).
  assert (wf_mm s1) as Hwf1.
  { split; [|by split_and!; cbn; first [lia|done]].
    change (in_flight s1) with (∅ : gset Z).
    change (free_pages_zeroed s1) with (range_set off (current_page_num s) ∪ free_pages_zeroed s).
    change (free_pages_dirty s1) with (free_pages_dirty s).
    change (allocations s1) with (allocations s). change (num_free_pages s1) with (num_free_pages s).
    destruct Hp as (H1 & H2 & H3 & H4 & H5 & H6). unfold wf_pages. rewrite Heq.
    rewrite Hfl in *. split_and!; try done; set_solver. }
  destruct (wf_mm_start s1 Hwf1) as (s2 & E2 & Hwf2 & (HA & HZ & _ & Hn & _ & _ & Hpd) & Hc).
  exists s2. rewrite E2. split_and!; try done.
  - rewrite HZ. cbn. rewrite Hfl. set_solver.
  - change (free_pages_dirty s) with (free_pages_dirty s1). destruct Hc as [[_ ->]|(_ & ? & _)]; [|done].
    change (in_flight s1) with (∅ : gset Z). set_solver.
Qed.

Lemma release_owned_page_spec idx pid s :
  wf_mm s -> 0 <= idx ->
  exists s', release_owned_page idx pid s = (s', Done tt) /\ wf_mm s'
    /\ free_pages_zeroed s' = free_pages_zeroed s /\ in_flight s' = in_flight s
    /\ pending_map_zero s' = pending_map_zero s
    /\ allocations s' = if bool_decide (allocations s !! idx = Some pid)
                        then delete idx (allocations s) else allocations s.
Proof.
  intros Hwf Hidx. unfold release_owned_page, st_bind, st_get.
  case_bool_decide as Hown; cbn [st_modify]; [|by exists s].
  destruct Hwf as [Hp Hh]. destruct (Z.ltb_spec idx RAM_PAGES) as [Hlt|Hge].
  - destruct (wf_pages_free _ _ _ _ _ idx Hp) as [Hp' Hle]; [by rewrite Hown|lia|].
    cbn [st_modify]. set (s0 := with_dirty (union {[idx]}) (with_allocations (delete idx) s)).
    assert (0 <= num_free_pages s) by (destruct Hp as (_ & _ & _ & _ & _ & Hn); lia).
    destruct (add_free_pages_spec 1 s0) as (s1 & E & Hs & Hn); [cbn; lia..|].
    exists s1. split; [done|]. pose proof (same_pages_in_flight _ _ Hs) as HF.
    pose proof (same_pages_hints _ _ Hs Hh) as Hh1.
    destruct Hs as (HA & HD & HZ & _ & _ & _ & _ & _ & _ & Hpd).
    change (in_flight s0) with (in_flight s) in HF. split; [|by rewrite HZ, HF, HA, Hpd].
    split; [|done]. by rewrite HD, HZ, HF, HA, Hn.
  - eexists. split; [reflexivity|]. split; [|done]. split; [|done].
    eapply wf_pages_owners; [exact Hp|]. intros i Hi. cbn. rewrite lookup_delete_ne; [done|lia].
Qed.

Lemma release_owned_spec idxs pid s :
  wf_mm s -> Forall (Z.le 0) idxs ->
  exists s', release_owned idxs pid s = (s', Done tt) /\ wf_mm s'
    /\ free_pages_zeroed s' = free_pages_zeroed s /\ in_flight s' = in_flight s
    /\ pending_map_zero s' = pending_map_zero s
    /\ (forall i, allocations s' !! i =
          if bool_decide (i ∈ idxs /\ allocations s !! i = Some pid) then None else allocations s !! i).
Proof.
  revert s. induction idxs as [|idx idxs IH]; intros s Hwf Hpos; cbn [release_owned].
  { exists s. split_and!; done. }
  apply list.Forall_cons in Hpos as [Hidx Hpos]. unfold st_bind.
  destruct (release_owned_page_spec idx pid s Hwf Hidx) as (s1 & -> & Hwf1 & HZ1 & HF1 & Hpd1 & HA1).
  destruct (IH s1 Hwf1 Hpos) as (s' & -> & Hwf' & HZ & HF & Hpd & HA).
  exists s'. split_and!; [done|done|by rewrite HZ|by rewrite HF|by rewrite Hpd|].
  intros i. rewrite HA, HA1. destruct (decide (idx = i)) as [<-|Hne].
  - case_bool_decide as Ho.
    + rewrite lookup_delete_eq, bool_decide_eq_false_2, bool_decide_eq_true_2; [done| |naive_solver].
      split; [apply elem_of_cons; by left|done].
    + rewrite !bool_decide_eq_false_2; naive_solver.
  - assert ((if bool_decide (allocations s !! idx = Some pid) then delete idx (allocations s)
             else allocations s) !! i = allocations s !! i) as ->.
    { case_bool_decide; [by rewrite lookup_delete_ne|done]. }
    rewrite (bool_decide_ext (i ∈ idx :: idxs /\ allocations s !! i = Some pid)
               (i ∈ idxs /\ allocations s !! i = Some pid)); [done|].
    rewrite elem_of_cons. naive_solver.
Qed.

Lemma region_offset_ge regions offset addr off :
  Forall (fun r => r.1 <= r.2) regions -> region_offset regions offset addr = Some off -> offset <= off.
Proof.
  revert offset. induction regions as [|[start stop] regions IH]; intros offset Hr; cbn; [done|].
  apply list.Forall_cons in Hr as [Hle Hr]. cbn in Hle.
  destruct ((start <=? addr) && (addr <? stop)) eqn:E.
  - intros [= <-]. pose proof (Z.div_pos (addr - start) PAGE_SIZE). unfold PAGE_SIZE in *. lia.
  - intros H. apply IH in H; [|done]. pose proof (Z.div_pos (stop - start) PAGE_SIZE).
    unfold PAGE_SIZE in *. lia.
Qed.

Definition is_ram (addr : Z) : bool := is_address_encrypted addr || is_address_in_plaintext_dram addr.

Lemma allocation_offset_spec regions addr off :
  Forall (fun r => r.1 <= r.2) regions -> address_to_allocation_offset regions addr = Some off ->
  0 <= off /\ (is_ram addr = true <-> off < RAM_PAGES).
Proof.
  intros Hr. unfold address_to_allocation_offset, is_ram.
  assert (forall base, base <= addr < base + 134217728 -> 0 <= (addr - base) / PAGE_SIZE < RAM_PAGES) as Hb.
  { intros base Hb. rewrite RAM_PAGES_eq. unfold PAGE_SIZE. split; [apply Z.div_pos; lia|].
    apply Z.div_lt_upper_bound; lia. }
  destruct (is_address_encrypted addr) eqn:E1; [|destruct (is_address_in_plaintext_dram addr) eqn:E2].
  - intros [= <-]. unfold is_address_encrypted in E1.
    change ENCRYPTED_DRAM_END with (ENCRYPTED_DRAM_BASE + 134217728) in E1.
    specialize (Hb ENCRYPTED_DRAM_BASE ltac:(lia)). split; [lia|]. cbn. split; [lia|done].
  - intros [= <-]. unfold is_address_in_plaintext_dram in E2.
    change PLAINTEXT_DRAM_END with (PLAINTEXT_DRAM_BASE + 134217728) in E2.
    specialize (Hb PLAINTEXT_DRAM_BASE ltac:(lia)). split; [lia|]. cbn. split; [lia|done].
  - intros H. apply region_offset_ge in H; [|done]. rewrite RAM_PAGES_eq in *. cbn. split; [lia|].
    split; [done|lia].
Qed.

(** ** Histories *)

Section Histories.
Context (regions : list (Z * Z)) (shared_peripherals : list Z)
        (permitted : Z -> Z -> result Error unit).
Context (Hregions : Forall (fun r => r.1 <= r.2) regions).

(** What an operation on page [offset] may do to its owner. *)
Definition owner_change (action : ClaimReleaseMove) (pid : Z) (before after : option Z) : Prop :=
  match action with
  | Claim => before = None /\ after = Some pid
  | MoveFrom existing => (before = Some pid \/ before = Some existing) /\ after = Some pid
  | Release => before = Some pid /\ after = None
  end.

Definition owner_refused (action : ClaimReleaseMove) (pid : Z) (before : option Z) (busy : Prop) (e : Error)
    : Prop :=
  match action with
  | Claim => e = MemoryInUse /\ (is_Some before \/ busy)
  | MoveFrom existing => (before = None /\ e = DoubleFree)
      \/ (e = MemoryInUse /\ exists o, before = Some o /\ o <> pid /\ o <> existing)
  | Release => (before = None /\ e = DoubleFree)
      \/ (e = MemoryInUse /\ exists o, before = Some o /\ o <> pid)
  end.

Lemma claim_release_move_spec addr pid action s :
  wf_mm s ->
  match claim_release_move regions shared_peripherals permitted addr pid action s with
  | (s', Done _) => wf_mm s' /\
      ((is_ram addr = false /\ pid <> 1 /\ is_shared_peripheral shared_peripherals addr = true /\ s' = s)
       \/ exists off, address_to_allocation_offset regions addr = Some off
            /\ owner_change action pid (allocations s !! off) (allocations s' !! off)
            /\ (forall i, i <> off -> allocations s' !! i = allocations s !! i)
            /\ free_pages_zeroed s' ⊆ free_pages_zeroed s
            /\ pending_map_zero s' = pending_map_zero s)
  | (s', Fail e) => s' = s /\
      ((Z.land addr 0xfff <> 0 /\ e = BadAlignment)
       \/ (is_ram addr = false /\ permitted pid addr = Err e)
       \/ (address_to_allocation_offset regions addr = None /\ e = BadAddress)
       \/ exists off, address_to_allocation_offset regions addr = Some off
            /\ owner_refused action pid (allocations s !! off) (off ∈ in_flight s) e)
  | (_, Panic) => False
  end.
Proof.
  intros Hwf. unfold claim_release_move. fold (is_ram addr).
  destruct (Z.eqb_spec (Z.land addr 0xfff) 0) as [Hal|Hal]; cbn [negb]; [|split; [done|by left]].
  unfold st_bind. assert (forall k : MM unit,
    (let (s0, o) := (if is_ram addr then st_ret tt else st_lift (permitted pid addr)) s in
     match o with Done _ => k s0 | Fail e => (s0, Fail e) | Panic => (s0, Panic) end)
    = if is_ram addr then k s else match permitted pid addr with Ok _ => k s | Err e => (s, Fail e) end) as ->.
  { intros k. destruct (is_ram addr); [done|]. by destruct (permitted pid addr). }
  assert (is_ram addr = false -> forall e, permitted pid addr = Err e ->
    s = s /\ ((Z.land addr 0xfff <> 0 /\ e = BadAlignment) \/ (is_ram addr = false /\ permitted pid addr = Err e)
      \/ (address_to_allocation_offset regions addr = None /\ e = BadAddress)
      \/ exists off, address_to_allocation_offset regions addr = Some off
            /\ owner_refused action pid (allocations s !! off) (off ∈ in_flight s) e)) as Hperm
    by (intros; split; [done|]; right; by left).
  destruct (negb (is_ram addr) && negb (pid =? 1) && is_shared_peripheral shared_peripherals addr) eqn:Esh.
  { destruct (is_ram addr); [done|]. destruct (permitted pid addr) eqn:Ep; [|by apply Hperm].
    apply andb_true_iff in Esh as [Hpid Hsh]. cbn. split; [done|]. left. by split_and!; [|lia| |]. }
  clear Esh. enough (match (match ok_or (address_to_allocation_offset regions addr) BadAddress with
      | Ok offset => match action with
          | Claim => claim_at offset pid | MoveFrom existing_pid => move_at offset pid existing_pid
          | Release => release_at offset pid end s
      | Err e => (s, Fail e) end) with
    | (s', Done _) => wf_mm s' /\ exists off, address_to_allocation_offset regions addr = Some off
            /\ owner_change action pid (allocations s !! off) (allocations s' !! off)
            /\ (forall i, i <> off -> allocations s' !! i = allocations s !! i)
            /\ free_pages_zeroed s' ⊆ free_pages_zeroed s
            /\ pending_map_zero s' = pending_map_zero s
    | (s', Fail e) => s' = s /\ ((address_to_allocation_offset regions addr = None /\ e = BadAddress)
       \/ exists off, address_to_allocation_offset regions addr = Some off
            /\ owner_refused action pid (allocations s !! off) (off ∈ in_flight s) e)
    | (_, Panic) => False end) as H.
  { destruct (is_ram addr); [|destruct (permitted pid addr) eqn:Ep; [|by apply Hperm]].
    all: destruct (ok_or (address_to_allocation_offset regions addr) BadAddress) as [off|e0];
      cbn [st_lift st_ret st_fail];
      [|destruct H as [_ [H|H]]; split; [done|right; right; by left|done|right; right; by right]];
      lazymatch type of H with match ?r with _ => _ end => destruct r as [s' [[]|e'|]] end;
      [by destruct H; split; [|right]| |done];
      destruct H as [-> [H|H]]; split; [done|right; right; by left|done|right; right; by right]. }
  destruct (address_to_allocation_offset regions addr) as [off|] eqn:Eoff; cbn [ok_or];
    [|by split; [|left]].
  destruct (allocation_offset_spec regions addr off Hregions Eoff) as [Hoff _].
  destruct action as [| |existing].
  - pose proof (claim_at_spec off pid s Hwf Hoff) as H.
    destruct (claim_at off pid s) as [s' [[]|e|]]; cbn;
      [|destruct H as (-> & -> & H); split; [done|right; by exists off]|done].
    destruct H as (Hwf' & Ho & HA & Hram & Hnram). split; [done|]. exists off. rewrite HA, lookup_insert_eq.
    split_and!; try done.
    + intros i Hi. by rewrite lookup_insert_ne.
    + destruct (decide (off < RAM_PAGES)) as [Hlt|Hge]; [|rewrite Hnram by lia; done].
      destruct (Hram Hlt) as (_ & _ & _ & _ & -> & _). set_solver.
    + destruct (decide (off < RAM_PAGES)) as [Hlt|Hge]; [|rewrite Hnram by lia; done].
      by destruct (Hram Hlt) as (_ & _ & _ & _ & _ & _ & _ & -> & _).
  - pose proof (release_at_spec off pid s Hwf Hoff) as H.
    destruct (release_at off pid s) as [s' [[]|e|]]; cbn;
      [|destruct H as [-> H]; split; [done|right; exists off; split; [done|]]; naive_solver|done].
    destruct H as (Hwf' & Ho & HA & HZ & Hpd & _). split; [done|]. exists off.
    rewrite HA, lookup_delete_eq, HZ. split_and!; try done. intros i Hi. by rewrite lookup_delete_ne.
  - pose proof (move_at_spec off pid existing s Hwf) as H.
    destruct (move_at off pid existing s) as [s' [[]|e|]]; cbn;
      [|destruct H as [-> H]; split; [done|right; exists off; split; [done|]]; naive_solver|done].
    destruct H as (Hwf' & -> & o & Ho & Hor). split; [done|]. exists off. cbn.
    rewrite lookup_insert_eq, Ho. split_and!; try done; [naive_solver|].
    intros i Hi. by rewrite lookup_insert_ne.
Qed.

Lemma release_all_spec pid s :
  wf_mm s ->
  exists s', release_all_memory_for_process regions pid s = (s', Done tt) /\ wf_mm s'
    /\ free_pages_zeroed s' = free_pages_zeroed s
    /\ pending_map_zero s' = pending_map_zero s
    /\ (forall i, allocations s' !! i =
          if bool_decide (0 <= i < mem_pages regions /\ allocations s !! i = Some pid) then None
          else allocations s !! i).
Proof.
  intros Hwf. unfold release_all_memory_for_process, st_bind.
  destruct (release_owned_spec (seqZ 0 (mem_pages regions)) pid s Hwf)
    as (s1 & -> & Hwf1 & HZ1 & HF1 & Hpd1 & HA1).
  { apply list.Forall_forall. intros i Hi%elem_of_seqZ. lia. }
  destruct (wf_mm_start s1 Hwf1) as (s2 & -> & Hwf2 & (HA & HZ & _ & _ & _ & _ & Hpd) & _).
  exists s2. split_and!; [done|done|by rewrite HZ|by rewrite Hpd|].
  intros i. rewrite HA, HA1. erewrite bool_decide_ext; [done|]. rewrite elem_of_seqZ. done.
Qed.

Inductive mm_op : Type :=
| OpAllocSingle (pid : Z)
| OpAllocRange (k num_pages pid : Z) (* aligned at [2 ^ k] pages *)
| OpOwner (addr pid : Z) (action : ClaimReleaseMove)
| OpReleaseAll (pid : Z)
| OpZeroerInit
| OpZeroerDone.

(** The answer is the block allocated: its address, its pages and whether it is zeroed. The
    interrupt of the zeroer only comes while a transfer is in flight. *)
Definition mm_step (o : mm_op) : MM (option (Z * Z * bool)) :=
  match o with
  | OpAllocSingle pid => let* (phys, zeroed) := alloc_single_page pid in st_ret (Some (phys, 1, zeroed))
  | OpAllocRange k n pid =>
      let* (phys, zeroed) := alloc_range_aligned (2 ^ k) n pid in st_ret (Some (phys, n, zeroed))
  | OpOwner addr pid action =>
      let* _ := claim_release_move regions shared_peripherals permitted addr pid action in st_ret None
  | OpReleaseAll pid => let* _ := release_all_memory_for_process regions pid in st_ret None
  | OpZeroerInit => let* _ := st_modify zeroer_init in st_ret None
  | OpZeroerDone =>
      let* s := st_get in
      let* _ := if zeroer_running s then zeroer_done regions else st_ret tt in st_ret None
  end.

Definition wf_mm_op (o : mm_op) : Prop :=
  match o with OpAllocRange k n _ => 0 <= k /\ 0 <= n | _ => True end.

(** [touched] are the pages that may hold data: an owner may write at any time, and a page
    holds zeroes again when a transfer over it has ended. *)
Definition touch (o : mm_op) (s s' : MemoryManager) (touched : gset Z) : gset Z :=
  dom (allocations s') ∪ match o with OpZeroerDone => touched ∖ in_flight s | _ => touched end.

(** [None] is a panic. *)
Fixpoint mm_run (ops : list mm_op) (s : MemoryManager) (touched : gset Z)
    : option (MemoryManager * gset Z) :=
  match ops with
  | [] => Some (s, touched)
  | o :: ops =>
      match mm_step o s with
      | (_, Panic) => None
      | (s', _) => mm_run ops s' (touch o s s' touched)
      end
  end.

(** The free pages marked as zeroed hold no data. *)
Definition clean (s : MemoryManager) (touched : gset Z) : Prop :=
  free_pages_zeroed s ## touched /\ dom (allocations s) ⊆ touched.

Lemma allocated_clean s s' X pid zeroed touched :
  allocated s s' X pid zeroed -> clean s touched -> clean s' (dom (allocations s') ∪ touched).
Proof.
  intros (HX & _ & HA & _ & HZ & _) [Hc Hd]. split; [|set_solver].
  rewrite HZ. intros i Hi%elem_of_difference Ht%elem_of_union. destruct Hi as [Hi Hni].
  destruct Ht as [Hdom|Ht]; [|by apply (Hc i)].
  apply elem_of_dom in Hdom as [p Hp]. rewrite HA in Hp.
  rewrite bool_decide_eq_false_2 in Hp by done. apply (Hc i Hi), Hd. by apply elem_of_dom_2 in Hp.
Qed.

(** An operation that only takes pages from their owners or hands them on keeps them clean. *)
Lemma owners_clean s s' touched :
  wf_mm s' -> free_pages_zeroed s' ⊆ free_pages_zeroed s -> clean s touched ->
  clean s' (dom (allocations s') ∪ touched).
Proof.
  intros Hwf HZ [Hc Hd]. split; [|set_solver]. intros i Hi Ht%elem_of_union.
  destruct Ht as [Hdom|Ht]; [|by apply (Hc i); [apply HZ|]].
  apply elem_of_dom in Hdom as [p Hp].
  assert (allocations s' !! i = None) by (apply wf_mm_free; [done|set_solver]). congruence.
Qed.

Lemma mm_step_spec o s touched :
  wf_mm s -> wf_mm_op o -> clean s touched ->
  match mm_step o s with
  | (s', _) => wf_mm s' /\ clean s' (touch o s s' touched) /\ (mm_step o s).2 <> Panic
  end.
Proof.
  intros Hwf Ho Hc. assert (forall s, clean s touched -> clean s (dom (allocations s) ∪ touched)) as Hrefl.
  { intros s0 [H1 H2]. split; [|set_solver]. rewrite (subseteq_union_1_L _ _ H2). done. }
  destruct o as [pid|k n pid|addr pid action|pid| |]; cbn [mm_step touch]; unfold st_bind, st_get.
  - pose proof (alloc_single_page_spec pid s Hwf) as H.
    destruct (alloc_single_page pid s) as [s' [[phys z]|e|]]; cbn; [| |done].
    + destruct H as (Hwf' & idx & _ & _ & Ha). split_and!; [done| |done]. by eapply allocated_clean.
    + destruct H as (-> & _). split_and!; [done|by apply Hrefl|done].
  - pose proof (alloc_range_aligned_spec k n pid s Hwf (proj1 Ho) (proj2 Ho)) as H.
    destruct (alloc_range_aligned (2 ^ k) n pid s) as [s' [[phys z]|e|]]; cbn; [| |done].
    + destruct H as (Hwf' & idx & _ & _ & _ & Ha). split_and!; [done| |done]. by eapply allocated_clean.
    + destruct H as (-> & _). split_and!; [done|by apply Hrefl|done].
  - pose proof (claim_release_move_spec addr pid action s Hwf) as H.
    destruct (claim_release_move _ _ _ addr pid action s) as [s' [[]|e|]]; cbn; [| |done].
    + destruct H as (Hwf' & H). split_and!; [done| |done].
      destruct H as [(_ & _ & _ & ->)|(off & _ & _ & _ & HZ & _)]; [by apply Hrefl|].
      by eapply owners_clean.
    + destruct H as (-> & _). split_and!; [done|by apply Hrefl|done].
  - destruct (release_all_spec pid s Hwf) as (s' & -> & Hwf' & HZ & _). cbn.
    split_and!; [done| |done]. eapply owners_clean; [done| |done]. by rewrite HZ.
  - cbn. split_and!; [done| |done]. unfold touch. by apply Hrefl.
  - destruct (zeroer_running s) eqn:Er.
    + destruct (zeroer_done_spec regions s Hwf Er) as (s' & -> & Hwf' & HA & _ & _ & HZ & _). cbn.
      split_and!; [done| |done]. unfold touch. rewrite HA. destruct Hc as [Hc Hd].
      destruct Hwf as [(Hram & _ & _ & _ & Hiff & _) _].
      assert (forall i, i ∈ free_pages_zeroed s ∪ in_flight s -> i ∉ dom (allocations s)) as Hno.
      { intros i Hi Hdom. apply not_elem_of_dom in Hdom as []. apply Hiff; [apply Hram|]; set_solver. }
      split; [rewrite HZ; set_solver|]. rewrite HA. set_solver.
    + cbn. split_and!; [done| |done]. unfold touch, in_flight. rewrite Er. rewrite difference_empty_L. by apply Hrefl.
Qed.

Lemma mm_run_spec ops s touched :
  wf_mm s -> Forall wf_mm_op ops -> clean s touched ->
  exists s' touched', mm_run ops s touched = Some (s', touched') /\ wf_mm s' /\ clean s' touched'.
Proof.
  revert s touched. induction ops as [|o ops IH]; intros s touched Hwf Hops Hc; cbn [mm_run]; [eauto|].
  apply list.Forall_cons in Hops as [Ho Hops].
  pose proof (mm_step_spec o s touched Hwf Ho Hc) as H.
  destruct (mm_step o s) as [s' r]. destruct H as (Hwf' & Hc' & Hnp). cbn in Hnp.
  destruct r; [by apply IH..|done].
Qed.
End Histories.

(** ** The initial state *)

Definition init_page (owners : gmap Z Z) (s : MemoryManager) (offset : Z) : MemoryManager :=
  if bool_decide (owners !! offset = None)
  then set_free (num_free_pages s + 1) (low_memory s) (with_dirty (union {[offset]}) s) else s.

Lemma init_fold owners l s :
  NoDup l -> (forall i, i ∈ l -> i ∉ free_pages_dirty s) ->
  let s' := fold_left (init_page owners) l s in
  (forall i, i ∈ free_pages_dirty s' <-> i ∈ free_pages_dirty s \/ (i ∈ l /\ owners !! i = None))
  /\ num_free_pages s' - Z.of_nat (size (free_pages_dirty s'))
     = num_free_pages s - Z.of_nat (size (free_pages_dirty s))
  /\ free_pages_zeroed s' = free_pages_zeroed s /\ allocations s' = allocations s
  /\ next_zeroed_page_hint s' = next_zeroed_page_hint s
  /\ next_dirty_page_hint s' = next_dirty_page_hint s /\ zeroer_running s' = zeroer_running s.
Proof.
  revert s. induction l as [|i l IH]; intros s Hnd Hl; cbn.
  { split_and!; try done. intros i. set_solver. }
  apply list.NoDup_cons in Hnd as [Hi Hnd].
  destruct (IH (init_page owners s i) Hnd) as (H1 & H2 & H3 & H4 & H5 & H6 & H7).
  { intros j Hj. unfold init_page. case_bool_decide; cbn; set_solver. }
  rewrite H2, H3, H4, H5, H6, H7. clear H2 H3 H4 H5 H6 H7 IH. split; [|].
  - intros j. rewrite H1. unfold init_page. case_bool_decide as Ho; cbn; [set_solver|].
    rewrite elem_of_cons. naive_solver.
  - unfold init_page. case_bool_decide; cbn; split_and!; try done.
    rewrite size_union, size_singleton by set_solver. lia.
Qed.

Lemma init_wf owners :
  let s := init_from_memory owners mm_initial in
  wf_mm s /\ allocations s = owners /\ free_pages_zeroed s = ∅.
Proof.
  unfold init_from_memory. cbv zeta. fold (init_page owners).
  destruct (init_fold owners (seqZ 0 RAM_PAGES) (with_allocations (fun _ => owners) mm_initial))
    as (H1 & H2 & H3 & H4 & H5 & H6 & H7); [apply NoDup_seqZ|cbn; set_solver|].
  cbn in H3, H4, H5, H6, H7. unfold init_page in *. set (s := fold_left _ _ _) in *. clearbody s.
  split; [|done]. assert (in_flight s = ∅) as HF by (unfold in_flight; by rewrite H7).
  assert (forall i, i ∈ free_pages_dirty s <-> 0 <= i < RAM_PAGES /\ owners !! i = None) as Hi.
  { intros i. rewrite H1, elem_of_seqZ. cbn. set_solver. }
  split.
  - assert (free_pages_dirty s ∪ ∅ ∪ ∅ = free_pages_dirty s) as Heq by set_solver.
    unfold wf_pages. rewrite HF, H3, H4, Heq. split_and!; [|set_solver..| |].
    + intros i H%Hi. lia.
    + intros i Hr. rewrite Hi. naive_solver.
    + cbn in H2. rewrite size_empty in H2. lia.
  - unfold wf_hints. rewrite H5, H6, H7, FRAGMENTED_AREA_PAGES_eq. split_and!; try done.
Qed.

Lemma init_clean owners :
  wf_mm (init_from_memory owners mm_initial)
  /\ clean (init_from_memory owners mm_initial) (dom owners).
Proof.
  pose proof (init_wf owners) as (Hwf & HA & HZ). revert Hwf HA HZ. cbv zeta.
  generalize (init_from_memory owners mm_initial). intros s Hwf HA HZ.
  split; [done|]. split; [rewrite HZ|rewrite HA]; set_solver.
Qed.
#[global] Opaque init_from_memory.

(** The counter is the number of pages of the RAM without an owner. *)
Lemma wf_mm_unowned s :
  wf_mm s ->
  num_free_pages s = countb (fun i => bool_decide (allocations s !! i = None)) (seqZ 0 RAM_PAGES).
Proof.
  intros [(Hram & _ & _ & _ & Hiff & ->) _]. unfold countb. f_equal.
  set (l := List.filter _ _).
  assert (free_pages_dirty s ∪ free_pages_zeroed s ∪ in_flight s = list_to_set l) as ->.
  { apply set_eq. intros i. rewrite elem_of_list_to_set, list_elem_of_In. unfold l.
    rewrite filter_In, bool_decide_eq_true, <-list_elem_of_In, elem_of_seqZ. split.
    - intros Hi. specialize (Hram i Hi). split; [lia|]. by apply Hiff.
    - intros [Hr Ho]. by apply Hiff; [lia|]. }
  apply size_list_to_set. apply NoDup_ListNoDup, List.NoDup_filter, NoDup_ListNoDup, NoDup_seqZ.
Qed.

Lemma to_plaintext_page_address idx :
  0 <= idx < RAM_PAGES -> to_plaintext_phys_addr (page_address idx) = PLAINTEXT_DRAM_BASE + idx * PAGE_SIZE.
Proof.
  rewrite RAM_PAGES_eq. intros Hi. unfold to_plaintext_phys_addr, page_address, PAGE_SIZE.
  change (ENCRYPTED_DRAM_BASE - 1) with (2 ^ 30 - 1). rewrite land_ones_mod by lia.
  change ENCRYPTED_DRAM_BASE with (1 * 2 ^ 30). rewrite (Z.add_comm (1 * 2 ^ 30)), Z.mod_add by lia.
  rewrite Z.mod_small by lia. change PLAINTEXT_DRAM_BASE with (Z.shiftl 1 29).
  rewrite lor_shiftl_add by lia. reflexivity.
Qed.

(** ** The properties *)

(** [alloc_single_page] fails with [OutOfMemory] exactly when no page is free, and otherwise
    hands out one free page: nobody owned it, now [pid] does, no other owner changes, the
    counter drops by one and the low-memory flag is up below the threshold. *)
Theorem alloc_single_page_correct pid s :
  wf_mm s ->
  match alloc_single_page pid s with
  | (s', Done (phys, zeroed)) => wf_mm s' /\ exists idx, phys = page_address idx
      /\ 0 <= idx < RAM_PAGES /\ allocations s !! idx = None
      /\ allocations s' = <[idx := pid]> (allocations s)
      /\ idx ∈ (if zeroed : bool then free_pages_zeroed s else free_pages_dirty s ∪ free_pages_zeroed s)
      /\ num_free_pages s' = num_free_pages s - 1
      /\ (num_free_pages s' * PAGE_SIZE < LOW_MEMORY_THRESHOLD -> low_memory s' = true)
  | (s', Fail e) => s' = s /\ e = OutOfMemory /\ free_pages_dirty s ∪ free_pages_zeroed s = ∅
  | (_, Panic) => False
  end.
Proof.
  intros Hwf. pose proof (alloc_single_page_spec pid s Hwf) as H.
  destruct (alloc_single_page pid s) as [s' [[phys zeroed]|e|]]; try done.
  destruct H as (Hwf' & idx & -> & Hi & HX & HXz & HA & _ & _ & _ & Hn & _ & Hl).
  split; [done|]. exists idx. rewrite size_singleton in Hn. split_and!; try done; try lia.
  - apply wf_mm_free; [done|set_solver].
  - apply map_eq. intros i. rewrite HA. destruct (decide (idx = i)) as [<-|].
    + rewrite lookup_insert_eq, bool_decide_eq_true_2; [done|set_solver].
    + rewrite lookup_insert_ne, bool_decide_eq_false_2 by (done || set_solver). done.
  - destruct zeroed; [specialize (HXz eq_refl)|]; set_solver.
  - intros Hlt. apply Hl. change (LOW_MEMORY_THRESHOLD / PAGE_SIZE) with 6144.
    unfold LOW_MEMORY_THRESHOLD, PAGE_SIZE in *. lia.
Qed.

(** [alloc_range_aligned] hands out a block of consecutive free pages at an aligned address; it
    fails with [OutOfMemory] only if no such block exists anywhere in the RAM, and with
    [InvalidArguments] for no pages at all.  The block had no owner, and no page outside of it
    changes owner. *)
Theorem alloc_range_correct k num_pages pid s :
  wf_mm s -> 0 <= k -> 0 <= num_pages ->
  match alloc_range_aligned (2 ^ k) num_pages pid s with
  | (s', Done (phys, zeroed)) => wf_mm s' /\ exists idx, phys = page_address idx
      /\ free_block s (2 ^ k) num_pages idx /\ 0 < num_pages
      /\ (zeroed = true -> forall i, idx <= i < idx + num_pages -> i ∈ free_pages_zeroed s)
      /\ (forall i, idx <= i < idx + num_pages ->
            allocations s !! i = None /\ allocations s' !! i = Some pid)
      /\ (forall i, ~ (idx <= i < idx + num_pages) -> allocations s' !! i = allocations s !! i)
      /\ num_free_pages s' = num_free_pages s - num_pages
  | (s', Fail e) => s' = s /\ ((num_pages = 0 /\ e = InvalidArguments)
      \/ (0 < num_pages /\ e = OutOfMemory /\ forall idx, ~ free_block s (2 ^ k) num_pages idx))
  | (_, Panic) => False
  end.
Proof.
  intros Hwf Hk Hn. pose proof (alloc_range_aligned_spec k num_pages pid s Hwf Hk Hn) as H.
  destruct (alloc_range_aligned (2 ^ k) num_pages pid s) as [s' [[phys zeroed]|e|]]; try done.
  destruct H as (Hwf' & idx & -> & Hfree & Hpos & HX & HXz & HA & _ & _ & _ & Hc & _).
  split; [done|]. exists idx. rewrite size_range_set in Hc by done. split_and!; try done.
  - intros Ez i Hi. apply (HXz Ez). by apply elem_of_range_set.
  - intros i Hi. split; [apply wf_mm_free; [done|]; apply HX; by apply elem_of_range_set|].
    rewrite HA, bool_decide_eq_true_2; [done|]. by apply elem_of_range_set.
  - intros i Hi. rewrite HA, bool_decide_eq_false_2; [done|]. by rewrite elem_of_range_set.
Qed.

Section Claims.
Context (regions : list (Z * Z)) (shared_peripherals : list Z)
        (permitted : Z -> Z -> result Error unit).

(** C29: Every page of the RAM stays accounted for: whatever is allocated, claimed, moved, released
    and zeroed, in any order from the initial state and by any process, no operation panics,
    each page is owned or in exactly one of the dirty, the zeroed and the busy pages, and the
    counter of free pages is the number of pages without an owner. *)
Theorem pages_accounted owners ops :
  Forall (fun r => r.1 <= r.2) regions -> Forall wf_mm_op ops ->
  exists s touched,
    mm_run regions shared_peripherals permitted ops (init_from_memory owners mm_initial) (dom owners)
      = Some (s, touched)
    /\ wf_mm s
    /\ num_free_pages s = countb (fun i => bool_decide (allocations s !! i = None)) (seqZ 0 RAM_PAGES).
Proof.
  intros Hr Hops. pose proof (init_clean owners) as [Hwf Hc].
  destruct (mm_run_spec regions shared_peripherals permitted Hr ops _ (dom owners) Hwf Hops Hc)
    as (s & touched & E & Hwf' & _).
  exists s, touched. split_and!; [done|done|by apply wf_mm_unowned].
Qed.

(** C30: No process sees the data of another one in a page it is told is zeroed: a block that an
    allocation reports as zeroed holds no page that had an owner since its last zeroing. *)
Theorem no_stale_pages owners ops o s touched :
  Forall (fun r => r.1 <= r.2) regions -> Forall wf_mm_op ops -> wf_mm_op o ->
  mm_run regions shared_peripherals permitted ops (init_from_memory owners mm_initial) (dom owners)
    = Some (s, touched) ->
  match mm_step regions shared_peripherals permitted o s with
  | (_, Done (Some (phys, n, true))) =>
      exists idx, phys = page_address idx /\ forall i, idx <= i < idx + n -> i ∉ touched
  | _ => True
  end.
Proof.
  intros Hr Hops Ho Hrun. pose proof (init_clean owners) as [Hwf Hc0].
  destruct (mm_run_spec regions shared_peripherals permitted Hr ops _ (dom owners) Hwf Hops Hc0)
    as (s' & touched' & E & Hwf' & [Hc _]).
  assert (s' = s /\ touched' = touched) as [-> ->] by (split; congruence). clear E.
  destruct o as [pid|k n pid|addr pid action|pid| |]; cbn [mm_step]; unfold st_bind, st_get.
  3-6: repeat case_match; simplify_eq; done.
  - pose proof (alloc_single_page_spec pid s Hwf') as H.
    destruct (alloc_single_page pid s) as [s1 [[phys []]|e|]]; cbn; try done.
    destruct H as (_ & idx & -> & _ & _ & HX & _). exists idx. split; [done|].
    intros i Hi. specialize (HX eq_refl). assert (i = idx) as -> by lia. set_solver.
  - pose proof (alloc_range_aligned_spec k n pid s Hwf' (proj1 Ho) (proj2 Ho)) as H.
    destruct (alloc_range_aligned (2 ^ k) n pid s) as [s1 [[phys []]|e|]]; cbn; try done.
    destruct H as (_ & idx & -> & _ & _ & _ & HX & _). exists idx. split; [done|].
    intros i Hi. specialize (HX eq_refl). rewrite <-elem_of_range_set in Hi. set_solver.
Qed.

(** Claiming, moving and releasing a page: only a page without an owner that is not being
    zeroed can be claimed, only its owner (or the process it already belongs to) can move it,
    only its owner can release it.  A success changes the owner of that page alone; a failure
    changes nothing.  Outside of the RAM the memory permission of the process decides first,
    and a shared peripheral is granted without an owner to every process but the kernel. *)
Theorem page_ownership addr pid action s :
  Forall (fun r => r.1 <= r.2) regions -> wf_mm s ->
  match claim_release_move regions shared_peripherals permitted addr pid action s with
  | (s', Done _) => wf_mm s' /\
      ((is_ram addr = false /\ pid <> 1 /\ is_shared_peripheral shared_peripherals addr = true /\ s' = s)
       \/ exists off, address_to_allocation_offset regions addr = Some off
            /\ owner_change action pid (allocations s !! off) (allocations s' !! off)
            /\ (forall i, i <> off -> allocations s' !! i = allocations s !! i))
  | (s', Fail e) => s' = s /\
      ((Z.land addr 0xfff <> 0 /\ e = BadAlignment)
       \/ (is_ram addr = false /\ permitted pid addr = Err e)
       \/ (address_to_allocation_offset regions addr = None /\ e = BadAddress)
       \/ exists off, address_to_allocation_offset regions addr = Some off
            /\ owner_refused action pid (allocations s !! off) (off ∈ in_flight s) e)
  | (_, Panic) => False
  end.
Proof.
  intros Hr Hwf. pose proof (claim_release_move_spec regions shared_peripherals permitted Hr
                               addr pid action s Hwf) as H.
  destruct (claim_release_move _ _ _ addr pid action s) as [s' [[]|e|]]; try done.
  destruct H as (Hwf' & [H|(off & H1 & H2 & H3 & _)]); split; [done|by left|done|right; by exists off].
Qed.

End Claims.

(** ** Witnesses *)

Definition demo_regions : list (Z * Z) := [(0xf8000000, 0xf8060000); (0x200000, 0x220000)].
Definition demo_permitted (pid addr : Z) : result Error unit :=
  if pid =? 1 then Ok tt else Err AccessDenied.
Definition demo_owners : gmap Z Z := {[ 0 := 1; 1 := 1; 9 := 4 ]}.
Definition demo_mm_ops : list mm_op :=
  [ OpAllocSingle 5; OpZeroerInit; OpOwner (page_address 9) 4 Release; OpZeroerDone;
    OpAllocRange 2 2 6; OpOwner 0x40001000 1 (MoveFrom 1); OpReleaseAll 5; OpAllocSingle 6 ].

Lemma demo_regions_ok : Forall (fun r => r.1 <= r.2) demo_regions.
Proof. repeat constructor; vm_compute; discriminate. Qed.
Lemma demo_mm_ops_ok : Forall wf_mm_op demo_mm_ops.
Proof. repeat constructor; vm_compute; discriminate. Qed.

Lemma pages_accounted_witness :
  exists s touched,
    mm_run demo_regions [0xf8048000] demo_permitted demo_mm_ops
      (init_from_memory demo_owners mm_initial) (dom demo_owners) = Some (s, touched) /\ wf_mm s.
Proof.
  destruct (pages_accounted demo_regions [0xf8048000] demo_permitted demo_owners demo_mm_ops
              demo_regions_ok demo_mm_ops_ok) as (s & touched & E & Hwf & _).
  exists s, touched. by split.
Defined.

Lemma no_stale_pages_witness :
  exists s touched,
    mm_run demo_regions [0xf8048000] demo_permitted demo_mm_ops
      (init_from_memory demo_owners mm_initial) (dom demo_owners) = Some (s, touched)
    /\ match mm_step demo_regions [0xf8048000] demo_permitted (OpAllocSingle 7) s with
       | (_, Done (Some (phys, n, true))) =>
           exists idx, phys = page_address idx /\ forall i, idx <= i < idx + n -> i ∉ touched
       | _ => True
       end.
Proof.
  destruct (init_clean demo_owners) as [Hwf Hc].
  destruct (mm_run_spec demo_regions [0xf8048000] demo_permitted demo_regions_ok demo_mm_ops _ _
              Hwf demo_mm_ops_ok Hc) as (s & touched & E & _).
  exists s, touched. split; [exact E|].
  exact (no_stale_pages demo_regions [0xf8048000] demo_permitted demo_owners demo_mm_ops
           (OpAllocSingle 7) s touched demo_regions_ok demo_mm_ops_ok I E).
Defined.

Lemma demo_mm : exists s, wf_mm s /\ allocations s = demo_owners.
Proof. exists (init_from_memory demo_owners mm_initial). destruct (init_wf demo_owners) as (? & ? & _). by split. Qed.

Lemma alloc_single_page_correct_witness :
  exists s, wf_mm s /\ allocations s = demo_owners
    /\ match alloc_single_page 5 s with
       | (s', Done _) => wf_mm s'
       | (s', Fail e) => s' = s /\ e = OutOfMemory
       | (_, Panic) => False
       end.
Proof.
  destruct demo_mm as (s & Hwf & HA). exists s. split; [exact Hwf|]. split; [exact HA|].
  pose proof (alloc_single_page_correct 5 s Hwf) as H.
  destruct (alloc_single_page 5 s) as [s' [[phys zeroed]|e|]]; [apply H|by destruct H as (? & ? & _)|apply H].
Defined.

Lemma alloc_range_correct_witness :
  exists s, wf_mm s /\ allocations s = demo_owners
    /\ match alloc_range_aligned (2 ^ 2) 2 5 s with
       | (s', Done _) => wf_mm s'
       | (s', Fail _) => s' = s
       | (_, Panic) => False
       end.
Proof.
  destruct demo_mm as (s & Hwf & HA). exists s. split; [exact Hwf|]. split; [exact HA|].
  pose proof (alloc_range_correct 2 2 5 s Hwf ltac:(lia) ltac:(lia)) as H.
  destruct (alloc_range_aligned (2 ^ 2) 2 5 s) as [s' [[phys zeroed]|e|]]; apply H.
Defined.

Lemma page_ownership_witness :
  exists s, wf_mm s /\ allocations s = demo_owners
    /\ match claim_release_move demo_regions [0xf8048000] demo_permitted (page_address 9) 4 Release s with
       | (s', Done _) => wf_mm s' | (s', Fail _) => s' = s | (_, Panic) => False end
    /\ claim_release_move demo_regions [0xf8048000] demo_permitted 0xf8045000 3 Claim s
       = (s, Fail AccessDenied).
Proof.
  destruct demo_mm as (s & Hwf & HA). exists s. split; [exact Hwf|]. split; [exact HA|].
  split; [|reflexivity].
  pose proof (page_ownership demo_regions [0xf8048000] demo_permitted (page_address 9) 4 Release s
                demo_regions_ok Hwf) as H.
  destruct (claim_release_move _ _ _ (page_address 9) 4 Release s) as [s' [[]|e|]]; apply H.
Defined.
