(* ===== verification/PageTable.v ===== *)
(** * Page table entries ([xous/kernel/src/arch/arm/mem.rs], [imports/armv7])

    An entry of a second-level table is a word that the kernel reads as [L2TableEntry]: empty,
    mapped (a small-page descriptor of the MMU), or unmapped, a word the MMU faults on in which
    the kernel keeps the flags of a page that is on demand or lent to another process.  The
    descriptors are the words of [armv7::structures::paging], with the bit fields of
    [SMALL_PAGE_FLAGS].

    The theorems show that the three kinds survive the word, that the MMU translates through
    the mapped ones only, that lending a page and returning it restores the entry bit by bit,
    that an on-demand entry remembers what it was created with, and that [to_immutable] takes
    the write permission and nothing else. *)
From S2P Require Import Prelude Xous SysCall Process.

(** ** Descriptors *)

Definition SP_XN : Z := 0x1.
Definition SP_VALID : Z := 0x2.
Definition SP_B : Z := 0x4.
Definition SP_C : Z := 0x8.
Definition SP_AP_PrivAccess : Z := 0x10.
Definition SP_AP_FullAccess : Z := 0x30.
Definition SP_AP2 : Z := 0x200.
Definition SP_NG : Z := 0x800.

Inductive PageTableType : Type := InvalidPage | SmallPage | LargePage.

Definition page_align (t : PageTableType) : Z :=
  match t with InvalidPage => 0 | SmallPage => 0xfff | LargePage => 0xffff end.

Definition descriptor_new (t : PageTableType) (addr flags : Z) : option Z :=
  match t with
  | InvalidPage => Some 0
  | _ => if Z.land addr (page_align t) =? 0 then Some (Z.lor addr flags) else None
  end.
Definition get_type (d : Z) : PageTableType :=
  match Z.land d 3 with 0 => InvalidPage | 1 => LargePage | _ => SmallPage end.
Definition get_addr (d : Z) : option Z :=
  match get_type d with
  | InvalidPage => None
  | t => Some (Z.land d (usize_not (page_align t)))
  end.
Definition get_flags (d : Z) : Z := Z.land d 0xffff.

(** ** Entries *)

Inductive L2TableEntry : Type :=
| L2Empty
| L2Mapped (d : Z)
| L2Unmapped (u : Z).

Definition MAP_USER_FLAG : Z := 4.
Definition UNMAPPED_FLAGS_OFFSET : Z := 3.
Definition TTBR1_SPLIT : Z := 0x80000000.

Definition from_u32 (value : Z) : L2TableEntry :=
  if value =? 0 then L2Empty
  else if Z.land value 3 =? 0 then L2Unmapped value
  else L2Mapped value.
Definition as_u32 (e : L2TableEntry) : Z :=
  match e with L2Empty => 0 | L2Mapped d => d | L2Unmapped d => u32 d end.

Definition page_aligned (a : Z) : bool := Z.land a (PAGE_SIZE - 1) =? 0.

Definition new_on_demand (phys flags : Z) (map_user : bool) : outcome Error L2TableEntry :=
  if negb (page_aligned phys) then Panic
  else Done (L2Unmapped (Z.lor (Z.lor phys (usize (Z.shiftl flags UNMAPPED_FLAGS_OFFSET)))
                           (if map_user then MAP_USER_FLAG else 0))).

(** The flag word of [new_mapped]; [low] tells the addresses of the lower table. *)
Definition small_page_flags (flags : Z) (map_user low : bool) : Z :=
  let f := SP_VALID in
  let f := if negb (MemoryFlags_is_set flags MF_X) then Z.lor f SP_XN else f in
  let f := if negb (MemoryFlags_is_set flags MF_DEV) && negb (MemoryFlags_is_set flags MF_NO_CACHE)
           then Z.lor f SP_C else f in
  let f := if MemoryFlags_is_set flags MF_DEV then Z.lor f SP_B else f in
  let f := if negb (MemoryFlags_is_set flags MF_W) then Z.lor f SP_AP2 else f in
  let f := if map_user then Z.lor f SP_AP_FullAccess else Z.lor f SP_AP_PrivAccess in
  if low then Z.lor f SP_NG else f.

Definition new_mapped (virt phys flags : Z) (map_user : bool) : outcome Error L2TableEntry :=
  if negb (page_aligned phys) then Fail BadAlignment
  else
    let+ d := out_unwrap (descriptor_new SmallPage phys
                            (small_page_flags flags map_user (virt <? TTBR1_SPLIT))) in
    Done (L2Mapped d).

Definition decode_flags (phys flags : Z) : Z :=
  let out := 0 in
  let out := if Z.land flags SP_AP2 =? 0 then Z.lor out MF_W else out in
  let out := if Z.land flags SP_XN =? 0 then Z.lor out MF_X else out in
  let out := if Z.land flags SP_C =? 0 then Z.lor out MF_NO_CACHE else out in
  let out := if negb (Z.land flags SP_B =? 0) then Z.lor out MF_DEV else out in
  if is_address_in_plaintext_dram phys then Z.lor out MF_PLAINTEXT else out.

Definition entry_phys (e : L2TableEntry) : outcome Error Z :=
  match e with
  | L2Empty => Fail BadAddress
  | L2Mapped m => out_unwrap (get_addr m)
  | L2Unmapped u => Done (Z.land u (usize_not (PAGE_SIZE - 1)))
  end.

Definition entry_flags (e : L2TableEntry) : outcome Error Z :=
  match e with
  | L2Empty => Fail BadAddress
  | L2Unmapped u => Done (MemoryFlags_from_bits (Z.shiftr u UNMAPPED_FLAGS_OFFSET))
  | L2Mapped m => let+ phys := out_unwrap (get_addr m) in Done (decode_flags phys (get_flags m))
  end.

Definition to_mapped (virt : Z) (e : L2TableEntry) : outcome Error L2TableEntry :=
  match e with
  | L2Empty => Fail BadAddress
  | L2Mapped m => Done (L2Mapped m)
  | L2Unmapped u =>
      let+ phys := entry_phys e in
      let+ flags := entry_flags e in
      new_mapped virt phys flags (negb (Z.land u MAP_USER_FLAG =? 0))
  end.

Definition to_unmapped (e : L2TableEntry) : outcome Error L2TableEntry :=
  match e with
  | L2Empty => Fail BadAddress
  | L2Mapped m =>
      let+ phys := entry_phys e in
      let+ flags := entry_flags e in
      new_on_demand phys flags (Z.land (get_flags m) SP_AP_FullAccess =? SP_AP_FullAccess)
  | L2Unmapped u => Done (L2Unmapped u)
  end.

Definition is_shared (e : L2TableEntry) : bool :=
  match e with L2Unmapped u => negb (Z.land u (usize_not (PAGE_SIZE - 1)) =? 0) | _ => false end.
Definition is_on_demand (e : L2TableEntry) : bool :=
  match e with L2Unmapped u => Z.land u (usize_not (PAGE_SIZE - 1)) =? 0 | _ => false end.
Definition is_empty (e : L2TableEntry) : bool := match e with L2Empty => true | _ => false end.
Definition is_mapped (e : L2TableEntry) : bool := match e with L2Mapped _ => true | _ => false end.
Definition is_user_accessible (e : L2TableEntry) : bool :=
  match e with
  | L2Empty => false
  | L2Mapped m => Z.land (get_flags m) SP_AP_FullAccess =? SP_AP_FullAccess
  | L2Unmapped um => negb (Z.land um MAP_USER_FLAG =? 0)
  end.

Definition to_immutable (e : L2TableEntry) : outcome Error L2TableEntry :=
  match e with
  | L2Empty => Fail BadAddress
  | L2Mapped m => Done (L2Mapped (Z.lor m SP_AP2))
  | L2Unmapped u => Done (L2Unmapped (Z.land u (usize_not (Z.shiftl MF_W UNMAPPED_FLAGS_OFFSET))))
  end.

Definition with_phys (phys : Z) (e : L2TableEntry) : outcome Error L2TableEntry :=
  if negb (page_aligned phys) then Panic else
  match e with
  | L2Empty => Fail BadAddress
  | L2Mapped m =>
      let+ d := out_unwrap (descriptor_new SmallPage phys (get_flags m)) in Done (L2Mapped d)
  | L2Unmapped u => Done (L2Unmapped (Z.lor (Z.land u (PAGE_SIZE - 1)) phys))
  end.

(** ** Bits of a page-aligned word *)

(** Page-aligned physical addresses. *)
Definition wf_phys (phys : Z) : Prop := is_u32 phys /\ page_aligned phys = true.

Lemma wf_phys_split phys : wf_phys phys -> exists p, phys = Z.shiftl p 12 /\ 0 <= p < 2 ^ 20.
Proof.
  intros [Hr Ha]. unfold page_aligned, PAGE_SIZE in Ha. change (4096 - 1) with (2 ^ 12 - 1) in Ha.
  rewrite land_ones_mod in Ha by lia. exists (phys / 2 ^ 12). unfold is_u32 in Hr.
  rewrite Z.shiftl_mul_pow2 by lia. change (2 ^ 12) with 4096 in *. change (2 ^ 20) with 1048576.
  change (2 ^ 32) with 4294967296 in *. pose proof (Z.div_mod phys 4096). lia.
Qed.

Lemma shiftl_add p f : 0 <= f < 4096 -> Z.lor (Z.shiftl p 12) f = Z.shiftl p 12 + f.
Proof. intros Hf. rewrite lor_shiftl_add by lia. by rewrite Z.shiftl_mul_pow2 by lia. Qed.

Lemma land_low p f m : 0 <= f < 4096 -> 0 <= m < 4096 -> Z.land (Z.lor (Z.shiftl p 12) f) m = Z.land f m.
Proof.
  intros Hf Hm. rewrite Z.land_lor_distr_l.
  rewrite (land_shiftl_small p m 12) by lia. by rewrite Z.lor_0_l.
Qed.

Lemma land_wide d m w : 0 <= m -> Z.land m w = m -> Z.land (Z.land d w) m = Z.land d m.
Proof. intros Hm Hw. rewrite <-Z.land_assoc, (Z.land_comm w m), Hw. done. Qed.

Lemma land_high p f : 0 <= f < 4096 -> 0 <= p < 2 ^ 20 ->
  Z.land (Z.lor (Z.shiftl p 12) f) (usize_not 0xfff) = Z.shiftl p 12.
Proof.
  intros Hf Hp. change (usize_not 0xfff) with (Z.shiftl (2 ^ 20 - 1) 12).
  rewrite Z.land_lor_distr_l, <-Z.shiftl_land, land_ones_mod, Z.mod_small by lia.
  rewrite Z.land_comm, land_shiftl_small by lia. by rewrite Z.lor_0_r.
Qed.

Lemma aligned_shiftl p : page_aligned (Z.shiftl p 12) = true.
Proof.
  unfold page_aligned, PAGE_SIZE. rewrite land_shiftl_small by lia. done.
Qed.

Lemma u32_word p f : 0 <= f < 4096 -> 0 <= p < 2 ^ 20 -> is_u32 (Z.lor (Z.shiftl p 12) f).
Proof. intros Hf Hp. rewrite shiftl_add, Z.shiftl_mul_pow2 by lia. unfold is_u32. lia. Qed.

Lemma low_ones_small x : 0 <= x < 4096 -> Z.land x (2 ^ 12 - 1) = x.
Proof. intros Hx. rewrite land_ones_mod by lia. apply Z.mod_small. lia. Qed.

(** ** The entries the kernel creates

    A mapped entry is a page-aligned address and a flag word of [small_page_flags]; an
    unmapped one an address, seven flag bits and the user bit. *)

Definition flags_range : list Z :=
  List.filter (fun f => MemoryFlags_from_bits f =? f) (seqZ 0 128).
Definition bools : list bool := [false; true].

Lemma wf_flags_range f : wf_flags f -> f ∈ flags_range.
Proof.
  intros Hwf. unfold flags_range. apply list_elem_of_In, filter_In.
  split; [|apply Z.eqb_eq, Hwf]. apply list_elem_of_In, elem_of_seqZ.
  unfold wf_flags, MemoryFlags_from_bits in Hwf. rename Hwf into Hf.
  assert (0 <= f) as H0 by (rewrite <-Hf; apply Z.land_nonneg; right; vm_compute; discriminate).
  destruct (Z.ltb_spec f 128) as [|Hge]; [lia|]. exfalso.
  assert (Z.land f FLAGS_ALL <= 127).
  { change FLAGS_ALL with (Z.land FLAGS_ALL (2 ^ 7 - 1)). rewrite Z.land_assoc, land_ones_mod by lia.
    pose proof (Z.mod_pos_bound (Z.land f FLAGS_ALL) (2 ^ 7)). lia. }
  lia.
Qed.

(** A fact on all flag words, checked by enumeration. *)
Lemma all_flags (P : Z -> bool -> bool -> bool) :
  forallb (fun f => forallb (fun u => forallb (P f u) bools) bools) flags_range = true ->
  forall f u l, wf_flags f -> P f u l = true.
Proof.
  intros H f u l Hf%wf_flags_range. rewrite forallb_forall in H.
  apply list_elem_of_In in Hf. specialize (H f Hf). rewrite forallb_forall in H.
  assert (forall b, In b bools) as Hb by (intros []; cbn; auto).
  specialize (H u (Hb u)). rewrite forallb_forall in H. apply (H l (Hb l)).
Qed.

(** The memory attributes a mapped entry keeps: a device page is not cached, and the plaintext
    flag is a matter of the address. *)
Definition mapped_flags (flags : Z) (plaintext : bool) : Z :=
  Z.lor (Z.lor (Z.lor (Z.lor (Z.land flags MF_W) (Z.land flags MF_X))
    (if MemoryFlags_is_set flags MF_DEV || MemoryFlags_is_set flags MF_NO_CACHE then MF_NO_CACHE else 0))
    (Z.land flags MF_DEV)) (if plaintext then MF_PLAINTEXT else 0).

Definition small_page_facts (flags : Z) (user low : bool) : bool :=
  let f := small_page_flags flags user low in
  let p (b : bool) := decode_flags (if b then PLAINTEXT_DRAM_BASE else 0) f in
  (0 <=? f) && (f <? 4096) && (2 <=? Z.land f 3)
  && Bool.eqb (Z.land f SP_AP_FullAccess =? SP_AP_FullAccess) user
  && (p false =? mapped_flags flags false) && (p true =? mapped_flags flags true)
  && (small_page_flags (p false) user low =? f) && (small_page_flags (p true) user low =? f)
  && (MemoryFlags_from_bits (p false) =? p false) && (MemoryFlags_from_bits (p true) =? p true)
  && (decode_flags 0 (Z.lor f SP_AP2) =? Z.land (p false) (usize_not MF_W))
  && (decode_flags PLAINTEXT_DRAM_BASE (Z.lor f SP_AP2) =? Z.land (p true) (usize_not MF_W))
  && (Z.lor f SP_AP2 <? 4096) && (0 <=? Z.lor f SP_AP2)
  && Bool.eqb (Z.land (Z.lor f SP_AP2) SP_AP_FullAccess =? SP_AP_FullAccess) user
  && (2 <=? Z.land (Z.lor f SP_AP2) 3).

Lemma small_page_facts_hold flags user low : wf_flags flags -> small_page_facts flags user low = true.
Proof. apply all_flags. vm_compute. reflexivity. Qed.

(** The flag word of an unmapped entry. *)
Definition on_demand_word (flags : Z) (user : bool) : Z :=
  Z.lor (Z.shiftl flags 3) (if user then MAP_USER_FLAG else 0).

Definition on_demand_facts (flags : Z) (user _low : bool) : bool :=
  let f := on_demand_word flags user in
  (0 <=? f) && (f <? 4096) && (Z.land f 3 =? 0) && (usize (Z.shiftl flags 3) =? Z.shiftl flags 3)
  && (Z.land (Z.shiftr f 3) FLAGS_ALL =? flags)
  && Bool.eqb (negb (Z.land f MAP_USER_FLAG =? 0)) user
  && Bool.eqb (f =? 0) ((flags =? 0) && negb user)
  && (Z.land f (usize_not (Z.shiftl MF_W 3)) =? on_demand_word (Z.land flags (usize_not MF_W)) user)
  && (MemoryFlags_from_bits (Z.land flags (usize_not MF_W)) =? Z.land flags (usize_not MF_W)).

Lemma on_demand_facts_hold flags user : wf_flags flags -> on_demand_facts flags user false = true.
Proof. apply (all_flags on_demand_facts). vm_compute. reflexivity. Qed.

Lemma get_flags_land p f m :
  0 <= f < 4096 -> 0 <= m < 4096 -> Z.land (get_flags (Z.lor (Z.shiftl p 12) f)) m = Z.land f m.
Proof.
  intros Hf Hm. unfold get_flags. rewrite land_wide; [by apply land_low|lia|].
  change 0xffff with (2 ^ 16 - 1). rewrite land_ones_mod by lia. apply Z.mod_small. lia.
Qed.

Lemma decode_word p f :
  0 <= f < 4096 ->
  decode_flags (Z.shiftl p 12) (get_flags (Z.lor (Z.shiftl p 12) f))
  = decode_flags (if is_address_in_plaintext_dram (Z.shiftl p 12) then PLAINTEXT_DRAM_BASE else 0) f.
Proof.
  intros Hf. unfold decode_flags. rewrite !get_flags_land by (done || (vm_compute; intuition congruence)).
  by destruct (is_address_in_plaintext_dram (Z.shiftl p 12)).
Qed.

(** What the kernel reads back from a small-page descriptor. *)
Lemma mapped_word p f :
  0 <= p < 2 ^ 20 -> 0 <= f < 4096 -> 2 <= Z.land f 3 ->
  let e := L2Mapped (Z.lor (Z.shiftl p 12) f) in
  entry_phys e = Done (Z.shiftl p 12)
  /\ entry_flags e = Done (decode_flags (if is_address_in_plaintext_dram (Z.shiftl p 12)
                                         then PLAINTEXT_DRAM_BASE else 0) f)
  /\ is_user_accessible e = (Z.land f SP_AP_FullAccess =? SP_AP_FullAccess)
  /\ from_u32 (as_u32 e) = e.
Proof.
  intros Hp Hf H3. cbv zeta.
  assert (Z.land (Z.lor (Z.shiftl p 12) f) 3 = Z.land f 3) as E3 by (apply land_low; lia).
  assert (get_addr (Z.lor (Z.shiftl p 12) f) = Some (Z.shiftl p 12)) as Ea.
  { assert (0 <= Z.land f 3 <= 3) as Hb.
    { change 3 with (2 ^ 2 - 1) at 2 3. rewrite land_ones_mod by lia.
      pose proof (Z.mod_pos_bound f (2 ^ 2)). lia. }
    unfold get_addr, get_type. rewrite E3.
    assert (Z.land f 3 = 2 \/ Z.land f 3 = 3) as [->| ->] by lia; cbn [page_align]; f_equal;
      by apply land_high. }
  split_and!.
  - unfold entry_phys. by rewrite Ea.
  - unfold entry_flags. rewrite Ea. cbn [out_unwrap out_bind]. by rewrite decode_word.
  - unfold is_user_accessible. by rewrite get_flags_land by (done || (vm_compute; intuition congruence)).
  - unfold as_u32, from_u32. rewrite E3. destruct (Z.eqb_spec (Z.lor (Z.shiftl p 12) f) 0) as [E|_].
    + rewrite E in E3. rewrite Z.land_0_l in E3. lia.
    + destruct (Z.eqb_spec (Z.land f 3) 0); [lia|done].
Qed.

(** And from the word of an unmapped entry. *)
Lemma unmapped_word p w :
  0 <= p < 2 ^ 20 -> 0 <= w < 4096 -> Z.land w 3 = 0 ->
  let e := L2Unmapped (Z.lor (Z.shiftl p 12) w) in
  entry_phys e = Done (Z.shiftl p 12)
  /\ entry_flags e = Done (Z.land (Z.shiftr w 3) FLAGS_ALL)
  /\ is_user_accessible e = negb (Z.land w MAP_USER_FLAG =? 0)
  /\ is_shared e = negb (Z.shiftl p 12 =? 0) /\ is_on_demand e = (Z.shiftl p 12 =? 0)
  /\ Z.land (as_u32 e) 3 = 0
  /\ from_u32 (as_u32 e) = if Z.lor (Z.shiftl p 12) w =? 0 then L2Empty else e.
Proof.
  intros Hp Hw H3. cbv zeta.
  assert (Z.land (Z.lor (Z.shiftl p 12) w) 3 = 0) as E3 by (rewrite land_low; lia).
  assert (as_u32 (L2Unmapped (Z.lor (Z.shiftl p 12) w)) = Z.lor (Z.shiftl p 12) w) as Eu.
  { unfold as_u32. by rewrite u32_id by (by apply u32_word). }
  change (PAGE_SIZE - 1) with 0xfff in *.
  split_and!.
  - unfold entry_phys. change (PAGE_SIZE - 1) with 0xfff. by rewrite land_high.
  - unfold entry_flags, MemoryFlags_from_bits. f_equal. change UNMAPPED_FLAGS_OFFSET with 3.
    rewrite Z.shiftr_lor, Z.shiftr_shiftl_l by lia. change (12 - 3) with 9.
    rewrite Z.land_lor_distr_l, (land_shiftl_small p FLAGS_ALL 9) by (vm_compute; intuition congruence).
    by rewrite Z.lor_0_l.
  - unfold is_user_accessible. by rewrite land_low by (done || (vm_compute; intuition congruence)).
  - unfold is_shared. change (PAGE_SIZE - 1) with 0xfff. by rewrite land_high.
  - unfold is_on_demand. change (PAGE_SIZE - 1) with 0xfff. by rewrite land_high.
  - by rewrite Eu.
  - rewrite Eu. unfold from_u32. rewrite E3. by destruct (_ =? 0).
Qed.

Lemma new_mapped_word virt p flags user :
  0 <= p < 2 ^ 20 ->
  new_mapped virt (Z.shiftl p 12) flags user
  = Done (L2Mapped (Z.lor (Z.shiftl p 12) (small_page_flags flags user (virt <? TTBR1_SPLIT)))).
Proof.
  intros Hp. unfold new_mapped. rewrite aligned_shiftl. cbn [negb]. unfold descriptor_new.
  change (page_align SmallPage) with (PAGE_SIZE - 1).
  pose proof (aligned_shiftl p) as Ha. unfold page_aligned in Ha. by rewrite Ha.
Qed.

Lemma new_on_demand_word p flags user :
  wf_flags flags ->
  new_on_demand (Z.shiftl p 12) flags user
  = Done (L2Unmapped (Z.lor (Z.shiftl p 12) (on_demand_word flags user))).
Proof.
  intros Hf. unfold new_on_demand. rewrite aligned_shiftl. cbn [negb].
  pose proof (on_demand_facts_hold flags user Hf) as H. unfold on_demand_facts in H.
  repeat (apply andb_true_iff in H as [H ?]). change UNMAPPED_FLAGS_OFFSET with 3.
  assert (usize (Z.shiftl flags 3) = Z.shiftl flags 3) as -> by lia.
  unfold on_demand_word. by rewrite Z.lor_assoc.
Qed.

(** Splits the enumerated facts. *)
Ltac page_facts H :=
  repeat (apply andb_true_iff in H as [H ?]);
  repeat match goal with E : Bool.eqb _ _ = true |- _ => apply eqb_prop in E end;
  repeat match goal with E : (_ =? _) = true |- _ => apply Z.eqb_eq in E end.

Lemma plaintext_choice (b : bool) f x y :
  decode_flags 0 f = x -> decode_flags PLAINTEXT_DRAM_BASE f = y ->
  decode_flags (if b then PLAINTEXT_DRAM_BASE else 0) f = if b then y else x.
Proof. by destruct b. Qed.

(** The MMU translates through a word whose low two bits are not both clear. *)
Definition mmu_translates (word : Z) : bool := negb (Z.land word 3 =? 0).

Definition decoded (flags phys : Z) : Z := mapped_flags flags (is_address_in_plaintext_dram phys).

(** The entry [new_mapped] builds. *)
Lemma new_mapped_spec virt phys flags user :
  wf_phys phys -> wf_flags flags ->
  exists d, new_mapped virt phys flags user = Done (L2Mapped d)
    /\ entry_phys (L2Mapped d) = Done phys /\ entry_flags (L2Mapped d) = Done (decoded flags phys)
    /\ is_user_accessible (L2Mapped d) = user
    /\ mmu_translates d = true /\ from_u32 d = L2Mapped d.
Proof.
  intros Hphys Hf. destruct (wf_phys_split _ Hphys) as (p & -> & Hp).
  pose proof (small_page_facts_hold flags user (virt <? TTBR1_SPLIT) Hf) as H.
  unfold small_page_facts in H. page_facts H.
  eexists. split; [by apply new_mapped_word|]. set (f := small_page_flags _ _ _) in *.
  destruct (mapped_word p f) as (E1 & E2 & E3 & E4); [lia..|]. split_and!; try done.
  - rewrite E2. unfold decoded. erewrite plaintext_choice by done.
    by destruct (is_address_in_plaintext_dram _).
  - by rewrite E3.
  - unfold mmu_translates. rewrite land_low by lia. lia.
Qed.

(** The entry [new_on_demand] builds. *)
Lemma new_on_demand_spec phys flags user :
  wf_phys phys -> wf_flags flags ->
  exists u, new_on_demand phys flags user = Done (L2Unmapped u)
    /\ entry_phys (L2Unmapped u) = Done phys /\ entry_flags (L2Unmapped u) = Done flags
    /\ is_user_accessible (L2Unmapped u) = user
    /\ is_shared (L2Unmapped u) = negb (phys =? 0) /\ is_on_demand (L2Unmapped u) = (phys =? 0)
    /\ mmu_translates (as_u32 (L2Unmapped u)) = false
    /\ from_u32 (as_u32 (L2Unmapped u))
       = if (phys =? 0) && (flags =? 0) && negb user then L2Empty else L2Unmapped u.
Proof.
  intros Hphys Hf. destruct (wf_phys_split _ Hphys) as (p & -> & Hp).
  pose proof (on_demand_facts_hold flags user Hf) as H. unfold on_demand_facts in H. page_facts H.
  eexists. split; [by apply new_on_demand_word|]. set (w := on_demand_word _ _) in *.
  destruct (unmapped_word p w) as (E1 & E2 & E3 & E4 & E5 & E6 & E7); [lia..|]. split_and!; try done.
  - rewrite E2. by f_equal.
  - by rewrite E3.
  - unfold mmu_translates. by rewrite E6.
  - rewrite E7. rewrite shiftl_add by lia. rewrite <-andb_assoc.
    assert ((Z.shiftl p 12 + w =? 0) = (Z.shiftl p 12 =? 0) && (w =? 0)) as ->.
    { rewrite Z.shiftl_mul_pow2 by lia. lia. }
    by replace (w =? 0) with ((flags =? 0) && negb user).
Qed.

(** C33: The two kinds of entries the kernel writes, read back.  A mapped entry gives its physical
    address, its user bit, and those of its flags that the descriptor holds ([decoded]): a device
    page reads back as not cacheable, a request to populate is not kept, and plaintext is a matter
    of the address; the MMU translates through it, and its word is read as the same entry.  An
    on-demand or shared entry gives back its address, all of its flags and its user bit; the MMU
    faults on it, and it is on demand exactly when it has no physical page, shared otherwise.  Its
    word is read as the same entry, but for an on-demand entry without any flag and without the
    user bit: that word is zero and is read as an empty entry. *)
Theorem entry_words virt phys flags user :
  wf_phys phys -> wf_flags flags ->
  (exists d, new_mapped virt phys flags user = Done (L2Mapped d)
    /\ entry_phys (L2Mapped d) = Done phys /\ entry_flags (L2Mapped d) = Done (decoded flags phys)
    /\ is_user_accessible (L2Mapped d) = user
    /\ mmu_translates d = true /\ from_u32 d = L2Mapped d)
  /\ (exists u, new_on_demand phys flags user = Done (L2Unmapped u)
    /\ entry_phys (L2Unmapped u) = Done phys /\ entry_flags (L2Unmapped u) = Done flags
    /\ is_user_accessible (L2Unmapped u) = user
    /\ is_shared (L2Unmapped u) = negb (phys =? 0) /\ is_on_demand (L2Unmapped u) = (phys =? 0)
    /\ mmu_translates (as_u32 (L2Unmapped u)) = false
    /\ from_u32 (as_u32 (L2Unmapped u))
       = if (phys =? 0) && (flags =? 0) && negb user then L2Empty else L2Unmapped u).
Proof. intros Hp Hf. split; [by apply new_mapped_spec|by apply new_on_demand_spec]. Qed.

Lemma entry_words_witness :
  wf_phys 0x47fff000 /\ wf_flags (MemoryFlags_bitor MF_W MF_NO_CACHE)
  /\ exists d, new_mapped 0x30000000 0x47fff000 (MemoryFlags_bitor MF_W MF_NO_CACHE) true = Done (L2Mapped d)
       /\ entry_flags (L2Mapped d) = Done (MemoryFlags_bitor MF_W MF_NO_CACHE).
Proof.
  assert (wf_phys 0x47fff000) as Hp by (vm_compute; intuition congruence).
  assert (wf_flags (MemoryFlags_bitor MF_W MF_NO_CACHE)) as Hf by reflexivity.
  split; [exact Hp|]. split; [exact Hf|].
  destruct (entry_words 0x30000000 0x47fff000 (MemoryFlags_bitor MF_W MF_NO_CACHE) true Hp Hf)
    as [(d & E & _ & Ef & _) _].
  exists d. split; [exact E|exact Ef].
Defined.

(** Lending and returning: the entry [to_unmapped] leaves in the lender keeps address, flags
    and user bit, the MMU faults on it and it counts as shared; [to_mapped] at the same
    address turns it back into the very entry that was lent. *)
Lemma lend_return_spec virt phys flags user e :
  wf_phys phys -> phys <> 0 -> wf_flags flags -> new_mapped virt phys flags user = Done e ->
  exists e', to_unmapped e = Done e' /\ is_shared e' = true /\ mmu_translates (as_u32 e') = false
    /\ from_u32 (as_u32 e') = e'
    /\ entry_phys e' = entry_phys e /\ entry_flags e' = entry_flags e
    /\ is_user_accessible e' = is_user_accessible e
    /\ to_mapped virt e' = Done e.
Proof.
  intros Hphys Hne Hf He. destruct (wf_phys_split _ Hphys) as (p & -> & Hp).
  rewrite new_mapped_word in He by done. injection He as <-.
  pose proof (small_page_facts_hold flags user (virt <? TTBR1_SPLIT) Hf) as H.
  unfold small_page_facts in H. set (f := small_page_flags _ _ _) in *. page_facts H.
  destruct (mapped_word p f) as (E1 & E2 & E3 & _); [lia..|].
  set (fl := decode_flags (if is_address_in_plaintext_dram (Z.shiftl p 12) then _ else _) f) in *.
  assert (wf_flags fl) as Hfl by (subst fl; unfold wf_flags; by destruct (is_address_in_plaintext_dram _)).
  destruct (new_on_demand_spec (Z.shiftl p 12) fl user Hphys Hfl) as (u & Eu & Hp' & Hf' & Hu & Hs & _ & Hm & Hr).
  exists (L2Unmapped u). split.
  { cbn [to_unmapped]. rewrite E1. cbn [out_bind]. rewrite E2. cbn [out_bind].
    replace (Z.land (get_flags _) SP_AP_FullAccess =? SP_AP_FullAccess) with user; [done|].
    symmetry. etransitivity; [exact E3|congruence]. }
  assert ((Z.shiftl p 12 =? 0) = false) as Hz by lia. rewrite Hz in *. cbn in Hr.
  split_and!; try done; [by rewrite Hp', E1|by rewrite Hf', E2|rewrite Hu, E3; congruence|].
  cbn [to_mapped]. rewrite Hp'. cbn [out_bind]. rewrite Hf'. cbn [out_bind].
  change (negb (Z.land u MAP_USER_FLAG =? 0)) with (is_user_accessible (L2Unmapped u)).
  rewrite Hu, new_mapped_word by done. do 3 f_equal.
  subst fl. by destruct (is_address_in_plaintext_dram _).
Qed.

(** [to_immutable] takes the write permission and nothing else, from a mapped entry as from an
    unmapped one: address, user bit and all the other flags stay, and a mapped entry stays one
    the MMU translates through. *)
Theorem to_immutable_correct virt phys flags user :
  wf_phys phys -> wf_flags flags ->
  (forall d, new_mapped virt phys flags user = Done (L2Mapped d) ->
     exists d', to_immutable (L2Mapped d) = Done (L2Mapped d')
       /\ entry_phys (L2Mapped d') = Done phys
       /\ entry_flags (L2Mapped d') = Done (MemoryFlags_sub (decoded flags phys) MF_W)
       /\ is_user_accessible (L2Mapped d') = user /\ mmu_translates d' = true)
  /\ (forall u, new_on_demand phys flags user = Done (L2Unmapped u) ->
     exists u', to_immutable (L2Unmapped u) = Done (L2Unmapped u')
       /\ entry_phys (L2Unmapped u') = Done phys
       /\ entry_flags (L2Unmapped u') = Done (MemoryFlags_sub flags MF_W)
       /\ is_user_accessible (L2Unmapped u') = user).
Proof.
  intros Hphys Hf. destruct (wf_phys_split _ Hphys) as (p & -> & Hp). split.
  - intros d. rewrite new_mapped_word by done. intros [= <-].
    pose proof (small_page_facts_hold flags user (virt <? TTBR1_SPLIT) Hf) as H.
    unfold small_page_facts in H. set (f := small_page_flags _ _ _) in *. page_facts H.
    eexists. split; [reflexivity|]. rewrite <-Z.lor_assoc.
    destruct (mapped_word p (Z.lor f SP_AP2)) as (E1 & E2 & E3 & _); [lia..|]. split_and!; try done.
    + rewrite E2. unfold decoded, MemoryFlags_sub. f_equal. destruct (is_address_in_plaintext_dram _); congruence.
    + rewrite E3. congruence.
    + unfold mmu_translates. rewrite land_low by lia. lia.
  - intros u. rewrite new_on_demand_word by done. intros [= <-].
    pose proof (on_demand_facts_hold flags user Hf) as H. unfold on_demand_facts in H.
    set (w := on_demand_word flags user) in *. page_facts H.
    eexists. split; [reflexivity|]. change UNMAPPED_FLAGS_OFFSET with 3.
    change (usize_not (Z.shiftl MF_W 3)) with (Z.lor (Z.shiftl (2 ^ 20 - 1) 12) 0xfdf).
    set (flags' := Z.land flags (usize_not MF_W)) in *.
    assert (wf_flags flags') as Hf' by done.
    assert (Z.land (Z.lor (Z.shiftl p 12) w) (Z.lor (Z.shiftl (2 ^ 20 - 1) 12) 0xfdf)
            = Z.lor (Z.shiftl p 12) (on_demand_word flags' user)) as ->.
    { rewrite Z.land_lor_distr_r, (land_low p w 0xfdf) by lia.
      assert (Z.land w 0xfdf = on_demand_word flags' user) as ->.
      { assert (Z.land w (usize_not (Z.shiftl MF_W 3)) = on_demand_word flags' user) as <- by done.
        rewrite <-(low_ones_small w) at 2 by lia. rewrite <-Z.land_assoc. reflexivity. }
      change (Z.shiftl (2 ^ 20 - 1) 12) with (usize_not 0xfff). by rewrite land_high by lia. }
    pose proof (new_on_demand_spec (Z.shiftl p 12) flags' user Hphys Hf') as (u & E & H1' & H2' & H3' & _).
    rewrite new_on_demand_word in E by done. injection E as <-. by split_and!.
Qed.

Lemma to_immutable_correct_witness :
  wf_phys 0x40123000 /\ wf_flags MF_W
  /\ exists d', to_immutable (L2Mapped 0x4012383b) = Done (L2Mapped d')
       /\ entry_flags (L2Mapped d') = Done 0.
Proof.
  split; [vm_compute; intuition congruence|]. split; [reflexivity|].
  destruct (to_immutable_correct 0x30005000 0x40123000 MF_W true) as [H _];
    [vm_compute; intuition congruence|reflexivity|].
  destruct (H 0x4012383b) as (d' & E & _ & Ef & _); [vm_compute; reflexivity|].
  exists d'. split; [exact E|exact Ef].
Defined.

(** [with_phys] keeps sixteen low bits of a mapped descriptor as its flags, four of which are
    address bits: on a mapped entry it mixes the two addresses.  The kernel only calls it on
    unmapped entries, where the address is replaced. *)
Example with_phys_mapped_mixes_addresses :
  (let+ e := new_mapped 0x30005000 0x40001000 MF_W true in
   let+ e := with_phys 0x40002000 e in entry_phys e) = Done 0x40003000.
Proof. reflexivity. Qed.

Lemma with_phys_unmapped phys phys' flags user :
  wf_phys phys -> wf_phys phys' -> wf_flags flags ->
  (let+ e := new_on_demand phys flags user in with_phys phys' e) = new_on_demand phys' flags user.
Proof.
  intros Hp Hp' Hf. destruct (wf_phys_split _ Hp) as (p & -> & ?), (wf_phys_split _ Hp') as (p' & -> & ?).
  rewrite !new_on_demand_word by done. cbn [out_bind]. unfold with_phys. rewrite aligned_shiftl. cbn [negb].
  pose proof (on_demand_facts_hold flags user Hf) as H'. unfold on_demand_facts in H'.
  set (w := on_demand_word flags user) in *. page_facts H'.
  change (PAGE_SIZE - 1) with 0xfff. rewrite land_low by lia. change 0xfff with (2 ^ 12 - 1).
  rewrite low_ones_small by lia. by rewrite Z.lor_comm.
Qed.
