(* ===== verification/Mapping.v ===== *)
(** * Address spaces ([xous/kernel/src/arch/arm/mem.rs], [xous/kernel/src/mem.rs])

    The page tables of every process over the physical memory manager.  A [MemoryMapping] is
    the base [ttbr0] of its first level, the first level itself, a map from section numbers
    (absent is [Invalid]), and the words of its second-level tables, a map from page numbers
    (absent is 0).  The tables of two sections are distinct memory, as they are freshly
    allocated four at a time, so a word is named by its process and page number.  Processes
    are named by their pid: two mappings passed to an operation are the same exactly when the
    pids are.

    What the processor does on the side, the invalidation of the TLB, cache maintenance and
    filling a data page with zeroes, is not part of the state; clearing a new table is.  An
    access through a [Section] entry, which only the kernel's own space has, is a panic.

    The last part shows that [find_free_run] finds the first free range and misses none, so
    that [find_virtual_address] is correct on these tables. *)
From stdpp Require Import gmap.
From S2P Require Import Prelude Xous SysCall Process MemManager PageTable.

(** [TranslationTableType]; [Invalid] is the absence of an entry. *)
Inductive L1Entry : Type :=
| L1Page (table : Z)
| L1Section.
Definition L1_USER_PAGE_TABLE_ENTRIES : Z := 2048.
Definition L1_USER_PAGE_TABLE_PAGES : Z := 2.
Definition USER_AREA_END : Z := 0x70000000.

Record MemoryMapping : Type := mkMapping {
  ttbr0 : Z; l1 : gmap Z L1Entry; l2 : gmap Z Z
}.
Record MemState : Type := mkMem { ms_mm : MemoryManager; ms_maps : gmap Z MemoryMapping }.

Abbreviation MS := (state MemState Error).

Definition with_maps (f : gmap Z MemoryMapping -> gmap Z MemoryMapping) (s : MemState) : MemState :=
  mkMem (ms_mm s) (f (ms_maps s)).
Definition lift_mm {A} (m : MM A) : MS A := fun s =>
  let '(mm, r) := m (ms_mm s) in (mkMem mm (ms_maps s), r).

Definition translation_table_index (addr : Z) : Z := Z.shiftr addr 20.
(** [translation_table_index] and [page_table_index] together. *)
Definition page_number (addr : Z) : Z := Z.shiftr addr 12.

(** The table base 0 of a process without a mapping is outside of the DRAM: a panic. *)
Definition mapping_of (pid : Z) : MS MemoryMapping :=
  let* s := st_get in st_unwrap (ms_maps s !! pid).

(** ** Slots *)

Definition read_slot (pid pn : Z) : MS L2TableEntry :=
  let* m := mapping_of pid in st_ret (from_u32 (default 0 (l2 m !! pn))).
Definition write_slot (pid pn : Z) (e : L2TableEntry) : MS unit :=
  st_modify (with_maps (alter (fun m => mkMapping (ttbr0 m) (l1 m) (<[pn := as_u32 e]> (l2 m))) pid)).

Definition get_l2_slot (pid addr : Z) : MS Z :=
  if negb (page_aligned addr) then st_fail BadAlignment else
  let vpn1 := translation_table_index addr in
  if negb (pid =? 1) && (L1_USER_PAGE_TABLE_ENTRIES <=? vpn1) then st_fail AccessDenied else
  let* m := mapping_of pid in
  match l1 m !! vpn1 with
  | None => st_fail BadAddress
  | Some (L1Page _) => st_ret (page_number addr)
  | Some L1Section => st_panic
  end.

(** The aligned group of four sections of [vpn1] gets the four tables of the cleared page at
    [page_phys]. *)
Definition group_base (vpn1 : Z) : Z := Z.land vpn1 (usize_not 3).
Definition L2_TABLE_BYTES : Z := 256 * 4.
Definition add_group (vpn1 page_phys : Z) (m : MemoryMapping) : MemoryMapping :=
  let entry k := insert (group_base vpn1 + k) (L1Page (page_phys + k * L2_TABLE_BYTES)) in
  mkMapping (ttbr0 m) (entry 3 (entry 2 (entry 1 (entry 0 (l1 m)))))
    (filter (fun '(pn, _) => group_base (Z.shiftr pn 8) <> group_base vpn1) (l2 m)).

Definition allocate_l2_slot (pid virt : Z) : MS Z :=
  if negb (page_aligned virt) then st_fail BadAlignment else
  let vpn1 := translation_table_index virt in
  if negb (pid =? 1) && (L1_USER_PAGE_TABLE_ENTRIES <=? vpn1) then st_fail AccessDenied else
  let* m := mapping_of pid in
  let* _ :=
    match l1 m !! vpn1 with
    | None =>
        let* (page_phys, _) := lift_mm (alloc_single_page pid) in
        st_modify (with_maps (alter (add_group vpn1 page_phys) pid))
    | Some (L1Page _) => st_ret tt
    | Some L1Section => st_fail MemoryInUse
    end in
  let* existing := read_slot pid (page_number virt) in
  if negb (is_empty existing) then st_fail MemoryInUse else st_ret (page_number virt).

(** [MemoryMapping::allocate] and [destroy]: the first level of a new process. *)
Definition allocate_mapping (pid : Z) : MS unit :=
  let* s := st_get in
  if bool_decide (is_Some (ms_maps s !! pid)) then st_fail MemoryInUse else
  let* (l1_pt_phys, _) := lift_mm (alloc_range_aligned 4 L1_USER_PAGE_TABLE_PAGES pid) in
  st_modify (with_maps (insert pid (mkMapping l1_pt_phys ∅ ∅))).
Definition destroy_mapping (pid : Z) : MS unit := st_modify (with_maps (delete pid)).

(** ** One page *)

Definition map_page (pid phys virt flags : Z) (map_user : bool) : MS unit :=
  if MemoryFlags_is_set flags (MemoryFlags_bitor MF_W MF_X) then st_panic else
  let* entry := st_outcome (if negb (phys =? 0) then new_mapped virt phys flags map_user
                            else new_on_demand phys flags map_user) in
  let* slot := allocate_l2_slot pid virt in
  write_slot pid slot entry.

Definition unmap_page (pid virt : Z) : MS unit :=
  let* slot := get_l2_slot pid virt in
  let* entry := read_slot pid slot in
  if is_empty entry || is_shared entry then st_fail BadAddress else write_slot pid slot L2Empty.

(** Back the on-demand entry of [slot], the page at [virt] of the active mapping. *)
Definition allocate_backing_page (pid slot virt : Z) (entry : L2TableEntry) : MS unit :=
  let* flags := st_outcome (entry_flags entry) in
  if negb (MemoryFlags_is_set flags MF_W) then st_fail AccessDenied else
  let* (phys, _) := lift_mm (alloc_single_page pid) in
  let phys := if MemoryFlags_is_set flags MF_PLAINTEXT || MemoryFlags_is_set flags MF_NO_CACHE
                 || MemoryFlags_is_set flags MF_DEV then to_plaintext_phys_addr phys else phys in
  let* entry := st_outcome (let+ e := with_phys phys entry in to_mapped virt e) in
  write_slot pid slot entry.

(** The first half of [move_page] and [lend_page]: the source entry, backed if on demand. *)
Definition source_entry (pid src_addr : Z) : MS (Z * L2TableEntry) :=
  let* slot := get_l2_slot pid src_addr in
  let* entry := read_slot pid slot in
  if negb (pid =? 1) && negb (is_user_accessible entry) then st_fail AccessDenied else
  if is_on_demand entry then
    let* _ := allocate_backing_page pid slot src_addr entry in
    let* entry := read_slot pid slot in st_ret (slot, entry)
  else st_ret (slot, entry).

Definition move_page (src src_addr dest dest_addr : Z) : MS Z :=
  let* (src_slot, entry) := source_entry src src_addr in
  let* busy := if is_mapped entry then st_ret false
               else let* phys := st_outcome (entry_phys entry) in st_ret (negb (phys =? 0)) in
  if busy : bool then st_fail BadAddress else
  let* dest_slot := allocate_l2_slot dest dest_addr in
  let* _ := write_slot src src_slot L2Empty in
  let* _ := write_slot dest dest_slot entry in
  st_outcome (entry_phys entry).

Definition lend_page (src src_addr dest dest_addr : Z) (mutable : bool) : MS Z :=
  let* (src_slot, entry) := source_entry src src_addr in
  if negb (is_mapped entry) then st_fail BadAddress else
  let* dest_slot := allocate_l2_slot dest dest_addr in
  let* shared := st_outcome (to_unmapped entry) in
  let* _ := write_slot src src_slot shared in
  let* new_data := if mutable then st_ret entry else st_outcome (to_immutable entry) in
  let* _ := write_slot dest dest_slot new_data in
  st_outcome (entry_phys entry).

Definition return_page (src src_addr dest dest_addr : Z) : MS Z :=
  let* src_slot := get_l2_slot src src_addr in
  let* dest_slot := get_l2_slot dest dest_addr in
  let* src_data := read_slot src src_slot in
  let* dest_data := read_slot dest dest_slot in
  let* src_phys := st_outcome (entry_phys src_data) in
  let* dest_phys := st_outcome (entry_phys dest_data) in
  if negb (src_phys =? dest_phys) then st_fail ShareViolation else
  let* _ := write_slot src src_slot L2Empty in
  let* mapped := st_outcome (to_mapped dest_addr dest_data) in
  let* _ := write_slot dest dest_slot mapped in
  st_outcome (entry_phys dest_data).

Inductive ClearShared : Type := ClearOnDemand | ClearFree.
Definition clear_shared (pid addr : Z) (mode : ClearShared) : MS unit :=
  let* slot := get_l2_slot pid addr in
  let* data := read_slot pid slot in
  if negb (is_shared data) then st_ret tt else
  match mode with
  | ClearFree => write_slot pid slot L2Empty
  | ClearOnDemand => let* e := st_outcome (with_phys 0 data) in write_slot pid slot e
  end.

Definition virt_to_phys (pid virt : Z) : MS Z :=
  let* slot := st_try (get_l2_slot pid virt) in
  match slot with
  | Err _ => st_fail BadAddress
  | Ok slot =>
      let* entry := read_slot pid slot in
      if is_mapped entry then st_outcome (entry_phys entry)
      else if is_empty entry then st_fail BadAddress
      else if is_shared entry then st_fail ShareViolation
      else st_fail MemoryInUse
  end.

Definition address_user_accessible (pid virt : Z) : MS bool :=
  let* slot := st_try (get_l2_slot pid virt) in
  match slot with
  | Err _ => st_ret false
  | Ok slot => let* entry := read_slot pid slot in st_ret (is_user_accessible entry)
  end.

Definition address_executable (pid virt : Z) : MS bool :=
  let* slot := st_try (get_l2_slot pid virt) in
  match slot with
  | Err _ => st_ret false
  | Ok slot =>
      let* entry := read_slot pid slot in
      if negb (is_mapped entry) then st_ret false else
      let* flags := st_try (st_outcome (entry_flags entry)) in
      st_ret (match flags with Ok f => MemoryFlags_is_set f MF_X | Err _ => false end)
  end.

Definition ensure_backed (pid virt : Z) : MS unit :=
  let* slot := get_l2_slot pid virt in
  let* entry := read_slot pid slot in
  if is_mapped entry then st_ret tt
  else if is_empty entry then st_fail BadAddress
  else if negb (is_on_demand entry) then st_fail MemoryInUse
  else allocate_backing_page pid slot virt entry.

(** ** Searching free addresses

    The loops of [find_free_run], one step for a section without a table and one for each entry
    of a section with one.  The fuel is a step per page.  The callers stay below
    [MMAP_AREA_VIRT_END], where there is always a next section. *)
Fixpoint find_free_run_loop (fuel : nat) (m : MemoryMapping) (stop needed addr run_start run_len : Z)
    : option Z :=
  match fuel with
  | O => None
  | S fuel =>
      if negb (addr <? stop) then None else
      let vpn1 := translation_table_index addr in
      let section_end := Z.min (Z.shiftl (vpn1 + 1) 20) stop in
      match l1 m !! vpn1 with
      | None =>
          let run_start := if run_len =? 0 then addr else run_start in
          let run_len := run_len + (section_end - addr) / PAGE_SIZE in
          if needed <=? run_len then Some run_start
          else find_free_run_loop fuel m stop needed section_end run_start run_len
      | Some (L1Page _) =>
          if is_empty (from_u32 (default 0 (l2 m !! page_number addr))) then
            let run_start := if run_len =? 0 then addr else run_start in
            let run_len := run_len + 1 in
            if needed <=? run_len then Some run_start
            else find_free_run_loop fuel m stop needed (addr + PAGE_SIZE) run_start run_len
          else find_free_run_loop fuel m stop needed (addr + PAGE_SIZE) run_start 0
      | Some L1Section => find_free_run_loop fuel m stop needed section_end run_start 0
      end
  end.
Definition find_free_run (m : MemoryMapping) (from stop needed : Z) : option Z :=
  find_free_run_loop (S (Z.to_nat ((stop - from) / PAGE_SIZE))) m stop needed from from 0.

(** ** The search is exact *)

(** No page is mapped or reserved at [a]. *)
Definition page_free (m : MemoryMapping) (a : Z) : bool :=
  match l1 m !! translation_table_index a with
  | None => true
  | Some (L1Page _) => is_empty (from_u32 (default 0 (l2 m !! page_number a)))
  | Some L1Section => false
  end.

Lemma translation_table_index_eq a : translation_table_index a = a / 1048576.
Proof. unfold translation_table_index. rewrite Z.shiftr_div_pow2 by lia. done. Qed.
Lemma section_end_eq a : Z.shiftl (translation_table_index a + 1) 20 = (a / 1048576 + 1) * 1048576.
Proof. rewrite translation_table_index_eq, Z.shiftl_mul_pow2 by lia. done. Qed.

Section search.
Context (m : MemoryMapping) (from stop needed : Z).
Context (Hfrom : from mod PAGE_SIZE = 0) (Hstop : stop mod PAGE_SIZE = 0) (Hneeded : 0 < needed).

Abbreviation is_free := (fun a => page_free m a = true).

(** The state of the search: the last [len] pages before [addr] are free, and no range
    starts before them. *)
Definition searched (addr start len : Z) : Prop :=
  from <= addr /\ addr mod PAGE_SIZE = 0 /\ 0 <= len < needed
  /\ (0 < len -> from <= start /\ start + len * PAGE_SIZE = addr)
  /\ (forall a, addr - len * PAGE_SIZE <= a < addr -> a mod PAGE_SIZE = 0 -> page_free m a = true)
  /\ (forall a, a < addr - len * PAGE_SIZE -> ~ free_range is_free from stop needed a).

(** The pages up to [addr'] are free. *)
Lemma searched_free addr start len addr' :
  searched addr start len -> addr < addr' <= stop -> addr' mod PAGE_SIZE = 0 ->
  (forall a, addr <= a < addr' -> a mod PAGE_SIZE = 0 -> page_free m a = true) ->
  let start' := if len =? 0 then addr else start in
  let len' := len + (addr' - addr) / PAGE_SIZE in
  if needed <=? len' then free_range is_free from stop needed start' else searched addr' start' len'.
Proof.
  intros (H1 & H2 & H3 & H4 & H5 & H6) Ha Hm Hf start' len'.
  assert (len' * PAGE_SIZE = len * PAGE_SIZE + (addr' - addr)) as E.
  { unfold len', PAGE_SIZE in *. Z.div_mod_to_equations. lia. }
  assert (from <= start' /\ start' + len' * PAGE_SIZE = addr') as [E1 E2].
  { unfold start'. destruct (Z.eqb_spec len 0) as [->|]; [lia|]. destruct H4; lia. }
  assert (0 < len') by (unfold PAGE_SIZE in *; lia).
  assert (forall a, addr' - len' * PAGE_SIZE <= a < addr' -> a mod PAGE_SIZE = 0 -> page_free m a = true) as Hall.
  { intros a Hr Hma. destruct (Z.lt_ge_cases a addr); [apply H5|apply Hf]; lia. }
  assert (start' mod PAGE_SIZE = 0) as Hms by (unfold PAGE_SIZE in *; Z.div_mod_to_equations; lia).
  destruct (Z.leb_spec needed len').
  - split_and!; [done|done|unfold PAGE_SIZE in *; lia|]. intros k Hk.
    apply Hall; unfold PAGE_SIZE in *; Z.div_mod_to_equations; lia.
  - split_and!; [lia|done|lia|lia|done|done|]. intros a Hlt. apply H6. lia.
Qed.

(** The pages up to [addr'] are taken. *)
Lemma searched_taken addr start len addr' start' :
  searched addr start len -> addr < addr' <= stop -> addr' mod PAGE_SIZE = 0 ->
  (forall a, addr <= a < addr' -> a mod PAGE_SIZE = 0 -> page_free m a = false) ->
  searched addr' start' 0.
Proof.
  intros (H1 & H2 & H3 & H4 & H5 & H6) Ha Hm Hf. split_and!; [lia|done|lia|lia|lia|intros; lia|].
  intros a Hlt Hr. destruct (Z.lt_ge_cases a (addr - len * PAGE_SIZE)) as [|Hge]; [by eapply H6|].
  destruct Hr as (_ & Hma & _ & Hfree).
  specialize (Hfree (Z.max 0 ((addr - a) / PAGE_SIZE))).
  assert (page_free m (a + Z.max 0 ((addr - a) / PAGE_SIZE) * PAGE_SIZE) = false) as E.
  { apply Hf; unfold PAGE_SIZE in *; Z.div_mod_to_equations; lia. }
  cbv beta in Hfree. rewrite E in Hfree.
  assert (0 <= Z.max 0 ((addr - a) / PAGE_SIZE) < needed) as Hk
    by (unfold PAGE_SIZE in *; Z.div_mod_to_equations; lia).
  by specialize (Hfree Hk).
Qed.

Lemma find_free_run_loop_spec fuel addr start len :
  searched addr start len -> addr <= stop \/ stop < from -> (stop - addr) / PAGE_SIZE < Z.of_nat fuel ->
  match find_free_run_loop fuel m stop needed addr start len with
  | Some a => free_range is_free from stop needed a
  | None => forall a, ~ free_range is_free from stop needed a
  end.
Proof.
  revert addr start len. induction fuel as [|fuel IH]; intros addr start len Hs Hle Hfuel.
  { cbn [find_free_run_loop]. pose proof Hs as (H1 & _ & H3 & _ & _ & H6). intros a (? & ? & ? & ?).
    unfold PAGE_SIZE in *. Z.div_mod_to_equations. lia. }
  cbn [find_free_run_loop]. destruct (Z.ltb_spec addr stop) as [Hlt|Hge]; cbn [negb].
  2: { destruct Hs as (H1 & _ & H3 & _ & _ & H6). intros a Hf.
       apply (H6 a); [|done]. destruct Hf as (? & ? & ? & _). unfold PAGE_SIZE in *. lia. }
  rewrite section_end_eq. set (stop' := Z.min _ stop).
  assert (addr < stop' <= stop /\ stop' mod PAGE_SIZE = 0
          /\ forall a, addr <= a < stop' -> translation_table_index a = translation_table_index addr)
    as (Hr & Hm & Hsec).
  { split_and!; [unfold stop'; Z.div_mod_to_equations; lia|lia| |].
    - unfold stop', PAGE_SIZE in *. destruct (Z.min_spec ((addr / 1048576 + 1) * 1048576) stop) as [[_ ->]|[_ ->]];
        [|done]. Z.div_mod_to_equations. lia.
    - intros a Ha. rewrite !translation_table_index_eq. unfold stop' in Ha. Z.div_mod_to_equations. lia. }
  clearbody stop'.
  assert (stop' mod PAGE_SIZE = 0 /\ addr mod PAGE_SIZE = 0) as [_ Hma] by (split; [done|apply Hs]).
  assert (addr + PAGE_SIZE <= stop /\ (addr + PAGE_SIZE) mod PAGE_SIZE = 0
    /\ forall a, addr <= a < addr + PAGE_SIZE -> a mod PAGE_SIZE = 0 -> a = addr) as (Hp1 & Hp2 & Hp3)
    by (unfold PAGE_SIZE in *; split_and!; intros; Z.div_mod_to_equations; lia).
  assert (addr < addr + PAGE_SIZE) as Hlt' by (unfold PAGE_SIZE; lia).
  assert (forall x, addr < x <= stop -> x mod PAGE_SIZE = 0 -> (stop - x) / PAGE_SIZE < Z.of_nat fuel) as Hdec
    by (unfold PAGE_SIZE in *; intros; Z.div_mod_to_equations; lia).
  destruct (l1 m !! translation_table_index addr) as [[t|]|] eqn:El.
  - destruct (is_empty _) eqn:Ee.
    + pose proof (searched_free _ _ _ (addr + PAGE_SIZE) Hs (conj Hlt' Hp1) Hp2) as H.
      rewrite Z.add_simpl_l, Z.div_same in H by done. cbv zeta in H. destruct (needed <=? len + 1).
      * apply H. intros a Ha Hm'. rewrite (Hp3 a Ha Hm'). unfold page_free. by rewrite El.
      * apply IH; [|lia|by apply Hdec]. apply H. intros a Ha Hm'. rewrite (Hp3 a Ha Hm').
        unfold page_free. by rewrite El.
    + apply IH; [|lia|by apply Hdec].
      eapply searched_taken; [done..|].
      intros a Ha Hm'. rewrite (Hp3 a Ha Hm'). unfold page_free. by rewrite El.
  - apply IH; [|lia|by apply Hdec]. eapply searched_taken; [done..|].
    intros a Ha _. unfold page_free. by rewrite (Hsec a Ha), El.
  - pose proof (searched_free _ _ _ stop' Hs Hr Hm) as H. cbv zeta in H.
    destruct (needed <=? len + (stop' - addr) / PAGE_SIZE).
    + apply H. intros a Ha _. unfold page_free. by rewrite (Hsec a Ha), El.
    + apply IH; [|lia|by apply Hdec]. apply H. intros a Ha _. unfold page_free. by rewrite (Hsec a Ha), El.
Qed.

Lemma find_free_run_spec :
  match find_free_run m from stop needed with
  | Some a => free_range is_free from stop needed a
  | None => forall a, ~ free_range is_free from stop needed a
  end.
Proof.
  unfold find_free_run. destruct (Z.lt_ge_cases stop from).
  - apply find_free_run_loop_spec; [|by right|].
    + split_and!; [lia|done|lia|lia|lia|intros; lia|]. intros a ? (? & _). lia.
    + unfold PAGE_SIZE in *. Z.div_mod_to_equations. lia.
  - apply find_free_run_loop_spec; [|by left|lia].
    split_and!; [lia|done|lia|lia|lia|intros; lia|]. intros a ? (? & _). lia.
Qed.
End search.

(** What [find_virtual_address] needs of the page tables. *)
#[export] Instance mapping_free_runs m : FreeRuns (fun a => page_free m a = true) (find_free_run m).
Proof.
  split; intros from stop needed; [intros addr|]; intros H1 H2 H3 E;
    pose proof (find_free_run_spec m from stop needed H1 H2 H3) as H; by rewrite E in H.
Qed.
