(* ===== verification/Memory.v ===== *)
(** * Memory of processes ([xous/kernel/src/mem.rs], the transfers of [services.rs])

    The operations of [MemoryManager] that change page tables and owners together: moving,
    lending and returning a page, mapping and unmapping a range, the deferred zeroing of
    [map_memory]; and on top of them the transfer of a message's pages between two processes
    by [send_memory], [lend_memory] and [return_memory] with their rollback.

    The virtual address that [find_virtual_address] found, or its error, is an argument: its
    state, the allocation hint, belongs to the process ([Process]).  Parking the thread of a
    deferred mapping and waking it are left to the caller, who gets the thread and the result.

    The theorems on these operations are in [Isolation]. *)
From stdpp Require Import fin_maps gmap.
From S2P Require Import Prelude Xous SysCall Process MemManager PageTable Mapping.

Section Board.
Context (regions : list (Z * Z)) (shared_peripherals : list Z)
        (permitted : Z -> Z -> result Error unit).

Abbreviation claim_release_move := (claim_release_move regions shared_peripherals permitted).
Abbreviation release_page := (release_page regions shared_peripherals permitted).
Abbreviation release_range := (release_range regions shared_peripherals permitted).
Abbreviation claim_pages := (claim_pages regions shared_peripherals permitted).

(** ** Pages *)

Definition transfer_owner (phys_addr src dest : Z) : MS unit :=
  if negb (phys_addr =? 0) then lift_mm (claim_release_move phys_addr dest (MoveFrom src))
  else st_ret tt.

Definition move_page (src src_addr dest dest_addr : Z) : MS unit :=
  let* phys_addr := Mapping.move_page src src_addr dest dest_addr in
  transfer_owner phys_addr src dest.
Definition lend_page (src src_addr dest dest_addr : Z) (mutable : bool) : MS unit :=
  let* phys_addr := Mapping.lend_page src src_addr dest dest_addr mutable in
  transfer_owner phys_addr src dest.
Definition unlend_page (src src_addr dest dest_addr : Z) : MS unit :=
  let* phys_addr := Mapping.return_page src src_addr dest dest_addr in
  transfer_owner phys_addr src dest.

(** ** Ranges *)

Fixpoint unmap_pages (pid : Z) (pages : list Z) : MS unit :=
  match pages with
  | [] => st_ret tt
  | virt :: pages => let* _ := st_try (unmap_page pid virt) in unmap_pages pid pages
  end.

(** [mapped] are the offsets mapped so far. *)
Fixpoint map_offsets (pid phys virt size flags : Z) (map_user : bool) (mapped offsets : list Z)
    : MS unit :=
  match offsets with
  | [] => st_ret tt
  | offset :: offsets =>
      let phys_page := if phys =? 0 then 0 else usize (phys + offset) in
      let* r := st_try (map_page pid phys_page (usize (virt + offset)) flags map_user) in
      match r with
      | Ok _ => map_offsets pid phys virt size flags map_user (mapped ++ [offset]) offsets
      | Err e =>
          let* _ := unmap_pages pid (map (fun o => usize (virt + o)) mapped) in
          let* _ := lift_mm (release_range phys size pid) in
          st_fail e
      end
  end.
Definition map_allocated_range (pid phys virt size flags : Z) (map_user : bool) : MS unit :=
  map_offsets pid phys virt size flags map_user [] (pages_of 0 size).

Definition map_range (pid : Z) (find : result Error Z) (phys size flags : Z) (map_user : bool)
    : MS MemoryRange :=
  let* virt := st_lift find in
  let* phys :=
    if MemoryFlags_is_set flags MF_POPULATE then
      if negb (MemoryFlags_is_set flags MF_W) then st_fail InvalidArguments else
      if negb (phys =? 0) then st_fail InvalidArguments else
      let* (allocated, _) := lift_mm (alloc_range (size / PAGE_SIZE) pid flags) in st_ret allocated
    else if negb (phys =? 0) then
      let* _ := st_lift (ok_or (checked_add phys size) BadAddress) in
      let* _ := lift_mm (claim_pages [] (pages_of phys size) pid) in st_ret phys
    else st_ret phys in
  let* _ := map_allocated_range pid phys virt size flags map_user in
  st_lift (MemoryRange_new virt size).

(** The loop of [unmap_range]; [result] is the first error so far. *)
Fixpoint unmap_addresses (pid : Z) (result : option Error) (pages : list Z) : MS unit :=
  match pages with
  | [] => match result with None => st_ret tt | Some e => st_fail e end
  | addr :: pages =>
      let* phys := st_try (virt_to_phys pid addr) in
      let* _ := match phys with
                | Ok phys => let* _ := st_try (lift_mm (release_page phys pid)) in st_ret tt
                | Err _ => st_ret tt
                end in
      let* unmapped := st_try (unmap_page pid addr) in
      let result := match result, unmapped with None, Err e => Some e | r, _ => r end in
      unmap_addresses pid result pages
  end.
Definition unmap_range (pid virt len : Z) : MS unit :=
  if negb (page_aligned virt) || negb (page_aligned len) then st_fail BadAlignment
  else unmap_addresses pid None (pages_of virt (usize (virt + len) - virt)).

Fixpoint check_pages (pid : Z) (pages : list Z) : MS unit :=
  match pages with
  | [] => st_ret tt
  | addr :: pages =>
      let* accessible := if USER_AREA_END <? addr then st_ret false else address_user_accessible pid addr in
      if negb accessible then st_fail BadAddress else check_pages pid pages
  end.
Definition checked_next_multiple_of_page (a : Z) : option Z :=
  checked_add (Z.land a (usize_not (PAGE_SIZE - 1))) (if page_aligned a then 0 else PAGE_SIZE).
Definition check_range_accessible (pid : Z) (range : MemoryRange) : MS unit :=
  let start := Z.land (range_addr range) (usize_not (PAGE_SIZE - 1)) in
  let* stop := st_lift (ok_or (let! e := checked_add (range_addr range) (range_size range) in
                               checked_next_multiple_of_page e) BadAddress) in
  check_pages pid (pages_of start (stop - start)).

(** [flush_cache]: a large range is flushed with the whole cache, a small one page by page,
    which finds the physical pages.  The cache itself is not part of the state. *)
Definition FULL_CACHE_FLUSH_THRESHOLD : Z := 128 * 1024.
Definition try_whole_cache_flush (len : Z) (op : CacheOperation) : bool :=
  (FULL_CACHE_FLUSH_THRESHOLD <? len) && match op with Clean | CleanAndInvalidate => true | Invalidate => false end.
Fixpoint flush_pages (pid : Z) (pages : list Z) : MS unit :=
  match pages with
  | [] => st_ret tt
  | addr :: pages => let* _ := virt_to_phys pid addr in flush_pages pid pages
  end.
Definition flush_cache (pid : Z) (mem : MemoryRange) (op : CacheOperation) : MS unit :=
  if try_whole_cache_flush (range_size mem) op then st_ret tt else
  let page_start := Z.land (range_addr mem) (usize_not (PAGE_SIZE - 1)) in
  flush_pages pid (pages_of page_start (usize (range_addr mem + range_size mem) - page_start)).

(** A mirror of another process's pages in the active process at [virt], its
    [next_mirror_address]; the result is the new mirror address and the range. *)
Fixpoint mirror_offsets (pid phys virt : Z) (mapped offsets : list Z) : MS unit :=
  match offsets with
  | [] => st_ret tt
  | offset :: offsets =>
      let* r := st_try (map_page pid (usize (offset + phys)) (usize (offset + virt)) 0 true) in
      match r with
      | Ok _ => mirror_offsets pid phys virt (mapped ++ [offset]) offsets
      | Err e =>
          let* _ := unmap_pages pid (map (fun o => usize (o + virt)) mapped) in st_fail e
      end
  end.
Definition map_range_readonly_mirror (pid virt phys size : Z) : MS (Z * result Error MemoryRange) :=
  let* _ := mirror_offsets pid phys virt [] (pages_of 0 size) in
  let next_addr := saturating_add virt size in
  st_ret (default next_addr (checked_next_multiple_of_page next_addr), MemoryRange_new virt size).

(** ** Deferred zeroing *)

Definition MAX_MAP_ZERO_BYTES : Z := 0x800000 * 4.

Definition with_mm (f : MemoryManager -> MemoryManager) (s : MemState) : MemState :=
  mkMem (f (ms_mm s)) (ms_maps s).

(** The thread retries the call, gets its range, or is parked while the pages are zeroed. *)
Inductive DeferredMap : Type :=
| RetryMapZeroCall
| MappedNow (range : MemoryRange)
| ParkedMapZero (phys size : Z).

Definition map_with_deferred_zeroing (pid tid : Z) (find : Z -> Z -> result Error Z)
    (virt size flags : Z) : MS DeferredMap :=
  if negb (MemoryFlags_is_set flags (MemoryFlags_bitor MF_W MF_POPULATE)) then st_fail InvalidArguments else
  if MAX_MAP_ZERO_BYTES <? size then st_fail OutOfMemory else
  let* s := st_get in
  if bool_decide (is_Some (pending_map_zero (ms_mm s))) then st_ret RetryMapZeroCall else
  let* (phys, needs_zero) := lift_mm (alloc_range (size / PAGE_SIZE) pid flags) in
  if negb needs_zero then
    match find virt size with
    | Err e => let* _ := lift_mm (release_range phys size pid) in st_fail e
    | Ok virt =>
        let* _ := map_allocated_range pid phys virt size flags true in
        let* range := st_lift (MemoryRange_new virt size) in st_ret (MappedNow range)
    end
  else
    let* _ := st_modify (with_mm (set_pending (Some (mkPending phys virt size flags pid tid)))) in
    st_ret (ParkedMapZero phys size).

Definition cancel_map_zero : MS unit := st_modify (with_mm (set_pending None)).

(** The thread to wake and what its call returns; [None] without a pending job.  [find pid] is
    the search in the space of [pid]. *)
Definition map_zero_finished (find : Z -> Z -> Z -> result Error Z) : MS (option (Z * Z * Result)) :=
  let* s := st_get in
  match pending_map_zero (ms_mm s) with
  | None => st_ret None
  | Some job =>
      let* _ := st_modify (with_mm (set_pending None)) in
      let pid := pz_pid job in
      let* result :=
        match find pid (pz_virt job) (pz_size job) with
        | Err e => let* _ := lift_mm (release_range (pz_phys job) (pz_size job) pid) in st_ret (RError e)
        | Ok virt =>
            let* r := st_try
              (let* _ := map_allocated_range pid (pz_phys job) virt (pz_size job) (pz_flags job) true in
               st_lift (MemoryRange_new virt (pz_size job))) in
            st_ret (match r with Ok range => RMemoryRange range | Err e => RError e end)
        end in
      st_ret (Some (pid, pz_tid job, result))
  end.

(** The memory part of [SystemServices::terminate_process] and [Process::terminate]. *)
Definition terminate_memory (pid : Z) : MS unit :=
  let* s := st_get in
  let* _ := if bool_decide (pz_pid <$> pending_map_zero (ms_mm s) = Some pid) then cancel_map_zero
            else st_ret tt in
  let* _ := lift_mm (release_all_memory_for_process regions pid) in
  destroy_mapping pid.

(** ** Transfers between two processes *)

Definition expect (m : MS unit) : MS unit :=
  let* r := st_try m in match r with Ok _ => st_ret tt | Err _ => st_panic end.

(** [transfer] each page; at an error [undo] the earlier ones, which must not fail. *)
Fixpoint undo_pages (undo : Z -> MS unit) (offsets : list Z) : MS unit :=
  match offsets with
  | [] => st_ret tt
  | offset :: offsets => let* _ := expect (undo offset) in undo_pages undo offsets
  end.
Fixpoint transfer_pages (transfer undo : Z -> MS unit) (sent offsets : list Z) : MS unit :=
  match offsets with
  | [] => st_ret tt
  | offset :: offsets =>
      let* r := st_try (transfer offset) in
      match r with
      | Ok _ => transfer_pages transfer undo (sent ++ [offset]) offsets
      | Err e => let* _ := undo_pages undo sent in st_fail e
      end
  end.

Definition assert_aligned (src_virt dest_virt offset : Z) : MS unit :=
  st_assert (page_aligned (usize (src_virt + offset)) && page_aligned (usize (dest_virt + offset))).

Definition send_refused (src_virt dest_virt len : Z) : bool :=
  (len =? 0) || negb (page_aligned len) || negb (page_aligned src_virt) || negb (page_aligned dest_virt)
  || match checked_add src_virt len with None => true | Some e => USER_AREA_END <? e end
  || match checked_add dest_virt len with None => true | Some e => USER_AREA_END <? e end.
Definition send_pages (current_pid src_virt dest_pid dest_virt len : Z) : MS Z :=
  let src o := usize (src_virt + o) in
  let dest o := usize (dest_virt + o) in
  let* _ := transfer_pages
    (fun o => let* _ := assert_aligned src_virt dest_virt o in move_page current_pid (src o) dest_pid (dest o))
    (fun o => move_page dest_pid (dest o) current_pid (src o)) [] (pages_of 0 len) in
  st_ret dest_virt.
(** [find] is what looking up the destination process and its [find_virtual_address]
    returned. *)
Definition send_memory (current_pid src_virt dest_pid : Z) (find : result Error Z) (dest_virt len : Z)
    : MS Z :=
  if send_refused src_virt dest_virt len then st_fail BadAddress else
  if current_pid =? dest_pid then st_ret src_virt else
  let* dest_virt := st_lift find in
  send_pages current_pid src_virt dest_pid dest_virt len.

Fixpoint back_pages (pid : Z) (pages : list Z) : MS unit :=
  match pages with
  | [] => st_ret tt
  | addr :: pages => let* _ := ensure_backed pid addr in back_pages pid pages
  end.

Definition lend_refused (src_virt dest_virt len : Z) : option Error :=
  if len =? 0 then Some BadAddress else
  if negb (page_aligned len) || negb (page_aligned src_virt) || negb (page_aligned dest_virt)
  then Some BadAlignment else None.
(** Within one process the pages only have to exist. *)
Definition back_range (pid virt len : Z) : MS unit :=
  back_pages pid (map (fun o => usize (virt + o)) (pages_of 0 len)).
Definition lend_pages (current_pid src_virt dest_pid dest_virt len : Z) (mutable : bool) : MS Z :=
  let src o := usize (src_virt + o) in
  let dest o := usize (dest_virt + o) in
  let* _ := transfer_pages
    (fun o => let* _ := assert_aligned src_virt dest_virt o in
              lend_page current_pid (src o) dest_pid (dest o) mutable)
    (fun o => unlend_page dest_pid (dest o) current_pid (src o)) [] (pages_of 0 len) in
  st_ret dest_virt.
Definition lend_memory (current_pid src_virt dest_pid : Z) (find : result Error Z) (dest_virt len : Z)
    (mutable : bool) : MS Z :=
  match lend_refused src_virt dest_virt len with
  | Some e => st_fail e
  | None =>
      if current_pid =? dest_pid then
        let* _ := back_range current_pid src_virt len in st_ret src_virt
      else
      let* dest_virt := st_lift find in
      lend_pages current_pid src_virt dest_pid dest_virt len mutable
  end.

(** The loop of [return_memory] goes on after an error and reports the last one. *)
Fixpoint return_pages (current_pid src_virt dest_pid dest_virt : Z) (error : option Error)
    (offsets : list Z) : MS unit :=
  match offsets with
  | [] => match error with None => st_ret tt | Some e => st_fail e end
  | offset :: offsets =>
      let* _ := assert_aligned src_virt dest_virt offset in
      let* r := st_try (unlend_page current_pid (usize (src_virt + offset))
                          dest_pid (usize (dest_virt + offset))) in
      return_pages current_pid src_virt dest_pid dest_virt
        (match r with Ok _ => error | Err e => Some e end) offsets
  end.
Definition return_refused (src_virt dest_virt len : Z) : bool :=
  (len =? 0) || negb (page_aligned len) || negb (page_aligned src_virt) || negb (page_aligned dest_virt).
Definition return_memory (current_pid src_virt dest_pid dest_virt len : Z) : MS Z :=
  if return_refused src_virt dest_virt len then st_fail BadAddress else
  if current_pid =? dest_pid then st_ret src_virt else
  let* _ := return_pages current_pid src_virt dest_pid dest_virt None (pages_of 0 len) in
  st_ret dest_virt.

Fixpoint clear_shared_pages (pid : Z) (mode : ClearShared) (pages : list Z) : MS unit :=
  match pages with
  | [] => st_ret tt
  | addr :: pages => let* _ := expect (clear_shared pid addr mode) in clear_shared_pages pid mode pages
  end.
Definition clear_shared_range (pid addr len : Z) (mode : ClearShared) : MS unit :=
  clear_shared_pages pid mode (map (fun o => usize (addr + o)) (pages_of 0 len)).
End Board.
