(* ===== verification/Isolation.v ===== *)
(** * Isolation of processes

    The invariant of page tables and owners together: a page of the RAM is mapped in at most
    one place, by the process that owns it, and a page that holds page tables or waits for its
    deferred zeroing is mapped nowhere.  This file defines it and shows how writing an entry,
    adding tables and changing owners act on it; [IsolationOps] goes through the operations. *)
From stdpp Require Import fin_maps gmap.
From S2P Require Import Prelude Xous SysCall Process MemManager PageTable Mapping Memory.

(** ** The pages words name *)

(** The page of the RAM at [phys], by either of its two addresses. *)
Definition ram_page (phys : Z) : option Z :=
  if is_ram phys then address_to_allocation_offset [] phys else None.
(** The page of the RAM an entry maps. *)
Definition entry_page (e : L2TableEntry) : option Z :=
  match e with L2Mapped d => let! a := get_addr d in ram_page a | _ => None end.
Definition slot_page (w : Z) : option Z := entry_page (from_u32 w).

Definition word (s : MemState) (pid pn : Z) : Z :=
  match ms_maps s !! pid with Some m => default 0 (l2 m !! pn) | None => 0 end.
Definition page_at (s : MemState) (pid pn : Z) : option Z := slot_page (word s pid pn).

Lemma ram_page_range phys i : ram_page phys = Some i -> is_ram phys = true /\ 0 <= i < RAM_PAGES.
Proof.
  unfold ram_page. destruct (is_ram phys) eqn:E; [|done]. intros H.
  apply allocation_offset_spec in H as [? H]; [|constructor]. split; [done|]. split; [lia|by apply H].
Qed.

Lemma ram_page_offset regions phys i :
  ram_page phys = Some i -> address_to_allocation_offset regions phys = Some i.
Proof.
  unfold ram_page, is_ram, address_to_allocation_offset.
  destruct (is_address_encrypted phys); [done|]. by destruct (is_address_in_plaintext_dram phys).
Qed.

Lemma ram_page_address idx k :
  0 <= idx < RAM_PAGES -> 0 <= k < PAGE_SIZE -> ram_page (page_address idx + k) = Some idx.
Proof.
  rewrite RAM_PAGES_eq. unfold PAGE_SIZE. intros Hi Hk.
  assert (is_address_encrypted (page_address idx + k) = true) as E.
  { unfold is_address_encrypted, page_address, PAGE_SIZE.
    change ENCRYPTED_DRAM_END with (ENCRYPTED_DRAM_BASE + 134217728). lia. }
  unfold ram_page, is_ram, address_to_allocation_offset. rewrite E. cbn [orb]. f_equal.
  unfold page_address, PAGE_SIZE. Z.div_mod_to_equations. lia.
Qed.

Lemma ram_page_plaintext idx :
  0 <= idx < RAM_PAGES -> ram_page (to_plaintext_phys_addr (page_address idx)) = Some idx.
Proof.
  intros Hi. rewrite to_plaintext_page_address by done. rewrite RAM_PAGES_eq in Hi.
  assert (is_address_in_plaintext_dram (PLAINTEXT_DRAM_BASE + idx * PAGE_SIZE) = true) as E.
  { unfold is_address_in_plaintext_dram, PAGE_SIZE.
    change PLAINTEXT_DRAM_END with (PLAINTEXT_DRAM_BASE + 134217728). lia. }
  assert (is_address_encrypted (PLAINTEXT_DRAM_BASE + idx * PAGE_SIZE) = false) as E'.
  { unfold is_address_encrypted, PAGE_SIZE.
    change PLAINTEXT_DRAM_BASE with 536870912. change ENCRYPTED_DRAM_BASE with 1073741824. lia. }
  unfold ram_page, is_ram, address_to_allocation_offset. rewrite E, E'. cbn [orb]. f_equal.
  unfold PAGE_SIZE. Z.div_mod_to_equations. lia.
Qed.

(** ** Entries written back *)

Lemma from_u32_mapped w d : from_u32 w = L2Mapped d -> w = d /\ Z.land d 3 <> 0.
Proof.
  unfold from_u32. destruct (w =? 0); [done|]. destruct (Z.eqb_spec (Z.land w 3) 0); [done|].
  by intros [= ->].
Qed.

Lemma from_as_mapped d : Z.land d 3 <> 0 -> from_u32 d = L2Mapped d.
Proof.
  intros H. unfold from_u32. destruct (Z.eqb_spec d 0) as [->|]; [by rewrite Z.land_0_l in H|].
  destruct (Z.eqb_spec (Z.land d 3) 0); done.
Qed.

Lemma land_u32 d k : is_u32 k -> is_u32 (Z.land d k).
Proof.
  intros Hk. replace (Z.land d k) with (u32 (Z.land d k)); [apply u32_range|].
  rewrite <-(u32_id k Hk) at 2. unfold u32. rewrite <-!land_ones_mod by lia. by rewrite Z.land_assoc.
Qed.

Lemma get_addr_mapped d : Z.land d 3 <> 0 -> exists a, get_addr d = Some a /\ Z.land a 0xfff = 0 /\ is_u32 a.
Proof.
  intros H. unfold get_addr, get_type.
  assert (forall k, 0 <= k -> Z.land k 0xfff = 0 -> is_u32 k -> exists a, Some (Z.land d k) = Some a
    /\ Z.land a 0xfff = 0 /\ is_u32 a) as Hk.
  { intros k Hk0 Hk Hu. eexists. split; [done|]. split; [by rewrite <-Z.land_assoc, Hk, Z.land_0_r|].
    by apply land_u32. }
  destruct (Z.land d 3) as [|p|p] eqn:E; [done| |].
  - destruct p as [p|p|]; apply Hk; vm_compute; intuition congruence.
  - apply Hk; vm_compute; intuition congruence.
Qed.

Lemma entry_phys_page d a :
  get_addr d = Some a -> entry_phys (L2Mapped d) = Done a /\ entry_page (L2Mapped d) = ram_page a.
Proof. intros H. unfold entry_phys, entry_page. by rewrite H. Qed.

Lemma to_immutable_page d d' :
  Z.land d 3 <> 0 -> to_immutable (L2Mapped d) = Done d' ->
  entry_page d' = entry_page (L2Mapped d) /\ exists k, d' = L2Mapped k /\ Z.land k 3 <> 0.
Proof.
  intros H [= <-].
  assert (Z.land (Z.lor d SP_AP2) 3 = Z.land d 3) as E3
    by (rewrite Z.land_lor_distr_l; change (Z.land SP_AP2 3) with 0; apply Z.lor_0_r).
  split; [|eexists; split; [done|by rewrite E3]].
  unfold entry_page, get_addr, get_type. rewrite E3.
  assert (forall k, Z.land SP_AP2 k = 0 -> Z.land (Z.lor d SP_AP2) k = Z.land d k) as Hk.
  { intros k Hk. by rewrite Z.land_lor_distr_l, Hk, Z.lor_0_r. }
  destruct (Z.land d 3) as [|p|p]; [done| |]; [destruct p as [p|p|]|]; by rewrite Hk.
Qed.

Lemma land_3_aligned phys : page_aligned phys = true -> Z.land phys 3 = 0.
Proof.
  unfold page_aligned. intros H%Z.eqb_eq. change 3 with (Z.land (PAGE_SIZE - 1) 3).
  by rewrite Z.land_assoc, H, Z.land_0_l.
Qed.

Lemma u32_low x : Z.land (u32 x) 3 = Z.land x 3.
Proof.
  unfold u32. change 3 with (2 ^ 2 - 1). rewrite !land_ones_mod by lia.
  apply Z.mod_mod_divide. by exists (2 ^ 30).
Qed.

(** An unmapped entry the kernel writes is not mapped when it is read back. *)
Lemma unmapped_page u : Z.land u 3 = 0 -> slot_page (u32 u) = None.
Proof.
  intros H. unfold slot_page, from_u32. destruct (u32 u =? 0); [done|].
  by rewrite u32_low, H.
Qed.

Lemma new_on_demand_unmapped phys flags user e :
  new_on_demand phys flags user = Done e -> slot_page (as_u32 e) = None.
Proof.
  unfold new_on_demand. destruct (page_aligned phys) eqn:Ea; cbn; [|done]. intros [= <-]. cbn [as_u32].
  apply unmapped_page. rewrite !Z.land_lor_distr_l, land_3_aligned by done.
  assert (Z.land (usize (Z.shiftl flags UNMAPPED_FLAGS_OFFSET)) 3 = 0) as ->.
  { change usize with u32. rewrite u32_low. change UNMAPPED_FLAGS_OFFSET with 3.
    by apply land_shiftl_small. }
  by destruct user.
Qed.

Lemma to_unmapped_page d e : to_unmapped (L2Mapped d) = Done e -> slot_page (as_u32 e) = None.
Proof.
  unfold to_unmapped. destruct (entry_phys _) as [phys| |]; cbn [out_bind]; [|done|done].
  destruct (entry_flags _) as [flags| |]; cbn [out_bind]; [|done|done]. apply new_on_demand_unmapped.
Qed.

Lemma wf_phys_land u : wf_phys (Z.land u (usize_not (PAGE_SIZE - 1))).
Proof.
  change (usize_not (PAGE_SIZE - 1)) with 0xfffff000. split.
  - apply land_u32. vm_compute. intuition congruence.
  - unfold page_aligned. rewrite <-Z.land_assoc. change (Z.land 0xfffff000 (PAGE_SIZE - 1)) with 0.
    by rewrite Z.land_0_r.
Qed.

Lemma wf_flags_bits b : wf_flags (MemoryFlags_from_bits b).
Proof.
  unfold wf_flags, MemoryFlags_from_bits. rewrite <-Z.land_assoc. f_equal.
Qed.

Lemma new_mapped_page virt phys flags user :
  wf_phys phys -> wf_flags flags ->
  exists d, new_mapped virt phys flags user = Done (L2Mapped d)
    /\ get_addr d = Some phys /\ slot_page d = ram_page phys /\ Z.land d 3 <> 0.
Proof.
  intros Hp Hf. destruct (new_mapped_spec virt phys flags user Hp Hf) as (d & E & Ep & _ & _ & Hm & _).
  exists d. unfold mmu_translates in Hm.
  assert (Z.land d 3 <> 0) as H3 by lia.
  destruct (get_addr_mapped d H3) as (a & Ea & _). unfold entry_phys in Ep. rewrite Ea in Ep.
  injection Ep as <-. split_and!; try done. unfold slot_page. rewrite from_as_mapped by done. cbn. by rewrite Ea.
Qed.

(** An entry made mapped maps the page it named, if it was not mapped before. *)
Lemma to_mapped_page virt u e :
  to_mapped virt (L2Unmapped u) = Done e ->
  exists d, e = L2Mapped d /\ entry_phys (L2Unmapped u) = entry_phys e /\ Z.land d 3 <> 0
    /\ slot_page d = ram_page (Z.land u (usize_not (PAGE_SIZE - 1))).
Proof.
  unfold to_mapped. cbn [entry_phys entry_flags out_bind].
  destruct (new_mapped_page virt _ _ (negb (Z.land u MAP_USER_FLAG =? 0)) (wf_phys_land u)
    (wf_flags_bits (Z.shiftr u UNMAPPED_FLAGS_OFFSET))) as (d & -> & Ea & Es & H3).
  intros [= <-]. exists d. split_and!; try done. unfold entry_phys. by rewrite Ea.
Qed.

(** ** The invariant *)

(** The second-level tables of [m], and its first level: the pages of the RAM they lie in. *)
Definition table_page (m : MemoryMapping) (i : Z) : Prop :=
  (exists vpn1 t, l1 m !! vpn1 = Some (L1Page t) /\ ram_page t = Some i)
  \/ (exists k, 0 <= k < L1_USER_PAGE_TABLE_PAGES /\ ram_page (ttbr0 m + k * PAGE_SIZE) = Some i).

Lemma group_base_eq v : 0 <= v < 4096 -> group_base v = v / 4 * 4.
Proof.
  intros Hv. unfold group_base. change (usize_not 3) with (Z.shiftl (2 ^ 30 - 1) 2).
  assert (v = Z.lor (Z.shiftl (v / 4) 2) (v mod 4)) as E.
  { rewrite lor_shiftl_add by (Z.div_mod_to_equations; lia).
    change (2 ^ 2) with 4. Z.div_mod_to_equations. lia. }
  rewrite E at 1. rewrite Z.land_lor_distr_l, <-Z.shiftl_land, land_ones_mod by lia.
  rewrite (Z.land_comm (v mod 4)), land_shiftl_small, Z.lor_0_r by (Z.div_mod_to_equations; lia).
  rewrite Z.mod_small by (Z.div_mod_to_equations; lia). by rewrite Z.shiftl_mul_pow2 by lia.
Qed.

(** Tables come four at a time. *)
Definition grouped (m : MemoryMapping) : Prop :=
  forall v v', 0 <= v < 4096 -> 0 <= v' < 4096 -> group_base v = group_base v' ->
    l1 m !! v = None -> l1 m !! v' = None.

(** [R] are pages with an owner that are mapped nowhere and hold no tables. *)
Record iso (R : gmap Z Z) (s : MemState) : Prop := {
  iso_group pid m : ms_maps s !! pid = Some m -> grouped m;
  iso_mm : wf_mm (ms_mm s);
  iso_owner pid pn i : page_at s pid pn = Some i -> allocations (ms_mm s) !! i = Some pid;
  iso_unique pid pn pid' pn' i :
    page_at s pid pn = Some i -> page_at s pid' pn' = Some i -> pid = pid' /\ pn = pn';
  iso_table pid m i : ms_maps s !! pid = Some m -> table_page m i ->
    allocations (ms_mm s) !! i = Some pid /\ R !! i = None /\ forall p pn, page_at s p pn <> Some i;
  iso_reserved i pid : R !! i = Some pid ->
    0 <= i < RAM_PAGES /\ allocations (ms_mm s) !! i = Some pid /\ forall p pn, page_at s p pn <> Some i
}.

(** The pages of the job whose zeroing is under way. *)
Definition pending_pages (mm : MemoryManager) : gmap Z Z :=
  match pending_map_zero mm with
  | Some job => match ram_page (pz_phys job) with
                | Some i => own_range i (pz_size job / PAGE_SIZE) (pz_pid job) ∅
                | None => ∅
                end
  | None => ∅
  end.

Lemma page_at_range s pid pn i : page_at s pid pn = Some i -> 0 <= i < RAM_PAGES.
Proof.
  unfold page_at, slot_page, entry_page. destruct (from_u32 _) as [|d|]; [done| |done].
  destruct (get_addr d) as [a|]; cbn; [|done]. by intros [_ H]%ram_page_range.
Qed.

Lemma table_page_range m i : table_page m i -> 0 <= i < RAM_PAGES.
Proof. intros [(?&?&_& H)|(?&_& H)]; by apply ram_page_range in H as [_ H]. Qed.

Lemma iso_weaken R R' s : R' ⊆ R -> iso R s -> iso R' s.
Proof.
  intros HR [Hg H1 H2 H3 H4 H5]. split; try done.
  - intros pid m i Hm Ht. destruct (H4 pid m i Hm Ht) as (? & ? & ?). split_and!; try done.
    eapply lookup_weaken_None; eauto.
  - intros i pid Hi. apply H5. eapply lookup_weaken; eauto.
Qed.

(** A change of owners that leaves the mapped pages, the tables and the reserved pages. *)
Lemma iso_change R R' s mm' :
  iso R s -> wf_mm mm' ->
  (forall i p, 0 <= i < RAM_PAGES -> R !! i = None -> allocations (ms_mm s) !! i = Some p ->
     allocations mm' !! i = Some p) ->
  (forall i p, R' !! i = Some p -> 0 <= i < RAM_PAGES /\ allocations mm' !! i = Some p
     /\ (is_Some (R !! i) \/ allocations (ms_mm s) !! i = None)) ->
  iso R' (mkMem mm' (ms_maps s)).
Proof.
  intros [Hg H1 H2 H3 H4 H5] Hwf Hkeep HR'. split; cbn [ms_mm ms_maps]; try done.
  - intros pid pn i Hp. apply Hkeep; [by eapply page_at_range| |by eapply H2].
    destruct (R !! i) eqn:E; [|done]. apply H5 in E as (_ & _ & E). by destruct (E pid pn).
  - intros pid m i Hm Ht. destruct (H4 pid m i Hm Ht) as (Ho & HR & Hn).
    split_and!; [|destruct (R' !! i) eqn:E; [|done]|done].
    + apply Hkeep; [by eapply table_page_range|done|done].
    + apply HR' in E as (_ & _ & [[? E]|E]); congruence.
  - intros i p Hi. destruct (HR' i p Hi) as (Hr & Ho & Hor). split_and!; [lia|lia|done|].
    intros q pn Hp. destruct Hor as [[p' E]|E].
    + apply H5 in E as (_ & _ & E). by destruct (E q pn).
    + apply H2 in Hp. congruence.
Qed.

(** Owners gained on free pages. *)
Lemma iso_allocated R s mm' X pid zeroed :
  iso R s -> wf_mm mm' -> allocated (ms_mm s) mm' X pid zeroed ->
  iso (set_to_map (fun i => (i, pid)) X ∪ R) (mkMem mm' (ms_maps s)).
Proof.
  intros Hiso Hwf (HX & _ & HA & _). pose proof (iso_mm _ _ Hiso) as Hmm.
  assert (forall i, i ∈ X -> 0 <= i < RAM_PAGES /\ allocations (ms_mm s) !! i = None) as Hfree.
  { intros i Hi. split; [by apply (wf_mm_ram _ _ Hmm), HX|by apply (wf_mm_free _ _ Hmm), HX]. }
  eapply iso_change; [done|done| |].
  - intros i p _ _ Ho. rewrite HA. case_bool_decide as Hi; [|done]. apply Hfree in Hi as [_ ?]. congruence.
  - intros i p. rewrite lookup_union_Some_raw. intros [Hi|[Hn Hi]].
    + apply lookup_set_to_map in Hi as (j & Hj & [= -> ->]); [|by intros ?? _ _ [=]].
      destruct (Hfree i Hj) as [Hr Ho]. split; [lia|]. rewrite HA, bool_decide_eq_true_2 by done.
      split; [done|by right].
    + destruct (iso_reserved _ _ Hiso _ _ Hi) as (Hr & Ho & _). split; [lia|]. rewrite HA.
      case_bool_decide as HX'; [|split; [done|left; eauto]]. apply Hfree in HX' as [_ ?]. congruence.
Qed.

(** ** Writing an entry *)

Definition put (pid pn w : Z) : MemState -> MemState :=
  with_maps (alter (fun m => mkMapping (ttbr0 m) (l1 m) (<[pn := w]> (l2 m))) pid).

Lemma write_slot_put pid pn e s : write_slot pid pn e s = (put pid pn (as_u32 e) s, Done tt).
Proof. done. Qed.

Lemma put_maps pid pn w s m :
  ms_maps s !! pid = Some m ->
  ms_maps (put pid pn w s) = <[pid := mkMapping (ttbr0 m) (l1 m) (<[pn := w]> (l2 m))]> (ms_maps s).
Proof.
  intros Hm. cbn. apply map_eq. intros q. destruct (decide (pid = q)) as [<-|Hne].
  - by rewrite lookup_alter_eq, Hm, lookup_insert_eq.
  - by rewrite lookup_alter_ne, lookup_insert_ne.
Qed.

Lemma word_put pid pn w s q qn :
  is_Some (ms_maps s !! pid) ->
  word (put pid pn w s) q qn = if decide (q = pid /\ qn = pn) then w else word s q qn.
Proof.
  intros [m Hm]. unfold word. rewrite (put_maps _ _ _ _ _ Hm).
  destruct (decide (pid = q)) as [<-|Hne].
  - rewrite lookup_insert_eq, Hm. cbn [l2]. destruct (decide (pn = qn)) as [<-|].
    + rewrite lookup_insert_eq. by rewrite decide_True.
    + rewrite lookup_insert_ne by done. rewrite decide_False; [done|naive_solver].
  - rewrite lookup_insert_ne by done. rewrite decide_False; [done|naive_solver].
Qed.

Lemma page_at_put pid pn w s q qn :
  is_Some (ms_maps s !! pid) ->
  page_at (put pid pn w s) q qn = if decide (q = pid /\ qn = pn) then slot_page w else page_at s q qn.
Proof. intros Hm. unfold page_at. rewrite word_put by done. by case_decide. Qed.

Lemma put_table pid pn w s q m :
  ms_maps (put pid pn w s) !! q = Some m ->
  exists m', ms_maps s !! q = Some m' /\ l1 m = l1 m' /\ ttbr0 m = ttbr0 m'.
Proof.
  cbn. rewrite lookup_alter. case_decide as Hq; [|by intros; exists m].
  subst q. intros (m' & Hm & ->)%fmap_Some. exists m'. by split_and!.
Qed.

Definition reserve (o : option Z) (pid : Z) (R : gmap Z Z) : gmap Z Z :=
  match o with Some i => <[i := pid]> R | None => R end.

(** An unmapped word takes the place of a mapped one: its page is reserved. *)
Lemma iso_detach R s pid pn w :
  iso R s -> is_Some (ms_maps s !! pid) -> slot_page w = None ->
  iso (reserve (page_at s pid pn) pid R) (put pid pn w s).
Proof.
  intros [Hg H1 H2 H3 H4 H5] Hm Hw.
  assert (forall q qn i, page_at (put pid pn w s) q qn = Some i ->
    page_at s q qn = Some i /\ ~ (q = pid /\ qn = pn)) as Hp.
  { intros q qn i. rewrite page_at_put by done. case_decide; [congruence|done]. }
  split; cbn [ms_mm put with_maps].
  - intros q m (m' & Hm' & El & _)%put_table. specialize (Hg q m' Hm'). unfold grouped in *. by rewrite El.
  - done.
  - intros q qn i [H _]%Hp. eauto.
  - intros q qn q' qn' i [? _]%Hp [? _]%Hp. eauto.
  - intros q m i (m' & Hm' & El & Et)%put_table Ht.
    assert (table_page m' i) as Ht' by (unfold table_page in *; by rewrite <-El, <-Et).
    destruct (H4 q m' i Hm' Ht') as (Ho & HR & Hn). split_and!; [done| |].
    + destruct (page_at s pid pn) as [j|] eqn:Ej; cbn [reserve]; [|done].
      rewrite lookup_insert_ne; [done|]. intros ->. by eapply Hn.
    + intros p' pn' [? _]%Hp. by eapply Hn.
  - intros i q Hi.
    destruct (page_at s pid pn) as [j|] eqn:Ej; cbn [reserve] in Hi.
    + apply lookup_insert_Some in Hi as [[<- <-]|[Hne Hi]].
      * split_and!; [by eapply page_at_range|by eapply page_at_range|by eapply H2|].
        intros p' pn' [H' Hne]%Hp. apply Hne. by apply (H3 _ _ _ _ _ H' Ej).
      * destruct (H5 i q Hi) as (? & ? & Hn). split_and!; [lia|lia|done|]. intros p' pn' [H' _]%Hp. by eapply Hn.
    + destruct (H5 i q Hi) as (? & ? & Hn). split_and!; [lia|lia|done|]. intros p' pn' [H' _]%Hp. by eapply Hn.
Qed.

(** A reserved page is mapped by its owner. *)
Lemma iso_attach R s pid pn w i :
  iso R s -> is_Some (ms_maps s !! pid) -> slot_page w = Some i -> R !! i = Some pid ->
  iso (delete i R) (put pid pn w s).
Proof.
  intros [Hg H1 H2 H3 H4 H5] Hm Hw HR. destruct (H5 i pid HR) as (Hi & Ho & Hn).
  assert (forall q qn j, page_at (put pid pn w s) q qn = Some j ->
    (q = pid /\ qn = pn /\ j = i) \/ (page_at s q qn = Some j /\ j <> i)) as Hp.
  { intros q qn j. rewrite page_at_put by done. case_decide as Hc.
    - left. destruct Hc. split_and!; congruence.
    - intros Hj. right. split; [done|]. intros ->. by eapply Hn. }
  split; cbn [ms_mm put with_maps].
  - intros q m (m' & Hm' & El & _)%put_table. specialize (Hg q m' Hm'). unfold grouped in *. by rewrite El.
  - done.
  - intros q qn j [(-> & -> & ->)|[H _]]%Hp; eauto.
  - intros q qn q' qn' j [(-> & -> & ->)|[? ?]]%Hp [(-> & -> & ?)|[? ?]]%Hp;
      [done|congruence|congruence|by eapply H3].
  - intros q m j (m' & Hm' & El & Et)%put_table Ht.
    assert (table_page m' j) as Ht' by (unfold table_page in *; by rewrite <-El, <-Et).
    destruct (H4 q m' j Hm' Ht') as (Ho' & HR' & Hn'). split_and!; [done| |].
    + apply lookup_delete_None. by right.
    + intros p' pn' [(-> & -> & ->)|[? _]]%Hp; [congruence|by eapply Hn'].
  - intros j q [Hne Hj]%lookup_delete_Some. destruct (H5 j q Hj) as (? & ? & Hn').
    split_and!; [lia|lia|done|]. intros p' pn' [(-> & -> & ->)|[? _]]%Hp; [done|by eapply Hn'].
Qed.

(** A word that maps no page of the RAM takes the place of another such word. *)
Lemma iso_put_unmapped R s pid pn w :
  iso R s -> is_Some (ms_maps s !! pid) -> slot_page w = None -> iso R (put pid pn w s).
Proof.
  intros Hiso Hm Hw. eapply iso_weaken; [|by apply iso_detach].
  destruct (page_at s pid pn) as [i|] eqn:E; [|done]. cbn. apply insert_subseteq.
  destruct (R !! i) eqn:ER; [|done]. apply (iso_reserved _ _ Hiso) in ER as (_ & _ & Hn). by destruct (Hn pid pn).
Qed.

(** ** Tables *)

Lemma word_add_group s pid vpn1 phys q qn :
  word (with_maps (alter (add_group vpn1 phys) pid) s) q qn
  = if decide (q = pid /\ group_base (Z.shiftr qn 8) = group_base vpn1) then 0 else word s q qn.
Proof.
  unfold word. cbn [ms_maps with_maps]. rewrite lookup_alter. destruct (decide (pid = q)) as [<-|Hne].
  2: { rewrite decide_False; [done|naive_solver]. }
  destruct (ms_maps s !! pid) as [m|]; cbn [fmap option_fmap option_map].
  2: { by destruct (decide _). }
  unfold add_group; cbn [l2]. rewrite map_lookup_filter.
  destruct (l2 m !! qn) as [w|]; cbn; [|by destruct (decide _)].
  case_guard as Hg; case_decide as Hd; try done; naive_solver.
Qed.

Lemma add_group_lookup vpn1 phys m v t :
  l1 (add_group vpn1 phys m) !! v = Some (L1Page t) ->
  l1 m !! v = Some (L1Page t) \/ exists k, 0 <= k < 4 /\ t = phys + k * L2_TABLE_BYTES.
Proof.
  unfold add_group; cbn [l1]. intros H.
  repeat (apply lookup_insert_Some in H as [[_ [= <-]]|[_ H]]; [right; eexists; split; [|reflexivity]; lia|]).
  by left.
Qed.

Lemma add_group_base vpn1 k :
  0 <= vpn1 < 4096 -> 0 <= k < 4 ->
  0 <= group_base vpn1 + k < 4096 /\ group_base (group_base vpn1 + k) = group_base vpn1.
Proof.
  intros Hv Hk. rewrite (group_base_eq vpn1) by done.
  assert (0 <= vpn1 / 4 * 4 + k < 4096) as Hr by (Z.div_mod_to_equations; lia).
  split; [done|]. rewrite group_base_eq by done. Z.div_mod_to_equations. lia.
Qed.

Lemma add_group_other vpn1 phys m v :
  0 <= vpn1 < 4096 -> group_base v <> group_base vpn1 ->
  l1 (add_group vpn1 phys m) !! v = l1 m !! v.
Proof.
  intros Hv Hne. unfold add_group; cbn [l1].
  assert (forall k, 0 <= k < 4 -> group_base vpn1 + k <> v) as Hk.
  { intros k Hk <-. apply Hne. by apply add_group_base. }
  rewrite !lookup_insert_ne by (apply Hk; lia). done.
Qed.

Lemma add_group_present vpn1 phys m v :
  0 <= vpn1 < 4096 -> 0 <= v < 4096 -> group_base v = group_base vpn1 ->
  exists t, l1 (add_group vpn1 phys m) !! v = Some (L1Page t).
Proof.
  intros Hv Hv' Hg. rewrite !group_base_eq in Hg by done.
  assert (v = group_base vpn1 + v mod 4) as E by (rewrite group_base_eq by done; Z.div_mod_to_equations; lia).
  assert (0 <= v mod 4 < 4) as Hr by (Z.div_mod_to_equations; lia).
  unfold add_group; cbn [l1]. set (k := v mod 4) in *. rewrite E. clearbody k.
  destruct (decide (k = 3)) as [->|]; [by rewrite lookup_insert_eq; eauto|]. rewrite lookup_insert_ne by lia.
  destruct (decide (k = 2)) as [->|]; [by rewrite lookup_insert_eq; eauto|]. rewrite lookup_insert_ne by lia.
  destruct (decide (k = 1)) as [->|]; [by rewrite lookup_insert_eq; eauto|]. rewrite lookup_insert_ne by lia.
  assert (k = 0) as -> by lia. rewrite lookup_insert_eq. eauto.
Qed.

Lemma grouped_add_group vpn1 phys m : 0 <= vpn1 < 4096 -> grouped m -> grouped (add_group vpn1 phys m).
Proof.
  intros Hvpn Hg v v' Hv Hv' Hgr. destruct (decide (group_base v = group_base vpn1)) as [E|E].
  - destruct (add_group_present vpn1 phys m v Hvpn Hv E) as (t & ->). done.
  - rewrite !add_group_other by congruence. by apply Hg.
Qed.

Lemma iso_add_group R s pid m vpn1 idx :
  0 <= vpn1 < 4096 -> iso R s -> ms_maps s !! pid = Some m -> R !! idx = Some pid ->
  iso (delete idx R) (with_maps (alter (add_group vpn1 (page_address idx)) pid) s).
Proof.
  intros Hvpn [Hg H1 H2 H3 H4 H5] Hm HR. destruct (H5 idx pid HR) as (Hi & Ho & Hn).
  set (s' := with_maps _ s).
  assert (forall q qn j, page_at s' q qn = Some j -> page_at s q qn = Some j) as Hp.
  { intros q qn j. unfold page_at, s'. rewrite word_add_group. case_decide; [done|done]. }
  split; cbn [ms_mm with_maps s'].
  - intros q m' Hm'. unfold s' in Hm'; cbn [ms_maps with_maps] in Hm'. rewrite lookup_alter in Hm'.
    case_decide as Hq; [|by eapply Hg]. subst q. rewrite Hm in Hm'. injection Hm' as <-.
    apply grouped_add_group; [done|by apply (Hg pid)].
  - done.
  - eauto.
  - eauto.
  - intros q m' j Hm' Ht. unfold s' in Hm'; cbn [ms_maps with_maps] in Hm'.
    assert ((q = pid /\ j = idx) \/ exists m0, ms_maps s !! q = Some m0 /\ table_page m0 j) as [[-> ->]|(m0 & Hm0 & Ht0)].
    { rewrite lookup_alter in Hm'. case_decide as Hq; [|right; by exists m'].
      subst q. rewrite Hm in Hm'. injection Hm' as <-. destruct Ht as [(v & t & Hl & Hpg)|Ht].
      - apply add_group_lookup in Hl as [Hl|(k & Hk & ->)]; [right; exists m; split; [done|left; eauto]|left].
        split; [done|]. rewrite ram_page_address in Hpg; [congruence|done|].
        unfold L2_TABLE_BYTES, PAGE_SIZE. lia.
      - right. exists m. split; [done|by right]. }
    + rewrite lookup_delete_eq. split_and!; [done|done|]. intros p pn Hq%Hp. by eapply Hn.
    + destruct (H4 q m0 j Hm0 Ht0) as (? & ? & Hn'). split_and!; [done| |].
      * apply lookup_delete_None. by right.
      * intros p pn Hq%Hp. by eapply Hn'.
  - intros j q [Hne Hj]%lookup_delete_Some. destruct (H5 j q Hj) as (? & ? & Hn').
    split_and!; [lia|lia|done|]. intros p pn Hq%Hp. by eapply Hn'.
Qed.

(** A process gets its first level in two reserved pages, or loses its tables. *)
Lemma iso_new_mapping R s pid idx :
  iso R s -> ms_maps s !! pid = None ->
  (forall i, idx <= i < idx + L1_USER_PAGE_TABLE_PAGES -> R !! i = Some pid) ->
  iso (filter (fun '(i, _) => ~ (idx <= i < idx + L1_USER_PAGE_TABLE_PAGES)) R)
    (with_maps (insert pid (mkMapping (page_address idx) ∅ ∅)) s).
Proof.
  intros [Hg H1 H2 H3 H4 H5] Hm HR. set (s' := with_maps _ s).
  assert (0 <= idx /\ idx + 1 < RAM_PAGES) as Hidx.
  { unfold L1_USER_PAGE_TABLE_PAGES in HR.
    destruct (H5 idx pid (HR idx ltac:(lia))) as (? & _), (H5 (idx + 1) pid (HR (idx + 1) ltac:(lia))) as (? & _). lia. }
  assert (forall q qn j, page_at s' q qn = Some j -> page_at s q qn = Some j) as Hp.
  { intros q qn j. unfold page_at, word, s'; cbn. destruct (decide (pid = q)) as [<-|].
    - by rewrite lookup_insert_eq.
    - by rewrite lookup_insert_ne. }
  split; cbn [ms_mm with_maps s'].
  - intros q m' Hm'. unfold s' in Hm'; cbn [ms_maps with_maps] in Hm'.
    apply lookup_insert_Some in Hm' as [[<- <-]|[_ Hm']]; [|by eapply Hg].
    intros v v' _ _ _ _. apply lookup_empty.
  - done.
  - eauto.
  - eauto.
  - intros q m' j Hm' Ht. unfold s' in Hm'; cbn [ms_maps with_maps] in Hm'.
    apply lookup_insert_Some in Hm' as [[<- <-]|[Hne Hm']].
    + destruct Ht as [(v & t & Hl & _)|(k & Hk & Hpg)]; cbn in *; [by rewrite lookup_empty in Hl|].
      unfold L1_USER_PAGE_TABLE_PAGES in *.
      replace (page_address idx + k * PAGE_SIZE) with (page_address (idx + k) + 0) in Hpg
        by (unfold page_address, PAGE_SIZE; lia).
      rewrite ram_page_address in Hpg by (unfold PAGE_SIZE; lia). injection Hpg as <-.
      destruct (H5 (idx + k) pid) as (_ & Ho & Hn); [apply HR; lia|].
      split_and!; [done| |intros p pn Hq%Hp; by eapply Hn].
      apply map_lookup_filter_None. right. intros x _ Hx. apply Hx. lia.
    + destruct (H4 q m' j Hm' Ht) as (? & ? & Hn). split_and!; [done| |intros p pn Hq%Hp; by eapply Hn].
      apply map_lookup_filter_None. by left.
  - intros j q [Hj _]%map_lookup_filter_Some. destruct (H5 j q Hj) as (? & ? & Hn).
    split_and!; [lia|lia|done|]. intros p pn Hq%Hp. by eapply Hn.
Qed.

Lemma iso_destroy R s pid : iso R s -> iso R (with_maps (delete pid) s).
Proof.
  intros [Hg H1 H2 H3 H4 H5]. set (s' := with_maps _ s).
  assert (forall q qn j, page_at s' q qn = Some j -> page_at s q qn = Some j /\ q <> pid) as Hp.
  { intros q qn j. unfold page_at, word, s'; cbn. destruct (decide (pid = q)) as [<-|].
    - by rewrite lookup_delete_eq.
    - by rewrite lookup_delete_ne. }
  split; cbn [ms_mm with_maps s'].
  - intros q m Hm. unfold s' in Hm; cbn in Hm. apply lookup_delete_Some in Hm as [_ Hm]. by eapply Hg.
  - done.
  - intros q qn i [? _]%Hp. eauto.
  - intros q qn q' qn' i [? _]%Hp [? _]%Hp. eauto.
  - intros q m i Hm Ht. unfold s' in Hm; cbn in Hm. apply lookup_delete_Some in Hm as [_ Hm]. destruct (H4 q m i Hm Ht) as (? & ? & Hn).
    split_and!; [done|done|]. intros p pn [? _]%Hp. by eapply Hn.
  - intros i q Hi. destruct (H5 i q Hi) as (? & ? & Hn). split_and!; [lia|lia|done|].
    intros p pn [? _]%Hp. by eapply Hn.
Qed.

(** ** Allocating and changing owners *)

Lemma iso_fresh R s i : iso R s -> allocations (ms_mm s) !! i = None -> R !! i = None.
Proof.
  intros Hiso Ho. destruct (R !! i) as [p|] eqn:E; [|done].
  apply (iso_reserved _ _ Hiso) in E as (_ & E & _). congruence.
Qed.

Definition owners_kept (mm mm' : MemoryManager) : Prop :=
  forall i p, allocations mm !! i = Some p -> allocations mm' !! i = Some p.

Lemma iso_alloc_single R s pid :
  iso R s ->
  match alloc_single_page pid (ms_mm s) with
  | (mm', Done (phys, _)) => pending_map_zero mm' = pending_map_zero (ms_mm s)
      /\ exists idx, phys = page_address idx /\ 0 <= idx < RAM_PAGES /\ R !! idx = None
         /\ owners_kept (ms_mm s) mm'
         /\ iso (<[idx := pid]> R) (mkMem mm' (ms_maps s))
  | (mm', Fail _) => mm' = ms_mm s
  | (_, Panic) => False
  end.
Proof.
  intros Hiso. pose proof (alloc_single_page_spec pid _ (iso_mm _ _ Hiso)) as H.
  destruct (alloc_single_page pid (ms_mm s)) as [mm' [[phys z]|e|]]; [|by destruct H|done].
  destruct H as (Hwf & idx & -> & Hi & Hall). pose proof Hall as (HX & _ & _ & _ & _ & _ & _ & Hpd & _).
  split; [done|]. exists idx. split_and!; [done|lia|lia| | |].
  2: { destruct Hall as (_ & _ & HA & _). intros i p Ho. rewrite HA. case_bool_decide as Hx; [|done].
       apply elem_of_singleton in Hx as ->.
       rewrite (wf_mm_free _ idx (iso_mm _ _ Hiso)) in Ho; [done|]. set_solver. }
  - eapply iso_fresh; [done|]. apply (wf_mm_free _ _ (iso_mm _ _ Hiso)). set_solver.
  - eapply iso_weaken; [|by eapply iso_allocated].
    apply map_subseteq_spec. intros i p Hi'. apply lookup_union_Some_raw.
    apply lookup_insert_Some in Hi' as [[<- <-]|[Hne Hi']].
    + left. apply lookup_set_to_map; [by intros ?? _ _ [=]|]. exists idx. split; [set_solver|done].
    + right. split; [|done]. apply eq_None_not_Some. intros [x Hx%lookup_set_to_map]; [|by intros ?? _ _ [=]].
      destruct Hx as (j & Hj & [= -> _]). set_solver.
Qed.
