(* ===== verification/IsolationOps.v ===== *)
(** * Isolation through the operations of memory

    Every operation of [Memory] preserves the invariant of [Isolation], whatever its outcome,
    except for returning a page that is not mapped at the borrower.  So a page of the RAM is
    mapped in at most one place, by its owner, and never when it holds page tables, through
    every history of mapping, unmapping, sending, lending, returning and ending processes.

    Lending a page and returning it restores both processes; and returning a page that was lent
    on maps it into two processes. *)
From stdpp Require Import fin_maps gmap.
From S2P Require Import Prelude Xous SysCall Process MemManager PageTable Mapping Memory Isolation.

Section Board.
Context (regions : list (Z * Z)) (shared_peripherals : list Z)
        (permitted : Z -> Z -> result Error unit).
Context (Hregions : Forall (fun r => r.1 <= r.2) regions).

Abbreviation crm := (claim_release_move regions shared_peripherals permitted).

(** The reserved pages after an operation on the page at [phys]. *)
Definition after_owner_op (phys pid : Z) (action : ClaimReleaseMove) (R : gmap Z Z) : gmap Z Z :=
  match ram_page phys, action with
  | None, _ => R
  | Some i, Release => delete i R
  | Some i, _ => <[i := pid]> R
  end.

Lemma iso_owner_op R s phys pid action :
  iso R s ->
  (forall i, ram_page phys = Some i -> is_Some (R !! i) \/ allocations (ms_mm s) !! i = None) ->
  match crm phys pid action (ms_mm s) with
  | (mm', Done _) => pending_map_zero mm' = pending_map_zero (ms_mm s)
      /\ iso (after_owner_op phys pid action R) (mkMem mm' (ms_maps s))
  | (mm', Fail _) => mm' = ms_mm s
  | (_, Panic) => False
  end.
Proof.
  intros Hiso Hpage. pose proof (iso_mm _ _ Hiso) as Hmm.
  pose proof (claim_release_move_spec _ shared_peripherals permitted Hregions phys pid action _ Hmm) as H.
  destruct (crm phys pid action (ms_mm s)) as [mm' [[]|e|]]; [|by destruct H|done].
  destruct H as (Hwf & [(Hram & _ & _ & ->)|(off & Hoff & Hch & Hsame & _ & Hpd)]).
  { split; [done|]. unfold after_owner_op, ram_page. rewrite Hram. by destruct s. }
  split; [done|]. destruct (allocation_offset_spec _ _ _ Hregions Hoff) as [H0 Hram].
  assert (ram_page phys = Some off /\ off < RAM_PAGES \/ ram_page phys = None /\ RAM_PAGES <= off) as Hr.
  { destruct (ram_page phys) as [i|] eqn:Ei.
    - left. pose proof (ram_page_offset regions _ _ Ei). apply ram_page_range in Ei as [_ ?].
      split; [congruence|]. assert (off = i) by congruence. lia.
    - right. split; [done|]. destruct (Z.lt_ge_cases off RAM_PAGES) as [Hlt|]; [|done].
      apply Hram in Hlt. unfold ram_page in Ei. rewrite Hlt in Ei.
      unfold address_to_allocation_offset, is_ram in *. destruct (is_address_encrypted phys); [done|].
      by destruct (is_address_in_plaintext_dram phys). }
  apply (iso_change R); [done|done| |].
  - intros i p Hi HR Ho. destruct (decide (i = off)) as [->|Hne]; [|by rewrite Hsame].
    destruct Hr as [[Hr _]|[_ ?]]; [|lia]. destruct (Hpage off Hr) as [[? ?]|?]; congruence.
  - assert (forall i p, i <> off \/ RAM_PAGES <= off -> R !! i = Some p -> 0 <= i < RAM_PAGES
      /\ allocations mm' !! i = Some p /\ (is_Some (R !! i) \/ allocations (ms_mm s) !! i = None)) as Hother.
    { intros i p Hne Hi. destruct (iso_reserved _ _ Hiso i p Hi) as (Hir & Ho & _). split; [done|].
      rewrite Hsame by lia. split; [done|left; eauto]. }
    intros i p. unfold after_owner_op. destruct Hr as [[Hr Hlt]|[Hr Hge]]; rewrite Hr.
    2: { intros Hi. apply Hother; [by right|done]. }
    destruct action as [| |existing].
    + rewrite lookup_insert_Some. intros [[<- <-]|[Hne Hi]]; [|apply Hother; [by left|done]].
      split; [lia|]. split; [apply Hch|by apply Hpage].
    + rewrite lookup_delete_Some. intros [Hne Hi]. apply Hother; [by left|done].
    + rewrite lookup_insert_Some. intros [[<- <-]|[Hne Hi]]; [|apply Hother; [by left|done]].
      split; [lia|]. split; [apply Hch|by apply Hpage].
Qed.

(** A page of the RAM reserved for its owner [src] always moves. *)
Lemma move_reserved R s phys i src dest :
  iso R s -> ram_page phys = Some i -> R !! i = Some src -> Z.land phys 0xfff = 0 ->
  exists mm', crm phys dest (MoveFrom src) (ms_mm s) = (mm', Done tt).
Proof.
  intros Hiso Hi HR Hal. pose proof (iso_mm _ _ Hiso) as Hmm.
  pose proof (claim_release_move_spec _ shared_peripherals permitted Hregions phys dest (MoveFrom src) _ Hmm) as H.
  destruct (crm phys dest (MoveFrom src) (ms_mm s)) as [mm' [[]|e|]]; [by eexists| |done]. exfalso.
  pose proof (ram_page_offset regions _ _ Hi) as Hoff. apply ram_page_range in Hi as [Hram _].
  destruct H as (_ & [[? _]|[[? _]|[[? _]|(off & Hoff' & Hn)]]]); try congruence.
  assert (off = i) as -> by congruence. destruct (iso_reserved _ _ Hiso _ _ HR) as (_ & Ho & _).
  rewrite Ho in Hn. destruct Hn as [[? _]|(_ & o & [= <-] & _ & ?)]; congruence.
Qed.

(** ** Operations on one page *)

(** What an operation on the spaces of [P] leaves alone. *)
Definition keeps (P : list Z) (s s' : MemState) : Prop :=
  pending_map_zero (ms_mm s') = pending_map_zero (ms_mm s)
  /\ (forall q, q ∉ P -> ms_maps s' !! q = ms_maps s !! q)
  /\ (forall q, is_Some (ms_maps s !! q) -> is_Some (ms_maps s' !! q)).
Definition step (R : gmap Z Z) (P : list Z) (s s' : MemState) : Prop := iso R s' /\ keeps P s s'.

#[local] Instance keeps_refl P : Reflexive (keeps P).
Proof. clear. by split. Qed.
#[local] Instance keeps_trans P : Transitive (keeps P).
Proof. clear.
  intros s1 s2 s3 (H1 & H2 & H3) (H4 & H5 & H6). split_and!; [congruence| |eauto].
  intros q Hq. by rewrite H5, H2.
Qed.

Lemma keeps_alter f pid mm' s :
  pending_map_zero mm' = pending_map_zero (ms_mm s) ->
  keeps [pid] s (with_maps (alter f pid) (mkMem mm' (ms_maps s))).
Proof. clear.
  intros Hpd. split_and!; [done| |]; intros q; cbn; rewrite lookup_alter; case_decide; subst; try done.
  - set_solver.
  - by rewrite fmap_is_Some.
Qed.
Lemma keeps_put pid pn w s : keeps [pid] s (put pid pn w s).
Proof. clear. destruct s as [mm maps]. by apply (keeps_alter _ pid mm (mkMem mm maps)). Qed.
Lemma put_is_Some pid pn w s q : is_Some (ms_maps s !! q) -> is_Some (ms_maps (put pid pn w s) !! q).
Proof. clear. apply keeps_put. Qed.

(** An address of a page of the process. *)
Definition addressable (pid addr : Z) : Prop :=
  is_u32 addr /\ page_aligned addr = true
  /\ negb (pid =? 1) && (L1_USER_PAGE_TABLE_ENTRIES <=? translation_table_index addr) = false.

(** A slot that an operation reads or writes. *)
Definition slot_of (s : MemState) (pid addr slot : Z) : Prop :=
  slot = page_number addr /\ is_Some (ms_maps s !! pid).

Lemma get_l2_slot_spec pid addr s :
  ends (fun slot s' => s' = s /\ slot_of s pid addr slot) (fun s' => s' = s) (get_l2_slot pid addr s).
Proof.
  unfold get_l2_slot. destruct (negb (page_aligned addr)); [done|].
  destruct (negb (pid =? 1) && _); [done|]. apply ends_bind. unfold mapping_of, st_bind, st_get.
  destruct (ms_maps s !! pid) as [m|] eqn:Em; cbn; [|done].
  destruct (l1 m !! translation_table_index addr) as [[t|]|]; cbn; done.
Qed.

Lemma get_l2_slot_done pid addr s m t :
  addressable pid addr -> ms_maps s !! pid = Some m ->
  l1 m !! translation_table_index addr = Some (L1Page t) ->
  get_l2_slot pid addr s = (s, Done (page_number addr)).
Proof.
  intros (_ & Ha & Hb) Hm Ht. unfold get_l2_slot. rewrite Ha. cbn [negb]. rewrite Hb.
  unfold mapping_of, st_bind, st_get. rewrite Hm. cbn. by rewrite Ht.
Qed.

Lemma read_slot_spec pid slot s :
  is_Some (ms_maps s !! pid) -> read_slot pid slot s = (s, Done (from_u32 (word s pid slot))).
Proof. intros [m Hm]. unfold read_slot, mapping_of, st_bind, st_get, word. by rewrite Hm. Qed.

(** A table holds the entry of page [pn]. *)
Definition present (s : MemState) (pid pn : Z) : Prop :=
  exists m t, ms_maps s !! pid = Some m /\ l1 m !! Z.shiftr pn 8 = Some (L1Page t).
(** The entries in tables are left alone, and so are the tables. *)
Definition same_words (s s' : MemState) : Prop :=
  forall q qn, 0 <= qn < 2 ^ 20 -> present s q qn -> present s' q qn /\ word s' q qn = word s q qn.

#[local] Instance same_words_refl : Reflexive same_words.
Proof. intros s q qn _ H. done. Qed.
#[local] Instance same_words_trans : Transitive same_words.
Proof.
  intros s1 s2 s3 H1 H2 q qn Hr Hp. destruct (H1 q qn Hr Hp) as [Hp2 E2].
  destruct (H2 q qn Hr Hp2) as [Hp3 E3]. split; [done|congruence].
Qed.

Lemma present_put pid pn w s q qn : present s q qn -> present (put pid pn w s) q qn.
Proof. clear.
  intros (m & t & Hm & Ht). unfold present. cbn. rewrite lookup_alter. case_decide; [subst|by exists m, t].
  rewrite Hm. by eexists _, t.
Qed.

Lemma page_number_section virt : Z.shiftr (page_number virt) 8 = translation_table_index virt.
Proof. unfold page_number, translation_table_index. by rewrite Z.shiftr_shiftr by lia. Qed.

Lemma page_number_range virt : is_u32 virt -> 0 <= page_number virt < 2 ^ 20.
Proof.
  unfold is_u32, page_number. rewrite Z.shiftr_div_pow2 by lia. change (2 ^ 12) with 4096.
  change (2 ^ 20) with 1048576. Z.div_mod_to_equations. lia.
Qed.

Lemma section_range virt : is_u32 virt -> 0 <= translation_table_index virt < 4096.
Proof. unfold is_u32. rewrite translation_table_index_eq. Z.div_mod_to_equations. lia. Qed.

(** Adding a group of tables where there is none. *)
Lemma same_words_add_group R s pid m vpn1 phys :
  iso R s -> ms_maps s !! pid = Some m -> 0 <= vpn1 < 4096 -> l1 m !! vpn1 = None ->
  same_words s (with_maps (alter (add_group vpn1 phys) pid) s).
Proof.
  intros Hiso Hm Hv Hnone q qn Hqn (m' & t & Hm' & Ht).
  assert (0 <= Z.shiftr qn 8 < 4096) as Hs.
  { rewrite Z.shiftr_div_pow2 by lia. change (2 ^ 8) with 256. change (2 ^ 20) with 1048576 in Hqn.
    Z.div_mod_to_equations. lia. }
  assert (~ (q = pid /\ group_base (Z.shiftr qn 8) = group_base vpn1)) as Hne.
  { intros [-> Hg]. assert (m' = m) as -> by congruence.
    pose proof (iso_group _ _ Hiso _ _ Hm vpn1 (Z.shiftr qn 8) Hv Hs (eq_sym Hg) Hnone). congruence. }
  split; [|by rewrite word_add_group, decide_False].
  unfold present. cbn. rewrite lookup_alter. case_decide as Hq; [subst q|by exists m', t].
  assert (m' = m) as -> by congruence. rewrite Hm. eexists _, t. split; [done|].
  rewrite add_group_other; [done|done|naive_solver].
Qed.

Lemma allocate_l2_slot_spec R pid virt s :
  iso R s -> is_u32 virt ->
  ends (fun slot s' => step R [pid] s s' /\ slot_of s' pid virt slot
          /\ from_u32 (word s' pid slot) = L2Empty /\ same_words s s' /\ present s' pid slot
          /\ addressable pid virt /\ owners_kept (ms_mm s) (ms_mm s'))
       (fun s' => step R [pid] s s' /\ same_words s s') (allocate_l2_slot pid virt s).
Proof.
  intros Hiso Hv. pose proof (section_range _ Hv) as Hvpn.
  assert (step R [pid] s s /\ same_words s s) as Hrefl by (by split).
  unfold allocate_l2_slot. destruct (page_aligned virt) eqn:Ea; cbn [negb]; [|done].
  destruct (negb (pid =? 1) && _) eqn:Eb; [done|].
  unfold mapping_of, st_bind at 1 2, st_get. destruct (ms_maps s !! pid) as [m|] eqn:Em; cbn [st_unwrap st_ret]; [|done].
  apply ends_bind. eapply (ends_mono (fun _ s' => step R [pid] s s' /\ same_words s s'
    /\ present s' pid (page_number virt) /\ owners_kept (ms_mm s) (ms_mm s')) _ (fun s' => step R [pid] s s' /\ same_words s s')).
  - unfold present. rewrite page_number_section.
    destruct (l1 m !! translation_table_index virt) as [[t|]|] eqn:El; cbn; [|done|].
    { split_and!; [apply Hrefl|apply Hrefl| |by intros i p]. by exists m, t. }
    unfold st_bind, lift_mm. pose proof (iso_alloc_single R s pid Hiso) as H.
    destruct (alloc_single_page pid (ms_mm s)) as [mm' [[phys z]|e|]]; cbn; [|subst mm'; by destruct s|done].
    destruct H as (Hpd & idx & -> & Hi & HR & Hown & Hiso'). set (s1 := mkMem mm' (ms_maps s)) in *.
    split_and!.
    + split; [|by apply keeps_alter]. eapply iso_weaken; [|eapply iso_add_group; [done|done|done|by rewrite lookup_insert_eq]].
      by rewrite delete_insert_id.
    + by eapply (same_words_add_group _ s1).
    + destruct (add_group_present (translation_table_index virt) (page_address idx) m
        (translation_table_index virt)) as (t & Ht); [done..|].
      eexists _, t. split; [|done]. cbn. by rewrite lookup_alter_eq, Em.
    + exact Hown.
  - intros [] s' (Hs' & Hw & Hp & Ho). apply ends_bind. pose proof Hp as (m' & t & Hm' & _).
    rewrite read_slot_spec by eauto. cbn.
    destruct (from_u32 (word s' pid (page_number virt))) eqn:Ee; cbn; done.
  - done.
Qed.

(** Back to fewer reserved pages. *)
Lemma step_weaken R R' P s s' : R ⊆ R' -> step R' P s s' -> step R P s s'.
Proof. clear. intros HR [Hi Hk]. split; [by eapply iso_weaken|done]. Qed.
Lemma step_trans R P s s1 s2 : keeps P s s1 -> step R P s1 s2 -> step R P s s2.
Proof. clear. intros Hk [Hi Hk']. split; [done|by etrans]. Qed.
Lemma keeps_sub P P' s s' : P ⊆ P' -> keeps P s s' -> keeps P' s s'.
Proof. clear. intros HP (H1 & H2 & H3). split_and!; [done| |done]. intros q Hq. apply H2. set_solver. Qed.
Lemma step_sub R P P' s s' : P ⊆ P' -> step R P s s' -> step R P' s s'.
Proof. clear. intros HP [H1 H2]. split; [done|by eapply keeps_sub]. Qed.

Lemma backed_phys flags idx :
  0 <= idx < RAM_PAGES ->
  let phys := if MemoryFlags_is_set flags MF_PLAINTEXT || MemoryFlags_is_set flags MF_NO_CACHE
                 || MemoryFlags_is_set flags MF_DEV
              then to_plaintext_phys_addr (page_address idx) else page_address idx in
  wf_phys phys /\ ram_page phys = Some idx.
Proof.
  intros Hi phys. unfold phys. pose proof Hi as Hi'. rewrite RAM_PAGES_eq in Hi'.
  assert (forall base, base = ENCRYPTED_DRAM_BASE \/ base = PLAINTEXT_DRAM_BASE -> wf_phys (base + idx * PAGE_SIZE)) as Hw.
  { intros base Hb. unfold wf_phys, page_aligned, is_u32, PAGE_SIZE.
    change (4096 - 1) with (2 ^ 12 - 1). rewrite land_ones_mod, Z.mod_add by lia.
    destruct Hb as [->| ->]; split; try done;
      [change ENCRYPTED_DRAM_BASE with 1073741824|change PLAINTEXT_DRAM_BASE with 536870912]; lia. }
  destruct (_ || _).
  - split; [rewrite to_plaintext_page_address by done; apply Hw; by right|by apply ram_page_plaintext].
  - split; [apply Hw; by left|]. rewrite <-(Z.add_0_r (page_address idx)). by apply ram_page_address.
Qed.

(** An unmapped entry that is given the address [phys]. *)
Lemma with_phys_mapped phys u virt e :
  wf_phys phys -> (let+ e := with_phys phys (L2Unmapped u) in to_mapped virt e) = Done e ->
  exists d, e = L2Mapped d /\ slot_page d = ram_page phys.
Proof.
  intros Hp. unfold with_phys. destruct Hp as [Hu Ha] eqn:Ep. rewrite Ha. cbn [negb out_bind].
  intros H. apply to_mapped_page in H as (d & -> & _ & _ & Es). exists d. split; [done|]. rewrite Es. f_equal.
  destruct (wf_phys_split phys Hp) as (p & -> & Hr). rewrite Z.lor_comm.
  change (usize_not (PAGE_SIZE - 1)) with (usize_not 0xfff). apply land_high; [|lia].
  change (PAGE_SIZE - 1) with (2 ^ 12 - 1). rewrite land_ones_mod by lia. apply Z.mod_pos_bound. lia.
Qed.

Lemma allocate_backing_page_spec R pid slot virt u s :
  iso R s -> is_Some (ms_maps s !! pid) ->
  ends (fun _ => step R [pid] s) (step R [pid] s) (allocate_backing_page pid slot virt (L2Unmapped u) s).
Proof.
  intros Hiso Hm. assert (step R [pid] s s) as Hrefl by (by split).
  unfold allocate_backing_page. cbn [entry_flags]. apply ends_bind. cbn [st_outcome ends].
  set (flags := MemoryFlags_from_bits _). destruct (negb (MemoryFlags_is_set flags MF_W)); [done|].
  apply ends_bind. unfold lift_mm. pose proof (iso_alloc_single R s pid Hiso) as H.
  destruct (alloc_single_page pid (ms_mm s)) as [mm' [[phys z]|e|]]; cbn [ends]; [|subst mm'; by destruct s|done].
  destruct H as (Hpd & idx & -> & Hi & HR & Hown & Hiso'). destruct (backed_phys flags idx Hi) as [Hwf Hram].
  match type of Hwf with wf_phys ?p => set (phys := p) in * end. set (s1 := mkMem mm' (ms_maps s)) in *.
  assert (step R [pid] s s1) as Hs1.
  { split; [|by split]. eapply iso_weaken; [|done]. by apply insert_subseteq. }
  apply ends_bind. apply ends_outcome; [|done]. intros e He.
  apply with_phys_mapped in He as (d & -> & Hd); [|done]. rewrite write_slot_put. cbn [ends as_u32].
  split.
  - eapply iso_weaken; [|eapply (iso_attach _ _ _ _ d idx); [done|done|congruence|by rewrite lookup_insert_eq]].
    by rewrite delete_insert_id.
  - etrans; [apply Hs1|apply keeps_put].
Qed.

Lemma source_entry_spec R pid addr s :
  iso R s ->
  ends (fun '(slot, e) s' => step R [pid] s s' /\ slot_of s' pid addr slot /\ e = from_u32 (word s' pid slot))
       (step R [pid] s) (source_entry pid addr s).
Proof.
  intros Hiso. assert (step R [pid] s s) as Hrefl by (by split).
  unfold source_entry. apply ends_bind. eapply ends_mono; [apply get_l2_slot_spec| |by intros ? ->].
  intros slot s' [-> [-> Hm]]. apply ends_bind. rewrite read_slot_spec by done. cbn [ends].
  set (e := from_u32 _). destruct (negb (pid =? 1) && _); [done|].
  destruct (is_on_demand e) eqn:Ed; [|done].
  destruct e as [|d|u] eqn:Ee; try done. apply ends_bind.
  eapply ends_mono; [by eapply allocate_backing_page_spec| |done]. intros [] s1 Hs1.
  assert (is_Some (ms_maps s1 !! pid)) as Hm1 by (by apply Hs1).
  apply ends_bind. rewrite read_slot_spec by done. by cbn.
Qed.

(** ** Pages between two processes *)

Lemma sub_src (src dest : Z) : [src] ⊆ [src; dest]. Proof. set_solver. Qed.
Lemma sub_dest (src dest : Z) : [dest] ⊆ [src; dest]. Proof. set_solver. Qed.
Lemma not_dest (src dest : Z) : src <> dest -> src ∉ [dest]. Proof. set_solver. Qed.
Lemma not_src (src dest : Z) : src <> dest -> dest ∉ [src]. Proof. set_solver. Qed.
#[local] Hint Resolve sub_src sub_dest not_dest not_src : core.

Lemma ram_page_0 : ram_page 0 = None.
Proof. reflexivity. Qed.

(** The page of [slot] leaves [src] for the word [w] of [dest], and its owner with it. *)
Lemma transfer_spec R s src slot dest dslot w0 w phys :
  iso R s -> is_Some (ms_maps s !! src) -> is_Some (ms_maps s !! dest) ->
  slot_page w0 = None -> slot_page w = page_at s src slot -> page_at s src slot = ram_page phys ->
  Z.land phys 0xfff = 0 ->
  ends (fun _ => step R [src; dest] s) (step R [src; dest] s)
    (transfer_owner regions shared_peripherals permitted phys src dest (put dest dslot w (put src slot w0 s))).
Proof.
  intros Hiso Hsrc Hdest Hw0 Hw Hram Hal.
  pose proof (iso_detach R s src slot w0 Hiso Hsrc Hw0) as Hd. set (s1 := put src slot w0 s) in *.
  assert (is_Some (ms_maps s1 !! dest)) as Hdest1 by (by apply put_is_Some).
  assert (keeps [src; dest] s (put dest dslot w s1)) as Hk.
  { etrans; (eapply keeps_sub; [|apply keeps_put]); auto. }
  set (s2 := put dest dslot w s1) in *.
  assert (forall mm', pending_map_zero mm' = pending_map_zero (ms_mm s) ->
    keeps [src; dest] s (mkMem mm' (ms_maps s2))) as Hk'.
  { intros mm' Hpd. destruct Hk as (_ & H1 & H2). by split_and!. }
  unfold transfer_owner. destruct (page_at s src slot) as [i|] eqn:Ei; cbn [reserve] in Hd.
  - assert (R !! i = None) as HRi.
    { destruct (R !! i) eqn:E; [|done]. apply (iso_reserved _ _ Hiso) in E as (_ & _ & Hn). by destruct (Hn src slot). }
    destruct (Z.eqb_spec phys 0) as [->|_]; [by rewrite ram_page_0 in Hram|]. cbn [negb]. unfold lift_mm.
    assert (<[i:=src]> R !! i = Some src) as HRs by (by rewrite lookup_insert_eq).
    destruct (move_reserved _ s1 phys i src dest Hd (eq_sym Hram) HRs Hal) as [mm' E].
    pose proof (iso_owner_op _ s1 phys dest (MoveFrom src) Hd) as H.
    change (ms_mm s2) with (ms_mm s1). rewrite E in *. cbn [ends].
    destruct H as [Hpd Hiso']; [intros j Hj; left; rewrite <-Hram in Hj; injection Hj as <-; eauto|].
    unfold after_owner_op in Hiso'. rewrite <-Hram in Hiso'. split; [|by apply Hk'].
    eapply iso_weaken; [|apply (iso_attach _ (mkMem mm' (ms_maps s1)) dest dslot w i Hiso' Hdest1 Hw)].
    + by rewrite insert_insert_eq, delete_insert_id.
    + by rewrite lookup_insert_eq.
  - assert (step R [src; dest] s s2) as Hs2 by (split; [by apply iso_put_unmapped|done]).
    destruct (Z.eqb_spec phys 0) as [->|_]; [done|]. cbn [negb]. unfold lift_mm.
    pose proof (iso_owner_op R s2 phys dest (MoveFrom src) (proj1 Hs2)) as H.
    destruct (crm phys dest (MoveFrom src) (ms_mm s2)) as [mm' [[]|e|]]; cbn [ends].
    + destruct H as [Hpd Hiso']; [by rewrite <-Hram|]. unfold after_owner_op in Hiso'. rewrite <-Hram in Hiso'.
      split; [done|by apply Hk'].
    + rewrite H by (by rewrite <-Hram). by destruct s2.
    + destruct H. by rewrite <-Hram.
Qed.

(** The page of a word that is read as mapped. *)
Lemma mapped_page_at s pid pn d :
  from_u32 (word s pid pn) = L2Mapped d ->
  exists a, get_addr d = Some a /\ Z.land a 0xfff = 0 /\ page_at s pid pn = ram_page a
    /\ entry_phys (L2Mapped d) = Done a /\ Z.land d 3 <> 0.
Proof.
  intros H. destruct (from_u32_mapped _ _ H) as [Hw H3]. destruct (get_addr_mapped d H3) as (a & Ea & Hal & _).
  exists a. split_and!; [done|done| | |done].
  - unfold page_at, slot_page. rewrite H. cbn. by rewrite Ea.
  - unfold entry_phys. by rewrite Ea.
Qed.

Lemma page_at_keeps P s s' pid pn : keeps P s s' -> pid ∉ P -> word s' pid pn = word s pid pn.
Proof. clear. intros (_ & H & _) HP. unfold word. by rewrite H. Qed.

Lemma unmapped_word_page s pid pn u :
  from_u32 (word s pid pn) = L2Unmapped u -> slot_page (u32 u) = None /\ page_at s pid pn = None.
Proof.
  intros H. split; [|unfold page_at, slot_page; by rewrite H]. apply unmapped_page.
  unfold from_u32 in H. destruct (word s pid pn =? 0); [done|].
  destruct (Z.eqb_spec (Z.land (word s pid pn) 3) 0); [|done]. by injection H as <-.
Qed.

Lemma slot_page_mapped d : Z.land d 3 <> 0 -> slot_page d = entry_page (L2Mapped d).
Proof. intros H. unfold slot_page. by rewrite from_as_mapped. Qed.

Lemma move_page_spec R src src_addr dest dest_addr s :
  iso R s -> src <> dest -> is_u32 dest_addr ->
  ends (fun _ => step R [src; dest] s) (step R [src; dest] s)
    (Memory.move_page regions shared_peripherals permitted src src_addr dest dest_addr s).
Proof.
  intros Hiso Hne Haddr. unfold Memory.move_page, Mapping.move_page. apply ends_bind, ends_bind.
  assert (forall P s', P ⊆ [src; dest] -> step R P s s' -> step R [src; dest] s s') as Hsub
    by (intros; by eapply step_sub).
  eapply ends_mono; [by apply source_entry_spec| |intros s'; by apply Hsub].
  intros [slot e] s1 (Hs1 & Hslot & He).
  assert (step R [src; dest] s s1) as Hs1' by (eapply Hsub; [|done]; done).
  apply ends_bind. eapply (ends_mono (fun busy s' => s' = s1 /\ (busy = false ->
    exists a, entry_phys e = Done a /\ Z.land a 0xfff = 0 /\ page_at s1 src slot = ram_page a
      /\ slot_page (as_u32 e) = ram_page a))) ; [| |intros s' H; exact H].
  { destruct e as [|d|u] eqn:Ee; cbn [is_mapped].
    - exact Hs1'.
    - split; [done|]. intros _. destruct (mapped_page_at s1 src slot d (eq_sym He)) as (a & Ea & Hal & Hp & Ep & H3).
      exists a. split_and!; [done..|]. cbn [as_u32]. rewrite slot_page_mapped by done. cbn. by rewrite Ea.
    - apply ends_bind. cbn [entry_phys st_outcome ends]. split; [done|]. intros Hz.
      destruct (unmapped_word_page s1 src slot u (eq_sym He)) as [Hu Hp]. exists 0.
      assert (Z.land u (usize_not (PAGE_SIZE - 1)) = 0) as E0 by lia.
      cbn [entry_phys as_u32]. rewrite E0, ram_page_0. by split_and!. }
  intros [] s1'; [intros [-> _]; exact Hs1'|].
  intros [-> (a & Ea & Hal & Hp & Hw)]; [done|]. apply ends_bind.
  eapply ends_mono; [eapply allocate_l2_slot_spec; [apply Hs1|done]| |].
  2: { intros s2 [Hs2 _]. eapply step_trans; [apply Hs1'|]. by eapply step_sub; [|done]. }
  intros dslot s2 (Hs2 & [_ Hdest] & _).
  assert (keeps [src; dest] s s2) as Hk2.
  { etrans; [apply Hs1'|]. by eapply keeps_sub; [|apply Hs2]. }
  apply ends_bind. rewrite write_slot_put. cbn [ends]. apply ends_bind. rewrite write_slot_put. cbn [ends].
  rewrite Ea. cbn [st_outcome ends].
  assert (page_at s2 src slot = page_at s1 src slot) as Hp2.
  { unfold page_at. f_equal. eapply page_at_keeps; [apply Hs2|auto]. }
  eapply ends_mono; [eapply (transfer_spec R)| |]; try done.
  - apply Hs2.
  - apply Hs2, Hslot.
  - congruence.
  - congruence.
  - intros [] s3 Hs3. by eapply step_trans.
  - intros s3 Hs3. by eapply step_trans.
Qed.

(** The page that is returned must be mapped at the process that returns it. *)
Definition mapped_at (s : MemState) (pid addr : Z) : Prop :=
  is_mapped (from_u32 (word s pid (page_number addr))) = true.
Definition mapped_page (s : MemState) (pid addr : Z) : Prop :=
  is_u32 addr /\ present s pid (page_number addr) /\ mapped_at s pid addr.
Definition kept_mapped (pid : Z) (s s' : MemState) : Prop :=
  forall addr, mapped_page s pid addr -> mapped_page s' pid addr.

Lemma mapped_page_maps s s' pid addr :
  ms_maps s' = ms_maps s -> mapped_page s pid addr -> mapped_page s' pid addr.
Proof. intros E. unfold mapped_page, mapped_at, present, word. by rewrite E. Qed.
Lemma kept_trans pid s1 s2 s3 : kept_mapped pid s1 s2 -> kept_mapped pid s2 s3 -> kept_mapped pid s1 s3.
Proof. unfold kept_mapped. eauto. Qed.
Lemma kept_keeps P pid s s' : keeps P s s' -> pid ∉ P -> kept_mapped pid s s'.
Proof.
  intros (_ & H & _) HP addr. unfold mapped_page, mapped_at, present, word. by rewrite (H pid HP).
Qed.
Lemma kept_same pid s s' : same_words s s' -> kept_mapped pid s s'.
Proof.
  intros H addr (Ha & Hp & Hm). destruct (H pid (page_number addr)) as [Hp' Hw]; [by apply page_number_range|done|].
  split_and!; [done|done|]. unfold mapped_at. by rewrite Hw.
Qed.
Lemma transfer_owner_maps phys src dest s :
  ms_maps (transfer_owner regions shared_peripherals permitted phys src dest s).1 = ms_maps s.
Proof.
  unfold transfer_owner. destruct (negb _); [|done]. unfold lift_mm. by destruct (crm _ _ _ _) as [? []].
Qed.

Lemma lend_page_spec R src src_addr dest dest_addr mutable s :
  iso R s -> src <> dest -> is_u32 dest_addr ->
  ends (fun _ s' => step R [src; dest] s s' /\ kept_mapped dest s s' /\ mapped_page s' dest dest_addr)
       (fun s' => step R [src; dest] s s' /\ kept_mapped dest s s')
    (Memory.lend_page regions shared_peripherals permitted src src_addr dest dest_addr mutable s).
Proof.
  intros Hiso Hne Haddr. unfold Memory.lend_page, Mapping.lend_page. apply ends_bind, ends_bind.
  eapply ends_mono; [by apply source_entry_spec| |].
  2: { intros s1 Hs1. split; [by eapply step_sub; [|done]|]. eapply kept_keeps; [apply Hs1|auto]. }
  intros [slot e] s1 (Hs1 & Hslot & He).
  assert (kept_mapped dest s s1) as Hkd1 by (eapply kept_keeps; [apply Hs1|auto]).
  assert (step R [src; dest] s s1) as Hs1' by (by eapply step_sub; [|done]).
  destruct e as [|d|u] eqn:Ee; cbn [is_mapped negb]; try done.
  destruct (mapped_page_at s1 src slot d (eq_sym He)) as (a & Ea & Hal & Hp & Ep & H3).
  apply ends_bind. eapply ends_mono; [eapply allocate_l2_slot_spec; [apply Hs1|done]| |].
  2: { intros s2 [Hs2 Hsame]. split; [|by eapply kept_trans; [|apply kept_same]].
       eapply step_trans; [apply Hs1'|]. by eapply step_sub; [|done]. }
  intros dslot s2 (Hs2 & [-> Hdest] & Hempty & Hsame & Hpres & Haddr' & _).
  assert (kept_mapped dest s s2) as Hkd2 by (by eapply kept_trans; [|apply kept_same]).
  set (dslot := page_number dest_addr) in *.
  assert (step R [src; dest] s s2) as Hs2'.
  { eapply step_trans; [apply Hs1'|]. by eapply step_sub; [|done]. }
  apply ends_bind. apply ends_outcome; [|done]. intros shared Hsh. apply to_unmapped_page in Hsh.
  apply ends_bind. rewrite write_slot_put. cbn [ends].
  assert (page_at s2 src slot = ram_page a) as Hp2.
  { rewrite <-Hp. unfold page_at. f_equal. eapply page_at_keeps; [apply Hs2|auto]. }
  assert (exists k, (slot_page k = ram_page a /\ Z.land k 3 <> 0) /\ (if mutable then st_ret (L2Mapped d)
      else st_outcome (to_immutable (L2Mapped d))) = (fun s : MemState => (s, Done (L2Mapped k)))) as (k & [Hk Hk3] & Ek).
  { destruct mutable.
    - exists d. split; [|done]. split; [|done]. rewrite slot_page_mapped by done. cbn. by rewrite Ea.
    - destruct (to_immutable_page d (L2Mapped (Z.lor d SP_AP2)) H3 eq_refl) as (Ei & k & [= <-] & Hk).
      eexists. split; [split; [|exact Hk]|reflexivity]. rewrite slot_page_mapped, Ei by done. cbn. by rewrite Ea. }
  apply ends_bind. rewrite Ek. cbn [ends]. apply ends_bind. rewrite write_slot_put. cbn [ends as_u32].
  rewrite Ep. cbn [st_outcome ends].
  set (s3 := put dest dslot k (put src slot (as_u32 shared) s2)).
  assert (kept_mapped dest s s3 /\ mapped_page s3 dest dest_addr) as [Hkd3 Hm3].
  { assert (is_Some (ms_maps (put src slot (as_u32 shared) s2) !! dest)) as Hdest' by (by apply put_is_Some).
    assert (forall q, q <> src -> forall qn, word (put src slot (as_u32 shared) s2) q qn = word s2 q qn) as Hw.
    { intros q Hq qn. rewrite word_put by (apply Hs2, Hslot). by rewrite decide_False by naive_solver. }
    split.
    - eapply kept_trans; [exact Hkd2|]. intros x (Hx & Hpx & Hm). split_and!; [done|by do 2 apply present_put|].
      unfold s3, mapped_at. rewrite word_put by done. rewrite Hw by done. case_decide as Hd; [|done].
      destruct Hd as [_ Hd]. unfold mapped_at in Hm. rewrite Hd, Hempty in Hm. done.
    - split_and!; [done|by do 2 apply present_put|]. unfold s3, mapped_at. rewrite word_put by done.
      rewrite decide_True by done. by rewrite from_as_mapped. }
  assert (forall s4, ms_maps s4 = ms_maps s3 -> kept_mapped dest s s4 /\ mapped_page s4 dest dest_addr) as Hmaps.
  { intros s4 E4. split.
    - intros x Hx. eapply mapped_page_maps; [exact E4|by apply Hkd3].
    - by eapply mapped_page_maps. }
  pose proof (transfer_owner_maps a src dest s3) as Htm.
  assert (ends (fun _ => step R [src; dest] s2) (step R [src; dest] s2)
    (transfer_owner regions shared_peripherals permitted a src dest s3)) as Ht.
  { eapply (transfer_spec R); try done; [apply Hs2|apply Hs2, Hslot|congruence]. }
  unfold ends in *. destruct (transfer_owner _ _ _ a src dest s3) as [s4 r]. cbn in Htm.
  destruct (Hmaps s4 Htm) as [? ?].
  destruct r as [[]|err|]; (split; [by eapply step_trans; [apply Hs2'|]|done]).
Qed.

Lemma unlend_page_spec R src src_addr dest dest_addr s :
  iso R s -> mapped_at s src src_addr ->
  ends (fun _ => step R [src; dest] s) (step R [src; dest] s)
    (unlend_page regions shared_peripherals permitted src src_addr dest dest_addr s).
Proof.
  intros Hiso Hmapped. assert (step R [src; dest] s s) as Hrefl by (by split).
  unfold unlend_page, return_page. apply ends_bind, ends_bind.
  eapply ends_mono; [apply get_l2_slot_spec| |by intros ? ->]. intros slot s' [-> [-> Hsrc]].
  apply ends_bind. eapply ends_mono; [apply get_l2_slot_spec| |by intros ? ->]. intros dslot s' [-> [-> Hdest]].
  apply ends_bind. rewrite read_slot_spec by done. apply ends_bind. rewrite read_slot_spec by done. cbn [ends].
  unfold mapped_at in Hmapped. set (slot := page_number src_addr) in *. set (dslot := page_number dest_addr).
  destruct (from_u32 (word s src slot)) as [|d|u] eqn:Es; try done.
  destruct (mapped_page_at s src slot d Es) as (a & Ea & Hal & Hp & Ep & H3). rewrite Ep.
  apply ends_bind. cbn [st_outcome ends]. apply ends_bind. apply ends_outcome; [|done].
  intros b Hb. destruct (Z.eqb_spec a b) as [<-|]; cbn [negb]; [|done].
  apply ends_bind. rewrite write_slot_put. cbn [ends as_u32]. apply ends_bind.
  set (s1 := put src slot 0 s).
  assert (step R [src; dest] s s1) as Hs1.
  { split; [|eapply keeps_sub; [|apply keeps_put]; auto].
    apply (iso_put_unmapped R s src slot 0 Hiso Hsrc). reflexivity. }
  apply ends_outcome; [|done]. intros e He.
  assert (exists k, e = L2Mapped k /\ slot_page k = ram_page a) as (k & -> & Hk).
  { destruct (from_u32 (word s dest dslot)) as [|d'|u] eqn:Ed; [done| |].
    - injection He as <-. exists d'. split; [done|]. destruct (mapped_page_at s dest dslot d' Ed) as (b & Eb & _ & _ & Epb & H3').
      rewrite slot_page_mapped by done. cbn. rewrite Eb. rewrite Epb in Hb. by injection Hb as <-.
    - apply to_mapped_page in He as (k & -> & _ & _ & Hk). exists k. split; [done|]. rewrite Hk.
      cbn [entry_phys] in Hb. by injection Hb as <-. }
  apply ends_bind. rewrite write_slot_put. cbn [ends as_u32]. rewrite Hb. cbn [st_outcome ends].
  eapply (transfer_spec R); try done. congruence.
Qed.

(** ** Mapping and unmapping *)

Lemma ensure_backed_spec R pid virt s :
  iso R s -> ends (fun _ => step R [pid] s) (step R [pid] s) (ensure_backed pid virt s).
Proof.
  intros Hiso. assert (step R [pid] s s) as Hrefl by (by split).
  unfold ensure_backed. apply ends_bind. eapply ends_mono; [apply get_l2_slot_spec| |by intros ? ->].
  intros slot s' [-> [-> Hm]]. apply ends_bind. rewrite read_slot_spec by done. cbn [ends].
  destruct (from_u32 _) as [|d|u]; cbn [is_mapped is_empty is_on_demand]; try done.
  destruct (negb _); [done|]. by apply allocate_backing_page_spec.
Qed.

Lemma clear_shared_spec R pid addr mode s :
  iso R s -> ends (fun _ => step R [pid] s) (step R [pid] s) (clear_shared pid addr mode s).
Proof.
  intros Hiso. assert (step R [pid] s s) as Hrefl by (by split).
  unfold clear_shared. apply ends_bind. eapply ends_mono; [apply get_l2_slot_spec| |by intros ? ->].
  intros slot s' [-> [-> Hm]]. apply ends_bind. rewrite read_slot_spec by done. cbn [ends].
  destruct (from_u32 _) as [|d|u] eqn:Eu; cbn [is_shared negb]; try done.
  destruct (negb _); [done|]. destruct (unmapped_word_page s pid (page_number addr) u Eu) as [Hu _].
  assert (forall w, slot_page w = None -> step R [pid] s (put pid (page_number addr) w s)) as Hput.
  { intros w Hw. split; [by apply iso_put_unmapped|apply keeps_put]. }
  destruct mode; [|by apply Hput].
  apply ends_bind. apply ends_outcome; [|done]. unfold with_phys. cbn. intros e [= <-].
  apply Hput. cbn [as_u32]. apply unmapped_page. rewrite Z.land_lor_distr_l. rewrite <-Z.land_assoc.
  change (Z.land (PAGE_SIZE - 1) 3) with 3. rewrite Z.lor_0_r.
  unfold from_u32 in Eu. destruct (word s pid (page_number addr) =? 0); [done|].
  destruct (Z.eqb_spec (Z.land (word s pid (page_number addr)) 3) 0); [|done]. by injection Eu as <-.
Qed.

Definition mapped_ram (s : MemState) (pid addr i : Z) : Prop :=
  addressable pid addr /\ present s pid (page_number addr) /\ page_at s pid (page_number addr) = Some i.

(** Unmapping a page empties its slot or does nothing, and does not fail on a mapped page of
    the RAM. *)
Lemma unmap_page_cases pid virt s :
  (unmap_page pid virt s = (put pid (page_number virt) 0 s, Done tt) /\ is_Some (ms_maps s !! pid))
  \/ ((exists e, unmap_page pid virt s = (s, Fail e)) \/ unmap_page pid virt s = (s, Panic))
     /\ forall i, ~ mapped_ram s pid virt i.
Proof.
  destruct (unmap_page pid virt s) as [s' r] eqn:E. revert E. unfold unmap_page.
  unfold st_bind at 1. pose proof (get_l2_slot_spec pid virt s) as Hg.
  destruct (get_l2_slot pid virt s) as [s1 [slot|e|]] eqn:Eg; cbn [ends] in Hg.
  - destruct Hg as [-> [-> Hm]]. unfold st_bind. rewrite read_slot_spec by done.
    destruct (is_empty _ || is_shared _) eqn:Ee; cbn.
    + intros [= <- <-]. right. split; [left; eauto|]. intros i (_ & _ & Hp). unfold page_at, slot_page in Hp.
      by destruct (from_u32 _).
    + intros [= <- <-]. by left.
  - subst s1. intros [= <- <-]. right. split; [left; eauto|]. intros i (Ha & (m & t & Hm & Ht) & _).
    rewrite page_number_section in Ht. rewrite (get_l2_slot_done pid virt s m t) in Eg; done.
  - subst s1. intros [= <- <-]. right. split; [by right|]. intros i (Ha & (m & t & Hm & Ht) & _).
    rewrite page_number_section in Ht. rewrite (get_l2_slot_done pid virt s m t) in Eg; done.
Qed.

(** A page that is reserved for [pid] or mapped by it at [addr]. *)
Definition held (R : gmap Z Z) (s : MemState) (pid addr i : Z) : Prop :=
  R !! i = Some pid \/ mapped_ram s pid addr i.

Lemma reserve_sub R s pid pn : iso R s -> R ⊆ reserve (page_at s pid pn) pid R.
Proof.
  intros Hiso. destruct (page_at s pid pn) as [i|] eqn:E; [|done]. apply insert_subseteq.
  destruct (R !! i) eqn:ER; [|done]. apply (iso_reserved _ _ Hiso) in ER as (_ & _ & Hn). by destruct (Hn pid pn).
Qed.

Lemma unmap_page_spec R pid virt s :
  iso R s ->
  exists R', R ⊆ R' /\ step R' [pid] s (unmap_page pid virt s).1
    /\ (forall addr i, held R s pid addr i -> held R' (unmap_page pid virt s).1 pid addr i)
    /\ (forall i, held R s pid virt i -> R' !! i = Some pid).
Proof.
  intros Hiso.
  destruct (unmap_page_cases pid virt s) as [[E Hm]|[E Hn]].
  - rewrite E; cbn [fst]. exists (reserve (page_at s pid (page_number virt)) pid R).
    assert (R ⊆ reserve (page_at s pid (page_number virt)) pid R) as Hsub by (by apply reserve_sub).
    split_and!; [done| | |].
    + split; [by apply iso_detach|apply keeps_put].
    + intros addr i [HR|(Ha & Hp & Hpg)]; [left; by eapply lookup_weaken|].
      destruct (decide (page_number addr = page_number virt)) as [En|En].
      * left. rewrite <-En, Hpg. cbn. by rewrite lookup_insert_eq.
      * right. split_and!; [done|by apply present_put|]. rewrite page_at_put, decide_False by (done || naive_solver). done.
    + intros i [HR|(_ & _ & Hpg)]; [by eapply lookup_weaken|]. rewrite Hpg. cbn. by rewrite lookup_insert_eq.
  - assert ((unmap_page pid virt s).1 = s) as -> by (by destruct E as [[? ->]| ->]).
    exists R. split_and!; try done. intros i [HR|Hp]; [done|]. by destruct (Hn i).
Qed.

Lemma unmap_pages_spec R pid virts s :
  iso R s ->
  ends (fun _ s' => exists R', R ⊆ R' /\ step R' [pid] s s'
          /\ forall virt i, virt ∈ virts -> held R s pid virt i -> R' !! i = Some pid)
       (step R [pid] s) (unmap_pages pid virts s).
Proof.
  revert R s. induction virts as [|virt virts IH]; intros R s Hiso; cbn [unmap_pages].
  { exists R. split_and!; [done|by split|]. intros virt i Hv. by apply not_elem_of_nil in Hv. }
  destruct (unmap_page_spec R pid virt s Hiso) as (R1 & Hsub & Hs1 & Hheld & Hv).
  apply ends_bind. unfold st_try. destruct (unmap_page pid virt s) as [s1 r] eqn:E. cbn [fst] in *.
  assert (ends (fun _ s' => exists R', R ⊆ R' /\ step R' [pid] s s'
      /\ forall virt' i, virt' ∈ virt :: virts -> held R s pid virt' i -> R' !! i = Some pid)
    (step R [pid] s) (unmap_pages pid virts s1)) as Hrest.
  { eapply ends_mono; [apply (IH R1 s1), Hs1| |].
    - intros [] s' (R' & Hsub' & Hs' & Hv'). exists R'. split_and!; [by etrans|eapply step_trans; [apply Hs1|done]|].
      intros virt' i [->|Hin]%elem_of_cons Hh; [|by eauto].
      eapply lookup_weaken; [by apply Hv|done].
    - intros s' Hs'. eapply step_weaken; [done|]. eapply step_trans; [apply Hs1|done]. }
  destruct r as [a|e|]; cbn [ends]; [done|done|]. by eapply step_weaken.
Qed.

(** Releasing reserved pages. *)
Lemma release_pages_spec R pages pid s :
  iso R s ->
  (forall a i, a ∈ pages -> ram_page a = Some i -> R !! i = Some pid \/ allocations (ms_mm s) !! i = None) ->
  exists R' mm', lift_mm (release_pages regions shared_peripherals permitted pages pid) s
      = (mkMem mm' (ms_maps s), Done tt)
    /\ iso R' (mkMem mm' (ms_maps s)) /\ pending_map_zero mm' = pending_map_zero (ms_mm s)
    /\ (forall i p, R !! i = Some p -> (forall a, a ∈ pages -> ram_page a <> Some i) -> R' !! i = Some p).
Proof.
  revert R s. induction pages as [|a pages IH]; intros R s Hiso Hp.
  { exists R, (ms_mm s). cbn. destruct s. by split_and!. }
  cbn [release_pages]. unfold lift_mm, st_bind, st_try.
  pose proof (iso_owner_op R s a pid Release Hiso) as H.
  assert (forall i, ram_page a = Some i -> is_Some (R !! i) \/ allocations (ms_mm s) !! i = None) as Hpre.
  { intros i Hi. destruct (Hp a i) as [?|?]; [apply elem_of_cons; by left|done|left; eauto|by right]. }
  specialize (H Hpre). unfold release_page.
  assert (exists R1 mm1, iso R1 (mkMem mm1 (ms_maps s)) /\ pending_map_zero mm1 = pending_map_zero (ms_mm s)
    /\ (crm a pid Release (ms_mm s) = (mm1, Done tt) \/ exists e, crm a pid Release (ms_mm s) = (mm1, Fail e))
    /\ (forall i p, R !! i = Some p -> ram_page a <> Some i -> R1 !! i = Some p)
    /\ (forall b i, b ∈ pages -> ram_page b = Some i -> R1 !! i = Some pid \/ allocations mm1 !! i = None))
    as (R1 & mm1 & Hiso1 & Hpd1 & Hr & HR1 & Hp1).
  { pose proof (claim_release_move_spec _ shared_peripherals permitted Hregions a pid Release _ (iso_mm _ _ Hiso)) as Hc.
    destruct (crm a pid Release (ms_mm s)) as [mm1 [[]|e|]]; [|subst mm1|done].
    - destruct H as [Hpd Hiso1]. eexists _, mm1. split; [exact Hiso1|]. split; [done|]. split; [by left|].
      unfold after_owner_op. split.
      + intros i p Hi Hne. destruct (ram_page a) as [j|]; [|done]. rewrite lookup_delete_ne; [done|congruence].
      + intros b i Hb Hi. destruct (Hp b i) as [HR|Hn]; [by apply elem_of_cons; right|done| |].
        * destruct (ram_page a) as [j|] eqn:Ej; [|by left]. destruct (decide (j = i)) as [->|].
          -- right. destruct Hc as (_ & [(Hram & _)|(off & Hoff & [_ Hch] & _)]).
             { apply ram_page_range in Ej as [? _]. congruence. }
             assert (off = i) as -> by (pose proof (ram_page_offset regions _ _ Ej); congruence). done.
          -- left. by rewrite lookup_delete_ne.
        * destruct Hc as (_ & [(_ & _ & _ & ->)|(off & Hoff & [_ Hch] & Hsame & _)]); [by right|]. right.
          destruct (decide (i = off)) as [->|]; [done|]. by rewrite Hsame.
    - exists R, (ms_mm s). destruct s as [mm maps]; cbn in *. split_and!; eauto.
      intros b i Hb. apply Hp. by apply elem_of_cons; right. }
  destruct (IH R1 (mkMem mm1 (ms_maps s)) Hiso1 Hp1) as (R' & mm' & E & Hiso' & Hpd' & HR').
  unfold lift_mm in E; cbn [ms_mm ms_maps] in *.
  exists R', mm'. split_and!; [|done|congruence|].
  - destruct Hr as [->|[e ->]]; by rewrite E.
  - intros i p Hi Hn. apply HR'; [apply HR1; [done|]|]; [apply Hn|intros b Hb; apply Hn]; apply elem_of_cons; auto.
Qed.

(** Mapping a page that is reserved, or is no page of the RAM, or on demand. *)
Definition unreserve (phys : Z) (R : gmap Z Z) : gmap Z Z :=
  match ram_page phys with Some i => delete i R | None => R end.

Lemma map_page_spec R pid phys virt flags user s :
  iso R s -> is_u32 virt -> is_u32 phys -> wf_flags flags ->
  (forall i, ram_page phys = Some i -> R !! i = Some pid) ->
  ends (fun _ s' => step (unreserve phys R) [pid] s s'
          /\ (forall addr i, ram_page phys <> Some i -> held R s pid addr i ->
                held (unreserve phys R) s' pid addr i)
          /\ (forall i, ram_page phys = Some i -> mapped_ram s' pid virt i))
       (fun s' => step R [pid] s s' /\ (forall addr i, held R s pid addr i -> held R s' pid addr i))
    (map_page pid phys virt flags user s).
Proof.
  intros Hiso Hv Hphys Hf HR. assert (step R [pid] s s) as Hrefl by (by split).
  unfold map_page. destruct (MemoryFlags_is_set _ _); [done|]. apply ends_bind.
  apply ends_outcome; [|done]. intros e He.
  assert (slot_page (as_u32 e) = ram_page phys) as Hw.
  { destruct (Z.eqb_spec phys 0) as [->|Hne]; cbn [negb] in He.
    - rewrite ram_page_0. by eapply new_on_demand_unmapped.
    - destruct (page_aligned phys) eqn:Ea; [|by unfold new_mapped in He; rewrite Ea in He].
      destruct (new_mapped_page virt phys flags user (conj Hphys Ea) Hf) as (d & E & _ & Hs & _).
      rewrite E in He. by injection He as <-. }
  assert (forall s1 addr i, same_words s s1 -> mapped_ram s pid addr i ->
    mapped_ram s1 pid addr i /\ word s1 pid (page_number addr) = word s pid (page_number addr)) as Hkeep.
  { intros s1 addr i Hsame (Ha & Hp & Hpg).
    destruct (Hsame pid (page_number addr)) as [Hp1 E]; [by apply page_number_range, Ha|done|].
    split; [|done]. split_and!; [done|done|]. unfold page_at. by rewrite E. }
  apply ends_bind. eapply ends_mono; [by eapply allocate_l2_slot_spec| |].
  2: { intros s1 [Hs1 Hsame]. split; [done|]. intros addr i [?|Hm]; [by left|right]. by eapply Hkeep. }
  intros slot s1 (Hs1 & [-> Hm1] & Hempty & Hsame & Hpres & Haddr & _). rewrite write_slot_put. cbn [ends].
  assert (step R [pid] s1 (put pid (page_number virt) (as_u32 e) s1) \/ exists i, ram_page phys = Some i) as Hor.
  { destruct (ram_page phys) as [i|] eqn:Ei; [right; eauto|left]. split; [|apply keeps_put].
    apply iso_put_unmapped; [apply Hs1|done|congruence]. }
  split_and!.
  - split; [|etrans; [apply Hs1|apply keeps_put]]. unfold unreserve. destruct (ram_page phys) as [i|] eqn:Ei.
    + eapply iso_attach; [apply Hs1|done|congruence|by apply HR].
    + destruct Hor as [[? _]|[? ?]]; done.
  - intros addr i Hne [Hi|Hm]; [left|right].
    + unfold unreserve. destruct (ram_page phys) as [j|] eqn:Ej; [|done]. rewrite lookup_delete_ne; [done|congruence].
    + destruct (Hkeep s1 addr i Hsame Hm) as [(Ha & Hp & Hpg) Ew]. split_and!; [done|by apply present_put|].
      rewrite page_at_put by done. case_decide as Hd; [|done]. destruct Hd as [_ Hd].
      unfold page_at in Hpg. rewrite Hd in Hpg. unfold slot_page in Hpg. by rewrite Hempty in Hpg.
  - intros i Hi. split_and!; [done|by apply present_put|]. rewrite page_at_put by done.
    rewrite decide_True by done. congruence.
Qed.

(** The loop of [map_allocated_range].  [R] are the pages reserved by others, the pages of the
    range are its own. *)
Lemma map_offsets_spec R0 R pid phys virt size flags user mapped offsets s :
  iso R s -> R0 ⊆ R -> wf_flags flags ->
  NoDup (mapped ++ offsets) ->
  (forall o, o ∈ mapped ++ offsets -> o ∈ pages_of 0 size) ->
  (forall o o' i, o ∈ pages_of 0 size -> o' ∈ pages_of 0 size -> phys <> 0 ->
     ram_page (usize (phys + o)) = Some i -> ram_page (usize (phys + o')) = Some i -> o = o') ->
  (forall o i, o ∈ pages_of 0 size -> phys <> 0 -> ram_page (usize (phys + o)) = Some i -> R0 !! i = None) ->
  (forall a, a ∈ pages_of phys size -> phys <> 0 -> exists o, o ∈ mapped ++ offsets /\ a = usize (phys + o)) ->
  (forall o i, o ∈ offsets -> phys <> 0 -> ram_page (usize (phys + o)) = Some i -> R !! i = Some pid) ->
  (forall o i, o ∈ mapped -> phys <> 0 -> ram_page (usize (phys + o)) = Some i -> held R s pid (usize (virt + o)) i) ->
  ends (fun _ => step R0 [pid] s) (step R0 [pid] s)
    (map_offsets regions shared_peripherals permitted pid phys virt size flags user mapped offsets s).
Proof.
  intros Hiso HR0 Hf. revert R mapped s Hiso HR0.
  induction offsets as [|o offsets IH]; intros R mapped s Hiso HR0 Hnd Hin Hinj Hfresh Hcover Hres Hheld;
    cbn [map_offsets].
  { eapply step_weaken; [done|]. by split. }
  assert (step R0 [pid] s s) as Hrefl by (eapply step_weaken; [done|by split]).
  set (pp := if phys =? 0 then 0 else usize (phys + o)).
  assert (forall i, ram_page pp = Some i -> phys <> 0 /\ ram_page (usize (phys + o)) = Some i) as Hpp.
  { intros i. unfold pp. destruct (Z.eqb_spec phys 0); [by rewrite ram_page_0|done]. }
  assert (o ∈ o :: offsets) as Ho by (apply elem_of_cons; by left).
  assert (o ∈ pages_of 0 size) as Hop by (apply Hin, elem_of_app; by right).
  assert (o ∉ mapped) as Hnm by (apply list.NoDup_app in Hnd as (_ & Hd & _); intros Hm; by eapply Hd).
  assert (o ∉ offsets) as Hno by (apply list.NoDup_app in Hnd as (_ & _ & Hd); by apply list.NoDup_cons in Hd as [? _]).
  apply ends_bind. apply ends_try. eapply ends_mono; [apply (map_page_spec R); try done| |].
  - apply u32_range.
  - unfold pp. destruct (phys =? 0); [vm_compute; intuition congruence|apply u32_range].
  - intros i Hi. apply Hpp in Hi as [? ?]. by eapply Hres.
  - intros [] s1 (Hs1 & Hk & Hm). cbn.
    eapply ends_mono; [apply (IH (unreserve pp R) (mapped ++ [o]) s1)| |].
    + apply Hs1.
    + unfold unreserve. destruct (ram_page pp) as [i|] eqn:Ei; [|done]. destruct (Hpp i eq_refl) as [? ?].
      apply map_subseteq_spec. intros j x Hj. rewrite lookup_delete_ne.
      * by eapply lookup_weaken.
      * intros <-. by erewrite Hfresh in Hj.
    + by rewrite <-app_assoc.
    + intros o'. rewrite <-app_assoc. apply Hin.
    + done.
    + done.
    + intros a Ha Hp. rewrite <-app_assoc. by apply Hcover.
    + intros o' i Ho' Hp Hi. unfold unreserve. destruct (ram_page pp) as [j|] eqn:Ej.
      * clear Ej. destruct (Hpp j eq_refl) as [_ Ej]. rewrite lookup_delete_ne; [eapply Hres; [by apply elem_of_cons; right|done..]|].
        intros ->. assert (o = o') as -> by (eapply Hinj; [done| |done..]; apply Hin, elem_of_app; right; by apply elem_of_cons; right).
        done.
      * eapply Hres; [by apply elem_of_cons; right|done..].
    + intros o' i [Ho'|Ho']%elem_of_app Hp Hi.
      * apply Hk; [|by eapply Hheld]. intros Ei. apply Hpp in Ei as [_ Ei].
        assert (o = o') as -> by (eapply Hinj; [done| |done..]; apply Hin, elem_of_app; by left). done.
      * apply list_elem_of_singleton in Ho' as ->. right. apply Hm. unfold pp.
        by destruct (Z.eqb_spec phys 0).
    + intros [] s2 Hs2. eapply step_trans; [apply Hs1|done].
    + intros s2 Hs2. eapply step_trans; [apply Hs1|done].
  - intros s1 [Hs1 Hk]. split; [|by eapply step_weaken]. intros e. apply ends_bind.
    eapply ends_mono; [apply (unmap_pages_spec R), Hs1| |].
    2: { intros s2 Hs2. eapply step_weaken; [done|]. eapply step_trans; [apply Hs1|done]. }
    intros [] s2 (R2 & Hsub & Hs2 & Hv). apply ends_bind.
    assert (step R0 [pid] s s2) as Hs02.
    { eapply (step_weaken _ R2); [by etrans|]. eapply step_trans; [apply Hs1|done]. }
    unfold release_range. destruct (Z.eqb_spec phys 0) as [->|Hp0]; [by destruct s2|].
    destruct (release_pages_spec R2 (pages_of phys size) pid s2) as (R3 & mm3 & E & Hiso3 & Hpd & HR3).
    + apply Hs2.
    + intros a i Ha Hi. left. destruct (Hcover a Ha Hp0) as (o' & [Hm'|Ho']%elem_of_app & ->).
      * apply (Hv (usize (virt + o'))); [|by apply Hk; eapply Hheld].
        apply list_elem_of_fmap. by exists o'.
      * eapply lookup_weaken; [by eapply Hres|done].
    + rewrite E. cbn. split; [|].
      * eapply iso_weaken; [|exact Hiso3]. apply map_subseteq_spec. intros i p Hi. apply HR3.
        -- eapply lookup_weaken; [done|by etrans].
        -- intros a Ha Hai. destruct (Hcover a Ha Hp0) as (o' & Ho' & ->). apply Hin in Ho'.
           by erewrite Hfresh in Hi.
      * destruct Hs02 as [_ (H1 & H2 & H3)]. split_and!; [cbn; congruence|done|done].
Qed.

(** ** Ranges *)

Lemma elem_of_pages_of a phys size :
  a ∈ pages_of phys size <-> exists k, 0 <= k < (size + PAGE_SIZE - 1) / PAGE_SIZE /\ a = phys + k * PAGE_SIZE.
Proof. clear.
  unfold pages_of. rewrite list_elem_of_fmap. setoid_rewrite elem_of_seqZ.
  split.
  - intros (k & -> & H). exists k. split; [lia|done].
  - intros (k & H & ->). exists k. split; [done|lia].
Qed.

Lemma pages_of_bound k size : 0 <= k < (size + PAGE_SIZE - 1) / PAGE_SIZE -> 0 <= k * PAGE_SIZE < size.
Proof. clear. unfold PAGE_SIZE. intros H. Z.div_mod_to_equations. lia. Qed.

Lemma NoDup_pages_of phys size : NoDup (pages_of phys size).
Proof.
  unfold pages_of. apply NoDup_fmap_2; [|apply NoDup_seqZ]. intros x y H. unfold PAGE_SIZE in H. lia.
Qed.

(** Different addresses of [pages] are different pages of the RAM. *)
Definition distinct_pages (pages : list Z) : Prop :=
  forall a a' i, a ∈ pages -> a' ∈ pages -> ram_page a = Some i -> ram_page a' = Some i -> a = a'.
(** The pages of the RAM among [pages] are reserved for [pid] in [R] and not in [R0]. *)
Definition own_pages (R0 R : gmap Z Z) (pid : Z) (pages : list Z) : Prop :=
  forall a i, a ∈ pages -> ram_page a = Some i -> R !! i = Some pid /\ R0 !! i = None.

Lemma map_allocated_range_spec R0 R pid phys virt size flags user s :
  iso R s -> R0 ⊆ R -> wf_flags flags ->
  (phys <> 0 -> 0 <= phys /\ phys + size <= 2 ^ 32 /\ own_pages R0 R pid (pages_of phys size)
     /\ distinct_pages (pages_of phys size)) ->
  ends (fun _ => step R0 [pid] s) (step R0 [pid] s)
    (map_allocated_range regions shared_peripherals permitted pid phys virt size flags user s).
Proof.
  intros Hiso HR0 Hf Hphys.
  assert (forall o, o ∈ pages_of 0 size -> phys <> 0 ->
    usize (phys + o) = phys + o /\ phys + o ∈ pages_of phys size) as Ho.
  { intros o (k & Hk & ->)%elem_of_pages_of Hp. destruct (Hphys Hp) as (H1 & H2 & _).
    pose proof (pages_of_bound k size Hk). split; [apply usize_id; unfold is_usize; lia|].
    apply elem_of_pages_of. exists k. split; [done|lia]. }
  apply (map_offsets_spec R0 R); try done.
  - apply NoDup_pages_of.
  - intros o o' i Hin Hin' Hp. destruct (Ho o Hin Hp) as [-> H1], (Ho o' Hin' Hp) as [-> H2].
    destruct (Hphys Hp) as (_ & _ & _ & Hd). intros Hi Hi'. pose proof (Hd _ _ i H1 H2 Hi Hi'). lia.
  - intros o i Hin Hp. destruct (Ho o Hin Hp) as [-> H1]. destruct (Hphys Hp) as (_ & _ & Hown & _).
    intros Hi. by apply (Hown _ _ H1 Hi).
  - intros a (k & Hk & ->)%elem_of_pages_of Hp. exists (k * PAGE_SIZE).
    assert (k * PAGE_SIZE ∈ pages_of 0 size) as Hin by (apply elem_of_pages_of; exists k; split; [done|lia]).
    split; [done|]. by destruct (Ho _ Hin Hp) as [-> _].
  - intros o i Hin Hp. destruct (Ho o Hin Hp) as [-> H1]. destruct (Hphys Hp) as (_ & _ & Hown & _).
    intros Hi. by apply (Hown _ _ H1 Hi).
  - intros o i Hn. by apply not_elem_of_nil in Hn.
Qed.

(** The block of pages from [idx], at either of its addresses. *)
Definition block_at (phys idx : Z) : Prop :=
  phys = page_address idx \/ phys = PLAINTEXT_DRAM_BASE + idx * PAGE_SIZE.

Lemma block_ram_page phys idx k :
  block_at phys idx -> 0 <= idx + k < RAM_PAGES -> ram_page (phys + k * PAGE_SIZE) = Some (idx + k).
Proof. clear.
  intros [->| ->] Hk.
  - replace (page_address idx + k * PAGE_SIZE) with (page_address (idx + k) + 0)
      by (unfold page_address, PAGE_SIZE; lia).
    by apply ram_page_address.
  - replace (PLAINTEXT_DRAM_BASE + idx * PAGE_SIZE + k * PAGE_SIZE) with (PLAINTEXT_DRAM_BASE + (idx + k) * PAGE_SIZE) by lia.
    rewrite <-to_plaintext_page_address by done. by apply ram_page_plaintext.
Qed.

Lemma block_pages R0 R pid phys idx size :
  block_at phys idx -> size mod PAGE_SIZE = 0 -> 0 <= idx -> idx + size / PAGE_SIZE <= RAM_PAGES ->
  (forall i, idx <= i < idx + size / PAGE_SIZE -> R !! i = Some pid /\ R0 !! i = None) ->
  0 <= phys /\ (0 <= size -> phys + size <= 2 ^ 32) /\ own_pages R0 R pid (pages_of phys size)
  /\ distinct_pages (pages_of phys size).
Proof. clear.
  intros Hb Hm Hi Hr HR.
  assert (forall a i, a ∈ pages_of phys size -> ram_page a = Some i ->
    exists k, 0 <= k < size / PAGE_SIZE /\ a = phys + k * PAGE_SIZE /\ i = idx + k) as Ha.
  { intros a i (k & Hk & ->)%elem_of_pages_of Hpg.
    assert (0 <= k < size / PAGE_SIZE) as Hk'.
    { unfold PAGE_SIZE in *. Z.div_mod_to_equations. lia. }
    exists k. split_and!; [lia|lia|done|]. rewrite (block_ram_page phys idx k Hb) in Hpg by lia. congruence. }
  split_and!.
  - destruct Hb as [->| ->]; [change (page_address idx) with (1073741824 + idx * 4096)|
      change PLAINTEXT_DRAM_BASE with 536870912; unfold PAGE_SIZE]; lia.
  - intros Hs. rewrite RAM_PAGES_eq in Hr. change (2 ^ 32) with 4294967296.
    destruct Hb as [->| ->]; [change (page_address idx) with (1073741824 + idx * 4096)|
      change PLAINTEXT_DRAM_BASE with 536870912]; unfold PAGE_SIZE in *; Z.div_mod_to_equations; lia.
  - intros a i Hin Hpg. destruct (Ha a i Hin Hpg) as (k & Hk & _ & ->). apply HR. lia.
  - intros a a' i Hin Hin' Hpg Hpg'. destruct (Ha a i Hin Hpg) as (k & _ & -> & ->).
    destruct (Ha a' _ Hin' Hpg') as (k' & _ & -> & ?). assert (k = k') as -> by lia. done.
Qed.

Lemma iso_own_range R s mm' idx n pid zeroed :
  iso R s -> wf_mm mm' -> allocated (ms_mm s) mm' (range_set idx n) pid zeroed ->
  iso (own_range idx n pid R) (mkMem mm' (ms_maps s))
  /\ forall i, idx <= i < idx + n -> R !! i = None.
Proof.
  intros Hiso Hwf Hall. pose proof Hall as (HX & _). split.
  - eapply iso_weaken; [|by eapply iso_allocated]. apply map_subseteq_spec. intros i p.
    rewrite own_range_lookup, lookup_union_Some_raw. case_bool_decide as Hi.
    + intros [= ->]. left. apply lookup_set_to_map; [by intros ?? _ _ [=]|]. exists i.
      split; [by apply elem_of_range_set|done].
    + intros HR. right. split; [|done]. apply eq_None_not_Some.
      intros [x Hx%lookup_set_to_map]; [|by intros ?? _ _ [=]].
      destruct Hx as (j & Hj%elem_of_range_set & [= -> _]). lia.
  - intros i Hi. eapply iso_fresh; [done|]. apply (wf_mm_free _ _ (iso_mm _ _ Hiso)), HX.
    by apply elem_of_range_set.
Qed.

Lemma iso_alloc_range R s n pid flags :
  iso R s -> 0 <= n ->
  match alloc_range n pid flags (ms_mm s) with
  | (mm', Done (phys, _)) => pending_map_zero mm' = pending_map_zero (ms_mm s)
      /\ exists idx, block_at phys idx /\ 0 <= idx /\ idx + n <= RAM_PAGES /\ 0 < n
         /\ iso (own_range idx n pid R) (mkMem mm' (ms_maps s))
         /\ forall i, idx <= i < idx + n -> R !! i = None
  | (mm', Fail _) => mm' = ms_mm s
  | (_, Panic) => False
  end.
Proof.
  intros Hiso Hn. pose proof (iso_mm _ _ Hiso) as Hmm.
  unfold alloc_range, st_bind.
  assert (match (if n =? 1 then alloc_single_page pid else alloc_range_aligned 1 n pid) (ms_mm s) with
    | (mm', Done (phys, z)) => wf_mm mm' /\ exists idx, phys = page_address idx /\ 0 <= idx
        /\ idx + n <= RAM_PAGES /\ 0 < n /\ allocated (ms_mm s) mm' (range_set idx n) pid z
    | (mm', Fail _) => mm' = ms_mm s
    | (_, Panic) => False end) as H.
  { destruct (Z.eqb_spec n 1) as [->|].
    - pose proof (alloc_single_page_spec pid _ Hmm) as H.
      destruct (alloc_single_page pid (ms_mm s)) as [mm' [[phys z]|e|]]; [|by destruct H|done].
      destruct H as (Hwf & idx & -> & Hi & Hall). split; [done|]. exists idx. split_and!; [done|lia..|].
      assert (range_set idx 1 = {[idx]}) as ->; [|done].
      apply set_eq. intros i. rewrite elem_of_range_set, elem_of_singleton. lia.
    - pose proof (alloc_range_aligned_spec 0 n pid _ Hmm ltac:(lia) Hn) as H. change (2 ^ 0) with 1 in H.
      destruct (alloc_range_aligned 1 n pid (ms_mm s)) as [mm' [[phys z]|e|]]; [|by destruct H|done].
      destruct H as (Hwf & idx & -> & (H1 & H2 & _) & H3 & Hall). split; [done|]. exists idx. by split_and!. }
  set (m := if n =? 1 then alloc_single_page pid else alloc_range_aligned 1 n pid) in *.
  destruct (m (ms_mm s)) as [mm' [[phys z]|e|]]; [|done|done].
  destruct H as (Hwf & idx & -> & H1 & H2 & H3 & Hall).
  pose proof Hall as (_ & _ & _ & _ & _ & _ & _ & Hpd & _).
  destruct (iso_own_range R s mm' idx n pid z Hiso Hwf Hall) as [Hi Hnone].
  destruct (_ || _); cbn; (split; [done|]); exists idx; split_and!; try done.
  - right. apply to_plaintext_page_address. lia.
  - by left.
Qed.

(** Claiming a range: all of it, or nothing. *)
Lemma claim_pages_spec R0 R claimed pages pid s :
  iso R s -> R0 ⊆ R -> NoDup (claimed ++ pages) -> own_pages R0 R pid claimed -> distinct_pages claimed ->
  ends (fun _ s' => exists R', R0 ⊆ R' /\ step R' [] s s'
          /\ own_pages R0 R' pid (claimed ++ pages) /\ distinct_pages (claimed ++ pages))
       (step R0 [] s) (lift_mm (claim_pages regions shared_peripherals permitted claimed pages pid) s).
Proof.
  revert R claimed s. induction pages as [|a pages IH]; intros R claimed s Hiso HR0 Hnd Hown Hdist; cbn [claim_pages].
  { rewrite app_nil_r. exists R. destruct s. by split_and!; [|split|..]. }
  unfold lift_mm, st_bind, st_try, claim_page.
  pose proof (iso_owner_op R s a pid Claim Hiso) as H.
  pose proof (claim_release_move_spec _ shared_peripherals permitted Hregions a pid Claim _ (iso_mm _ _ Hiso)) as Hc.
  destruct (crm a pid Claim (ms_mm s)) as [mm1 [[]|e|]] eqn:Ec; [| |done].
  - assert (forall i, ram_page a = Some i -> allocations (ms_mm s) !! i = None) as Hfree.
    { intros i Hi. destruct Hc as (_ & [(Hram & _)|(off & Hoff & [Hch _] & _)]).
      - apply ram_page_range in Hi as [? _]. congruence.
      - assert (off = i) as -> by (pose proof (ram_page_offset regions _ _ Hi); congruence). done. }
    destruct H as [Hpd Hiso1]; [intros i Hi; right; by apply Hfree|]. unfold after_owner_op in Hiso1.
    set (R1 := match ram_page a with Some i => <[i:=pid]> R | None => R end) in *.
    assert (R ⊆ R1) as Hsub1.
    { unfold R1. destruct (ram_page a) as [i|] eqn:Ei; [|done]. apply insert_subseteq.
      eapply iso_fresh; [done|]. by apply Hfree. }
    assert (forall b i, b ∈ claimed -> ram_page b = Some i -> ram_page a <> Some i) as Hne.
    { intros b i Hb Hbi Hai. destruct (Hown b i Hb Hbi) as [HR _].
      apply (iso_reserved _ _ Hiso) in HR as (_ & HR & _). rewrite Hfree in HR by done. done. }
    specialize (IH R1 (claimed ++ [a]) (mkMem mm1 (ms_maps s)) Hiso1). rewrite <-app_assoc in IH.
    unfold lift_mm in IH; cbn [ms_mm ms_maps app] in *.
    eapply ends_mono; [apply IH| |].
    + by etrans.
    + done.
    + intros b i [Hb|Hb%list_elem_of_singleton]%elem_of_app Hi.
      * destruct (Hown b i Hb Hi). split; [by eapply lookup_weaken|done].
      * subst b. unfold R1. rewrite Hi, lookup_insert_eq. split; [done|].
        eapply lookup_weaken_None; [eapply (iso_fresh R s); [done|by apply Hfree]|done].
    + intros b b' i [Hb|Hb%list_elem_of_singleton]%elem_of_app [Hb'|Hb'%list_elem_of_singleton]%elem_of_app Hi Hi'.
      * by eapply Hdist.
      * subst b'. by destruct (Hne b i Hb Hi).
      * subst b. by destruct (Hne b' i Hb' Hi').
      * by subst.
    + intros [] s2 (R2 & H1 & [H2 (H3 & H4 & H5)] & H6 & H7). exists R2. cbn in *. split_and!; try done.
      split; [done|]. split_and!; [congruence|done|done].
    + intros s2 [H2 (H3 & H4 & H5)]. cbn in *. split; [done|]. split_and!; [congruence|done|done].
  - destruct Hc as [-> _]. cbn.
    destruct (release_pages_spec R claimed pid s) as (R' & mm' & E & Hiso' & Hpd & HR').
    { done. } { intros b i Hb Hi. left. by apply (Hown b i Hb Hi). }
    unfold lift_mm in E. destruct (release_pages _ _ _ claimed pid (ms_mm s)) as [mm2 r2].
    injection E as <- ->. cbn. split; [|by split_and!].
    eapply iso_weaken; [|exact Hiso']. apply map_subseteq_spec. intros i p Hi. apply HR'.
    + by eapply lookup_weaken.
    + intros b Hb Hbi. destruct (Hown b i Hb Hbi) as [_ ?]. congruence.
Qed.

Lemma map_range_spec R pid find phys size flags user s :
  iso R s -> wf_flags flags -> size mod PAGE_SIZE = 0 -> 0 < size -> 0 <= phys ->
  ends (fun _ => step R [pid] s) (step R [pid] s)
    (map_range regions shared_peripherals permitted pid find phys size flags user s).
Proof.
  intros Hiso Hf Hm Hsize Hphys. assert (step R [pid] s s) as Hrefl by (by split).
  unfold map_range. apply ends_bind. destruct find as [virt|e]; [|done]. cbn [st_lift st_ret ends].
  apply ends_bind.
  eapply (ends_mono (fun phys s' => exists R', R ⊆ R' /\ step R' [] s s' /\ (phys <> 0 ->
    0 <= phys /\ phys + size <= 2 ^ 32 /\ own_pages R R' pid (pages_of phys size)
    /\ distinct_pages (pages_of phys size))) _ (step R [pid] s)).
  - assert (exists R', R ⊆ R' /\ step R' [] s s) as Htriv by (exists R; by split_and!).
    destruct (MemoryFlags_is_set flags MF_POPULATE).
    + destruct (negb (MemoryFlags_is_set flags MF_W)); [done|]. destruct (Z.eqb_spec phys 0) as [Hz|]; cbn [negb]; [|done].
      unfold st_bind, lift_mm.
      pose proof (iso_alloc_range R s (size / PAGE_SIZE) pid flags Hiso) as H.
      assert (0 <= size / PAGE_SIZE) as Hn by (apply Z.div_pos; [lia|done]). specialize (H Hn).
      destruct (alloc_range _ pid flags (ms_mm s)) as [mm' [[p z]|e|]]; cbn [ends]; [|subst mm'; by destruct s|done].
      destruct H as (Hpd & idx & Hb & H1 & H2 & H3 & Hiso' & Hnone).
      exists (own_range idx (size / PAGE_SIZE) pid R).
      assert (R ⊆ own_range idx (size / PAGE_SIZE) pid R) as Hsub.
      { apply map_subseteq_spec. intros i q Hi. rewrite own_range_lookup. case_bool_decide as Hr; [|done].
        by rewrite Hnone in Hi. }
      split_and!; [done|split; [done|by split_and!]|]. intros _.
      destruct (block_pages R (own_range idx (size / PAGE_SIZE) pid R) pid p idx size) as (G1 & G2 & G3 & G4);
        [done|done|lia|lia| |split_and!; [done|apply G2; lia|done|done]].
      intros i Hi. rewrite own_range_lookup, bool_decide_eq_true_2 by done. split; [done|by apply Hnone].
    + destruct (Z.eqb_spec phys 0) as [->|Hne]; cbn [negb].
      { cbn. destruct Htriv as (R' & ? & ?). exists R'. by split_and!. }
      unfold checked_add. destruct (Z.ltb_spec (phys + size) (2 ^ 32)) as [Hlt|]; [|done].
      apply ends_bind. cbn [ok_or st_lift st_ret ends]. apply ends_bind.
      eapply ends_mono; [apply (claim_pages_spec R R [] (pages_of phys size) pid s)| |].
      * done.
      * done.
      * apply NoDup_pages_of.
      * intros a i Ha. by apply not_elem_of_nil in Ha.
      * intros a a' i Ha. by apply not_elem_of_nil in Ha.
      * intros [] s1 (R' & H1 & H2 & H3 & H4). cbn. exists R'. split_and!; try done. intros _. split_and!; [done|lia|done|done].
      * intros s1 Hs1. eapply step_sub; [|done]. set_solver.
  - intros p s1 (R' & Hsub & Hs1 & Hp).
    assert (keeps [pid] s s1) as Hk by (eapply keeps_sub; [|apply Hs1]; set_solver).
    apply ends_bind. eapply ends_mono; [apply (map_allocated_range_spec R R'); [apply Hs1|done..]| |].
    + intros [] s2 Hs2. assert (step R [pid] s s2) by (by eapply step_trans).
      unfold MemoryRange_new, st_lift. repeat (case_match; try done).
    + intros s2 Hs2. by eapply step_trans.
  - done.
Qed.

Lemma get_l2_slot_maps pid addr s s1 :
  ms_maps s1 = ms_maps s -> (get_l2_slot pid addr s1).2 = (get_l2_slot pid addr s).2.
Proof.
  intros E. unfold get_l2_slot. destruct (negb _); [done|]. destruct (negb _ && _); [done|].
  unfold mapping_of, st_bind, st_get. rewrite E. destruct (ms_maps s !! pid) as [m|]; cbn; [|done].
  by destruct (l1 m !! _) as [[]|].
Qed.

Lemma virt_to_phys_spec pid addr s :
  ends (fun phys s' => s' = s /\ is_Some (ms_maps s !! pid)
          /\ get_l2_slot pid addr s = (s, Done (page_number addr))
          /\ exists d, from_u32 (word s pid (page_number addr)) = L2Mapped d /\ get_addr d = Some phys)
       (fun s' => s' = s) (virt_to_phys pid addr s).
Proof.
  unfold virt_to_phys. apply ends_bind. unfold st_try. pose proof (get_l2_slot_spec pid addr s) as Hg.
  destruct (get_l2_slot pid addr s) as [s1 [slot|e|]]; cbn [ends] in *; [|done|done].
  destruct Hg as [-> [-> Hm]]. apply ends_bind. rewrite read_slot_spec by done. cbn [ends].
  destruct (from_u32 _) as [|d|u] eqn:Ed; cbn [is_mapped is_empty]; [done| |by destruct (is_shared _)].
  destruct (mapped_page_at s pid _ d Ed) as (a & Ea & _ & _ & Ep & _). rewrite Ep. cbn. eauto 6.
Qed.

Lemma unmap_addresses_spec R pid result pages s :
  iso R s ->
  ends (fun _ => step R [pid] s) (step R [pid] s)
    (unmap_addresses regions shared_peripherals permitted pid result pages s).
Proof.
  revert result s. induction pages as [|addr pages IH]; intros result s Hiso; cbn [unmap_addresses].
  { destruct result; by split. }
  assert (step R [pid] s s) as Hrefl by (by split).
  assert (forall s1 r, step R [pid] s s1 -> ends (fun _ => step R [pid] s) (step R [pid] s)
    (unmap_addresses regions shared_peripherals permitted pid r pages s1)) as Hrest.
  { intros s1 r Hs1. eapply ends_mono; [apply IH, Hs1| |]; [intros []|]; intros s2 Hs2;
      (eapply step_trans; [apply Hs1|done]). }
  apply ends_bind, ends_try. eapply ends_mono; [apply virt_to_phys_spec| |].
  - intros phys s' (-> & Hm & Hslot & d & Hd & Ha).
    destruct (mapped_page_at s pid _ d Hd) as (a & Ea & Hal & Hp & _ & _). assert (a = phys) as -> by congruence.
    set (w := page_number addr) in *.
    pose proof (iso_detach R s pid w 0 Hiso Hm eq_refl) as Hd0.
    assert (forall mm1, unmap_page pid addr (mkMem mm1 (ms_maps s))
      = (put pid w 0 (mkMem mm1 (ms_maps s)), Done tt)) as Hun.
    { intros mm1. set (s1 := mkMem mm1 (ms_maps s)). unfold unmap_page, st_bind.
      pose proof (get_l2_slot_maps pid addr s s1 eq_refl) as Hg. pose proof (get_l2_slot_spec pid addr s1) as Hg1.
      rewrite Hslot in Hg. destruct (get_l2_slot pid addr s1) as [s2 r]. cbn in Hg. subst r.
      cbn [ends] in Hg1. destruct Hg1 as [-> _]. rewrite read_slot_spec by done.
      change (word s1 pid) with (word s pid). fold w. by rewrite Hd. }
    assert (exists mm1 r, release_page regions shared_peripherals permitted phys pid (ms_mm s) = (mm1, r)
      /\ r <> Panic /\ step R [pid] s (put pid w 0 (mkMem mm1 (ms_maps s)))) as (mm1 & r & Er & Hr & Hs1).
    { pose proof (iso_owner_op _ (put pid w 0 s) phys pid Release Hd0) as H.
      change (ms_mm (put pid w 0 s)) with (ms_mm s) in H. unfold release_page.
      assert (keeps [pid] s (put pid w 0 s)) as (Hk1 & Hk2 & Hk3) by apply keeps_put.
      destruct (crm phys pid Release (ms_mm s)) as [mm1 r] eqn:Ec. exists mm1, r.
      assert (forall i, ram_page phys = Some i -> is_Some (reserve (page_at s pid w) pid R !! i)
         \/ allocations (ms_mm s) !! i = None) as Hpre.
      { intros i Hi. left. rewrite Hp, Hi. cbn. rewrite lookup_insert_eq. eauto. }
      specialize (H Hpre). split; [done|]. destruct r as [[]|e|]; [| |done]; split; try done.
      - destruct H as [Hpd H]. split; [|by split_and!]. unfold after_owner_op in H. rewrite Hp in H.
        change (mkMem mm1 (ms_maps (put pid w 0 s))) with (put pid w 0 (mkMem mm1 (ms_maps s))) in H.
        destruct (ram_page phys) as [i|] eqn:Ei; [|done]. cbn in H. eapply iso_weaken; [|exact H].
        rewrite delete_insert_eq, delete_id; [done|].
        destruct (R !! i) eqn:ER; [|done]. apply (iso_reserved _ _ Hiso) in ER as (_ & _ & Hn). by destruct (Hn pid w).
      - subst mm1. replace (mkMem (ms_mm s) (ms_maps s)) with s by (by destruct s).
        split; [|by split_and!]. eapply iso_weaken; [|exact Hd0]. by apply reserve_sub. }
    apply ends_bind, ends_bind.
    assert (exists r', st_try (lift_mm (release_page regions shared_peripherals permitted phys pid)) s
      = (mkMem mm1 (ms_maps s), Done r')) as [r' ->].
    { unfold st_try, lift_mm. rewrite Er. destruct r as [[]|e|]; eauto. done. }
    cbn [ends st_ret]. apply ends_bind. unfold st_try. rewrite Hun. cbn [ends]. by apply Hrest.
  - intros s' ->. split; [|done]. intros e. cbn [ends st_ret]. apply ends_bind. cbn [ends st_ret].
    apply ends_bind. unfold st_try. destruct (unmap_page_spec R pid addr s Hiso) as (R' & Hsub & Hs1 & _).
    assert (step R [pid] s (unmap_page pid addr s).1) as Hs1' by (by eapply step_weaken).
    destruct (unmap_page pid addr s) as [s1 [[]|e'|]]; cbn in *; [by apply Hrest..|done].
Qed.

(** ** The operations preserve the invariant *)

(** The pages of the pending job are a block of the RAM. *)
Definition wf_pending (mm : MemoryManager) : Prop :=
  forall job, pending_map_zero mm = Some job ->
    exists idx, block_at (pz_phys job) idx /\ 0 <= idx /\ 0 < pz_size job /\ pz_size job mod PAGE_SIZE = 0
      /\ idx + pz_size job / PAGE_SIZE <= RAM_PAGES /\ wf_flags (pz_flags job).
Definition isolated (s : MemState) : Prop := iso (pending_pages (ms_mm s)) s /\ wf_pending (ms_mm s).

Lemma isolated_step P s s' : isolated s -> step (pending_pages (ms_mm s)) P s s' -> isolated s'.
Proof.
  intros [_ Hp] [Hi (Hk & _)]. unfold isolated, pending_pages, wf_pending in *. by rewrite Hk.
Qed.

Lemma isolated_ends {A} (m : MS A) P s :
  isolated s -> ends (fun _ => step (pending_pages (ms_mm s)) P s) (step (pending_pages (ms_mm s)) P s) (m s) ->
  isolated (m s).1.
Proof. clear.
  intros Hi H. eapply isolated_step; [done|]. destruct (m s) as [s' [a|e|]]; exact H.
Qed.

Lemma pending_pages_block mm job idx :
  pending_map_zero mm = Some job -> block_at (pz_phys job) idx -> 0 <= idx -> 0 < pz_size job ->
  idx + pz_size job / PAGE_SIZE <= RAM_PAGES -> pz_size job mod PAGE_SIZE = 0 ->
  pending_pages mm = own_range idx (pz_size job / PAGE_SIZE) (pz_pid job) ∅.
Proof. clear.
  intros Hj Hb Hi Hs Hr Hm. unfold pending_pages. rewrite Hj.
  pose proof (block_ram_page _ idx 0 Hb) as Hp. rewrite Z.mul_0_l, !Z.add_0_r in Hp. rewrite Hp; [done|].
  assert (0 < pz_size job / PAGE_SIZE); [|lia]. unfold PAGE_SIZE in *. Z.div_mod_to_equations. lia.
Qed.

Lemma iso_set_pending R s p : iso R s -> iso R (with_mm (set_pending p) s).
Proof. clear. intros [Hg H1 H2 H3 H4 H5]. by split. Qed.

Lemma own_range_of R idx n pid i : idx <= i < idx + n -> own_range idx n pid R !! i = Some pid.
Proof. clear. intros Hi. by rewrite own_range_lookup, bool_decide_eq_true_2. Qed.
Lemma own_range_sub R idx n pid : (forall i, idx <= i < idx + n -> R !! i = None) -> R ⊆ own_range idx n pid R.
Proof. clear.
  intros Hn. apply map_subseteq_spec. intros i q Hi. rewrite own_range_lookup. case_bool_decide as Hr; [|done].
  by rewrite Hn in Hi.
Qed.

Lemma block_size size : 0 < size -> size mod PAGE_SIZE = 0 -> 0 < size / PAGE_SIZE.
Proof using. clear. unfold PAGE_SIZE. intros. Z.div_mod_to_equations. lia. Qed.

(** A reserved block is mapped or given back. *)
Lemma map_block_spec R pid phys idx virt size flags user s :
  iso (own_range idx (size / PAGE_SIZE) pid R) s -> wf_flags flags -> 0 < size -> size mod PAGE_SIZE = 0 ->
  block_at phys idx -> 0 <= idx -> idx + size / PAGE_SIZE <= RAM_PAGES ->
  (forall i, idx <= i < idx + size / PAGE_SIZE -> R !! i = None) ->
  ends (fun _ => step R [pid] s) (step R [pid] s)
    (map_allocated_range regions shared_peripherals permitted pid phys virt size flags user s).
Proof.
  intros Hiso Hf Hs Hm Hb Hi Hr Hn. eapply map_allocated_range_spec; [done|by apply own_range_sub|done|].
  intros _. destruct (block_pages R (own_range idx (size / PAGE_SIZE) pid R) pid phys idx size)
    as (G1 & G2 & G3 & G4); [done..| |split_and!; [done|apply G2; lia|done|done]].
  intros i Hr'. split; [by apply own_range_of|by apply Hn].
Qed.

Lemma release_block_spec R pid phys idx size s :
  iso (own_range idx (size / PAGE_SIZE) pid R) s -> 0 < size -> size mod PAGE_SIZE = 0 ->
  block_at phys idx -> 0 <= idx -> idx + size / PAGE_SIZE <= RAM_PAGES ->
  (forall i, idx <= i < idx + size / PAGE_SIZE -> R !! i = None) ->
  exists mm', lift_mm (release_range regions shared_peripherals permitted phys size pid) s
      = (mkMem mm' (ms_maps s), Done tt) /\ step R [] s (mkMem mm' (ms_maps s)).
Proof.
  intros Hiso Hs Hm Hb Hi Hr Hn. set (R1 := own_range _ _ _ R) in *.
  destruct (block_pages R R1 pid phys idx size) as (G1 & _ & G3 & _); [done..| |].
  { intros i Hr'. split; [by apply own_range_of|by apply Hn]. }
  assert ((phys =? 0) = false) as E0.
  { pose proof (block_ram_page phys idx 0 Hb) as Hp. rewrite Z.mul_0_l, !Z.add_0_r in Hp.
    pose proof (block_size size Hs Hm). specialize (Hp ltac:(lia)). destruct (Z.eqb_spec phys 0) as [->|]; [|done].
    by rewrite ram_page_0 in Hp. }
  destruct (release_pages_spec R1 (pages_of phys size) pid s Hiso) as (R' & mm' & E & Hiso' & Hpd & HR').
  { intros a i Ha Hai. left. by apply (G3 a i Ha Hai). }
  exists mm'. unfold release_range. rewrite E0. split; [done|]. split; [|by split_and!].
  eapply iso_weaken; [|done]. apply map_subseteq_spec. intros i p HRi. apply HR'.
  - eapply lookup_weaken; [done|by apply own_range_sub].
  - intros a Ha Hai. destruct (G3 a i Ha Hai) as [_ ?]. congruence.
Qed.

Lemma map_with_deferred_zeroing_spec pid tid find virt size flags s :
  isolated s -> wf_flags flags -> 0 < size -> size mod PAGE_SIZE = 0 ->
  isolated (map_with_deferred_zeroing regions shared_peripherals permitted pid tid find virt size flags s).1.
Proof.
  intros Hi Hf Hs Hm. unfold map_with_deferred_zeroing.
  destruct (negb (MemoryFlags_is_set _ _)); [done|]. destruct (_ <? size); [done|].
  unfold st_bind at 1, st_get. case_bool_decide as Hpend; [done|].
  assert (pending_map_zero (ms_mm s) = None) as Hnone by (by apply eq_None_not_Some).
  destruct Hi as [Hiso Hwf]. set (R := pending_pages (ms_mm s)) in *.
  assert (forall P s', step R P s s' -> isolated s') as Hback by (intros; by eapply isolated_step).
  pose proof (block_size size Hs Hm) as Hn.
  pose proof (iso_alloc_range R s (size / PAGE_SIZE) pid flags Hiso ltac:(lia)) as H.
  unfold st_bind at 1. unfold lift_mm at 1.
  destruct (alloc_range _ pid flags (ms_mm s)) as [mm' [[phys z]|e|]]; [|subst mm'; by destruct s|done].
  destruct H as (Hpd & idx & Hb & H1 & H2 & H3 & Hiso' & Hfree). set (s1 := mkMem mm' (ms_maps s)) in *.
  assert (keeps [] s s1) as Hk by (by split_and!).
  destruct z; cbn [negb].
  - cbn. split.
    + cbn [ms_mm with_mm]. eapply iso_weaken; [|by apply iso_set_pending].
      erewrite pending_pages_block; [|done|exact Hb|done..]. cbn [pz_size pz_pid].
      apply map_subseteq_spec. intros i q. rewrite !own_range_lookup. case_bool_decide; [done|]. by rewrite lookup_empty.
    + intros job [= <-]. exists idx. cbn. by split_and!.
  - destruct (find virt size) as [v|e].
    + pose proof (map_block_spec R pid phys idx v size flags true s1 Hiso' Hf Hs Hm Hb H1 H2 Hfree) as Hmap.
      unfold st_bind at 1. assert (forall s2, step R [pid] s1 s2 -> isolated s2) as Hback'.
      { intros s2 Hs2. apply (Hback [pid]). eapply step_trans; [|exact Hs2]. eapply keeps_sub; [|done]. set_solver. }
      destruct (map_allocated_range _ _ _ _ _ _ _ _ _ s1) as [s2 [[]|e|]]; cbn [ends] in Hmap; [|by apply Hback'..].
      unfold st_bind. destruct (MemoryRange_new v size); cbn; by apply Hback'.
    + destruct (release_block_spec R pid phys idx size s1 Hiso' Hs Hm Hb H1 H2 Hfree) as (mm2 & E & Hs2).
      unfold st_bind. rewrite E. cbn. eapply Hback, step_trans; [exact Hk|exact Hs2].
Qed.

Lemma map_zero_finished_spec find s :
  isolated s -> isolated (map_zero_finished regions shared_peripherals permitted find s).1.
Proof.
  intros [Hiso Hwf]. unfold map_zero_finished. unfold st_bind at 1, st_get.
  destruct (pending_map_zero (ms_mm s)) as [job|] eqn:Ej; [|done].
  destruct (Hwf job Ej) as (idx & Hb & H1 & Hs & Hm & H2 & Hf).
  rewrite (pending_pages_block _ job idx) in Hiso by done.
  unfold st_bind at 1, st_modify. set (s1 := with_mm (set_pending None) s).
  assert (iso (own_range idx (pz_size job / PAGE_SIZE) (pz_pid job) ∅) s1) as Hiso1 by (by apply iso_set_pending).
  assert (forall P s2, step ∅ P s1 s2 -> isolated s2) as Hback.
  { intros P s2 [Hi2 (Hp2 & _)]. unfold isolated, pending_pages, wf_pending.
    change (pending_map_zero (ms_mm s1)) with (@None PendingMapZero) in Hp2. by rewrite Hp2. }
  set (pid := pz_pid job) in *.
  destruct (find pid (pz_virt job) (pz_size job)) as [v|e].
  - assert (ends (fun (_ : unit) => step ∅ [pid] s1) (step ∅ [pid] s1)
      (map_allocated_range regions shared_peripherals permitted pid (pz_phys job) v (pz_size job) (pz_flags job) true s1)) as Hmap
      by (by eapply map_block_spec).
    unfold st_bind, st_try. destruct (map_allocated_range _ _ _ _ _ _ _ _ _ s1) as [s2 [[]|e|]]; cbn in *.
    + destruct (MemoryRange_new _ _); cbn; by eapply Hback.
    + by eapply Hback.
    + by eapply Hback.
  - destruct (release_block_spec ∅ pid (pz_phys job) idx (pz_size job) s1) as (mm2 & E & Hs2); [done..|].
    unfold st_bind. rewrite E. cbn. by eapply Hback.
Qed.

Lemma iso_terminate R s pid mm' :
  iso R s -> (forall i, R !! i <> Some pid) -> wf_mm mm' ->
  (forall i p, p <> pid -> allocations (ms_mm s) !! i = Some p -> allocations mm' !! i = Some p) ->
  iso R (mkMem mm' (delete pid (ms_maps s))).
Proof.
  intros Hiso HR Hwf HA. pose proof (iso_destroy R s pid Hiso) as [Hg H1 H2 H3 H4 H5].
  cbn [ms_mm ms_maps with_maps] in *.
  assert (forall q qn i, page_at (with_maps (delete pid) s) q qn = Some i -> q <> pid) as Hp.
  { intros q qn i H ->. unfold page_at, word in H. cbn in H. by rewrite lookup_delete_eq in H. }
  split; cbn [ms_mm ms_maps]; try done.
  - intros q qn i Hq. apply HA; [by eapply Hp|by eapply H2].
  - intros q m i Hm Ht. destruct (H4 q m i Hm Ht) as (? & ? & ?). split_and!; try done. apply HA; [|done].
    apply lookup_delete_Some in Hm as [? _]. done.
  - intros i q Hi. destruct (H5 i q Hi) as (? & ? & ?). split_and!; [lia|lia| |done]. apply HA; [|done].
    intros ->. by destruct (HR i).
Qed.

Lemma terminate_memory_spec pid s : isolated s -> isolated (terminate_memory regions pid s).1.
Proof.
  intros [Hiso Hwf]. unfold terminate_memory. unfold st_bind at 1, st_get.
  set (s1 := if bool_decide (pz_pid <$> pending_map_zero (ms_mm s) = Some pid) then with_mm (set_pending None) s else s).
  assert ((if bool_decide (pz_pid <$> pending_map_zero (ms_mm s) = Some pid) then cancel_map_zero else st_ret tt) s
    = (s1, Done tt)) as E1 by (unfold s1; by case_bool_decide).
  unfold st_bind at 1. rewrite E1. set (R := pending_pages (ms_mm s1)).
  assert (iso R s1 /\ wf_pending (ms_mm s1) /\ forall i, R !! i <> Some pid) as (Hiso1 & Hwf1 & HR).
  { unfold R, s1. case_bool_decide as Hp.
    - split_and!; [|by intros job|intros i; cbn; by rewrite lookup_empty].
      eapply iso_weaken; [|by apply iso_set_pending]. apply map_empty_subseteq.
    - split_and!; [done|done|]. intros i. unfold pending_pages.
      destruct (pending_map_zero (ms_mm s)) as [job|]; [|by rewrite lookup_empty].
      destruct (ram_page _) as [idx|]; [|by rewrite lookup_empty]. rewrite own_range_lookup.
      case_bool_decide; [|by rewrite lookup_empty]. cbn in Hp. congruence. }
  destruct (release_all_spec regions pid (ms_mm s1) (iso_mm _ _ Hiso1)) as (mm' & E & Hwf' & _ & Hpd & HA).
  unfold st_bind, lift_mm. rewrite E. cbn. unfold isolated, pending_pages, wf_pending. cbn [ms_mm with_maps].
  rewrite Hpd. split; [|done]. apply (iso_terminate R s1 pid mm'); try done.
  intros i p Hne Hi. rewrite HA, bool_decide_eq_false_2; [done|]. rewrite Hi. naive_solver.
Qed.

Lemma allocate_mapping_spec pid s : isolated s -> isolated (allocate_mapping pid s).1.
Proof.
  intros [Hiso Hwf]. unfold allocate_mapping. unfold st_bind at 1, st_get. case_bool_decide as Hm; [done|].
  assert (ms_maps s !! pid = None) as Hm' by (by apply eq_None_not_Some).
  unfold st_bind, lift_mm. set (n := L1_USER_PAGE_TABLE_PAGES).
  pose proof (alloc_range_aligned_spec 2 n pid _ (iso_mm _ _ Hiso) ltac:(lia) ltac:(done)) as H.
  change (2 ^ 2) with 4 in H.
  destruct (alloc_range_aligned 4 n pid (ms_mm s)) as [mm' [[phys z]|e|]]; [|destruct H as [-> _]; by destruct s|done].
  destruct H as (Hwf' & idx & -> & _ & _ & Hall). pose proof Hall as (_ & _ & _ & _ & _ & _ & _ & Hpd & _).
  destruct (iso_own_range _ s mm' idx n pid z Hiso Hwf' Hall) as [Hi Hnone].
  set (R := pending_pages (ms_mm s)) in *. cbn. unfold isolated, pending_pages, wf_pending. cbn [ms_mm with_maps].
  rewrite Hpd. split; [|done]. eapply iso_weaken; [|apply (iso_new_mapping _ (mkMem mm' (ms_maps s)) pid idx Hi Hm')].
  - apply map_subseteq_spec. intros i p HRi. change (R !! i = Some p) in HRi. apply map_lookup_filter_Some.
    assert (~ (idx <= i < idx + n)) as Hout by (intros Hr; by rewrite (Hnone i Hr) in HRi).
    split; [|done]. by rewrite own_range_lookup, bool_decide_eq_false_2.
  - intros i Hr. by apply own_range_of.
Qed.

(** ** Transfers of a range *)

(** Returning a page changes one entry of each process. *)
Lemma unlend_page_kept src src_addr dest dest_addr s :
  src <> dest ->
  let P s' := forall addr, page_number addr <> page_number src_addr ->
    mapped_page s src addr -> mapped_page s' src addr in
  ends (fun _ => P) P (unlend_page regions shared_peripherals permitted src src_addr dest dest_addr s).
Proof.
  intros Hne P. assert (P s) as Hrefl by (by intros addr _).
  unfold unlend_page, return_page. apply ends_bind, ends_bind.
  eapply ends_mono; [apply get_l2_slot_spec| |by intros ? ->]. intros slot s' [-> [-> Hsrc]].
  apply ends_bind. eapply ends_mono; [apply get_l2_slot_spec| |by intros ? ->]. intros dslot s' [-> [-> Hdest]].
  apply ends_bind. rewrite read_slot_spec by done. apply ends_bind. rewrite read_slot_spec by done. cbn [ends].
  apply ends_bind. apply ends_outcome; [|done]. intros a _. apply ends_bind. apply ends_outcome; [|done]. intros b Hb.
  destruct (negb _); [done|].
  set (slot := page_number src_addr) in *. set (dslot := page_number dest_addr) in *.
  apply ends_bind. rewrite write_slot_put. cbn [ends as_u32]. apply ends_bind.
  assert (P (put src slot 0 s)) as H1.
  { intros addr Hpn (Ha & Hp & Hm). split_and!; [done|by apply present_put|]. unfold mapped_at.
    rewrite word_put by done. rewrite decide_False; [done|naive_solver]. }
  apply ends_outcome; [|done]. intros e _. apply ends_bind. rewrite write_slot_put. cbn [ends].
  rewrite Hb. cbn [st_outcome ends].
  set (s2 := put dest dslot (as_u32 e) (put src slot 0 s)).
  assert (P s2) as H2.
  { intros addr Hpn Hma. destruct (H1 addr Hpn Hma) as (Ha & Hp & Hm). split_and!; [done|by apply present_put|].
    unfold s2, mapped_at. rewrite word_put by (by apply put_is_Some). rewrite decide_False; [done|naive_solver]. }
  pose proof (transfer_owner_maps b src dest s2) as Hmaps.
  destruct (transfer_owner _ _ _ b src dest s2) as [s3 r]. cbn in Hmaps.
  assert (P s3) by (intros addr Hpn Hma; apply (mapped_page_maps s2); [exact Hmaps|by apply H2]).
  by destruct r.
Qed.

Lemma pages_of_distinct virt len o o' :
  o ∈ pages_of 0 len -> o' ∈ pages_of 0 len -> len <= 2 ^ 32 ->
  page_number (usize (virt + o)) = page_number (usize (virt + o')) -> o = o'.
Proof.
  intros (k & Hk & ->)%elem_of_pages_of (k' & Hk' & ->)%elem_of_pages_of Hlen.
  pose proof (pages_of_bound k len Hk). pose proof (pages_of_bound k' len Hk').
  unfold page_number, usize, u32. rewrite !Z.shiftr_div_pow2 by lia.
  change (2 ^ 12) with 4096. change (2 ^ 32) with 4294967296 in *. unfold PAGE_SIZE in *.
  rewrite !Z.add_0_l in *. intros E.
  assert (forall x, (virt + x * 4096) mod 4294967296 / 4096 = (virt / 4096 + x) mod 1048576) as Hx.
  { intros x. pose proof (Z.div_mod virt 4096 ltac:(lia)) as Hv. pose proof (Z.mod_pos_bound virt 4096 ltac:(lia)) as Hb.
    rewrite Hv at 1. set (q := virt / 4096) in *. set (r := virt mod 4096) in *. clearbody q r.
    replace (4096 * q + r + x * 4096) with ((q + x) * 4096 + r) by lia.
    pose proof (Z.div_mod (q + x) 1048576 ltac:(lia)) as Hq. pose proof (Z.mod_pos_bound (q + x) 1048576 ltac:(lia)).
    set (m := (q + x) mod 1048576) in *. set (d := (q + x) / 1048576) in *. clearbody m d.
    rewrite Hq. replace ((1048576 * d + m) * 4096 + r) with (m * 4096 + r + d * 4294967296) by lia.
    rewrite Z.mod_add, Z.mod_small by lia. rewrite Z.div_add_l by lia. rewrite Z.div_small by lia. lia. }
  rewrite !Hx in E. set (q := virt / 4096) in *. clearbody q.
  assert ((k - k') mod 1048576 = 0) as Hd.
  { replace (k - k') with ((q + k) - (q + k')) by lia. rewrite Zminus_mod, E, Z.sub_diag. done. }
  clear E Hx. apply Z.mod_divide in Hd as [c Hc]; [|lia]. nia.
Qed.

(** A transfer with its rollback preserves what each step and each undo preserves; [sent] are
    the pages at the destination. *)
Lemma transfer_pages_spec (Inv : list Z -> MemState -> Prop) (X : MemState -> Prop) transfer undo sent offsets s :
  (forall sent s, Inv sent s -> X s) ->
  (forall o l sent s, o ∈ offsets -> NoDup (sent ++ o :: l) -> Inv sent s ->
     ends (fun _ => Inv (sent ++ [o])) (Inv sent) (transfer o s)) ->
  (forall o sent s, NoDup (o :: sent) -> Inv (o :: sent) s -> ends (fun _ => Inv sent) X (undo o s)) ->
  NoDup (sent ++ offsets) -> Inv sent s ->
  ends (fun _ => X) X (transfer_pages transfer undo sent offsets s).
Proof.
  intros HX Ht Hu. revert sent s. induction offsets as [|o offsets IH]; intros sent s Hnd Hinv; cbn [transfer_pages].
  { by eapply HX. }
  apply ends_bind, ends_try. eapply ends_mono; [eapply Ht; [by apply elem_of_cons; left|done|done]| |].
  - intros [] s1 Hs1. cbn. apply IH; [|by rewrite <-app_assoc|done].
    intros o' l sent' s' Ho'. apply Ht. by apply elem_of_cons; right.
  - intros s1 Hs1. split; [|by eapply HX]. intros e. apply ends_bind.
    assert (ends (fun _ => X) X (undo_pages undo sent s1)) as H.
    { apply list.NoDup_app in Hnd as [Hnd _]. clear IH Ht Hinv. revert s1 Hs1.
      induction sent as [|o' sent IH]; intros s1 Hs1; cbn [undo_pages]; [by eapply HX|].
      pose proof Hnd as Hnd'. apply list.NoDup_cons in Hnd' as [_ Hnd'].
      apply ends_bind. unfold expect. apply ends_bind, ends_try. eapply ends_mono; [by apply Hu| |].
      - intros [] s2 Hs2. by apply IH.
      - intros s2 Hs2. by split. }
    eapply ends_mono; [exact H| |done]. by intros [] s2.
Qed.

Lemma pages_of_usize o v : is_u32 (usize (v + o)).
Proof. apply u32_range. Qed.

Lemma transfer_step R P s (m : MS unit) s1 :
  step R P s s1 -> ends (fun _ => step R P s1) (step R P s1) (m s1) ->
  ends (fun _ => step R P s) (step R P s) (m s1).
Proof.
  intros [_ Hk] H. eapply ends_mono; [exact H|intros []|]; intros s2 Hs2; by eapply step_trans.
Qed.

Lemma assert_aligned_spec a b o s (X : MemState -> Prop) :
  X s -> ends (fun _ s' => s' = s) X (assert_aligned a b o s).
Proof. unfold assert_aligned, st_assert. by destruct (_ && _). Qed.

(** An early return with an error. *)
Ltac early_exit :=
  match goal with |- ends _ _ ((if ?b then _ else _) _) => destruct b; [done|] end.

Lemma send_pages_spec R current src_virt dest dv len s :
  iso R s -> current <> dest ->
  ends (fun _ => step R [current; dest] s) (step R [current; dest] s)
    (send_pages regions shared_peripherals permitted current src_virt dest dv len s).
Proof.
  intros Hiso Hne. assert (step R [current; dest] s s) as Hrefl by (by split). unfold send_pages. apply ends_bind.
  eapply ends_mono; [eapply (transfer_pages_spec (fun _ => step R [current; dest] s) (step R [current; dest] s))| |];
    try done.
  - intros o l sent s1 _ _ Hs1. apply ends_bind. eapply ends_mono; [by apply assert_aligned_spec| |done].
    intros [] s2 ->. apply transfer_step; [done|]. apply move_page_spec; [apply Hs1|done|apply u32_range].
  - intros o sent s1 _ Hs1. apply transfer_step; [done|].
    eapply ends_mono; [apply move_page_spec; [apply Hs1|done|apply u32_range]|intros []|];
      intros s2 Hs2; (eapply step_sub; [|exact Hs2]); set_solver.
  - apply NoDup_pages_of.
Qed.

Lemma send_memory_spec R current src_virt dest find dest_virt len s :
  iso R s ->
  ends (fun _ => step R [current; dest] s) (step R [current; dest] s)
    (send_memory regions shared_peripherals permitted current src_virt dest find dest_virt len s).
Proof.
  intros Hiso. unfold send_memory. destruct (send_refused _ _ _); [by split|].
  destruct (Z.eqb_spec current dest) as [|Hne]; [by split|]. apply ends_bind.
  destruct find as [dv|]; [|by split]. by apply send_pages_spec.
Qed.

Lemma back_range_spec R pid virt len s :
  iso R s ->
  ends (fun _ => step R [pid] s) (step R [pid] s) (back_range pid virt len s).
Proof.
  intros Hiso. unfold back_range. set (pages := map _ _). clearbody pages.
  assert (forall s1, step R [pid] s s1 ->
    ends (fun _ => step R [pid] s) (step R [pid] s) (back_pages pid pages s1)) as H'.
  { induction pages as [|a pages IH]; intros s1 Hs1; cbn [back_pages]; [done|]. apply ends_bind.
    eapply ends_mono; [apply (transfer_step R [pid] s (ensure_backed pid a)); [done|]|intros []|done].
    - apply ensure_backed_spec, Hs1.
    - intros s2 Hs2. by apply IH. }
  apply H'. by split.
Qed.

Lemma lend_pages_spec R current src_virt dest dv len mutable s :
  iso R s -> current <> dest -> len <= 2 ^ 32 ->
  ends (fun _ => step R [current; dest] s) (step R [current; dest] s)
    (lend_pages regions shared_peripherals permitted current src_virt dest dv len mutable s).
Proof.
  intros Hiso Hne Hlen. assert (step R [current; dest] s s) as Hrefl by (by split). unfold lend_pages. apply ends_bind.
  set (dest_of (o : Z) := usize (dv + o)).
  set (Inv (sent : list Z) s1 := step R [current; dest] s s1
    /\ forall o, o ∈ sent -> o ∈ pages_of 0 len /\ mapped_page s1 dest (dest_of o)).
  eapply ends_mono; [eapply (transfer_pages_spec Inv (step R [current; dest] s))| |]; try done.
  - by intros sent s1 [? _].
  - intros o l sent s1 Ho _ [Hs1 Hsent]. apply ends_bind. eapply (ends_mono _ _ (Inv sent)); [apply assert_aligned_spec; by split| |done].
    intros [] s2 ->. eapply ends_mono; [apply lend_page_spec; [apply Hs1|done|apply u32_range]|intros []|].
    + intros s2 (Hs2 & Hk & Hm). split; [eapply step_trans; [apply Hs1|done]|].
      intros o' [Ho'|Ho'%list_elem_of_singleton]%elem_of_app; [|by subst o'].
      destruct (Hsent o' Ho') as [? ?]. split; [done|by apply Hk].
    + intros s2 (Hs2 & Hk). split; [eapply step_trans; [apply Hs1|done]|].
      intros o' Ho'. destruct (Hsent o' Ho') as [? ?]. split; [done|by apply Hk].
  - intros o sent s1 [Hno _]%list.NoDup_cons [Hs1 Hsent].
    assert (o ∈ pages_of 0 len /\ mapped_page s1 dest (dest_of o)) as [Hop Hm] by (apply Hsent, elem_of_cons; by left).
    pose proof (unlend_page_spec R dest (dest_of o) current (usize (src_virt + o)) s1 (proj1 Hs1) (proj2 (proj2 Hm))) as H1.
    pose proof (unlend_page_kept dest (dest_of o) current (usize (src_virt + o)) s1 (not_eq_sym Hne)) as H2.
    assert (forall s2, step R [dest; current] s1 s2 -> step R [current; dest] s s2) as Hback.
    { intros s2 Hs2. eapply step_trans; [apply Hs1|]. eapply step_sub; [|exact Hs2]. set_solver. }
    cbv zeta in H2. unfold ends in *. destruct (unlend_page _ _ _ dest _ current _ s1) as [s2 [[]|e|]]; [|by apply Hback..].
    split; [by apply Hback|]. intros o' Ho'.
    assert (o' ∈ pages_of 0 len /\ mapped_page s1 dest (dest_of o')) as [Hop' Hm'] by (apply Hsent, elem_of_cons; by right).
    split; [done|]. apply H2; [|done]. intros E. apply Hno.
    by rewrite <-(pages_of_distinct dv len o' o Hop' Hop Hlen E).
  - apply NoDup_pages_of.
  - split; [done|]. intros o Ho. by apply not_elem_of_nil in Ho.
Qed.

Lemma lend_memory_spec R current src_virt dest find dest_virt len mutable s :
  iso R s -> len <= 2 ^ 32 ->
  ends (fun _ => step R [current; dest] s) (step R [current; dest] s)
    (lend_memory regions shared_peripherals permitted current src_virt dest find dest_virt len mutable s).
Proof.
  intros Hiso Hlen. unfold lend_memory. destruct (lend_refused _ _ _); [by split|].
  destruct (Z.eqb_spec current dest) as [|Hne]; apply ends_bind.
  - eapply ends_mono; [by apply back_range_spec|intros []|]; intros s1 Hs1; (eapply step_sub; [|exact Hs1]); set_solver.
  - destruct find as [dv|]; [|by split]. by apply lend_pages_spec.
Qed.

Lemma return_range_spec R current src_virt dest dest_virt len s :
  iso R s -> current <> dest -> len <= 2 ^ 32 ->
  (forall o, o ∈ pages_of 0 len -> mapped_page s current (usize (src_virt + o))) ->
  ends (fun _ => step R [current; dest] s) (step R [current; dest] s)
    (return_pages regions shared_peripherals permitted current src_virt dest dest_virt None (pages_of 0 len) s).
Proof.
  intros Hiso Hne Hlen Hmapped. assert (step R [current; dest] s s) as Hrefl by (by split).
  assert (forall offsets error s1, NoDup offsets -> (forall o, o ∈ offsets -> o ∈ pages_of 0 len) ->
    step R [current; dest] s s1 -> (forall o, o ∈ offsets -> mapped_page s1 current (usize (src_virt + o))) ->
    ends (fun _ => step R [current; dest] s) (step R [current; dest] s)
      (return_pages regions shared_peripherals permitted current src_virt dest dest_virt error offsets s1)) as H'.
  { induction offsets as [|o offsets IH]; intros error s1 Hnd Hin Hs1 Hm; cbn [return_pages]; [by destruct error|].
    apply list.NoDup_cons in Hnd as [Hno Hnd]. apply ends_bind.
    eapply ends_mono; [by apply assert_aligned_spec| |done]. intros [] s1' ->. apply ends_bind. unfold st_try.
    assert (o ∈ o :: offsets) as Ho by (apply elem_of_cons; by left).
    assert (forall o', o' ∈ offsets -> o' ∈ o :: offsets) as Hsub by (intros; apply elem_of_cons; by right).
    pose proof (unlend_page_spec R current (usize (src_virt + o)) dest (usize (dest_virt + o)) s1 (proj1 Hs1) (proj2 (proj2 (Hm o Ho)))) as H1'.
    pose proof (unlend_page_kept current (usize (src_virt + o)) dest (usize (dest_virt + o)) s1 Hne) as H2'.
    cbv zeta in H2'. unfold ends in H1', H2'.
    destruct (unlend_page _ _ _ current _ dest _ s1) as [s2 [[]|e|]]; cbn [ends];
      [apply IH|apply IH|by eapply step_trans; [apply Hs1|]]; auto; try (by eapply step_trans; [apply Hs1|]).
    - intros o' Ho'. apply H2'; [|by auto]. intros E. apply Hno.
      by rewrite <-(pages_of_distinct src_virt len o' o) by auto.
    - intros o' Ho'. apply H2'; [|by auto]. intros E. apply Hno.
      by rewrite <-(pages_of_distinct src_virt len o' o) by auto. }
  apply H'; try done. apply NoDup_pages_of.
Qed.

Lemma return_memory_spec R current src_virt dest dest_virt len s :
  iso R s -> len <= 2 ^ 32 ->
  (forall o, o ∈ pages_of 0 len -> mapped_page s current (usize (src_virt + o))) ->
  ends (fun _ => step R [current; dest] s) (step R [current; dest] s)
    (return_memory regions shared_peripherals permitted current src_virt dest dest_virt len s).
Proof.
  intros Hiso Hlen Hmapped. unfold return_memory. destruct (return_refused _ _ _); [by split|].
  destruct (Z.eqb_spec current dest) as [|Hne]; [by split|]. apply ends_bind.
  eapply ends_mono; [by apply return_range_spec| |done]. by intros [] s1.
Qed.

(** ** Lending and returning a page *)

(** A word as [new_mapped] makes it for the page at [addr], of the RAM page [i]. *)
Definition mapped_word_of (addr w i : Z) : Prop :=
  exists phys flags user, wf_phys phys /\ wf_flags flags /\ ram_page phys = Some i
    /\ new_mapped addr phys flags user = Done (L2Mapped w).

Lemma mapped_word_inv addr w i :
  mapped_word_of addr w i ->
  exists a u, a <> 0 /\ ram_page a = Some i /\ Z.land a 0xfff = 0 /\ from_u32 w = L2Mapped w /\ Z.land w 3 <> 0
    /\ get_addr w = Some a /\ entry_phys (L2Mapped w) = Done a
    /\ to_unmapped (L2Mapped w) = Done (L2Unmapped u) /\ from_u32 (u32 u) = L2Unmapped u
    /\ entry_phys (L2Unmapped u) = Done a /\ to_mapped addr (L2Unmapped u) = Done (L2Mapped w).
Proof.
  intros (phys & flags & user & Hp & Hf & Hram & He).
  assert (phys <> 0) as Hne by (intros ->; by rewrite ram_page_0 in Hram).
  destruct (new_mapped_page addr phys flags user Hp Hf) as (d & E & Ea & _ & H3).
  rewrite He in E. injection E as <-.
  destruct (lend_return_spec addr phys flags user _ Hp Hne Hf He) as (e' & E1 & Hs & _ & Hr & Hph & _ & _ & Hm).
  destruct e' as [|k|u]; try done. destruct (get_addr_mapped w H3) as (a & Ea' & Hal & _).
  assert (a = phys) as -> by congruence.
  assert (entry_phys (L2Mapped w) = Done phys) as Ew by (unfold entry_phys; by rewrite Ea).
  exists phys, u. split_and!; try done; [by apply from_as_mapped|congruence].
Qed.

Lemma word_empty w : from_u32 w = L2Empty <-> w = 0.
Proof.
  unfold from_u32. destruct (Z.eqb_spec w 0) as [->|]; [done|]. by destruct (Z.land w 3 =? 0).
Qed.

Lemma transfer_owner_done phys src dest s s' :
  transfer_owner regions shared_peripherals permitted phys src dest s = (s', Done tt) -> phys <> 0 ->
  exists mm', crm phys dest (MoveFrom src) (ms_mm s) = (mm', Done tt) /\ s' = mkMem mm' (ms_maps s).
Proof.
  unfold transfer_owner. intros H Hne. destruct (Z.eqb_spec phys 0); [done|]. cbn in H. unfold lift_mm in H.
  destruct (crm phys dest (MoveFrom src) (ms_mm s)) as [mm' r]. injection H as <- ->. eauto.
Qed.

(** The owners after the owner of the page [i] of the RAM has changed. *)
Lemma move_owner mm phys i src dest mm' :
  wf_mm mm -> ram_page phys = Some i -> crm phys dest (MoveFrom src) mm = (mm', Done tt) ->
  allocations mm' !! i = Some dest /\ forall j, j <> i -> allocations mm' !! j = allocations mm !! j.
Proof.
  intros Hwf Hi E. pose proof (claim_release_move_spec _ shared_peripherals permitted Hregions phys dest (MoveFrom src) _ Hwf) as H.
  rewrite E in H. destruct H as (_ & [(Hram & _)|(off & Hoff & [_ Hch] & Hsame & _)]).
  - apply ram_page_range in Hi as [? _]. congruence.
  - assert (off = i) as -> by (pose proof (ram_page_offset regions _ _ Hi); congruence). done.
Qed.

(** What a successful lend has done. *)
Lemma lend_page_done R src sa dest da mutable s s1 w i :
  iso R s -> src <> dest -> is_u32 da -> mapped_word_of sa w i -> word s src (page_number sa) = w ->
  Memory.lend_page regions shared_peripherals permitted src sa dest da mutable s = (s1, Done tt) ->
  exists s2 u k mm', step R [dest] s s2 /\ same_words s s2 /\ owners_kept (ms_mm s) (ms_mm s2)
    /\ get_l2_slot src sa s = (s, Done (page_number sa)) /\ is_Some (ms_maps s !! src)
    /\ word s2 dest (page_number da) = 0 /\ present s2 dest (page_number da) /\ addressable dest da
    /\ to_unmapped (L2Mapped w) = Done (L2Unmapped u)
    /\ from_u32 k = L2Mapped k /\ get_addr k = get_addr w /\ (mutable = true -> k = w)
    /\ s1 = mkMem mm' (ms_maps (put dest (page_number da) k (put src (page_number sa) (u32 u) s2)))
    /\ exists a, get_addr w = Some a /\ crm a dest (MoveFrom src) (ms_mm s2) = (mm', Done tt).
Proof.
  intros Hiso Hne Hda Hw Hword H. destruct (mapped_word_inv _ _ _ Hw)
    as (a & u & Ha0 & Hram & Hal & Hfrom & H3 & Hga & Hph & Hun & _).
  unfold Memory.lend_page in H. st_inv H phys s5 El. unfold Mapping.lend_page in El. st_inv El se s0 Es.
  destruct se as [slot e]. unfold source_entry in Es. st_inv Es slot' s0' Eg.
  pose proof (ends_Done _ _ _ _ _ _ (get_l2_slot_spec src sa s) Eg) as [-> [-> Hm]].
  st_inv Es e' s0' Er. rewrite read_slot_spec in Er by done. injection Er as <- <-. rewrite Hword, Hfrom in Es.
  destruct (negb (src =? 1) && _); [done|]. cbn [is_on_demand] in Es. injection Es as <- <- <-.
  cbn [is_mapped negb] in El. st_inv El dslot s2 Ed.
  pose proof (ends_Done _ _ _ _ _ _ (allocate_l2_slot_spec R dest da s Hiso Hda) Ed)
    as (Hs2 & [-> Hdest] & Hempty & Hsame & Hpres & Haddr & Hown).
  apply word_empty in Hempty. st_inv El sh s2' Eu. rewrite Hun in Eu. injection Eu as <- <-.
  st_inv El t s3 Ew. rewrite write_slot_put in Ew. injection Ew as <- <-. cbn [as_u32] in *.
  set (s3 := put src (page_number sa) (u32 u) s2) in *. st_inv El nd s3' En.
  assert (exists k, nd = L2Mapped k /\ Z.land k 3 <> 0 /\ get_addr k = get_addr w /\ (mutable = true -> k = w)
    /\ s3' = s3) as (k & -> & Hk3 & Hkg & Hkw & ->).
  { destruct mutable.
    - injection En as <- <-. by exists w.
    - injection En as <- <-. exists (Z.lor w SP_AP2). split_and!; try done.
      + assert (Z.land (Z.lor w SP_AP2) 3 = Z.land w 3) as ->; [|done].
        rewrite Z.land_lor_distr_l. change (Z.land SP_AP2 3) with 0. apply Z.lor_0_r.
      + unfold get_addr, get_type. assert (forall m, Z.land SP_AP2 m = 0 -> Z.land (Z.lor w SP_AP2) m = Z.land w m) as Hk.
        { intros m Hk. by rewrite Z.land_lor_distr_l, Hk, Z.lor_0_r. }
        rewrite (Hk 3) by done. destruct (Z.land w 3) as [|p|p]; [done| |]; [destruct p as [p|p|]|]; by rewrite Hk. }
  st_inv El t s4 Ew. rewrite write_slot_put in Ew. injection Ew as <- <-. cbn [as_u32] in *.
  rewrite Hph in El. injection El as <- <-.
  apply transfer_owner_done in H as (mm' & Hmm & ->); [|done].
  exists s2, u, k, mm'. split_and!; try done; [by apply from_as_mapped|]. by exists a.
Qed.

Lemma get_l2_slot_inv pid addr s :
  get_l2_slot pid addr s = (s, Done (page_number addr)) -> is_u32 addr ->
  addressable pid addr /\ present s pid (page_number addr).
Proof.
  unfold get_l2_slot, addressable, present. intros H Ha. rewrite page_number_section.
  destruct (page_aligned addr); cbn [negb] in H; [|done]. destruct (negb (pid =? 1) && _); [done|].
  unfold mapping_of, st_bind, st_get in H. destruct (ms_maps s !! pid) as [m|]; cbn in H; [|done].
  destruct (l1 m !! translation_table_index addr) as [[t|]|] eqn:El; [|done|done].
  split; [done|]. by exists m, t.
Qed.

Lemma get_l2_slot_present pid addr s :
  addressable pid addr -> present s pid (page_number addr) ->
  get_l2_slot pid addr s = (s, Done (page_number addr)).
Proof.
  intros Ha (m & t & Hm & Ht). rewrite page_number_section in Ht. by eapply get_l2_slot_done.
Qed.

Lemma move_owned mm phys i src dest :
  wf_mm mm -> ram_page phys = Some i -> allocations mm !! i = Some src -> Z.land phys 0xfff = 0 ->
  exists mm', crm phys dest (MoveFrom src) mm = (mm', Done tt) /\ wf_mm mm'.
Proof.
  intros Hwf Hi Ho Hal.
  pose proof (claim_release_move_spec _ shared_peripherals permitted Hregions phys dest (MoveFrom src) _ Hwf) as H.
  destruct (crm phys dest (MoveFrom src) mm) as [mm' [[]|e|]]; [by exists mm'; destruct H| |done]. exfalso.
  pose proof (ram_page_offset regions _ _ Hi) as Hoff. apply ram_page_range in Hi as [Hram _].
  destruct H as (_ & [[? _]|[[? _]|[[? _]|(off & Hoff' & Hn)]]]); try congruence.
  assert (off = i) as -> by congruence.
  rewrite Ho in Hn. destruct Hn as [[? _]|(_ & o & [= <-] & _ & ?)]; congruence.
Qed.

(** The owner of a page does not change when someone else gives it away. *)
Lemma move_refused mm phys i src dest owner :
  wf_mm mm -> ram_page phys = Some i -> allocations mm !! i = Some owner -> Z.land phys 0xfff = 0 ->
  owner <> src -> owner <> dest ->
  crm phys dest (MoveFrom src) mm = (mm, Fail MemoryInUse).
Proof.
  intros Hwf Hi Ho Hal Hs Hd.
  pose proof (claim_release_move_spec _ shared_peripherals permitted Hregions phys dest (MoveFrom src) _ Hwf) as Hc.
  pose proof (ram_page_offset regions _ _ Hi) as Hoff. apply ram_page_range in Hi as [Hram _].
  destruct (crm phys dest (MoveFrom src) mm) as [mm' [[]|e|]]; [| |done].
  - destruct Hc as (_ & [(? & _)|(off & Hoff' & [Hor _] & _)]); [congruence|].
    assert (off = i) as -> by congruence. rewrite Ho in Hor. destruct Hor; congruence.
  - destruct Hc as (-> & [[? _]|[[? _]|[[? _]|(off & Hoff' & Hn)]]]); try congruence.
    assert (off = i) as -> by congruence. rewrite Ho in Hn. destruct Hn as [[? _]|(-> & _)]; [congruence|done].
Qed.

(** The words of a state in which two entries were written. *)
Lemma word_put2 p pn w q qn v s r rn :
  is_Some (ms_maps s !! p) -> is_Some (ms_maps s !! q) ->
  word (put p pn w (put q qn v s)) r rn =
    if decide (r = p /\ rn = pn) then w else if decide (r = q /\ rn = qn) then v else word s r rn.
Proof. intros Hp Hq. rewrite word_put by (by apply put_is_Some). case_decide; [done|]. by rewrite word_put. Qed.

Lemma present_map s p pn : present s p pn -> is_Some (ms_maps s !! p).
Proof. intros (m & t & Hm & _). eauto. Qed.
Lemma mapped_word_at w s p pn i sa :
  mapped_word_of sa w i -> word s p pn = w -> page_at s p pn = Some i.
Proof.
  intros Hw E. pose proof (mapped_word_inv _ _ _ Hw) as (a & u & _ & Hram & _ & Hfrom & _ & Hga & _).
  unfold page_at, slot_page. rewrite E, Hfrom. cbn. by rewrite Hga.
Qed.

Lemma same_frame_at w s p pn k i sa :
  mapped_word_of sa w i -> word s p pn = k -> from_u32 k = L2Mapped k -> get_addr k = get_addr w -> page_at s p pn = Some i.
Proof.
  intros Hw E Hk Ek. pose proof (mapped_word_inv _ _ _ Hw) as (a & u & _ & Hram & _ & _ & _ & Hga & _).
  unfold page_at, slot_page. rewrite E, Hk. cbn. by rewrite Ek, Hga.
Qed.
Lemma lent_word_at w s p pn i sa u :
  mapped_word_of sa w i -> to_unmapped (L2Mapped w) = Done (L2Unmapped u) -> word s p pn = u32 u -> page_at s p pn = None.
Proof.
  intros Hw Hun E. pose proof (mapped_word_inv _ _ _ Hw) as (a & u' & _ & _ & _ & _ & _ & _ & _ & Hun' & Hu & _).
  assert (u' = u) as -> by congruence. apply (unmapped_word_page s p pn u). by rewrite E.
Qed.

(** The state after a successful lend. *)
Lemma lend_page_after src sa dest da mutable s s1 w i R :
  iso R s -> src <> dest -> is_u32 sa -> is_u32 da ->
  mapped_word_of sa w i -> word s src (page_number sa) = w ->
  Memory.lend_page regions shared_peripherals permitted src sa dest da mutable s = (s1, Done tt) ->
  exists u k, to_unmapped (L2Mapped w) = Done (L2Unmapped u) /\ from_u32 k = L2Mapped k /\ get_addr k = get_addr w
    /\ (mutable = true -> k = w) /\ iso R s1
    /\ addressable src sa /\ present s1 src (page_number sa) /\ word s1 src (page_number sa) = u32 u
    /\ addressable dest da /\ present s1 dest (page_number da) /\ word s1 dest (page_number da) = k
    /\ (present s dest (page_number da) -> word s dest (page_number da) = 0)
    /\ (forall q qn, 0 <= qn < 2 ^ 20 -> ~ (q = src /\ qn = page_number sa) -> ~ (q = dest /\ qn = page_number da) ->
          present s q qn -> present s1 q qn /\ word s1 q qn = word s q qn)
    /\ allocations (ms_mm s1) !! i = Some dest
    /\ (forall j p, j <> i -> allocations (ms_mm s) !! j = Some p -> allocations (ms_mm s1) !! j = Some p).
Proof.
  intros Hiso Hne Hsa Hda Hw Hword H.
  pose proof (lend_page_spec R src sa dest da mutable s Hiso Hne Hda) as Hspec. rewrite H in Hspec.
  destruct Hspec as ([Hiso1 _] & _).
  pose proof (mapped_word_inv _ _ _ Hw) as (a & u' & Ha0 & Hram & Hal & Hfrom & H3 & Hga & Hph & Hun' & Hu & Huph & Hback).
  destruct (lend_page_done _ _ _ _ _ _ _ _ _ _ Hiso Hne Hda Hw Hword H)
    as (s0 & u & k & mm' & Hs0 & Hsame & Hown & Hslot & Hm & Hd0 & Hdp & Hda' & Hun & Hk & Hkg & Hkw & -> & a' & Ea' & Hmm).
  assert (a' = a) as -> by congruence. exists u, k.
  set (sn := page_number sa) in *. set (dn := page_number da) in *.
  destruct (get_l2_slot_inv src sa s Hslot Hsa) as [Hsaddr Hsp]. fold sn in Hsp.
  destruct (Hsame src sn (page_number_range _ Hsa) Hsp) as [Hsp0 _].
  destruct (move_owner _ a i src dest mm' (iso_mm _ _ (proj1 Hs0)) Hram Hmm) as [Hoi Hoj].
  set (s1 := mkMem mm' _) in *.
  assert (forall q qn, word s1 q qn = if decide (q = dest /\ qn = dn) then k else
    if decide (q = src /\ qn = sn) then u32 u else word s0 q qn) as Hw1.
  { intros q qn. apply (word_put2 dest dn k src sn (u32 u) s0); by eapply present_map. }
  assert (forall q qn, present s0 q qn -> present s1 q qn) as Hpres.
  { intros q qn Hp. by do 2 apply present_put. }
  split_and!; try done; try (by apply Hpres).
  - rewrite Hw1, decide_False, decide_True by naive_solver. done.
  - by rewrite Hw1, decide_True.
  - intros Hp. destruct (Hsame dest dn (page_number_range _ Hda) Hp). congruence.
  - intros q qn Hqn Hq1 Hq2 Hp. destruct (Hsame q qn Hqn Hp) as [Hp' E]. split; [by apply Hpres|].
    by rewrite Hw1, !decide_False.
  - intros j p Hj Hp. cbn. rewrite Hoj by done. by apply Hown.
Qed.

(** What returning a page does to the tables: the entry of the borrower is empty, the one of the
    lender as before; the owner is changed last. *)
Lemma unlend_page_writes dest da src sa s w i u k :
  mapped_word_of sa w i -> to_unmapped (L2Mapped w) = Done (L2Unmapped u) ->
  entry_phys (from_u32 k) = entry_phys (L2Mapped w) ->
  addressable dest da -> present s dest (page_number da) -> word s dest (page_number da) = k ->
  addressable src sa -> present s src (page_number sa) -> word s src (page_number sa) = u32 u ->
  exists a, ram_page a = Some i /\ Z.land a 0xfff = 0 /\
    unlend_page regions shared_peripherals permitted dest da src sa s
    = lift_mm (crm a src (MoveFrom dest)) (put src (page_number sa) w (put dest (page_number da) 0 s)).
Proof.
  intros Hw Hun Hk Hda Hdp Hwd Hsa Hsp Hws.
  pose proof (mapped_word_inv _ _ _ Hw) as (a & u' & Ha0 & Hram & Hal & Hfrom & H3 & Hga & Hph & Hun' & Hu & Huph & Hback).
  assert (u' = u) as -> by congruence. exists a. split; [done|]. split; [done|].
  unfold unlend_page, return_page, st_bind.
  rewrite (get_l2_slot_present dest da s), (get_l2_slot_present src sa s) by done.
  rewrite !read_slot_spec by (by eapply present_map). rewrite Hwd, Hws, Hk, Hph, Hu.
  cbn [st_outcome]. rewrite Huph, Z.eqb_refl. cbn [negb].
  rewrite write_slot_put, Hback. cbn [st_outcome as_u32]. rewrite write_slot_put. cbn [st_outcome as_u32].
  unfold transfer_owner. by destruct (Z.eqb_spec a 0).
Qed.

(** C31: Lending a page of the RAM takes it from the lender and its owner to the borrower, and
    returning it succeeds and restores both processes: every entry in a table is as it was, and
    so is every owner (only a table for the borrower may have been added). *)
Theorem lend_unlend_restores src sa dest da mutable s s1 w i :
  isolated s -> src <> dest -> is_u32 sa -> is_u32 da ->
  mapped_word_of sa w i -> word s src (page_number sa) = w ->
  Memory.lend_page regions shared_peripherals permitted src sa dest da mutable s = (s1, Done tt) ->
  page_at s1 src (page_number sa) = None /\ page_at s1 dest (page_number da) = Some i
  /\ allocations (ms_mm s1) !! i = Some dest
  /\ exists s2, unlend_page regions shared_peripherals permitted dest da src sa s1 = (s2, Done tt)
    /\ word s2 dest (page_number da) = 0
    /\ (forall q qn, 0 <= qn < 2 ^ 20 -> present s q qn -> word s2 q qn = word s q qn)
    /\ owners_kept (ms_mm s) (ms_mm s2).
Proof.
  intros [Hiso _] Hne Hsa Hda Hw Hword H.
  destruct (lend_page_after _ _ _ _ _ _ _ _ _ _ Hiso Hne Hsa Hda Hw Hword H)
    as (u & k & Hun & Hk & Hkg & _ & Hiso1 & Hsad & Hsp & Hws & Hdad & Hdp & Hwd & Hd0 & Hother & Hoi & Hoj).
  destruct (unlend_page_writes dest da src sa s1 w i u k) as (a & Hram & Hal & Eun); [done|done|by rewrite Hk; unfold entry_phys; rewrite Hkg|done..|].
  destruct (move_owned (ms_mm s1) a i dest src (iso_mm _ _ Hiso1) Hram Hoi Hal) as (mm2 & Hmm2 & _).
  destruct (move_owner (ms_mm s1) a i dest src mm2 (iso_mm _ _ Hiso1) Hram Hmm2) as [Hoi2 Hoj2].
  split; [|split; [|split; [done|]]].
  { by eapply lent_word_at. }
  { by apply (same_frame_at w _ _ _ k i sa). }
  set (sn := page_number sa) in *. set (dn := page_number da) in *. set (s2 := put src sn w (put dest dn 0 s1)) in *.
  exists (mkMem mm2 (ms_maps s2)). rewrite Eun. unfold lift_mm. change (ms_mm s2) with (ms_mm s1). rewrite Hmm2.
  assert (forall q qn, word s2 q qn = if decide (q = src /\ qn = sn) then w else
    if decide (q = dest /\ qn = dn) then 0 else word s1 q qn) as Hw2.
  { intros q qn. apply word_put2; by eapply present_map. }
  split; [done|]. split; [|split].
  - change (word s2 dest dn = 0). by rewrite Hw2, decide_False, decide_True by naive_solver.
  - intros q qn Hqn Hp. change (word s2 q qn = word s q qn). rewrite Hw2. repeat case_decide; destruct_and?; subst.
    + done. + symmetry. by apply Hd0. + by apply Hother.
  - intros j p Hj. cbn [ms_mm]. destruct (decide (j = i)) as [->|Hji]; [|by rewrite Hoj2 by done; apply Hoj].
    rewrite Hoi2, <-Hj. symmetry. by apply (iso_owner _ _ Hiso src sn), (mapped_word_at w s src sn i sa).
Qed.

(** When lending succeeds: the page is there, and its place at the borrower is free. *)
Lemma lend_page_runs R src sa dest da mutable s w i :
  iso R s -> src <> dest -> addressable src sa -> present s src (page_number sa) ->
  addressable dest da -> present s dest (page_number da) -> word s dest (page_number da) = 0 ->
  mapped_word_of sa w i -> word s src (page_number sa) = w ->
  src = 1 \/ is_user_accessible (L2Mapped w) = true ->
  exists s1, Memory.lend_page regions shared_peripherals permitted src sa dest da mutable s = (s1, Done tt).
Proof.
  intros Hiso Hne Hsa Hsp Hda Hdp Hd0 Hw Hword Huser.
  pose proof (mapped_word_inv _ _ _ Hw) as (a & u & Ha0 & Hram & Hal & Hfrom & H3 & Hga & Hph & Hun & Hu & Huph & Hback).
  set (sn := page_number sa) in *. set (dn := page_number da) in *.
  assert (is_Some (ms_maps s !! src)) as Hsrc by (destruct Hsp as (m & t & Hm & _); eauto).
  pose proof Hdp as (md & td & Hmd & Htd). unfold dn in Htd. rewrite page_number_section in Htd.
  destruct (move_owned (ms_mm s) a i src dest) as (mm' & Hmm & _).
  { apply (iso_mm _ _ Hiso). } { done. }
  { apply (iso_owner _ _ Hiso src sn). unfold page_at, slot_page. rewrite Hword, Hfrom. cbn. by rewrite Hga. }
  { done. }
  unfold Memory.lend_page, Mapping.lend_page, source_entry, st_bind.
  rewrite (get_l2_slot_present src sa s Hsa Hsp). fold sn. rewrite (read_slot_spec src sn s Hsrc), Hword, Hfrom.
  assert (negb (src =? 1) && negb (is_user_accessible (L2Mapped w)) = false) as ->.
  { destruct Huser as [->| ->]; [done|]. by rewrite andb_false_r. }
  cbn [is_on_demand is_mapped negb st_ret].
  assert (allocate_l2_slot dest da s = (s, Done dn)) as ->.
  { unfold allocate_l2_slot. destruct Hda as (_ & Ha & Hb). rewrite Ha. cbn [negb]. rewrite Hb.
    unfold mapping_of, st_bind, st_get. rewrite Hmd. cbn [st_unwrap st_ret]. rewrite Htd. cbn [st_ret].
    rewrite read_slot_spec by eauto. fold dn. by rewrite Hd0. }
  rewrite Hun. cbn [st_outcome]. rewrite write_slot_put.
  assert (exists k, (if mutable then st_ret (L2Mapped w) else st_outcome (to_immutable (L2Mapped w)))
    = fun s : MemState => (s, Done (L2Mapped k))) as [k ->] by (destruct mutable; by eexists).
  rewrite write_slot_put, Hph. cbn [st_outcome]. unfold transfer_owner. destruct (Z.eqb_spec a 0); [done|].
  cbn [negb]. unfold lift_mm. match goal with |- context [ms_mm ?t] => change (ms_mm t) with (ms_mm s) end.
  rewrite Hmm. by eexists.
Qed.

(** C32: A borrower that has lent the page on and returns it all the same is told [MemoryInUse], but
    too late: the page is mapped in the first lender again, and still in the second borrower,
    who owns it. *)
Theorem relent_page_returned a sa b db c dc s w i :
  isolated s -> a <> b -> b <> c -> a <> c ->
  addressable a sa -> addressable b db -> addressable c dc ->
  present s a (page_number sa) -> present s b (page_number db) -> present s c (page_number dc) ->
  (sa < TTBR1_SPLIT /\ db < TTBR1_SPLIT) ->
  mapped_word_of sa w i -> is_user_accessible (L2Mapped w) = true ->
  word s a (page_number sa) = w -> word s b (page_number db) = 0 -> word s c (page_number dc) = 0 ->
  exists s1 s2 s3,
    Memory.lend_page regions shared_peripherals permitted a sa b db true s = (s1, Done tt)
    /\ Memory.lend_page regions shared_peripherals permitted b db c dc true s1 = (s2, Done tt)
    /\ unlend_page regions shared_peripherals permitted b db a sa s2 = (s3, Fail MemoryInUse)
    /\ page_at s3 a (page_number sa) = Some i /\ page_at s3 c (page_number dc) = Some i
    /\ allocations (ms_mm s3) !! i = Some c.
Proof.
  intros [Hiso _] Hab Hbc Hac Hsa Hdb Hdc Hpa Hpb Hpc [Hlow Hlow'] Hw Huser Hword Hb0 Hc0.
  assert (is_u32 sa /\ is_u32 db /\ is_u32 dc) as (Hsa' & Hdb' & Hdc') by (split_and!; [apply Hsa|apply Hdb|apply Hdc]).
  pose proof (mapped_word_inv _ _ _ Hw) as (p & u & Hp0 & Hram & Hal & Hfrom & H3 & Hga & Hph & Hun & Hu & Huph & Hback).
  destruct (lend_page_runs _ a sa b db true s w i Hiso Hab Hsa Hpa Hdb Hpb Hb0 Hw Hword (or_intror Huser)) as (s1 & E1).
  destruct (lend_page_after a sa b db true s s1 w i _ Hiso Hab Hsa' Hdb' Hw Hword E1)
    as (u1 & k1 & Hun1 & _ & _ & Hk1 & Hiso1 & _ & Hpa1 & Hwa1 & _ & Hpb1 & Hwb1 & _ & Hother1 & Ho1 & _).
  assert (u1 = u) as -> by congruence. rewrite Hk1 in Hwb1 by done. clear Hk1 Hun1.
  destruct (Hother1 c _ (page_number_range _ Hdc') ltac:(naive_solver) ltac:(naive_solver) Hpc) as [Hpc1 Hwc1]. rewrite Hc0 in Hwc1.
  assert (mapped_word_of db w i) as Hw'.
  { destruct Hw as (phys & flags & user & H1 & H2 & H4 & H5). exists phys, flags, user. split_and!; try done.
    rewrite <-H5. unfold new_mapped. by rewrite (proj2 (Z.ltb_lt sa TTBR1_SPLIT) Hlow), (proj2 (Z.ltb_lt db TTBR1_SPLIT) Hlow'). }
  destruct (lend_page_runs _ b db c dc true s1 w i Hiso1 Hbc Hdb Hpb1 Hdc Hpc1 Hwc1 Hw' Hwb1 (or_intror Huser)) as (s2 & E2).
  destruct (lend_page_after b db c dc true s1 s2 w i _ Hiso1 Hbc Hdb' Hdc' Hw' Hwb1 E2)
    as (u2 & k2 & Hun2 & _ & _ & Hk2 & Hiso2 & _ & Hpb2 & Hwb2 & _ & Hpc2 & Hwc2 & _ & Hother2 & Ho2 & _).
  assert (u2 = u) as -> by congruence. rewrite Hk2 in Hwc2 by done. clear Hk2 Hun2.
  destruct (Hother2 a _ (page_number_range _ Hsa') ltac:(naive_solver) ltac:(naive_solver) Hpa1) as [Hpa2 Hwa2]. rewrite Hwa1 in Hwa2.
  set (an := page_number sa) in *. set (bn := page_number db) in *. set (cn := page_number dc) in *.
  destruct (unlend_page_writes b db a sa s2 w i u (u32 u)) as (p' & Hram' & Hal' & Eun);
    [done|done|by rewrite Hu, Huph, Hph|done..|].
  fold an bn in Eun. set (s3 := put a an w (put b bn 0 s2)) in *.
  assert (forall q qn, word s3 q qn = if decide (q = a /\ qn = an) then w else
    if decide (q = b /\ qn = bn) then 0 else word s2 q qn) as Hw3.
  { intros q qn. apply word_put2; by eapply present_map. }
  exists s1, s2, s3. split_and!; [done|done| | | |exact Ho2].
  - rewrite Eun. unfold lift_mm. change (ms_mm s3) with (ms_mm s2).
    by rewrite (move_refused (ms_mm s2) p' i b a c (iso_mm _ _ Hiso2) Hram' Ho2 Hal') by congruence.
  - apply (mapped_word_at w _ _ _ _ sa Hw). by rewrite Hw3, decide_True.
  - apply (mapped_word_at w _ _ _ _ sa Hw). by rewrite Hw3, !decide_False by naive_solver.
Qed.

(** ** Histories *)

(** The operations, each with any outcome.  Returning pages is what a server does with the pages
    of a message, which are mapped there as long as it has not lent them on. *)
Inductive mem_step : MemState -> MemState -> Prop :=
| StepAllocate pid s : mem_step s (allocate_mapping pid s).1
| StepMap pid find phys size flags user s :
    wf_flags flags -> size mod PAGE_SIZE = 0 -> 0 < size -> 0 <= phys ->
    mem_step s (map_range regions shared_peripherals permitted pid find phys size flags user s).1
| StepMapDeferred pid tid find virt size flags s :
    wf_flags flags -> size mod PAGE_SIZE = 0 -> 0 < size ->
    mem_step s (map_with_deferred_zeroing regions shared_peripherals permitted pid tid find virt size flags s).1
| StepMapFinished find s : mem_step s (map_zero_finished regions shared_peripherals permitted find s).1
| StepUnmap pid virt len s : mem_step s (unmap_range regions shared_peripherals permitted pid virt len s).1
| StepBack pid virt s : mem_step s (ensure_backed pid virt s).1
| StepSend current src dest find virt len s :
    mem_step s (send_memory regions shared_peripherals permitted current src dest find virt len s).1
| StepLend current src dest find virt len mutable s :
    len <= 2 ^ 32 ->
    mem_step s (lend_memory regions shared_peripherals permitted current src dest find virt len mutable s).1
| StepReturn current src dest virt len s :
    len <= 2 ^ 32 -> (forall o, o ∈ pages_of 0 len -> mapped_page s current (usize (src + o))) ->
    mem_step s (return_memory regions shared_peripherals permitted current src dest virt len s).1
| StepClear pid addr mode s : mem_step s (clear_shared pid addr mode s).1
| StepTerminate pid s : mem_step s (terminate_memory regions pid s).1
| StepZeroed s : zeroer_running (ms_mm s) = true -> mem_step s (lift_mm (zeroer_done regions) s).1.

Lemma mem_step_isolated s s' : isolated s -> mem_step s s' -> isolated s'.
Proof.
  intros Hi Hs. pose proof (proj1 Hi) as Hiso. destruct Hs.
  - by apply allocate_mapping_spec.
  - eapply isolated_ends; [done|by apply map_range_spec].
  - by apply map_with_deferred_zeroing_spec.
  - by apply map_zero_finished_spec.
  - eapply isolated_ends; [done|]. unfold unmap_range.
    destruct (_ || _); [by split|]. by apply unmap_addresses_spec.
  - eapply isolated_ends; [done|by apply ensure_backed_spec].
  - eapply isolated_ends; [done|by apply send_memory_spec].
  - eapply isolated_ends; [done|by apply lend_memory_spec].
  - eapply isolated_ends; [done|by apply return_memory_spec].
  - eapply isolated_ends; [done|by apply clear_shared_spec].
  - by apply terminate_memory_spec.
  - destruct Hi as [_ Hwf]. destruct (zeroer_done_spec regions (ms_mm s) (iso_mm _ _ Hiso)) as (mm' & E & Hwf' & HA & Hpd & _);
      [done|]. unfold lift_mm. rewrite E. cbn. unfold isolated, pending_pages, wf_pending. cbn [ms_mm]. rewrite Hpd.
    split; [|done]. apply (iso_change (pending_pages (ms_mm s)) _ s); [done|done| |].
    + intros j p _ _. by rewrite HA.
    + intros j p Hj. destruct (iso_reserved _ _ Hiso j p Hj) as (? & ? & _). rewrite HA. split_and!; eauto; lia.
Qed.
End Board.

(** ** The theorem *)

(** What isolation says about the pages: a page of the RAM is mapped in one place of one
    process, its owner; pages with page tables, pages that wait to be mapped and free pages are
    mapped nowhere. *)
Definition pages_apart (s : MemState) : Prop :=
  (forall pid pn i, page_at s pid pn = Some i -> allocations (ms_mm s) !! i = Some pid
     /\ forall pid' pn', page_at s pid' pn' = Some i -> pid' = pid /\ pn' = pn)
  /\ (forall pid m i, ms_maps s !! pid = Some m -> table_page m i ->
        allocations (ms_mm s) !! i = Some pid /\ forall pid' pn, page_at s pid' pn <> Some i)
  /\ (forall i pid, pending_pages (ms_mm s) !! i = Some pid ->
        allocations (ms_mm s) !! i = Some pid /\ forall pid' pn, page_at s pid' pn <> Some i)
  /\ (forall i, i ∈ free_pages_dirty (ms_mm s) ∪ free_pages_zeroed (ms_mm s) ∪ in_flight (ms_mm s) ->
        forall pid pn, page_at s pid pn <> Some i).

Lemma isolated_pages s : isolated s -> pages_apart s.
Proof.
  intros [Hiso _]. pose proof (iso_mm _ _ Hiso) as [(Hram & _ & _ & _ & Hiff & _) _]. split_and!.
  - intros pid pn i Hp. split; [by eapply iso_owner|]. intros pid' pn' Hp'.
    destruct (iso_unique _ _ Hiso _ _ _ _ _ Hp Hp') as [-> ->]. done.
  - intros pid m i Hm Ht. destruct (iso_table _ _ Hiso pid m i Hm Ht) as (? & _ & ?). done.
  - intros i pid Hi. destruct (iso_reserved _ _ Hiso i pid Hi) as (_ & ? & ?). done.
  - intros i Hi pid pn Hp. apply (iso_owner _ _ Hiso) in Hp. apply (Hiff i (Hram i Hi)) in Hi. congruence.
Qed.

(** C18: Through every history of the operations of [mem_step] that starts in an isolated state, a page of
    the RAM is mapped in at most one place of one process, and that process owns it; a page that
    holds page tables is owned by their process and mapped nowhere, neither is a page that waits
    for its deferred zeroing, nor one without an owner: free, dirty or being zeroed.  The steps
    are the allocation of a table, mapping, mapping with deferred zeroing, unmapping, backing on
    demand, sending, lending, returning, clearing, the end of a process and of a zeroing, each
    with any outcome.  Pages are returned only while the returner still has them mapped: a page
    that it has lent on breaks the isolation when it comes back ([relent_page_returned]).
    Mirroring is no step: it maps a page twice on purpose. *)
Theorem memory_isolation regions shared_peripherals permitted s0 s :
  Forall (fun r => r.1 <= r.2) regions -> isolated s0 ->
  rtc (mem_step regions shared_peripherals permitted) s0 s ->
  (forall pid pn i, page_at s pid pn = Some i -> allocations (ms_mm s) !! i = Some pid
     /\ forall pid' pn', page_at s pid' pn' = Some i -> pid' = pid /\ pn' = pn)
  /\ (forall pid m i, ms_maps s !! pid = Some m -> table_page m i ->
        allocations (ms_mm s) !! i = Some pid /\ forall pid' pn, page_at s pid' pn <> Some i)
  /\ (forall i pid, pending_pages (ms_mm s) !! i = Some pid ->
        allocations (ms_mm s) !! i = Some pid /\ forall pid' pn, page_at s pid' pn <> Some i)
  /\ (forall i, i ∈ free_pages_dirty (ms_mm s) ∪ free_pages_zeroed (ms_mm s) ∪ in_flight (ms_mm s) ->
        forall pid pn, page_at s pid pn <> Some i).
Proof.
  intros Hr H0 Hrun. apply isolated_pages. induction Hrun as [|x y z Hxy _ IH]; [done|]. apply IH.
  by eapply (mem_step_isolated _ _ _ Hr x).
Qed.

(** ** Examples *)

(** Three processes with one group of tables each; a page of process 2 is mapped. *)
Definition demo_space (t0 : Z) (words : gmap Z Z) : MemoryMapping :=
  let m := add_group 0x300 (page_address (t0 + 2)) (mkMapping (page_address t0) ∅ ∅) in
  mkMapping (ttbr0 m) (l1 m) words.
Definition demo_word : Z := 0x400c883b.
Definition demo_mem_owners : gmap Z Z :=
  list_to_map [(100, 2); (101, 2); (102, 2); (200, 2); (110, 3); (111, 3); (112, 3); (120, 4); (121, 4); (122, 4)].
Definition demo_maps : gmap Z MemoryMapping :=
  list_to_map [(2, demo_space 100 {[0x30005 := demo_word]}); (3, demo_space 110 ∅); (4, demo_space 120 ∅)].
Definition demo_mem : MemState :=
  mkMem (set_pending None (init_from_memory demo_mem_owners mm_initial)) demo_maps.

Lemma demo_word_ok : mapped_word_of 0x30005000 demo_word 200.
Proof.
  exists 0x400c8000, MF_W, true. split_and!; [vm_compute; intuition congruence|reflexivity|reflexivity|reflexivity].
Qed.

Lemma demo_maps_lookup pid m :
  demo_maps !! pid = Some m ->
  (pid = 2 /\ m = demo_space 100 {[0x30005 := demo_word]}) \/ (pid = 3 /\ m = demo_space 110 ∅)
  \/ (pid = 4 /\ m = demo_space 120 ∅).
Proof.
  unfold demo_maps. cbn [list_to_map foldr]. cbn.
  intros [[<- <-]|[_ H]]%lookup_insert_Some; [by left|right].
  apply lookup_insert_Some in H as [[<- <-]|[_ H]]; [by left|right].
  apply lookup_insert_Some in H as [[<- <-]|[_ H]]; [done|]. by rewrite lookup_empty in H.
Qed.

Lemma demo_page_at mm pid pn i :
  page_at (mkMem mm demo_maps) pid pn = Some i -> pid = 2 /\ pn = 0x30005 /\ i = 200.
Proof.
  unfold page_at, word. cbn [ms_maps]. destruct (demo_maps !! pid) as [m|] eqn:Em; [|done].
  apply demo_maps_lookup in Em as [[-> ->]|[[-> ->]|[-> ->]]]; cbn [l2 demo_space]; [|done|done].
  destruct (decide (pn = 0x30005)) as [->|]; [|by rewrite lookup_singleton_ne].
  rewrite lookup_singleton_eq. cbn [default]. change (slot_page demo_word) with (Some 200). by intros [= <-].
Qed.

Lemma demo_table t0 words i :
  0 <= t0 < 1000 -> table_page (demo_space t0 words) i -> t0 <= i <= t0 + 2.
Proof.
  intros Ht [(v & t & Hl & Hp)|(k & Hk & Hp)].
  - cbn [l1 demo_space] in Hl. apply add_group_lookup in Hl as [Hl|(k & Hk & ->)]; [cbn [l1] in Hl; by rewrite lookup_empty in Hl|].
    rewrite ram_page_address in Hp; [|rewrite RAM_PAGES_eq; lia|unfold L2_TABLE_BYTES, PAGE_SIZE; lia].
    injection Hp as <-. lia.
  - cbn [ttbr0 demo_space add_group] in Hp. unfold L1_USER_PAGE_TABLE_PAGES in Hk.
    replace (page_address t0 + k * PAGE_SIZE) with (page_address (t0 + k) + 0) in Hp
      by (unfold page_address, PAGE_SIZE; lia).
    rewrite ram_page_address in Hp; [|rewrite RAM_PAGES_eq; lia|unfold PAGE_SIZE; lia]. injection Hp as <-. lia.
Qed.

Lemma demo_owner pid t0 i :
  (pid, t0) ∈ [(2, 100); (3, 110); (4, 120)] -> t0 <= i <= t0 + 2 ->
  demo_mem_owners !! i = Some pid /\ i <> 200.
Proof.
  intros Hin Hi. rewrite !elem_of_cons in Hin.
  assert (i = t0 \/ i = t0 + 1 \/ i = t0 + 2) as Hc by lia.
  destruct Hin as [[= -> ->]|[[= -> ->]|[[= -> ->]|Hin]]]; [| | |by apply not_elem_of_nil in Hin];
    destruct Hc as [->|[->| ->]]; (split; [reflexivity|lia]).
Qed.

Lemma demo_isolated : isolated demo_mem.
Proof.
  destruct (init_wf demo_mem_owners) as (Hwf & HA & _). cbv zeta in Hwf, HA. unfold demo_mem.
  revert Hwf HA. generalize (init_from_memory demo_mem_owners mm_initial). intros mm Hwf HA'.
  split; [|by intros job].
  assert (forall pid m i, demo_maps !! pid = Some m -> table_page m i ->
    demo_mem_owners !! i = Some pid /\ i <> 200) as Htab.
  { intros pid m i [[-> ->]|[[-> ->]|[-> ->]]]%demo_maps_lookup Ht; apply demo_table in Ht; try lia;
      (eapply demo_owner; [|exact Ht]; rewrite !elem_of_cons; auto). }
  split.
  - intros pid m Hm. assert (exists t0 words, m = demo_space t0 words) as (t0 & words & ->)
      by (apply demo_maps_lookup in Hm as [[_ ->]|[[_ ->]|[_ ->]]]; eauto).
    apply (grouped_add_group 0x300 (page_address (t0 + 2)) (mkMapping (page_address t0) ∅ ∅)); [lia|].
    intros v v' _ _ _ _. apply lookup_empty.
  - exact Hwf.
  - intros pid pn i (-> & -> & ->)%demo_page_at. by cbn [ms_mm set_pending allocations]; rewrite HA'.
  - intros pid pn pid' pn' i (-> & -> & ->)%demo_page_at (-> & -> & _)%demo_page_at. done.
  - intros pid m i Hm Ht. destruct (Htab pid m i Hm Ht) as [Ho Hne]. cbn [ms_mm set_pending allocations]; rewrite HA'. split_and!; [done|done|].
    intros p pn (_ & _ & ->)%demo_page_at. done.
  - intros i pid Hi. cbn in Hi. by rewrite lookup_empty in Hi.
Qed.

Lemma demo_present pid : pid ∈ [2; 3; 4] -> present demo_mem pid 0x30005.
Proof.
  rewrite !elem_of_cons. intros [->|[->|[->|H]]]; [| | |by apply not_elem_of_nil in H];
    (eexists _, _; split; [reflexivity|reflexivity]).
Qed.
Lemma demo_addressable pid : pid <> 1 -> addressable pid 0x30005000.
Proof.
  intros Hp. split; [vm_compute; intuition congruence|]. split; [reflexivity|].
  destruct (Z.eqb_spec pid 1); [done|reflexivity].
Qed.

Lemma memory_isolation_witness :
  exists s, rtc (mem_step demo_regions [] demo_permitted) demo_mem s
    /\ (forall pid pn i, page_at s pid pn = Some i -> allocations (ms_mm s) !! i = Some pid).
Proof.
  set (s1 := (map_range demo_regions [] demo_permitted 3 (Ok 0x30100000) 0 0x2000 MF_W true demo_mem).1).
  set (s2 := (send_memory demo_regions [] demo_permitted 2 0x30005000 4 (Ok 0x30008000) 0 0x1000 s1).1).
  assert (rtc (mem_step demo_regions [] demo_permitted) demo_mem s2) as H.
  { apply rtc_l with s1; [by apply StepMap|]. apply rtc_once, StepSend. }
  exists s2. split; [exact H|].
  pose proof (memory_isolation demo_regions [] demo_permitted demo_mem s2 demo_regions_ok demo_isolated H) as [H1 _].
  intros pid pn i Hp. apply (H1 pid pn i Hp).
Defined.

Lemma lend_unlend_restores_witness :
  exists s1, Memory.lend_page demo_regions [] demo_permitted 2 0x30005000 3 0x30005000 true demo_mem = (s1, Done tt)
    /\ exists s2, unlend_page demo_regions [] demo_permitted 3 0x30005000 2 0x30005000 s1 = (s2, Done tt).
Proof.
  destruct (lend_page_runs demo_regions [] demo_permitted demo_regions_ok _ 2 0x30005000 3 0x30005000 true demo_mem
    demo_word 200 (proj1 demo_isolated)) as (s1 & E).
  { lia. } { by apply demo_addressable. } { apply demo_present. set_solver. }
  { by apply demo_addressable. } { apply demo_present. set_solver. } { reflexivity. }
  { exact demo_word_ok. } { reflexivity. } { right. reflexivity. }
  exists s1. split; [exact E|].
  destruct (lend_unlend_restores demo_regions [] demo_permitted demo_regions_ok 2 0x30005000 3 0x30005000 true
    demo_mem s1 demo_word 200 demo_isolated) as (_ & _ & _ & s2 & E2 & _).
  { lia. } { vm_compute; intuition congruence. } { vm_compute; intuition congruence. }
  { exact demo_word_ok. } { reflexivity. } { exact E. }
  exists s2. exact E2.
Defined.

Lemma relent_page_returned_witness :
  exists s3, page_at s3 2 0x30005 = Some 200 /\ page_at s3 4 0x30005 = Some 200
    /\ allocations (ms_mm s3) !! 200 = Some 4.
Proof.
  destruct (relent_page_returned demo_regions [] demo_permitted demo_regions_ok 2 0x30005000 3 0x30005000
    4 0x30005000 demo_mem demo_word 200 demo_isolated) as (s1 & s2 & s3 & _ & _ & _ & H1 & H2 & H3).
  { lia. } { lia. } { lia. } { by apply demo_addressable. } { by apply demo_addressable. } { by apply demo_addressable. }
  { apply demo_present. set_solver. } { apply demo_present. set_solver. } { apply demo_present. set_solver. }
  { unfold TTBR1_SPLIT. lia. } { exact demo_word_ok. } { reflexivity. } { reflexivity. } { reflexivity. } { reflexivity. }
  exists s3. split; [exact H1|]. split; [exact H2|exact H3].
Defined.
