(* ===== verification/Kernel.v ===== *)
(** * The state of the kernel and the calls between its parts

    [Kernel] puts the components together: the memory of all processes, the process table, the
    servers with the address of each queue, the permission requests, the scheduler, the
    interrupt handlers, the thread contexts and the current thread.  The definitions are the
    accessors of [SystemServices] ([xous/kernel/src/services.rs]), the operations of the other
    components lifted to this state, and the delivery of events.

    A computation is a [KS]: a value, an error for the caller, or a panic of the kernel, each
    with the state that is left.  What the source reads from the hardware is an argument of
    the section: [usage] is the preemption timer.

    The memory manager broadcasts [LowFreeMemory] in the middle of an operation; [lift_mem]
    performs the broadcasts when the operation is over.  They queue scalar messages and wake
    threads, the memory they do not touch. *)
From stdpp Require Import fin_maps gmap.
From S2P Require Import Prelude Xous SysCall Permissions Server Scheduler Threads Connections.
From S2P Require Import PermissionRequests Irq Process MemManager PageTable Mapping Memory.

Definition MAX_SERVER_COUNT : nat := 128.
Definition PANIC_MESSAGE_SIZE : nat := 1024.

(** A server and the address of its queue in its process. *)
Record Hosted : Type := mkHosted { hosted : Server; backing : Z }.

Record Kernel : Type := mkKernel {
  k_mem : MemState;
  k_processes : gmap Z Process;
  k_servers : list (option Hosted);
  k_requests : PermissionRequests;
  k_scheduler : Scheduler;
  k_irqs : IrqState;
  k_contexts : gmap Z Contexts;
  k_current : Z;     (* CURRENT_PROCESS *)
  k_tid : Z;         (* the current thread pointer *)
  k_panic_message : list Z;
  k_panic_pid : option Z
}.

Abbreviation KS := (state Kernel Error).

Definition set_mem (m : MemState) (k : Kernel) : Kernel :=
  mkKernel m (k_processes k) (k_servers k) (k_requests k) (k_scheduler k) (k_irqs k)
    (k_contexts k) (k_current k) (k_tid k) (k_panic_message k) (k_panic_pid k).
Definition set_processes (p : gmap Z Process) (k : Kernel) : Kernel :=
  mkKernel (k_mem k) p (k_servers k) (k_requests k) (k_scheduler k) (k_irqs k)
    (k_contexts k) (k_current k) (k_tid k) (k_panic_message k) (k_panic_pid k).
Definition set_servers (s : list (option Hosted)) (k : Kernel) : Kernel :=
  mkKernel (k_mem k) (k_processes k) s (k_requests k) (k_scheduler k) (k_irqs k)
    (k_contexts k) (k_current k) (k_tid k) (k_panic_message k) (k_panic_pid k).
Definition set_requests (r : PermissionRequests) (k : Kernel) : Kernel :=
  mkKernel (k_mem k) (k_processes k) (k_servers k) r (k_scheduler k) (k_irqs k)
    (k_contexts k) (k_current k) (k_tid k) (k_panic_message k) (k_panic_pid k).
Definition set_scheduler (s : Scheduler) (k : Kernel) : Kernel :=
  mkKernel (k_mem k) (k_processes k) (k_servers k) (k_requests k) s (k_irqs k)
    (k_contexts k) (k_current k) (k_tid k) (k_panic_message k) (k_panic_pid k).
Definition set_irqs (i : IrqState) (k : Kernel) : Kernel :=
  mkKernel (k_mem k) (k_processes k) (k_servers k) (k_requests k) (k_scheduler k) i
    (k_contexts k) (k_current k) (k_tid k) (k_panic_message k) (k_panic_pid k).
Definition set_contexts (c : gmap Z Contexts) (k : Kernel) : Kernel :=
  mkKernel (k_mem k) (k_processes k) (k_servers k) (k_requests k) (k_scheduler k) (k_irqs k)
    c (k_current k) (k_tid k) (k_panic_message k) (k_panic_pid k).
Definition set_current (pid tid : Z) (k : Kernel) : Kernel :=
  mkKernel (k_mem k) (k_processes k) (k_servers k) (k_requests k) (k_scheduler k) (k_irqs k)
    (k_contexts k) pid tid (k_panic_message k) (k_panic_pid k).
Definition set_panic (msg : list Z) (pid : option Z) (k : Kernel) : Kernel :=
  mkKernel (k_mem k) (k_processes k) (k_servers k) (k_requests k) (k_scheduler k) (k_irqs k)
    (k_contexts k) (k_current k) (k_tid k) msg pid.

(** ** Looking up processes and servers *)

(** [self.process(pid)]: the keys of the table are the pids from 1 to [MAX_PROCESS_COUNT]. *)
Definition process (pid : Z) : KS Process := fun k =>
  match k_processes k !! pid with Some p => (k, Done p) | None => (k, Fail ProcessNotFound) end.
(** [self.process(pid).unwrap()]. *)
Definition process_unwrap (pid : Z) : KS Process := fun k =>
  match k_processes k !! pid with Some p => (k, Done p) | None => (k, Panic) end.
Definition current_pid : KS Z := fun k => (k, Done (k_current k)).
Definition current_process : KS Process := let* pid := current_pid in process_unwrap pid.
Definition put_process (p : Process) : KS unit :=
  st_modify (fun k => set_processes (<[process_pid p := p]> (k_processes k)) k).
Definition free_process (pid : Z) : KS unit :=
  st_modify (fun k => set_processes (delete pid (k_processes k)) k).

Definition server_at (servers : list (option Hosted)) (sidx : Z) : option Hosted :=
  mjoin (servers !! Z.to_nat sidx).
Definition server_from_sidx (sidx : Z) : KS (option Server) := fun k =>
  (k, Done (hosted <$> server_at (k_servers k) sidx)).
(** [server_from_sidx(sidx).expect(..)]. *)
Definition server_expect (sidx : Z) : KS Server :=
  let* s := server_from_sidx sidx in st_unwrap s.
Definition put_server (sidx : Z) (s : Server) : KS unit :=
  st_modify (fun k => set_servers
    (alter (fmap (fun h => mkHosted s (backing h))) (Z.to_nat sidx) (k_servers k)) k).

Definition owns_sid (sid : SID) (pid : Z) (h : option Hosted) : bool :=
  match h with
  | Some h => bool_decide (server_sid (hosted h) = sid) && (server_pid (hosted h) =? pid)
  | None => false
  end.
Definition has_sid (sid : SID) (h : option Hosted) : bool :=
  match h with Some h => bool_decide (server_sid (hosted h) = sid) | None => false end.
Definition sidx_from_sid (sid : SID) (pid : Z) : KS (option Z) := fun k =>
  (k, Done (Z.of_nat <$> position (owns_sid sid pid) (k_servers k))).
Definition server_owner (sid : SID) : KS (option Z) := fun k =>
  (k, Done (match position (has_sid sid) (k_servers k) with
            | Some i => (fun h => server_pid (hosted h)) <$> mjoin (k_servers k !! i)
            | None => None
            end)).
(** The processes are searched in the order of their slots. *)
Definition pid_from_app_id (app : AppId) : KS (option Z) := fun k =>
  (k, Done (List.find (fun pid => match k_processes k !! pid with
                                  | Some p => bool_decide (process_app_id p = app)
                                  | None => false end) (seqZ 1 MAX_PROCESS_COUNT))).

(** ** Threads *)

(** [self.process_mut(pid).unwrap().set_thread_state(tid, state)]. *)
Definition set_thread_state (pid tid : Z) (state : ThreadState) : KS unit :=
  let* p := process_unwrap pid in
  let* k := st_get in
  let* (sch, p) := st_unwrap (Process.set_thread_state (k_scheduler k) p (Z.to_nat tid) state) in
  let* _ := st_modify (set_scheduler sch) in put_process p.
Definition set_thread_priority (pid tid : Z) (priority : ThreadPriority) : KS unit :=
  let* p := process_unwrap pid in
  let* k := st_get in
  let* (sch, p) := st_unwrap (Process.set_thread_priority (k_scheduler k) p (Z.to_nat tid) priority) in
  let* _ := st_modify (set_scheduler sch) in put_process p.
Definition thread_state (pid tid : Z) : KS ThreadState :=
  let* p := process_unwrap pid in st_unwrap (Process.thread_state p (Z.to_nat tid)).
Definition thread_priority (pid tid : Z) : KS ThreadPriority :=
  let* p := process_unwrap pid in st_unwrap (Process.thread_priority p (Z.to_nat tid)).

(** Threads of one process, then of every process ([for_all_processes]). *)
Definition wake_process_threads (state : ThreadState) (n pid : Z) : KS unit :=
  let* k := st_get in
  match k_processes k !! pid with
  | None => st_ret tt
  | Some p =>
      let* (sch, p) := st_unwrap (Process.wake_threads_with_state (k_scheduler k) p state n) in
      let* _ := st_modify (set_scheduler sch) in put_process p
  end.
Fixpoint for_pids (f : Z -> KS unit) (pids : list Z) : KS unit :=
  match pids with
  | [] => st_ret tt
  | pid :: pids => let* _ := f pid in for_pids f pids
  end.
Definition wake_threads_with_state (state : ThreadState) (n : Z) : KS unit :=
  for_pids (wake_process_threads state n) (seqZ 1 MAX_PROCESS_COUNT).

(** The context page of a process that is in the table. *)
Definition with_contexts (pid : Z) (f : Contexts -> option Contexts) : KS unit :=
  let* k := st_get in
  let* cs := st_unwrap (f (default contexts_new (k_contexts k !! pid))) in
  st_modify (set_contexts (<[pid := cs]> (k_contexts k))).

(** Another process is entered, which fails when it is gone, and left again, which must not. *)
Definition set_thread_result (pid tid : Z) (result : Result) : KS unit :=
  let* current := current_pid in
  if current =? pid then with_contexts pid (fun cs => set_context_result cs tid result) else
  let* _ := process pid in
  let* _ := with_contexts pid (fun cs => set_context_result cs tid result) in
  let* _ := process_unwrap current in st_ret tt.
Definition retry_syscall_pid (pid tid : Z) : KS unit :=
  let* current := current_pid in
  if current =? pid then with_contexts pid (fun cs => retry_swi_instruction cs tid) else
  let* _ := process pid in
  let* _ := with_contexts pid (fun cs => retry_swi_instruction cs tid) in
  let* _ := process_unwrap current in st_ret tt.

Section Timer.
Context (usage : Z).

(** [Scheduler::with_mut(|s| s.activate_current(ss))]: the process is entered and its thread
    becomes the current one. *)
Definition activate_current : KS Result :=
  let* k := st_get in
  let* (sch, next) := st_unwrap (Scheduler.activate_current (k_scheduler k) (k_current k, k_tid k) usage) in
  let* _ := st_modify (set_scheduler sch) in
  match next with
  | KeepCurrent => st_ret RResumeProcess
  | ActivateThread pid tid _ =>
      let* _ := process_unwrap pid in
      let* _ := st_assert (tid <? MAX_THREAD_COUNT) in
      let* _ := st_modify (set_current pid tid) in st_ret RResumeProcess
  end.

Definition retry_syscall (tid : Z) (state : ThreadState) : KS Result :=
  let* pid := current_pid in
  let* _ := with_contexts pid (fun cs => retry_swi_instruction cs tid) in
  let* _ := set_thread_state pid tid state in
  activate_current.
End Timer.

(** ** Delivering a message to a server

    The part of [send_message_inner] after the transfer of the memory: a parked thread of the
    server gets the message, or it is queued. *)

Definition lift_server {A} (sidx : Z) (f : Server -> option (Server * A)) : KS A :=
  let* s := server_expect sidx in
  let* (s, a) := st_unwrap (f s) in
  let* _ := put_server sidx s in st_ret a.

Definition queue_server_message (sidx pid tid : Z) (message : Message) (original_address : option Z)
    : KS nat :=
  let* s := server_from_sidx sidx in
  let* s := st_lift (ok_or s ServerNotFound) in
  let* _ := process (server_pid s) in
  let* r := lift_server sidx (fun s => queue_message s pid tid message original_address) in
  let* current := current_pid in
  let* _ := process_unwrap current in st_lift r.

Definition remember_server_message (sidx current_pid current_thread : Z) (message : Message)
    (client_address : option Z) : KS nat :=
  let* s := server_from_sidx sidx in
  let* s := st_lift (ok_or s ServerNotFound) in
  let* _ := process (server_pid s) in
  let* r := lift_server sidx (fun s =>
    Some (queue_response s current_pid current_thread message client_address)) in
  let* _ := process_unwrap current_pid in st_lift r.

Definition deliver_message (sidx sender_tid : Z) (message : Message) (client_address : option Z) : KS unit :=
  let* sender_pid := current_pid in
  let* server_tid := lift_server sidx take_available_thread in
  match server_tid with
  | Some server_tid =>
      let* sender_idx :=
        if is_blocking message then
          let* r := st_try (remember_server_message sidx sender_pid sender_tid message client_address) in
          match r with
          | Ok idx => st_ret (Z.of_nat idx)
          | Err e =>
              let* _ := lift_server sidx (fun s =>
                let! s := return_available_thread s server_tid in Some (s, tt)) in
              st_fail e
          end
        else st_ret 0 in
      let sender := mkSenderID sidx sender_idx (Some sender_pid) in
      let* s := server_expect sidx in
      let* _ := set_thread_state (server_pid s) server_tid TReady in
      let* _ := st_try (set_thread_result (server_pid s) server_tid
                          (RMessageEnvelope (mkEnvelope (sender_of sender) message))) in
      st_ret tt
  | None =>
      let* _ := queue_server_message sidx sender_pid sender_tid message client_address in
      st_ret tt
  end.

(** [send_message_inner] on a scalar message. *)
Definition send_scalar (sender_tid sidx : Z) (message : Message) : KS unit :=
  let* s := server_expect sidx in
  if is_queue_full s then st_fail ServerQueueFull
  else deliver_message sidx sender_tid message None.

(** ** Events *)

Definition event_message (id : Z) (args : args4) : Message :=
  new_scalar id (arg0 args) (arg1 args) (arg2 args) (arg3 args).
Definition no_args : args4 := mkArgs 0 0 0 0.

Definition send_server_event (sidx : Z) (event : ServerEvent) (args : args4) : KS unit :=
  let* s := server_from_sidx sidx in
  match s with
  | None => st_ret tt
  | Some s =>
      let* id := st_unwrap (get_event_handler s event) in
      match id with
      | Some id => send_scalar 0 sidx (event_message id args)
      | None => st_ret tt
      end
  end.

Definition send_system_event (dst_pid : Z) (event : SystemEvent) (args : args4) : KS bool :=
  let* p := process dst_pid in
  let* handler := st_unwrap (get_system_event_handler p event) in
  match handler with
  | None => st_ret false
  | Some (sid, id) =>
      let* sidx := sidx_from_sid sid dst_pid in
      match sidx with
      | Some sidx => let* _ := send_scalar 0 sidx (event_message id args) in st_ret true
      | None => st_ret false
      end
  end.

(** The loop of [broadcast_event]: the processes in the table, in order. *)
Fixpoint broadcast_loop (event : SystemEvent) (args : args4) (delivered : Z) (pids : list Z) : KS Z :=
  match pids with
  | [] => st_ret delivered
  | pid :: pids =>
      let* k := st_get in
      if bool_decide (is_Some (k_processes k !! pid)) then
        let* sent := send_system_event pid event args in
        broadcast_loop event args (if sent : bool then delivered + 1 else delivered) pids
      else broadcast_loop event args delivered pids
  end.
Definition broadcast_event (event : SystemEvent) (args : args4) : KS Z :=
  broadcast_loop event args 0 (seqZ 1 MAX_PROCESS_COUNT).

