(* ===== verification/Services.v ===== *)
(** * The system services ([xous/kernel/src/services.rs])

    The operations of [SystemServices] over the whole kernel: mapping memory for the current
    process, transferring the memory of messages, threads, servers, connections, permission
    requests and the end of a process.  They call the components through the lifts of
    [Kernel]; [Server.destroy] gets the operations it needs as an instance of [SystemOps].

    [regions] are the ranges of device memory that have an owner, [shared_peripherals] the pages
    any process may share, [usage] what the preemption timer reports. *)
From stdpp Require Import fin_maps gmap.
From S2P Require Import Prelude Xous SysCall Permissions Server Scheduler Threads Connections.
From S2P Require Import PermissionRequests Irq Process MemManager PageTable Mapping Memory.
From S2P Require Import Kernel.

(** The permission check of [claim_release_move], on the process table. *)
Definition permitted_by (procs : gmap Z Process) (pid addr : Z) : result Error unit :=
  match procs !! pid with Some p => check_memory_permission p addr | None => Err ProcessNotFound end.

Fixpoint perform_calls (calls : list mm_call) : KS unit :=
  match calls with
  | [] => st_ret tt
  | BroadcastLowFreeMemory :: calls =>
      let* _ := st_try (broadcast_event LowFreeMemory no_args) in perform_calls calls
  | ZeroTransfer _ _ :: calls => perform_calls calls
  end.

(** An operation on memory, and then the broadcasts it asked for. *)
Definition lift_mem {A} (m : (Z -> Z -> result Error unit) -> MS A) : KS A := fun k =>
  let '(mem, r) := m (permitted_by (k_processes k)) (k_mem k) in
  let calls := drop (length (mm_calls (ms_mm (k_mem k)))) (mm_calls (ms_mm mem)) in
  (let* _ := perform_calls calls in st_outcome r) (set_mem mem k).

(** [p.find_virtual_address(virt_ptr, size)]. *)
Definition find_virtual_address (p : Process) (virt_ptr size : Z) : KS Z :=
  let* k := st_get in
  let free_run := match ms_maps (k_mem k) !! process_pid p with
                  | Some m => find_free_run m
                  | None => fun _ _ _ => None
                  end in
  let '(p, r) := Process.find_virtual_address free_run p virt_ptr size in
  let* _ := put_process p in st_lift r.

Definition expect_ok {A} (m : KS A) : KS A :=
  let* r := st_try m in match r with Ok a => st_ret a | Err _ => st_panic end.

Definition set_connections (p : Process) (m : ConnectionMap) : Process :=
  mkProcess (process_pid p) (ppid p) (process_name p) (threads p) (thread_priorities p)
    (system_event_handlers p) (process_app_id p) (memory_permissions p) (syscall_permissions p)
    m (allocation_hint p) (next_mirror_address p) (aslr_slide p).
Definition set_ppid (p : Process) (pp : option Z) : Process :=
  mkProcess (process_pid p) pp (process_name p) (threads p) (thread_priorities p)
    (system_event_handlers p) (process_app_id p) (memory_permissions p) (syscall_permissions p)
    (connection_map p) (allocation_hint p) (next_mirror_address p) (aslr_slide p).
Definition set_next_mirror_address (p : Process) (a : Z) : Process :=
  mkProcess (process_pid p) (ppid p) (process_name p) (threads p) (thread_priorities p)
    (system_event_handlers p) (process_app_id p) (memory_permissions p) (syscall_permissions p)
    (connection_map p) (allocation_hint p) a (aslr_slide p).

Section Board.
Context (regions : list (Z * Z)) (shared_peripherals : list Z) (usage : Z).

Abbreviation activate_current := (activate_current usage).
Abbreviation retry_syscall := (retry_syscall usage).

(** ** Memory of the current process *)

Definition map_range (phys virt_ptr size flags : Z) (map_user : bool) : KS MemoryRange :=
  let* pid := current_pid in
  let* p := current_process in
  let* virt := find_virtual_address p virt_ptr size in
  lift_mem (fun permitted =>
    Memory.map_range regions shared_peripherals permitted pid (Ok virt) phys size flags map_user).

Definition unmap_range (virt len : Z) : KS unit :=
  let* pid := current_pid in
  lift_mem (fun permitted => Memory.unmap_range regions shared_peripherals permitted pid virt len).

Definition check_range_accessible (range : MemoryRange) : KS unit :=
  let* pid := current_pid in lift_mem (fun _ => Memory.check_range_accessible pid range).

Definition map_with_deferred_zeroing (tid virt size flags : Z) : KS Result :=
  if negb (MemoryFlags_is_set flags (MemoryFlags_bitor MF_W MF_POPULATE)) then st_fail InvalidArguments else
  if MAX_MAP_ZERO_BYTES <? size then st_fail OutOfMemory else
  let* k := st_get in
  if bool_decide (is_Some (pending_map_zero (ms_mm (k_mem k)))) then retry_syscall tid TRetryMapZero else
  let* pid := current_pid in
  let* (phys, needs_zero) := lift_mem (fun _ => lift_mm (alloc_range (size / PAGE_SIZE) pid flags)) in
  if negb needs_zero then
    let* p := current_process in
    let* virt := st_try (find_virtual_address p virt size) in
    match virt with
    | Err e =>
        let* _ := lift_mem (fun permitted =>
          lift_mm (release_range regions shared_peripherals permitted phys size pid)) in st_fail e
    | Ok virt =>
        let* _ := lift_mem (fun permitted =>
          map_allocated_range regions shared_peripherals permitted pid phys virt size flags true) in
        let* range := st_lift (MemoryRange_new virt size) in st_ret (RMemoryRange range)
    end
  else
    let* _ := lift_mem (fun _ => st_modify (with_mm (set_pending (Some (mkPending phys virt size flags pid tid))))) in
    let* _ := set_thread_state pid tid TWaitMapZero in
    activate_current.

(** The interrupt at the end of the zeroing; the process of the job is entered. *)
Definition map_zero_finished : KS unit :=
  let* k := st_get in
  match pending_map_zero (ms_mm (k_mem k)) with
  | None => st_ret tt
  | Some job =>
      let pid := pz_pid job in
      let* _ := lift_mem (fun _ => cancel_map_zero) in
      let* p := process_unwrap pid in
      let* _ := st_modify (set_current pid (k_tid k)) in
      let* virt := st_try (find_virtual_address p (pz_virt job) (pz_size job)) in
      let* result :=
        match virt with
        | Ok virt =>
            let* r := st_try
              (let* _ := lift_mem (fun permitted => map_allocated_range regions shared_peripherals permitted
                           pid (pz_phys job) virt (pz_size job) (pz_flags job) true) in
               st_lift (MemoryRange_new virt (pz_size job))) in
            st_ret (match r with Ok range => RMemoryRange range | Err e => RError e end)
        | Err e =>
            let* _ := lift_mem (fun permitted =>
              lift_mm (release_range regions shared_peripherals permitted (pz_phys job) (pz_size job) pid)) in
            st_ret (RError e)
        end in
      let* _ := st_try (set_thread_result pid (pz_tid job) result) in
      let* _ := set_thread_state pid (pz_tid job) TReady in
      let* _ := wake_threads_with_state TRetryMapZero USIZE_MAX in
      let* _ := st_try activate_current in st_ret tt
  end.

(** ** The memory of messages *)

Definition send_memory (src_virt dest_pid dest_virt len : Z) : KS Z :=
  if send_refused src_virt dest_virt len then st_fail BadAddress else
  let* current := current_pid in
  if current =? dest_pid then st_ret src_virt else
  let* _ := process current in
  let* p := process dest_pid in
  let* dest_virt := find_virtual_address p dest_virt len in
  let* dest_virt := lift_mem (fun permitted =>
    send_pages regions shared_peripherals permitted current src_virt dest_pid dest_virt len) in
  let* p := process current in
  let* _ := put_process (release_allocation_hint p src_virt) in
  st_ret dest_virt.

Definition lend_memory (src_virt dest_pid dest_virt len : Z) (mutable : bool) : KS Z :=
  match lend_refused src_virt dest_virt len with
  | Some e => st_fail e
  | None =>
      let* current := current_pid in
      if current =? dest_pid then
        let* _ := lift_mem (fun _ => back_range current src_virt len) in st_ret src_virt
      else
      let* _ := process current in
      let* p := process dest_pid in
      let* dest_virt := find_virtual_address p dest_virt len in
      lift_mem (fun permitted =>
        lend_pages regions shared_peripherals permitted current src_virt dest_pid dest_virt len mutable)
  end.

Definition return_memory (src_virt dest_pid dest_virt len : Z) : KS Z :=
  if return_refused src_virt dest_virt len then st_fail BadAddress else
  let* current := current_pid in
  if current =? dest_pid then st_ret src_virt else
  let* _ := process current in
  let* _ := process dest_pid in
  let* _ := lift_mem (fun permitted =>
    return_pages regions shared_peripherals permitted current src_virt dest_pid dest_virt None (pages_of 0 len)) in
  st_ret dest_virt.

Definition clear_shared_range (pid addr len : Z) (mode : ClearShared) : KS unit :=
  let* _ := process_unwrap pid in
  lift_mem (fun _ => Memory.clear_shared_range pid addr len mode).

(** ** Threads *)

Definition create_thread (parent : Z) (thread_init : ThreadInit) : KS Z :=
  let* pid := current_pid in
  let* k := st_get in
  let* tid := st_lift (ok_or (find_free_thread (default contexts_new (k_contexts k !! pid))) ThreadNotAvailable) in
  let* _ := with_contexts pid (fun cs => setup_thread cs pid tid thread_init) in
  let* _ := set_thread_state pid tid TReady in
  let* priority := thread_priority pid parent in
  let* _ := set_thread_priority pid tid priority in
  st_ret tid.

(** The loop of [thread_exited] over the threads that wait for the one that ends. *)
Fixpoint wake_joining (pid tid return_value : Z) (tids : list Z) : KS unit :=
  match tids with
  | [] => st_ret tt
  | waiting_tid :: tids =>
      let* state := thread_state pid waiting_tid in
      let* _ :=
        if decide (state = TWaitJoin tid) then
          let* _ := set_thread_state pid waiting_tid TReady in
          set_thread_result pid waiting_tid (RScalar1 return_value)
        else st_ret tt in
      wake_joining pid tid return_value tids
  end.

Definition thread_exited (tid : Z) : KS Result :=
  let* pid := current_pid in
  let* _ := set_thread_state pid tid TFree in
  let* _ :=
    if negb (tid =? IRQ_TID) then
      let* k := st_get in
      let* (cs, r) := st_unwrap (destroy_thread (default contexts_new (k_contexts k !! pid)) tid) in
      let* _ := st_modify (set_contexts (<[pid := cs]> (k_contexts k))) in
      let '(return_value, stack) := match r with Ok x => x | Err _ => (0, None) end in
      let* _ := match stack with
                | Some stack =>
                    let* _ := st_try (unmap_range (range_addr stack) (range_size stack)) in st_ret tt
                | None => st_ret tt
                end in
      wake_joining pid tid return_value (seqZ 0 MAX_THREAD_COUNT)
    else st_ret tt in
  activate_current.

Definition join_thread (tid join_tid : Z) : KS Result :=
  let* pid := current_pid in
  let* _ := current_process in
  if tid =? join_tid then st_fail ThreadNotAvailable else
  if MAX_THREAD_COUNT <=? join_tid then st_fail ThreadNotAvailable else
  let* state := thread_state pid join_tid in
  if decide (state = TFree) then st_ret (RScalar1 0) else
  let* _ := set_thread_state pid tid (TWaitJoin join_tid) in
  activate_current.

(** ** Permission requests *)

(** [fail_permission_request]: the sender is parked on exactly this request. *)
Definition fail_permission_request (sender_pid sender_tid request_id : Z) (error : Error) : KS unit :=
  let* p := expect_ok (process sender_pid) in
  let* state := st_unwrap (Process.thread_state p (Z.to_nat sender_tid)) in
  let* _ := st_assert (bool_decide (state = TRetryPermission request_id)) in
  let* _ := expect_ok (set_thread_result sender_pid sender_tid (RError error)) in
  set_thread_state sender_pid sender_tid TReady.

(** [while let Some(..) = self.permission_requests.tombstone_next(pred)]: a step per entry of
    the table and one to find none left. *)
Fixpoint release_requests_loop (fuel : nat) (pred : PermissionRequest -> bool) (error : Error) : KS unit :=
  match fuel with
  | O => st_panic
  | S fuel =>
      let* k := st_get in
      let '(entries, sender) := tombstone_next (k_requests k) pred in
      let* _ := st_modify (set_requests entries) in
      match sender with
      | None => st_ret tt
      | Some (pid, tid, id) =>
          let* _ := fail_permission_request pid tid id error in
          release_requests_loop fuel pred error
      end
  end.
Definition release_requests (pred : PermissionRequest -> bool) (error : Error) : KS unit :=
  let* k := st_get in release_requests_loop (S (length (k_requests k))) pred error.

(** ** Servers and connections *)

Definition connect_to_server (pid : Z) (sid : SID) : KS Z :=
  let* k := st_get in
  let* sidx := st_lift (ok_or (position (has_sid sid) (k_servers k)) ServerNotFound) in
  let sidx := Z.of_nat sidx in
  let* s := server_expect sidx in
  let* p := process pid in
  let '(m, r) := add_connection (connection_map p) sidx (default_permissions s) in
  let* _ := put_process (set_connections p m) in
  let* (cid, new_connection) := st_lift r in
  let* _ := if new_connection : bool then send_server_event sidx NewConnection no_args else st_ret tt in
  st_ret cid.

Definition disconnect_from_server (cid : Z) : KS unit :=
  let* p := current_process in
  let '(m, r) := disconnect_slot (connection_map p) cid in
  let* _ := put_process (set_connections p m) in
  let* closed := st_lift r in
  match closed with
  | None => st_ret tt
  | Some sidx =>
      let* disconnecting_pid := current_pid in
      let* _ := release_requests
        (fun r => (sender_pid r =? disconnecting_pid) && (request_cid r =? cid)) ServerNotFound in
      send_server_event sidx ServerDisconnected no_args
  end.

Definition create_server_with_address (sid : SID) (initial_permissions : MessageRange) : KS SID :=
  let* pid := current_pid in
  let* k := st_get in
  if existsb (has_sid sid) (k_servers k) then st_fail ServerExists else
  match position (fun h => match h with None => true | Some _ => false end) (k_servers k) with
  | None => st_fail KernelTableFull
  | Some sidx =>
      let* backing := map_range 0 0 PAGE_SIZE (MemoryFlags_bitor MF_W MF_POPULATE) false in
      match Server.init None pid sid backing initial_permissions with
      | (Some s, Ok _) =>
          let* _ := st_modify (fun k =>
            set_servers (<[sidx := Some (mkHosted s (range_addr backing))]> (k_servers k)) k) in
          let* _ := wake_threads_with_state (TRetryConnect (SID_quick_hash sid)) USIZE_MAX in
          st_ret sid
      | _ => st_panic
      end
  end.

(** The calls [Server.destroy] makes on the rest of the kernel. *)
Definition run_op {A} (m : KS A) (k : Kernel) : option (Kernel * result Error A) :=
  match m k with
  | (k, Done a) => Some (k, Ok a)
  | (k, Fail e) => Some (k, Err e)
  | (_, Panic) => None
  end.
Definition run_unwrap (m : KS unit) (k : Kernel) : option Kernel :=
  match m k with (k, Done _) => Some k | _ => None end.

#[export] Instance kernel_ops : SystemOps Kernel := {|
  op_return_memory k src pid tid dest size := run_op (return_memory src pid dest size) k;
  op_clear_shared_range k pid addr size := run_unwrap (clear_shared_range pid addr size ClearOnDemand) k;
  op_set_thread_ready k pid tid := run_unwrap (set_thread_state pid tid TReady) k;
  op_set_thread_result k pid tid r := run_unwrap (set_thread_result pid tid r) k;
  op_unmap_range k addr size := run_op (unmap_range addr size) k
|}.

Fixpoint tombstone_connections (sidx : Z) (pids : list Z) : KS unit :=
  match pids with
  | [] => st_ret tt
  | pid :: pids =>
      let* k := st_get in
      let* _ :=
        match k_processes k !! pid with
        | None => st_ret tt
        | Some p =>
            let '(m, cid) := tombstone_connection_by_sidx (connection_map p) sidx in
            let* _ := put_process (set_connections p m) in
            match cid with
            | Some cid =>
                let* _ := st_try (send_system_event pid Disconnected (mkArgs cid 0 0 0)) in
                st_ret tt
            | None => st_ret tt
            end
        end in
      tombstone_connections sidx pids
  end.

Definition destroy_sidx (sidx : Z) : KS unit :=
  let* _ := release_requests (fun r => request_sidx r =? sidx) ServerNotFound in
  let* k := st_get in
  let* h := st_unwrap (server_at (k_servers k) sidx) in
  let* _ := st_modify (fun k => set_servers (<[Z.to_nat sidx := None]> (k_servers k)) k) in
  let* pid := current_pid in
  let* k := st_get in
  let* k := st_unwrap (Server.destroy (hosted h) pid (backing h) k) in
  let* _ := st_put k in
  tombstone_connections sidx (seqZ 1 MAX_PROCESS_COUNT).

Definition destroy_server (pid : Z) (sid : SID) : KS unit :=
  let* sidx := sidx_from_sid sid pid in
  let* sidx := st_lift (ok_or sidx ServerNotFound) in
  destroy_sidx sidx.

(** ** The end of a process *)

(** The loop over the servers: the own ones are destroyed, in the others no message blocks the
    process any more. *)
Fixpoint leave_servers (pid : Z) (sidxs : list Z) : KS unit :=
  match sidxs with
  | [] => st_ret tt
  | sidx :: sidxs =>
      let* s := server_from_sidx sidx in
      let* _ :=
        match s with
        | None => st_ret tt
        | Some s =>
            if server_pid s =? pid then destroy_sidx sidx
            else
              let* _ := process_unwrap (server_pid s) in
              let* _ := lift_server sidx (fun s => Some (discard_messages_for_pid s pid, tt)) in
              let* _ := process pid in st_ret tt
        end in
      leave_servers pid sidxs
  end.

(** [while tombstone_next(..).is_some() {}]. *)
Definition drop_requests (pred : PermissionRequest -> bool) : KS unit :=
  let* k := st_get in
  let* (entries, _) := st_unwrap (tombstone_all (S (length (k_requests k))) (k_requests k) pred) in
  st_modify (set_requests entries).

Fixpoint notify_servers (event : ServerEvent) (sidxs : list Z) : KS unit :=
  match sidxs with
  | [] => st_ret tt
  | sidx :: sidxs =>
      let* _ := st_try (send_server_event sidx event no_args) in notify_servers event sidxs
  end.

(** [Process::terminate]. *)
Definition terminate (pid : Z) : KS unit :=
  let* p := process pid in
  let* k := st_get in
  let* (sch, p) := st_unwrap (terminate_threads (k_scheduler k) p) in
  let* _ := st_modify (set_scheduler sch) in
  let* _ := put_process p in
  let* _ := lift_mem (fun _ => lift_mm (release_all_memory_for_process regions pid)) in
  let* _ := st_modify (fun k => set_irqs (release_interrupts_for_pid (k_irqs k) pid) k) in
  lift_mem (fun _ => destroy_mapping pid).

Definition reparent (pid : Z) (p : Process) : Process :=
  if bool_decide (ppid p = Some pid) then set_ppid p None else p.

Definition terminate_current_process (ret : Z) : KS Result :=
  let* pid := current_pid in
  let* p := current_process in
  if negb (ret =? 0) && bool_decide (ppid p = Some 1) then st_panic else
  let* _ := leave_servers pid (seqZ 0 (Z.of_nat MAX_SERVER_COUNT)) in
  let* _ := drop_requests (fun r => sender_pid r =? pid) in
  let* p := current_process in
  let* _ :=
    match ppid p with
    | Some ppid => let* _ := st_try (send_system_event ppid ChildTerminated (mkArgs ret 0 0 0)) in st_ret tt
    | None => st_ret tt
    end in
  let* p := current_process in
  let* _ := notify_servers ServerDisconnected (connected_sidxes (connection_map p)) in
  let* k := st_get in
  let* _ :=
    if bool_decide (pz_pid <$> pending_map_zero (ms_mm (k_mem k)) = Some pid) then
      let* _ := lift_mem (fun _ => cancel_map_zero) in
      wake_threads_with_state TRetryMapZero USIZE_MAX
    else st_ret tt in
  let* _ := terminate pid in
  let* _ := free_process pid in
  let* _ := st_modify (fun k => set_processes (reparent pid <$> k_processes k) k) in
  activate_current.

Definition terminate_process (caller_tid pid ret : Z) : KS Result :=
  let* caller_pid := current_pid in
  let* p := process pid in
  if bool_decide (ppid p = Some 1) then st_fail AccessDenied else
  let* _ := set_thread_result caller_pid caller_tid ROk in
  let* _ := process_unwrap pid in
  let* k := st_get in
  let* _ := st_modify (set_current pid (k_tid k)) in
  terminate_current_process ret.

(** ** Panic messages

    [utf8] is [core::str::from_utf8(..).is_ok()]; the buffer drops what does not fit. *)
Definition append_panic_message (utf8 : list Z -> bool) (msg_bytes : list Z) : KS unit :=
  let* pid := current_pid in
  let* k := st_get in
  let msg := if bool_decide (k_panic_pid k = Some pid) then k_panic_message k else [] in
  let* _ := st_modify (set_panic msg (Some pid)) in
  if negb (utf8 msg_bytes) then st_fail InvalidString else
  let len := Nat.min (length msg_bytes) (PANIC_MESSAGE_SIZE - length msg) in
  st_modify (set_panic (msg ++ take len msg_bytes) (Some pid)).
End Board.
