(* ===== verification/KernelRules.v ===== *)
(** * Rules for computations of the kernel

    [same part m]: the computation [m] leaves a part of the kernel alone, whatever its outcome;
    the part is given by its projection.  [safe Q I r]: a run that ends with a value satisfies
    [Q], one that ends with an error satisfies [I]; a panic stops the machine, nothing is asked
    of it.  [mem_inv I m]: the computation keeps the invariant [I] of the memory, whatever its
    outcome; [mem_keeps] follows its structure.  The hint database [mem] holds what is known to leave the memory alone, and what
    leaves everything alone; [mem_same] follows the structure of a computation. *)
From S2P Require Import Prelude Xous Server Connections PermissionRequests Process Mapping Memory Kernel Services.

Create HintDb mem.

Definition same {X A} (part : Kernel -> X) (m : KS A) : Prop := forall k, part (m k).1 = part k.
Abbreviation mem_same := (same k_mem).

Section Same.
Context {X : Type} (part : Kernel -> X).
Lemma same_ret {A} (a : A) : same part (st_ret a). Proof. done. Qed.
Lemma same_fail {A} e : same part (st_fail (A := A) e). Proof. done. Qed.
Lemma same_panic {A} : same part (st_panic (A := A)). Proof. done. Qed.
Lemma same_get : same part st_get. Proof. done. Qed.
Lemma same_lift {A} (r : result Error A) : same part (st_lift r). Proof. by destruct r. Qed.
Lemma same_unwrap {A} (o : option A) : same part (st_unwrap o). Proof. by destruct o. Qed.
Lemma same_assert b : same part (st_assert b). Proof. by destruct b. Qed.
Lemma same_outcome {A} (o : outcome Error A) : same part (st_outcome o). Proof. done. Qed.
Lemma same_modify f : (forall k, part (f k) = part k) -> same part (st_modify f).
Proof. intros H k. apply H. Qed.
Lemma same_process pid : same part (process pid).
Proof. intros k. unfold process. by destruct (k_processes k !! pid). Qed.
Lemma same_process_unwrap pid : same part (process_unwrap pid).
Proof. intros k. unfold process_unwrap. by destruct (k_processes k !! pid). Qed.
Lemma same_server_from_sidx sidx : same part (server_from_sidx sidx). Proof. done. Qed.
Lemma same_sidx_from_sid sid pid : same part (sidx_from_sid sid pid). Proof. done. Qed.
Lemma same_server_owner sid : same part (server_owner sid). Proof. done. Qed.
Lemma same_pid_from_app_id app : same part (pid_from_app_id app). Proof. done. Qed.
Lemma same_current_pid : same part current_pid. Proof. done. Qed.
Lemma same_bind {A B} (m : KS A) (f : A -> KS B) :
  same part m -> (forall a, same part (f a)) -> same part (st_bind m f).
Proof.
  intros Hm Hf k. unfold st_bind. specialize (Hm k). destruct (m k) as [k' [a|e|]]; cbn in *; [|done..].
  by rewrite Hf.
Qed.
Lemma same_try {A} (m : KS A) : same part m -> same part (st_try m).
Proof. intros Hm k. unfold st_try. specialize (Hm k). by destruct (m k) as [k' [a|e|]]. Qed.
End Same.

#[export] Hint Resolve same_ret same_fail same_panic same_get same_lift same_unwrap same_assert same_outcome
  same_process same_process_unwrap same_server_from_sidx same_sidx_from_sid same_server_owner
  same_pid_from_app_id same_current_pid : mem.

(** Follow the structure of a computation. *)
Ltac same_step :=
  first
    [ solve [auto with mem]
    | apply same_modify; intros; reflexivity
    | simple apply same_bind; [|intros]
    | simple apply same_try
    | match goal with
      | |- same _ (match ?x with _ => _ end) => destruct x
      | |- same _ (if ?x then _ else _) => destruct x
      | |- same _ (let '(_, _) := ?x in _) => destruct x
      end ].
Ltac mem_same := repeat same_step.

(** ** Invariants of the memory *)

(** From memories with [I] to memories with [X], whatever the outcome. *)
Definition mem_leads {A} (I X : MemState -> Prop) (m : KS A) : Prop :=
  forall k, I (k_mem k) -> X (k_mem (m k).1).
Abbreviation mem_inv I := (mem_leads I I).

Section Inv.
Context (I : MemState -> Prop).
Lemma mem_bind {A B} (m : KS A) (f : A -> KS B) :
  mem_inv I m -> (forall a, mem_inv I (f a)) -> mem_inv I (st_bind m f).
Proof.
  intros Hm Hf k Hk. unfold st_bind. specialize (Hm k Hk). destruct (m k) as [k' [a|e|]]; [by apply Hf|done..].
Qed.
Lemma mem_try {A} (m : KS A) : mem_inv I m -> mem_inv I (st_try m).
Proof. intros Hm k Hk. unfold st_try. specialize (Hm k Hk). by destruct (m k) as [k' [a|e|]]. Qed.
Lemma mem_same_keeps {A} (m : KS A) : mem_same m -> mem_inv I m.
Proof. intros Hm k Hk. by rewrite Hm. Qed.
End Inv.

Ltac mem_keeps_step :=
  first
    [ apply mem_same_keeps; solve [auto with mem]
    | solve [auto with mem]
    | simple apply mem_bind; [|intros]
    | simple apply mem_try
    | match goal with
      | |- mem_leads _ _ (match ?x with _ => _ end) => destruct x
      | |- mem_leads _ _ (if ?x then _ else _) => destruct x
      | |- mem_leads _ _ (let '(_, _) := ?x in _) => destruct x
      end
    | apply mem_same_keeps; solve [mem_same] ].
Ltac mem_keeps := repeat mem_keeps_step.

(** ** Values, errors and panics *)

Definition safe {A} (Q : A -> Kernel -> Prop) (I : Kernel -> Prop) (r : Kernel * outcome Error A) : Prop :=
  match r with (k, Done a) => Q a k | (k, Fail _) => I k | (_, Panic) => True end.

(** The computation keeps [I], with a value and with an error. *)
Definition maintains {A} (I : Kernel -> Prop) (m : KS A) : Prop := forall k, I k -> safe (fun _ => I) I (m k).

(** A step whose outcome is known. *)
Lemma run_bind {S E A B} (m : state S E A) (f : A -> state S E B) s s' a :
  m s = (s', Done a) -> st_bind m f s = f a s'.
Proof. unfold st_bind. by intros ->. Qed.
Lemma safe_bind {A B} (m : KS A) (f : A -> KS B) Q I k :
  safe (fun a k' => safe Q I (f a k')) I (m k) -> safe Q I (st_bind m f k).
Proof. unfold st_bind, safe. by destruct (m k) as [k' [a|e|]]. Qed.
Lemma safe_mono {A} (Q Q' : A -> Kernel -> Prop) (I I' : Kernel -> Prop) r :
  safe Q I r -> (forall a k, Q a k -> Q' a k) -> (forall k, I k -> I' k) -> safe Q' I' r.
Proof. unfold safe. destruct r as [k [a|e|]]; auto. Qed.
Lemma safe_try {A} (m : KS A) Q I I' k :
  safe (fun a => Q (Ok a)) I (m k) -> (forall e k', I k' -> Q (Err e) k') -> safe Q I' (st_try m k).
Proof. unfold st_try, safe. destruct (m k) as [k' [a|e|]]; auto. Qed.

(** The calls [Server.destroy] makes, as computations. *)
Lemma run_op_inv {A} (I : Kernel -> Prop) (m : KS A) k k' r :
  (forall k, I k -> safe (fun _ => I) I (m k)) -> run_op m k = Some (k', r) -> I k -> I k'.
Proof.
  intros Hm E Hk. specialize (Hm k Hk). unfold run_op in E. destruct (m k) as [k1 [a|e|]]; cbn in Hm; by simplify_eq.
Qed.
Lemma run_unwrap_inv (I : Kernel -> Prop) (m : KS unit) k k' :
  (forall k, I k -> safe (fun _ => I) I (m k)) -> run_unwrap m k = Some k' -> I k -> I k'.
Proof.
  intros Hm E Hk. specialize (Hm k Hk). unfold run_unwrap in E. destruct (m k) as [k1 [a|e|]]; cbn in Hm; by simplify_eq.
Qed.
