(* ===== verification/Elf.v ===== *)
(** * The ELF loader ([xous/kernel/src/arch/arm/elf.rs])

    [load_elf] reads the image that was sent to a new process, chooses where it goes, maps its
    segments, relocates it and makes its RELRO part read-only.  It runs in the address space of
    the new process, which is the current one.

    The state is the kernel and the bytes of that address space by virtual address, [ld_bytes].
    The bytes of a page move with it when the page is remapped, a page the kernel allocates is
    zeroed, and an access to an address that is not mapped, or a write to one that is not
    writable, is an abort in the kernel's own mode, a panic.

    [parse_elf] is [ElfFile::new] of the crate [xmas_elf]: what the loader reads of its result -
    the checks of the crate included - is an [ElfFile].  [rand] is the word of the random number
    generator.

    [plan_elf_correct] says what an accepted image is like: no segment is writable and
    executable, no two segments share a page, every segment lies in the span;
    [aslr_choice_correct] where it can go.  What it is like in memory is [ElfImage]. *)
From stdpp Require Import fin_maps gmap.
From S2P Require Import Prelude Xous SysCall Permissions Process MemManager PageTable Mapping Memory.
From S2P Require Import Kernel KernelRules Services.

Definition MAX_DYNAMIC_ENTRIES : Z := 256.
Definition ASLR_START : Z := 0x00010000.
Definition ASLR_END : Z := 0x30000000.
Definition MAX_LOAD_SEGMENTS : nat := 32.

(** ** What the loader reads of a parsed file *)

Inductive ElfMachine : Type := MachineArm | MachineOther.
Inductive ElfType : Type := SharedObject | Executable | OtherElfType.
Inductive SegmentType : Type := SegmentLoad | SegmentDynamic | SegmentGnuRelro | OtherSegment.

Record ProgramHeader32 : Type := mkHeader32 {
  ph_type : SegmentType;
  ph_offset : Z;
  ph_virtual_addr : Z;
  ph_file_size : Z;
  ph_mem_size : Z;
  ph_write : bool;
  ph_execute : bool
}.
(** A header of the iterator, with the answer of [program::sanity_check]. *)
Inductive ProgramHeader : Type :=
| Ph32 (sane : bool) (h : ProgramHeader32)
| Ph64 (sane : bool).
Definition ph_sane (ph : ProgramHeader) : bool :=
  match ph with Ph32 sane _ => sane | Ph64 sane => sane end.

Record ElfFile : Type := mkElfFile {
  elf_sane : bool;   (* [header::sanity_check] *)
  elf_machine : ElfMachine;
  elf_type : ElfType;
  elf_entry_point : Z;
  elf_headers : list ProgramHeader
}.

(** ** Arithmetic *)

Definition align_down (x : Z) : Z := Z.land x (usize_not (PAGE_SIZE - 1)).
Definition align_up (x : Z) : result Error Z := ok_or (checked_next_multiple_of_page x) ParseError.
Definition checked_add_aslr_slide (v slide : Z) : result Error Z := ok_or (checked_add v slide) ParseError.
(** [checked_sub] on [usize]. *)
Definition checked_sub (a b : Z) : option Z := if b <=? a then Some (a - b) else None.

(** A [Range<usize>]. *)
Definition ranges_overlap (a b : MessageRange) : bool := (r_start a <? r_end b) && (r_start b <? r_end a).
Definition range_contains_range (outer inner : MessageRange) : bool :=
  if r_end inner <=? r_start inner then false
  else (r_start outer <=? r_start inner) && (r_end inner <=? r_end outer).

Definition choose_aslr_slide (rand min_vaddr_page span : Z) : result Error Z :=
  if ASLR_END <=? ASLR_START then Err ParseError else
  if (span =? 0) || (ASLR_END - ASLR_START <? span) then Err ParseError else
  let max_base := ASLR_END - span in
  let pages_available := (max_base - ASLR_START) / PAGE_SIZE in
  let page := if pages_available =? 0 then 0 else rand mod (pages_available + 1) in
  let base := ASLR_START + page * PAGE_SIZE in
  ok_or (checked_sub base min_vaddr_page) ParseError.

(** ** The first pass over the headers *)

Record Scan : Type := mkScan {
  sc_headers : list ProgramHeader32;
  sc_load_ranges : list MessageRange;
  sc_writable : list MessageRange;
  sc_exec : list MessageRange;
  sc_dynamic : option (Z * Z);  (* [dynamic_vaddr], [dynamic_filesz] *)
  sc_relro : option (Z * Z);    (* [relro_vaddr], [relro_size] *)
  sc_min : Z;
  sc_max : Z
}.
Definition Scan_initial : Scan := mkScan [] [] [] [] None None (2 ^ 32 - 1) 0.

Definition scan_load (s : Scan) (h : ProgramHeader32) : result Error Scan :=
  if Nat.leb MAX_LOAD_SEGMENTS (length (sc_headers s)) then Err ParseError else
  if ph_mem_size h <? ph_file_size h then Err ParseError else
  let start := ph_virtual_addr h in
  let? end_unaligned := ok_or (checked_add start (ph_mem_size h)) ParseError in
  let seg_range := mkMsgRange start end_unaligned in
  let start_page := align_down start in
  let? end_page := align_up end_unaligned in
  if Nat.leb MAX_LOAD_SEGMENTS (length (sc_load_ranges s)) then Err ParseError else
  if ph_write h && ph_execute h then Err ParseError else
  if ph_write h && Nat.leb MAX_LOAD_SEGMENTS (length (sc_writable s)) then Err ParseError else
  if ph_execute h && Nat.leb MAX_LOAD_SEGMENTS (length (sc_exec s)) then Err ParseError else
  Ok (mkScan (sc_headers s ++ [h]) (sc_load_ranges s ++ [mkMsgRange start_page end_page])
        (if ph_write h then sc_writable s ++ [seg_range] else sc_writable s)
        (if ph_execute h then sc_exec s ++ [seg_range] else sc_exec s)
        (sc_dynamic s) (sc_relro s)
        (Z.min (sc_min s) start) (Z.max (sc_max s) end_unaligned)).

Definition scan_header (s : Scan) (ph : ProgramHeader) : result Error Scan :=
  if negb (ph_sane ph) then Err ParseError else
  match ph with
  | Ph64 _ => Ok s
  | Ph32 _ h =>
      match ph_type h with
      | SegmentLoad => scan_load s h
      | SegmentDynamic =>
          match sc_dynamic s with
          | Some _ => Err ParseError
          | None => Ok (mkScan (sc_headers s) (sc_load_ranges s) (sc_writable s) (sc_exec s)
                          (Some (ph_virtual_addr h, ph_file_size h)) (sc_relro s) (sc_min s) (sc_max s))
          end
      | SegmentGnuRelro =>
          match sc_relro s with
          | Some _ => Err ParseError
          | None => Ok (mkScan (sc_headers s) (sc_load_ranges s) (sc_writable s) (sc_exec s)
                          (sc_dynamic s) (Some (ph_virtual_addr h, ph_mem_size h)) (sc_min s) (sc_max s))
          end
      | OtherSegment => Ok s
      end
  end.
Fixpoint scan_headers (s : Scan) (phs : list ProgramHeader) : result Error Scan :=
  match phs with
  | [] => Ok s
  | ph :: phs => let? s := scan_header s ph in scan_headers s phs
  end.

(** Some pair of ranges of different segments overlaps. *)
Fixpoint any_overlap (ranges : list MessageRange) : bool :=
  match ranges with
  | [] => false
  | r :: ranges => existsb (ranges_overlap r) ranges || any_overlap ranges
  end.

(** What the first pass establishes: the scan, the span of the image, the slide, the entry. *)
Record Layout : Type := mkLayout {
  ly_scan : Scan; ly_image : MessageRange; ly_slide : Z; ly_entry : Z
}.
Definition is_pie (elf : ElfFile) : bool :=
  match elf_type elf with SharedObject => true | _ => false end.
Definition plan_elf (rand : Z) (elf : ElfFile) : result Error Layout :=
  if negb (elf_sane elf) then Err ParseError else
  let is_legacy := match elf_type elf with Executable => true | _ => false end in
  if negb (match elf_machine elf with MachineArm => true | MachineOther => false end)
     || negb (is_legacy || is_pie elf) then Err ParseError else
  let? s := scan_headers Scan_initial (elf_headers elf) in
  if Nat.eqb (length (sc_headers s)) 0 then Err ParseError else
  if any_overlap (sc_load_ranges s) then Err ParseError else
  let image_min_page := align_down (sc_min s) in
  let? image_max_page := align_up (sc_max s) in
  let? image_span := ok_or (checked_sub image_max_page image_min_page) ParseError in
  let image := mkMsgRange image_min_page image_max_page in
  let? aslr_slide :=
    if is_pie elf then
      match sc_dynamic s with
      | None => Err ParseError
      | Some _ => choose_aslr_slide rand image_min_page image_span
      end
    else Ok 0 in
  if negb (range_contains image (elf_entry_point elf)) then Err ParseError else
  let? entry_point := checked_add_aslr_slide (elf_entry_point elf) aslr_slide in
  Ok (mkLayout s image aslr_slide entry_point).

(** ** The address space the image is loaded into *)

Record LoadState : Type := mkLoad { ld_kernel : Kernel; ld_bytes : Z -> Z }.
Abbreviation LS := (state LoadState Error).

Definition on_kernel {A} (m : KS A) : LS A := fun s =>
  let '(k, r) := m (ld_kernel s) in (mkLoad k (ld_bytes s), r).
Definition on_bytes (f : (Z -> Z) -> Z -> Z) : LS unit :=
  st_modify (fun s => mkLoad (ld_kernel s) (f (ld_bytes s))).
(** An operation on page tables. *)
Definition on_mapping {A} (m : MS A) : LS A := on_kernel (lift_mem (fun _ => m)).

Definition in_page (page addr : Z) : bool := align_down addr =? page.
(** The page at [page] holds zeroes, or the bytes of the page at [src]. *)
Definition zero_page (page : Z) (bytes : Z -> Z) (addr : Z) : Z :=
  if in_page page addr then 0 else bytes addr.
Definition copy_page (page src : Z) (bytes : Z -> Z) (addr : Z) : Z :=
  if in_page page addr then bytes (src + (addr - page)) else bytes addr.
Definition copy_bytes (dst : Z) (new : list Z) (bytes : Z -> Z) (addr : Z) : Z :=
  if (dst <=? addr) && (addr <? dst + Z.of_nat (length new))
  then nth (Z.to_nat (addr - dst)) new 0 else bytes addr.

(** Whether the kernel can read, or write, the page at [addr]. *)
Definition page_accessible (write : bool) (pid addr : Z) : MS bool :=
  let* slot := st_try (get_l2_slot pid addr) in
  match slot with
  | Err _ => st_ret false
  | Ok slot =>
      let* entry := read_slot pid slot in
      if negb (is_mapped entry) then st_ret false else
      if negb write then st_ret true else
      let* flags := st_outcome (entry_flags entry) in st_ret (MemoryFlags_is_set flags MF_W)
  end.
Section Loader.
Context (regions : list (Z * Z)) (shared_peripherals : list Z).
(** The process of [MemoryMapping::current()]. *)
Context (mapping : Z).

Fixpoint assert_accessible (write : bool) (pages : list Z) : LS unit :=
  match pages with
  | [] => st_ret tt
  | page :: pages =>
      let* ok := on_mapping (page_accessible write mapping page) in
      let* _ := st_assert ok in assert_accessible write pages
  end.
Definition pages_between (addr len : Z) : list Z := pages_of (align_down addr) (addr + len - align_down addr).

Definition read_bytes (addr len : Z) : LS (list Z) :=
  let* _ := assert_accessible false (pages_between addr len) in
  let* s := st_get in st_ret (map (fun i => ld_bytes s (addr + i)) (seqZ 0 len)).
Definition write_bytes (addr : Z) (new : list Z) : LS unit :=
  let* _ := assert_accessible true (pages_between addr (Z.of_nat (length new))) in
  on_bytes (copy_bytes addr new).
(** [read_unaligned] and [write_unaligned] of a [u32]. *)
Definition word_of_bytes (bs : list Z) : Z :=
  match bs with [b0; b1; b2; b3] => u32_from_le_bytes b0 b1 b2 b3 | _ => 0 end.
Definition read_word (addr : Z) : LS Z :=
  let* bs := read_bytes addr 4 in st_ret (word_of_bytes bs).
Definition write_word (addr w : Z) : LS unit := write_bytes addr (u32_to_le_bytes w).

(** ** The segments *)

(** [mm.map_range(0, page, PAGE_SIZE, flags, true)]: the page is zeroed, now or when it is backed. *)
Definition map_fresh_page (page flags : Z) : LS unit :=
  let* range := on_kernel (map_range regions shared_peripherals 0 page PAGE_SIZE flags true) in
  on_bytes (zero_page (range_addr range)).

Definition remap_page_flags (va new_flags : Z) : LS unit :=
  let* phys := on_mapping (virt_to_phys mapping va) in
  let* _ := on_mapping (unmap_page mapping va) in
  on_mapping (map_page mapping phys va new_flags true).

Definition segment_flags (h : ProgramHeader32) : Z :=
  MemoryFlags_bitor (if ph_write h then MF_W else 0) (if ph_execute h then MF_X else 0).

(** The header after [n] bytes of memory and [m] bytes of the file. *)
Definition advance (h : ProgramHeader32) (m n : Z) : ProgramHeader32 :=
  mkHeader32 (ph_type h) (u32 (ph_offset h + m)) (u32 (ph_virtual_addr h + n))
    (u32 (ph_file_size h - m)) (u32 (ph_mem_size h - n)) (ph_write h) (ph_execute h).

(** The rest of a segment from [header] on: the whole page is moved, or one part is copied. *)
Definition whole_page (must_copy : bool) (h : ProgramHeader32) : bool :=
  page_aligned (ph_virtual_addr h) && page_aligned (ph_offset h)
  && (PAGE_SIZE <=? ph_mem_size h) && (PAGE_SIZE <=? ph_file_size h) && negb must_copy.

Definition move_whole_page (address slide flags : Z) (h : ProgramHeader32) : LS ProgramHeader32 :=
  let* dst := st_lift (checked_add_aslr_slide (ph_virtual_addr h) slide) in
  let src := usize (address + ph_offset h) in
  let* phys := on_mapping (virt_to_phys mapping src) in
  let* _ := on_mapping (unmap_page mapping src) in
  let* _ := on_mapping (map_page mapping phys dst flags true) in
  let* _ := on_bytes (copy_page dst src) in
  st_ret (advance h PAGE_SIZE PAGE_SIZE).

Definition copy_part (address len slide flags : Z) (h : ProgramHeader32) : LS ProgramHeader32 :=
  let vaddr_page_orig := align_down (ph_virtual_addr h) in
  let* vaddr_page := st_lift (checked_add_aslr_slide vaddr_page_orig slide) in
  let* rest := st_lift (ok_or (let! e := checked_add vaddr_page_orig PAGE_SIZE in
                               checked_sub e (ph_virtual_addr h)) ParseError) in
  let mapped_size := Z.min rest (ph_mem_size h) in
  let* copied :=
    if 0 <? ph_file_size h then
      let copy_size := Z.min (ph_file_size h) mapped_size in
      let* src_end := st_lift (ok_or (checked_add (ph_offset h) copy_size) ParseError) in
      let* _ := if len <? src_end then st_fail ParseError else st_ret tt in
      let* dst_ptr := st_lift (checked_add_aslr_slide (ph_virtual_addr h) slide) in
      let* _ := map_fresh_page vaddr_page (MemoryFlags_bitor MF_W MF_POPULATE) in
      let* src := read_bytes (address + ph_offset h) copy_size in
      let* _ := write_bytes dst_ptr src in
      let* _ := remap_page_flags vaddr_page flags in
      let* _ := st_lift (ok_or (let! _ := checked_add (ph_offset h) copy_size in
                                checked_sub (ph_file_size h) copy_size) ParseError) in
      st_ret copy_size
    else
      let* _ := map_fresh_page vaddr_page flags in st_ret 0 in
  let* _ := st_lift (ok_or (let! _ := checked_add (ph_virtual_addr h) mapped_size in
                            checked_sub (ph_mem_size h) mapped_size) ParseError) in
  st_ret (advance h copied mapped_size).

(** The [while header.mem_size > 0]; a step covers a page, or the part of one up to its end. *)
Fixpoint load_pages (fuel : nat) (must_copy : bool) (address len slide flags : Z) (h : ProgramHeader32)
    : LS ProgramHeader32 :=
  match fuel with
  | O => st_ret h
  | S fuel =>
      if ph_mem_size h <=? 0 then st_ret h else
      let* h := if whole_page must_copy h then move_whole_page address slide flags h
                else copy_part address len slide flags h in
      load_pages fuel must_copy address len slide flags h
  end.
Definition pages_fuel (h : ProgramHeader32) : nat := Z.to_nat (ph_mem_size h / PAGE_SIZE + 2).

Definition load_segment (pie : bool) (address len slide : Z) (h : ProgramHeader32) : LS ProgramHeader32 :=
  let* _ :=
    if 0 <? ph_file_size h then
      let* stop := st_lift (ok_or (checked_add (ph_offset h) (ph_file_size h)) ParseError) in
      if u32 len <? stop then st_fail ParseError else st_ret tt
    else st_ret tt in
  let* seg_start := st_lift (checked_add_aslr_slide (ph_virtual_addr h) slide) in
  let* seg_end_original := st_lift (ok_or (checked_add (ph_virtual_addr h) (ph_mem_size h)) ParseError) in
  let* seg_end := st_lift (checked_add_aslr_slide seg_end_original slide) in
  let* _ :=
    if pie then
      let* win_start := st_lift (align_up ASLR_START) in
      let win_end := align_down ASLR_END in
      if (seg_start <? win_start) || (win_end <? seg_end) then st_fail ParseError else st_ret tt
    else if USER_AREA_END <? seg_end then st_fail ParseError else st_ret tt in
  let final_flags := segment_flags h in
  if MemoryFlags_is_set final_flags (MemoryFlags_bitor MF_W MF_X) then st_fail ParseError else
  let* phys := st_try (on_mapping (virt_to_phys mapping (usize (address + ph_offset h)))) in
  let must_copy := ph_write h && negb (is_address_encrypted (match phys with Ok p => p | Err _ => 0 end)) in
  load_pages (pages_fuel h) must_copy address len slide final_flags h.

Fixpoint load_segments (pie : bool) (address len slide : Z) (hs : list ProgramHeader32) : LS unit :=
  match hs with
  | [] => st_ret tt
  | h :: hs => let* _ := load_segment pie address len slide h in load_segments pie address len slide hs
  end.

(** ** Relocation *)

Definition DT_NULL : Z := 0.
Definition DT_REL : Z := 17.
Definition DT_RELSZ : Z := 18.
Definition DT_RELENT : Z := 19.
Definition R_ARM_RELATIVE : Z := 23.
Definition ELF32_DYN_SIZE : Z := 8.
Definition ELF32_REL_SIZE : Z := 8.
Definition MAX_RELOCS : Z := 200000.
Definition MAX_REL_BYTES : Z := MAX_RELOCS * ELF32_REL_SIZE.
Definition elf32_r_type (info : Z) : Z := Z.land info 0xff.

(** [rel_ptr], [rel_sz], [rel_ent] as far as the table was read. *)
Record RelInfo : Type := mkRel { rel_ptr : Z; rel_sz : Z; rel_ent : Z }.
Definition dynamic_entry (r : RelInfo) (tag val : Z) : RelInfo :=
  if tag =? DT_REL then mkRel val (rel_sz r) (rel_ent r)
  else if tag =? DT_RELSZ then mkRel (rel_ptr r) val (rel_ent r)
  else if tag =? DT_RELENT then mkRel (rel_ptr r) (rel_sz r) val
  else r.
(** [true] when the null entry was met. *)
Fixpoint read_dynamic (r : RelInfo) (entries : list Z) : LS (RelInfo * bool) :=
  match entries with
  | [] => st_ret (r, false)
  | entry :: entries =>
      let* tag := read_word entry in
      let* val := read_word (entry + 4) in
      if tag =? DT_NULL then st_ret (r, true) else read_dynamic (dynamic_entry r tag val) entries
  end.
Definition entries_from (base size count : Z) : list Z := map (fun i => base + i * size) (seqZ 0 count).

Definition parse_dynamic_rel_info (slide dynamic_vaddr_orig dynamic_filesz : Z) : LS RelInfo :=
  let* dyn_ptr := st_lift (checked_add_aslr_slide dynamic_vaddr_orig slide) in
  let num_entries := dynamic_filesz / ELF32_DYN_SIZE in
  if (num_entries =? 0) || (MAX_DYNAMIC_ENTRIES <? num_entries) then st_fail ParseError else
  let* (r, saw_dt_null) := read_dynamic (mkRel 0 0 0) (entries_from dyn_ptr ELF32_DYN_SIZE num_entries) in
  if negb saw_dt_null then st_fail ParseError else
  if (rel_ptr r =? 0) || (rel_sz r =? 0) || negb (rel_ent r =? ELF32_REL_SIZE) then st_fail ParseError else
  if MAX_REL_BYTES <? rel_sz r then st_fail ParseError else
  if negb (rel_sz r mod ELF32_REL_SIZE =? 0) then st_fail ParseError else
  st_ret r.

Definition in_some_range (ranges : list MessageRange) (start stop : Z) : bool :=
  existsb (fun r => (r_start r <=? start) && (stop <=? r_end r)) ranges.

Definition apply_relocation (slide : Z) (image : MessageRange) (writable : list MessageRange) (rel : Z) : LS unit :=
  let* r_offset := read_word rel in
  let* r_info := read_word (rel + 4) in
  if negb (elf32_r_type r_info =? R_ARM_RELATIVE) then st_fail ParseError else
  let* dst_end := st_lift (ok_or (checked_add r_offset 4) ParseError) in
  if (r_offset <? r_start image) || (r_end image <? dst_end) then st_fail ParseError else
  if negb (in_some_range writable r_offset dst_end) then st_fail ParseError else
  let* where_ptr := st_lift (checked_add_aslr_slide r_offset slide) in
  let* addend := read_word where_ptr in
  let* relocated := st_lift (ok_or (checked_add addend slide) ParseError) in
  write_word where_ptr relocated.
Fixpoint apply_relocation_list (slide : Z) (image : MessageRange) (writable : list MessageRange) (rels : list Z)
    : LS unit :=
  match rels with
  | [] => st_ret tt
  | rel :: rels =>
      let* _ := apply_relocation slide image writable rel in apply_relocation_list slide image writable rels
  end.
Definition apply_relocations (slide ptr sz : Z) (image : MessageRange) (writable : list MessageRange) : LS unit :=
  let count := sz / ELF32_REL_SIZE in
  if MAX_RELOCS <? count then st_fail ParseError else
  let* rel_base := st_lift (checked_add_aslr_slide ptr slide) in
  apply_relocation_list slide image writable (entries_from rel_base ELF32_REL_SIZE count).

Fixpoint remap_read_only (pages : list Z) : LS unit :=
  match pages with
  | [] => st_ret tt
  | va :: pages =>
      let* _ := remap_page_flags va 0 in
      let* _ := st_lift (ok_or (checked_add va PAGE_SIZE) ParseError) in
      remap_read_only pages
  end.
Definition mark_pages_read_only (start size : Z) : LS unit :=
  if size =? 0 then st_ret tt else
  let* stop := st_lift (let? e := ok_or (checked_add start size) ParseError in align_up e) in
  remap_read_only (pages_of (align_down start) (stop - align_down start)).

Definition relocate_image (ly : Layout) : LS unit :=
  let s := ly_scan ly in
  let* (dyn_vaddr, dynamic_filesz) := st_lift (ok_or (sc_dynamic s) ParseError) in
  let* dyn_end := st_lift (ok_or (checked_add dyn_vaddr dynamic_filesz) ParseError) in
  if negb (range_contains_range (ly_image ly) (mkMsgRange dyn_vaddr dyn_end)) then st_fail ParseError else
  let* r := parse_dynamic_rel_info (ly_slide ly) dyn_vaddr dynamic_filesz in
  let* rel_end := st_lift (ok_or (checked_add (rel_ptr r) (rel_sz r)) ParseError) in
  if negb (range_contains_range (ly_image ly) (mkMsgRange (rel_ptr r) rel_end)) then st_fail ParseError else
  let* _ := apply_relocations (ly_slide ly) (rel_ptr r) (rel_sz r) (ly_image ly) (sc_writable s) in
  match sc_relro s with
  | None => st_ret tt
  | Some (rva, rsz) =>
      let* relro_end := st_lift (ok_or (checked_add rva rsz) ParseError) in
      if negb (range_contains_range (ly_image ly) (mkMsgRange rva relro_end)) then st_fail ParseError else
      let* start := st_lift (checked_add_aslr_slide rva (ly_slide ly)) in
      mark_pages_read_only start rsz
  end.

(** ** The loader *)

Context (parse_elf : list Z -> option ElfFile) (rand : Z).

(** The entry point and the slide. *)
Definition load_elf_in (address len : Z) : LS (Z * Z) :=
  let* elf_slice := read_bytes address len in
  let* elf := st_lift (ok_or (parse_elf elf_slice) ParseError) in
  let* ly := st_lift (plan_elf rand elf) in
  let* _ := load_segments (is_pie elf) address len (ly_slide ly) (sc_headers (ly_scan ly)) in
  let* _ := if is_pie elf then relocate_image ly else st_ret tt in
  let* _ := st_try (on_kernel (unmap_range regions shared_peripherals address len)) in
  st_ret (ly_entry ly, ly_slide ly).
End Loader.

Definition load_elf regions shared_peripherals parse_elf rand (address len : Z) : LS (Z * Z) :=
  let* mapping := on_kernel current_pid in
  load_elf_in regions shared_peripherals mapping parse_elf rand address len.

(** ** Pages and ranges *)

Lemma align_down_eq x : is_u32 x -> align_down x = x / PAGE_SIZE * PAGE_SIZE.
Proof.
  intros Hx. unfold align_down. change (usize_not (PAGE_SIZE - 1)) with (Z.shiftl (2 ^ 20 - 1) 12).
  pose proof (Z.div_mod x PAGE_SIZE ltac:(done)) as E. unfold PAGE_SIZE in *. unfold is_u32 in Hx.
  assert (x = Z.lor (Z.shiftl (x / 4096) 12) (x mod 4096)) as Ex.
  { rewrite lor_shiftl_add by (Z.div_mod_to_equations; lia). change (2 ^ 12) with 4096. lia. }
  rewrite Ex at 1. rewrite Z.land_lor_distr_l, <-Z.shiftl_land, land_ones_mod by lia.
  rewrite (Z.land_comm (x mod 4096)), land_shiftl_small, Z.lor_0_r by (Z.div_mod_to_equations; lia).
  rewrite Z.mod_small by (Z.div_mod_to_equations; lia). by rewrite Z.shiftl_mul_pow2 by lia.
Qed.
Lemma align_down_bounds x :
  is_u32 x -> align_down x mod PAGE_SIZE = 0 /\ align_down x <= x < align_down x + PAGE_SIZE /\ 0 <= align_down x.
Proof. intros Hx. rewrite align_down_eq by done. unfold is_u32, PAGE_SIZE in *. Z.div_mod_to_equations. lia. Qed.

Lemma page_aligned_mod x : page_aligned x = (x mod PAGE_SIZE =? 0).
Proof. unfold page_aligned. by change (PAGE_SIZE - 1) with (2 ^ 12 - 1); rewrite land_ones_mod. Qed.

Lemma align_up_Ok x y :
  is_u32 x -> align_up x = Ok y -> y mod PAGE_SIZE = 0 /\ x <= y < x + PAGE_SIZE /\ is_u32 y.
Proof.
  intros Hx. unfold align_up, checked_next_multiple_of_page. change (Z.land x _) with (align_down x).
  pose proof (align_down_bounds x Hx) as (Hm & Hb & H0). rewrite page_aligned_mod.
  unfold checked_add. destruct (_ + _ <? _) eqn:E; cbn [ok_or]; [|done]. intros [= <-]. unfold is_u32, PAGE_SIZE in *.
  destruct (x mod 4096 =? 0) eqn:Ea; Z.div_mod_to_equations; lia.
Qed.

(** The bytes of a segment in memory, before the slide. *)
Definition in_segment (h : ProgramHeader32) (a : Z) : Prop :=
  ph_virtual_addr h <= a < ph_virtual_addr h + ph_mem_size h.
Definition in_range (r : MessageRange) (a : Z) : Prop := r_start r <= a < r_end r.

Definition wf_header (h : ProgramHeader32) : Prop :=
  is_u32 (ph_offset h) /\ is_u32 (ph_virtual_addr h) /\ is_u32 (ph_file_size h) /\ is_u32 (ph_mem_size h).
Definition wf_elf (elf : ElfFile) : Prop :=
  is_u32 (elf_entry_point elf) /\ forall sane h, Ph32 sane h ∈ elf_headers elf -> wf_header h.
Definition wf_parser (parse : list Z -> option ElfFile) : Prop := forall image elf, parse image = Some elf -> wf_elf elf.

Definition load_header (ph : ProgramHeader) : option ProgramHeader32 :=
  match ph with Ph32 _ h => match ph_type h with SegmentLoad => Some h | _ => None end | Ph64 _ => None end.
(** The segments of a file, in order. *)
Definition segments (phs : list ProgramHeader) : list ProgramHeader32 := omap load_header phs.

Definition covers (r : MessageRange) (h : ProgramHeader32) : Prop :=
  r_start r = align_down (ph_virtual_addr h) /\ r_end r mod PAGE_SIZE = 0
  /\ ph_virtual_addr h + ph_mem_size h <= r_end r.
Definition segment_ok (h : ProgramHeader32) : Prop :=
  wf_header h /\ ph_file_size h <= ph_mem_size h /\ ph_virtual_addr h + ph_mem_size h < 2 ^ 32
  /\ ph_write h && ph_execute h = false.
Definition segment_range (h : ProgramHeader32) : MessageRange :=
  mkMsgRange (ph_virtual_addr h) (ph_virtual_addr h + ph_mem_size h).

(** What the scan holds after the headers whose segments are [hs]. *)
Record scanned (hs : list ProgramHeader32) (s : Scan) : Prop := {
  scd_headers : sc_headers s = hs;
  scd_ok : Forall segment_ok hs;
  scd_ranges : Forall2 covers (sc_load_ranges s) hs;
  scd_writable : sc_writable s = map segment_range (List.filter ph_write hs);
  scd_span : Forall (fun h => sc_min s <= ph_virtual_addr h
                              /\ ph_virtual_addr h + ph_mem_size h <= sc_max s) hs;
  scd_bounds : is_u32 (sc_min s) /\ is_u32 (sc_max s);
  scd_relro : forall v n, sc_relro s = Some (v, n) -> is_u32 v /\ is_u32 n
}.

Lemma scan_load_ok hs s h s' :
  scanned hs s -> wf_header h -> scan_load s h = Ok s' -> scanned (hs ++ [h]) s'.
Proof.
  intros [H1 H2 H3 H4 H5 H6 H7] Hw. pose proof Hw as (_ & Hv & _ & Hm). unfold scan_load.
  destruct (Nat.leb _ _); [done|]. destruct (Z.ltb_spec (ph_mem_size h) (ph_file_size h)); [done|].
  unfold checked_add. destruct (Z.ltb_spec (ph_virtual_addr h + ph_mem_size h) (2 ^ 32)); [|done]. cbn [ok_or].
  destruct (align_up _) as [end_page|] eqn:Eu; [|done].
  apply align_up_Ok in Eu as (Eu1 & Eu2 & Eu3); [|unfold is_u32 in *; lia].
  destruct (Nat.leb _ _); [done|]. destruct (ph_write h && ph_execute h) eqn:Ewx; [done|].
  destruct (ph_write h && Nat.leb _ _); [done|].
  destruct (ph_execute h && Nat.leb _ _); [done|]. intros [= <-]. split; cbn.
  - by rewrite H1.
  - apply Forall_app. split; [done|]. constructor; [|done]. by split_and!.
  - apply Forall2_app; [done|]. constructor; [|done]. split_and!; cbn; [done..|lia].
  - rewrite filter_app, map_app. cbn. destruct (ph_write h); [by rewrite H4|by rewrite app_nil_r].
  - apply Forall_app. split; [|constructor; [lia|done]].
    eapply Forall_impl; [|exact H5]. cbn. intros x [? ?]. lia.
  - unfold is_u32 in *. lia.
  - exact H7.
Qed.

Lemma scan_headers_ok phs hs s s' :
  scanned hs s -> (forall sane h, Ph32 sane h ∈ phs -> wf_header h) -> scan_headers s phs = Ok s' ->
  scanned (hs ++ segments phs) s'.
Proof.
  revert hs s. induction phs as [|ph phs IH]; intros hs s Hs Hw.
  { intros [= <-]. cbn. by rewrite app_nil_r. }
  cbn [scan_headers]. destruct (scan_header s ph) as [s1|] eqn:E; [|done]. intros Hrest.
  unfold segments. cbn [omap list_omap]. fold (segments phs).
  assert (scanned (hs ++ match load_header ph with Some h => [h] | None => [] end) s1) as Hs1.
  { assert (scanned hs s1 -> load_header ph = None -> scanned (hs ++ match load_header ph with Some h => [h] | None => [] end) s1) as Hsame
      by (intros ? ->; by rewrite app_nil_r).
    revert E. unfold scan_header. destruct (negb _); [done|]. destruct ph as [sane h|sane]; cbn [load_header] in *.
    - destruct (ph_type h).
      + intros E. eapply scan_load_ok; [done| |done]. apply (Hw sane). apply elem_of_cons. by left.
      + destruct (sc_dynamic s); [done|]. intros [= <-]. apply Hsame; [|done]. by destruct Hs.
      + destruct (sc_relro s); [done|]. intros [= <-]. apply Hsame; [|done].
        destruct (Hw sane h ltac:(apply elem_of_cons; by left)) as (_ & ? & _ & ?). destruct Hs. split; try done.
        by intros v n [= <- <-].
      + intros [= <-]. by apply Hsame.
    - intros [= <-]. by apply Hsame. }
  specialize (IH _ _ Hs1). destruct (load_header ph) as [h|]; cbn in IH |- *.
  - rewrite <-app_assoc in IH. apply IH; [|done]. intros sane x Hx. apply (Hw sane). apply elem_of_cons. by right.
  - rewrite app_nil_r in IH. apply IH; [|done]. intros sane x Hx. apply (Hw sane). apply elem_of_cons. by right.
Qed.

Lemma any_overlap_false ranges i j a b :
  any_overlap ranges = false -> ranges !! i = Some a -> ranges !! j = Some b -> i <> j -> ranges_overlap a b = false.
Proof.
  assert (forall x y, ranges_overlap x y = ranges_overlap y x) as Hsym by (intros x y; apply andb_comm).
  revert i j. induction ranges as [|r ranges IH]; intros i j H Hi Hj Hne; [by rewrite lookup_nil in Hi|].
  cbn in H. apply orb_false_iff in H as [H1 H2].
  assert (forall k x, ranges !! k = Some x -> ranges_overlap r x = false) as Hr.
  { intros k x Hx. destruct (ranges_overlap r x) eqn:E; [|done]. enough (existsb (ranges_overlap r) ranges = true) by congruence.
    apply existsb_exists. exists x. split; [|done]. apply list_elem_of_In. by eapply list_elem_of_lookup_2. }
  destruct i as [|i], j as [|j]; cbn in Hi, Hj; [done| | |by eapply IH; [|done..|congruence]].
  - injection Hi as <-. by eapply Hr.
  - injection Hj as <-. rewrite Hsym. by eapply Hr.
Qed.

(** ** The choice of the slide *)

Definition in_window (min span slide : Z) : Prop :=
  0 <= slide /\ slide mod PAGE_SIZE = 0 /\ ASLR_START <= min + slide /\ min + slide + span <= ASLR_END.

Lemma choose_aslr_window rand min span slide :
  0 <= rand -> min mod PAGE_SIZE = 0 -> span mod PAGE_SIZE = 0 -> 0 <= span ->
  choose_aslr_slide rand min span = Ok slide -> 0 < span /\ in_window min span slide.
Proof.
  intros Hr Hm Hs H0. unfold choose_aslr_slide, in_window. destruct (Z.leb_spec ASLR_END ASLR_START); [done|].
  destruct (Z.eqb_spec span 0); [done|]. destruct (Z.ltb_spec (ASLR_END - ASLR_START) span); [done|]. cbn [orb].
  set (available := (ASLR_END - span - ASLR_START) / PAGE_SIZE).
  set (page := if available =? 0 then 0 else rand mod (available + 1)).
  assert (0 <= page <= available) as Hp.
  { assert (0 <= available) as Ha by (apply Z.div_pos; [lia|done]). unfold page.
    destruct (Z.eqb_spec available 0); [lia|]. pose proof (Z.mod_pos_bound rand (available + 1) ltac:(lia)). lia. }
  unfold checked_sub. destruct (Z.leb_spec min (ASLR_START + page * PAGE_SIZE)); cbn [ok_or]; [|done]. intros [= <-].
  unfold available, ASLR_END, ASLR_START, PAGE_SIZE in *. Z.div_mod_to_equations. lia.
Qed.

(** The place that a random word stands for: one of the pages at which the image fits. *)
Definition aslr_place (rand span : Z) : Z :=
  ASLR_START + rand mod ((ASLR_END - span - ASLR_START) / PAGE_SIZE + 1) * PAGE_SIZE.
Lemma aslr_place_window rand span :
  is_u32 rand -> 0 < span <= ASLR_END - ASLR_START -> span mod PAGE_SIZE = 0 ->
  aslr_place rand span mod PAGE_SIZE = 0 /\ ASLR_START <= aslr_place rand span /\ aslr_place rand span + span <= ASLR_END.
Proof.
  intros [Hr _] Hs Hspan. unfold aslr_place. set (available := (ASLR_END - span - ASLR_START) / PAGE_SIZE).
  assert (0 <= available /\ available * PAGE_SIZE <= ASLR_END - span - ASLR_START) as [Ha Hp].
  { unfold available, ASLR_END, ASLR_START, PAGE_SIZE in *. Z.div_mod_to_equations. lia. }
  pose proof (Z.mod_pos_bound rand (available + 1) ltac:(lia)) as Hm. generalize dependent (rand mod (available + 1)). intros n Hn.
  unfold ASLR_END, ASLR_START, PAGE_SIZE in *. split; [|nia]. by rewrite Z.mod_add by lia.
Qed.
Lemma choose_place rand min span :
  0 < span <= ASLR_END - ASLR_START ->
  choose_aslr_slide rand min span = if min <=? aslr_place rand span then Ok (aslr_place rand span - min) else Err ParseError.
Proof.
  intros Hs. unfold choose_aslr_slide, aslr_place. destruct (Z.leb_spec ASLR_END ASLR_START); [done|].
  destruct (Z.eqb_spec span 0); [lia|]. destruct (Z.ltb_spec (ASLR_END - ASLR_START) span); [lia|]. cbn [orb].
  generalize ((ASLR_END - span - ASLR_START) / PAGE_SIZE). intros available.
  assert ((if available =? 0 then 0 else rand mod (available + 1)) = rand mod (available + 1)) as ->.
  { destruct (Z.eqb_spec available 0) as [->|]; [by rewrite Z.mod_1_r|done]. }
  unfold checked_sub. by destruct (min <=? _).
Qed.
(** C40: Where an image with the pages from [min] on and [span] bytes goes, when it is not larger than
    the window.  The random word stands for a place in the window, which is page aligned and
    holds the whole image, and every such place is that of some random word.  The slide leads
    from [min] to this place.  As a slide cannot be negative, the image is refused exactly if the
    place is below [min]: never when [min] is at or below the window, but with some random words
    when the image begins above the start of the window. *)
Theorem aslr_choice_correct min span :
  0 <= min -> min mod PAGE_SIZE = 0 -> 0 < span <= ASLR_END - ASLR_START -> span mod PAGE_SIZE = 0 ->
  (forall rand, is_u32 rand ->
     (aslr_place rand span mod PAGE_SIZE = 0 /\ ASLR_START <= aslr_place rand span /\ aslr_place rand span + span <= ASLR_END)
     /\ choose_aslr_slide rand min span
        = if min <=? aslr_place rand span then Ok (aslr_place rand span - min) else Err ParseError)
  /\ (forall rand slide, is_u32 rand -> choose_aslr_slide rand min span = Ok slide -> in_window min span slide)
  /\ (min <= ASLR_START -> forall rand, is_u32 rand -> is_Ok (choose_aslr_slide rand min span) = true)
  /\ (forall base, base mod PAGE_SIZE = 0 -> ASLR_START <= base -> base + span <= ASLR_END ->
        exists rand, is_u32 rand /\ aslr_place rand span = base
          /\ (min <= base -> choose_aslr_slide rand min span = Ok (base - min))).
Proof.
  intros H0 Hm Hs Hspan. split; [|split; [|split]].
  - intros rand Hr. split; [by apply aslr_place_window|by apply choose_place].
  - intros rand slide [Hr _] E. by apply choose_aslr_window in E as [_ E]; [|done|done|done|lia].
  - intros Hmin rand Hr. rewrite choose_place by done. destruct (aslr_place_window rand span Hr Hs Hspan) as (_ & Hlo & _).
    by destruct (Z.leb_spec min (aslr_place rand span)); [|lia].
  - intros base Hb Hlo Hhi. exists ((base - ASLR_START) / PAGE_SIZE).
    assert (0 <= (base - ASLR_START) / PAGE_SIZE <= (ASLR_END - span - ASLR_START) / PAGE_SIZE
      /\ (base - ASLR_START) / PAGE_SIZE * PAGE_SIZE = base - ASLR_START) as [Hr Eb].
    { unfold ASLR_END, ASLR_START, PAGE_SIZE in *. Z.div_mod_to_equations. lia. }
    assert (aslr_place ((base - ASLR_START) / PAGE_SIZE) span = base) as Ep by (unfold aslr_place; rewrite Z.mod_small by lia; lia).
    split. { unfold is_u32, ASLR_END, ASLR_START, PAGE_SIZE in *. Z.div_mod_to_equations. lia. }
    split; [done|]. intros Hmin. rewrite choose_place, Ep by done. by rewrite (proj2 (Z.leb_le _ _) Hmin).
Qed.

Lemma aslr_choice_correct_witness :
  (exists rand, is_u32 rand /\ choose_aslr_slide rand 0 0x3000 = Ok 0x1234000)
  /\ choose_aslr_slide 0 0x20000 0x1000 = Err ParseError.
Proof.
  split.
  - destruct (aslr_choice_correct 0 0x3000 ltac:(lia) eq_refl ltac:(vm_compute; intuition congruence) eq_refl) as (_ & _ & _ & H).
    destruct (H 0x1234000) as (rand & Hr & _ & E); [vm_compute; intuition congruence..|]. exists rand. split; [exact Hr|].
    apply E. vm_compute. discriminate.
  - destruct (aslr_choice_correct 0x20000 0x1000 ltac:(lia) eq_refl ltac:(vm_compute; intuition congruence) eq_refl) as (H & _).
    destruct (H 0) as [_ E]; [unfold is_u32; lia|]. exact E.
Defined.

(** ** What an accepted image is like *)

Lemma plan_elf_scanned rand elf ly :
  wf_elf elf -> plan_elf rand elf = Ok ly -> scanned (segments (elf_headers elf)) (ly_scan ly).
Proof.
  intros [_ Hw] H. unfold plan_elf in H. destruct (negb _); [done|]. destruct (_ || _); [done|].
  destruct (scan_headers _ _) as [s|] eqn:Es; [|done].
  assert (ly_scan ly = s) as -> by (repeat (case_match; try done); by simplify_eq).
  apply (scan_headers_ok _ [] Scan_initial); [|done|done]. by split.
Qed.

Lemma plan_elf_spec rand elf ly :
  wf_elf elf -> is_u32 rand -> plan_elf rand elf = Ok ly ->
  let hs := sc_headers (ly_scan ly) in
  let image := ly_image ly in
  hs = segments (elf_headers elf) /\ hs <> []
  /\ Forall (fun h => ph_file_size h <= ph_mem_size h /\ ~ (ph_write h = true /\ ph_execute h = true)) hs
  /\ (forall i j h h' a b, hs !! i = Some h -> hs !! j = Some h' -> i <> j ->
        in_segment h a -> in_segment h' b -> a / PAGE_SIZE <> b / PAGE_SIZE)
  /\ (forall h a, h ∈ hs -> in_segment h a -> in_range image a)
  /\ in_range image (elf_entry_point elf) /\ ly_entry ly = elf_entry_point elf + ly_slide ly
  /\ r_start image mod PAGE_SIZE = 0 /\ r_end image mod PAGE_SIZE = 0
  /\ (if is_pie elf then in_window (r_start image) (r_end image - r_start image) (ly_slide ly) else ly_slide ly = 0).
Proof.
  intros [He Hw] [Hr _]. unfold plan_elf. destruct (negb _); [done|]. destruct (_ || _); [done|].
  destruct (scan_headers _ _) as [s|] eqn:Es; [|done].
  assert (scanned (segments (elf_headers elf)) s) as [H1 H2 H3 H4 H5 [H6 H7] _].
  { apply (scan_headers_ok _ [] Scan_initial); [|done|done]. split; cbn; try done. }
  destruct (Nat.eqb_spec (length (sc_headers s)) 0) as [|Hne]; [done|].
  destruct (any_overlap _) eqn:Eo; [done|]. destruct (align_up (sc_max s)) as [stop|] eqn:Eu; [|done].
  apply align_up_Ok in Eu as (Eu1 & Eu2 & Eu3); [|done]. pose proof (align_down_bounds _ H6) as (Ed1 & Ed2 & Ed3).
  unfold checked_sub. destruct (Z.leb_spec (align_down (sc_min s)) stop); [|done]. cbn [ok_or].
  set (start := align_down (sc_min s)) in *.
  destruct (if is_pie elf then _ else _) as [slide|] eqn:Epie; [|done].
  destruct (range_contains _ _) eqn:Ein; [|done]. cbn [negb]. unfold checked_add_aslr_slide, checked_add.
  destruct (_ <? _) eqn:Ee; [|done]. cbn [ok_or]. intros [= <-]. cbn.
  rewrite H1. split_and!; try done.
  - intros E. apply Hne. by rewrite H1, E.
  - eapply Forall_impl; [|exact H2]. intros h (_ & ? & _ & E). split; [done|]. intros [E1 E2]. by rewrite E1, E2 in E.
  - intros i j h h' a b Hi Hj Hij Ha Hb Eab.
    destruct (Forall2_lookup_r _ _ _ _ _ H3 Hi) as (r & Hri & C1 & C2 & C3).
    destruct (Forall2_lookup_r _ _ _ _ _ H3 Hj) as (r' & Hrj & C1' & C2' & C3').
    pose proof (any_overlap_false _ i j r r' Eo Hri Hrj Hij) as Hov. unfold ranges_overlap in Hov.
    pose proof (list.Forall_lookup_1 _ _ _ _ H2 Hi) as ((_ & Hv & _) & _).
    pose proof (list.Forall_lookup_1 _ _ _ _ H2 Hj) as ((_ & Hv' & _) & _).
    pose proof (align_down_bounds _ Hv) as (D1 & D2 & _). pose proof (align_down_bounds _ Hv') as (D1' & D2' & _).
    unfold in_segment in *. rewrite C1, C1' in Hov. unfold PAGE_SIZE in *. Z.div_mod_to_equations. lia.
  - intros h a Hh Ha. pose proof (proj1 (list.Forall_forall _ _) H5 h Hh) as [? ?]. unfold in_segment, in_range in *. cbn. lia.
  - unfold range_contains in Ein. unfold in_range. cbn in *. lia.
  - destruct (is_pie elf); [|congruence]. destruct (sc_dynamic s); [|done].
    assert (start mod PAGE_SIZE = 0 /\ (stop - start) mod PAGE_SIZE = 0 /\ 0 <= stop - start) as (? & ? & ?).
    { unfold PAGE_SIZE in *. Z.div_mod_to_equations. lia. }
    by apply choose_aslr_window in Epie as [_ ?].
Qed.

(** C24: The file is accepted only when its image is safe to load: the segments are those of
    the file; none is both writable and executable; no page holds bytes of two segments; every
    segment lies in the span of the image, which starts and ends at page boundaries, and so
    does the entry point; and a position independent image goes, as a whole and page by page,
    into the window of the address space that is set aside for it. *)
Theorem plan_elf_correct rand elf ly :
  wf_elf elf -> is_u32 rand -> plan_elf rand elf = Ok ly ->
  let hs := sc_headers (ly_scan ly) in
  let image := ly_image ly in
  hs = segments (elf_headers elf) /\ hs <> []
  /\ Forall (fun h => ph_file_size h <= ph_mem_size h /\ ~ (ph_write h = true /\ ph_execute h = true)) hs
  /\ (forall i j h h' a b, hs !! i = Some h -> hs !! j = Some h' -> i <> j ->
        in_segment h a -> in_segment h' b -> a / PAGE_SIZE <> b / PAGE_SIZE)
  /\ (forall h a, h ∈ hs -> in_segment h a -> in_range image a)
  /\ in_range image (elf_entry_point elf) /\ ly_entry ly = elf_entry_point elf + ly_slide ly
  /\ r_start image mod PAGE_SIZE = 0 /\ r_end image mod PAGE_SIZE = 0
  /\ (if is_pie elf then in_window (r_start image) (r_end image - r_start image) (ly_slide ly) else ly_slide ly = 0).
Proof. apply plan_elf_spec. Qed.

(** ** An image of two pages *)

(** Its first page is code with the dynamic section at 0x100 and a table of one relocation at
    0x140; the second is data, read-only after the relocation of the word at 0x1010. *)
Definition demo_elf : ElfFile :=
  mkElfFile true MachineArm SharedObject 0x10
    [Ph32 true (mkHeader32 SegmentLoad 0 0 0x1000 0x1000 false true);
     Ph32 true (mkHeader32 SegmentLoad 0x1000 0x1000 0x1000 0x1000 true false);
     Ph32 true (mkHeader32 SegmentDynamic 0x100 0x100 0x20 0x20 false false);
     Ph32 true (mkHeader32 SegmentGnuRelro 0x1000 0x1000 0x1000 0x1000 false false)].
Lemma demo_parser_wf : wf_parser (fun _ => Some demo_elf).
Proof.
  intros image elf E. injection E as <-. split; [unfold is_u32; cbn; lia|]. intros sane h Hin.
  unfold demo_elf in Hin. cbn [elf_headers] in Hin.
  repeat (apply elem_of_cons in Hin as [E|Hin]; [injection E as -> ->; unfold wf_header, is_u32; cbn; lia|]).
  by apply not_elem_of_nil in Hin.
Qed.

Lemma plan_elf_correct_witness :
  exists ly, plan_elf 0 demo_elf = Ok ly /\ ly_entry ly = 0x10010 /\ in_range (ly_image ly) 0x10
    /\ in_window (r_start (ly_image ly)) (r_end (ly_image ly) - r_start (ly_image ly)) (ly_slide ly).
Proof.
  destruct (plan_elf 0 demo_elf) as [ly|] eqn:E; [|by vm_compute in E]. exists ly. split; [reflexivity|].
  assert (wf_elf demo_elf) as Hw by exact (demo_parser_wf [] demo_elf eq_refl).
  assert (is_u32 0) as H0 by (unfold is_u32; lia).
  destruct (plan_elf_correct 0 demo_elf ly Hw H0 E) as (_ & _ & _ & _ & _ & Hin & He & _ & _ & Hwin).
  split; [|by split]. rewrite He. vm_compute in E. injection E as <-. reflexivity.
Defined.
