(* ===== verification/ElfImage.v ===== *)
(** * The image the ELF loader builds

    What the memory of a new process holds after [Elf.load_elf]: every segment has its bytes of
    the file and then zeroes, except that the relocations have added the slide to words inside
    writable segments.  The bytes depend on the loader's copies, moves and fresh pages alone;
    the page tables decide whether it gets to the end. *)
From stdpp Require Import fin_maps gmap.
From S2P Require Import Prelude Xous SysCall Permissions Process MemManager PageTable Mapping Memory.
From S2P Require Import Kernel KernelRules Services Elf.

(** ** The bytes after each operation *)

Lemma on_kernel_Done {A} (m : KS A) s s' a :
  on_kernel m s = (s', Done a) -> ld_bytes s' = ld_bytes s /\ m (ld_kernel s) = (ld_kernel s', Done a).
Proof. unfold on_kernel. destruct (m (ld_kernel s)) as [k r]. by intros [= <- ->]. Qed.
Lemma on_bytes_Done f s s' a : on_bytes f s = (s', Done a) -> ld_bytes s' = f (ld_bytes s).
Proof. by intros [= <- _]. Qed.
Lemma ret_Done {S E A} (a b : A) (s s' : S) : st_ret (E := E) a s = (s', Done b) -> s' = s /\ b = a.
Proof. by intros [= <- <-]. Qed.
Lemma lift_Done {S E A} (r : result E A) (a : A) (s s' : S) : st_lift r s = (s', Done a) -> s' = s /\ r = Ok a.
Proof. destruct r; [by intros [= <- <-]|done]. Qed.
Lemma add_slide_Ok v slide a : checked_add_aslr_slide v slide = Ok a -> a = v + slide /\ v + slide < 2 ^ 32.
Proof. unfold checked_add_aslr_slide, checked_add. destruct (Z.ltb_spec (v + slide) (2 ^ 32)); [|done]. by intros [= <-]. Qed.

(** A range with a given address is mapped there. *)
Lemma map_range_addr regions shared phys virt size flags user k k' range :
  virt <> 0 -> map_range regions shared phys virt size flags user k = (k', Done range) -> range_addr range = virt.
Proof.
  intros Hv H. unfold map_range in H. st_inv H pid k1 E1. st_inv H p k2 E2. st_inv H v k3 E3.
  assert (v = virt) as ->.
  { unfold find_virtual_address in E3. st_inv E3 k4 k5 E4. unfold Process.find_virtual_address in E3.
    rewrite (proj2 (Z.eqb_neq virt 0) Hv) in E3. cbn [negb] in E3. st_inv E3 u k6 E6. by apply lift_Done in E3 as [_ [= ->]]. }
  unfold lift_mem in H. destruct (Memory.map_range _ _ _ _ _ _ _ _ _ _) as [mem r] eqn:Em.
  st_inv H u k7 E7. injection H as _ ->. unfold Memory.map_range in Em.
  st_inv Em v m1 F1. apply lift_Done in F1 as [_ [= <-]]. st_inv Em ph m2 F2. st_inv Em w m3 F3.
  apply lift_Done in Em as [_ Em]. unfold MemoryRange_new, nonzero_new in Em.
  rewrite (proj2 (Z.eqb_neq virt 0) Hv) in Em. cbn in Em. destruct (size =? 0); [done|]. by injection Em as <-.
Qed.

Section Image.
Context (regions : list (Z * Z)) (shared_peripherals : list Z) (mapping : Z).

Lemma map_fresh_Done page flags s s' a :
  page <> 0 -> map_fresh_page regions shared_peripherals page flags s = (s', Done a) ->
  ld_bytes s' = zero_page page (ld_bytes s).
Proof.
  intros Hp H. unfold map_fresh_page in H. st_inv H range s1 E. apply on_kernel_Done in E as [Eb E].
  apply map_range_addr in E; [|done]. apply on_bytes_Done in H. by rewrite H, E, Eb.
Qed.
Lemma remap_Done va flags s s' a : remap_page_flags mapping va flags s = (s', Done a) -> ld_bytes s' = ld_bytes s.
Proof.
  intros H. unfold remap_page_flags in H. st_inv H phys s1 E1. st_inv H u s2 E2.
  apply on_kernel_Done in E1 as [E1 _], E2 as [E2 _], H as [H _]. congruence.
Qed.
Lemma assert_accessible_Done write pages s s' a :
  assert_accessible mapping write pages s = (s', Done a) -> ld_bytes s' = ld_bytes s.
Proof.
  revert s. induction pages as [|page pages IH]; intros s H; cbn [assert_accessible] in H; [by injection H as <-|].
  st_inv H ok s1 E1. st_inv H u s2 E2. apply on_kernel_Done in E1 as [E1 _]. apply IH in H.
  destruct ok; [|done]. apply ret_Done in E2 as [-> _]. congruence.
Qed.
Lemma read_Done addr len s s' bs :
  read_bytes mapping addr len s = (s', Done bs) ->
  ld_bytes s' = ld_bytes s /\ bs = map (fun i => ld_bytes s (addr + i)) (seqZ 0 len).
Proof.
  intros H. unfold read_bytes in H. st_inv H u s1 E1. apply assert_accessible_Done in E1.
  injection H as <- <-. by rewrite E1.
Qed.
Lemma write_Done addr new s s' a :
  write_bytes mapping addr new s = (s', Done a) -> ld_bytes s' = copy_bytes addr new (ld_bytes s).
Proof.
  intros H. unfold write_bytes in H. st_inv H u s1 E1. apply assert_accessible_Done in E1.
  apply on_bytes_Done in H. by rewrite H, E1.
Qed.

Lemma move_whole_Done address slide flags h s s' h' :
  move_whole_page mapping address slide flags h s = (s', Done h') ->
  h' = advance h PAGE_SIZE PAGE_SIZE
  /\ ld_bytes s' = copy_page (ph_virtual_addr h + slide) (usize (address + ph_offset h)) (ld_bytes s).
Proof.
  intros H. unfold move_whole_page in H. st_inv H dst s1 E1. apply lift_Done in E1 as [-> E1].
  apply add_slide_Ok in E1 as [-> _]. st_inv H phys s2 E2. st_inv H u s3 E3. st_inv H u' s4 E4. st_inv H u'' s5 E5.
  apply on_kernel_Done in E2 as [E2 _], E3 as [E3 _], E4 as [E4 _]. apply on_bytes_Done in E5.
  apply ret_Done in H as [-> ->]. split; [done|]. congruence.
Qed.

(** The part of a page from [h] on, and how much of it comes from the file. *)
Definition part_size (h : ProgramHeader32) : Z :=
  Z.min (align_down (ph_virtual_addr h) + PAGE_SIZE - ph_virtual_addr h) (ph_mem_size h).
Definition part_copied (h : ProgramHeader32) : Z :=
  if 0 <? ph_file_size h then Z.min (ph_file_size h) (part_size h) else 0.

Lemma copy_part_Done address len slide flags h s s' h' :
  align_down (ph_virtual_addr h) + slide <> 0 ->
  copy_part regions shared_peripherals mapping address len slide flags h s = (s', Done h') ->
  h' = advance h (part_copied h) (part_size h)
  /\ let page := align_down (ph_virtual_addr h) + slide in
     let zeroed := zero_page page (ld_bytes s) in
     ld_bytes s' = if 0 <? ph_file_size h
                   then copy_bytes (ph_virtual_addr h + slide)
                          (map (fun i => zeroed (address + ph_offset h + i)) (seqZ 0 (part_copied h))) zeroed
                   else zeroed.
Proof.
  intros Hpage H. unfold copy_part in H. st_inv H page s1 E1. apply lift_Done in E1 as [-> E1].
  apply add_slide_Ok in E1 as [-> _]. st_inv H rest s2 E2. apply lift_Done in E2 as [-> E2].
  assert (Z.min rest (ph_mem_size h) = part_size h) as Esize.
  { unfold checked_add, checked_sub in E2. destruct (_ <? _); [|done]. destruct (_ <=? _); [|done].
    injection E2 as <-. done. }
  rewrite Esize in H. clear rest E2 Esize. st_inv H copied s3 E3. st_inv H u s4 E4. apply lift_Done in E4 as [-> _].
  apply ret_Done in H as [-> ->]. unfold part_copied. destruct (0 <? ph_file_size h).
  - st_inv E3 e s5 F1. apply lift_Done in F1 as [-> F1]. st_inv E3 u1 s6 F2.
    assert (s6 = s) as -> by (destruct (len <? e); [done|by apply ret_Done in F2 as [-> _]]).
    st_inv E3 dst s7 F3. apply lift_Done in F3 as [-> F3]. apply add_slide_Ok in F3 as [-> _].
    st_inv E3 u2 s8 F4. apply map_fresh_Done in F4; [|done]. st_inv E3 src s9 F5. apply read_Done in F5 as [F5 ->].
    st_inv E3 u3 s10 F6. apply write_Done in F6. st_inv E3 u4 s11 F7. apply remap_Done in F7.
    st_inv E3 u5 s12 F8. apply lift_Done in F8 as [-> _]. apply ret_Done in E3 as [-> ->].
    split; [done|]. rewrite F7, F6, F5, F4. done.
  - st_inv E3 u2 s8 F4. apply map_fresh_Done in F4; [|done]. apply ret_Done in E3 as [-> ->]. done.
Qed.

(** ** A segment *)

(** What the bytes of a segment become. *)
Definition segment_byte (bytes : Z -> Z) (address : Z) (h : ProgramHeader32) (i : Z) : Z :=
  if i <? ph_file_size h then bytes (address + ph_offset h + i) else 0.
Definition same_page (a b : Z) : Prop := a / PAGE_SIZE = b / PAGE_SIZE.

(** A segment, or the rest of one, that goes below the image at [address]. *)
Definition loadable (address len slide : Z) (h : ProgramHeader32) : Prop :=
  wf_header h /\ ph_file_size h <= ph_mem_size h /\ ph_virtual_addr h + ph_mem_size h + slide <= address
  /\ PAGE_SIZE <= ph_virtual_addr h + slide /\ (0 < ph_file_size h -> ph_offset h + ph_file_size h <= len).

Section Segment.
Context (address len slide : Z).
Context (Haddress : 0 <= address /\ address mod PAGE_SIZE = 0) (Hlen : 0 <= len /\ address + len < 2 ^ 32).
Context (Hslide : 0 <= slide /\ slide mod PAGE_SIZE = 0).
Abbreviation goes := (loadable address len slide).

Lemma in_page_iff page a : is_u32 a -> page mod PAGE_SIZE = 0 -> in_page page a = true <-> same_page a page.
Proof.
  intros Ha Hp. unfold in_page, same_page. rewrite align_down_eq by done. unfold PAGE_SIZE in *.
  rewrite Z.eqb_eq. Z.div_mod_to_equations. lia.
Qed.

(** The geometry of the first page of a rest. *)
Lemma part_facts h :
  goes h -> 0 < ph_mem_size h ->
  let va := ph_virtual_addr h in
  let page := align_down va + slide in
  page mod PAGE_SIZE = 0 /\ PAGE_SIZE <= page <= va + slide /\ page + PAGE_SIZE <= address
  /\ 0 < part_size h <= ph_mem_size h /\ va + slide + part_size h <= page + PAGE_SIZE
  /\ (part_size h < ph_mem_size h -> va + slide + part_size h = page + PAGE_SIZE)
  /\ 0 <= part_copied h <= part_size h /\ part_copied h <= ph_file_size h
  /\ (part_copied h < part_size h -> part_copied h = ph_file_size h).
Proof.
  intros ((_ & Hv & Hf & Hm) & H1 & H2 & H3 & H4) Hpos va page.
  pose proof (align_down_bounds _ Hv) as (D1 & D2 & D3). unfold part_copied, part_size. fold va in D1, D2, D3 |- *.
  unfold page. unfold is_u32, va, PAGE_SIZE in *. destruct (Z.ltb_spec 0 (ph_file_size h)); Z.div_mod_to_equations; lia.
Qed.

Lemma advance_loadable h :
  goes h -> 0 < ph_mem_size h ->
  let h1 := advance h (part_copied h) (part_size h) in
  goes h1 /\ ph_virtual_addr h1 = ph_virtual_addr h + part_size h
  /\ ph_mem_size h1 = ph_mem_size h - part_size h /\ ph_file_size h1 = ph_file_size h - part_copied h
  /\ (0 < ph_file_size h1 -> ph_offset h1 = ph_offset h + part_copied h).
Proof.
  intros Hl Hpos h1. pose proof (part_facts h Hl Hpos) as (F1 & F2 & F3 & F4 & F5 & F6 & F7 & F8 & F9).
  destruct Hl as ((Ho & Hv & Hf & Hm) & H1 & H2 & H3 & H4). unfold h1, advance, loadable, wf_header. cbn.
  assert (forall x, 0 <= x < 2 ^ 32 -> u32 x = x) as Hu by (intros x Hx; by apply u32_id).
  rewrite (Hu (ph_virtual_addr h + part_size h)), (Hu (ph_file_size h - part_copied h)), (Hu (ph_mem_size h - part_size h))
    by (unfold is_u32 in *; lia).
  pose proof (u32_range (ph_offset h + part_copied h)).
  split_and!; try (unfold is_u32 in *; lia); try done;
    intros; rewrite Hu; unfold is_u32 in *; lia.
Qed.

(** One round of the loop. *)
Lemma page_bytes must_copy flags h s s' h' :
  goes h -> 0 < ph_mem_size h ->
  (if whole_page must_copy h then move_whole_page mapping address slide flags h
   else copy_part regions shared_peripherals mapping address len slide flags h) s = (s', Done h') ->
  h' = advance h (part_copied h) (part_size h)
  /\ forall a, is_u32 a ->
       ld_bytes s' a =
         if in_page (align_down (ph_virtual_addr h) + slide) a then
           if (ph_virtual_addr h + slide <=? a) && (a <? ph_virtual_addr h + slide + part_copied h)
           then ld_bytes s (address + ph_offset h + (a - (ph_virtual_addr h + slide))) else 0
         else ld_bytes s a.
Proof.
  intros Hl Hpos H. pose proof (part_facts h Hl Hpos) as (F1 & F2 & F3 & F4 & F5 & F6 & F7 & F8 & F9).
  destruct Hl as ((Ho & Hv & Hf & Hm) & H1 & H2 & H3 & H4).
  destruct (whole_page must_copy h) eqn:Ew.
  - unfold whole_page in Ew. rewrite !page_aligned_mod in Ew.
    pose proof (align_down_bounds _ Hv) as (D1 & D2 & D3).
    assert (align_down (ph_virtual_addr h) = ph_virtual_addr h) as Ed by (unfold PAGE_SIZE in *; Z.div_mod_to_equations; lia).
    assert (part_size h = PAGE_SIZE /\ part_copied h = PAGE_SIZE) as [Es Ec].
    { unfold part_copied, part_size. rewrite Ed. unfold PAGE_SIZE in *. destruct (0 <? ph_file_size h) eqn:E; lia. }
    apply move_whole_Done in H as [-> Hb]. rewrite Es, Ec, Ed. split; [done|]. intros a Ha. rewrite Hb. unfold copy_page.
    destruct (in_page _ a) eqn:Ep; [|done]. apply in_page_iff in Ep; [|done|by rewrite <-Ed].
    assert (ph_virtual_addr h + slide <= a < ph_virtual_addr h + slide + PAGE_SIZE) as Hin.
    { unfold same_page in Ep. rewrite Ed in F1. unfold PAGE_SIZE in *. Z.div_mod_to_equations. lia. }
    destruct (Z.leb_spec (ph_virtual_addr h + slide) a); [|lia].
    destruct (Z.ltb_spec a (ph_virtual_addr h + slide + PAGE_SIZE)); [|lia]. cbn.
    rewrite usize_id; [done|]. unfold is_usize, is_u32, PAGE_SIZE in *. lia.
  - apply copy_part_Done in H as [-> Hb]; [|unfold PAGE_SIZE in *; lia]. split; [done|]. cbv zeta in Hb. intros a Ha.
    set (page := align_down (ph_virtual_addr h) + slide) in *. rewrite Hb.
    destruct (Z.ltb_spec 0 (ph_file_size h)) as [Hpf|Hnf].
    2: { unfold zero_page. destruct (in_page page a); [|done]. unfold part_copied. destruct (Z.ltb_spec 0 (ph_file_size h)); [lia|].
         destruct (Z.leb_spec (ph_virtual_addr h + slide) a), (Z.ltb_spec a (ph_virtual_addr h + slide + 0)); cbn; try done; lia. }
    unfold copy_bytes. rewrite length_map, length_seqZ, Z2Nat.id by lia.
    destruct (Z.leb_spec (ph_virtual_addr h + slide) a) as [Hle|]; cbn [andb]; [|unfold zero_page; by destruct (in_page page a)].
    destruct (Z.ltb_spec a (ph_virtual_addr h + slide + part_copied h)) as [Hlt|]; [|unfold zero_page; by destruct (in_page page a)].
    assert (in_page page a = true) as ->.
    { apply in_page_iff; [done|done|]. unfold same_page, PAGE_SIZE in *. Z.div_mod_to_equations. lia. }
    set (i := a - (ph_virtual_addr h + slide)).
    assert (nth (Z.to_nat i) (map (fun i => zero_page page (ld_bytes s) (address + ph_offset h + i)) (seqZ 0 (part_copied h))) 0
      = zero_page page (ld_bytes s) (address + ph_offset h + i)) as ->.
    { erewrite nth_lookup_Some; [done|]. rewrite list_lookup_fmap. rewrite lookup_seqZ_lt by lia. cbn. do 2 f_equal. lia. }
    unfold zero_page. destruct (in_page page (address + ph_offset h + i)) eqn:Ep; [|done].
    apply in_page_iff in Ep; [|unfold is_u32 in *; lia|done]. unfold same_page, is_u32, PAGE_SIZE in *.
    Z.div_mod_to_equations. lia.
Qed.

Abbreviation load_pages := (load_pages regions shared_peripherals mapping).
(** The pages that a segment lies on. *)
Definition on_pages (h : ProgramHeader32) (a : Z) : Prop :=
  exists b, in_segment h b /\ same_page a (b + slide).

(** With a step for each page the loop comes to its end, and the bytes are right. *)
Lemma load_pages_bytes fuel must_copy flags h s s' h' :
  goes h -> (0 < ph_mem_size h -> ph_virtual_addr h mod PAGE_SIZE + ph_mem_size h <= Z.of_nat fuel * PAGE_SIZE) ->
  load_pages fuel must_copy address len slide flags h s = (s', Done h') ->
  ph_mem_size h' = 0
  /\ (forall i, 0 <= i < ph_mem_size h ->
        ld_bytes s' (ph_virtual_addr h + slide + i) = segment_byte (ld_bytes s) address h i)
  /\ (forall a, is_u32 a -> ~ on_pages h a -> ld_bytes s' a = ld_bytes s a).
Proof.
  revert h s. induction fuel as [|fuel IH]; intros h s Hl Hfuel H.
  { pose proof Hl as ((_ & Hv & _ & Hm) & _). apply ret_Done in H as [-> ->].
    assert (ph_mem_size h = 0) as E by (unfold is_u32, PAGE_SIZE in *; Z.div_mod_to_equations; lia).
    split; [done|]. split; [|done]. intros. lia. }
  cbn [Elf.load_pages] in H. destruct (Z.leb_spec (ph_mem_size h) 0) as [Hz|Hpos].
  { pose proof Hl as ((_ & _ & _ & Hm) & _). apply ret_Done in H as [-> ->]. unfold is_u32 in Hm.
    split; [lia|]. split; [|done]. intros. lia. }
  st_inv H h1 s1 E. apply page_bytes in E as [-> Hb]; [|done..].
  pose proof (part_facts h Hl Hpos) as (F1 & F2 & F3 & F4 & F5 & F6 & F7 & F8 & F9).
  destruct (advance_loadable h Hl Hpos) as (Hl1 & A1 & A2 & A3 & A4). set (h1 := advance h _ _) in *.
  pose proof Hl as ((Ho & Hv & Hf & Hm) & H1 & H2 & H3 & H4). pose proof (align_down_bounds _ Hv) as (D1 & D2 & _).
  apply IH in H as (G1 & G2 & G3); [|done|].
  2: { rewrite A1, A2. intros Hlt. specialize (F6 ltac:(lia)). specialize (Hfuel Hpos). unfold PAGE_SIZE in *.
       Z.div_mod_to_equations. lia. }
  clear IH. split; [done|]. set (page := align_down (ph_virtual_addr h) + slide) in *.
  assert (forall a, is_u32 a -> page <= a < page + PAGE_SIZE -> ~ on_pages h1 a) as Hfirst.
  { intros a Ha Hin (b & Hb1 & Hb2). unfold in_segment in Hb1. rewrite A1, A2 in Hb1.
    assert (part_size h < ph_mem_size h) as Hlt by lia. specialize (F6 Hlt). unfold same_page, PAGE_SIZE in *.
    Z.div_mod_to_equations. lia. }
  assert (forall a, is_u32 a -> in_page page a = true <-> page <= a < page + PAGE_SIZE) as Hpage.
  { intros a Ha. rewrite in_page_iff by done. unfold same_page, PAGE_SIZE in *. Z.div_mod_to_equations. lia. }
  split.
  - intros i Hi. unfold segment_byte. destruct (Z.lt_ge_cases i (part_size h)) as [Hlt|Hge].
    + assert (is_u32 (ph_virtual_addr h + slide + i)) as Ha by (unfold is_u32 in *; lia).
      assert (page <= ph_virtual_addr h + slide + i < page + PAGE_SIZE) as Hin by lia.
      rewrite G3, Hb by auto. rewrite (proj2 (Hpage _ Ha) Hin).
      destruct (Z.leb_spec (ph_virtual_addr h + slide) (ph_virtual_addr h + slide + i)); [|lia]. cbn [andb].
      destruct (Z.ltb_spec (ph_virtual_addr h + slide + i) (ph_virtual_addr h + slide + part_copied h)), (Z.ltb_spec i (ph_file_size h));
        [|lia|specialize (F9 ltac:(lia)); lia|done]. f_equal. lia.
    + specialize (F6 ltac:(lia)). replace (ph_virtual_addr h + slide + i) with (ph_virtual_addr h1 + slide + (i - part_size h)) by (rewrite A1; lia).
      rewrite G2 by (rewrite A2; lia). unfold segment_byte. rewrite A3.
      destruct (Z.ltb_spec (i - part_size h) (ph_file_size h - part_copied h)), (Z.ltb_spec i (ph_file_size h)); try done; try lia.
      rewrite A4 by lia. assert (part_copied h = part_size h) as Ec.
      { destruct (Z.lt_ge_cases (part_copied h) (part_size h)); [specialize (F9 ltac:(lia)); lia|lia]. }
      rewrite Hb by (unfold is_u32 in *; lia).
      destruct (in_page page _) eqn:Ep; [|f_equal; lia]. apply Hpage in Ep; unfold is_u32 in *; lia.
  - intros a Ha Hno. rewrite G3, Hb; [|done|done|].
    + destruct (in_page page a) eqn:Ep; [|done]. apply Hpage in Ep; [|done]. exfalso. apply Hno.
      exists (ph_virtual_addr h). split; [unfold in_segment; lia|]. unfold same_page, PAGE_SIZE in *. Z.div_mod_to_equations. lia.
    + intros (b & Hb1 & Hb2). apply Hno. exists b. split; [|done]. unfold in_segment in *. lia.
Qed.

(** A segment whose place the caller or the check of the window vouches for. *)
Definition placed (pie : bool) (h : ProgramHeader32) : Prop :=
  wf_header h /\ ph_file_size h <= ph_mem_size h
  /\ (pie = true /\ ASLR_END <= address
      \/ PAGE_SIZE <= ph_virtual_addr h + slide /\ ph_virtual_addr h + ph_mem_size h + slide <= address).

Lemma load_segment_bytes pie h s s' h' :
  placed pie h -> load_segment regions shared_peripherals mapping pie address len slide h s = (s', Done h') ->
  goes h /\ ph_mem_size h' = 0
  /\ (forall i, 0 <= i < ph_mem_size h ->
        ld_bytes s' (ph_virtual_addr h + slide + i) = segment_byte (ld_bytes s) address h i)
  /\ (forall a, is_u32 a -> ~ on_pages h a -> ld_bytes s' a = ld_bytes s a).
Proof.
  intros (Hw & Hf & Hplace) H. pose proof Hw as (_ & Hv & _ & Hm). unfold load_segment in H.
  st_inv H u1 s1 E1. assert (s1 = s /\ (0 < ph_file_size h -> ph_offset h + ph_file_size h <= len)) as [-> Hfile].
  { destruct (Z.ltb_spec 0 (ph_file_size h)); [|apply ret_Done in E1 as [-> _]; split; [done|lia]].
    st_inv E1 stop s2 E2. apply lift_Done in E2 as [-> E2]. unfold checked_add in E2.
    destruct (_ <? 2 ^ 32); [|done]. injection E2 as <-. rewrite u32_id in E1 by (unfold is_u32; lia).
    destruct (Z.ltb_spec len (ph_offset h + ph_file_size h)); [done|]. apply ret_Done in E1 as [-> _]. done. }
  st_inv H start s2 E2. apply lift_Done in E2 as [-> E2]. apply add_slide_Ok in E2 as [-> _].
  st_inv H e s3 E3. apply lift_Done in E3 as [-> E3]. unfold checked_add in E3. destruct (_ <? 2 ^ 32); [|done]. injection E3 as <-.
  st_inv H e s4 E4. apply lift_Done in E4 as [-> E4]. apply add_slide_Ok in E4 as [-> _].
  st_inv H u2 s5 E5. assert (s5 = s /\ (pie = true -> ASLR_START <= ph_virtual_addr h + slide
    /\ ph_virtual_addr h + ph_mem_size h + slide <= ASLR_END)) as [-> Hwin].
  { destruct pie.
    - change (align_up ASLR_START) with (Ok (E := Error) ASLR_START) in E5. change (align_down ASLR_END) with ASLR_END in E5.
      st_inv E5 w s6 E6. apply lift_Done in E6 as [-> [= <-]]. destruct (_ || _) eqn:Eo; [done|].
      apply ret_Done in E5 as [-> _]. split; [done|]. intros _. lia.
    - destruct (_ <? _); [done|]. by apply ret_Done in E5 as [-> _]. }
  destruct (MemoryFlags_is_set _ _); [done|]. st_inv H phys s6 E6.
  assert (ld_bytes s6 = ld_bytes s) as <-.
  { unfold st_try in E6. destruct (on_mapping _ s) as [s7 [p|er|]] eqn:E7; [..|done]; injection E6 as <- _;
      unfold on_mapping, on_kernel in E7; destruct (lift_mem _ _) as [k r]; by injection E7 as <- _. }
  assert (goes h) as Hl.
  { split_and!; try done; destruct Hplace as [[-> Ha]|[Ha Hb]]; try done;
      specialize (Hwin eq_refl); unfold ASLR_START, PAGE_SIZE in *; lia. }
  split; [done|]. eapply load_pages_bytes; [done| |exact H]. intros _. unfold pages_fuel.
  unfold is_u32, PAGE_SIZE in *. rewrite Z2Nat.id by (Z.div_mod_to_equations; lia). Z.div_mod_to_equations. lia.
Qed.

Lemma on_pages_below h a : goes h -> on_pages h a -> a < address.
Proof.
  intros ((_ & Hv & _ & _) & H1 & H2 & _ & _) (b & Hb & Hs). unfold in_segment, same_page, PAGE_SIZE in *.
  Z.div_mod_to_equations. lia.
Qed.
Lemma segment_byte_same bytes bytes' h i :
  goes h -> 0 <= i -> (forall a, is_u32 a -> address <= a -> bytes' a = bytes a) ->
  segment_byte bytes' address h i = segment_byte bytes address h i.
Proof.
  intros ((Ho & _ & _ & _) & _ & _ & _ & Hf) Hi Hb. unfold segment_byte. destruct (Z.ltb_spec i (ph_file_size h)); [|done].
  apply Hb; unfold is_u32 in *; lia.
Qed.

Lemma load_segments_bytes pie hs s s' u :
  Forall (placed pie) hs ->
  (forall i j h h' a b, hs !! i = Some h -> hs !! j = Some h' -> i <> j ->
     in_segment h a -> in_segment h' b -> a / PAGE_SIZE <> b / PAGE_SIZE) ->
  load_segments regions shared_peripherals mapping pie address len slide hs s = (s', Done u) ->
  Forall goes hs
  /\ (forall h i, h ∈ hs -> 0 <= i < ph_mem_size h ->
        ld_bytes s' (ph_virtual_addr h + slide + i) = segment_byte (ld_bytes s) address h i)
  /\ (forall a, is_u32 a -> (forall h, h ∈ hs -> ~ on_pages h a) -> ld_bytes s' a = ld_bytes s a).
Proof.
  revert s. induction hs as [|h hs IH]; intros s Hp Hd H; cbn [load_segments] in H.
  { injection H as <-. split; [done|]. split; [|done]. intros h i Hh. by apply not_elem_of_nil in Hh. }
  apply Forall_cons_1 in Hp as [Hp Hps]. st_inv H h1 s1 E. apply load_segment_bytes in E as (Hl & _ & G1 & G2); [|done].
  apply IH in H as (Hls & K1 & K2); [|done|].
  2: { intros i j x y a b Hi Hj Hne. by apply (Hd (S i) (S j) x y a b); [..|congruence]. }
  split; [by constructor|]. split.
  - intros x i [->|Hx]%elem_of_cons Hi.
    + rewrite K2, G1; [done|done| |].
      * destruct Hl as ((_ & Hv & _ & _) & _ & Hb & _). unfold is_u32 in *. lia.
      * intros y Hy (b & Hb1 & Hb2). apply list_elem_of_lookup in Hy as [j Hj].
        apply (Hd 0%nat (S j) h y (ph_virtual_addr h + i) b); [done|done|done| |done|].
        { unfold in_segment. lia. }
        unfold same_page, PAGE_SIZE in *. Z.div_mod_to_equations. lia.
    + rewrite K1 by done. rewrite list.Forall_forall in Hls. apply segment_byte_same; [by apply Hls|lia|].
      intros a Ha Hge. apply G2; [done|]. intros Hon. apply on_pages_below in Hon; [lia|done].
  - intros a Ha Hno. rewrite K2, G2; [done|done| |done|]; [apply Hno; apply elem_of_cons; by left|].
    intros y Hy. apply Hno. apply elem_of_cons. by right.
Qed.
End Segment.

(** ** Relocation *)

Definition word_bytes (bytes : Z -> Z) (a : Z) : list Z := map (fun i => bytes (a + i)) (seqZ 0 4).
Definition word_at (bytes : Z -> Z) (a : Z) : Z := word_of_bytes (word_bytes bytes a).
(** The slide is added to the word at [offset] of the image. *)
Definition relocate_word (slide : Z) (bytes : Z -> Z) (offset : Z) : Z -> Z :=
  copy_bytes (offset + slide) (u32_to_le_bytes (word_of_bytes (word_bytes bytes (offset + slide)) + slide)) bytes.
Definition relocate (slide : Z) (offsets : list Z) (bytes : Z -> Z) : Z -> Z :=
  foldl (relocate_word slide) bytes offsets.

(** The dynamic section: its pairs of a tag and a value before the null tag, and the value that the
    last pair with a tag gives to it. *)
Fixpoint dynamic_pairs (bytes : Z -> Z) (entries : list Z) : option (list (Z * Z)) :=
  match entries with
  | [] => None
  | a :: entries =>
      if word_at bytes a =? DT_NULL then Some []
      else cons (word_at bytes a, word_at bytes (a + 4)) <$> dynamic_pairs bytes entries
  end.
Definition tag_value (tag : Z) (pairs : list (Z * Z)) (unset : Z) : Z :=
  foldl (fun value p => if p.1 =? tag then p.2 else value) unset pairs.
(** The section of [size] bytes at [base] says that the table of relocations is at [ptr] and has
    [bytes_in_table] bytes. *)
Definition relocation_table (bytes : Z -> Z) (base size ptr bytes_in_table : Z) : Prop :=
  exists pairs, dynamic_pairs bytes (entries_from base ELF32_DYN_SIZE (size / ELF32_DYN_SIZE)) = Some pairs
    /\ tag_value DT_REL pairs 0 = ptr /\ tag_value DT_RELSZ pairs 0 = bytes_in_table /\ tag_value DT_RELENT pairs 0 = ELF32_REL_SIZE.
(** The words that the entries of a table name, each as it is when its turn comes, and their types. *)
Fixpoint table_offsets (slide : Z) (rels : list Z) (bytes : Z -> Z) : list Z :=
  match rels with
  | [] => []
  | rel :: rels => word_at bytes rel :: table_offsets slide rels (relocate_word slide bytes (word_at bytes rel))
  end.
Fixpoint table_relative (slide : Z) (rels : list Z) (bytes : Z -> Z) : Prop :=
  match rels with
  | [] => True
  | rel :: rels => elf32_r_type (word_at bytes (rel + 4)) = R_ARM_RELATIVE
      /\ table_relative slide rels (relocate_word slide bytes (word_at bytes rel))
  end.
(** No relocation changes an entry of the table. *)
Definition table_untouched (slide : Z) (rels offsets : list Z) : Prop :=
  forall rel o a, rel ∈ rels -> o ∈ offsets -> rel <= a < rel + 4 -> ~ o + slide <= a < o + slide + 4.

Lemma read_word_Done addr s s' w :
  read_word mapping addr s = (s', Done w) -> ld_bytes s' = ld_bytes s /\ w = word_of_bytes (word_bytes (ld_bytes s) addr).
Proof.
  intros H. unfold read_word in H. st_inv H bs s1 E. apply read_Done in E as [E ->]. apply ret_Done in H as [-> ->]. done.
Qed.

Lemma relocation_bytes slide image writable rel s s' u :
  apply_relocation mapping slide image writable rel s = (s', Done u) ->
  let offset := word_at (ld_bytes s) rel in
  in_some_range writable offset (offset + 4) = true
  /\ elf32_r_type (word_at (ld_bytes s) (rel + 4)) = R_ARM_RELATIVE
  /\ ld_bytes s' = relocate_word slide (ld_bytes s) offset.
Proof.
  intros H. unfold apply_relocation in H. st_inv H offset s1 E1. apply read_word_Done in E1 as [B1 E1].
  st_inv H info s2 E2. apply read_word_Done in E2 as [B2 E2]. destruct (Z.eqb_spec (elf32_r_type info) R_ARM_RELATIVE) as [Et|]; [|done]. cbn [negb] in H.
  st_inv H e s3 E3. apply lift_Done in E3 as [-> E3]. unfold checked_add in E3. destruct (_ <? _); [|done]. injection E3 as <-.
  destruct (_ || _); [done|]. destruct (in_some_range _ _ _) eqn:Er; [|done]. cbn [negb] in H.
  st_inv H dst s4 E4. apply lift_Done in E4 as [-> E4]. apply add_slide_Ok in E4 as [-> _].
  st_inv H w s5 E5. apply read_word_Done in E5 as [B5 ->]. st_inv H w s6 E6. apply lift_Done in E6 as [-> E6].
  unfold checked_add in E6. destruct (_ <? _); [|done]. injection E6 as <-. apply write_Done in H.
  cbv zeta. fold (word_at (ld_bytes s) rel) in E1. rewrite <-E1. split; [done|]. split.
  - rewrite <-Et, E2. unfold word_at. by rewrite B1.
  - rewrite H, B5, B2, B1. done.
Qed.
Lemma relocation_list_bytes slide image writable rels s s' u :
  apply_relocation_list mapping slide image writable rels s = (s', Done u) ->
  let offsets := table_offsets slide rels (ld_bytes s) in
  Forall (fun o => in_some_range writable o (o + 4) = true) offsets
  /\ table_relative slide rels (ld_bytes s) /\ ld_bytes s' = relocate slide offsets (ld_bytes s).
Proof.
  revert s. induction rels as [|rel rels IH]; intros s H; cbn [apply_relocation_list] in H.
  { injection H as <- _. by split_and!. }
  st_inv H v s1 E. apply relocation_bytes in E as (Ho & Et & Eb). apply IH in H as (Hos & Hr & Ebs). rewrite Eb in Hos, Hr, Ebs.
  cbv zeta. cbn [table_offsets table_relative]. split; [by constructor|]. by split.
Qed.

Lemma read_dynamic_bytes r entries s s' x : read_dynamic mapping r entries s = (s', Done x) ->
  ld_bytes s' = ld_bytes s
  /\ (x.2 = true -> exists pairs, dynamic_pairs (ld_bytes s) entries = Some pairs
       /\ x.1 = mkRel (tag_value DT_REL pairs (rel_ptr r)) (tag_value DT_RELSZ pairs (rel_sz r)) (tag_value DT_RELENT pairs (rel_ent r))).
Proof.
  revert r s. induction entries as [|entry entries IH]; intros r s H; cbn [read_dynamic] in H; [by apply ret_Done in H as [-> ->]|].
  st_inv H tag s1 E1. apply read_word_Done in E1 as [E1 Et]. st_inv H val s2 E2. apply read_word_Done in E2 as [E2 Ev].
  rewrite E1 in E2, Ev. fold (word_at (ld_bytes s) entry) in Et. fold (word_at (ld_bytes s) (entry + 4)) in Ev. subst tag val.
  cbn [dynamic_pairs]. destruct (_ =? DT_NULL).
  { apply ret_Done in H as [-> ->]. split; [done|]. intros _. exists []. split; [done|]. by destruct r. }
  apply IH in H as [Hb Hx]. rewrite E2 in Hb, Hx. split; [done|]. intros Hs. destruct (Hx Hs) as (pairs & Ep & Er).
  eexists. split; [by rewrite Ep|]. rewrite Er. clear -Er.
  assert (forall tag t v ps d, tag_value tag ((t, v) :: ps) d = tag_value tag ps (if t =? tag then v else d)) as Hc by done.
  rewrite !Hc. unfold dynamic_entry. generalize (word_at (ld_bytes s) entry) (word_at (ld_bytes s) (entry + 4)). intros t v.
  destruct (Z.eqb_spec t DT_REL) as [->|H1]; [done|]. destruct (Z.eqb_spec t DT_RELSZ) as [->|H2]; [done|].
  by destruct (Z.eqb_spec t DT_RELENT).
Qed.
Lemma parse_dynamic_bytes slide vaddr filesz s s' r :
  parse_dynamic_rel_info mapping slide vaddr filesz s = (s', Done r) ->
  ld_bytes s' = ld_bytes s /\ relocation_table (ld_bytes s) (vaddr + slide) filesz (rel_ptr r) (rel_sz r).
Proof.
  intros H. unfold parse_dynamic_rel_info in H. st_inv H p s1 E1. apply lift_Done in E1 as [-> E1]. apply add_slide_Ok in E1 as [-> _].
  destruct (_ || _); [done|]. st_inv H x s2 E2. apply read_dynamic_bytes in E2 as [Eb E2]. destruct x as [r' seen]. cbn [fst snd] in *.
  destruct seen; [|done]. destruct (E2 eq_refl) as (pairs & Ep & Er). cbn [negb] in H.
  destruct (Z.eqb_spec (rel_ptr r') 0); [done|]. destruct (Z.eqb_spec (rel_sz r') 0); [done|].
  destruct (Z.eqb_spec (rel_ent r') ELF32_REL_SIZE) as [Ee|]; [|done]. cbn [negb orb] in H.
  destruct (_ <? _); [done|]. destruct (negb _); [done|].
  apply ret_Done in H as [-> ->]. split; [done|]. exists pairs. split; [done|]. rewrite Er in Ee |- *. by split_and!.
Qed.
Lemma remap_read_only_bytes pages s s' u : remap_read_only mapping pages s = (s', Done u) -> ld_bytes s' = ld_bytes s.
Proof.
  revert s. induction pages as [|va pages IH]; intros s H; cbn [remap_read_only] in H; [by apply ret_Done in H as [-> _]|].
  st_inv H v s1 E1. apply remap_Done in E1. st_inv H w s2 E2. apply lift_Done in E2 as [-> _]. apply IH in H. congruence.
Qed.
Lemma mark_read_only_bytes start size s s' u : mark_pages_read_only mapping start size s = (s', Done u) -> ld_bytes s' = ld_bytes s.
Proof.
  intros H. unfold mark_pages_read_only in H. destruct (_ =? _); [by apply ret_Done in H as [-> _]|].
  st_inv H stop s1 E1. apply lift_Done in E1 as [-> _]. by apply remap_read_only_bytes in H.
Qed.

Lemma relocate_image_bytes ly s s' u :
  relocate_image mapping ly s = (s', Done u) ->
  exists dv df ptr size, sc_dynamic (ly_scan ly) = Some (dv, df)
    /\ relocation_table (ld_bytes s) (dv + ly_slide ly) df ptr size
    /\ let rels := entries_from (ptr + ly_slide ly) ELF32_REL_SIZE (size / ELF32_REL_SIZE) in
       let offsets := table_offsets (ly_slide ly) rels (ld_bytes s) in
       Forall (fun o => in_some_range (sc_writable (ly_scan ly)) o (o + 4) = true) offsets
       /\ table_relative (ly_slide ly) rels (ld_bytes s) /\ ld_bytes s' = relocate (ly_slide ly) offsets (ld_bytes s).
Proof.
  intros H. unfold relocate_image in H. st_inv H dyn s1 E1. apply lift_Done in E1 as [-> E1]. destruct dyn as [dv df].
  st_inv H e s2 E2. apply lift_Done in E2 as [-> _]. destruct (negb _); [done|]. st_inv H r s3 E3.
  apply parse_dynamic_bytes in E3 as [E3 Ht]. st_inv H e' s4 E4. apply lift_Done in E4 as [-> _]. destruct (negb _); [done|].
  st_inv H v s5 E5. unfold apply_relocations in E5. destruct (_ <? _); [done|]. st_inv E5 base s6 E6.
  apply lift_Done in E6 as [-> E6]. apply add_slide_Ok in E6 as [-> _]. apply relocation_list_bytes in E5 as (Ho & Hr & Eb). rewrite E3 in Ho, Hr, Eb.
  exists dv, df, (rel_ptr r), (rel_sz r). split; [by destruct (sc_dynamic _); simplify_eq/=|]. split; [done|]. cbv zeta. split; [done|]. split; [done|].
  rewrite <-Eb. destruct (sc_relro _) as [[rva rsz]|]; [|by apply ret_Done in H as [-> _]].
  st_inv H e'' s7 E7. apply lift_Done in E7 as [-> _]. destruct (negb _); [done|]. st_inv H start s8 E8.
  apply lift_Done in E8 as [-> _]. by apply mark_read_only_bytes in H.
Qed.
End Image.

Lemma relocate_outside slide offsets bytes a :
  (forall o, o ∈ offsets -> ~ (o + slide <= a < o + slide + 4)) -> relocate slide offsets bytes a = bytes a.
Proof.
  revert bytes. induction offsets as [|o offsets IH]; intros bytes H; [done|].
  change (relocate slide (o :: offsets) bytes) with (relocate slide offsets (relocate_word slide bytes o)). rewrite IH.
  - unfold relocate_word, copy_bytes. specialize (H o ltac:(apply elem_of_cons; by left)). change (Z.of_nat (length (u32_to_le_bytes _))) with 4.
    destruct (_ && _) eqn:E; [lia|done].
  - intros o' Ho. apply H. apply elem_of_cons. by right.
Qed.

(** What a relocation may change is inside of a writable segment. *)
Lemma writable_target hs s o :
  sc_writable s = map segment_range (List.filter ph_write hs) -> in_some_range (sc_writable s) o (o + 4) = true ->
  exists h, h ∈ hs /\ ph_write h = true /\ ph_virtual_addr h <= o /\ o + 4 <= ph_virtual_addr h + ph_mem_size h.
Proof.
  intros -> Ho. unfold in_some_range in Ho. apply existsb_exists in Ho as (r & Hr & Hin).
  apply in_map_iff in Hr as (h & <- & Hh). apply filter_In in Hh as [Hh Hwr]. cbn in Hin.
  exists h. split; [by apply list_elem_of_In|]. split; [done|]. lia.
Qed.
Lemma try_kernel_bytes {A} (m : KS A) s s' r : st_try (on_kernel m) s = (s', Done r) -> ld_bytes s' = ld_bytes s.
Proof.
  unfold st_try, on_kernel. destruct (m (ld_kernel s)) as [k [a|e|]]; [..|done]; by intros [= <- _].
Qed.
Lemma placed_headers address slide elf hs :
  Forall segment_ok hs -> ASLR_END <= address -> (is_pie elf = false -> slide = 0) ->
  is_pie elf = true
  \/ (forall h, h ∈ hs -> PAGE_SIZE <= ph_virtual_addr h /\ ph_virtual_addr h + ph_mem_size h <= address) ->
  Forall (placed address slide (is_pie elf)) hs.
Proof.
  intros Hok Hend H0 Hplace. apply list.Forall_forall. intros h Hh.
  pose proof (proj1 (list.Forall_forall _ _) Hok h Hh) as (? & ? & ? & _).
  split; [done|split; [done|]]. destruct Hplace as [Hpie|Hpl]; [by left|].
  destruct (is_pie elf); [by left|]. right. rewrite H0 by done. specialize (Hpl h Hh). lia.
Qed.

(** The dynamic section is that of a program header. *)
Lemma scan_dynamic phs : forall s s' d, scan_headers s phs = Ok s' -> sc_dynamic s' = Some d ->
  sc_dynamic s = Some d
  \/ exists sane h, Ph32 sane h ∈ phs /\ ph_type h = SegmentDynamic /\ d = (ph_virtual_addr h, ph_file_size h).
Proof.
  induction phs as [|ph phs IH]; intros s s' d H Hd; [injection H as <-; by left|]. cbn [scan_headers] in H.
  destruct (scan_header s ph) as [s1|] eqn:E; [|done]. destruct (IH s1 s' d H Hd) as [H1|(sane & h & Hin & Hh)].
  2: { right. exists sane, h. split; [apply elem_of_cons; by right|done]. }
  unfold scan_header in E. destruct (negb _); [done|]. destruct ph as [sane h|sane]; [|injection E as <-; by left].
  destruct (ph_type h) eqn:Et.
  - left. unfold scan_load in E. repeat (case_match; try done); by injection E as <-.
  - destruct (sc_dynamic s); [done|]. injection E as <-. injection H1 as <-. right. exists sane, h. split; [apply elem_of_cons; by left|done].
  - destruct (sc_relro s); [done|]. injection E as <-. by left.
  - injection E as <-. by left.
Qed.
Lemma plan_dynamic rand elf ly dv df :
  plan_elf rand elf = Ok ly -> sc_dynamic (ly_scan ly) = Some (dv, df) ->
  exists sane h, Ph32 sane h ∈ elf_headers elf /\ ph_type h = SegmentDynamic /\ dv = ph_virtual_addr h /\ df = ph_file_size h.
Proof.
  intros H Hd. assert (scan_headers Scan_initial (elf_headers elf) = Ok (ly_scan ly)) as Hs.
  { unfold plan_elf in H. repeat (case_match; try done); by injection H as <-. }
  destruct (scan_dynamic _ _ _ _ Hs Hd) as [?|(sane & h & ? & ? & [= -> ->])]; [done|]. by exists sane, h.
Qed.
Lemma untouched_step slide rel rels bytes :
  (forall r a, r ∈ rels -> r <= a < r + 4 -> ~ rel + slide <= a < rel + slide + 4) ->
  map (word_at (relocate_word slide bytes rel)) rels = map (word_at bytes) rels.
Proof.
  intros H. apply map_ext_in. intros r Hr%list_elem_of_In. unfold word_at, word_bytes. f_equal. apply map_ext_in.
  intros i Hi%list_elem_of_In%elem_of_seqZ. unfold relocate_word, copy_bytes. change (Z.of_nat (length (u32_to_le_bytes _))) with 4.
  specialize (H r (r + i) Hr ltac:(lia)). destruct (_ && _) eqn:E; [lia|done].
Qed.
(** A table that no relocation changes is read as it was loaded. *)
Lemma table_offsets_stable slide rels bytes :
  table_untouched slide rels (table_offsets slide rels bytes) -> table_offsets slide rels bytes = map (word_at bytes) rels.
Proof.
  revert bytes. induction rels as [|rel rels IH]; intros bytes H; [done|]. cbn [table_offsets map] in *. f_equal. rewrite IH.
  - apply untouched_step. intros r a Hr Ha. apply (H r); [apply elem_of_cons; by right|apply elem_of_cons; by left|done].
  - intros r o a Hr Ho. apply (H r); apply elem_of_cons; by right.
Qed.

(** [offsets] are the words that the image [loaded] asks to relocate. *)
Definition relocations_of (elf : ElfFile) (slide : Z) (loaded : Z -> Z) (offsets : list Z) : Prop :=
  if is_pie elf then
    exists sane h ptr size, Ph32 sane h ∈ elf_headers elf /\ ph_type h = SegmentDynamic
      /\ relocation_table loaded (ph_virtual_addr h + slide) (ph_file_size h) ptr size
      /\ let rels := entries_from (ptr + slide) ELF32_REL_SIZE (size / ELF32_REL_SIZE) in
         offsets = table_offsets slide rels loaded /\ table_relative slide rels loaded
         /\ (table_untouched slide rels offsets -> offsets = map (word_at loaded) rels)
  else offsets = [].
Lemma relocations_done mapping rand elf ly s s' u :
  plan_elf rand elf = Ok ly -> (if is_pie elf then relocate_image mapping ly else st_ret tt) s = (s', Done u) ->
  exists offsets, Forall (fun o => in_some_range (sc_writable (ly_scan ly)) o (o + 4) = true) offsets
    /\ ld_bytes s' = relocate (ly_slide ly) offsets (ld_bytes s) /\ relocations_of elf (ly_slide ly) (ld_bytes s) offsets.
Proof.
  intros E3 E5. unfold relocations_of. destruct (is_pie elf); [|apply ret_Done in E5 as [-> _]; by exists []].
  apply relocate_image_bytes in E5 as (dv & df & ptr & size & Ed & Ht & H5). cbv zeta in H5. destruct H5 as (H5 & H6 & H7).
  destruct (plan_dynamic _ _ _ _ _ E3 Ed) as (sane & h & Hh & Hty & -> & ->). eexists. split; [exact H5|]. split; [exact H7|].
  exists sane, h, ptr, size. split; [done|]. split; [done|]. split; [exact Ht|]. cbv zeta. split; [done|]. split; [exact H6|].
  apply table_offsets_stable.
Qed.

(** C19: The memory of a process whose image the loader accepts.  It is the image of the parsed
    file that [plan_elf] placed: every segment holds its bytes of the file at its address plus
    the slide and zeroes after them, wherever the loader moved whole pages and wherever it
    copied.  Then, in a position independent image, the slide has been added, in their order, to
    exactly the words that the entries of the table of relocations name: the table is where the
    dynamic section says that a program header describes, all its entries are of the relative
    type, an entry is read when its turn comes - as it was loaded, if no relocation lies on the
    table -, and each word lies in a writable segment, so segments that are not writable hold
    exactly what the file says.  In another image no word is changed.  For a position
    independent image this holds without further conditions, for another one if no segment
    reaches the first page or the area of the raw file.  The raw file lies page aligned above the
    window for position independent images. *)
Theorem load_elf_correct regions shared_peripherals parse rand address len s s' entry slide :
  wf_parser parse -> is_u32 rand -> ASLR_END <= address -> address mod PAGE_SIZE = 0 ->
  0 <= len -> address + len < 2 ^ 32 ->
  load_elf regions shared_peripherals parse rand address len s = (s', Done (entry, slide)) ->
  exists elf ly, parse (map (fun i => ld_bytes s (address + i)) (seqZ 0 len)) = Some elf
    /\ plan_elf rand elf = Ok ly /\ entry = ly_entry ly /\ slide = ly_slide ly
    /\ let hs := sc_headers (ly_scan ly) in
       (is_pie elf = true
        \/ forall h, h ∈ hs -> PAGE_SIZE <= ph_virtual_addr h /\ ph_virtual_addr h + ph_mem_size h <= address) ->
       exists loaded offsets,
         (forall h i, h ∈ hs -> 0 <= i < ph_mem_size h ->
            loaded (ph_virtual_addr h + slide + i) = segment_byte (ld_bytes s) address h i)
         /\ ld_bytes s' = relocate slide offsets loaded
         /\ relocations_of elf slide loaded offsets
         /\ (forall o, o ∈ offsets -> exists h, h ∈ hs /\ ph_write h = true
               /\ ph_virtual_addr h <= o /\ o + 4 <= ph_virtual_addr h + ph_mem_size h)
         /\ (forall h i, h ∈ hs -> ph_write h = false -> 0 <= i < ph_mem_size h ->
               ld_bytes s' (ph_virtual_addr h + slide + i) = segment_byte (ld_bytes s) address h i).
Proof.
  intros Hparse Hrand Hend Ha Hlen Hsum H. unfold load_elf in H. st_inv H mapping s0 E0. apply on_kernel_Done in E0 as [B0 _].
  unfold load_elf_in in H. st_inv H image s1 E1. apply read_Done in E1 as [B1 ->].
  st_inv H elf s2 E2. apply lift_Done in E2 as [-> E2].
  assert (parse (map (fun i => ld_bytes s0 (address + i)) (seqZ 0 len)) = Some elf) as Ep.
  { unfold ok_or in E2. by destruct (parse _); simplify_eq. }
  st_inv H ly s3 E3. apply lift_Done in E3 as [-> E3]. pose proof (Hparse _ _ Ep) as Hw.
  pose proof (plan_elf_spec rand elf ly Hw Hrand E3) as (P1 & _ & P2 & P3 & _ & _ & _ & _ & _ & P4).
  pose proof (plan_elf_scanned rand elf ly Hw E3) as [Q1 Q2 _ Q3 _ _ _]. rewrite <-P1 in Q2, Q3. cbv zeta in P2, P3.
  st_inv H u s4 E4. st_inv H u' s5 E5. st_inv H u'' s6 E6. apply ret_Done in H as [-> [= -> ->]].
  set (hs := sc_headers (ly_scan ly)) in *. set (slide := ly_slide ly) in *.
  exists elf, ly. rewrite <-B0. split; [done|]. split; [done|]. split; [done|]. split; [done|]. cbv zeta. fold hs. intros Hplace.
  assert (0 <= slide /\ slide mod PAGE_SIZE = 0) as Hslide by (destruct (is_pie elf); [by destruct P4 as (? & ? & _)|by rewrite P4]).
  assert (Forall (placed address slide (is_pie elf)) hs) as Hpl.
  { apply placed_headers; [done..| |done]. by destruct (is_pie elf). }
  apply (load_segments_bytes regions shared_peripherals mapping address len slide) in E4 as (_ & K1 & _);
    [|split; [unfold ASLR_END in *; lia|done]|done|done|done|done].
  destruct (relocations_done _ _ _ _ _ _ _ E3 E5) as (offsets & Ho & Eb & Htab).
  apply try_kernel_bytes in E6 as Eb6.
  assert (forall o, o ∈ offsets -> exists h, h ∈ hs /\ ph_write h = true
    /\ ph_virtual_addr h <= o /\ o + 4 <= ph_virtual_addr h + ph_mem_size h) as Hoff.
  { intros o Hin. apply (writable_target _ (ly_scan ly)); [done|]. by apply (proj1 (list.Forall_forall _ _) Ho). }
  exists (ld_bytes s4), offsets. rewrite Eb6, <-B1. split; [done|]. split; [done|]. split; [exact Htab|]. split; [done|].
  intros h i Hh Hro Hi. rewrite Eb, relocate_outside; [by apply K1|]. intros o Hin Hcov.
  destruct (Hoff o Hin) as (h' & Hh' & Hwr & Hlo & Hhi).
  apply list_elem_of_lookup in Hh as [j Hj], Hh' as [j' Hj'].
  apply (P3 j j' h h' (ph_virtual_addr h + i) (ph_virtual_addr h + i)); [done|done| | |unfold in_segment; lia|done].
  - intros <-. rewrite Hj in Hj'. simplify_eq. congruence.
  - unfold in_segment. lia.
Qed.

(** ** The image of two pages, loaded *)

Definition demo_word_at (a : Z) : Z :=
  match a with
  | 0x100 => 17 | 0x104 => 0x140 | 0x108 => 18 | 0x10c => 8 | 0x110 => 19 | 0x114 => 8
  | 0x140 => 0x1010 | 0x144 => 23
  | 0x1010 => 0x20
  | _ => 0
  end.
Definition demo_image (a : Z) : Z := nth (Z.to_nat (a mod 4)) (u32_to_le_bytes (demo_word_at (a - a mod 4))) 0.
Definition demo_entry (phys : Z) : Z :=
  match new_mapped 0x50000000 phys MF_W true with Done e => as_u32 e | _ => 0 end.
Definition demo_space : MemoryMapping :=
  mkMapping 0x40008000 {[0 := L1Page 0x4000c000; 0x500 := L1Page 0x4000c400]}
    {[0x50000 := demo_entry 0x40100000; 0x50001 := demo_entry 0x40101000]}.
Definition demo_load : LoadState :=
  mkLoad (mkKernel (mkMem mm_initial {[2 := demo_space]}) {[2 := Process_new 2 1 (mkAppId [])]} [] [] Scheduler.Scheduler_initial
            Irq.irq_initial ∅ 2 1 [] None)
    (fun a => demo_image (a - 0x50000000)).
Definition demo_run : LoadState * outcome Error (Z * Z) :=
  load_elf [] [] (fun _ => Some demo_elf) 0 0x50000000 0x2000 demo_load.

Lemma load_elf_correct_witness :
  demo_run.2 = Done (0x10010, 0x10000)
  /\ word_of_bytes (word_bytes (ld_bytes demo_run.1) 0x11010) = 0x10020
  /\ forall i, 0 <= i < 0x1000 -> ld_bytes demo_run.1 (0x10000 + i) = demo_image i.
Proof.
  assert (demo_run.2 = Done (0x10010, 0x10000)) as E by (vm_compute; reflexivity).
  split; [exact E|]. split; [vm_compute; reflexivity|].
  assert (demo_run = (demo_run.1, Done (0x10010, 0x10000))) as Er by (rewrite <-E; by destruct demo_run).
  destruct (load_elf_correct [] [] (fun _ => Some demo_elf) 0 0x50000000 0x2000 demo_load demo_run.1 0x10010 0x10000)
    as (elf & ly & [= <-] & Ely & _ & _ & H).
  - exact demo_parser_wf.
  - unfold is_u32. lia.
  - unfold ASLR_END. lia.
  - reflexivity.
  - lia.
  - lia.
  - exact Er.
  - assert (sc_headers (ly_scan ly) = segments (elf_headers demo_elf)) as Ehs.
    { assert (match plan_elf 0 demo_elf with Ok l => sc_headers (ly_scan l) | Err _ => [] end = segments (elf_headers demo_elf)) as X
        by reflexivity. by rewrite Ely in X. }
    rewrite Ehs in H. destruct H as (loaded & offsets & _ & _ & _ & _ & H); [by left|]. intros i Hi.
    specialize (H (mkHeader32 SegmentLoad 0 0 0x1000 0x1000 false true) i).
    cbn [ph_virtual_addr] in H. rewrite Z.add_0_l in H. rewrite H; [|apply elem_of_cons; by left|done|done].
    unfold segment_byte. cbn [ph_file_size ph_offset ld_bytes demo_load]. destruct (Z.ltb_spec i 0x1000); [f_equal; lia|lia].
Defined.
