(* ===== verification/Loading.v ===== *)
(** * The creation of a process ([xous/kernel/src/services.rs], [arch/arm/process.rs])

    [create_process] takes a free slot, makes an address space and enters the process in the
    table; [create] sends the ELF image to it, maps its context page and its stacks, loads the
    image in its address space and sets up its first thread.  An error of [create] is a panic of
    the kernel: [create_process] unwraps its result.

    [user_memory pid addr] is the byte at an address of a process, [parse_elf] and [rand] are
    the parameters of [Elf], [canary] the random word of the first thread.  Of the bytes of the
    new address space the loader only reads the image and what it has written. *)
From stdpp Require Import fin_maps gmap.
From S2P Require Import Prelude Xous SysCall Permissions Server Scheduler Threads Connections.
From S2P Require Import PermissionRequests Irq Process MemManager PageTable Mapping Memory.
From S2P Require Import Kernel KernelRules Services Elf.

Definition RAW_ELF_TEMPORARY_ADDRESS : Z := 0x50000000.
Definition BOOT_SPLASH_FB : Z := 0x50000000.
Definition BOOT_SPLASH_PAGES : Z := 0x178.
Definition USER_IRQ_STACK_BOTTOM : Z := 0x6fe00000.
Definition USER_IRQ_STACK_PAGE_COUNT : Z := 3.
Definition USER_STACK_BOTTOM : Z := 0x6ff00000.
Definition STACK_PAGE_COUNT : Z := 64.
Definition THREAD_CONTEXT_AREA : Z := 0x70000000.
Definition GUI_SERVER_APP_ID : AppId :=
  mkAppId [0x67; 0x75; 0x69; 0x2d; 0x73; 0x65; 0x72; 0x76; 0x65; 0x72; 0x00; 0x00; 0x00; 0x00; 0x00; 0x00].

Definition set_aslr_slide (p : Process) (slide : Z) : Process :=
  mkProcess (process_pid p) (ppid p) (process_name p) (threads p) (thread_priorities p)
    (system_event_handlers p) (process_app_id p) (memory_permissions p) (syscall_permissions p)
    (connection_map p) (allocation_hint p) (next_mirror_address p) slide.

Section Board.
Context (regions : list (Z * Z)) (shared_peripherals : list Z).
Context (user_memory : Z -> Z -> Z) (utf8 : list Z -> bool).
Context (parse_elf : list Z -> option ElfFile) (rand canary : Z).

(** [process.activate()]. *)
Definition activate (pid : Z) : KS unit :=
  let* _ := process pid in
  let* k := st_get in st_modify (set_current pid (k_tid k)).

(** [load_elf] with the bytes of the image that was sent. *)
Definition load_sent_elf (image : Z -> Z) (len : Z) : KS (Z * Z) := fun k =>
  let bytes addr := image (addr - RAW_ELF_TEMPORARY_ADDRESS) in
  let '(s, r) := load_elf regions shared_peripherals parse_elf rand RAW_ELF_TEMPORARY_ADDRESS len (mkLoad k bytes) in
  (ld_kernel s, r).

Definition setup_process (pid entry_point slide : Z) (stack irq_stack : MemoryRange) : KS unit :=
  let* current := current_pid in
  let* _ := st_assert ((pid <=? 1) || (pid =? current)) in
  let* cs := st_unwrap (Threads.setup_process pid entry_point canary stack irq_stack) in
  let* _ := st_modify (fun k => set_contexts (<[pid := cs]> (k_contexts k)) k) in
  let* p := process_unwrap pid in
  put_process (set_aslr_slide p slide).

(** The splash screen goes from process 1 to the process that frees it. *)
Fixpoint move_splash_pages (pid : Z) (pages : list Z) : KS unit :=
  match pages with
  | [] => st_ret tt
  | addr :: pages =>
      let* _ := lift_mem (fun permitted => Memory.move_page regions shared_peripherals permitted 1 addr pid addr) in
      move_splash_pages pid pages
  end.

Definition create (pid : Z) (init_data : ProcessInit) : KS ProcessStartup :=
  let elf := pi_elf init_data in
  let* source := current_pid in
  let* _ := send_memory regions shared_peripherals (range_addr elf) pid RAW_ELF_TEMPORARY_ADDRESS (range_size elf) in
  let* current := current_pid in
  let* _ := activate pid in
  let stack := mkRange (USER_STACK_BOTTOM - STACK_PAGE_COUNT * PAGE_SIZE) (STACK_PAGE_COUNT * PAGE_SIZE) in
  let irq_stack := mkRange (USER_IRQ_STACK_BOTTOM - USER_IRQ_STACK_PAGE_COUNT * PAGE_SIZE)
                     (USER_IRQ_STACK_PAGE_COUNT * PAGE_SIZE) in
  let* _ := map_range regions shared_peripherals 0 THREAD_CONTEXT_AREA PAGE_SIZE (MemoryFlags_bitor MF_W MF_POPULATE) false in
  let* _ := map_range regions shared_peripherals 0 (range_addr stack) (range_size stack) MF_W true in
  let* _ := map_range regions shared_peripherals 0 (range_addr irq_stack) (range_size irq_stack) MF_W true in
  let* (entry_point, slide) :=
    load_sent_elf (fun offset => user_memory source (usize (range_addr elf + offset))) (range_size elf) in
  let* _ := setup_process pid entry_point slide stack irq_stack in
  let* _ :=
    if bool_decide (pi_app_id init_data = GUI_SERVER_APP_ID) then
      let* _ := process 1 in
      let* _ := process pid in
      move_splash_pages pid (pages_of BOOT_SPLASH_FB (BOOT_SPLASH_PAGES * PAGE_SIZE))
    else st_ret tt in
  let* _ := activate current in
  st_ret (mkStartup pid).

(** The pid of the first slot that is free and does not hold a panic message. *)
Definition free_pid (k : Kernel) : option Z :=
  List.find (fun pid => negb (bool_decide (is_Some (k_processes k !! pid)))
                        && negb (bool_decide (k_panic_pid k = Some pid))) (seqZ 1 MAX_PROCESS_COUNT).

Definition create_process (init_process : ProcessInit) : KS ProcessStartup :=
  let* parent := current_pid in
  let* k := st_get in
  let* pid := st_lift (ok_or (free_pid k) KernelTableFull) in
  let* _ := lift_mem (fun _ => allocate_mapping pid) in
  let process := Process_new pid parent (pi_app_id init_process) in
  let name := map (fun i => user_memory parent (usize (pi_name_addr init_process + i)))
                (seqZ 0 (Z.of_nat MAX_PROCESS_NAME_LEN)) in
  let '(process, named) := set_name utf8 process name in
  let* _ := st_lift named in
  let* k := st_get in
  let* (sch, process) := st_unwrap (Process.set_thread_state (k_scheduler k) process INITIAL_TID TReady) in
  let* _ := st_modify (set_scheduler sch) in
  let* _ := put_process process in
  expect_ok (create pid init_process).
End Board.
