(* ===== verification/BootImage.v ===== *)
(** * The boot image ([xtask/src/xous_arguments.rs], [xtask/src/tags], [kernel/src/args.rs])

    The build tool writes the kernel and the first processes into one image: a list of tagged
    arguments - the programs with their names and ids, the memory and the system calls each may
    use, the kernel - and after it, from the next page on, the programs themselves.  The loader
    ([loader/src/args.rs]) and the kernel read the arguments in place.

    The image is a list of bytes; a read outside of it is [None], as is a failed assertion of
    the tool or an index out of range.  [crc16] is the checksum of the crate [crc], which no
    reader looks at.

    [boot_image_read] is the round trip: what the tool was asked to write is what the kernel
    reads, and each program lies where its argument says. *)
From Stdlib Require Import String.
From S2P Require Import Prelude Xous SysCall Process.

(** ** Pages *)

Definition align_size_up (offset alignment_offset : Z) : Z :=
  match Z.compare (offset mod PAGE_SIZE) alignment_offset with
  | Eq => offset
  | Lt => offset + (alignment_offset - offset mod PAGE_SIZE)
  | Gt => Z.ldiff offset (PAGE_SIZE - 1) + PAGE_SIZE + alignment_offset
  end.
Definition zlength {A} (l : list A) : Z := Z.of_nat (List.length l).
Definition zeros (n : Z) : list Z := replicate (Z.to_nat n) 0.
Definition align_data_up (data : list Z) (alignment_offset : Z) : list Z :=
  if zlength data mod PAGE_SIZE =? alignment_offset then data
  else data ++ zeros (align_size_up (zlength data) alignment_offset - zlength data).

(** ** The arguments *)

(** [xtask/src/tags]: the implementors of the trait [XousArgument]. *)
Inductive XousArgument : Type :=
| BinaryElf (pid : Z) (app_id : AppId) (program_name : list Z) (load_offset : Z) (data : list Z)
| MemoryPermission (pid : Z) (regions : list (Z * Z))
| SyscallPermission (pid mask : Z)
| XousKernel (load_offset text_offset text_size data_offset data_size bss_size entrypoint : Z) (program : list Z).

(** The four letters of a tag as a word. *)
Definition fourcc (a b c d : Z) : Z := u32_from_le_bytes a b c d.
Definition tag_XArg : Z := fourcc 0x58 0x41 0x72 0x67.
Definition tag_BElf : Z := fourcc 0x42 0x45 0x6c 0x66.
Definition tag_PMem : Z := fourcc 0x50 0x4d 0x65 0x6d.
Definition tag_PSys : Z := fourcc 0x50 0x53 0x79 0x73.
Definition tag_XKrn : Z := fourcc 0x58 0x4b 0x72 0x6e.

Definition code (a : XousArgument) : Z :=
  match a with
  | BinaryElf _ _ _ _ _ => tag_BElf
  | MemoryPermission _ _ => tag_PMem
  | SyscallPermission _ _ => tag_PSys
  | XousKernel _ _ _ _ _ _ _ _ => tag_XKrn
  end.
Definition argument_length (a : XousArgument) : Z :=
  match a with
  | BinaryElf _ _ _ _ _ => 4 + 4 + 16 + 32
  | MemoryPermission _ regions => u32 (4 + 8 * zlength regions)
  | SyscallPermission _ _ => 4 + 8
  | XousKernel _ _ _ _ _ _ _ _ => 28
  end.
Definition u64_to_le_bytes (x : Z) : list Z := u32_to_le_bytes x ++ u32_to_le_bytes (x / 2 ^ 32).
Definition serialize (a : XousArgument) : list Z :=
  match a with
  | BinaryElf _ app_id program_name load_offset data =>
      u32_to_le_bytes load_offset ++ u32_to_le_bytes (zlength data) ++ app_bytes app_id
      ++ program_name ++ zeros (32 - zlength program_name)
  | MemoryPermission pid regions =>
      [pid; 0; 0; 0] ++ concat (map (fun region => u32_to_le_bytes region.1 ++ u32_to_le_bytes region.2) regions)
  | SyscallPermission pid mask => [pid; 0; 0; 0] ++ u64_to_le_bytes mask
  | XousKernel load_offset text_offset text_size data_offset data_size bss_size entrypoint _ =>
      u32_to_le_bytes load_offset ++ u32_to_le_bytes text_offset ++ u32_to_le_bytes text_size
      ++ u32_to_le_bytes data_offset ++ u32_to_le_bytes data_size ++ u32_to_le_bytes bss_size
      ++ u32_to_le_bytes entrypoint
  end.
Definition last_data (a : XousArgument) : list Z :=
  match a with
  | BinaryElf _ _ _ _ data => data
  | XousKernel _ _ _ _ _ _ _ program => program
  | _ => []
  end.
(** The argument with its place in the image, and the bytes it takes there. *)
Definition finalize_argument (a : XousArgument) (offset : Z) : option (XousArgument * Z) :=
  match a with
  | BinaryElf pid app_id program_name _ data =>
      if negb (offset mod PAGE_SIZE =? 0) then None else
      let data := align_data_up data 0 in
      Some (BinaryElf pid app_id program_name (u32 offset) data, zlength data)
  | XousKernel _ text_offset text_size data_offset data_size bss_size entrypoint program =>
      if negb (0xff000000 <? text_offset) then None else
      if negb (offset mod PAGE_SIZE =? 0) then None else
      let program := align_data_up program 0 in
      Some (XousKernel (u32 offset) text_offset text_size data_offset data_size bss_size entrypoint program, zlength program)
  | _ => Some (a, 0)
  end.
Definition alignment_offset (a : XousArgument) : Z := 0.

(** [XousKernel::new] pads the program to whole words. *)
Definition XousKernel_new (text_offset text_size data_offset data_size bss_size entrypoint : Z) (program : list Z) : XousArgument :=
  XousKernel 0 text_offset text_size data_offset data_size bss_size entrypoint
    (program ++ zeros (- zlength program mod 4)).

(** ** Writing the image *)

Definition header_len : Z := 8.
Definition arguments_len (args : list XousArgument) : Z :=
  fold_left (fun total a => u32 (total + argument_length a + 8)) args (20 + header_len).

Fixpoint finalize_from (running_offset : Z) (args : list XousArgument) : option (Z * list XousArgument) :=
  match args with
  | [] => Some (running_offset, [])
  | a :: args =>
      let running_offset := align_size_up running_offset (alignment_offset a) in
      let! (a, n) := finalize_argument a running_offset in
      let! (total, args) := finalize_from (running_offset + n) args in
      Some (total, a :: args)
  end.
Definition finalize (args : list XousArgument) : option (Z * list XousArgument) :=
  finalize_from (align_size_up (arguments_len args) 0) args.

Definition u16_to_le_bytes (x : Z) : list Z := [x mod 256; x / 2 ^ 8 mod 256].

Section Writer.
Context (crc16 : list Z -> Z).

Definition tagged (tag : Z) (data : list Z) : list Z :=
  u32_to_le_bytes tag ++ u16_to_le_bytes (crc16 data) ++ u16_to_le_bytes (u16 (zlength data / 4)) ++ data.
Fixpoint write_arguments (args : list XousArgument) : option (list Z) :=
  match args with
  | [] => Some []
  | a :: args =>
      let data := serialize a in
      if negb (argument_length a =? zlength data) then None else
      let! rest := write_arguments args in Some (tagged (code a) data ++ rest)
  end.
Fixpoint write_payloads (pos : Z) (args : list XousArgument) : list Z :=
  match args with
  | [] => []
  | a :: args =>
      let here := zeros (align_size_up pos (alignment_offset a) - pos) ++ last_data a in
      here ++ write_payloads (pos + zlength here) args
  end.
Definition write_image (args : list XousArgument) : option (list Z) :=
  let! (total_length, args) := finalize args in
  let header := tagged tag_XArg (u32_to_le_bytes (arguments_len args / 4) ++ u32_to_le_bytes (total_length / 4)) in
  let! tags := write_arguments args in
  Some (header ++ tags ++ write_payloads (zlength (header ++ tags)) args).
End Writer.

(** ** Reading the arguments

    The two readers are the same but for the types of their counters, which are of 32 bits. *)

Fixpoint words (bytes : list Z) : list Z :=
  match bytes with
  | b0 :: b1 :: b2 :: b3 :: rest => u32_from_le_bytes b0 b1 b2 b3 :: words rest
  | _ => []
  end.
(** [n] bytes from byte [i] on; [n] words from word [i] on. *)
Definition bytes_at (image : list Z) (i n : Z) : option (list Z) :=
  let bytes := take (Z.to_nat n) (drop (Z.to_nat i) image) in
  if zlength bytes =? n then Some bytes else None.
Definition slice (image : list Z) (i n : Z) : option (list Z) :=
  let! bytes := bytes_at image (4 * i) (4 * n) in Some (words bytes).
Definition read_word (image : list Z) (i : Z) : option Z :=
  let! ws := slice image i 1 in head ws.
(** The upper half of a word, as the [u16] behind the first. *)
Definition read_upper (image : list Z) (i : Z) : option Z :=
  let! w := read_word image i in Some (w / 2 ^ 16).

Record KernelArgument : Type := mkArgument { arg_name : Z; arg_size : Z; arg_data : list Z }.

Definition KernelArgument_new (image : list Z) (offset : Z) : option KernelArgument :=
  let! name := read_word image (offset / 4) in
  let! size := read_upper image (offset / 4 + 1) in
  let! data := slice image (offset / 4 + 2) size in
  Some (mkArgument name (size * 4) data).

Definition arguments_size (image : list Z) : option Z :=
  let! w := read_word image 2 in Some (usize (w * 4)).
Definition arguments_total_size (image : list Z) : option Z :=
  let! w := read_word image 3 in Some (usize (w * 4)).
Fixpoint iterate (fuel : nat) (image : list Z) (size offset : Z) : option (list KernelArgument) :=
  if size <=? offset then Some [] else
  match fuel with
  | O => None
  | S fuel =>
      let! arg := KernelArgument_new image offset in
      let! rest := iterate fuel image size (usize (offset + (arg_size arg + 8))) in
      Some (arg :: rest)
  end.
(** Every argument takes eight bytes at least. *)
Definition kernel_arguments (image : list Z) : option (list KernelArgument) :=
  let! size := arguments_size image in iterate (Z.to_nat (size / 8 + 1)) image size 0.

(** ** What the readers take from an argument ([kernel/src/services.rs], [loader/src/load.rs]) *)

Record BootProgram : Type := mkBootProgram { bp_offset : Z; bp_size : Z; bp_app : AppId; bp_name : list Z }.
Definition boot_program (data : list Z) : option BootProgram :=
  let! w2 := data !! 2%nat in let! w3 := data !! 3%nat in
  let! w4 := data !! 4%nat in let! w5 := data !! 5%nat in
  let name := take MAX_PROCESS_NAME_LEN (concat (map u32_to_le_bytes (drop 6 data))) in
  let! size := data !! 1%nat in
  let! offset := data !! 0%nat in
  Some (mkBootProgram offset size (AppId_from_words w2 w3 w4 w5) (name ++ zeros (Z.of_nat MAX_PROCESS_NAME_LEN - zlength name))).

(** [arg.data[1..].chunks(2)]. *)
Fixpoint region_chunks (ws : list Z) : option (list (Z * Z)) :=
  match ws with
  | [] => Some []
  | [_] => None
  | a :: b :: ws => let! rest := region_chunks ws in Some ((a, b) :: rest)
  end.
Definition boot_memory (data : list Z) : option (Z * list (Z * Z)) :=
  let! pid := head data in
  let! regions := region_chunks (tail data) in Some (u8 pid, regions).
Definition boot_syscalls (data : list Z) : option (Z * Z) :=
  let! pid := data !! 0%nat in let! low := data !! 1%nat in let! high := data !! 2%nat in
  Some (u8 pid, Z.lor low (Z.shiftl high 32)).

(** [loader/src/load.rs]: a [repr(C)] struct over the data of the argument. *)
Record ProgramDescription : Type := mkDescription {
  load_offset : Z; text_offset : Z; text_size : Z; data_offset : Z; data_size : Z; bss_size : Z; entrypoint : Z
}.
Definition boot_kernel_description (data : list Z) : option ProgramDescription :=
  match data with
  | [a; b; c; d; e; f; g] => Some (mkDescription a b c d e f g)
  | _ => None
  end.

(** ** The system calls a program may use ([xtask/src/tags/permission.rs]) *)

(** [format!("{:?}")] of a [SysCallNumber]. *)
Definition SysCallNumber_debug (n : SysCallNumber) : string :=
  match n with
  | NMapMemory => "MapMemory" | NYield => "Yield" | NSetThreadPriority => "SetThreadPriority"
  | NClaimInterrupt => "ClaimInterrupt" | NFreeInterrupt => "FreeInterrupt" | NFutexWait => "FutexWait"
  | NFutexWake => "FutexWake" | NUpdateMemoryFlags => "UpdateMemoryFlags"
  | NCreateServerWithAddress => "CreateServerWithAddress" | NReceiveMessage => "ReceiveMessage"
  | NSendMessage => "SendMessage" | NConnect => "Connect" | NCreateThread => "CreateThread"
  | NUnmapMemory => "UnmapMemory" | NReturnMemory => "ReturnMemory" | NCreateProcess => "CreateProcess"
  | NTerminateProcess => "TerminateProcess" | NShutdown => "Shutdown" | NTrySendMessage => "TrySendMessage"
  | NTryConnect => "TryConnect" | NReturnScalar1 => "ReturnScalar1" | NReturnScalar2 => "ReturnScalar2"
  | NTryReceiveMessage => "TryReceiveMessage" | NCreateServer => "CreateServer"
  | NConnectForProcess => "ConnectForProcess" | NCreateServerId => "CreateServerId"
  | NGetThreadId => "GetThreadId" | NGetProcessId => "GetProcessId" | NDestroyServer => "DestroyServer"
  | NDisconnect => "Disconnect" | NJoinThread => "JoinThread" | NGetRemoteProcessId => "GetRemoteProcessId"
  | NGetServerOwner => "GetServerOwner" | NVirtToPhys => "VirtToPhys" | NReturnScalar5 => "ReturnScalar5"
  | NVirtToPhysPid => "VirtToPhysPid" | NGetAppId => "GetAppId" | NAllowMessagesSID => "AllowMessagesSID"
  | NAllowMessagesCID => "AllowMessagesCID" | NInvalidateCache => "InvalidateCache"
  | NPowerManagement => "PowerManagement" | NAppIdToPid => "AppIdToPid"
  | NServerEventHandler => "ServerEventHandler" | NMirrorMemoryToPid => "MirrorMemoryToPid"
  | NDebugCommand => "DebugCommand" | NGetSystemStats => "GetSystemStats" | NTerminatePid => "TerminatePid"
  | NSystemEventHandler => "SystemEventHandler" | NAppendPanicMessage => "AppendPanicMessage"
  | NGetPanicMessage => "GetPanicMessage" | NResolveMessagePermission => "ResolveMessagePermission"
  | NGetPermissionRequestData => "GetPermissionRequestData" | NInvalid => "Invalid"
  end.
Definition SYSCALL_MAP (name : string) : option Z :=
  List.find (fun n => negb (SysCallNumber_as_usize (SysCallNumber_from n) =? SysCallNumber_as_usize NInvalid)
                      && String.eqb (SysCallNumber_debug (SysCallNumber_from n)) name) (seqZ 0 64).
Fixpoint syscall_mask_from (mask : Z) (names : list string) : option Z :=
  match names with
  | [] => Some mask
  | name :: names =>
      let! number := SYSCALL_MAP name in syscall_mask_from (Z.lor mask (Z.shiftl 1 number)) names
  end.
Definition syscall_mask (names : list string) : option Z := syscall_mask_from 0 names.
Definition SyscallPermission_new (pid : Z) (syscalls : list string) : option XousArgument :=
  let! mask := syscall_mask syscalls in Some (SyscallPermission pid mask).
(** [MemoryPermission::new]; [regions] is the generated table of the board. *)
Definition MemoryPermission_new (table : list (string * (Z * Z))) (pid : Z) (names : list string) : option XousArgument :=
  let! regions := mapM (fun name => snd <$> List.find (fun region => String.eqb region.1 name) table) names in
  Some (MemoryPermission pid regions).

(** ** Bytes and words *)

Lemma zlength_app {A} (a b : list A) : zlength (a ++ b) = zlength a + zlength b.
Proof. unfold zlength. rewrite length_app. lia. Qed.
Lemma zlength_nonneg {A} (a : list A) : 0 <= zlength a.
Proof. unfold zlength. lia. Qed.
Lemma zlength_zeros n : 0 <= n -> zlength (zeros n) = n.
Proof. intros. unfold zlength, zeros. rewrite length_replicate. lia. Qed.
Lemma zlength_le x : zlength (u32_to_le_bytes x) = 4.
Proof. done. Qed.

Lemma bytes_at_app pre mid post i n :
  zlength pre = i -> zlength mid = n -> bytes_at (pre ++ mid ++ post) i n = Some mid.
Proof.
  intros <- <-. unfold bytes_at, zlength. rewrite !Nat2Z.id, drop_app_length, take_app_length. by rewrite Z.eqb_refl.
Qed.

Lemma words_le x rest : is_u32 x -> words (u32_to_le_bytes x ++ rest) = x :: words rest.
Proof. intros Hx. cbn [words app u32_to_le_bytes]. by rewrite u32_le_bytes_roundtrip. Qed.

(** A list of whole words, four bytes at a time. *)
Lemma words_ind (P : list Z -> Prop) :
  P [] -> (forall b0 b1 b2 b3 rest, P rest -> P (b0 :: b1 :: b2 :: b3 :: rest)) ->
  forall n bytes, List.length bytes = (4 * n)%nat -> P bytes.
Proof.
  intros H0 H4. induction n as [|n IH]; intros bytes Hlen.
  - by destruct bytes.
  - destruct bytes as [|b0 [|b1 [|b2 [|b3 rest]]]]; cbn in Hlen; try lia. apply H4, IH. lia.
Qed.
Lemma words_app a b n : List.length a = (4 * n)%nat -> words (a ++ b) = words a ++ words b.
Proof.
  revert a. apply (words_ind (fun a => words (a ++ b) = words a ++ words b)); [done|].
  intros b0 b1 b2 b3 rest IH. cbn. by rewrite IH.
Qed.
Lemma words_length bytes n : List.length bytes = (4 * n)%nat -> List.length (words bytes) = n.
Proof.
  revert bytes. induction n as [|n IH]; intros bytes H; [by destruct bytes|].
  destruct bytes as [|? [|? [|? [|? bytes]]]]; cbn in H; try lia. cbn. f_equal. apply IH. lia.
Qed.
Lemma words_bytes bytes n :
  List.length bytes = (4 * n)%nat -> Forall is_u8 bytes -> concat (map u32_to_le_bytes (words bytes)) = bytes.
Proof.
  revert bytes. apply (words_ind (fun bytes => Forall is_u8 bytes -> concat (map u32_to_le_bytes (words bytes)) = bytes)); [done|].
  intros b0 b1 b2 b3 rest IH Hb. rewrite !Forall_cons_iff in Hb. destruct_and! Hb. cbn [words map concat].
  destruct (u32_from_le_bytes_bytes b0 b1 b2 b3) as [-> _]; [done..|]. cbn. by rewrite IH.
Qed.

Lemma slice_app pre mid post i n :
  zlength pre = 4 * i -> zlength mid = 4 * n -> slice (pre ++ mid ++ post) i n = Some (words mid).
Proof. intros Hp Hm. unfold slice. by rewrite (bytes_at_app pre mid post). Qed.
Lemma read_word_app pre x post i :
  zlength pre = 4 * i -> is_u32 x -> read_word (pre ++ u32_to_le_bytes x ++ post) i = Some x.
Proof.
  intros Hp Hx. unfold read_word. rewrite (slice_app pre (u32_to_le_bytes x)) by done.
  rewrite <-(app_nil_r (u32_to_le_bytes x)). by rewrite words_le.
Qed.

(** ** One argument *)

Section Reading.
Context (crc16 : list Z -> Z).

Lemma tagged_length tag data : zlength (tagged crc16 tag data) = 8 + zlength data.
Proof. unfold tagged. rewrite !zlength_app, zlength_le. unfold zlength. cbn [List.length u16_to_le_bytes]. lia. Qed.

Lemma half_words c n : 0 <= n < 2 ^ 16 ->
  exists w, is_u32 w /\ u16_to_le_bytes c ++ u16_to_le_bytes n = u32_to_le_bytes w /\ w / 2 ^ 16 = n.
Proof.
  intros Hn. assert (forall x, is_u8 (x mod 256)) as Hb by (intros; unfold is_u8; apply Z.mod_pos_bound; lia).
  destruct (u32_from_le_bytes_bytes (c mod 256) (c / 2 ^ 8 mod 256) (n mod 256) (n / 2 ^ 8 mod 256)) as [E Hw]; [apply Hb..|].
  exists (u32_from_le_bytes (c mod 256) (c / 2 ^ 8 mod 256) (n mod 256) (n / 2 ^ 8 mod 256)). split; [done|]. split; [by rewrite E|].
  pose proof (Hb c). pose proof (Hb (c / 2 ^ 8)). unfold u32_from_le_bytes, is_u8 in *.
  change (2 ^ 8) with 256 in *; change (2 ^ 16) with 65536 in *; change (2 ^ 24) with 16777216. clear E Hw Hb.
  set (x := c mod 256) in *. set (y := c / 256 mod 256) in *. Z.div_mod_to_equations. lia.
Qed.

Lemma KernelArgument_tagged pre tag data post :
  zlength pre mod 4 = 0 -> is_u32 tag -> zlength data mod 4 = 0 -> zlength data < 2 ^ 18 ->
  KernelArgument_new (pre ++ tagged crc16 tag data ++ post) (zlength pre) = Some (mkArgument tag (zlength data) (words data)).
Proof.
  intros Hpre Htag Hd Hlt. set (n := zlength data / 4). pose proof (zlength_nonneg data).
  assert (zlength data = 4 * n) as Hn by (unfold n; Z.div_mod_to_equations; lia).
  set (p := zlength pre / 4). assert (zlength pre = 4 * p) as Hp by (unfold p; Z.div_mod_to_equations; lia).
  assert (u16 n = n) as Hu by (apply u16_id; unfold is_u16; change (2 ^ 18) with (4 * 2 ^ 16) in Hlt; lia).
  unfold KernelArgument_new, tagged. fold n p. rewrite Hu.
  destruct (half_words (crc16 data) n) as (w & Hw & E & Ew); [change (2 ^ 18) with (4 * 2 ^ 16) in Hlt; lia|].
  rewrite (app_assoc (u16_to_le_bytes (crc16 data))), E, <-!app_assoc.
  rewrite read_word_app by done. unfold read_upper.
  rewrite (app_assoc pre (u32_to_le_bytes tag)), read_word_app by (done || (rewrite zlength_app, zlength_le; lia)). rewrite Ew.
  rewrite (app_assoc (pre ++ u32_to_le_bytes tag)), slice_app; [by rewrite Hn, Z.mul_comm| |done].
  rewrite !zlength_app, !zlength_le. lia.
Qed.

(** ** All arguments *)

Definition wf_argument (a : XousArgument) : Prop :=
  match a with
  | BinaryElf pid app_id program_name load_offset data =>
      wf_AppId app_id /\ Forall is_u8 program_name /\ is_u32 load_offset /\ zlength data <= 2 ^ 31
  | MemoryPermission pid regions =>
      is_u8 pid /\ Forall (fun region => is_u32 region.1 /\ is_u32 region.2) regions /\ zlength regions < 2 ^ 15
  | SyscallPermission pid mask => is_u8 pid /\ 0 <= mask < 2 ^ 64
  | XousKernel load_offset text_offset text_size data_offset data_size bss_size entrypoint _ =>
      is_u32 load_offset /\ is_u32 text_offset /\ is_u32 text_size /\ is_u32 data_offset /\ is_u32 data_size
      /\ is_u32 bss_size /\ is_u32 entrypoint
  end.
Definition argument_of (a : XousArgument) : KernelArgument :=
  mkArgument (code a) (zlength (serialize a)) (words (serialize a)).

Lemma code_wf a : is_u32 (code a).
Proof. destruct a; vm_compute; intuition congruence. Qed.

Lemma argument_length_wf a :
  wf_argument a -> argument_length a mod 4 = 0 /\ 0 <= argument_length a < 2 ^ 18.
Proof.
  destruct a as [| pid regions| |]; cbn [wf_argument argument_length].
  - done.
  - intros (_ & _ & H). pose proof (zlength_nonneg regions). rewrite u32_id by (unfold is_u32; lia).
    split; [|lia]. Z.div_mod_to_equations. lia.
  - done.
  - done.
Qed.

Lemma write_arguments_cons a args tags :
  write_arguments crc16 (a :: args) = Some tags ->
  exists rest, write_arguments crc16 args = Some rest /\ tags = tagged crc16 (code a) (serialize a) ++ rest
    /\ zlength (serialize a) = argument_length a.
Proof.
  cbn [write_arguments]. destruct (Z.eqb_spec (argument_length a) (zlength (serialize a))) as [E|]; [|done]. cbn [negb].
  destruct (write_arguments crc16 args) as [rest|]; [|done]. intros [= <-]. by exists rest.
Qed.

Lemma iterate_stop fuel image size offset : size <= offset -> iterate fuel image size offset = Some [].
Proof. intros H. destruct fuel; cbn [iterate]; by rewrite (proj2 (Z.leb_le _ _) H). Qed.
Lemma iterate_next fuel image size offset arg :
  offset < size -> KernelArgument_new image offset = Some arg ->
  iterate (S fuel) image size offset =
    let! rest := iterate fuel image size (usize (offset + (arg_size arg + 8))) in Some (arg :: rest).
Proof. intros H E. cbn [iterate]. by rewrite (proj2 (Z.leb_gt _ _) H), E. Qed.

Lemma iterate_arguments size post fuel : size < 2 ^ 32 -> forall args tags pre,
  Forall wf_argument args -> write_arguments crc16 args = Some tags ->
  zlength pre mod 4 = 0 -> zlength pre + zlength tags <= size ->
  iterate (List.length args + fuel) (pre ++ tags ++ post) size (zlength pre) =
    let! rest := iterate fuel (pre ++ tags ++ post) size (zlength (pre ++ tags)) in Some (map argument_of args ++ rest).
Proof.
  intros Hsize. induction args as [|a args IH]; intros tags pre Hwf Ht Hpre Hle.
  - injection Ht as <-. cbn [List.length Nat.add map app]. rewrite app_nil_r. by destruct (iterate _ _ _ _).
  - apply Forall_cons_iff in Hwf as [Ha Hwf]. apply write_arguments_cons in Ht as (rest & Ht & -> & El).
    destruct (argument_length_wf a Ha) as [Hm Hl]. rewrite <-El in Hm, Hl.
    pose proof (zlength_nonneg pre). pose proof (zlength_nonneg rest). rewrite zlength_app, tagged_length in Hle.
    cbn [List.length Nat.add map]. rewrite <-(app_assoc _ rest).
    erewrite iterate_next; [|lia|apply KernelArgument_tagged; [done|apply code_wf|done|lia]]. cbn [arg_size].
    rewrite usize_id by (unfold is_usize; lia).
    replace (zlength pre + (zlength (serialize a) + 8)) with (zlength (pre ++ tagged crc16 (code a) (serialize a)))
      by (rewrite zlength_app, tagged_length; lia).
    rewrite (app_assoc pre). rewrite (IH rest); [|done|done| |].
    + rewrite <-!(app_assoc pre). by destruct (iterate _ _ _ _).
    + rewrite zlength_app, tagged_length. Z.div_mod_to_equations. lia.
    + rewrite zlength_app, tagged_length. lia.
Qed.

(** The length the tool computes is the length of what it writes, but for twelve bytes. *)
Lemma arguments_len_tags args : Forall wf_argument args -> forall tags total,
  write_arguments crc16 args = Some tags -> 0 <= total -> total + Z.of_nat (List.length args) * 2 ^ 19 < 2 ^ 32 ->
  fold_left (fun total a => u32 (total + argument_length a + 8)) args total = total + zlength tags.
Proof.
  induction args as [|a args IH]; intros Hwf tags total Ht H0 Hlt.
  - injection Ht as <-. unfold zlength. cbn. lia.
  - apply Forall_cons_iff in Hwf as [Ha Hwf]. apply write_arguments_cons in Ht as (rest & Ht & -> & El).
    destruct (argument_length_wf a Ha) as [_ Hl]. cbn [List.length] in Hlt. cbn [fold_left].
    rewrite u32_id by (unfold is_u32; lia). rewrite (IH Hwf rest); [|done|lia|lia].
    rewrite zlength_app, tagged_length. lia.
Qed.

(** ** The programs behind the arguments *)

Lemma align_up_page x :
  align_size_up x 0 mod PAGE_SIZE = 0 /\ x <= align_size_up x 0 < x + PAGE_SIZE
  /\ (x mod PAGE_SIZE = 0 -> align_size_up x 0 = x).
Proof.
  unfold align_size_up, PAGE_SIZE. pose proof (Z.mod_pos_bound x 4096 ltac:(lia)).
  destruct (Z.compare_spec (x mod 4096) 0) as [E|E|E]; [split_and!; lia|lia|].
  change (4096 - 1) with (Z.ones 12). rewrite Z.ldiff_ones_r, Z.shiftl_mul_pow2, Z.shiftr_div_pow2 by lia.
  change (2 ^ 12) with 4096. split_and!; Z.div_mod_to_equations; lia.
Qed.
Lemma align_up_same x y : x <= y <= align_size_up x 0 -> align_size_up x 0 = align_size_up y 0.
Proof.
  intros H. destruct (align_up_page x) as (H1 & H2 & _). destruct (align_up_page y) as (H3 & H4 & _).
  unfold PAGE_SIZE in *. Z.div_mod_to_equations. lia.
Qed.
Lemma align_data_length data : zlength (align_data_up data 0) = align_size_up (zlength data) 0.
Proof.
  unfold align_data_up. destruct (align_up_page (zlength data)) as (_ & H & He).
  destruct (Z.eqb_spec (zlength data mod PAGE_SIZE) 0) as [E|E]; [by rewrite He|].
  rewrite zlength_app, zlength_zeros by lia. lia.
Qed.

(** The bytes of a program are where its argument says. *)
Definition located (image : list Z) (a : XousArgument) : Prop :=
  match a with
  | BinaryElf _ _ _ load_offset data => bytes_at image load_offset (zlength data) = Some data
  | XousKernel load_offset _ _ _ _ _ _ program => bytes_at image load_offset (zlength program) = Some program
  | _ => True
  end.
(** An argument at its place. *)
Definition placed_at (offset : Z) (a a' : XousArgument) : Prop :=
  match a with
  | BinaryElf pid app_id name _ data =>
      offset mod PAGE_SIZE = 0 /\ a' = BinaryElf pid app_id name (u32 offset) (align_data_up data 0)
  | XousKernel _ t ts d ds bs e program => a' = XousKernel (u32 offset) t ts d ds bs e (align_data_up program 0)
  | _ => a' = a
  end.
Lemma finalize_placed a offset a' n :
  finalize_argument a offset = Some (a', n) ->
  placed_at offset a a' /\ n = zlength (last_data a') /\ n mod PAGE_SIZE = 0 /\ argument_length a' = argument_length a
  /\ (wf_argument a -> wf_argument a').
Proof.
  assert (forall data, zlength (align_data_up data 0) mod PAGE_SIZE = 0) as Hd
    by (intros; rewrite align_data_length; by destruct (align_up_page (zlength data))).
  destruct a; cbn [finalize_argument].
  - destruct (Z.eqb_spec (offset mod PAGE_SIZE) 0); [|done]. intros [= <- <-]. split_and!; try done.
    intros (? & ? & ? & Hl). split_and!; [done..|apply u32_range|]. rewrite align_data_length. change (2 ^ 31) with 2147483648 in *.
    destruct (align_up_page (zlength data)) as (Hr1 & Hr2 & _). unfold PAGE_SIZE in *. Z.div_mod_to_equations. lia.
  - intros [= <- <-]. by split_and!.
  - intros [= <- <-]. by split_and!.
  - destruct (negb _); [done|]. destruct (negb _); [done|]. intros [= <- <-]. split_and!; try done.
    intros (_ & ?). split; [apply u32_range|done].
Qed.

Lemma located_payload pre a rest :
  zlength pre < 2 ^ 32 -> (exists a0, placed_at (zlength pre) a0 a) -> located (pre ++ last_data a ++ rest) a.
Proof.
  intros Hlt [a0 Ha]. pose proof (zlength_nonneg pre). assert (u32 (zlength pre) = zlength pre) as Hu by (apply u32_id; unfold is_u32; lia).
  destruct a0; cbn [placed_at] in Ha; [destruct Ha as [_ ->]|subst a; done|subst a; done|subst a]; cbn [located last_data]; by apply bytes_at_app.
Qed.

Lemma payloads_located args : forall offset total placed pos pre,
  finalize_from offset args = Some (total, placed) -> pos = zlength pre ->
  align_size_up pos 0 = align_size_up offset 0 -> 0 <= offset -> total < 2 ^ 32 ->
  Forall (located (pre ++ write_payloads pos placed)) placed
  /\ Forall2 (fun a a' => exists at', placed_at at' a a' /\ at' < 2 ^ 32 /\ 0 <= at') args placed
  /\ offset <= total /\ Forall2 (fun a a' => argument_length a' = argument_length a /\ (wf_argument a -> wf_argument a')) args placed.
Proof.
  induction args as [|a args IH]; intros offset total placed pos pre; cbn [finalize_from].
  - intros [= -> <-] _ _ _ _. cbn. split_and!; [done..|lia|done].
  - change (alignment_offset a) with 0. destruct (align_up_page offset) as (_ & Ho & _). destruct (align_up_page pos) as (_ & Hp & _).
    destruct (finalize_argument a _) as [[a' n]|] eqn:Ea; [|done].
    destruct (finalize_from _ args) as [[total' placed']|] eqn:Er; [|done]. intros [= -> <-] -> E H0 Hlt.
    destruct (finalize_placed _ _ _ _ Ea) as (Hplace & -> & Hn & Hlen & Hwf).
    cbn [write_payloads]. change (alignment_offset a') with 0. rewrite E. set (off := align_size_up offset 0) in *.
    set (here := zeros (off - zlength pre) ++ last_data a').
    assert (zlength (zeros (off - zlength pre)) = off - zlength pre) as Hz by (apply zlength_zeros; lia).
    assert (zlength (pre ++ here) = off + zlength (last_data a')) as Hh.
    { unfold here. rewrite !zlength_app, Hz. lia. }
    pose proof (zlength_nonneg (last_data a')).
    destruct (IH (off + zlength (last_data a')) total placed' (zlength (pre ++ here)) (pre ++ here) Er) as (Hl & Hpl & Hle & Hkeep);
      [done|by rewrite Hh|lia|done|].
    rewrite zlength_app in Hl. rewrite <-(app_assoc pre here) in Hl.
    split_and!; [|constructor; [eexists; split; [exact Hplace|lia]|done]|lia|by constructor].
    constructor; [|exact Hl]. unfold here. rewrite <-(app_assoc (zeros _)), (app_assoc pre).
    assert (zlength (pre ++ zeros (off - zlength pre)) = off) as Hoff by (rewrite zlength_app, Hz; lia).
    apply located_payload; [rewrite Hoff; lia|]. exists a. by rewrite Hoff.
Qed.

(** ** What is read *)

Inductive BootEntry : Type :=
| EntryProgram (p : BootProgram)
| EntryMemory (pid : Z) (regions : list (Z * Z))
| EntrySyscalls (pid mask : Z)
| EntryKernel (d : ProgramDescription)
| EntryOther.
Definition entry_of (arg : KernelArgument) : option BootEntry :=
  if arg_name arg =? tag_BElf then let! p := boot_program (arg_data arg) in Some (EntryProgram p)
  else if arg_name arg =? tag_PMem then let! (pid, regions) := boot_memory (arg_data arg) in Some (EntryMemory pid regions)
  else if arg_name arg =? tag_PSys then let! (pid, mask) := boot_syscalls (arg_data arg) in Some (EntrySyscalls pid mask)
  else if arg_name arg =? tag_XKrn then let! d := boot_kernel_description (arg_data arg) in Some (EntryKernel d)
  else Some EntryOther.
Definition is_entry (e : BootEntry) : bool := match e with EntryOther => false | _ => true end.
(** All that the readers find in an image. *)
Definition boot_entries (image : list Z) : option (list BootEntry) :=
  let! args := kernel_arguments image in
  let! entries := mapM entry_of args in Some (List.filter is_entry entries).

Definition described (a : XousArgument) : BootEntry :=
  match a with
  | BinaryElf _ app_id name load_offset data =>
      EntryProgram (mkBootProgram load_offset (zlength data) app_id (name ++ zeros (32 - zlength name)))
  | MemoryPermission pid regions => EntryMemory pid regions
  | SyscallPermission pid mask => EntrySyscalls pid mask
  | XousKernel l t ts d ds bs e _ => EntryKernel (mkDescription l t ts d ds bs e)
  end.

Lemma byte_of_u32 x b c : 0 < b -> 0 < c -> b * (256 * c) = 2 ^ 32 -> u32 x / b mod 256 = x / b mod 256.
Proof.
  intros Hb Hc E. unfold u32. rewrite <-E, Z.rem_mul_r, Z.mul_comm, Z.div_add, Z.div_small, Z.add_0_l by (lia || by apply Z.mod_pos_bound).
  apply Z.mod_mod_divide. by exists c; rewrite Z.mul_comm.
Qed.
Lemma u32_to_le_bytes_u32 x : u32_to_le_bytes (u32 x) = u32_to_le_bytes x.
Proof.
  unfold u32_to_le_bytes. rewrite (byte_of_u32 x (2 ^ 8) (2 ^ 16)), (byte_of_u32 x (2 ^ 16) (2 ^ 8)), (byte_of_u32 x (2 ^ 24) 1) by done.
  f_equal. pose proof (byte_of_u32 x 1 (2 ^ 24) ltac:(done) ltac:(done) eq_refl) as E. by rewrite !Z.div_1_r in E.
Qed.
Lemma words_le_u32 x rest : words (u32_to_le_bytes x ++ rest) = u32 x :: words rest.
Proof. rewrite <-u32_to_le_bytes_u32. apply words_le, u32_range. Qed.
Lemma pid_bytes pid : is_u8 pid -> [pid; 0; 0; 0] = u32_to_le_bytes pid.
Proof.
  unfold is_u8, u32_to_le_bytes. change (2 ^ 8) with 256. change (2 ^ 16) with 65536. change (2 ^ 24) with 16777216. intros.
  repeat f_equal; Z.div_mod_to_equations; lia.
Qed.
Lemma region_chunks_words regions :
  Forall (fun region => is_u32 region.1 /\ is_u32 region.2) regions ->
  region_chunks (words (concat (map (fun region => u32_to_le_bytes region.1 ++ u32_to_le_bytes region.2) regions))) = Some regions.
Proof.
  induction 1 as [|[a b] regions [Ha Hb] _ IH]; [done|]. cbn [map concat fst snd]. cbn in Ha, Hb. rewrite <-!app_assoc, !words_le by done.
  cbn [region_chunks]. by rewrite IH.
Qed.

Lemma program_words app_id name load_offset (data : list Z) :
  wf_AppId app_id -> Forall is_u8 name -> is_u32 load_offset -> zlength data <= 2 ^ 31 -> zlength name <= 32 ->
  boot_program (words (u32_to_le_bytes load_offset ++ u32_to_le_bytes (zlength data) ++ app_bytes app_id ++ name ++ zeros (32 - zlength name)))
    = Some (mkBootProgram load_offset (zlength data) app_id (name ++ zeros (32 - zlength name))).
Proof.
  intros [Hal Hab] Hname Ho Hd Hn. pose proof (zlength_nonneg data). pose proof (zlength_nonneg name).
  set (padded := name ++ zeros (32 - zlength name)).
  assert (List.length padded = 4 * 8)%nat as Hp.
  { pose proof (zlength_app name (zeros (32 - zlength name))) as E. rewrite zlength_zeros in E by lia. fold padded in E. unfold zlength in E. lia. }
  assert (Forall is_u8 padded) as Hpb by (apply Forall_app; split; [done|]; apply Forall_replicate; unfold is_u8; lia).
  rewrite !words_le by (done || (unfold is_u32; lia)). rewrite (words_app _ padded 4) by done.
  pose proof (words_bytes _ 4 Hal Hab) as Ea. pose proof (words_length _ 4 Hal) as El.
  destruct (words (app_bytes app_id)) as [|w2 [|w3 [|w4 [|w5 [|]]]]]; try discriminate El.
  unfold boot_program. cbn [lookup list_lookup drop app].
  assert (AppId_from_words w2 w3 w4 w5 = app_id) as -> by (destruct app_id; unfold AppId_from_words; f_equal; exact Ea).
  rewrite drop_0, (words_bytes padded 8) by done. rewrite take_ge by (rewrite Hp; done).
  replace (Z.of_nat MAX_PROCESS_NAME_LEN - zlength padded) with 0 by (unfold zlength; rewrite Hp; done). by rewrite app_nil_r.
Qed.

Lemma entry_of_argument a :
  wf_argument a -> zlength (serialize a) = argument_length a -> entry_of (argument_of a) = Some (described a).
Proof.
  intros Hwf Hlen. unfold argument_of, entry_of. destruct a as [pid app name off data|pid regions|pid mask|]; cbn [wf_argument] in Hwf.
  - destruct Hwf as (? & ? & ? & ?). cbn [arg_name arg_data code serialize]. change (tag_BElf =? tag_BElf) with true. cbv iota.
    rewrite program_words; [done..|]. cbn [serialize argument_length] in Hlen. rewrite !zlength_app, !zlength_le in Hlen.
    assert (zlength (app_bytes app) = 16) by (unfold zlength; by destruct H as [-> _]).
    pose proof (zlength_nonneg (zeros (32 - zlength name))). lia.
  - destruct Hwf as (? & ? & ?). cbn [arg_name arg_data code serialize]. change (tag_PMem =? tag_BElf) with false.
    change (tag_PMem =? tag_PMem) with true. cbv iota. rewrite pid_bytes by done. unfold is_u8 in H.
    rewrite words_le by (unfold is_u32; lia). unfold boot_memory. cbn [head tail]. by rewrite region_chunks_words, u8_id.
  - destruct Hwf as [? Hm]. cbn [arg_name arg_data code serialize]. change (tag_PSys =? tag_BElf) with false.
    change (tag_PSys =? tag_PMem) with false. change (tag_PSys =? tag_PSys) with true. cbv iota. rewrite pid_bytes by done. unfold is_u8 in H.
    rewrite words_le by (unfold is_u32; lia). unfold u64_to_le_bytes. rewrite words_le_u32.
    rewrite <-(app_nil_r (u32_to_le_bytes (mask / 2 ^ 32))), words_le_u32.
    assert (u32 (mask / 2 ^ 32) = mask / 2 ^ 32) as -> by (apply u32_id; unfold is_u32; Z.div_mod_to_equations; lia).
    unfold boot_syscalls. cbn [lookup list_lookup words]. rewrite u8_id by done. do 2 f_equal.
    rewrite Z.lor_comm, lor_shiftl_add by (lia || apply u32_range). unfold u32. cbn [described]. f_equal. Z.div_mod_to_equations. lia.
  - destruct_and! Hwf. cbn [arg_name arg_data code serialize]. change (tag_XKrn =? tag_BElf) with false.
    change (tag_XKrn =? tag_PMem) with false. change (tag_XKrn =? tag_PSys) with false. change (tag_XKrn =? tag_XKrn) with true. cbv iota.
    rewrite !words_le by done. rewrite <-(app_nil_r (u32_to_le_bytes entrypoint0)), words_le by done. done.
Qed.

(** ** The padding before the programs *)

(** The tool counts twelve bytes more than it writes, so that the readers go on for two arguments
    in the padding.  Here the padding has room for them. *)
Definition clear_of_page_end (args : list XousArgument) : Prop :=
  0 < (arguments_len args - 12) mod PAGE_SIZE <= PAGE_SIZE - 16.

Lemma KernelArgument_zeros pre post :
  zlength pre mod 4 = 0 -> KernelArgument_new (pre ++ zeros 8 ++ post) (zlength pre) = Some (mkArgument 0 0 []).
Proof.
  intros Hpre. set (p := zlength pre / 4). assert (zlength pre = 4 * p) as Hp by (unfold p; Z.div_mod_to_equations; lia).
  change (zeros 8) with (u32_to_le_bytes 0 ++ u32_to_le_bytes 0). unfold KernelArgument_new. fold p. rewrite <-app_assoc.
  rewrite read_word_app by done. unfold read_upper. rewrite (app_assoc pre), read_word_app by (done || (rewrite zlength_app, zlength_le; lia)).
  change (0 / 2 ^ 16) with 0. rewrite (app_assoc (pre ++ _) _ post). rewrite <-(app_nil_l post).
  rewrite slice_app; [done| |done]. rewrite !zlength_app, !zlength_le. lia.
Qed.
Lemma zeros_add a b : 0 <= a -> 0 <= b -> zeros (a + b) = zeros a ++ zeros b.
Proof. intros. unfold zeros. by rewrite Z2Nat.inj_add, replicate_add by done. Qed.

Lemma iterate_padding pre pad post fuel :
  16 <= pad -> zlength pre mod 4 = 0 -> zlength pre + 16 < 2 ^ 32 ->
  iterate (S (S fuel)) (pre ++ zeros pad ++ post) (zlength pre + 12) (zlength pre) = Some [mkArgument 0 0 []; mkArgument 0 0 []].
Proof.
  intros Hpad Hpre Hlt. pose proof (zlength_nonneg pre).
  assert (zlength (pre ++ zeros 8) = zlength pre + 8) as E8 by (rewrite zlength_app, zlength_zeros; lia).
  replace pad with (8 + (8 + (pad - 16))) by lia. rewrite !zeros_add, <-!app_assoc by lia.
  erewrite iterate_next; [|lia|by apply KernelArgument_zeros]. cbn [arg_size].
  rewrite usize_id by (unfold is_usize; lia). rewrite (app_assoc pre).
  replace (zlength pre + (0 + 8)) with (zlength (pre ++ zeros 8)) by lia.
  erewrite iterate_next; [|lia|apply KernelArgument_zeros; rewrite E8; Z.div_mod_to_equations; lia]. cbn [arg_size].
  rewrite iterate_stop; [done|]. rewrite usize_id; unfold is_usize; lia.
Qed.
Lemma iterate_enough fuel fuel' image size offset r : (fuel <= fuel')%nat -> iterate fuel image size offset = Some r -> iterate fuel' image size offset = Some r.
Proof.
  revert fuel' offset r. induction fuel as [|fuel IH]; intros fuel' offset r Hle; cbn [iterate];
    destruct (Z.leb_spec size offset); [by rewrite iterate_stop|done|by rewrite iterate_stop|].
  destruct fuel' as [|fuel']; [lia|]. intros H0. cbn [iterate]. rewrite (proj2 (Z.leb_gt _ _)) by done.
  destruct (KernelArgument_new image offset) as [arg|]; [|done]. destruct (iterate fuel image size _) as [rest|] eqn:E; [|done].
  by rewrite (IH fuel' _ rest) by (done || lia).
Qed.

Lemma arguments_len_placed (P : XousArgument -> XousArgument -> Prop) args placed :
  Forall2 (fun a a' => argument_length a' = argument_length a /\ P a a') args placed -> arguments_len placed = arguments_len args.
Proof.
  unfold arguments_len. generalize (20 + header_len). intros n H. revert n. induction H as [|a a' args placed [E _] _ IH]; intros n; [done|].
  cbn [fold_left]. by rewrite E.
Qed.

Lemma written_length args tags : Forall wf_argument args -> write_arguments crc16 args = Some tags ->
  zlength tags mod 4 = 0 /\ 8 * Z.of_nat (List.length args) <= zlength tags <= Z.of_nat (List.length args) * 2 ^ 19.
Proof.
  revert tags. induction args as [|a args IH]; intros tags Hwf Ht; [by injection Ht as <-|].
  apply Forall_cons_iff in Hwf as [Ha Hwf]. apply write_arguments_cons in Ht as (rest & Ht & -> & E).
  destruct (argument_length_wf a Ha). destruct (IH rest Hwf Ht). rewrite zlength_app, tagged_length. cbn [List.length].
  split; [Z.div_mod_to_equations; lia|lia].
Qed.

(** The arguments of a written image, followed by what the padding yields. *)
Lemma kernel_arguments_written args tags total payload pad :
  Forall wf_argument args -> (List.length args <= 1024)%nat -> write_arguments crc16 args = Some tags ->
  0 <= total < 2 ^ 34 -> 16 <= pad ->
  let header := tagged crc16 tag_XArg (u32_to_le_bytes (arguments_len args / 4) ++ u32_to_le_bytes (total / 4)) in
  let xarg := mkArgument tag_XArg 8 [arguments_len args / 4; total / 4] in
  arguments_len args = zlength (header ++ tags) + 12
  /\ kernel_arguments ((header ++ tags) ++ zeros pad ++ payload) = Some (xarg :: map argument_of args ++ [mkArgument 0 0 []; mkArgument 0 0 []]).
Proof.
  intros Hwf Hlen Ht Htotal Hpad header xarg.
  assert (arguments_len args = 28 + zlength tags) as El by (apply arguments_len_tags; [done|done|lia|unfold header_len; lia]).
  assert (zlength header = 16) as Hh by (unfold header; by rewrite tagged_length, zlength_app, !zlength_le).
  destruct (written_length args tags Hwf Ht) as [Hm Hb]. rewrite zlength_app, Hh. split; [lia|].
  set (image := (header ++ tags) ++ zeros pad ++ payload).
  assert (is_u32 (arguments_len args / 4)) as Hw by (unfold is_u32; Z.div_mod_to_equations; lia).
  assert (is_u32 (total / 4)) as Hw' by (unfold is_u32; change (2 ^ 34) with (4 * 2 ^ 32) in Htotal; Z.div_mod_to_equations; lia).
  assert (arguments_size image = Some (arguments_len args)) as Es.
  { unfold arguments_size. assert (read_word image 2 = Some (arguments_len args / 4)) as ->.
    - unfold image, header, tagged. rewrite <-!app_assoc.
      rewrite (app_assoc (u16_to_le_bytes _)), (app_assoc (u32_to_le_bytes tag_XArg)). by apply read_word_app.
    - rewrite usize_id; [f_equal; Z.div_mod_to_equations; lia|unfold is_usize; Z.div_mod_to_equations; lia]. }
  unfold kernel_arguments. rewrite Es.
  apply (iterate_enough (S (List.length args + 2))).
  { change 2 with (Z.of_nat 2). Z.div_mod_to_equations. lia. }
  assert (zlength (header ++ tags) = 16 + zlength tags) as Hht by (rewrite zlength_app; lia).
  erewrite iterate_next; [|lia|].
  2:{ unfold image, header. rewrite <-!app_assoc. by apply (KernelArgument_tagged []). }
  cbn [arg_size]. rewrite zlength_app, !zlength_le. change (usize (0 + (4 + 4 + 8))) with 16. rewrite <-Hh.
  unfold image. rewrite <-(app_assoc header). rewrite (iterate_arguments (arguments_len args)); [|lia|done|done|by rewrite Hh|lia].
  rewrite (app_assoc header). replace (arguments_len args) with (zlength (header ++ tags) + 12) by lia.
  rewrite iterate_padding; [|done|rewrite Hht; Z.div_mod_to_equations; lia|lia].
  unfold xarg. replace (zlength (header ++ tags) + 12) with (arguments_len args) by lia. rewrite words_le by done. rewrite <-(app_nil_r (u32_to_le_bytes (total / 4))), words_le by done. done.
Qed.

Lemma entries_of args :
  Forall wf_argument args -> Forall (fun a => zlength (serialize a) = argument_length a) args ->
  mapM entry_of (map argument_of args) = Some (map described args).
Proof.
  induction args as [|a args IH]; intros Hwf Hl; [done|]. apply Forall_cons_iff in Hwf as [Ha Hwf]. apply Forall_cons_iff in Hl as [El Hl].
  cbn [map mapM]. rewrite entry_of_argument by done. cbn. by rewrite IH.
Qed.
Lemma mapM_snoc {A B} (f : A -> option B) l k ys zs : mapM f l = Some ys -> mapM f k = Some zs -> mapM f (l ++ k) = Some (ys ++ zs).
Proof. rewrite !mapM_Some. apply Forall2_app. Qed.
Lemma described_entries args : List.filter is_entry (map described args ++ [EntryOther; EntryOther]) = map described args.
Proof. induction args as [|a args IH]; [done|]. cbn. rewrite IH. by destruct a. Qed.
Lemma write_arguments_lengths args tags :
  write_arguments crc16 args = Some tags -> Forall (fun a => zlength (serialize a) = argument_length a) args.
Proof.
  revert tags. induction args as [|a args IH]; intros tags Ht; [done|].
  apply write_arguments_cons in Ht as (rest & Ht & _ & E). constructor; eauto.
Qed.

(** What comes back for an argument. *)
Definition reads_back (image : list Z) (a : XousArgument) (e : BootEntry) : Prop :=
  match a with
  | BinaryElf _ app_id name _ data =>
      exists offset, e = EntryProgram (mkBootProgram offset (align_size_up (zlength data) 0) app_id (name ++ zeros (32 - zlength name)))
        /\ offset mod PAGE_SIZE = 0 /\ bytes_at image offset (align_size_up (zlength data) 0) = Some (align_data_up data 0)
  | MemoryPermission pid regions => e = EntryMemory pid regions
  | SyscallPermission pid mask => e = EntrySyscalls pid mask
  | XousKernel _ t ts d ds bs entry program =>
      exists offset, e = EntryKernel (mkDescription offset t ts d ds bs entry)
        /\ bytes_at image offset (align_size_up (zlength program) 0) = Some (align_data_up program 0)
  end.
Lemma reads_back_placed image a a' :
  (exists offset, placed_at offset a a' /\ offset < 2 ^ 32 /\ 0 <= offset) -> located image a' -> reads_back image a (described a').
Proof.
  intros (offset & Hp & Ho & Ho') Hl. assert (u32 offset = offset) as Hu by (apply u32_id; unfold is_u32; lia).
  destruct a; cbn [placed_at] in Hp; [destruct Hp as [Hm ->]| | |]; try subst a'; cbn [reads_back described located] in *;
    try rewrite Hu in *; rewrite ?align_data_length in *; eauto.
Qed.

Lemma arguments_len_nonneg args : 0 <= arguments_len args.
Proof.
  unfold arguments_len, header_len. assert (0 <= 20 + 8) as H by lia. revert H. generalize (20 + 8).
  induction args as [|a args IH]; intros n Hn; [done|]. cbn [fold_left]. apply IH. by destruct (u32_range (n + argument_length a + 8)).
Qed.

Lemma finalize_facts args total placed :
  Forall wf_argument args -> finalize args = Some (total, placed) -> total < 2 ^ 32 ->
  Forall wf_argument placed /\ arguments_len placed = arguments_len args /\ List.length placed = List.length args
  /\ align_size_up (arguments_len args) 0 <= total
  /\ forall pre, align_size_up (zlength pre) 0 = align_size_up (arguments_len args) 0 ->
       Forall2 (fun a a' => reads_back (pre ++ write_payloads (zlength pre) placed) a (described a')) args placed.
Proof.
  intros Hwf Hf Ht. unfold finalize in Hf. set (start := align_size_up (arguments_len args) 0) in *.
  pose proof (arguments_len_nonneg args). destruct (align_up_page (arguments_len args)) as (Ha1 & Ha2 & _). fold start in Ha1, Ha2.
  destruct (align_up_page start) as (_ & _ & Hs). specialize (Hs Ha1).
  destruct (payloads_located args start total placed start (zeros start)) as (_ & _ & Hle & Hk);
    [done|by rewrite zlength_zeros by lia|done|lia|done|]. split_and!.
  - clear -Hwf Hk. induction Hk as [|a a' args placed [_ Ha] _ IH]; [done|]. inversion Hwf; subst. constructor; auto.
  - by eapply (arguments_len_placed (fun a a' => wf_argument a -> wf_argument a')).
  - symmetry. by eapply Forall2_length.
  - done.
  - intros pre Hpre. destruct (payloads_located args start total placed (zlength pre) pre) as (Hl & Hp & _);
      [done|done|by rewrite Hs|lia|done|].
    revert Hl. generalize (pre ++ write_payloads (zlength pre) placed). intros image Hl. clear -Hl Hp.
    induction Hp as [|a a' args placed Ha _ IH]; [done|]. inversion Hl; subst. constructor; [by apply reads_back_placed|auto].
Qed.

Lemma write_payloads_pad pos placed :
  placed <> [] -> exists payload, write_payloads pos placed = zeros (align_size_up pos 0 - pos) ++ payload.
Proof. destruct placed as [|a placed]; [done|]. intros _. cbn [write_payloads]. change (alignment_offset a) with 0. rewrite <-app_assoc. eauto. Qed.

Lemma image_reads_back args total placed image :
  Forall wf_argument args -> args <> [] -> (List.length args <= 1024)%nat -> clear_of_page_end args ->
  finalize args = Some (total, placed) -> total < 2 ^ 32 ->
  write_image crc16 args = Some image ->
  exists entries, boot_entries image = Some entries /\ Forall2 (reads_back image) args entries.
Proof.
  intros Hwf Hne Hlen Hclear Hf Ht. unfold write_image. rewrite Hf.
  destruct (write_arguments crc16 placed) as [tags|] eqn:Ew; [|done]. set (header := tagged _ _ _). intros Hw. apply (inj Some) in Hw. subst image.
  destruct (finalize_facts args total placed Hwf Hf Ht) as (Hwf' & El & Hlen' & Hst & Hback).
  destruct (align_up_page (arguments_len args)) as (Ha1 & Ha2 & _). pose proof (arguments_len_nonneg args).
  assert (0 <= total < 2 ^ 34) as Ht' by (change (2 ^ 34) with (4 * 2 ^ 32); lia).
  destruct (kernel_arguments_written placed tags total [] 16) as [E _]; [done|lia|done|done|lia|]. fold header in E.
  unfold clear_of_page_end in Hclear. rewrite <-El, E, Z.add_simpl_r in Hclear.
  rewrite <-El, E in Hback, Ha1, Ha2. set (front := header ++ tags) in *.
  destruct (align_up_page (zlength front)) as (Hf1 & Hf2 & _).
  assert (zlength front + 16 <= align_size_up (zlength front) 0) as Hroom by (unfold PAGE_SIZE in *; Z.div_mod_to_equations; lia).
  specialize (Hback front (align_up_same (zlength front) (zlength front + 12) ltac:(lia))).
  destruct (write_payloads_pad (zlength front) placed) as [payload Ep]; [by destruct placed, args|].
  destruct (kernel_arguments_written placed tags total payload (align_size_up (zlength front) 0 - zlength front)) as [_ Ek]; [done|lia|done|done|lia|].
  fold header in Ek. fold front in Ek. rewrite app_assoc. fold front. rewrite Ep in Hback |- *.
  exists (map described placed). split; [|by apply Forall2_fmap_r].
  unfold boot_entries. rewrite Ek. cbn [mapM].
  rewrite (mapM_snoc entry_of (map argument_of placed) [mkArgument 0 0 []; mkArgument 0 0 []] (map described placed) [EntryOther; EntryOther]);
    [|by apply entries_of, (write_arguments_lengths _ tags)|done].
  change (entry_of (mkArgument tag_XArg 8 [arguments_len placed / 4; total / 4])) with (Some EntryOther). cbn.
  by rewrite described_entries.
Qed.

(** C17: The kernel reads back what the build tool was asked to write: the same programs with their
    names and ids, the same memory regions and the same permitted system calls for the same
    processes, the same description of the kernel, in order and nothing else; and at the offset
    that an argument names lie the bytes of its program, to the end of the page filled with
    zeroes.  This asks for at most 1024 arguments, an image of less than 4 GiB, and arguments that
    leave at least sixteen bytes free in their last page ([clear_of_page_end]): otherwise the
    tool keeps no room for the empty arguments it counts at the end, and the programs can lie
    elsewhere than the arguments say ([full_page_misplaced]). *)
Theorem boot_image_read args total placed image :
  Forall wf_argument args -> args <> [] -> (List.length args <= 1024)%nat -> clear_of_page_end args ->
  finalize args = Some (total, placed) -> total < 2 ^ 32 ->
  write_image crc16 args = Some image ->
  exists entries, boot_entries image = Some entries /\ Forall2 (reads_back image) args entries.
Proof. apply image_reads_back. Qed.
End Reading.

(** ** Permitted system calls *)

Definition valid_number (n : Z) : bool :=
  negb (SysCallNumber_as_usize (SysCallNumber_from n) =? SysCallNumber_as_usize NInvalid).
Lemma valid_number_spec n : valid_number n = true <-> SysCallNumber_from n <> NInvalid.
Proof. unfold valid_number. destruct (SysCallNumber_from n); by intuition. Qed.
Lemma debug_names_differ n m :
  0 <= n < 64 -> 0 <= m < 64 -> valid_number n = true -> valid_number m = true ->
  SysCallNumber_debug (SysCallNumber_from n) = SysCallNumber_debug (SysCallNumber_from m) -> n = m.
Proof.
  intros Hn Hm Vn Vm E.
  assert (forallb (fun n => forallb (fun m => implb (valid_number n && valid_number m
            && String.eqb (SysCallNumber_debug (SysCallNumber_from n)) (SysCallNumber_debug (SysCallNumber_from m))) (n =? m))
          (seqZ 0 64)) (seqZ 0 64) = true) as H by (by vm_compute).
  rewrite forallb_forall in H. specialize (H n (proj1 (list_elem_of_In _ _) (proj2 (elem_of_seqZ 0 64 n) Hn))).
  rewrite forallb_forall in H. specialize (H m (proj1 (list_elem_of_In _ _) (proj2 (elem_of_seqZ 0 64 m) Hm))).
  rewrite Vn, Vm, E, String.eqb_refl in H. by apply Z.eqb_eq in H.
Qed.
Lemma SYSCALL_MAP_spec name n :
  SYSCALL_MAP name = Some n <->
  0 <= n < 64 /\ SysCallNumber_from n <> NInvalid /\ SysCallNumber_debug (SysCallNumber_from n) = name.
Proof.
  rewrite <-valid_number_spec. unfold SYSCALL_MAP. split.
  - intros H. apply List.find_some in H as [Hin H]. apply list_elem_of_In, elem_of_seqZ in Hin.
    apply andb_true_iff in H as [? ?%String.eqb_eq]. done.
  - intros (Hr & V & E). destruct (List.find _ _) as [m|] eqn:F.
    + apply List.find_some in F as [Hin H]. apply list_elem_of_In, elem_of_seqZ in Hin.
      apply andb_true_iff in H as [? H%String.eqb_eq]. f_equal. apply debug_names_differ; [done..|]. by rewrite H, E.
    + pose proof (List.find_none _ _ F n (proj1 (list_elem_of_In _ _) (proj2 (elem_of_seqZ 0 64 n) Hr))) as H. cbn beta in H.
      fold (valid_number n) in H. by rewrite V, E, String.eqb_refl in H.
Qed.

Lemma lor_range a b n : 0 <= n -> 0 <= a < 2 ^ n -> 0 <= b < 2 ^ n -> 0 <= Z.lor a b < 2 ^ n.
Proof.
  intros Hn Ha Hb. rewrite <-(Z.mod_small a (2 ^ n)), <-(Z.mod_small b (2 ^ n)) by done.
  rewrite <-!land_ones_mod, <-Z.land_lor_distr_l, land_ones_mod by done. apply Z.mod_pos_bound. lia.
Qed.

(** The name of a system call. *)
Definition call_name (name : string) : Prop :=
  exists n, 0 <= n < 64 /\ SysCallNumber_from n <> NInvalid /\ SysCallNumber_debug (SysCallNumber_from n) = name.
Lemma mask_from_spec names n : 0 <= n < 64 -> forall m, 0 <= m < 2 ^ 64 ->
  match syscall_mask_from m names with
  | Some mask =>
      (0 <= mask < 2 ^ 64
       /\ (Z.testbit mask n = true <-> Z.testbit m n = true
            \/ SysCallNumber_from n <> NInvalid /\ SysCallNumber_debug (SysCallNumber_from n) ∈ names))
      /\ forall name, name ∈ names -> call_name name
  | None => exists name, name ∈ names /\ ~ call_name name
  end.
Proof.
  intros Hn. induction names as [|name names IH]; intros m Hm; cbn [syscall_mask_from].
  { split; [|by intros name ?%elem_of_nil]. split; [done|]. rewrite elem_of_nil. tauto. }
  destruct (SYSCALL_MAP name) as [number|] eqn:Em; cycle 1.
  { exists name. split; [apply elem_of_cons; by left|]. intros (number & H). apply SYSCALL_MAP_spec in H. congruence. }
  apply SYSCALL_MAP_spec in Em as (Hr & V & E). specialize (IH (Z.lor m (Z.shiftl 1 number))).
  destruct (syscall_mask_from _ names) as [mask|]; (destruct IH as [Hb Hall]; [apply lor_range; [lia|done|]; rewrite Z.shiftl_1_l; split; [lia|apply Z.pow_lt_mono_r; lia]|]).
  2: { exists Hb. destruct Hall as [Hin Hun]. split; [apply elem_of_cons; by right|done]. }
  destruct Hb as [Hb ->]. split.
  - split; [done|]. rewrite testbit_set by lia. rewrite orb_true_iff, Z.eqb_eq, elem_of_cons. split.
    + intros [[?| ->]|?]; [by left|right; split; [done|by left]|right; tauto].
    + intros [?|[? [<-|?]]]; [by left; left| |right; tauto]. left. right.
      apply debug_names_differ; [done|done|by apply valid_number_spec|by apply valid_number_spec|done].
  - intros x [->|Hx]%elem_of_cons; [by exists number|by apply Hall].
Qed.
(** C38: The mask of a list of system calls has the bits of the calls with these names, no others, and
    fits its 64 bits; so a call is let through by the kernel's test of the mask exactly when its
    name is in the list of the program's manifest.  There is no mask exactly if some name of the
    list is not that of a system call. *)
Theorem syscall_mask_correct names n :
  0 <= n < 64 ->
  match syscall_mask names with
  | Some mask =>
      (forall name, name ∈ names -> call_name name) /\ 0 <= mask < 2 ^ 64
      /\ (negb (Z.land mask (Z.shiftl 1 n) =? 0) = true
          <-> SysCallNumber_from n <> NInvalid /\ SysCallNumber_debug (SysCallNumber_from n) ∈ names)
  | None => exists name, name ∈ names /\ ~ call_name name
  end.
Proof.
  intros Hn. pose proof (mask_from_spec names n Hn 0 ltac:(lia)) as H. unfold syscall_mask.
  destruct (syscall_mask_from 0 names) as [mask|]; [|done]. destruct H as [[Hb H] Hall]. split; [done|]. split; [done|].
  rewrite testbit_mask, negb_involutive by lia. rewrite H, Z.bits_0. split; [by intros [?|?]|by right].
Qed.

Definition demo_app : AppId := mkAppId (replicate 16 7).
Definition demo_args : list XousArgument :=
  [BinaryElf 2 demo_app [0x6c; 0x6f; 0x67] 0 [0x7f; 0x45; 0x4c; 0x46]; MemoryPermission 2 [(0xf8000000, 0xf8004000)];
   SyscallPermission 2 0x30004; XousKernel_new 0xffd00000 8 0xffd01000 0 0 0xffd00000 [1; 2; 3; 4; 5; 6; 7]].
Definition demo_placed : list XousArgument := match finalize demo_args with Some (_, placed) => placed | None => [] end.

Ltac wf_arguments :=
  cbn [replicate];
  repeat match goal with
  | |- Forall _ [] => constructor
  | |- Forall _ (_ :: _) => constructor
  | |- wf_argument _ => cbn [wf_argument]; unfold wf_AppId; cbn [app_bytes fst snd]
  | |- _ /\ _ => split
  | |- _ = _ => reflexivity
  | |- zlength _ <= _ => vm_compute; discriminate
  | |- _ => unfold is_u8, is_u32, zlength; cbn [List.length fst snd]; lia
  end.
Lemma boot_image_read_witness :
  exists image entries, write_image (fun _ => 0) demo_args = Some image
    /\ boot_entries image = Some entries /\ Forall2 (reads_back image) demo_args entries.
Proof.
  destruct (write_image (fun _ => 0) demo_args) as [image|] eqn:E; [|by vm_compute in E].
  assert (finalize demo_args = Some (12288, demo_placed)) as Hf by (by vm_compute).
  assert (Forall wf_argument demo_args) as Hwf by (unfold demo_args, XousKernel_new, demo_app; wf_arguments).
  destruct (boot_image_read (fun _ => 0) demo_args 12288 demo_placed image) as (entries & H & H');
    [exact Hwf|discriminate|cbn; lia|vm_compute; split; [reflexivity|discriminate]|exact Hf|reflexivity|exact E|].
  exists image, entries. exact (conj eq_refl (conj H H')).
Defined.

Definition demo_calls : list string := ["MapMemory"; "SendMessage"; "Connect"]%string.
Lemma syscall_mask_correct_witness :
  syscall_mask demo_calls = Some 0x30004
  /\ negb (Z.land 0x30004 (Z.shiftl 1 16) =? 0) = true
  /\ SysCallNumber_debug (SysCallNumber_from 16) ∈ demo_calls
  /\ (exists name, name ∈ demo_calls ++ ["Reboot"]%string /\ ~ call_name name).
Proof.
  assert (syscall_mask demo_calls = Some 0x30004) as E by (by vm_compute).
  assert (syscall_mask (demo_calls ++ ["Reboot"]%string) = None) as F by (by vm_compute).
  pose proof (syscall_mask_correct demo_calls 16 ltac:(lia)) as H. rewrite E in H. destruct H as (_ & _ & H).
  pose proof (syscall_mask_correct (demo_calls ++ ["Reboot"]%string) 16 ltac:(lia)) as G. rewrite F in G.
  split; [exact E|]. split; [by vm_compute|]. split; [|exact G]. apply H. by vm_compute.
Defined.

(** Without the room: the arguments end eight bytes before the end of a page, the tool counts
    twelve more and gives the kernel the offset of the second page after them, where it is not:
    it was written to the first. *)
Definition demo_full_page : list XousArgument :=
  [MemoryPermission 2 (replicate 503 (0xf8000000, 0xf8004000)); XousKernel_new 0xffd00000 8 0xffd01000 0 0 0xffd00000 [1; 2; 3; 4]].
Lemma full_page_misplaced :
  exists image placed total, write_image (fun _ => 0) demo_full_page = Some image /\ finalize demo_full_page = Some (total, placed)
    /\ (arguments_len demo_full_page - 12) mod PAGE_SIZE = PAGE_SIZE - 8
    /\ map (fun a => match a with XousKernel offset _ _ _ _ _ _ _ => offset | _ => 0 end) placed = [0; 2 * PAGE_SIZE]
    /\ bytes_at image PAGE_SIZE 4 = Some [1; 2; 3; 4] /\ bytes_at image (2 * PAGE_SIZE) 4 = None.
Proof.
  destruct (write_image (fun _ => 0) demo_full_page) as [image|] eqn:E; [|by vm_compute in E].
  destruct (finalize demo_full_page) as [[total placed]|] eqn:F; [|by vm_compute in F].
  vm_compute in E, F. injection E as <-. injection F as <- <-.
  do 3 eexists. split; [done|]. split; [done|]. split; [by vm_compute|]. split; [by vm_compute|]. by split; vm_compute.
Qed.
