(* ===== verification/Syscalls.v ===== *)
(** * System calls ([xous/kernel/src/syscall.rs])

    The message paths - the permission check of a send, the send with its transfer of memory,
    the answers, the reception - and [handle], which dispatches every call after
    [check_syscall_permission].

    Besides the arguments of [Services], [user_memory pid addr] is the byte at an address of a
    process, [random] the next server id of the random number generator, [debug_output] the
    length of the text a debug command prints, [utf8] is [core::str::from_utf8(..).is_ok()],
    and [create_process] is the creation of a process: [Loading.create_process], which the
    theorems on whole traps put in its place. *)
From stdpp Require Import fin_maps gmap.
From S2P Require Import Prelude Xous SysCall Permissions Server Scheduler Threads Connections.
From S2P Require Import PermissionRequests Irq Process MemManager PageTable Mapping Memory.
From S2P Require Import Kernel Services.

Inductive ExecutionType : Type := Blocking | NonBlocking.

Definition word_at (bytes : Z -> Z) (addr : Z) : Z :=
  u32_from_le_bytes (bytes addr) (bytes (addr + 1)) (bytes (addr + 2)) (bytes (addr + 3)).

(** [ConnectionSlot::Connected { sidx, permissions, .. }] of a connection of the current process. *)
Definition connected (cid : Z) : KS (Z * MessagePermissions) :=
  let* p := current_process in
  let* slot := st_lift (connection (connection_map p) cid) in
  match slot with
  | SlotConnected sidx _ _ permissions => st_ret (sidx, permissions)
  | _ => st_fail ServerNotFound
  end.

Definition message_address (m : Message) : option Z :=
  match memory_message m with Some msg => nonzero_new (range_addr (mm_buf msg)) | None => None end.

Definition with_message_buf (m : MemoryMessage) (new_virt : Z) : KS MemoryMessage :=
  let* buf := st_lift (MemoryRange_new new_virt (range_size (mm_buf m))) in
  st_ret (mkMemoryMessage (mm_id m) buf (mm_offset m) (mm_valid m)).

Section Board.
Context (regions : list (Z * Z)) (shared_peripherals : list Z) (usage : Z).

Abbreviation activate_current := (activate_current usage).
Abbreviation retry_syscall := (retry_syscall usage).
Abbreviation send_memory := (send_memory regions shared_peripherals).
Abbreviation lend_memory := (lend_memory regions shared_peripherals).
Abbreviation lift_mem := Services.lift_mem.

(** The pages of the message move to the server, or are lent to it. *)
Definition transfer_message (server_pid : Z) (message : Message) : KS Message :=
  let lend m mutable := lend_memory (range_addr (mm_buf m)) server_pid 0 (range_size (mm_buf m)) mutable in
  match message with
  | Scalar _ | BlockingScalar _ => st_ret message
  | Move m =>
      let* new_virt := send_memory (range_addr (mm_buf m)) server_pid 0 (range_size (mm_buf m)) in
      let* m := with_message_buf m new_virt in st_ret (Move m)
  | BlockingMove m =>
      let* new_virt := lend m true in let* m := with_message_buf m new_virt in st_ret (BlockingMove m)
  | MutableBorrow m =>
      let* new_virt := lend m true in let* m := with_message_buf m new_virt in st_ret (MutableBorrow m)
  | Borrow m =>
      let* new_virt := lend m false in let* m := with_message_buf m new_virt in st_ret (Borrow m)
  end.

Definition send_message_inner (sender_tid sidx : Z) (message : Message) : KS unit :=
  let* server := server_expect sidx in
  if is_queue_full server then st_fail ServerQueueFull else
  let client_address := message_address message in
  let* message := transfer_message (server_pid server) message in
  deliver_message sidx sender_tid message client_address.

Definition send_message (sender_tid cid : Z) (message : Message) : KS Result :=
  let* (sidx, _) := connected cid in
  let* _ := send_message_inner sender_tid sidx message in
  let* pid := current_pid in
  let* _ := if is_blocking message then set_thread_state pid sender_tid (TWaitBlocking sidx)
            else set_thread_result pid sender_tid ROk in
  activate_current.

(** [true] when the sender was parked for the permission broker. *)
Definition check_message_permission (sender_tid cid : Z) (message : Message) (may_wait : bool) : KS bool :=
  let* (sidx, permissions) := connected cid in
  let* server := server_from_sidx sidx in
  let* server := st_lift (ok_or server ServerNotFound) in
  let* pid := current_pid in
  if (server_pid server =? pid) || is_permitted permissions (message_id message) then st_ret false else
  if negb may_wait then st_fail AccessDenied else
  let* p := current_process in
  let* k := st_get in
  let '(entries, id) := insert_request (k_requests k) pid (process_app_id p) sender_tid cid sidx
                          (server_sid server) (message_id message) in
  let* request_id := st_lift (ok_or id KernelTableFull) in
  let* _ := st_modify (set_requests entries) in
  let withdraw := st_modify (fun k => set_requests (take_request (k_requests k) request_id).1 k) in
  let* delivered := st_try (broadcast_event PermissionRequested (mkArgs request_id 0 0 0)) in
  match delivered with
  | Err error => let* _ := withdraw in st_fail error
  | Ok delivered =>
      if delivered =? 0 then let* _ := withdraw in st_fail AccessDenied else
      let* _ := set_thread_state pid sender_tid (TRetryPermission request_id) in
      st_ret true
  end.

(** The start of [return_memory] and [return_result]: the answer a message awaits is taken, and
    a queue that was full has room again. *)
Definition take_answer (sender : MessageSender) (buf : option MemoryRange) : KS WaitingMessage :=
  let sender := SenderID_from_usize sender in
  let sidx := sid_sidx sender in
  let* server := server_from_sidx sidx in
  let* server := st_lift (ok_or server ServerNotFound) in
  let* pid := current_pid in
  if negb (server_pid server =? pid) then st_fail ServerNotFound else
  let* r := lift_server sidx (fun s => Some (take_waiting_message s (Z.to_nat (sid_idx sender)) buf)) in
  let* result := st_lift r in
  let* now := server_expect sidx in
  let* _ := if is_queue_full server && negb (is_queue_full now)
            then wake_threads_with_state (TRetryQueueFull sidx) USIZE_MAX else st_ret tt in
  st_ret result.

Definition answer_and_resume (pid tid : Z) (value : Result) : KS unit :=
  let* _ := set_thread_state pid tid TReady in
  set_thread_result pid tid value.

Definition return_memory_call (server_tid : Z) (sender : MessageSender) (buf : MemoryRange)
    (offset valid : option Z) : KS Result :=
  let* result := take_answer sender (Some buf) in
  let* _ :=
    match result with
    | WBorrowedMemory pid tid client_addr =>
        let* _ := return_memory regions shared_peripherals (range_addr buf) pid client_addr (range_size buf) in
        let* return_range := st_lift (MemoryRange_new client_addr (range_size buf)) in
        answer_and_resume pid tid (RMemoryReturned return_range offset valid)
    | WMovedMemory pid tid client_addr buf_size =>
        let* new_virt := send_memory (range_addr buf) pid 0 (range_size buf) in
        let* new_range := st_lift (MemoryRange_new new_virt (range_size buf)) in
        let* _ := clear_shared_range pid client_addr buf_size ClearFree in
        answer_and_resume pid tid (RMemoryReturned new_range offset valid)
    | WForgetMemory range =>
        let* _ := check_range_accessible range in
        unmap_range regions shared_peripherals (range_addr range) (range_size range)
    | WScalarMessage _ _ | WScalarMessageTerminated | WNone => st_fail DoubleFree
    end in
  let* pid := current_pid in
  let* _ := set_thread_result pid server_tid ROk in
  activate_current.

Definition return_result (server_tid : Z) (sender : MessageSender) (return_value : Result) : KS Result :=
  let* result := take_answer sender None in
  let* _ :=
    match result with
    | WScalarMessage pid tid => answer_and_resume pid tid return_value
    | WScalarMessageTerminated => st_ret tt
    | WForgetMemory _ | WBorrowedMemory _ _ _ | WMovedMemory _ _ _ _ | WNone => st_fail DoubleFree
    end in
  let* pid := current_pid in
  let* _ := set_thread_result pid server_tid ROk in
  activate_current.

Definition receive_message (tid : Z) (sid : SID) (blocking : ExecutionType) : KS Result :=
  let* pid := current_pid in
  let* sidx := sidx_from_sid sid pid in
  let* sidx := st_lift (ok_or sidx ServerNotFound) in
  let* server := server_from_sidx sidx in
  let* server := st_lift (ok_or server ServerNotFound) in
  if negb (server_pid server =? pid) then st_fail ServerNotFound else
  let* msg := lift_server sidx (fun s => take_next_message s sidx) in
  match msg with
  | Some msg =>
      let* now := server_expect sidx in
      let* _ := if is_queue_full server && negb (is_queue_full now)
                then wake_threads_with_state (TRetryQueueFull sidx) USIZE_MAX else st_ret tt in
      st_ret (RMessageEnvelope msg)
  | None =>
      match blocking with
      | NonBlocking => st_ret RNone
      | Blocking =>
          let* _ := lift_server sidx (fun s => let! s := Server.park_thread s tid in Some (s, tt)) in
          let* _ := set_thread_state pid tid (TWaitReceive sidx) in
          activate_current
      end
  end.

(** ** Permission to call *)

Definition is_permitted_by_mask (call : SysCall) : KS unit :=
  let* p := current_process in
  let '(W8 number _ _ _ _ _ _ _) := as_args call in
  if negb (Z.land (syscall_permissions p) (Z.shiftl 1 number) =? 0) then st_ret tt else st_fail AccessDenied.

Definition check_syscall_permission (call : SysCall) : KS unit :=
  match call with
  | Yield | CreateThread _ | TerminateProcess _ | GetThreadId | GetProcessId | JoinThread _
  | ServerEventHandler _ _ _ | AppendPanicMessage _ _ _ _ _ _ _ | GetAppId _ | AppIdToPid _
  | CreateServer | CreateServerId | DestroyServer _ | Connect _ | TryConnect _ | ConnectForProcess _ _
  | Disconnect _ | SendMessage _ _ | TrySendMessage _ _ | ReceiveMessage _ | TryReceiveMessage _
  | GetRemoteProcessId _ | GetServerOwner _ | ReturnMemory _ _ _ _ | ReturnScalar1 _ _
  | ReturnScalar2 _ _ _ | ReturnScalar5 _ _ _ _ _ _
  | MapMemory _ _ _ _ | UnmapMemory _ | UpdateMemoryFlags _ _ _
  | FlushCache _ _ | FutexWait _ _ | FutexWake _ _ => st_ret tt
  | AllowMessagesSID sid _ =>
      let* pid := current_pid in
      let* sidx := sidx_from_sid sid pid in
      if bool_decide (is_Some sidx) then st_ret tt else is_permitted_by_mask call
  | AllowMessagesCID pid cid _ =>
      let* p := process pid in
      let* slot := st_lift (connection (connection_map p) cid) in
      match slot with
      | SlotConnected sidx _ _ _ =>
          let* server := server_from_sidx sidx in
          let* server := st_lift (ok_or server ServerNotFound) in
          let* current := current_pid in
          if server_pid server =? current then st_ret tt else is_permitted_by_mask call
      | _ => st_fail ServerNotFound
      end
  | SetThreadPriority p =>
      if ThreadPriority_as_usize p <? ThreadPriority_as_usize System0 then st_ret tt
      else is_permitted_by_mask call
  | SystemEventHandler event _ _ =>
      match event with
      | ChildTerminated | Disconnected => st_ret tt
      | _ => is_permitted_by_mask call
      end
  | ClaimInterrupt _ _ _ | FreeInterrupt _ | CreateProcess _ | CreateServerWithAddress _ _ | Shutdown _
  | PowerManagement _ | TerminatePid _ _ | MirrorMemoryToPid _ _ | GetSystemStats _ | GetPanicMessage _
  | ResolveMessagePermission _ _ | GetPermissionRequestData _ _
  | VirtToPhys _ | VirtToPhysPid _ _ | DebugCommand _ _ => is_permitted_by_mask call
  | Invalid _ _ _ _ _ _ _ => st_fail UnhandledSyscall
  end.

(** ** The calls *)

Context (user_memory : Z -> Z -> Z) (random : SID) (debug_output : Z -> Z -> Z) (utf8 : list Z -> bool)
        (create_process : ProcessInit -> KS ProcessStartup).

Definition map_memory (tid : Z) (phys virt : option Z) (size flags : Z) : KS Result :=
  let* pid := current_pid in
  let exceeds := match virt with
                 | Some virt => match checked_add virt size with None => true | Some e => USER_AREA_END <? e end
                 | None => false
                 end in
  if negb (pid =? 1) && exceeds then st_fail BadAddress else
  if negb (page_aligned size) then st_fail BadAlignment else
  if MemoryFlags_is_set flags (MemoryFlags_bitor MF_W MF_X) then st_fail InvalidArguments else
  if MemoryFlags_is_set flags MF_POPULATE && (nonzero_or0 phys =? 0) && negb (tid =? IRQ_TID)
  then map_with_deferred_zeroing regions shared_peripherals usage tid (nonzero_or0 virt) size flags
  else
  let* range := map_range regions shared_peripherals (nonzero_or0 phys) (nonzero_or0 virt) size flags true in
  st_ret (RMemoryRange range).

Definition unmap_memory (range : MemoryRange) : KS Result :=
  let* _ := check_range_accessible range in
  let* _ := unmap_range regions shared_peripherals (range_addr range) (range_size range) in
  let* p := current_process in
  let* _ := put_process (release_allocation_hint p (range_addr range)) in
  st_ret ROk.

(** [IrqNumber::try_from]: 24 interrupts have a number. *)
Definition irq_number (no : Z) : option nat := if no <? 24 then Some (Z.to_nat no) else None.
Definition lift_irq (no : Z) (f : IrqState -> nat -> option (IrqState * result Error unit)) : KS Result :=
  match irq_number no with
  | None => st_fail InvalidArguments
  | Some no =>
      let* k := st_get in
      let* (irqs, r) := st_unwrap (f (k_irqs k) no) in
      let* _ := st_modify (set_irqs irqs) in
      let* _ := st_lift r in st_ret ROk
  end.

Definition futex_wait (tid addr val : Z) : KS Result :=
  if negb (Z.land addr 3 =? 0) then st_fail BadAlignment else
  let* range := st_lift (MemoryRange_new addr 4) in
  let* _ := check_range_accessible range in
  let* pid := current_pid in
  if negb (val =? word_at (user_memory pid) addr) then st_fail Again else
  let* _ := set_thread_result pid tid ROk in
  let* _ := set_thread_state pid tid (TWaitFutex addr) in
  activate_current.

Definition resolve_message_permission (request_id : Z) (allow : bool) : KS Result :=
  let* k := st_get in
  let '(entries, request) := take_request (k_requests k) request_id in
  let* _ := st_modify (set_requests entries) in
  match request with
  | None => st_fail ServerNotFound
  | Some request =>
      if negb (valid request) then st_ret ROk else
      let pid := sender_pid request in
      let* granted :=
        if allow then
          let* k := st_get in
          match k_processes k !! pid with
          | None => st_ret false
          | Some p =>
              let id := request_message_id request in
              let '(m, r) := allow_messages (connection_map p) (request_cid request) (mkMsgRange id (usize (id + 1))) in
              let* _ := put_process (set_connections p m) in st_ret (is_Ok r)
          end
        else st_ret false in
      let* p := expect_ok (process pid) in
      let* state := st_unwrap (Process.thread_state p (Z.to_nat (sender_tid request))) in
      let* _ := st_assert (bool_decide (state = TRetryPermission request_id)) in
      let* _ := if granted then retry_syscall_pid pid (sender_tid request)
                else set_thread_result pid (sender_tid request) (RError AccessDenied) in
      let* _ := process pid in
      let* _ := set_thread_state pid (sender_tid request) TReady in
      st_ret ROk
  end.

Definition get_permission_request_data (request_id : Z) (field : PermissionRequestField) : KS Result :=
  let* k := st_get in
  let* request := st_lift (ok_or (get_request (k_requests k) request_id) ServerNotFound) in
  if negb (valid request) then st_fail ServerNotFound else
  match field with
  | Target =>
      let sid := request_server_sid request in
      st_ret (RScalar5 (sid0 sid) (sid1 sid) (sid2 sid) (sid3 sid) (request_message_id request))
  | FieldAppId =>
      let '(w0, w1, w2, w3) := AppId_to_words (sender_app_id request) in st_ret (RScalar5 w0 w1 w2 w3 0)
  end.

Definition connect_or_retry (tid : Z) (sid : SID) : KS Result :=
  let* pid := current_pid in
  let* r := st_try (connect_to_server pid sid) in
  match r with
  | Ok cid => st_ret (RConnectionID cid)
  | Err ServerNotFound => retry_syscall tid (TRetryConnect (SID_quick_hash sid))
  | Err e => st_fail e
  end.

Definition send_message_call (tid cid : Z) (message : Message) : KS Result :=
  let* parked := check_message_permission tid cid message true in
  if parked : bool then activate_current else
  let* r := st_try (send_message tid cid message) in
  match r with
  | Ok o => st_ret o
  | Err ServerQueueFull =>
      let* (sidx, _) := connected cid in retry_syscall tid (TRetryQueueFull sidx)
  | Err e => st_fail e
  end.

(** The loop of [MirrorMemoryToPid]: the pages of the range are contiguous. *)
Fixpoint check_contiguous (pid expected : Z) (pages : list Z) : KS unit :=
  match pages with
  | [] => st_ret tt
  | page :: pages =>
      let* phys := lift_mem (fun _ => virt_to_phys pid page) in
      if negb (phys =? expected) then st_fail AccessDenied
      else check_contiguous pid (usize (expected + PAGE_SIZE)) pages
  end.
Definition mirror_memory_to_pid (mem : MemoryRange) (pid : Z) : KS Result :=
  let* source := current_pid in
  let* mem_phys := lift_mem (fun _ => virt_to_phys source (range_addr mem)) in
  let* _ := check_contiguous source mem_phys
              (pages_of (range_addr mem) (usize (range_addr mem + range_size mem) - range_addr mem)) in
  let* p := process pid in
  let* (next, range) := lift_mem (fun _ =>
    map_range_readonly_mirror pid (next_mirror_address p) mem_phys (range_size mem)) in
  let* p := process pid in
  let* _ := put_process (set_next_mirror_address p next) in
  let* range := st_lift range in st_ret (RMemoryRange range).

(** The first [len] bytes of the six words of [AppendPanicMessage]. *)
Definition panic_bytes (len : Z) (words : list Z) : list Z :=
  take (Z.to_nat (Z.min len 24)) (flat_map u32_to_le_bytes words).

Definition get_panic_message (buf : MemoryRange) : KS Result :=
  let* _ := check_range_accessible buf in
  let* k := st_get in
  st_ret (RScalar2 (nonzero_or0 (k_panic_pid k))
            (Z.min (Z.of_nat (length (k_panic_message k))) (range_size buf))).

(** The calls that only touch servers, connections and processes. *)
Definition handle_services (tid : Z) (call : SysCall) : KS Result :=
  let* pid := current_pid in
  match call with
  | CreateServerWithAddress name initial_range =>
      let* sid := create_server_with_address regions shared_peripherals name initial_range in
      st_ret (RNewServerID sid)
  | CreateServer =>
      let* sid := create_server_with_address regions shared_peripherals random (mkMsgRange 0 0) in
      st_ret (RNewServerID sid)
  | CreateServerId => st_ret (RServerID random)
  | TryConnect sid => let* cid := connect_to_server pid sid in st_ret (RConnectionID cid)
  | Connect sid => connect_or_retry tid sid
  | ConnectForProcess pid sid => let* cid := connect_to_server pid sid in st_ret (RConnectionID cid)
  | Disconnect cid => let* _ := disconnect_from_server cid in st_ret ROk
  | DestroyServer sid => let* _ := destroy_server regions shared_peripherals pid sid in st_ret ROk
  | GetRemoteProcessId cid =>
      let* (sidx, _) := connected cid in
      let* server := server_from_sidx sidx in
      let* server := st_lift (ok_or server ServerNotFound) in st_ret (RProcessID (server_pid server))
  | GetServerOwner sid =>
      let* owner := server_owner sid in
      let* owner := st_lift (ok_or owner ServerNotFound) in st_ret (RProcessID owner)
  | AllowMessagesSID sid messages =>
      let* sidx := sidx_from_sid sid pid in
      let* sidx := st_lift (ok_or sidx ServerNotFound) in
      let* r := lift_server sidx (fun s =>
        let '(permissions, r) := permissions_add (default_permissions s) messages in
        Some (set_default_permissions s permissions, r)) in
      st_lift r
  | AllowMessagesCID pid cid messages =>
      let* p := process pid in
      let '(m, r) := allow_messages (connection_map p) cid messages in
      let* _ := put_process (set_connections p m) in st_lift r
  | ServerEventHandler event sid id =>
      let* sidx := sidx_from_sid sid pid in
      let* sidx := st_lift (ok_or sidx ServerNotFound) in
      let* r := lift_server sidx (fun s => set_event_handler s event id) in
      let* _ := st_lift r in st_ret ROk
  | SystemEventHandler event sid id =>
      let* p := current_process in
      let* (p, r) := st_unwrap (set_system_event_handler p event sid id) in
      let* _ := put_process p in
      let* _ := st_lift r in st_ret ROk
  | ResolveMessagePermission request_id allow => resolve_message_permission request_id allow
  | GetPermissionRequestData request_id field => get_permission_request_data request_id field
  | _ => st_fail UnhandledSyscall
  end.

(** The calls on messages. *)
Definition handle_messages (tid : Z) (call : SysCall) : KS Result :=
  match call with
  | SendMessage cid message => send_message_call tid cid message
  | TrySendMessage cid message =>
      let* _ := check_message_permission tid cid message false in send_message tid cid message
  | ReceiveMessage sid => receive_message tid sid Blocking
  | TryReceiveMessage sid => receive_message tid sid NonBlocking
  | ReturnMemory sender buf offset valid => return_memory_call tid sender buf offset valid
  | ReturnScalar1 sender arg => return_result tid sender (RScalar1 arg)
  | ReturnScalar2 sender arg1 arg2 => return_result tid sender (RScalar2 arg1 arg2)
  | ReturnScalar5 sender arg1 arg2 arg3 arg4 arg5 =>
      return_result tid sender (RScalar5 arg1 arg2 arg3 arg4 arg5)
  | _ => handle_services tid call
  end.

(** The calls on memory and interrupts. *)
Definition handle_memory (tid : Z) (call : SysCall) : KS Result :=
  let* pid := current_pid in
  match call with
  | MapMemory phys virt size flags => map_memory tid phys virt size flags
  | UnmapMemory range => unmap_memory range
  | UpdateMemoryFlags _ _ (Some _) => st_fail ProcessNotChild
  | UpdateMemoryFlags _ _ None => st_fail UnhandledSyscall
  | ClaimInterrupt no callback arg => lift_irq no (fun s no => interrupt_claim_user s no pid callback arg)
  | FreeInterrupt no => lift_irq no (fun s no => interrupt_free s no pid)
  | VirtToPhys vaddr =>
      let* pa := lift_mem (fun _ => virt_to_phys pid (Z.land vaddr (usize_not (PAGE_SIZE - 1)))) in
      st_ret (RScalar1 (Z.lor pa (Z.land vaddr (PAGE_SIZE - 1))))
  | VirtToPhysPid pid vaddr =>
      let* _ := process pid in
      let* pa := lift_mem (fun _ => virt_to_phys pid (Z.land vaddr (usize_not (PAGE_SIZE - 1)))) in
      st_ret (RScalar1 (Z.lor pa (Z.land vaddr (PAGE_SIZE - 1))))
  | FlushCache mem op =>
      let* _ := check_range_accessible mem in
      let* _ := lift_mem (fun _ => flush_cache pid mem op) in st_ret ROk
  | PowerManagement _ => st_ret ROk
  | MirrorMemoryToPid mem pid => mirror_memory_to_pid mem pid
  | DebugCommand buffer cmd =>
      let* _ := check_range_accessible buffer in
      let start := Z.land (range_addr buffer) (usize_not (PAGE_SIZE - 1)) in
      let stop := default 0 (checked_next_multiple_of_page (usize (range_addr buffer + range_size buffer))) in
      let* _ := lift_mem (fun _ => back_pages pid (pages_of start (stop - start))) in
      st_ret (RScalar1 (debug_output cmd (range_size buffer)))
  | GetSystemStats stat =>
      let* k := st_get in
      match stat with
      | FreeMemory => st_ret (RScalar1 (ram_free (ms_mm (k_mem k))))
      | IsSystemLowOnMemory => st_ret (RScalar1 (if low_memory (ms_mm (k_mem k)) then 1 else 0))
      end
  | _ => handle_messages tid call
  end.

(** The calls on threads and processes, and then all others. *)
Definition handle_call (tid : Z) (call : SysCall) : KS Result :=
  let* pid := current_pid in
  match call with
  | FutexWait addr val => futex_wait tid addr val
  | FutexWake addr n => let* _ := wake_process_threads (TWaitFutex addr) n pid in st_ret ROk
  | Yield =>
      let* _ := set_thread_result pid tid ROk in
      let* prio := thread_priority pid tid in
      let* k := st_get in
      let* sch := st_unwrap (yield_thread (k_scheduler k) pid tid prio) in
      let* _ := st_modify (set_scheduler sch) in
      activate_current
  | SetThreadPriority priority =>
      if decide (priority = Idle) then st_fail InvalidArguments else
      let* _ := set_thread_priority pid tid priority in
      let* _ := set_thread_result pid tid ROk in
      activate_current
  | CreateThread thread_init => let* tid := create_thread tid thread_init in st_ret (RThreadID tid)
  | CreateProcess process_init =>
      let* startup := create_process process_init in st_ret (RNewProcess startup)
  | TerminateProcess ret => terminate_current_process regions shared_peripherals usage ret
  | TerminatePid other exit_code =>
      let* _ := current_process in
      if other =? pid then st_fail InvalidArguments
      else terminate_process regions shared_peripherals usage tid other exit_code
  | Shutdown _ => st_panic (* the machine stops *)
  | GetProcessId => st_ret (RProcessID pid)
  | GetThreadId => st_ret (RThreadID tid)
  | JoinThread other_tid => join_thread usage tid other_tid
  | GetAppId pid =>
      let* k := st_get in
      match k_processes k !! pid with
      | Some p => let '(w0, w1, w2, w3) := AppId_to_words (process_app_id p) in st_ret (RScalar5 w0 w1 w2 w3 1)
      | None => st_ret (RScalar5 0 0 0 0 0)
      end
  | AppIdToPid app_id =>
      let* found := pid_from_app_id app_id in
      st_ret (match found with Some pid => RProcessID pid | None => RNone end)
  | AppendPanicMessage len a1 a2 a3 a4 a5 a6 =>
      let* _ := append_panic_message utf8 (panic_bytes len [a1; a2; a3; a4; a5; a6]) in st_ret ROk
  | GetPanicMessage buf => get_panic_message buf
  | _ => handle_memory tid call
  end.

Definition handle (tid : Z) (call : SysCall) : KS Result :=
  if (tid =? IRQ_TID) && negb (can_call_from_interrupt call) then st_fail InvalidSyscall else
  let* _ := check_syscall_permission call in
  handle_call tid call.
End Board.
