(* ===== verification/Traps.v ===== *)
(** * The traps ([xous/kernel/src/arch/arm/irq.rs])

    The ways into the kernel while a thread runs: the system call instruction, an abort, an
    undefined instruction and an interrupt - with [handle] of [xous/kernel/src/irq.rs] and the
    handlers of the kernel itself, the preemption timer ([platform/atsama5d2/tc0.rs]) and the
    page zeroer ([page_zeroer.rs]).  The thread that runs afterwards is the one of [k_current]
    and [k_tid]; what its registers hold besides the arguments and the program counter is not
    part of the state, nor are the texts on the serial line.

    What the trap finds in the registers of the processor is in a [trap]: the fault addresses
    and the cause of an abort, the interrupt that is pending, the channels of the page zeroer
    that are done and the text of a crash.  [period] is the period of the preemption timer. *)
From stdpp Require Import fin_maps gmap.
From S2P Require Import Prelude Xous SysCall Permissions Server Scheduler Threads Connections.
From S2P Require Import PermissionRequests Irq Process MemManager PageTable Mapping Memory.
From S2P Require Import Kernel Services Syscalls.

Definition irq_tc0 : Z := 14.
Definition irq_xdmac1 : Z := 18.

Inductive trap : Type :=
| TrapSwi
| TrapAbort (ifar dfsr_fault_cause dfar : Z) (msg : list Z)
| TrapUndef (msg : list Z)
| TrapIrq (pending : option Z) (background map_memory : bool).

Definition current_thread : KS Thread :=
  let* k := st_get in
  st_unwrap (default contexts_new (k_contexts k !! k_current k) !! Z.to_nat (k_tid k)).
Definition update_current_thread (f : Thread -> Thread) : KS unit :=
  let* k := st_get in with_contexts (k_current k) (fun cs => update_thread cs (k_tid k) f).
(** The traps of the kernel itself are a panic. *)
Definition assert_user_mode : KS unit :=
  let* t := current_thread in
  st_assert (match processor_mode t with ModeUser | ModeSystem => true | _ => false end).

Section Board.
Context (regions : list (Z * Z)) (shared_peripherals : list Z) (usage period : Z)
        (user_memory : Z -> Z -> Z) (random : SID) (debug_output : Z -> Z -> Z) (utf8 : list Z -> bool)
        (create_process : ProcessInit -> KS ProcessStartup).

Definition swi_handler : KS unit :=
  let* k := st_get in
  let tid := k_tid k in
  let* _ := assert_user_mode in
  let* t := current_thread in
  match decode (th_args t) with
  | Err _ => update_current_thread (fun t => set_args t (Result_to_args (RError UnhandledSyscall)))
  | Ok call =>
      let* r := st_try (handle regions shared_peripherals usage user_memory random debug_output utf8 create_process tid call) in
      match match r with Ok response => response | Err e => RError e end with
      | RResumeProcess => st_ret tt
      | response =>
          let* k := st_get in
          with_contexts (k_current k) (fun cs => set_context_result cs (k_tid k) response)
      end
  end.

Definition crash_current_process (msg : list Z) : KS unit :=
  let* _ := st_try (append_panic_message utf8 msg) in
  let* _ := expect_ok (terminate_current_process regions shared_peripherals usage 255) in
  st_ret tt.

Definition ensure_backed_current (address : Z) : KS unit :=
  let* pid := current_pid in lift_mem (fun _ => Mapping.ensure_backed pid address).

Definition abort_handler (ifar dfsr_fault_cause dfar : Z) (msg : list Z) : KS unit :=
  let* _ := assert_user_mode in
  if ifar =? EXIT_THREAD then
    let* k := st_get in
    let* _ := expect_ok (thread_exited regions shared_peripherals usage (k_tid k)) in st_ret tt
  else if dfsr_fault_cause =? 7 then
    let* ensure := st_try (ensure_backed_current (Z.land dfar (usize_not (PAGE_SIZE - 1)))) in
    match ensure with
    | Ok _ => update_current_thread (fun t => set_pc_raw t (Z.max 0 (th_pc t - 8)))
    | Err _ => crash_current_process msg
    end
  else crash_current_process msg.

Definition undef_handler (msg : list Z) : KS unit := crash_current_process msg.

(** ** Interrupts *)

Definition tc0_interrupt_handler : KS unit :=
  let* k := st_get in
  let pid := k_current k in
  let tid := k_tid k in
  let* _ := current_process in
  let* prio := thread_priority pid tid in
  let* _ := st_modify (fun k => set_scheduler (record_cpu_usage (k_scheduler k) period) k) in
  let* k := st_get in
  let* sch := st_unwrap (yield_thread (k_scheduler k) pid tid prio) in
  let* _ := st_modify (set_scheduler sch) in
  let* _ := st_try (activate_current usage) in st_ret tt.

Definition xdmac_interrupt (background map_memory : bool) : KS unit :=
  let* _ := if background then lift_mem (fun _ => lift_mm (zeroer_done regions)) else st_ret tt in
  if map_memory then map_zero_finished regions shared_peripherals usage else st_ret tt.

(** The kernel claims two interrupts, in [tc0::init] and [page_zeroer::init]. *)
Definition kernel_handler (irq : Z) (background map_memory : bool) : KS unit :=
  if irq =? irq_tc0 then tc0_interrupt_handler
  else if irq =? irq_xdmac1 then xdmac_interrupt background map_memory
  else st_panic.

Definition irq_handle (irq : Z) (background map_memory : bool) : KS unit :=
  let* k := st_get in
  let* h := st_unwrap (handlers (k_irqs k) !! Z.to_nat irq) in
  match h with
  | HandlerUser pid pc arg =>
      let* _ := process_unwrap pid in
      let* _ := set_thread_state pid IRQ_TID TReady in
      let* _ := st_modify (set_current pid IRQ_TID) in
      with_contexts pid (fun cs => run_irq_handler cs pc irq (nonzero_or0 arg))
  | HandlerKernel => kernel_handler irq background map_memory
  | HandlerFree =>
      let* irqs := st_unwrap (unhandled (k_irqs k) (Z.to_nat irq)) in st_modify (set_irqs irqs)
  end.

Definition irq_handler (pending : option Z) (background map_memory : bool) : KS unit :=
  let* _ := update_current_thread (fun t => set_pc_raw t (Z.max 0 (th_pc t - 4))) in
  let* _ := assert_user_mode in
  match pending with
  | Some irq => expect_ok (irq_handle irq background map_memory)
  | None => st_ret tt
  end.

Definition handle_trap (t : trap) : KS unit :=
  match t with
  | TrapSwi => swi_handler
  | TrapAbort ifar cause dfar msg => abort_handler ifar cause dfar msg
  | TrapUndef msg => undef_handler msg
  | TrapIrq pending background map_memory => irq_handler pending background map_memory
  end.
End Board.

(** Between two traps a thread runs: its registers change, its mode and its stack do not. *)
Definition runs (t t' : Thread) : Prop := processor_mode t' = processor_mode t /\ th_stack t' = th_stack t.
