(* ===== verification/Boot.v ===== *)
(** * The start of the kernel ([xous/kernel/src/main.rs], [services.rs], [platform/atsama5d2])

    [init] is what runs from the jump of the loader to the first thread: the memory manager
    takes over the owners of the pages from the loader, process 1 is entered, every program of
    the boot image becomes a process, the memory and the system calls that the image lists for
    a process are granted, and the drivers of the kernel map their registers and claim their
    interrupts.  An error in all of this is a panic.

    [kernel_static] are the initial values of the statics; [owners] and [maps] are the owner
    table and the page tables that the loader leaves.  The bytes of the boot image are mapped
    at [KERNEL_ARGUMENT_OFFSET]; the name of a program is copied to the stack, at [name_addr].
    [rand], [canary] and [user_memory] give what [create_process] reads for the program of an
    index.  The two interrupts that drivers claim by a system call of the kernel's own thread
    are the call [handle]; where their handlers lie is a parameter.

    What does not change this state is left out: the processor's own registers, clocks, caches
    and device registers. *)
From stdpp Require Import fin_maps gmap.
From S2P Require Import Prelude Xous SysCall Permissions Server Scheduler Threads Connections.
From S2P Require Import PermissionRequests Irq Process MemManager PageTable Mapping Memory.
From S2P Require Import Kernel Services Elf Loading BootImage Syscalls Traps.

Definition KERNEL_ARGUMENT_OFFSET : Z := 0x58000000.
Definition LOADER_CODE_ADDRESS : Z := 0x20000800.
Definition PID1_STACK_BOTTOM : Z := 0xfff80000.
Definition PID1_STACK_PAGE_COUNT : Z := 16.
Definition PID1_IRQ_HANDLER_STACK_BOTTOM : Z := 0xfffe8000.
Definition PID1_IRQ_HANDLER_STACK_PAGE_COUNT : Z := 4.
Definition PMC_KERNEL_ADDR : Z := 0xffc20000.
Definition DDRC_KERNEL_ADDR : Z := 0xffc30000.
Definition XDMAC1_KERNEL_ADDR : Z := 0xffc60000.
Definition TC0_KERNEL_ADDR : Z := 0xffc70000.
Definition SFR_KERNEL_ADDR : Z := 0xffc90000.
Definition ICM_KERNEL_DESC_AREA_ADDR : Z := 0xffce8000.
Definition ICM_KERNEL_HASH_AREA_ADDR : Z := 0xffce9000.
Definition IDLE_FUNCTION_PHYS_ADDR : Z := 0x0021f000.
Definition IDLE_FUNCTION_MEM_SIZE : Z := 0x1000.
Definition HW_SFR_BASE : Z := 0xf8030000.
Definition HW_PMC_BASE : Z := 0xf0014000.
Definition HW_TC0_BASE : Z := 0xf800c000.
Definition HW_MPDDRC_BASE : Z := 0xf000c000.
Definition HW_XDMAC1_BASE : Z := 0xf0004000.
Definition irq_uart1 : Z := 2.
Definition irq_icm : Z := 22.

(** The statics of the kernel; what the current thread pointer holds is left over. *)
Definition kernel_static (maps : gmap Z MemoryMapping) (tid : Z) : Kernel :=
  mkKernel (mkMem mm_initial maps) ∅ (repeat None MAX_SERVER_COUNT) requests_new Scheduler_initial irq_initial
    ∅ 1 tid [] None.

Section Board.
Context (regions : list (Z * Z)) (shared_peripherals : list Z) (usage : Z).
Context (utf8 : list Z -> bool) (parse_elf : list Z -> option ElfFile).
Context (rand canary : nat -> Z) (user_memory : nat -> Z -> Z -> Z).
Context (name_addr : Z).

(** ** Process 1 *)

Definition PID1_APP_ID : AppId := AppId_from_words 0x31444950 0 0 0.
Definition kernel_name : list Z := [0x6b; 0x65; 0x72; 0x6e; 0x65; 0x6c].
Definition u64_MAX : Z := 2 ^ 64 - 1.

Definition enter_process_1 : KS unit :=
  let process := Process_new 1 1 PID1_APP_ID in
  let* k := st_get in
  let* (sch, process) := st_unwrap (Process.set_thread_priority (k_scheduler k) process INITIAL_TID Idle) in
  let* (sch, process) := st_unwrap (Process.set_thread_state sch process INITIAL_TID TReady) in
  let* _ := st_modify (set_scheduler sch) in
  let '(process, named) := set_name utf8 process kernel_name in
  let* _ := st_assert (is_Ok named) in
  let* _ := put_process (set_syscall_permissions process u64_MAX) in
  let stack := mkRange (PID1_STACK_BOTTOM - PID1_STACK_PAGE_COUNT * PAGE_SIZE) (PID1_STACK_PAGE_COUNT * PAGE_SIZE) in
  let irq_stack := mkRange (PID1_IRQ_HANDLER_STACK_BOTTOM - PID1_IRQ_HANDLER_STACK_PAGE_COUNT * PAGE_SIZE)
                     (PID1_IRQ_HANDLER_STACK_PAGE_COUNT * PAGE_SIZE) in
  expect_ok (Loading.setup_process (canary 0%nat) 1 0 0 stack irq_stack).

(** ** The programs of the image *)

Definition boot_init (p : BootProgram) : option ProcessInit :=
  match MemoryRange_new (usize (KERNEL_ARGUMENT_OFFSET + bp_offset p)) (bp_size p) with
  | Ok elf => Some (mkProcessInit elf name_addr (bp_app p))
  | Err _ => None
  end.
Fixpoint load_programs (i : nat) (args : list KernelArgument) : KS unit :=
  match args with
  | [] => st_ret tt
  | arg :: args =>
      if arg_name arg =? tag_BElf then
        let* p := st_unwrap (boot_program (arg_data arg)) in
        let* init := st_unwrap (boot_init p) in
        let* _ := expect_ok (create_process regions shared_peripherals (user_memory i) utf8 parse_elf (rand i) (canary (S i)) init) in
        load_programs (S i) args
      else load_programs i args
  end.

(** [PID::new(pid).unwrap()], and [process_mut] of it. *)
Definition boot_process (pid : Z) : KS Process :=
  let* pid := st_unwrap (nonzero_new pid) in process_unwrap pid.
Fixpoint grant_regions (pid : Z) (granted : list (Z * Z)) : KS unit :=
  match granted with
  | [] => st_ret tt
  | (start, stop) :: granted =>
      let* p := boot_process pid in
      let '(p, r) := add_memory_permission p (mkMsgRange start stop) in
      let* _ := put_process p in
      let* _ := st_assert (is_Ok r) in grant_regions pid granted
  end.
Fixpoint grant_permissions (args : list KernelArgument) : KS unit :=
  match args with
  | [] => st_ret tt
  | arg :: args =>
      let* _ :=
        if arg_name arg =? tag_PMem then
          let* (pid, granted) := st_unwrap (boot_memory (arg_data arg)) in grant_regions pid granted
        else if arg_name arg =? tag_PSys then
          let* (pid, mask) := st_unwrap (boot_syscalls (arg_data arg)) in
          let* p := boot_process pid in put_process (set_syscall_permissions p mask)
        else st_ret tt in
      grant_permissions args
  end.

(** [SystemServices::init_from_memory]. *)
Definition init_services (args : list KernelArgument) : KS unit :=
  let* _ := enter_process_1 in
  let* _ := load_programs 0 args in
  grant_permissions args.

(** ** The drivers *)

Definition device_flags : Z := MemoryFlags_bitor MF_W MF_DEV.
Definition map_device (phys virt size : Z) : KS MemoryRange :=
  expect_ok (map_range regions shared_peripherals phys virt size device_flags false).
Definition unmap_kernel (virt size : Z) : KS unit := expect_ok (unmap_range regions shared_peripherals virt size).
Definition claim_kernel (irq : Z) : KS unit :=
  let* k := st_get in
  let* irqs := st_unwrap (interrupt_claim_kernel (k_irqs k) (Z.to_nat irq)) in
  st_modify (set_irqs irqs).
Definition init_l2 : KS unit :=
  let* _ := map_device HW_SFR_BASE SFR_KERNEL_ADDR 0x1000 in unmap_kernel SFR_KERNEL_ADDR 0x1000.
Definition init_clocks : KS MemoryRange := map_device HW_PMC_BASE PMC_KERNEL_ADDR 0x1000.
Definition tc0_init : KS unit :=
  let* _ := map_device HW_TC0_BASE TC0_KERNEL_ADDR 0x1000 in claim_kernel irq_tc0.
(** The function that idles with the RAM stopped lies in the internal memory: written, and then
    mapped again without the right to write. *)
Definition init_idle : KS unit :=
  let* _ := map_device HW_MPDDRC_BASE DDRC_KERNEL_ADDR 0x1000 in
  let* range := expect_ok (map_range regions shared_peripherals IDLE_FUNCTION_PHYS_ADDR 0 IDLE_FUNCTION_MEM_SIZE MF_W false) in
  let* _ := unmap_kernel (range_addr range) IDLE_FUNCTION_MEM_SIZE in
  let* _ := expect_ok (map_range regions shared_peripherals IDLE_FUNCTION_PHYS_ADDR 0 IDLE_FUNCTION_MEM_SIZE MF_X false) in
  st_ret tt.
(** [page_zeroer::init]. *)
Definition init_zeroer : KS unit :=
  let* _ := map_device HW_XDMAC1_BASE XDMAC1_KERNEL_ADDR 0x2000 in
  let* _ := claim_kernel irq_xdmac1 in
  lift_mem (fun _ => st_modify (with_mm zeroer_init)).

(** [xous::claim_interrupt(..).expect(..)] is a call of the kernel's own thread. *)
Context (call_memory : Z -> Z -> Z) (random : SID) (debug_output : Z -> Z -> Z) (call_rand call_canary : Z).
Context (uart_irq uart_arg icm_irq kernel_text : Z).
Definition claim_interrupt (irq callback arg : Z) : KS unit :=
  let* callback := st_unwrap (nonzero_new callback) in
  let* k := st_get in
  let* r := expect_ok (handle regions shared_peripherals usage call_memory random debug_output utf8
                         (create_process regions shared_peripherals call_memory utf8 parse_elf call_rand call_canary)
                         (k_tid k) (ClaimInterrupt irq callback (nonzero_new arg))) in
  st_assert (match r with ROk => true | _ => false end).

(** [icm::init]; the loader leaves the address of the kernel's text, [kernel_text], in the descriptor area. *)
Definition kernel_phys (virt : Z) : KS Z :=
  let* k := st_get in expect_ok (lift_mem (fun _ => virt_to_phys (k_current k) virt)).
Definition icm_init : KS unit :=
  let* _ := kernel_phys kernel_text in
  let* _ := kernel_phys ICM_KERNEL_DESC_AREA_ADDR in
  let* _ := kernel_phys ICM_KERNEL_HASH_AREA_ADDR in
  let* _ := claim_interrupt irq_icm icm_irq 0 in
  let* k := st_get in
  expect_ok (lift_mem (fun _ => flush_cache (k_current k) (mkRange ICM_KERNEL_DESC_AREA_ADDR PAGE_SIZE) Clean)).

Definition platform_init : KS unit :=
  let* _ := init_l2 in
  let* _ := init_clocks in
  let* _ := tc0_init in
  let* _ := icm_init in
  let* _ := claim_interrupt irq_uart1 uart_irq uart_arg in
  let* _ := init_idle in
  let* _ := init_zeroer in
  lift_mem (fun _ => lift_mm zeroer_start).

(** [arch::init]. *)
Definition arch_init : KS unit :=
  let* k := st_get in st_modify (set_current (k_current k) (Z.of_nat INITIAL_TID)).

(** ** The start *)

Definition init (owners : gmap Z Z) (image : list Z) : KS unit :=
  let* _ := lift_mem (fun _ => st_modify (with_mm (init_from_memory owners))) in
  let* args := st_unwrap (kernel_arguments image) in
  let* _ := init_services args in
  let* _ := unmap_kernel (align_down LOADER_CODE_ADDRESS) PAGE_SIZE in
  let* _ := arch_init in
  platform_init.
End Board.
