(* ===== verification/KernelIsolation.v ===== *)
(** * System calls keep the processes apart

    [mem_keeps m] says that a computation of the kernel leaves the memory isolated
    ([IsolationOps.isolated]) when it finds it so, whether it ends with a value, an error or a
    panic.  Everything that does not touch the memory has the property; what does goes through
    [lift_mem], where the results on the operations of [Memory] apply.

    The theorem covers the interrupts, the aborts that back a page or end a thread, and the calls
    a process can make to map, unmap, send and lend memory, to connect, to create servers and
    threads and to be answered, and the creation of a process from any image, which must find
    process 1 in place.  Outside are the calls that give
    lent memory back ([ReturnMemory] of a borrow, and the destruction of a server and the end
    of a process, which do the same), since a page that was lent on breaks the isolation then
    ([IsolationOps.relent_page_returned]); [MirrorMemoryToPid], which maps a page twice on
    purpose; and the crash of a process. *)
From stdpp Require Import fin_maps gmap.
From S2P Require Import Prelude Xous SysCall Permissions Server Scheduler Threads Connections.
From S2P Require Import PermissionRequests Irq Process MemManager PageTable Mapping Memory.
From S2P Require Import Isolation IsolationOps Kernel KernelRules Services Elf ElfImage Loading.
From S2P Require Import Syscalls Traps.

Abbreviation mem_keeps := (mem_inv isolated).

(** ** The kernel around the memory *)

Lemma same_put_process p : mem_same (put_process p).
Proof. unfold put_process. mem_same. Qed.
Lemma same_current_process : mem_same current_process.
Proof. unfold current_process. mem_same. Qed.
Lemma same_server_expect sidx : mem_same (server_expect sidx).
Proof. unfold server_expect. mem_same. Qed.
Lemma same_put_server sidx s : mem_same (put_server sidx s).
Proof. unfold put_server. mem_same. Qed.
#[export] Hint Resolve same_put_process same_current_process same_server_expect same_put_server : mem.

Lemma same_set_thread_state pid tid state : mem_same (set_thread_state pid tid state).
Proof. unfold set_thread_state. mem_same. Qed.
Lemma same_set_thread_priority pid tid p : mem_same (set_thread_priority pid tid p).
Proof. unfold set_thread_priority. mem_same. Qed.
Lemma same_thread_state pid tid : mem_same (thread_state pid tid).
Proof. unfold thread_state. mem_same. Qed.
Lemma same_thread_priority pid tid : mem_same (thread_priority pid tid).
Proof. unfold thread_priority. mem_same. Qed.
Lemma same_wake_process_threads state n pid : mem_same (wake_process_threads state n pid).
Proof. unfold wake_process_threads. mem_same. Qed.
#[export] Hint Resolve same_set_thread_state same_set_thread_priority same_thread_state same_thread_priority
  same_wake_process_threads : mem.
Lemma same_for_pids {X} (part : Kernel -> X) f pids :
  (forall pid, same part (f pid)) -> same part (for_pids f pids).
Proof. intros Hf. induction pids as [|pid pids IH]; cbn [for_pids]; mem_same. Qed.
Lemma same_wake_threads state n : mem_same (wake_threads_with_state state n).
Proof. apply same_for_pids. intros. mem_same. Qed.
Lemma same_with_contexts pid f : mem_same (with_contexts pid f).
Proof. unfold with_contexts. mem_same. Qed.
#[export] Hint Resolve same_wake_threads same_with_contexts : mem.
Lemma same_set_thread_result pid tid r : mem_same (set_thread_result pid tid r).
Proof. unfold set_thread_result. mem_same. Qed.
Lemma same_retry_syscall_pid pid tid : mem_same (retry_syscall_pid pid tid).
Proof. unfold retry_syscall_pid. mem_same. Qed.
Lemma same_activate_current usage : mem_same (activate_current usage).
Proof. unfold activate_current. mem_same. Qed.
#[export] Hint Resolve same_set_thread_result same_retry_syscall_pid same_activate_current : mem.
Lemma same_retry_syscall usage tid state : mem_same (retry_syscall usage tid state).
Proof. unfold retry_syscall. mem_same. Qed.
Lemma same_lift_server {A} sidx (f : Server -> option (Server * A)) : mem_same (lift_server sidx f).
Proof. unfold lift_server. mem_same. Qed.
#[export] Hint Resolve same_retry_syscall same_lift_server : mem.
Lemma same_deliver_message sidx tid m a : mem_same (deliver_message sidx tid m a).
Proof. unfold deliver_message, remember_server_message, queue_server_message. mem_same. Qed.
#[export] Hint Resolve same_deliver_message : mem.
Lemma same_send_scalar tid sidx m : mem_same (send_scalar tid sidx m).
Proof. unfold send_scalar. mem_same. Qed.
#[export] Hint Resolve same_send_scalar : mem.
Lemma same_send_server_event sidx e args : mem_same (send_server_event sidx e args).
Proof. unfold send_server_event. mem_same. Qed.
Lemma same_send_system_event pid e args : mem_same (send_system_event pid e args).
Proof. unfold send_system_event. mem_same. Qed.
#[export] Hint Resolve same_send_server_event same_send_system_event : mem.
Lemma same_broadcast_loop e args n pids : mem_same (broadcast_loop e args n pids).
Proof. revert n. induction pids as [|pid pids IH]; intros n; cbn [broadcast_loop]; mem_same. Qed.
Lemma same_broadcast_event e args : mem_same (broadcast_event e args).
Proof. apply same_broadcast_loop. Qed.
#[export] Hint Resolve same_broadcast_event : mem.
Lemma same_perform_calls calls : mem_same (perform_calls calls).
Proof. induction calls as [|[|? ?] calls IH]; cbn [perform_calls]; mem_same. Qed.
#[export] Hint Resolve same_perform_calls : mem.

Lemma same_expect_ok {A} (m : KS A) : mem_same m -> mem_same (expect_ok m).
Proof. intros. unfold expect_ok. mem_same. Qed.
Lemma same_find p virt size : mem_same (find_virtual_address p virt size).
Proof. unfold find_virtual_address. mem_same. Qed.
#[export] Hint Resolve same_expect_ok same_find : mem.

Lemma same_fail_permission_request pid tid id e : mem_same (fail_permission_request pid tid id e).
Proof. unfold fail_permission_request. mem_same. Qed.
#[export] Hint Resolve same_fail_permission_request : mem.
Lemma same_release_requests pred e : mem_same (release_requests pred e).
Proof.
  unfold release_requests. apply same_bind; [apply same_get|]. intros k. generalize (S (length (k_requests k))).
  intros fuel. induction fuel as [|fuel IH]; cbn [release_requests_loop]; mem_same.
Qed.
#[export] Hint Resolve same_release_requests : mem.

(** ** Operations on memory *)

Lemma leads_lift {A} I X (m : (Z -> Z -> result Error unit) -> MS A) :
  (forall permitted s, I s -> X (m permitted s).1) -> mem_leads I X (lift_mem m).
Proof.
  intros Hm k Hk. unfold lift_mem. pose proof (Hm (permitted_by (k_processes k)) (k_mem k) Hk) as Hs.
  destruct (m _ (k_mem k)) as [s r]. cbn [fst] in Hs.
  set (calls := drop _ _). set (k' := set_mem s k).
  assert (mem_same (let* _ := perform_calls calls in st_outcome r)) as Hsame by mem_same.
  by rewrite (Hsame k').
Qed.
(** What [lift_mem] keeps is what the operation keeps. *)
Lemma mem_lift {A} I (m : (Z -> Z -> result Error unit) -> MS A) :
  (forall permitted s, I s -> I (m permitted s).1) -> mem_inv I (lift_mem m).
Proof. apply leads_lift. Qed.
Lemma leads_then {A B} I X (m : KS A) (f : A -> KS B) :
  mem_leads I X m -> (forall a, mem_same (f a)) -> mem_leads I X (st_bind m f).
Proof.
  intros Hm Hf k Hk. specialize (Hm k Hk). unfold st_bind.
  destruct (m k) as [k' [a|e|]]; cbn in *; [|done..]. by rewrite (Hf a).
Qed.
Lemma leads_try {A} I X (m : KS A) : mem_leads I X m -> mem_leads I X (st_try m).
Proof. intros Hm k Hk. specialize (Hm k Hk). unfold st_try. by destruct (m k) as [k' [a|e|]]. Qed.
Lemma leads_after {A B} (I X : MemState -> Prop) (m : KS A) (f : A -> KS B) :
  mem_same m -> (forall a, mem_leads I X (f a)) -> (forall s, I s -> X s) -> mem_leads I X (st_bind m f).
Proof.
  intros Hm Hf HX k Hk. specialize (Hm k). unfold st_bind. rewrite <-Hm in Hk.
  destruct (m k) as [k' [a|e|]]; cbn in *; [by apply Hf|by apply HX..].
Qed.

(** How a lifted operation ends. *)
Lemma lift_mem_ends {A} (m : (Z -> Z -> result Error unit) -> MS A) (Q : A -> MemState -> Prop) X k :
  let permitted := permitted_by (k_processes k) in
  ends Q X (m permitted (k_mem k)) -> (forall a s, Q a s -> X s) ->
  ends (fun a k' => Q a (k_mem k')) (fun k' => X (k_mem k')) (lift_mem m k).
Proof.
  cbv zeta. intros H HX. unfold lift_mem. destruct (m _ (k_mem k)) as [s r].
  set (calls := drop _ _). unfold st_bind. pose proof (same_perform_calls calls (set_mem s k)) as Hs.
  destruct (perform_calls calls (set_mem s k)) as [k' [[]|e|]]; cbn in Hs; unfold st_outcome; cbn [ends].
  - by destruct r as [a|e|]; cbn in *; rewrite Hs.
  - rewrite Hs. destruct r as [a|e'|]; cbn in H; [by eapply HX|done..].
  - rewrite Hs. destruct r as [a|e'|]; cbn in H; [by eapply HX|done..].
Qed.

(** Operations that only read the memory. *)
Definition reads {A} (m : MS A) : Prop := forall s, (m s).1 = s.
Lemma reads_bind {A B} (m : MS A) (f : A -> MS B) : reads m -> (forall a, reads (f a)) -> reads (st_bind m f).
Proof.
  intros Hm Hf s. specialize (Hm s). unfold st_bind. destruct (m s) as [s' [a|e|]]; cbn in *; subst; [apply Hf|done..].
Qed.
Lemma reads_ret {A} (a : A) : reads (st_ret a). Proof. done. Qed.
Lemma reads_lift {A} (r : result Error A) : reads (st_lift r). Proof. by destruct r. Qed.
Lemma reads_ends {A} (m : MS A) Q : (forall s, ends (Q s) (fun s' => s' = s) (m s)) -> (forall s a s', Q s a s' -> s' = s) -> reads m.
Proof. intros H HQ s. specialize (H s). destruct (m s) as [s' [a|e|]]; cbn in *; [by eapply HQ|done..]. Qed.
Lemma reads_virt_to_phys pid addr : reads (virt_to_phys pid addr).
Proof. eapply reads_ends; [intros; apply virt_to_phys_spec|]. by intros s a s' [-> _]. Qed.
Lemma reads_try {A} (m : MS A) : reads m -> reads (st_try m).
Proof. intros Hm s. specialize (Hm s). unfold st_try. by destruct (m s) as [s' [a|e|]]. Qed.
Lemma reads_get_l2_slot pid addr : reads (get_l2_slot pid addr).
Proof. eapply reads_ends; [intros; apply get_l2_slot_spec|]. by intros s a s' [-> _]. Qed.
Lemma reads_accessible pid addr : reads (address_user_accessible pid addr).
Proof.
  apply reads_bind; [apply reads_try, reads_get_l2_slot|]. intros [slot|e]; [|apply reads_ret].
  apply reads_bind; [|intros; apply reads_ret]. intros s. unfold read_slot, mapping_of, st_bind, st_get.
  by destruct (ms_maps s !! pid).
Qed.
Lemma reads_flush pid pages : reads (flush_pages pid pages).
Proof.
  induction pages as [|a pages IH]; cbn [flush_pages]; [apply reads_ret|].
  apply reads_bind; [apply reads_virt_to_phys|done].
Qed.
Lemma reads_check_pages pid pages : reads (check_pages pid pages).
Proof.
  induction pages as [|a pages IH]; cbn [check_pages]; [apply reads_ret|].
  apply reads_bind; [destruct (_ <? _); [apply reads_ret|apply reads_accessible]|]. intros accessible. by destruct (negb accessible).
Qed.
Lemma same_lift_mem {A} (m : (Z -> Z -> result Error unit) -> MS A) :
  (forall permitted, reads (m permitted)) -> mem_same (lift_mem m).
Proof.
  intros Hm k. pose proof (leads_lift (fun s => s = k_mem k) (fun s => s = k_mem k) m) as H.
  apply H; [|done]. intros permitted s ->. apply Hm.
Qed.

Abbreviation kept := (ends (fun _ k' => isolated (k_mem k')) (fun k' => isolated (k_mem k'))).
Lemma kept_isolates {A} (m : KS A) : (forall k, isolated (k_mem k) -> kept (m k)) -> mem_keeps m.
Proof. intros H k Hk. specialize (H k Hk). by destruct (m k) as [k' [a|e|]]. Qed.
Lemma isolates_kept {A} (m : KS A) k : mem_keeps m -> isolated (k_mem k) -> kept (m k).
Proof. intros H Hk. specialize (H k Hk). by destruct (m k) as [k' [a|e|]]. Qed.
Lemma leads_kept {A} I (m : KS A) k : mem_leads I isolated m -> I (k_mem k) -> kept (m k).
Proof. intros H Hk. specialize (H k Hk). by destruct (m k) as [k' [a|e|]]. Qed.

Section Board.
Context (regions : list (Z * Z)) (shared_peripherals : list Z) (usage : Z).
Context (Hregions : Forall (fun r => r.1 <= r.2) regions).

Lemma isolates_lift {A} (m : (Z -> Z -> result Error unit) -> MS A) P :
  (forall permitted s, isolated s ->
     ends (fun _ => step (pending_pages (ms_mm s)) P s) (step (pending_pages (ms_mm s)) P s) (m permitted s)) ->
  mem_keeps (lift_mem m).
Proof. intros H. apply mem_lift. intros permitted s Hs. eapply isolated_ends; [done|by apply H]. Qed.

Lemma isolates_map_range phys virt size flags user :
  wf_flags flags -> size mod PAGE_SIZE = 0 -> 0 < size -> 0 <= phys ->
  mem_keeps (map_range regions shared_peripherals phys virt size flags user).
Proof.
  intros. unfold map_range. mem_keeps. eapply isolates_lift. intros permitted s Hs.
  apply map_range_spec; [done|apply Hs|done..].
Qed.

Lemma isolates_unmap_range virt len : mem_keeps (unmap_range regions shared_peripherals virt len).
Proof.
  unfold unmap_range. mem_keeps. eapply isolates_lift. intros permitted s Hs. unfold Memory.unmap_range.
  destruct (_ || _); [split; [apply Hs|done]|]. apply unmap_addresses_spec; [done|apply Hs].
Qed.

(** A block that was just allocated on top of the isolated memory [s]. *)
Definition new_block (s : MemState) (pid phys size : Z) (s1 : MemState) : Prop :=
  keeps [] s s1 /\ exists idx, block_at phys idx /\ 0 <= idx /\ idx + size / PAGE_SIZE <= RAM_PAGES
    /\ iso (own_range idx (size / PAGE_SIZE) pid (pending_pages (ms_mm s))) s1
    /\ forall i, idx <= i < idx + size / PAGE_SIZE -> pending_pages (ms_mm s) !! i = None.

Lemma new_block_isolated s pid phys size s1 : isolated s -> new_block s pid phys size s1 -> isolated s1.
Proof.
  intros Hi (Hk & idx & _ & _ & _ & Hiso & Hfree). apply (isolated_step [] s); [done|]. split; [|done].
  eapply iso_weaken; [|exact Hiso]. by apply own_range_sub.
Qed.

Lemma alloc_new_block pid size flags s :
  isolated s -> 0 < size -> size mod PAGE_SIZE = 0 ->
  ends (fun '(phys, _) => new_block s pid phys size) isolated (lift_mm (alloc_range (size / PAGE_SIZE) pid flags) s).
Proof.
  intros Hi Hs Hm. pose proof (block_size size Hs Hm) as Hn.
  pose proof (iso_alloc_range (pending_pages (ms_mm s)) s (size / PAGE_SIZE) pid flags (proj1 Hi) ltac:(lia)) as H.
  unfold lift_mm. destruct (alloc_range _ pid flags (ms_mm s)) as [mm' [[phys z]|e|]]; cbn [ends]; [|subst mm'; by destruct s|done].
  destruct H as (Hpd & idx & Hb & H1 & H2 & H3 & Hiso' & Hfree). split; [by split_and!|]. exists idx. by split_and!.
Qed.

(** It is mapped, given back, or handed to the zeroer. *)
Lemma map_new_block s pid phys virt size flags :
  isolated s -> wf_flags flags -> 0 < size -> size mod PAGE_SIZE = 0 ->
  mem_leads (new_block s pid phys size) isolated (lift_mem (fun permitted =>
    map_allocated_range regions shared_peripherals permitted pid phys virt size flags true)).
Proof.
  intros Hi Hf Hs Hm. apply leads_lift. intros permitted s1 (Hk & idx & Hb & H1 & H2 & Hiso & Hfree).
  pose proof (map_block_spec regions shared_peripherals permitted Hregions _ pid phys idx virt size flags true s1
                Hiso Hf Hs Hm Hb H1 H2 Hfree) as Hmap.
  assert (forall s2, step (pending_pages (ms_mm s)) [pid] s1 s2 -> isolated s2) as Hback.
  { intros s2 Hs2. apply (isolated_step [pid] s); [done|]. eapply step_trans; [|exact Hs2]. eapply keeps_sub; [|done]. set_solver. }
  destruct (map_allocated_range _ _ _ _ _ _ _ _ _ s1) as [s2 [[]|e|]]; by apply Hback.
Qed.
Lemma release_new_block s pid phys size :
  isolated s -> 0 < size -> size mod PAGE_SIZE = 0 ->
  mem_leads (new_block s pid phys size) isolated (lift_mem (fun permitted =>
    lift_mm (release_range regions shared_peripherals permitted phys size pid))).
Proof.
  intros Hi Hs Hm. apply leads_lift. intros permitted s1 (Hk & idx & Hb & H1 & H2 & Hiso & Hfree).
  destruct (release_block_spec regions shared_peripherals permitted Hregions _ pid phys idx size s1 Hiso Hs Hm Hb H1 H2 Hfree)
    as (mm2 & E & Hs2).
  rewrite E. apply (isolated_step [] s); [done|]. by eapply step_trans.
Qed.
Lemma pend_new_block s pid tid phys virt size flags :
  wf_flags flags -> 0 < size -> size mod PAGE_SIZE = 0 -> pending_map_zero (ms_mm s) = None ->
  mem_leads (new_block s pid phys size) isolated (lift_mem (fun _ =>
    st_modify (with_mm (set_pending (Some (mkPending phys virt size flags pid tid)))))).
Proof.
  intros Hf Hs Hm Hnone. apply leads_lift. intros _ s1 (Hk & idx & Hb & H1 & H2 & Hiso & Hfree). cbn. split.
  - cbn [ms_mm with_mm]. eapply iso_weaken; [|by apply iso_set_pending].
    erewrite pending_pages_block; [|done|exact Hb|done..]. cbn [pz_size pz_pid].
    apply map_subseteq_spec. intros i q. rewrite !own_range_lookup. case_bool_decide; [done|]. by rewrite lookup_empty.
  - intros job [= <-]. exists idx. cbn. by split_and!.
Qed.

Lemma isolates_deferred tid virt size flags :
  wf_flags flags -> 0 < size -> size mod PAGE_SIZE = 0 ->
  mem_keeps (map_with_deferred_zeroing regions shared_peripherals usage tid virt size flags).
Proof.
  intros Hf Hs Hm. apply kept_isolates. intros k Hi. unfold map_with_deferred_zeroing.
  destruct (negb (MemoryFlags_is_set _ _)); [done|]. destruct (_ <? size); [done|].
  unfold st_bind at 1, st_get. case_bool_decide as Hpend; [apply isolates_kept; [mem_keeps|done]|].
  assert (pending_map_zero (ms_mm (k_mem k)) = None) as Hnone by (by apply eq_None_not_Some).
  set (s := k_mem k) in *. change (let* pid := current_pid in ?f pid) with (fun k => f (k_current k) k).
  unfold st_bind at 1, current_pid at 1. set (pid := k_current k).
  apply ends_bind. eapply ends_mono; [apply (lift_mem_ends _ (fun '(phys, _) => new_block s pid phys size) isolated)| |done].
  { by apply alloc_new_block. }
  { intros [phys z] s1. by apply new_block_isolated. }
  intros [phys z] k1 Hb. cbn beta in *.
  assert (forall s1, new_block s pid phys size s1 -> isolated s1) as Hback by (intros s1; by apply new_block_isolated).
  apply (leads_kept (new_block s pid phys size)); [|done]. destruct z; cbn [negb].
  - apply leads_then; [by apply pend_new_block|]. intros _. mem_same.
  - apply leads_after; [mem_same| |done]. intros p. apply leads_after; [mem_same| |done]. intros [v|e].
    + apply leads_then; [by apply map_new_block|]. intros _. mem_same.
    + apply leads_then; [by apply release_new_block|]. intros _. mem_same.
Qed.

Lemma isolates_map_zero_finished : mem_keeps (map_zero_finished regions shared_peripherals usage).
Proof.
  apply kept_isolates. intros k [Hiso Hwf]. unfold map_zero_finished. unfold st_bind at 1, st_get.
  destruct (pending_map_zero (ms_mm (k_mem k))) as [job|] eqn:Ej; [|done].
  destruct (Hwf job Ej) as (idx & Hb & H1 & Hs & Hm & H2 & Hf).
  rewrite (pending_pages_block _ job idx) in Hiso by done. set (pid := pz_pid job).
  set (s1 := with_mm (set_pending None) (k_mem k)).
  assert (isolated s1) as Hi1.
  { split; [|by intros ?]. eapply iso_weaken; [|by apply iso_set_pending]. apply map_empty_subseteq. }
  assert (new_block s1 pid (pz_phys job) (pz_size job) s1) as Hnew.
  { split; [done|]. exists idx. split_and!; [done..|by apply iso_set_pending|]. intros i _. apply lookup_empty. }
  apply ends_bind. eapply ends_mono; [apply (lift_mem_ends _ (fun _ s => s = s1) (fun s => s = s1)); [done|done]| |by intros k' ->].
  intros [] k1 Hk1. apply (leads_kept (fun s => s = s1)); [|done]. clear k1 Hk1.
  assert (forall s, s = s1 -> isolated s) as Hback by (by intros s ->).
  apply leads_after; [mem_same| |done]. intros p. apply leads_after; [mem_same| |done]. intros [].
  apply leads_after; [mem_same| |done]. intros virt. apply leads_then; [|intros; mem_same].
  destruct virt as [v|e].
  - apply leads_then; [|intros; mem_same]. apply leads_try, leads_then; [|intros; mem_same].
    intros k' Hk'. apply (map_new_block s1); by rewrite ?Hk'.
  - apply leads_then; [|intros; mem_same]. intros k' Hk'. apply (release_new_block s1); by rewrite ?Hk'.
Qed.

(** The pages of messages. *)

Lemma isolates_send_memory src dest dest_virt len : mem_keeps (send_memory regions shared_peripherals src dest dest_virt len).
Proof.
  unfold send_memory. destruct (send_refused _ _ _); [mem_keeps|]. apply mem_bind; [mem_keeps|intros current].
  destruct (Z.eqb_spec current dest) as [|Hne]; [mem_keeps|]. mem_keeps.
  eapply isolates_lift. intros permitted s Hs. apply (send_pages_spec _ _ permitted Hregions); [apply Hs|done].
Qed.
Lemma isolates_lend_memory src dest dest_virt len mutable :
  len <= 2 ^ 32 -> mem_keeps (lend_memory regions shared_peripherals src dest dest_virt len mutable).
Proof.
  intros Hlen. unfold lend_memory. destruct (lend_refused _ _ _); [mem_keeps|]. apply mem_bind; [mem_keeps|intros current].
  destruct (Z.eqb_spec current dest) as [|Hne].
  - mem_keeps. eapply isolates_lift. intros permitted s Hs. by eapply back_range_spec, Hs.
  - mem_keeps. eapply isolates_lift. intros permitted s Hs. apply (lend_pages_spec _ _ permitted Hregions); [apply Hs|done|done].
Qed.
Lemma isolates_clear_shared pid addr len mode : mem_keeps (clear_shared_range pid addr len mode).
Proof.
  unfold clear_shared_range. mem_keeps. apply mem_lift. intros permitted s Hs. unfold Memory.clear_shared_range.
  generalize (map (fun o => usize (addr + o)) (pages_of 0 len)). intros pages. revert s Hs.
  induction pages as [|page pages IH]; intros s Hs; cbn [clear_shared_pages]; [done|].
  assert (isolated (clear_shared pid page mode s).1) as H1.
  { eapply isolated_ends; [done|]. by eapply clear_shared_spec, Hs. }
  unfold st_bind at 1, expect, st_bind at 1, st_try.
  destruct (clear_shared pid page mode s) as [s' [[]|e|]]; cbn in *; [by apply IH|done..].
Qed.

Lemma same_check_range range : mem_same (check_range_accessible range).
Proof.
  unfold check_range_accessible. mem_same. apply same_lift_mem. intros _. unfold Memory.check_range_accessible.
  apply reads_bind; [apply reads_lift|]. intros. apply reads_check_pages.
Qed.
Lemma same_virt_to_phys pid addr : mem_same (lift_mem (fun _ => virt_to_phys pid addr)).
Proof. apply same_lift_mem. intros _. apply reads_virt_to_phys. Qed.
Lemma same_flush pid mem op : mem_same (lift_mem (fun _ => flush_cache pid mem op)).
Proof.
  apply same_lift_mem. intros _. unfold flush_cache. destruct (try_whole_cache_flush _ _); [apply reads_ret|apply reads_flush].
Qed.
End Board.
#[export] Hint Resolve same_check_range same_virt_to_phys same_flush : mem.

(** ** The creation of a process

    The loader takes pages of the raw image out of one place of the address space and maps
    them in another, and changes the flags of a page by mapping it again: between the two steps
    the page is mapped nowhere and stays reserved for the process. *)

Definition load_inv {A} (I : MemState -> Prop) (m : LS A) : Prop :=
  forall s, I (k_mem (ld_kernel s)) -> I (k_mem (ld_kernel (m s).1)).

Section LoadInv.
Context (I : MemState -> Prop).
Abbreviation load_keeps := (load_inv I).

Lemma load_bind {A B} (m : LS A) (f : A -> LS B) : load_keeps m -> (forall a, load_keeps (f a)) -> load_keeps (st_bind m f).
Proof.
  intros Hm Hf s Hs. unfold st_bind. specialize (Hm s Hs). destruct (m s) as [s' [a|e|]]; [by apply Hf|done..].
Qed.
(** Only the values that a part returns matter for the rest. *)
Lemma load_bind_value {A B} (P : A -> Prop) (m : LS A) (f : A -> LS B) :
  load_keeps m -> (forall s s' a, m s = (s', Done a) -> P a) -> (forall a, P a -> load_keeps (f a)) ->
  load_keeps (st_bind m f).
Proof.
  intros Hm HP Hf s Hs. unfold st_bind. specialize (Hm s Hs). specialize (HP s).
  destruct (m s) as [s' [a|e|]]; [|done..]. apply Hf; [by eapply HP|done].
Qed.
Lemma load_try {A} (m : LS A) : load_keeps m -> load_keeps (st_try m).
Proof. intros Hm s Hs. unfold st_try. specialize (Hm s Hs). by destruct (m s) as [s' [a|e|]]. Qed.
Lemma load_kernel {A} (m : KS A) : mem_inv I m -> load_keeps (on_kernel m).
Proof. intros Hm s Hs. unfold on_kernel. specialize (Hm (ld_kernel s) Hs). by destruct (m (ld_kernel s)) as [k r]. Qed.
Lemma load_lift {A} (r : result Error A) : load_keeps (st_lift r). Proof. intros s Hs. by destruct r. Qed.
Lemma load_assert b : load_keeps (st_assert b). Proof. intros s Hs. by destruct b. Qed.
Lemma load_ret {A} (a : A) : load_keeps (st_ret a). Proof. by intros s Hs. Qed.
Lemma load_fail {A} e : load_keeps (st_fail (A := A) e). Proof. by intros s Hs. Qed.
Lemma load_on_bytes f : load_keeps (on_bytes f). Proof. by intros s Hs. Qed.
Lemma load_get : load_keeps st_get. Proof. by intros s Hs. Qed.
Lemma load_reads {A} (m : MS A) : reads m -> load_keeps (on_mapping m).
Proof. intros Hm. apply load_kernel, mem_same_keeps, same_lift_mem. by intros _. Qed.

End LoadInv.

Ltac load_keeps :=
  repeat first
    [ apply load_ret | apply load_fail | apply load_lift | apply load_assert | apply load_on_bytes | apply load_get
    | simple apply load_bind; [|intros] | simple apply load_try
    | match goal with
      | |- load_inv _ (match ?x with _ => _ end) => destruct x
      | |- load_inv _ (if ?x then _ else _) => destruct x
      | |- load_inv _ (let '(_, _) := ?x in _) => destruct x
      end ].
Abbreviation load_keeps := (load_inv isolated).

(** A page taken out of the address space: [s1] is [s] without it. *)
Definition detached (pid phys : Z) (s1 : MemState) : Prop :=
  exists s R, isolated s /\ pending_pages (ms_mm s) ⊆ R /\ step R [pid] s s1
    /\ forall i, ram_page phys = Some i -> R !! i = Some pid /\ pending_pages (ms_mm s) !! i = None.

Lemma detached_isolated pid phys s1 : detached pid phys s1 -> isolated s1.
Proof. intros (s & R & Hi & Hsub & Hs & _). eapply isolated_step; [done|]. by eapply step_weaken. Qed.

Lemma unmap_detaches pid va phys s :
  isolated s -> (virt_to_phys pid va s).2 = Done phys ->
  ends (fun _ => detached pid phys) isolated (unmap_page pid va s).
Proof.
  intros Hi E. pose proof (virt_to_phys_spec pid va s) as Hv. destruct (virt_to_phys pid va s) as [s0 r]. cbn in E. subst r.
  destruct Hv as (_ & Hm & _ & d & Ed & Ea). set (R := pending_pages (ms_mm s)).
  assert (forall i, ram_page phys = Some i -> page_at s pid (page_number va) = Some i) as Hpage.
  { intros i Hp. unfold page_at, slot_page. rewrite Ed. cbn. by rewrite Ea. }
  destruct (unmap_page_cases pid va s) as [[-> _]|[[[e ->]| ->] _]]; [|done|done]. cbn [ends].
  exists s, (reserve (page_at s pid (page_number va)) pid R). split; [done|]. split; [apply reserve_sub, Hi|]. split.
  - split; [apply iso_detach; [apply Hi|done|done]|apply keeps_put].
  - intros i Hp. specialize (Hpage i Hp). rewrite Hpage. cbn. split; [by rewrite lookup_insert_eq|].
    destruct (R !! i) eqn:ER; [|done]. apply (iso_reserved _ _ (proj1 Hi)) in ER as (_ & _ & Hno). by destruct (Hno pid (page_number va)).
Qed.

Lemma detached_maps pid phys dst flags user :
  is_u32 dst -> is_u32 phys -> wf_flags flags ->
  mem_leads (detached pid phys) isolated (lift_mem (fun _ => map_page pid phys dst flags user)).
Proof.
  intros Hd Hp Hf. apply leads_lift. intros permitted s1 (s & R & Hi & Hsub & [Hiso Hk] & Hfree).
  pose proof (map_page_spec permitted R pid phys dst flags user s1 Hiso Hd Hp Hf (fun i Hi => proj1 (Hfree i Hi))) as H.
  assert (forall R' s2, pending_pages (ms_mm s) ⊆ R' -> step R' [pid] s1 s2 -> isolated s2) as Hback.
  { intros R' s2 HR Hs2. apply (isolated_step [pid] s); [done|]. eapply step_weaken; [exact HR|]. by eapply step_trans. }
  destruct (map_page pid phys dst flags user s1) as [s2 [[]|e|]]; [|by destruct H as [H _]; eapply Hback..].
  destruct H as [H _]. eapply Hback; [|exact H]. unfold unreserve. destruct (ram_page phys) as [i|] eqn:E; [|done].
  apply map_subseteq_spec. intros j q Hj. rewrite lookup_delete_ne; [by eapply lookup_weaken|].
  intros ->. destruct (Hfree j eq_refl) as [_ Hn]. by rewrite Hn in Hj.
Qed.

Lemma virt_to_phys_u32 pid va s phys : (virt_to_phys pid va s).2 = Done phys -> is_u32 phys.
Proof.
  intros E. pose proof (virt_to_phys_spec pid va s) as Hv. destruct (virt_to_phys pid va s) as [s0 r]. cbn in E. subst r.
  destruct Hv as (_ & _ & _ & d & Ed & Ea). apply from_u32_mapped in Ed as [_ Hd].
  destruct (get_addr_mapped d Hd) as (a & Ea' & _ & Ha). by simplify_eq.
Qed.

(** Take the page at [src] out and map it at [dst]. *)
Lemma isolates_remap pid src dst flags :
  is_u32 dst -> wf_flags flags ->
  load_keeps (let* phys := on_mapping (virt_to_phys pid src) in
              let* _ := on_mapping (unmap_page pid src) in
              on_mapping (map_page pid phys dst flags true)).
Proof.
  intros Hd Hf s Hs. unfold on_mapping, on_kernel. unfold st_bind at 1.
  pose proof (lift_mem_ends (fun _ => virt_to_phys pid src)
    (fun phys s' => s' = k_mem (ld_kernel s) /\ (virt_to_phys pid src (k_mem (ld_kernel s))).2 = Done phys)
    isolated (ld_kernel s)) as H1. cbv beta zeta in H1.
  assert (ends (fun phys s' => s' = k_mem (ld_kernel s) /\ (virt_to_phys pid src (k_mem (ld_kernel s))).2 = Done phys)
    isolated (virt_to_phys pid src (k_mem (ld_kernel s)))) as Hv.
  { pose proof (reads_virt_to_phys pid src (k_mem (ld_kernel s))) as Hr.
    destruct (virt_to_phys pid src (k_mem (ld_kernel s))) as [s0 [phys|e|]]; cbn in Hr |- *; subst s0; done. }
  specialize (H1 Hv ltac:(by intros ? ? [-> _])). destruct (lift_mem _ (ld_kernel s)) as [k1 [phys|e|]]; [|done..].
  destruct H1 as [Ek Ep]. pose proof (virt_to_phys_u32 _ _ _ _ Ep) as Hphys. cbn [ld_kernel ld_bytes]. unfold st_bind.
  pose proof (lift_mem_ends (fun _ => unmap_page pid src) (fun _ => detached pid phys) isolated k1) as H2. cbv beta zeta in H2.
  rewrite Ek in H2. specialize (H2 (unmap_detaches _ _ _ _ Hs Ep) ltac:(intros _ ?; apply detached_isolated)).
  cbn [ld_kernel]. destruct (lift_mem _ k1) as [k2 [[]|e|]]; [|done..]. cbn [ends] in H2.
  pose proof (detached_maps pid phys dst flags true Hd Hphys Hf k2 H2) as H3. cbn [ld_kernel].
  by destruct (lift_mem _ k2) as [k3 r].
Qed.
Lemma isolates_remap_then {A} pid src dst flags (f : unit -> LS A) :
  is_u32 dst -> wf_flags flags -> (forall u, load_keeps (f u)) ->
  load_keeps (let* phys := on_mapping (virt_to_phys pid src) in
              let* _ := on_mapping (unmap_page pid src) in
              let* u := on_mapping (map_page pid phys dst flags true) in f u).
Proof.
  intros Hd Hf Hrest s Hs. pose proof (load_bind _ _ f (isolates_remap pid src dst flags Hd Hf) Hrest s Hs) as H.
  unfold st_bind in H |- *. destruct (on_mapping (virt_to_phys pid src) s) as [s1 [phys|e|]]; [|done..].
  by destruct (on_mapping (unmap_page pid src) s1) as [s2 [[]|e|]].
Qed.

Section Loader.
Context (regions : list (Z * Z)) (shared_peripherals : list Z).
Context (Hregions : Forall (fun r => r.1 <= r.2) regions).
Context (mapping : Z).

Lemma reads_page_accessible write pid addr : reads (page_accessible write pid addr).
Proof.
  unfold page_accessible. apply reads_bind; [apply reads_try, reads_get_l2_slot|]. intros [slot|e]; [|apply reads_ret].
  apply reads_bind; [intros s; unfold read_slot, mapping_of, st_bind, st_get; by destruct (ms_maps s !! pid)|].
  intros entry. destruct (negb _); [apply reads_ret|]. destruct (negb _); [apply reads_ret|].
  apply reads_bind; [by intros s|]. intros. apply reads_ret.
Qed.
Lemma load_accessible I write pages : load_inv I (assert_accessible mapping write pages).
Proof.
  induction pages as [|page pages IH]; cbn [assert_accessible]; load_keeps; [|done].
  apply load_reads, reads_page_accessible.
Qed.
Lemma load_read_bytes I addr len : load_inv I (read_bytes mapping addr len).
Proof. unfold read_bytes. load_keeps. apply load_accessible. Qed.
Lemma load_write_bytes I addr new : load_inv I (write_bytes mapping addr new).
Proof. unfold write_bytes. load_keeps. apply load_accessible. Qed.
Lemma load_read_word I addr : load_inv I (read_word mapping addr).
Proof. unfold read_word. load_keeps. apply load_read_bytes. Qed.

Lemma isolates_fresh page flags : wf_flags flags -> load_keeps (map_fresh_page regions shared_peripherals page flags).
Proof. intros Hf. unfold map_fresh_page. load_keeps. apply load_kernel. by apply isolates_map_range. Qed.

Lemma wf_segment_flags h : wf_flags (segment_flags h).
Proof. unfold segment_flags. by destruct (ph_write h), (ph_execute h). Qed.
Lemma add_slide_u32 v slide a : 0 <= v -> 0 <= slide -> checked_add_aslr_slide v slide = Ok a -> is_u32 a.
Proof.
  unfold checked_add_aslr_slide, checked_add. destruct (Z.ltb_spec (v + slide) (2 ^ 32)); [|done].
  intros ? ? [= <-]. unfold is_u32. lia.
Qed.

Lemma isolates_move_whole address slide flags h :
  0 <= slide -> wf_flags flags -> wf_header h -> load_keeps (move_whole_page mapping address slide flags h).
Proof.
  intros Hs Hf (_ & [Hv _] & _). unfold move_whole_page. apply (load_bind_value _ is_u32); [load_keeps| |].
  - intros s s' a E. destruct (checked_add_aslr_slide _ _) as [x|] eqn:Ea; [|done]. injection E as _ <-.
    by apply (add_slide_u32 _ _ _ Hv Hs Ea).
  - intros dst Hd. apply isolates_remap_then; [done|done|]. intros u. load_keeps.
Qed.
Lemma isolates_copy_part address len slide flags h :
  0 <= slide -> wf_flags flags -> wf_header h ->
  load_keeps (copy_part regions shared_peripherals mapping address len slide flags h).
Proof.
  intros Hs Hf (_ & Hv & _). unfold copy_part. apply (load_bind_value _ is_u32); [load_keeps| |].
  - intros s s' a E. destruct (checked_add_aslr_slide _ _) as [x|] eqn:Ea; [|done]. injection E as _ <-.
    refine (add_slide_u32 _ _ _ _ Hs Ea). by apply align_down_bounds.
  - intros page Hd. load_keeps; try (by apply isolates_fresh); try apply load_read_bytes; try apply load_write_bytes.
    unfold remap_page_flags. by apply isolates_remap.
Qed.
Lemma advance_wf h m n : wf_header (advance h m n).
Proof. split_and!; apply u32_range. Qed.
Lemma isolates_load_pages fuel must_copy address len slide flags h :
  0 <= slide -> wf_flags flags -> wf_header h ->
  load_keeps (load_pages regions shared_peripherals mapping fuel must_copy address len slide flags h).
Proof.
  intros Hs Hf. revert h. induction fuel as [|fuel IH]; intros h Hh; cbn [load_pages]; [load_keeps|].
  destruct (_ <=? 0); [load_keeps|]. apply (load_bind_value _ wf_header); [| |by apply IH].
  - destruct (whole_page must_copy h); [by apply isolates_move_whole|by apply isolates_copy_part].
  - intros s s' h' E. destruct (whole_page must_copy h).
    + by apply move_whole_Done in E as [-> _]; apply advance_wf.
    + unfold copy_part in E. st_inv E page s1 E1. st_inv E rest s2 E2. st_inv E copied s3 E3. st_inv E u s4 E4.
      apply ret_Done in E as [_ ->]. apply advance_wf.
Qed.
Lemma isolates_load_segments pie address len slide hs :
  0 <= slide -> Forall wf_header hs -> load_keeps (load_segments regions shared_peripherals mapping pie address len slide hs).
Proof.
  intros Hs Hhs. induction Hhs as [|h hs Hh _ IH]; cbn [load_segments]; [load_keeps|].
  apply load_bind; [|done]. unfold load_segment. load_keeps; [apply load_reads, reads_virt_to_phys|..];
    (apply isolates_load_pages; [done|apply wf_segment_flags|done]).
Qed.

Lemma load_read_dynamic I r entries : load_inv I (read_dynamic mapping r entries).
Proof.
  revert r. induction entries as [|entry entries IH]; intros r; cbn [read_dynamic]; load_keeps; try apply load_read_word. apply IH.
Qed.
Lemma load_relocations I slide image writable rels : load_inv I (apply_relocation_list mapping slide image writable rels).
Proof.
  induction rels as [|rel rels IH]; cbn [apply_relocation_list]; [load_keeps|]. apply load_bind; [|done].
  unfold apply_relocation, write_word. load_keeps; first [apply load_read_word|apply load_write_bytes].
Qed.
Lemma isolates_read_only pages : Forall is_u32 pages -> load_keeps (remap_read_only mapping pages).
Proof.
  intros Hp. induction Hp as [|va pages Hva _ IH]; cbn [remap_read_only]; [load_keeps|].
  apply load_bind; [unfold remap_page_flags; by apply isolates_remap|]. intros. load_keeps. done.
Qed.
Lemma isolates_mark_read_only start size : is_u32 start -> 0 <= size -> load_keeps (mark_pages_read_only mapping start size).
Proof.
  intros Hs Hz. unfold mark_pages_read_only. destruct (_ =? _); [load_keeps|].
  apply (load_bind_value _ (fun stop => exists e, is_u32 e /\ align_up e = Ok stop)); [load_keeps| |].
  - intros s s' a E. apply lift_Done in E as [_ E]. unfold checked_add in E. destruct (Z.ltb_spec (start + size) (2 ^ 32)); [|done].
    cbn in E. exists (start + size). split; [unfold is_u32 in *; lia|done].
  - intros stop (e & He & Eu). apply align_up_Ok in Eu as (Eu & _ & Hstop); [|done]. apply isolates_read_only.
    pose proof (align_down_bounds start Hs) as (D1 & _ & D2). apply list.Forall_forall. intros a Ha.
    apply elem_of_pages_of in Ha as (k & Hk & ->). apply pages_of_bound in Hk. unfold is_u32 in *. lia.
Qed.
Lemma isolates_relocate ly :
  0 <= ly_slide ly -> (forall v n, sc_relro (ly_scan ly) = Some (v, n) -> is_u32 v /\ is_u32 n) ->
  load_keeps (relocate_image mapping ly).
Proof.
  intros Hs Hr. unfold relocate_image. apply load_bind; [load_keeps|]. intros [dv df]. apply load_bind; [load_keeps|intros e].
  destruct (negb _); [load_keeps|]. apply load_bind.
  { unfold parse_dynamic_rel_info. load_keeps. apply load_read_dynamic. }
  intros r. apply load_bind; [load_keeps|intros e']. destruct (negb _); [load_keeps|]. apply load_bind.
  { unfold apply_relocations. load_keeps. apply load_relocations. }
  intros _. destruct (sc_relro _) as [[v n]|]; [|load_keeps]. destruct (Hr v n eq_refl) as [[Hv _] [Hn _]].
  apply load_bind; [load_keeps|intros e'']. destruct (negb _); [load_keeps|].
  apply (load_bind_value _ is_u32); [load_keeps| |intros; by apply isolates_mark_read_only].
  intros s s' a E. apply lift_Done in E as [_ E]. by apply (add_slide_u32 _ _ _ Hv Hs E).
Qed.

Context (parse : list Z -> option ElfFile) (Hparse : wf_parser parse) (rand : Z) (Hrand : is_u32 rand).
Lemma isolates_load_elf_in address len :
  load_keeps (load_elf_in regions shared_peripherals mapping parse rand address len).
Proof.
  unfold load_elf_in. apply load_bind; [apply load_read_bytes|intros image].
  apply (load_bind_value _ wf_elf); [load_keeps| |].
  { intros s s' elf E. apply lift_Done in E as [_ E]. apply (Hparse image). unfold ok_or in E. by destruct (parse image); simplify_eq. }
  intros elf Hw. apply (load_bind_value _ (fun ly => plan_elf rand elf = Ok ly)); [load_keeps| |].
  { intros s s' ly E. by apply lift_Done in E as [_ E]. }
  intros ly E. pose proof (plan_elf_scanned rand elf ly Hw E) as Hsc.
  pose proof (plan_elf_spec rand elf ly Hw Hrand E) as (_ & _ & _ & _ & _ & _ & _ & _ & _ & Hslide).
  assert (0 <= ly_slide ly) as Hs by (destruct (is_pie elf); [by destruct Hslide|by rewrite Hslide]).
  apply load_bind; [|intros _; apply load_bind; [|intros _]].
  - apply isolates_load_segments; [done|]. rewrite (scd_headers _ _ Hsc). eapply Forall_impl; [|exact (scd_ok _ _ Hsc)]. by intros h [? _].
  - destruct (is_pie elf); [|load_keeps]. apply isolates_relocate; [done|]. exact (scd_relro _ _ Hsc).
  - load_keeps. by apply load_kernel, isolates_unmap_range.
Qed.
End Loader.

(** Taking an answer out of a queue does not change the current process either. *)
Lemma current_wake_process_threads state n pid : same k_current (wake_process_threads state n pid).
Proof. unfold wake_process_threads, put_process. mem_same. Qed.
Lemma current_lift_server {A} sidx (f : Server -> option (Server * A)) : same k_current (lift_server sidx f).
Proof. unfold lift_server, server_expect, put_server. mem_same. Qed.
Lemma current_wake_threads state n : same k_current (wake_threads_with_state state n).
Proof. apply same_for_pids. intros. apply current_wake_process_threads. Qed.
#[export] Hint Resolve current_lift_server current_wake_threads : mem.
Lemma current_take_answer sender buf : same k_current (take_answer sender buf).
Proof. unfold take_answer, server_expect. mem_same. Qed.
Lemma same_take_answer sender buf : mem_same (take_answer sender buf).
Proof. unfold take_answer. mem_same. Qed.
Lemma same_answer pid tid value : mem_same (answer_and_resume pid tid value).
Proof. unfold answer_and_resume. mem_same. Qed.
#[export] Hint Resolve same_take_answer same_answer : mem.

Section Calls.
Context (regions : list (Z * Z)) (shared_peripherals : list Z) (usage : Z).
Context (Hregions : Forall (fun r => r.1 <= r.2) regions).

Lemma same_create_thread parent init : mem_same (create_thread parent init).
Proof. unfold create_thread. mem_same. Qed.
Lemma same_wake_joining pid tid value tids : mem_same (wake_joining pid tid value tids).
Proof. induction tids as [|t tids IH]; cbn [wake_joining]; mem_same. Qed.
Lemma same_join_thread tid join_tid : mem_same (join_thread usage tid join_tid).
Proof. unfold join_thread. mem_same. Qed.
Lemma same_connect pid sid : mem_same (connect_to_server pid sid).
Proof. unfold connect_to_server. mem_same. Qed.
Lemma same_disconnect cid : mem_same (disconnect_from_server cid).
Proof. unfold disconnect_from_server. mem_same. Qed.
Lemma same_connected cid : mem_same (connected cid).
Proof. unfold connected. mem_same. Qed.
Hint Resolve same_create_thread same_wake_joining same_join_thread same_connect same_disconnect same_connected : mem.

Lemma isolates_thread_exited tid : mem_keeps (thread_exited regions shared_peripherals usage tid).
Proof. unfold thread_exited. mem_keeps. by apply isolates_unmap_range. Qed.

Lemma isolates_create_server sid initial : mem_keeps (create_server_with_address regions shared_peripherals sid initial).
Proof. unfold create_server_with_address. mem_keeps. by apply isolates_map_range. Qed.

Lemma isolates_transfer server_pid message :
  wf_message message -> mem_keeps (transfer_message regions shared_peripherals server_pid message).
Proof.
  intros Hwf. unfold transfer_message, with_message_buf.
  destruct message as [m|m|m|s|s|m]; cbn in Hwf; try (destruct Hwf as (_ & [_ Hsize] & _)); mem_keeps;
    first [by apply isolates_send_memory|apply isolates_lend_memory; [done|unfold is_nonzero in Hsize; lia]].
Qed.
Lemma isolates_send_message tid cid message :
  wf_message message -> mem_keeps (send_message regions shared_peripherals usage tid cid message).
Proof.
  intros Hwf. unfold send_message, send_message_inner. mem_keeps. by apply isolates_transfer.
Qed.
Lemma same_check_permission tid cid message may_wait : mem_same (check_message_permission tid cid message may_wait).
Proof. unfold check_message_permission. mem_same. Qed.
Hint Resolve same_check_permission : mem.
Lemma same_return_result tid sender value : mem_same (return_result usage tid sender value).
Proof. unfold return_result. mem_same. Qed.
Lemma same_receive tid sid b : mem_same (receive_message usage tid sid b).
Proof. unfold receive_message. mem_same. Qed.
Hint Resolve same_return_result same_receive : mem.

Lemma kept_bind {A B} (m : KS A) (f : A -> KS B) k : kept (m k) -> (forall a, mem_keeps (f a)) -> kept (st_bind m f k).
Proof.
  intros Hm Hf. apply ends_bind. eapply ends_mono; [exact Hm| |done]. intros a k' Hk'. by apply isolates_kept.
Qed.

(** Giving lent pages back, as long as the server still maps them. *)
Definition still_mapped (k : Kernel) (buf : MemoryRange) : Prop :=
  forall o, o ∈ pages_of 0 (range_size buf) -> mapped_page (k_mem k) (k_current k) (usize (range_addr buf + o)).

Lemma kept_return_memory buf dest dest_virt k :
  isolated (k_mem k) -> range_size buf <= 2 ^ 32 -> still_mapped k buf ->
  kept (return_memory regions shared_peripherals (range_addr buf) dest dest_virt (range_size buf) k).
Proof.
  intros Hi Hsize Hmapped. unfold return_memory. destruct (return_refused _ _ _); [done|].
  unfold st_bind at 1, current_pid. destruct (Z.eqb_spec (k_current k) dest) as [|Hne]; [done|].
  unfold st_bind at 1, process at 1. destruct (k_processes k !! k_current k); [|done].
  unfold st_bind at 1, process at 1. destruct (k_processes k !! dest); [|done].
  apply kept_bind; [|intros; mem_keeps].
  apply (leads_kept (fun s => s = k_mem k)); [|done]. apply leads_lift. intros permitted s' ->.
  eapply isolated_ends; [done|]. apply (return_range_spec regions shared_peripherals permitted Hregions); [apply Hi|done..].
Qed.

Lemma kept_return_call tid sender buf offset valid k :
  isolated (k_mem k) -> range_size buf <= 2 ^ 32 -> still_mapped k buf ->
  kept (return_memory_call regions shared_peripherals usage tid sender buf offset valid k).
Proof.
  intros Hi Hsize Hmapped. unfold return_memory_call. pose proof (same_take_answer sender (Some buf) k) as Hm.
  pose proof (current_take_answer sender (Some buf) k) as Hc. unfold st_bind at 1.
  destruct (take_answer sender (Some buf) k) as [k1 [a|e|]]; cbn in Hm, Hc; [|by cbn; rewrite Hm..].
  rewrite <-Hm in Hi. assert (still_mapped k1 buf) as Hmapped1 by (unfold still_mapped; by rewrite Hm, Hc).
  apply kept_bind; [|intros; mem_keeps].
  destruct a as [|pid tid' addr|pid tid' addr size|pid tid'| |range]; try done.
  - apply kept_bind; [by apply kept_return_memory|]. intros; mem_keeps.
  - apply isolates_kept; [|done]. mem_keeps; [by apply isolates_send_memory|by apply isolates_clear_shared].
  - apply isolates_kept; [|done]. mem_keeps. by apply isolates_unmap_range.
Qed.

Lemma isolates_back_pages pid pages : mem_keeps (lift_mem (fun _ => back_pages pid pages)).
Proof.
  apply mem_lift. intros permitted. induction pages as [|page pages IH]; intros s Hs; cbn [back_pages]; [done|].
  assert (isolated (ensure_backed pid page s).1) as H1 by (eapply isolated_ends; [done|]; by eapply ensure_backed_spec, Hs).
  unfold st_bind. destruct (ensure_backed pid page s) as [s' [[]|e|]]; cbn in *; [by apply IH|done..].
Qed.

Lemma aligned_size size : 0 < size -> page_aligned size = true -> size mod PAGE_SIZE = 0.
Proof.
  unfold page_aligned. intros _ H%Z.eqb_eq. rewrite <-H. change (PAGE_SIZE - 1) with (2 ^ 12 - 1).
  by rewrite land_ones_mod.
Qed.
Lemma isolates_map_memory tid phys virt size flags :
  wf_syscall (MapMemory phys virt size flags) ->
  mem_keeps (map_memory regions shared_peripherals usage tid phys virt size flags).
Proof.
  intros (Hphys & Hvirt & Hsize & Hf). unfold map_memory. unfold is_nonzero in Hsize.
  apply mem_bind; [mem_keeps|intros pid]. destruct (_ && _); [mem_keeps|].
  destruct (page_aligned size) eqn:Ha; cbn [negb]; [|mem_keeps]. pose proof (aligned_size size ltac:(lia) Ha) as Hm.
  destruct (MemoryFlags_is_set _ _); [mem_keeps|]. destruct (_ && _).
  - apply isolates_deferred; [done..|lia|done].
  - mem_keeps. apply isolates_map_range; [done|done|done|lia|]. pose proof (nonzero_or0_wf phys Hphys). unfold is_usize in *. lia.
Qed.

Lemma isolates_unmap_memory range : mem_keeps (unmap_memory regions shared_peripherals range).
Proof. unfold unmap_memory. mem_keeps. by apply isolates_unmap_range. Qed.
Lemma same_lift_irq no f : mem_same (lift_irq no f).
Proof. unfold lift_irq. mem_same. Qed.
Lemma same_futex_wait user_memory tid addr val : mem_same (futex_wait usage user_memory tid addr val).
Proof. unfold futex_wait. mem_same. Qed.
Lemma same_resolve id allow : mem_same (resolve_message_permission id allow).
Proof. unfold resolve_message_permission. mem_same. Qed.
Lemma same_request_data id field : mem_same (get_permission_request_data id field).
Proof. unfold get_permission_request_data. mem_same. Qed.
Lemma same_connect_or_retry tid sid : mem_same (connect_or_retry usage tid sid).
Proof. unfold connect_or_retry. mem_same. Qed.
Lemma same_panic_message utf8 bytes : mem_same (append_panic_message utf8 bytes).
Proof. unfold append_panic_message. mem_same. Qed.
Lemma same_get_panic_message buf : mem_same (get_panic_message buf).
Proof. unfold get_panic_message. mem_same. Qed.
Lemma isolates_send_call tid cid message :
  wf_message message -> mem_keeps (send_message_call regions shared_peripherals usage tid cid message).
Proof. intros. unfold send_message_call. mem_keeps. by apply isolates_send_message. Qed.
Hint Resolve same_lift_irq same_futex_wait same_resolve same_request_data same_connect_or_retry same_panic_message
  same_get_panic_message : mem.

Lemma same_check_syscall {X} (part : Kernel -> X) call : same part (check_syscall_permission call).
Proof. unfold check_syscall_permission, is_permitted_by_mask, current_process. mem_same. Qed.

Lemma check_syscall_reads call k : (check_syscall_permission call k).1 = k.
Proof. apply (same_check_syscall (fun k => k)). Qed.

(** ** The calls *)

Context (user_memory : Z -> Z -> Z) (random : SID) (debug_output : Z -> Z -> Z) (utf8 : list Z -> bool).
Context (parse_elf : list Z -> option ElfFile) (rand canary : Z) (Hparse : wf_parser parse_elf) (Hrand : is_u32 rand).
Abbreviation create_process := (create_process regions shared_peripherals user_memory utf8 parse_elf rand canary).

Lemma same_activate pid : mem_same (activate pid).
Proof. unfold activate. mem_same. Qed.
Lemma same_setup pid entry slide stack irq_stack : mem_same (Loading.setup_process canary pid entry slide stack irq_stack).
Proof. unfold Loading.setup_process. mem_same. Qed.
Hint Resolve same_activate same_setup : mem.

Lemma isolates_load_sent image len :
  mem_keeps (load_sent_elf regions shared_peripherals parse_elf rand image len).
Proof.
  intros k Hk. unfold load_sent_elf. set (s := mkLoad k _).
  assert (load_keeps (load_elf regions shared_peripherals parse_elf rand RAW_ELF_TEMPORARY_ADDRESS len)) as H.
  { unfold load_elf. apply load_bind; [apply load_kernel; mem_keeps|]. intros mapping. by apply isolates_load_elf_in. }
  specialize (H s Hk). by destruct (load_elf _ _ _ _ _ _ s) as [s' r].
Qed.
Lemma isolates_splash pid pages :
  pid <> 1 -> Forall is_u32 pages -> mem_keeps (move_splash_pages regions shared_peripherals pid pages).
Proof.
  intros Hne Hp. induction Hp as [|a pages Ha _ IH]; cbn [move_splash_pages]; [mem_keeps|]. apply mem_bind; [|done].
  eapply isolates_lift. intros permitted s Hs. apply move_page_spec; [done|apply Hs|done|done].
Qed.
Lemma isolates_create pid init :
  pid <> 1 -> mem_keeps (create regions shared_peripherals user_memory parse_elf rand canary pid init).
Proof.
  intros Hne. unfold create. mem_keeps; try by apply isolates_send_memory.
  all: try by apply isolates_map_range.
  - apply isolates_load_sent.
  - apply isolates_splash; [done|]. apply list.Forall_forall. intros addr (n & Hn & ->)%elem_of_pages_of.
    apply pages_of_bound in Hn. unfold BOOT_SPLASH_FB, BOOT_SPLASH_PAGES, PAGE_SIZE, is_u32 in *. lia.
Qed.

(** A process gets a slot that is free, which is not the one of process 1. *)
Lemma free_pid_spec k pid :
  free_pid k = Some pid -> 1 <= pid <= MAX_PROCESS_COUNT /\ k_processes k !! pid = None /\ k_panic_pid k <> Some pid.
Proof.
  unfold free_pid. intros H. apply List.find_some in H as [Hin H]. apply list_elem_of_In, elem_of_seqZ in Hin.
  apply andb_prop in H as [H1 H2]. rewrite negb_true_iff, bool_decide_eq_false in H1, H2.
  split; [lia|]. split; [by apply eq_None_not_Some|done].
Qed.
Lemma kept_create_process init k :
  isolated (k_mem k) -> is_Some (k_processes k !! 1) -> kept (create_process init k).
Proof.
  intros Hi H1. unfold Loading.create_process. unfold st_bind at 1, current_pid. unfold st_bind at 1, st_get.
  destruct (free_pid k) as [pid|] eqn:Ef; [|done]. cbn [ok_or]. apply free_pid_spec in Ef as (_ & Hnone & _).
  assert (pid <> 1) as Hne by (intros ->; rewrite Hnone in H1; by destruct H1).
  rewrite (run_bind (st_lift (Ok pid)) _ k k pid eq_refl). apply isolates_kept; [|done]. unfold expect_ok.
  mem_keeps; [|by apply isolates_create]. apply mem_lift. intros _ s Hs. by apply allocate_mapping_spec.
Qed.

(** The calls covered. *)
Definition keeps_apart (k : Kernel) (call : SysCall) : Prop :=
  match call with
  | DestroyServer _ | TerminateProcess _ | TerminatePid _ _ | MirrorMemoryToPid _ _ => False
  | CreateProcess _ => is_Some (k_processes k !! 1)
  | ReturnMemory _ buf _ _ => still_mapped k buf
  | _ => True
  end.

Lemma isolates_handle_services tid call k :
  keeps_apart k call -> mem_keeps (handle_services regions shared_peripherals usage random tid call).
Proof.
  intros Hc. unfold handle_services. apply mem_bind; [mem_keeps|intros pid].
  destruct call; cbn in Hc; try done; mem_keeps; by apply isolates_create_server.
Qed.

Lemma kept_handle_messages tid call k :
  isolated (k_mem k) -> wf_syscall call -> keeps_apart k call ->
  kept (handle_messages regions shared_peripherals usage random tid call k).
Proof.
  intros Hi Hwf Hc. destruct call; cbn [handle_messages];
    try (apply isolates_kept; [by eapply isolates_handle_services|done]);
    try (apply isolates_kept; [by mem_keeps|done]).
  - apply isolates_kept; [|done]. apply isolates_send_call, Hwf.
  - apply isolates_kept; [|done]. mem_keeps. apply isolates_send_message, Hwf.
  - apply kept_return_call; [done| |done]. destruct Hwf as ([_ Hsize] & _). unfold is_nonzero in Hsize. lia.
Qed.

Lemma kept_handle_memory tid call k :
  isolated (k_mem k) -> wf_syscall call -> keeps_apart k call ->
  kept (handle_memory regions shared_peripherals usage random debug_output tid call k).
Proof.
  intros Hi Hwf Hc. unfold handle_memory. unfold st_bind at 1, current_pid.
  destruct call; try (by apply kept_handle_messages);
    try (apply isolates_kept; [by mem_keeps|done]).
  - apply isolates_kept; [by apply isolates_map_memory|done].
  - apply isolates_kept; [by apply isolates_unmap_memory|done].
  - apply isolates_kept; [|done]. mem_keeps. by apply isolates_back_pages.
Qed.

Lemma kept_handle_call tid call k :
  isolated (k_mem k) -> wf_syscall call -> keeps_apart k call ->
  kept (handle_call regions shared_peripherals usage user_memory random debug_output utf8 create_process tid call k).
Proof.
  intros Hi Hwf Hc. unfold handle_call. unfold st_bind at 1, current_pid.
  destruct call; try (by apply kept_handle_memory); try (apply isolates_kept; [by mem_keeps|done]).
  apply kept_bind; [by apply kept_create_process|intros; mem_keeps].
Qed.

Lemma kept_handle tid call k :
  isolated (k_mem k) -> wf_syscall call -> keeps_apart k call ->
  kept (handle regions shared_peripherals usage user_memory random debug_output utf8 create_process tid call k).
Proof.
  intros Hi Hwf Hc. unfold handle. destruct (_ && _); [done|]. pose proof (check_syscall_reads call k) as Hk.
  unfold st_bind. destruct (check_syscall_permission call k) as [k' [[]|e|]]; cbn in Hk; subst k'; [|done..].
  by apply kept_handle_call.
Qed.

(** ** The traps *)

Context (period : Z).
Lemma same_current_thread : mem_same current_thread.
Proof. unfold current_thread. mem_same. Qed.
Lemma same_update_current f : mem_same (update_current_thread f).
Proof. unfold update_current_thread. mem_same. Qed.
Hint Resolve same_current_thread same_update_current : mem.
Lemma same_user_mode : mem_same assert_user_mode.
Proof. unfold assert_user_mode. mem_same. Qed.
Hint Resolve same_user_mode : mem.

Lemma isolates_ensure_backed address : mem_keeps (ensure_backed_current address).
Proof.
  unfold ensure_backed_current. mem_keeps. apply mem_lift. intros permitted s Hs.
  eapply isolated_ends; [done|]. by eapply ensure_backed_spec, Hs.
Qed.
Lemma same_tc0 : mem_same (tc0_interrupt_handler usage period).
Proof. unfold tc0_interrupt_handler. mem_same. Qed.
Hint Resolve same_tc0 : mem.

(** The trap ends the process that runs. *)
Definition crashes (k : Kernel) (t : trap) : bool :=
  match t with
  | TrapUndef _ => true
  | TrapAbort ifar cause dfar _ =>
      negb (ifar =? EXIT_THREAD)
      && negb ((cause =? 7) && match ensure_backed_current (Z.land dfar (usize_not (PAGE_SIZE - 1))) k with
                               | (_, Done _) => true
                               | _ => false
                               end)
  | _ => false
  end.

Lemma reads_thread : same (fun k => k) current_thread.
Proof. apply same_bind; [done|]. intros k. apply same_unwrap. Qed.
Lemma reads_user_mode : same (fun k => k) assert_user_mode.
Proof. apply same_bind; [apply reads_thread|]. intros t. apply same_assert. Qed.

(** The traps covered: no crash, a call that is covered, in registers that hold words, and the
    interrupt of the page zeroer when it has a transfer in flight. *)
Definition trap_apart (k : Kernel) (t : trap) : Prop :=
  match t with
  | TrapSwi => forall th call, current_thread k = (k, Done th) -> decode (th_args th) = Ok call ->
      words_wf (th_args th) /\ keeps_apart k call
  | TrapIrq _ background _ => background = true -> zeroer_running (ms_mm (k_mem k)) = true
  | _ => crashes k t = false
  end.

Lemma kept_swi k :
  isolated (k_mem k) -> trap_apart k TrapSwi ->
  kept (swi_handler regions shared_peripherals usage user_memory random debug_output utf8 create_process k).
Proof.
  intros Hi Hc. unfold swi_handler. unfold st_bind at 1, st_get. pose proof (reads_user_mode k) as Hk. unfold st_bind at 1.
  destruct (assert_user_mode k) as [k' [[]|e|]]; cbn in Hk; subst k'; [|done..].
  pose proof (reads_thread k) as Hk. unfold st_bind at 1.
  destruct (current_thread k) as [k' [th|e|]] eqn:Et; cbn in Hk; subst k'; [|done..].
  destruct (decode (th_args th)) as [call|e] eqn:Ed.
  - destruct (Hc th call Et Ed) as [Hw Hcall]. apply kept_bind.
    + apply ends_try. eapply ends_mono; [apply (kept_handle (k_tid k) call); [done|by eapply decode_wf|done]|done|done].
    + intros r. mem_keeps.
  - apply isolates_kept; [|done]. mem_keeps.
Qed.

Lemma kept_abort ifar cause dfar msg k :
  isolated (k_mem k) -> crashes k (TrapAbort ifar cause dfar msg) = false ->
  kept (abort_handler regions shared_peripherals usage utf8 ifar cause dfar msg k).
Proof.
  intros Hi Hc. unfold abort_handler. pose proof (reads_user_mode k) as Hk. unfold st_bind at 1.
  destruct (assert_user_mode k) as [k' [[]|e|]]; cbn in Hk; subst k'; [|done..].
  unfold crashes in Hc. destruct (ifar =? EXIT_THREAD).
  - apply isolates_kept; [|done]. unfold expect_ok. mem_keeps. by apply isolates_thread_exited.
  - destruct (cause =? 7); [|done]. cbn [negb andb] in Hc. pose proof (isolates_ensure_backed (Z.land dfar (usize_not (PAGE_SIZE - 1))) k Hi) as Hb.
    unfold st_bind at 1, st_try. destruct (ensure_backed_current _ k) as [k' [[]|e|]]; [|done..]. apply isolates_kept; [|done]. mem_keeps.
Qed.

(** The transfer of the page zeroer is in flight when its interrupt comes. *)
Definition zeroing (background : bool) (s : MemState) : Prop :=
  isolated s /\ (background = true -> zeroer_running (ms_mm s) = true).
Lemma leads_zeroed : mem_leads (zeroing true) isolated (lift_mem (fun _ => lift_mm (zeroer_done regions))).
Proof.
  apply leads_lift. intros permitted s [Hi Hz].
  exact (mem_step_isolated regions shared_peripherals permitted Hregions s _ Hi (StepZeroed regions shared_peripherals permitted s (Hz eq_refl))).
Qed.
Lemma leads_keeps {A} background (m : KS A) : mem_keeps m -> mem_leads (zeroing background) isolated m.
Proof. intros Hm k [Hk _]. by apply Hm. Qed.
Lemma leads_irq pending background map_memory :
  mem_leads (zeroing background) isolated (irq_handler regions shared_peripherals usage period pending background map_memory).
Proof.
  unfold irq_handler. apply leads_after; [mem_same| |by intros s [? _]]. intros _.
  apply leads_after; [mem_same| |by intros s [? _]]. intros _. destruct pending as [irq|]; [|apply leads_keeps; mem_keeps].
  unfold expect_ok. apply leads_then; [|intros; mem_same]. apply leads_try. unfold irq_handle.
  apply leads_after; [mem_same| |by intros s [? _]]. intros k.
  apply leads_after; [mem_same| |by intros s [? _]]. intros [|pid pc arg|]; [apply leads_keeps; mem_keeps..|].
  unfold kernel_handler. destruct (irq =? irq_tc0); [apply leads_keeps; mem_keeps|].
  destruct (irq =? irq_xdmac1); [|apply leads_keeps; mem_keeps]. unfold xdmac_interrupt.
  intros k' Hk'. unfold st_bind. destruct background.
  - pose proof (leads_zeroed k' Hk') as Hz. destruct (lift_mem _ k') as [k1 [[]|e|]]; [|done..].
    destruct map_memory; [by apply isolates_map_zero_finished|done].
  - cbn. destruct map_memory; [by apply isolates_map_zero_finished, Hk'|apply Hk'].
Qed.
End Calls.
#[export] Hint Resolve same_create_thread same_wake_joining same_join_thread same_connect same_disconnect same_connected
  same_check_permission same_return_result same_receive same_lift_irq same_futex_wait same_resolve same_request_data
  same_connect_or_retry same_panic_message same_get_panic_message same_activate same_setup same_check_syscall
  same_current_thread same_update_current same_user_mode same_tc0 : mem.

(** The current thread runs, or traps: the kernel is entered, and left again for the thread that
    runs next; each with the user memory, the timer and the random numbers of that moment. *)
Inductive kernel_step (regions : list (Z * Z)) (shared_peripherals : list Z) : Kernel -> Kernel -> Prop :=
| StepRun cs t t' k :
    default contexts_new (k_contexts k !! k_current k) = cs -> cs !! Z.to_nat (k_tid k) = Some t -> runs t t' ->
    kernel_step regions shared_peripherals k
      (set_contexts (<[k_current k := <[Z.to_nat (k_tid k) := t']> cs]> (k_contexts k)) k)
| StepTrap usage period user_memory random debug_output utf8 parse_elf rand canary t k :
    trap_apart k t -> wf_parser parse_elf -> is_u32 rand ->
    kernel_step regions shared_peripherals k
      (handle_trap regions shared_peripherals usage period user_memory random debug_output utf8
        (create_process regions shared_peripherals user_memory utf8 parse_elf rand canary) t k).1.

(** C3: Through every history of [kernel_step]s from a kernel with isolated memory, every page of the
    RAM is mapped in at most one place of one process and that process owns it, and pages with
    page tables, pages waiting to be mapped and free pages are mapped nowhere.  The steps are the
    traps of running threads: system calls with any arguments, results and errors, the creation of
    processes from any image, the exit of threads, pages backed on demand, preemptions and
    interrupts, among them those that end the zeroing of pages.  No steps are the calls
    [DestroyServer], [TerminateProcess], [TerminatePid] and [MirrorMemoryToPid] and the crash of a
    process; [ReturnMemory] is one only while the pages are still mapped in the process that
    returns them, [CreateProcess] only while process 1 is there, and an interrupt of the page
    zeroer only while it has a transfer in flight ([trap_apart]).  Outside, a page that was
    lent on ends up in two processes ([IsolationOps.relent_page_returned]). *)
Theorem syscalls_isolated regions shared_peripherals k0 k :
  Forall (fun r => r.1 <= r.2) regions -> isolated (k_mem k0) ->
  rtc (kernel_step regions shared_peripherals) k0 k ->
  pages_apart (k_mem k).
Proof.
  intros Hr H0 Hrun. apply isolated_pages.
  induction Hrun as [|x y z Hxy _ IH]; [done|]. apply IH. clear IH.
  destruct Hxy as [cs t t' x Hcs Ht Hruns|usage period user_memory random debug_output utf8 parse rand canary t x Ht Hparse Hrand]; [done|].
  match goal with |- isolated (k_mem (fst ?r)) => enough (kept r) as H by (destruct r as [? [?|?|]]; exact H) end.
  destruct t as [|ifar cause dfar msg|msg|pending background map_memory]; cbn [handle_trap].
  - by apply kept_swi.
  - by apply kept_abort.
  - done.
  - apply (leads_kept (zeroing background)); [by apply leads_irq|done].
Qed.

Definition demo_thread (args : words8) : Thread := set_args (set_processor_mode Thread_default ModeUser) args.
Definition demo_kernel : Kernel :=
  mkKernel demo_mem {[2 := Process_new 2 1 (mkAppId []); 3 := Process_new 3 1 (mkAppId [])]}
    (repeat None MAX_SERVER_COUNT) requests_new Scheduler_initial irq_initial
    {[2 := <[1%nat := demo_thread (W8 0 0 0 0 0 0 0 0)]> contexts_new]} 2 1 [] None.
Definition demo_trap (t : trap) (k : Kernel) : Kernel :=
  (handle_trap [] [] 0 0 (fun _ _ => 0) (SID_from_u32 0 0 0 0) (fun _ _ => 0) (fun _ => true)
     (create_process [] [] (fun _ _ => 0) (fun _ => true) (fun _ => None) 0 0) t k).1.
(** Process 2 calls [MapMemory] for a page. *)
Definition demo_calling : Kernel :=
  set_contexts (<[2 := <[1%nat := demo_thread (as_args (MapMemory None (Some 0x30006000) PAGE_SIZE MF_W))]>
                        (<[1%nat := demo_thread (W8 0 0 0 0 0 0 0 0)]> contexts_new)]> (k_contexts demo_kernel)) demo_kernel.

Lemma syscalls_isolated_witness :
  exists k, rtc (kernel_step [] []) demo_kernel k /\ k = demo_trap TrapSwi demo_calling /\ pages_apart (k_mem k).
Proof.
  assert (rtc (kernel_step [] []) demo_kernel (demo_trap TrapSwi demo_calling)) as Hrun.
  { eapply rtc_l; [|eapply rtc_l; [|apply rtc_refl]].
    - by apply (StepRun [] [] (<[1%nat := demo_thread (W8 0 0 0 0 0 0 0 0)]> contexts_new) (demo_thread (W8 0 0 0 0 0 0 0 0))
        (demo_thread (as_args (MapMemory None (Some 0x30006000) PAGE_SIZE MF_W)))).
    - apply (StepTrap [] [] 0 0 (fun _ _ => 0) (SID_from_u32 0 0 0 0) (fun _ _ => 0) (fun _ => true) (fun _ => None) 0 0 TrapSwi);
        [|by intros|unfold is_u32; lia]. intros th call Eth Ecall. change (current_thread demo_calling = (demo_calling, Done th)) in Eth.
      assert ((current_thread demo_calling).2 = Done (demo_thread (as_args (MapMemory None (Some 0x30006000) PAGE_SIZE MF_W))))
        as E by reflexivity.
      rewrite Eth in E. cbn [snd] in E. injection E as ->.
      change (th_args (demo_thread ?a)) with a in *. vm_compute in Ecall. injection Ecall as <-.
      split; [|done]. vm_compute. intuition congruence. }
  exists (demo_trap TrapSwi demo_calling). split; [exact Hrun|]. split; [reflexivity|].
  apply (syscalls_isolated [] [] demo_kernel); [constructor|apply demo_isolated|exact Hrun].
Defined.
