(* ===== verification/WriteExecute.v ===== *)
(** * No page is writable and executable

    [wx_free s]: no entry of a page table, mapped or kept for a page on demand or lent, allows a
    page to be written and to be executed.  Every operation on the page tables keeps this, and so
    does every trap: nothing a process does - mapping and sharing memory, creating and ending
    processes, giving lent pages back in any state, crashing - makes a page writable and
    executable.  The operations the isolation of the memory ([KernelIsolation]) must leave out
    are included.

    [apart e] says it of an entry.  [gives P m] is the rule for a computation on the memory: it
    keeps [wx_free], and its value has [P]; the hint database [wx] holds what is known, and
    [wx_steps] follows a computation. *)
From stdpp Require Import fin_maps gmap.
From S2P Require Import Prelude Xous SysCall Permissions Server Scheduler Threads Connections.
From S2P Require Import PermissionRequests Irq Process MemManager PageTable Mapping Memory.
From S2P Require Import Isolation IsolationOps Kernel Services KernelRules Elf ElfImage Loading Syscalls Traps KernelIsolation.

(** ** Entries *)

Definition writable_executable (flags : Z) : bool := MemoryFlags_is_set flags (MemoryFlags_bitor MF_W MF_X).

Definition apart (e : L2TableEntry) : Prop :=
  match e with
  | L2Empty => True
  | L2Mapped d => Z.land d 3 <> 0 /\ (Z.testbit d 0 = true \/ Z.testbit d 9 = true)
  | L2Unmapped u => Z.land u 3 = 0 /\ Z.testbit u 5 && Z.testbit u 6 = false
  end.

Lemma is_set_bit flags n : 0 <= n -> MemoryFlags_is_set flags (2 ^ n) = Z.testbit flags n.
Proof.
  intros Hn. unfold MemoryFlags_is_set. apply eq_true_iff_eq. rewrite Z.eqb_eq. split; intros H.
  - rewrite <-(andb_true_r (Z.testbit flags n)), <-(Z.pow2_bits_true n) at 1 by done.
    by rewrite <-Z.land_spec, H, Z.pow2_bits_true.
  - apply Z.bits_inj'. intros i Hi. rewrite Z.land_spec, Z.pow2_bits_eqb by done.
    destruct (Z.eqb_spec n i) as [->|]; [by rewrite H|apply andb_false_r].
Qed.
Lemma writable_executable_bits flags : writable_executable flags = Z.testbit flags 2 && Z.testbit flags 3.
Proof.
  unfold writable_executable. rewrite <-!is_set_bit by done. unfold MemoryFlags_is_set, MemoryFlags_bitor.
  change MF_W with (2 ^ 2). change MF_X with (2 ^ 3). rewrite Z.land_lor_distr_r.
  apply eq_true_iff_eq. rewrite andb_true_iff, !Z.eqb_eq. split.
  - intros H. split; [apply (f_equal (fun x => Z.land x (2 ^ 2))) in H|apply (f_equal (fun x => Z.land x (2 ^ 3))) in H];
      rewrite Z.land_lor_distr_l, <-!Z.land_assoc in H; cbn in H; by rewrite Z.land_0_r, ?Z.lor_0_r in H.
  - by intros [-> ->].
Qed.

Lemma land_3 d : Z.land d 3 = 0 <-> Z.testbit d 0 = false /\ Z.testbit d 1 = false.
Proof.
  split.
  - intros H. split; [rewrite <-(andb_true_r (Z.testbit d 0)); change true with (Z.testbit 3 0)
                     |rewrite <-(andb_true_r (Z.testbit d 1)); change true with (Z.testbit 3 1)];
      by rewrite <-Z.land_spec, H.
  - intros [H0 H1]. apply Z.bits_inj'. intros i Hi. rewrite Z.land_spec, Z.bits_0.
    destruct (decide (i = 0)) as [->|]; [by rewrite H0|]. destruct (decide (i = 1)) as [->|]; [by rewrite H1|].
    change 3 with (Z.ones 2). rewrite Z.ones_spec_high by lia. apply andb_false_r.
Qed.
Lemma aligned_bit phys i : page_aligned phys = true -> 0 <= i < 12 -> Z.testbit phys i = false.
Proof.
  unfold page_aligned. intros H%Z.eqb_eq Hi. rewrite <-(andb_true_r (Z.testbit phys i)).
  rewrite <-(Z.ones_spec_low 12 i) by lia. change (Z.ones 12) with (PAGE_SIZE - 1). by rewrite <-Z.land_spec, H, Z.bits_0.
Qed.
Lemma ones_low_bit d i n : 0 <= i < n -> Z.testbit (Z.land d (Z.ones n)) i = Z.testbit d i.
Proof. intros Hi. rewrite Z.land_spec, Z.ones_spec_low by lia. apply andb_true_r. Qed.

(** The word of an entry stands for an entry of the same kind. *)
Lemma apart_word e : apart e -> apart (from_u32 (as_u32 e)).
Proof.
  destruct e as [|d|u]; cbn [as_u32 apart]; [done| |].
  - intros [H3 Hb]. unfold from_u32. destruct (d =? 0); [done|]. by destruct (Z.eqb_spec (Z.land d 3) 0).
  - intros [H3 Hb]. assert (forall i, 0 <= i < 32 -> Z.testbit (u32 u) i = Z.testbit u i) as Hu.
    { intros i Hi. unfold u32. by rewrite Z.mod_pow2_bits_low by lia. }
    unfold from_u32. destruct (u32 u =? 0); [done|].
    assert (Z.land (u32 u) 3 = 0) as E by (apply land_3; rewrite !Hu by lia; by apply land_3).
    rewrite E, Z.eqb_refl. cbn [apart]. by rewrite E, !Hu by lia.
Qed.

(** ** What the kernel writes *)

Lemma small_page_bits flags user low :
  let f := small_page_flags flags user low in
  Z.testbit f 0 = negb (Z.testbit flags 3) /\ Z.testbit f 1 = true /\ Z.testbit f 9 = negb (Z.testbit flags 2).
Proof.
  cbv zeta. rewrite <-!is_set_bit by done. change (2 ^ 2) with MF_W. change (2 ^ 3) with MF_X. unfold small_page_flags.
  destruct (MemoryFlags_is_set flags MF_W), (MemoryFlags_is_set flags MF_X), (MemoryFlags_is_set flags MF_DEV),
    (MemoryFlags_is_set flags MF_NO_CACHE), user, low; by vm_compute.
Qed.

Lemma apart_new_mapped virt phys flags user e :
  writable_executable flags = false -> new_mapped virt phys flags user = Done e -> apart e.
Proof.
  rewrite writable_executable_bits. intros Hf. unfold new_mapped, descriptor_new. destruct (negb _); [done|].
  destruct (_ =? 0); [|done]. intros [= <-]. destruct (small_page_bits flags user (virt <? TTBR1_SPLIT)) as (B0 & B1 & B9).
  cbn [apart]. rewrite !Z.lor_spec, B0, B9. split.
  - intros H. apply land_3 in H as [_ H]. rewrite Z.lor_spec, B1, orb_true_r in H. done.
  - destruct (Z.testbit flags 2), (Z.testbit flags 3); cbn in *; rewrite ?orb_true_r; auto; done.
Qed.

Lemma apart_new_on_demand phys flags user e :
  writable_executable flags = false -> new_on_demand phys flags user = Done e -> apart e.
Proof.
  rewrite writable_executable_bits. intros Hf. unfold new_on_demand. destruct (page_aligned phys) eqn:Ha; [|done]. intros [= <-].
  set (w := usize _). set (m := if user then _ else _).
  assert (forall i, 0 <= i < 32 -> Z.testbit w i = Z.testbit flags (i - 3)) as Hw.
  { intros i Hi. unfold w, usize. rewrite Z.mod_pow2_bits_low, Z.shiftl_spec by lia. done. }
  assert (forall i, i <> 2 -> 0 <= i -> Z.testbit m i = false) as Hm.
  { intros i Hi Hi0. unfold m. destruct user; [|apply Z.bits_0]. change MAP_USER_FLAG with (2 ^ 2).
    rewrite Z.pow2_bits_eqb by lia. by destruct (Z.eqb_spec 2 i). }
  cbn [apart]. rewrite !Z.lor_spec, !(aligned_bit phys), !Hw, !Hm by (done || lia). rewrite !orb_false_r. cbn [orb].
  change (5 - 3) with 2. change (6 - 3) with 3. split; [|by rewrite Hf]. apply land_3. rewrite !Z.lor_spec, !(aligned_bit phys), !Hw, !Hm by (done || lia).
  by rewrite !Z.testbit_neg_r by lia.
Qed.

(** The flags read from an entry. *)
Lemma apart_flags e flags : apart e -> entry_flags e = Done flags -> writable_executable flags = false.
Proof.
  rewrite writable_executable_bits. destruct e as [|d|u]; cbn [entry_flags apart]; [done| |].
  - intros [_ Hb]. destruct (get_addr d) as [phys|]; [|done]. intros [= <-].
    assert (forall n, 0 <= n < 16 -> (Z.land (get_flags d) (2 ^ n) =? 0) = negb (Z.testbit d n)) as Hn.
    { intros n Hn. rewrite <-(ones_low_bit d n 16) by lia. change (Z.land d (Z.ones 16)) with (get_flags d).
      rewrite <-is_set_bit by lia. unfold MemoryFlags_is_set.
      destruct (Z.eqb_spec (Z.land (get_flags d) (2 ^ n)) 0) as [E|E].
      - rewrite E. destruct (Z.eqb_spec 0 (2 ^ n)); [|done]. pose proof (Z.pow_pos_nonneg 2 n). lia.
      - destruct (Z.eqb_spec (Z.land (get_flags d) (2 ^ n)) (2 ^ n)) as [|E']; [done|]. exfalso.
        rewrite <-is_set_bit in * by lia. destruct (Z.testbit (get_flags d) n) eqn:Eb.
        + rewrite <-is_set_bit in Eb by lia. unfold MemoryFlags_is_set in Eb. lia.
        + apply E. apply Z.bits_inj'. intros i Hi. rewrite Z.land_spec, Z.pow2_bits_eqb, Z.bits_0 by lia.
          destruct (Z.eqb_spec n i) as [<-|]; [by rewrite Eb|apply andb_false_r]. }
    unfold decode_flags. change SP_AP2 with (2 ^ 9). change SP_XN with (2 ^ 0). rewrite !Hn by lia.
    destruct (Z.testbit d 9), (Z.testbit d 0); cbn [negb] in *; try (by destruct Hb);
      destruct (Z.land _ SP_C =? 0), (negb _), (is_address_in_plaintext_dram phys); by vm_compute.
  - intros [_ Hb] [= <-]. unfold MemoryFlags_from_bits. rewrite !Z.land_spec, !Z.shiftr_spec by lia.
    change (2 + UNMAPPED_FLAGS_OFFSET) with 5. change (3 + UNMAPPED_FLAGS_OFFSET) with 6.
    by destruct (Z.testbit u 5), (Z.testbit u 6).
Qed.

Lemma apart_to_mapped virt e e' : apart e -> to_mapped virt e = Done e' -> apart e'.
Proof.
  intros He. destruct e as [|d|u]; cbn [to_mapped]; [done|by intros [= <-]|].
  destruct (entry_phys (L2Unmapped u)) as [phys|?|]; [|done..]. cbn [out_bind].
  destruct (entry_flags (L2Unmapped u)) as [flags|?|] eqn:Ef; [|done..]. cbn [out_bind]. apply apart_new_mapped.
  by eapply apart_flags.
Qed.
Lemma apart_to_unmapped e e' : apart e -> to_unmapped e = Done e' -> apart e'.
Proof.
  intros He. destruct e as [|d|u]; cbn [to_unmapped]; [done| |by intros [= <-]].
  destruct (entry_phys (L2Mapped d)) as [phys|?|]; [|done..]. cbn [out_bind].
  destruct (entry_flags (L2Mapped d)) as [flags|?|] eqn:Ef; [|done..]. cbn [out_bind]. apply apart_new_on_demand.
  by eapply apart_flags.
Qed.
Lemma apart_to_immutable e e' : apart e -> to_immutable e = Done e' -> apart e'.
Proof.
  destruct e as [|d|u]; cbn [to_immutable apart]; [done| |]; intros [H3 Hb] [= <-]; cbn [apart].
  - rewrite !Z.lor_spec. rewrite land_3, !Z.lor_spec in *. change (Z.testbit SP_AP2 0) with false.
    change (Z.testbit SP_AP2 1) with false. change (Z.testbit SP_AP2 9) with true. rewrite !orb_false_r, orb_true_r. auto.
  - rewrite land_3, !Z.land_spec in *. destruct H3 as [-> ->]. split; [done|].
    by destruct (Z.testbit u 5), (Z.testbit u 6).
Qed.
Lemma apart_with_phys phys e e' : apart e -> with_phys phys e = Done e' -> apart e'.
Proof.
  intros He. unfold with_phys. destruct (page_aligned phys) eqn:Ha; [|done]. cbn [negb].
  destruct e as [|d|u]; [done| |]; cbn [apart] in He; destruct He as [H3 Hb].
  - unfold descriptor_new. destruct (_ =? 0); [|done]. intros [= <-]. cbn [apart]. change 0xffff with (Z.ones 16) in *.
    rewrite land_3, !Z.lor_spec in *. unfold get_flags. change 0xffff with (Z.ones 16). rewrite !ones_low_bit by lia.
    rewrite !(aligned_bit phys) by (done || lia). cbn [orb]. auto.
  - intros [= <-]. cbn [apart]. change (PAGE_SIZE - 1) with (Z.ones 12). rewrite land_3, !Z.lor_spec in *.
    rewrite !ones_low_bit, !(aligned_bit phys) by (done || lia). by rewrite !orb_false_r.
Qed.

(** ** The page tables *)

Definition wx_free (s : MemState) : Prop :=
  forall pid m pn w, ms_maps s !! pid = Some m -> l2 m !! pn = Some w -> apart (from_u32 w).

Definition gives {A} (P : A -> Prop) (m : MS A) : Prop :=
  forall s, wx_free s -> ends (fun a s' => P a /\ wx_free s') wx_free (m s).
Abbreviation wx_keeps := (gives (fun _ => True)).

Create HintDb wx.

Section Gives.
Context {A : Type}.
Lemma gives_bind {B} (P : A -> Prop) (Q : B -> Prop) (m : MS A) (f : A -> MS B) :
  gives P m -> (forall a, P a -> gives Q (f a)) -> gives Q (st_bind m f).
Proof.
  intros Hm Hf s Hs. apply ends_bind. eapply ends_mono; [by apply Hm| |done]. intros a s' [Ha Hs']. by apply Hf.
Qed.
Lemma gives_ret (P : A -> Prop) a : P a -> gives P (st_ret a). Proof. by intros Ha s Hs. Qed.
Lemma gives_fail (P : A -> Prop) e : gives P (st_fail e). Proof. by intros s Hs. Qed.
Lemma gives_panic (P : A -> Prop) : gives P st_panic. Proof. by intros s Hs. Qed.
Lemma gives_lift (P : A -> Prop) (r : result Error A) : (forall a, r = Ok a -> P a) -> gives P (st_lift r).
Proof. intros H s Hs. destruct r; [by split; [apply H|]|done]. Qed.
Lemma gives_outcome (P : A -> Prop) (o : outcome Error A) : (forall a, o = Done a -> P a) -> gives P (st_outcome o).
Proof. intros H s Hs. destruct o; [by split; [apply H|]|done..]. Qed.
Lemma gives_try (m : MS A) : wx_keeps m -> wx_keeps (st_try m).
Proof. intros Hm s Hs. apply ends_try. eapply ends_mono; [by apply Hm|done|done]. Qed.
Lemma gives_mm (m : MM A) : wx_keeps (lift_mm m).
Proof. intros s Hs. unfold lift_mm. by destruct (m (ms_mm s)) as [mm [a|e|]]. Qed.
Lemma gives_reads (m : MS A) : reads m -> wx_keeps m.
Proof. intros Hm s Hs. specialize (Hm s). destruct (m s) as [s' [a|e|]]; cbn in Hm; by subst. Qed.
Lemma gives_state (m : MS A) : wx_keeps m -> forall s, wx_free s -> wx_free (m s).1.
Proof. intros Hm s Hs. specialize (Hm s Hs). destruct (m s) as [s' [a|e|]]; cbn in *; [by destruct Hm|done..]. Qed.
End Gives.
Lemma gives_get : wx_keeps st_get. Proof. by intros s Hs. Qed.
Lemma gives_assert b : wx_keeps (st_assert b). Proof. intros s Hs. by destruct b. Qed.
Lemma gives_modify f : (forall s, wx_free s -> wx_free (f s)) -> wx_keeps (st_modify f).
Proof. intros H s Hs. by split; [|apply H]. Qed.

Lemma gives_read pid pn : gives apart (read_slot pid pn).
Proof.
  intros s Hs. unfold read_slot, mapping_of, st_bind, st_get. destruct (ms_maps s !! pid) as [m|] eqn:Em; [|done].
  cbn. split; [|done]. destruct (l2 m !! pn) as [w|] eqn:Ew; [by eapply Hs|done].
Qed.
Lemma gives_write pid pn e : apart e -> wx_keeps (write_slot pid pn e).
Proof.
  intros He. apply gives_modify. intros s Hs q m n w Hm Hw. cbn in Hm. destruct (decide (q = pid)) as [->|Hne].
  - rewrite lookup_alter_eq in Hm. destruct (ms_maps s !! pid) as [m0|] eqn:E; [|done]. injection Hm as <-. cbn in Hw.
    destruct (decide (n = pn)) as [->|Hn].
    + rewrite lookup_insert_eq in Hw. injection Hw as <-. by apply apart_word.
    + rewrite lookup_insert_ne in Hw by done. by eapply Hs.
  - rewrite lookup_alter_ne in Hm by done. by eapply Hs.
Qed.
Lemma gives_add_group pid vpn1 phys : wx_keeps (st_modify (with_maps (alter (add_group vpn1 phys) pid))).
Proof.
  apply gives_modify. intros s Hs q m n w Hm Hw. cbn in Hm. destruct (decide (q = pid)) as [->|Hne].
  - rewrite lookup_alter_eq in Hm. destruct (ms_maps s !! pid) as [m0|] eqn:E; [|done]. injection Hm as <-. cbn in Hw.
    apply map_lookup_filter_Some in Hw as [Hw _]. by eapply Hs.
  - rewrite lookup_alter_ne in Hm by done. by eapply Hs.
Qed.
Lemma gives_mapping pid : wx_keeps (mapping_of pid).
Proof. intros s Hs. unfold mapping_of, st_bind, st_get. by destruct (ms_maps s !! pid). Qed.
#[export] Hint Resolve gives_mm gives_get gives_assert gives_mapping gives_add_group : wx.

(** An entry that is read, or made of one, is [apart]. *)
Ltac wx_step :=
  first
    [ solve [auto with wx]
    | simple apply gives_ret; exact I
    | simple apply gives_fail
    | simple apply gives_panic
    | simple apply gives_lift; done
    | simple apply (gives_bind apart); [simple apply gives_read|intros ? ?]
    | match goal with
      | |- gives _ (st_bind (st_outcome ?o) _) =>
          simple apply (gives_bind (fun a => o = Done a)); [by apply gives_outcome|intros ? ?]
      end
    | simple apply (gives_bind (fun _ => True)); [|intros ? _]
    | simple apply gives_try
    | simple apply gives_outcome; done
    | simple apply gives_write; solve [done|eauto using apart_to_mapped, apart_to_unmapped, apart_with_phys]
    | match goal with
      | |- gives _ (match ?x with _ => _ end) => destruct x
      | |- gives _ (if ?x then _ else _) => destruct x
      | |- gives _ (let '(_, _) := ?x in _) => destruct x
      end ].
Ltac wx_steps := repeat wx_step.

Lemma gives_get_slot pid addr : wx_keeps (get_l2_slot pid addr).
Proof. apply gives_reads, reads_get_l2_slot. Qed.
Lemma gives_virt_to_phys pid addr : wx_keeps (virt_to_phys pid addr).
Proof. apply gives_reads, reads_virt_to_phys. Qed.
#[export] Hint Resolve gives_get_slot gives_virt_to_phys : wx.
Lemma gives_allocate_slot pid virt : wx_keeps (allocate_l2_slot pid virt).
Proof. unfold allocate_l2_slot. wx_steps. Qed.
#[export] Hint Resolve gives_allocate_slot : wx.
Lemma gives_allocate_mapping pid : wx_keeps (allocate_mapping pid).
Proof.
  unfold allocate_mapping. wx_steps. apply gives_modify. intros s' Hs q m n w Hm Hw. cbn in Hm.
  apply lookup_insert_Some in Hm as [[_ <-]|[_ Hm]]; [by apply (lookup_empty_Some (M:=gmap Z) n w) in Hw|by eapply Hs].
Qed.
Lemma gives_destroy_mapping pid : wx_keeps (destroy_mapping pid).
Proof.
  apply gives_modify. intros s Hs q m n w Hm Hw. cbn in Hm. apply lookup_delete_Some in Hm as [_ Hm]. by eapply Hs.
Qed.
Lemma gives_map_page pid phys virt flags user : wx_keeps (map_page pid phys virt flags user).
Proof.
  unfold map_page. fold (writable_executable flags). destruct (writable_executable flags) eqn:Hf; [wx_steps|].
  apply (gives_bind apart); [|intros e He; wx_steps]. apply gives_outcome. intros e E.
  destruct (negb (phys =? 0)); [by eapply apart_new_mapped|by eapply apart_new_on_demand].
Qed.
Lemma gives_unmap_page pid virt : wx_keeps (unmap_page pid virt).
Proof. unfold unmap_page. wx_steps. Qed.
Lemma gives_backing_page pid slot virt e : apart e -> wx_keeps (allocate_backing_page pid slot virt e).
Proof.
  intros He. unfold allocate_backing_page. wx_steps. apply gives_write.
  destruct (with_phys _ e) as [e'|?|] eqn:E; [|done..]. cbn [out_bind] in *. by eauto using apart_to_mapped, apart_with_phys.
Qed.
#[export] Hint Resolve gives_allocate_mapping gives_destroy_mapping gives_map_page gives_unmap_page gives_backing_page : wx.
Lemma gives_ensure_backed pid virt : wx_keeps (ensure_backed pid virt).
Proof. unfold ensure_backed. wx_steps. Qed.
Lemma gives_source pid addr : gives (fun r => apart r.2) (source_entry pid addr).
Proof.
  unfold source_entry. wx_steps; try by apply gives_ret.
Qed.
Lemma gives_clear_shared pid addr mode : wx_keeps (clear_shared pid addr mode).
Proof. unfold clear_shared. wx_steps. Qed.
Lemma gives_entry_move src sa dest da : wx_keeps (Mapping.move_page src sa dest da).
Proof.
  unfold Mapping.move_page. eapply gives_bind; [apply gives_source|]. intros [slot e] He. cbn in He. wx_steps.
Qed.
Lemma gives_entry_lend src sa dest da mutable : wx_keeps (Mapping.lend_page src sa dest da mutable).
Proof.
  unfold Mapping.lend_page. eapply gives_bind; [apply gives_source|]. intros [slot e] He. cbn in He.
  destruct (negb (is_mapped e)); [wx_steps|]. apply (gives_bind (fun _ => True)); [wx_steps|intros dest_slot _].
  apply (gives_bind (fun e' => to_unmapped e = Done e')); [by apply gives_outcome|intros shared Hs].
  apply (gives_bind (fun _ => True)); [wx_steps|intros _ _]. apply (gives_bind apart); [|intros; wx_steps].
  destruct mutable; [by apply gives_ret|]. apply gives_outcome. intros e'. by apply apart_to_immutable.
Qed.
Lemma gives_entry_return src sa dest da : wx_keeps (Mapping.return_page src sa dest da).
Proof. unfold Mapping.return_page. wx_steps. Qed.
#[export] Hint Resolve gives_ensure_backed gives_clear_shared gives_entry_move gives_entry_lend gives_entry_return : wx.

(** ** Memory of processes *)

Section Board.
Context (regions : list (Z * Z)) (shared_peripherals : list Z).

Section Permitted.
Context (permitted : Z -> Z -> result Error unit).

Lemma gives_move_page src sa dest da : wx_keeps (Memory.move_page regions shared_peripherals permitted src sa dest da).
Proof. unfold Memory.move_page, transfer_owner. wx_steps. Qed.
Lemma gives_lend_page src sa dest da mutable :
  wx_keeps (Memory.lend_page regions shared_peripherals permitted src sa dest da mutable).
Proof. unfold Memory.lend_page, transfer_owner. wx_steps. Qed.
Lemma gives_unlend_page src sa dest da : wx_keeps (unlend_page regions shared_peripherals permitted src sa dest da).
Proof. unfold unlend_page, transfer_owner. wx_steps. Qed.
Hint Resolve gives_move_page gives_lend_page gives_unlend_page : wx.

Lemma gives_unmap_pages pid pages : wx_keeps (unmap_pages pid pages).
Proof. induction pages as [|page pages IH]; cbn [unmap_pages]; wx_steps. Qed.
Hint Resolve gives_unmap_pages : wx.
Lemma gives_map_offsets pid phys virt size flags user mapped offsets :
  wx_keeps (map_offsets regions shared_peripherals permitted pid phys virt size flags user mapped offsets).
Proof. revert mapped. induction offsets as [|o offsets IH]; intros mapped; cbn [map_offsets]; wx_steps. Qed.
Hint Resolve gives_map_offsets : wx.
Lemma gives_map_allocated pid phys virt size flags user :
  wx_keeps (map_allocated_range regions shared_peripherals permitted pid phys virt size flags user).
Proof. unfold map_allocated_range. wx_steps. Qed.
Hint Resolve gives_map_allocated : wx.
Lemma gives_map_range pid find phys size flags user :
  wx_keeps (Memory.map_range regions shared_peripherals permitted pid find phys size flags user).
Proof. unfold Memory.map_range. wx_steps. Qed.
Lemma gives_unmap_addresses pid result pages :
  wx_keeps (unmap_addresses regions shared_peripherals permitted pid result pages).
Proof. revert result. induction pages as [|page pages IH]; intros result; cbn [unmap_addresses]; wx_steps. Qed.
Hint Resolve gives_unmap_addresses : wx.
Lemma gives_unmap_range pid virt len : wx_keeps (Memory.unmap_range regions shared_peripherals permitted pid virt len).
Proof. unfold Memory.unmap_range. wx_steps. Qed.
Lemma gives_mirror_offsets pid phys virt mapped offsets : wx_keeps (mirror_offsets pid phys virt mapped offsets).
Proof. revert mapped. induction offsets as [|o offsets IH]; intros mapped; cbn [mirror_offsets]; wx_steps. Qed.
Hint Resolve gives_mirror_offsets : wx.
Lemma gives_mirror pid virt phys size : wx_keeps (map_range_readonly_mirror pid virt phys size).
Proof. unfold map_range_readonly_mirror. wx_steps. Qed.

Lemma gives_expect m : wx_keeps m -> wx_keeps (expect m).
Proof. intros Hm. unfold expect. wx_steps. Qed.
Lemma gives_transfer_pages transfer undo sent offsets :
  (forall o, wx_keeps (transfer o)) -> (forall o, wx_keeps (undo o)) -> wx_keeps (transfer_pages transfer undo sent offsets).
Proof.
  intros Ht Hu. assert (forall os, wx_keeps (undo_pages undo os)) as Hundo.
  { induction os as [|o os IH]; cbn [undo_pages]; wx_steps. by apply gives_expect. }
  revert sent. induction offsets as [|o offsets IH]; intros sent; cbn [transfer_pages]; wx_steps.
Qed.
Lemma gives_send_pages current src dest_pid dest len :
  wx_keeps (send_pages regions shared_peripherals permitted current src dest_pid dest len).
Proof. unfold send_pages, assert_aligned. wx_steps. apply gives_transfer_pages; intros; wx_steps. Qed.
Lemma gives_lend_pages current src dest_pid dest len mutable :
  wx_keeps (lend_pages regions shared_peripherals permitted current src dest_pid dest len mutable).
Proof. unfold lend_pages, assert_aligned. wx_steps. apply gives_transfer_pages; intros; wx_steps. Qed.
Lemma gives_return_pages current src dest_pid dest error offsets :
  wx_keeps (return_pages regions shared_peripherals permitted current src dest_pid dest error offsets).
Proof.
  revert error. induction offsets as [|o offsets IH]; intros error; cbn [return_pages]; unfold assert_aligned; wx_steps.
Qed.
Lemma gives_back_pages pid pages : wx_keeps (back_pages pid pages).
Proof. induction pages as [|page pages IH]; cbn [back_pages]; wx_steps. Qed.
Hint Resolve gives_back_pages : wx.
Lemma gives_back_range pid virt len : wx_keeps (back_range pid virt len).
Proof. unfold back_range. wx_steps. Qed.
Lemma gives_clear_range pid addr len mode : wx_keeps (Memory.clear_shared_range pid addr len mode).
Proof.
  unfold Memory.clear_shared_range. generalize (map (fun o => usize (addr + o)) (pages_of 0 len)). intros pages.
  induction pages as [|page pages IH]; cbn [clear_shared_pages]; wx_steps. apply gives_expect. wx_steps.
Qed.
End Permitted.
End Board.
#[export] Hint Resolve gives_move_page gives_map_allocated gives_map_range gives_unmap_range gives_mirror gives_send_pages
  gives_lend_pages gives_return_pages gives_back_pages gives_back_range gives_clear_range : wx.

(** ** The kernel *)

Abbreviation wx_inv := (mem_inv wx_free).

Lemma wx_lift {A} (m : (Z -> Z -> result Error unit) -> MS A) :
  (forall permitted, wx_keeps (m permitted)) -> wx_inv (lift_mem m).
Proof. intros Hm. apply mem_lift. intros permitted. by apply gives_state. Qed.
#[export] Hint Extern 2 (mem_leads wx_free wx_free (lift_mem _)) => apply wx_lift; intros; solve [wx_steps] : mem.

Section Kernel.
Context (regions : list (Z * Z)) (shared_peripherals : list Z) (usage : Z).

Lemma wx_map_range phys virt size flags user : wx_inv (map_range regions shared_peripherals phys virt size flags user).
Proof. unfold map_range. mem_keeps. Qed.
Lemma wx_unmap_range virt len : wx_inv (unmap_range regions shared_peripherals virt len).
Proof. unfold unmap_range. mem_keeps. Qed.
Lemma wx_send_memory src dest virt len : wx_inv (send_memory regions shared_peripherals src dest virt len).
Proof. unfold send_memory. mem_keeps. Qed.
Lemma wx_lend_memory src dest virt len mutable : wx_inv (lend_memory regions shared_peripherals src dest virt len mutable).
Proof. unfold lend_memory. mem_keeps. Qed.
Lemma wx_return_memory src dest virt len : wx_inv (return_memory regions shared_peripherals src dest virt len).
Proof. unfold return_memory. mem_keeps. Qed.
Lemma wx_clear_shared pid addr len mode : wx_inv (clear_shared_range pid addr len mode).
Proof. unfold clear_shared_range. mem_keeps. Qed.
Hint Resolve wx_map_range wx_unmap_range wx_send_memory wx_lend_memory wx_return_memory wx_clear_shared : mem.

Lemma wx_set_mm f : wx_inv (lift_mem (fun _ => st_modify (with_mm f))).
Proof. apply wx_lift. intros. by apply gives_modify. Qed.
Hint Resolve wx_set_mm : mem.
Lemma wx_deferred tid virt size flags :
  wx_inv (map_with_deferred_zeroing regions shared_peripherals usage tid virt size flags).
Proof. unfold map_with_deferred_zeroing. mem_keeps. Qed.
Lemma wx_cancel : wx_inv (lift_mem (fun _ => cancel_map_zero)).
Proof. apply wx_set_mm. Qed.
Hint Resolve wx_deferred wx_cancel : mem.
Lemma wx_map_zero_finished : wx_inv (map_zero_finished regions shared_peripherals usage).
Proof. unfold map_zero_finished. mem_keeps. Qed.
Lemma wx_thread_exited tid : wx_inv (thread_exited regions shared_peripherals usage tid).
Proof.
  unfold thread_exited. pose proof same_wake_joining. mem_keeps.
Qed.
Lemma wx_create_server sid initial : wx_inv (create_server_with_address regions shared_peripherals sid initial).
Proof. unfold create_server_with_address. mem_keeps. Qed.
Hint Resolve wx_map_zero_finished wx_thread_exited wx_create_server : mem.

(** ** The end of servers and processes *)

#[local] Instance ops : SystemOps Kernel := kernel_ops regions shared_peripherals.
Lemma wx_safe {A} (m : KS A) k : wx_inv m -> wx_free (k_mem k) -> safe (fun _ k' => wx_free (k_mem k')) (fun k' => wx_free (k_mem k')) (m k).
Proof. intros Hm Hk. specialize (Hm k Hk). unfold safe. by destruct (m k) as [k' [a|e|]]. Qed.
Lemma kernel_ops_wx : ops_keep (fun k => wx_free (k_mem k)).
Proof.
  split; intros *.
  - eapply (run_op_inv (fun k => wx_free (k_mem k))). intros k. apply wx_safe. mem_keeps.
  - eapply (run_unwrap_inv (fun k => wx_free (k_mem k))). intros k. apply wx_safe. mem_keeps.
  - eapply (run_unwrap_inv (fun k => wx_free (k_mem k))). intros k. apply wx_safe. mem_keeps.
  - eapply (run_unwrap_inv (fun k => wx_free (k_mem k))). intros k. apply wx_safe. mem_keeps.
  - eapply (run_op_inv (fun k => wx_free (k_mem k))). intros k. apply wx_safe. mem_keeps.
Qed.
Lemma same_tombstone sidx pids : mem_same (tombstone_connections sidx pids).
Proof. induction pids as [|pid pids IH]; cbn [tombstone_connections]; mem_same. Qed.
Lemma wx_destroy_sidx sidx : wx_inv (destroy_sidx regions shared_peripherals sidx).
Proof.
  unfold destroy_sidx. pose proof same_tombstone.
  do 5 (apply mem_bind; [mem_keeps|intros]). intros k0 Hk0. unfold st_bind at 1, st_get.
  destruct (Server.destroy _ _ _ k0) as [k1|] eqn:E; [|done]. unfold st_unwrap, st_ret, st_bind, st_put.
  apply (destroy_keeps _ kernel_ops_wx) in E; [|done]. by rewrite same_tombstone.
Qed.
Hint Resolve wx_destroy_sidx : mem.
Lemma wx_leave_servers pid sidxs : wx_inv (leave_servers regions shared_peripherals pid sidxs).
Proof. induction sidxs as [|sidx sidxs IH]; cbn [leave_servers]; mem_keeps. Qed.
Lemma same_notify event sidxs : mem_same (notify_servers event sidxs).
Proof. induction sidxs as [|sidx sidxs IH]; cbn [notify_servers]; mem_same. Qed.
Lemma same_drop_requests pred : mem_same (drop_requests pred).
Proof. unfold drop_requests. mem_same. Qed.
Lemma wx_terminate pid : wx_inv (terminate regions pid).
Proof. unfold terminate. mem_keeps. Qed.
Lemma same_free_process pid : mem_same (free_process pid).
Proof. done. Qed.
Hint Resolve wx_leave_servers same_notify same_drop_requests wx_terminate same_free_process : mem.
Lemma wx_terminate_current ret : wx_inv (terminate_current_process regions shared_peripherals usage ret).
Proof. unfold terminate_current_process. mem_keeps. Qed.
Hint Resolve wx_terminate_current : mem.
Lemma wx_terminate_process tid pid ret : wx_inv (terminate_process regions shared_peripherals usage tid pid ret).
Proof. unfold terminate_process. mem_keeps. Qed.
Hint Resolve wx_terminate_process : mem.

(** ** The calls *)

Lemma wx_transfer server_pid message : wx_inv (transfer_message regions shared_peripherals server_pid message).
Proof. unfold transfer_message, with_message_buf. mem_keeps. Qed.
Hint Resolve wx_transfer : mem.
Lemma wx_send_message tid cid message : wx_inv (send_message regions shared_peripherals usage tid cid message).
Proof. unfold send_message, send_message_inner. mem_keeps. Qed.
Hint Resolve wx_send_message : mem.
Lemma wx_send_call tid cid message : wx_inv (send_message_call regions shared_peripherals usage tid cid message).
Proof. unfold send_message_call. mem_keeps. Qed.
Lemma wx_return_call tid sender buf offset valid :
  wx_inv (return_memory_call regions shared_peripherals usage tid sender buf offset valid).
Proof. unfold return_memory_call. mem_keeps. Qed.
Lemma wx_map_memory tid phys virt size flags : wx_inv (map_memory regions shared_peripherals usage tid phys virt size flags).
Proof. unfold map_memory. mem_keeps. Qed.
Lemma wx_unmap_memory range : wx_inv (unmap_memory regions shared_peripherals range).
Proof. unfold unmap_memory. mem_keeps. Qed.
Lemma same_contiguous pid expected pages : mem_same (check_contiguous pid expected pages).
Proof. revert expected. induction pages as [|page pages IH]; intros expected; cbn [check_contiguous]; mem_same. Qed.
Hint Resolve wx_send_call wx_return_call wx_map_memory wx_unmap_memory same_contiguous : mem.
Lemma wx_mirror mem pid : wx_inv (mirror_memory_to_pid mem pid).
Proof. unfold mirror_memory_to_pid. mem_keeps. Qed.
Hint Resolve wx_mirror : mem.

Lemma wx_handle_services random tid call : wx_inv (handle_services regions shared_peripherals usage random tid call).
Proof. unfold handle_services, destroy_server. mem_keeps. Qed.
Hint Resolve wx_handle_services : mem.
Lemma wx_handle_messages random tid call : wx_inv (handle_messages regions shared_peripherals usage random tid call).
Proof. unfold handle_messages. mem_keeps. Qed.
Hint Resolve wx_handle_messages : mem.
Lemma wx_handle_memory random debug_output tid call :
  wx_inv (handle_memory regions shared_peripherals usage random debug_output tid call).
Proof. unfold handle_memory. mem_keeps. Qed.
Hint Resolve wx_handle_memory : mem.

Context (period : Z) (user_memory : Z -> Z -> Z) (random : SID) (debug_output : Z -> Z -> Z) (utf8 : list Z -> bool)
        (create_process : ProcessInit -> KS ProcessStartup).
Context (Hcreate : forall init, wx_inv (create_process init)).

Lemma wx_handle tid call :
  wx_inv (handle regions shared_peripherals usage user_memory random debug_output utf8 create_process tid call).
Proof. unfold handle, handle_call. mem_keeps. Qed.
Hint Resolve wx_handle : mem.
Lemma wx_crash msg : wx_inv (crash_current_process regions shared_peripherals usage utf8 msg).
Proof. unfold crash_current_process, expect_ok. mem_keeps. Qed.
Lemma wx_irq_handle irq background map_memory :
  wx_inv (irq_handle regions shared_peripherals usage period irq background map_memory).
Proof. unfold irq_handle, kernel_handler, xdmac_interrupt. mem_keeps. Qed.
Hint Resolve wx_crash wx_irq_handle : mem.
Lemma wx_handle_trap t :
  wx_inv (handle_trap regions shared_peripherals usage period user_memory random debug_output utf8 create_process t).
Proof.
  unfold handle_trap, swi_handler, abort_handler, undef_handler, irq_handler, ensure_backed_current, expect_ok. mem_keeps.
Qed.
End Kernel.

(** ** The creation of a process *)

Section Loader.
Context (regions : list (Z * Z)) (shared_peripherals : list Z).
Abbreviation load_wx := (load_inv wx_free).

Lemma load_mapping {A} (m : MS A) : wx_keeps m -> load_wx (on_mapping m).
Proof. intros Hm. apply load_kernel, wx_lift. by intros _. Qed.
Ltac load_wx := load_keeps; try first
  [ apply load_mapping; solve [wx_steps] | apply load_kernel, wx_map_range | apply load_accessible | apply load_read_bytes
  | apply load_write_bytes | apply load_read_word | apply load_read_dynamic | apply load_relocations ].

Lemma wx_remap mapping va flags : load_wx (remap_page_flags mapping va flags).
Proof. unfold remap_page_flags. load_wx. Qed.
Lemma wx_load_pages mapping fuel must_copy address len slide flags h :
  load_wx (load_pages regions shared_peripherals mapping fuel must_copy address len slide flags h).
Proof.
  revert h. induction fuel as [|fuel IH]; intros h; cbn [load_pages]; [load_wx|]. destruct (_ <=? 0); [load_wx|].
  apply load_bind; [|done]. unfold move_whole_page, copy_part, map_fresh_page. load_wx; apply wx_remap.
Qed.
Lemma wx_load_segments mapping pie address len slide hs :
  load_wx (load_segments regions shared_peripherals mapping pie address len slide hs).
Proof.
  induction hs as [|h hs IH]; cbn [load_segments]; [load_wx|]. apply load_bind; [|done].
  unfold load_segment. load_wx; apply wx_load_pages.
Qed.
Lemma wx_read_only mapping pages : load_wx (remap_read_only mapping pages).
Proof. induction pages as [|va pages IH]; cbn [remap_read_only]; load_wx; [apply wx_remap|done]. Qed.
Lemma wx_relocate mapping ly : load_wx (relocate_image mapping ly).
Proof.
  unfold relocate_image, parse_dynamic_rel_info, apply_relocations, mark_pages_read_only. load_wx; apply wx_read_only.
Qed.
Lemma wx_load_elf parse_elf rand address len :
  load_wx (load_elf regions shared_peripherals parse_elf rand address len).
Proof.
  unfold load_elf, load_elf_in. load_wx;
    first [apply wx_load_segments|apply wx_relocate|apply load_kernel, wx_unmap_range|apply load_kernel; mem_keeps].
Qed.

Context (user_memory : Z -> Z -> Z) (utf8 : list Z -> bool) (parse_elf : list Z -> option ElfFile) (rand canary : Z).
Lemma wx_load_sent image len : wx_inv (load_sent_elf regions shared_peripherals parse_elf rand image len).
Proof.
  intros k Hk. unfold load_sent_elf. set (s := mkLoad k _).
  pose proof (wx_load_elf parse_elf rand RAW_ELF_TEMPORARY_ADDRESS len s Hk) as H. by destruct (load_elf _ _ _ _ _ _ s) as [s' r].
Qed.
Lemma wx_splash pid pages : wx_inv (move_splash_pages regions shared_peripherals pid pages).
Proof. induction pages as [|page pages IH]; cbn [move_splash_pages]; mem_keeps. Qed.
Hint Resolve wx_load_sent wx_splash wx_send_memory wx_map_range : mem.
Lemma wx_create_process init :
  wx_inv (create_process regions shared_peripherals user_memory utf8 parse_elf rand canary init).
Proof. unfold create_process, create, expect_ok. mem_keeps. Qed.
End Loader.

(** ** Histories *)

(** The current thread runs, or traps, with any arguments and outcome, a crash included. *)
Inductive trap_step (regions : list (Z * Z)) (shared_peripherals : list Z) : Kernel -> Kernel -> Prop :=
| TrapStepRun cs t t' k :
    default contexts_new (k_contexts k !! k_current k) = cs -> cs !! Z.to_nat (k_tid k) = Some t -> runs t t' ->
    trap_step regions shared_peripherals k
      (set_contexts (<[k_current k := <[Z.to_nat (k_tid k) := t']> cs]> (k_contexts k)) k)
| TrapStepTrap usage period user_memory random debug_output utf8 parse_elf rand canary t k :
    trap_step regions shared_peripherals k
      (handle_trap regions shared_peripherals usage period user_memory random debug_output utf8
        (create_process regions shared_peripherals user_memory utf8 parse_elf rand canary) t k).1.

Lemma apart_mmu w : apart (from_u32 w) -> mmu_translates w = true -> Z.land w SP_AP2 <> 0 \/ Z.land w SP_XN <> 0.
Proof.
  unfold mmu_translates, from_u32. destruct (Z.eqb_spec w 0) as [->|]; [done|]. destruct (Z.land w 3 =? 0); [done|].
  intros [_ Hb] _. assert (forall i, 0 <= i -> Z.testbit w i = true -> Z.land w (2 ^ i) <> 0) as Hn.
  { intros i Hi Ht E. apply (f_equal (fun x => Z.testbit x i)) in E. by rewrite Z.land_spec, Ht, Z.pow2_bits_true, Z.bits_0 in E. }
  destruct Hb; [right; by apply (Hn 0)|left; by apply (Hn 9)].
Qed.

(** C4: Through every history of traps - any calls of any process with any arguments, among them
    those that return, mirror or clear lent memory, the creation of processes from any image,
    crashes, aborts and interrupts - no page of any process is writable and executable: not by
    the flags the kernel keeps for it, mapped, on demand or lent, and not by the word the MMU
    reads, where the page is read-only or not executable. *)
Theorem write_xor_execute regions shared_peripherals k0 k pid pn :
  wx_free (k_mem k0) -> rtc (trap_step regions shared_peripherals) k0 k ->
  let w := word (k_mem k) pid pn in
  (forall flags, entry_flags (from_u32 w) = Done flags -> writable_executable flags = false)
  /\ (mmu_translates w = true -> Z.land w SP_AP2 <> 0 \/ Z.land w SP_XN <> 0).
Proof.
  intros H0 Hrun. assert (wx_free (k_mem k)) as Hk.
  { induction Hrun as [|x y z Hxy _ IH]; [done|]. apply IH. clear IH. destruct Hxy; [done|].
    apply wx_handle_trap; [|done]. intros init. apply wx_create_process. }
  cbv zeta. assert (apart (from_u32 (word (k_mem k) pid pn))) as Ha.
  { unfold word. destruct (ms_maps (k_mem k) !! pid) as [m|] eqn:Em; [|done].
    destruct (l2 m !! pn) as [w|] eqn:Ew; [by eapply Hk|done]. }
  split; [intros flags; by apply apart_flags|by apply apart_mmu].
Qed.

(** Process 2, which has a writable page, asks for one that is writable and executable. *)
Definition demo_asking : Kernel :=
  set_contexts (<[2 := <[1%nat := demo_thread (as_args (MapMemory None (Some 0x30006000) PAGE_SIZE (MemoryFlags_bitor MF_W MF_X)))]>
                        (<[1%nat := demo_thread (W8 0 0 0 0 0 0 0 0)]> contexts_new)]> (k_contexts demo_kernel)) demo_kernel.
Lemma demo_wx_free : wx_free demo_mem.
Proof.
  intros pid m pn w Hm Hw. change (ms_maps demo_mem) with demo_maps in Hm.
  apply demo_maps_lookup in Hm as [[-> ->]|[[-> ->]|[-> ->]]]; [|done..].
  change (({[0x30005 := demo_word]} : gmap Z Z) !! pn = Some w) in Hw.
  apply lookup_singleton_Some in Hw as [_ <-]. split; [by vm_compute|left; by vm_compute].
Qed.

Lemma write_xor_execute_witness :
  exists k, rtc (trap_step [] []) demo_kernel k /\ k = demo_trap TrapSwi demo_asking
    /\ mmu_translates demo_word = true /\ word (k_mem demo_kernel) 2 0x30005 = demo_word
    /\ forall pid pn flags, entry_flags (from_u32 (word (k_mem k) pid pn)) = Done flags -> writable_executable flags = false.
Proof.
  assert (rtc (trap_step [] []) demo_kernel (demo_trap TrapSwi demo_asking)) as Hrun.
  { eapply rtc_l; [|eapply rtc_l; [|apply rtc_refl]].
    - by apply (TrapStepRun [] [] (<[1%nat := demo_thread (W8 0 0 0 0 0 0 0 0)]> contexts_new) (demo_thread (W8 0 0 0 0 0 0 0 0))
        (demo_thread (as_args (MapMemory None (Some 0x30006000) PAGE_SIZE (MemoryFlags_bitor MF_W MF_X))))).
    - apply (TrapStepTrap [] [] 0 0 (fun _ _ => 0) (SID_from_u32 0 0 0 0) (fun _ _ => 0) (fun _ => true) (fun _ => None) 0 0 TrapSwi). }
  exists (demo_trap TrapSwi demo_asking). split; [exact Hrun|]. split; [reflexivity|]. split; [reflexivity|]. split; [reflexivity|].
  intros pid pn flags. apply (proj1 (write_xor_execute [] [] demo_kernel _ pid pn demo_wx_free Hrun)).
Defined.
