(* ===== verification/KernelInvariant.v ===== *)
(** * The parts of the kernel stay consistent

    [kernel_wf k]: the scheduler and the threads of the processes agree, the connection map of
    every process is well-formed and none of its connections dangles - the server it names
    exists -, every server is well-formed and belongs to a process that exists, no two servers
    have the same id, every interrupt handler belongs to a process that exists.

    [keeps ph m]: the computation [m] keeps this, whether it ends with a value or an error.
    While a server is created or destroyed and while a process ends, less or more is known than
    between two operations, which the [Phase] says. *)
From stdpp Require Import fin_maps gmap.
From S2P Require Import Prelude Xous SysCall Permissions Server Scheduler Threads Connections.
From S2P Require Import PermissionRequests Irq Process MemManager PageTable Mapping Memory.
From S2P Require Import Kernel KernelRules Services Syscalls.

(** The connections of a process. *)
Definition connections_ok (D : Z -> Z -> Prop) (pid : Z) (servers : list (option Hosted)) (m : ConnectionMap) : Prop :=
  wf_connections m
  /\ forall i sidx r g perms, m !! i = Some (SlotConnected sidx r g perms) ->
       is_Some (server_at servers sidx) \/ D pid sidx.

(** What holds besides while an operation is on its way: connections that may dangle, what is
    known of the slot, the owner and the id of each server and of the owners of the interrupt
    handlers, processes known to exist, and whether the process that ran an interrupt handler
    has ended in it. *)
Record Phase : Type := mkPhase {
  dangling : Z -> Z -> Prop;
  hosts : nat -> Z -> SID -> Prop;
  armed : Z -> Prop;
  live : Z -> Prop;
  orphaned : Prop
}.

Record wf_gen (ph : Phase) (k : Kernel) : Prop := {
  kw_threads : coherent_gen (orphaned ph) (k_scheduler k) (k_processes k);
  kw_connections : forall pid p, k_processes k !! pid = Some p ->
    connections_ok (dangling ph) pid (k_servers k) (connection_map p);
  kw_table : length (k_servers k) = MAX_SERVER_COUNT;
  kw_server : forall i h, k_servers k !! i = Some (Some h) ->
    wf_server (hosted h) /\ is_Some (k_processes k !! server_pid (hosted h))
    /\ hosts ph i (server_pid (hosted h)) (server_sid (hosted h));
  kw_sids : forall i j h h', k_servers k !! i = Some (Some h) -> k_servers k !! j = Some (Some h') ->
    server_sid (hosted h) = server_sid (hosted h') -> i = j;
  kw_requests : length (k_requests k) = MAX_PERMISSION_REQUESTS;
  kw_irqs : wf_irq (k_irqs k);
  kw_handlers : forall i pid pc arg, handlers (k_irqs k) !! i = Some (HandlerUser pid pc arg) ->
    is_Some (k_processes k !! pid) /\ armed ph pid;
  kw_live : forall pid, live ph pid -> is_Some (k_processes k !! pid)
}.

(** Between two traps; [lost] if a process ended in its own interrupt handler. *)
Definition resting (lost : bool) : Phase :=
  mkPhase (fun _ _ => False) (fun _ _ _ => True) (fun _ => True) (fun _ => False) (if lost then True else False).
Definition at_rest : Phase := resting false.
Definition kernel_wf : Kernel -> Prop := wf_gen at_rest.

(** What the invariant is about. *)
Definition tables (k : Kernel) := (k_scheduler k, k_processes k, k_servers k, k_requests k, k_irqs k).
Lemma wf_tables ph k k' : tables k' = tables k -> wf_gen ph k -> wf_gen ph k'.
Proof.
  intros E [H1 H2 H3 H4 H5 H6 H7 H8 H9]. unfold tables in E. injection E as E1 E2 E3 E4 E5.
  by split; rewrite ?E1, ?E2, ?E3, ?E4, ?E5.
Qed.

Definition keeps {A} (ph : Phase) (m : KS A) : Prop :=
  forall k, wf_gen ph k -> safe (fun _ => wf_gen ph) (wf_gen ph) (m k).

Create HintDb inv.

Section Rules.
Context (ph : Phase).
Abbreviation wf := (wf_gen ph).
Abbreviation keeps := (keeps ph).

Lemma keeps_same {A} (m : KS A) : same tables m -> keeps m.
Proof.
  intros Hm k Hk. specialize (Hm k). unfold safe. destruct (m k) as [k' [a|e|]]; cbn in Hm; [..|done]; by eapply wf_tables.
Qed.
Lemma keeps_bind {A B} (m : KS A) (f : A -> KS B) : keeps m -> (forall a, keeps (f a)) -> keeps (st_bind m f).
Proof.
  intros Hm Hf k Hk. apply safe_bind. eapply safe_mono; [by apply Hm| |done]. intros a k' Hk'. by apply Hf.
Qed.
Lemma keeps_try {A} (m : KS A) : keeps m -> keeps (st_try m).
Proof. intros Hm k Hk. eapply safe_try; [by apply Hm|done]. Qed.
(** After a look at the state. *)
Lemma keeps_get {A} (f : Kernel -> KS A) :
  (forall k, wf k -> safe (fun _ => wf) wf (f k k)) -> keeps (st_bind st_get f).
Proof. intros H k Hk. by apply H. Qed.
Lemma keeps_safe {A B} (m : KS A) (f : A -> KS B) k :
  safe (fun _ => wf) wf (m k) -> (forall a, keeps (f a)) -> safe (fun _ => wf) wf (st_bind m f k).
Proof. intros Hm Hf. apply safe_bind. eapply safe_mono; [exact Hm| |done]. intros a k' Hk'. by apply Hf. Qed.

Lemma process_safe {B} pid (f : Process -> KS B) k :
  wf k -> (forall p, k_processes k !! pid = Some p -> safe (fun _ => wf) wf (f p k)) ->
  safe (fun _ => wf) wf (st_bind (process pid) f k) /\ safe (fun _ => wf) wf (st_bind (process_unwrap pid) f k).
Proof.
  intros Hk Hf. unfold st_bind, process, process_unwrap. destruct (k_processes k !! pid) as [p|]; (split; [by auto|]); cbn; by auto.
Qed.

(** ** Processes *)

Lemma wf_put sch' p p' k :
  wf k -> k_processes k !! process_pid p' = Some p -> coherent_gen (orphaned ph) sch' (<[process_pid p' := p']> (k_processes k)) ->
  connections_ok (dangling ph) (process_pid p') (k_servers k) (connection_map p') ->
  wf (set_processes (<[process_pid p' := p']> (k_processes k)) (set_scheduler sch' k)).
Proof.
  intros [H1 H2 H3 H4 H5 H6 H7 H8 H9] Hp Hc Hm.
  assert (forall q, is_Some (k_processes k !! q) -> is_Some (<[process_pid p' := p']> (k_processes k) !! q)) as Hdom.
  { intros q Hq. destruct (decide (process_pid p' = q)) as [->|]; [rewrite lookup_insert_eq; eauto|by rewrite lookup_insert_ne]. }
  split; cbn; try done.
  - intros pid q Hq. destruct (decide (process_pid p' = pid)) as [<-|].
    + rewrite lookup_insert_eq in Hq. by simplify_eq.
    + rewrite lookup_insert_ne in Hq by done. by apply H2.
  - intros i h Hh. destruct (H4 i h Hh) as (? & ? & ?). split_and!; auto.
  - intros i pid pc arg Hi. destruct (H8 i pid pc arg Hi). auto.
  - intros pid Hpid. auto.
Qed.

Lemma process_pid_of k pid p : wf k -> k_processes k !! pid = Some p -> process_pid p = pid.
Proof. intros Hk Hp. pose proof (kw_threads _ _ Hk) as (Hwf & _). by destruct (Hwf _ _ Hp). Qed.

(** A process whose threads are the same. *)
Lemma put_process_safe p p' k :
  wf k -> k_processes k !! process_pid p = Some p -> process_pid p' = process_pid p -> threads p' = threads p ->
  thread_priorities p' = thread_priorities p -> connections_ok (dangling ph) (process_pid p) (k_servers k) (connection_map p') ->
  safe (fun _ => wf) wf (put_process p' k).
Proof.
  intros Hk Hp Hpid Ht Hpr Hm. cbn. assert (set_scheduler (k_scheduler k) k = k) as E by (by destruct k).
  rewrite <-E at 2. eapply wf_put; [done|by rewrite Hpid| |by rewrite Hpid]. rewrite Hpid. eapply coherent_same; [apply Hk|done..].
Qed.

Lemma keeps_set_thread_state pid tid state : keeps (set_thread_state pid tid state).
Proof.
  intros k Hk. apply process_safe; [done|]. intros p Hp. pose proof (process_pid_of k pid p Hk Hp) as <-.
  unfold st_bind at 1, st_get. destruct (Process.set_thread_state _ p _ state) as [[sch' p']|] eqn:E; [|done]. cbn.
  destruct (set_thread_state_Some _ _ _ _ _ _ _ _ (kw_threads _ _ Hk) Hp E) as [-> Hc].
  eapply (wf_put sch' p); [done|done|exact Hc|]. exact (kw_connections _ _ Hk _ _ Hp).
Qed.
Lemma keeps_set_thread_priority pid tid priority : keeps (set_thread_priority pid tid priority).
Proof.
  intros k Hk. apply process_safe; [done|]. intros p Hp. pose proof (process_pid_of k pid p Hk Hp) as <-.
  unfold st_bind at 1, st_get. destruct (Process.set_thread_priority _ p _ priority) as [[sch' p']|] eqn:E; [|done]. cbn.
  destruct (set_thread_priority_Some _ _ _ _ _ _ _ _ (kw_threads _ _ Hk) Hp E) as [-> Hc].
  eapply (wf_put sch' p); [done|done|exact Hc|]. exact (kw_connections _ _ Hk _ _ Hp).
Qed.
Lemma keeps_wake_process_threads state n pid : 0 <= n -> keeps (wake_process_threads state n pid).
Proof.
  intros Hn k Hk. unfold wake_process_threads. unfold st_bind at 1, st_get.
  destruct (k_processes k !! pid) as [p|] eqn:Hp; [|done]. pose proof (process_pid_of k pid p Hk Hp) as <-.
  destruct (Process.wake_threads_with_state _ p state n) as [[sch' p']|] eqn:E; [|done]. cbn.
  destruct (wake_threads_Some _ _ _ _ _ _ _ _ (kw_threads _ _ Hk) Hp Hn E) as [(ts & ->) Hc].
  eapply (wf_put sch' p); [done|done|exact Hc|]. exact (kw_connections _ _ Hk _ _ Hp).
Qed.
Lemma keeps_for_pids f pids : (forall pid, keeps (f pid)) -> keeps (for_pids f pids).
Proof. intros Hf. induction pids as [|pid pids IH]; cbn [for_pids]; [by intros k Hk|]. by apply keeps_bind. Qed.
Lemma keeps_wake_threads state n : 0 <= n -> keeps (wake_threads_with_state state n).
Proof. intros. apply keeps_for_pids. intros. by apply keeps_wake_process_threads. Qed.
End Rules.

(** ** Servers *)

(** An operation of a server keeps it well-formed, and its owner and id. *)
Definition server_ok (s s' : Server) : Prop :=
  wf_server s' /\ server_pid s' = server_pid s /\ server_sid s' = server_sid s.

Ltac server_cases :=
  repeat match goal with
  | H : (let! _ := ?x in _) = Some _ |- _ => destruct x eqn:?; [|discriminate H]
  | H : (match ?x with _ => _ end) = Some _ |- _ => destruct x eqn:?
  | H : (if ?x then _ else _) = Some _ |- _ => destruct x eqn:?
  end; simplify_eq; try done.

Lemma find_empty_slot_ident s : server_pid (find_empty_slot s).1 = server_pid s /\ server_sid (find_empty_slot s).1 = server_sid s.
Proof. unfold find_empty_slot. by destruct (List.find _ _). Qed.
Lemma take_next_loop_ident fuel s sidx i s' r :
  take_next_loop fuel s sidx i = Some (s', r) -> server_pid s' = server_pid s /\ server_sid s' = server_sid s.
Proof.
  revert i. induction fuel as [|fuel IH]; intros i H; cbn [take_next_loop] in H; [done|].
  destruct (queue s !! i) as [entry|]; [|done]. destruct (deliver _ _ _ entry) as [[result response]|].
  - injection H as <- _. unfold after_delivery. by destruct (is_empty_slot response).
  - case_decide; [by injection H as <- _|by eapply IH].
Qed.

Lemma queue_message_ok s pid tid message a s' r :
  wf_server s -> queue_message s pid tid message a = Some (s', r) -> server_ok s s'.
Proof.
  intros Hwf E. destruct (queue_message_spec s pid tid message a Hwf) as (s1 & r1 & E1 & Hwf1 & _).
  rewrite E1 in E. injection E as -> ->. split; [done|]. pose proof (find_empty_slot_ident s) as [Hp Hs].
  unfold queue_message in E1. destruct (find_empty_slot s) as [s0 slot]. cbn in Hp, Hs. rewrite <-Hp, <-Hs. server_cases.
Qed.
Lemma queue_response_ok s pid tid message a : wf_server s -> server_ok s (queue_response s pid tid message a).1.
Proof.
  intros Hwf. pose proof (queue_response_spec s pid tid message a Hwf) as H.
  pose proof (find_empty_slot_ident s) as [Hp Hs]. revert H. unfold queue_response.
  destruct (find_empty_slot s) as [s0 slot]. cbn in Hp, Hs. unfold server_ok. rewrite <-Hp, <-Hs.
  destruct slot as [i|]; [|by intros (? & _)]. destruct (response_entry _ _ _ _); by intros (? & _).
Qed.
Lemma take_waiting_ok s i buf : wf_server s -> server_ok s (take_waiting_message s i buf).1.
Proof.
  intros Hwf. pose proof (take_waiting_message_spec s i buf Hwf) as H. revert H. unfold take_waiting_message.
  destruct (queue s !! i) as [m|]; [|by intros (? & _)]. destruct (waiting_mismatch m buf); [by intros (? & _)|].
  destruct (take_waiting m buf) as [[w|]|]; by intros (? & _).
Qed.
Lemma take_next_ok s sidx s' r : wf_server s -> take_next_message s sidx = Some (s', r) -> server_ok s s'.
Proof.
  intros Hwf E. destruct (take_next_message_spec s sidx Hwf) as (s1 & r1 & E1 & Hwf1 & _).
  rewrite E1 in E. injection E as -> ->. split; [done|]. unfold take_next_message in E1.
  destruct (_ =? _); [by injection E1 as -> _|by eapply take_next_loop_ident].
Qed.
Lemma discard_ok s pid : wf_server s -> server_ok s (discard_messages_for_pid s pid).
Proof. intros Hwf. destruct (discard_messages_spec s pid Hwf) as [? _]. done. Qed.

(** The queue alone decides whether a server is well-formed. *)
Lemma ready_threads_ok s r : wf_server s -> server_ok s (set_ready_threads s r).
Proof. done. Qed.
Lemma take_available_ok s s' tid : wf_server s -> take_available_thread s = Some (s', tid) -> server_ok s s'.
Proof. intros Hwf E. unfold take_available_thread in E. server_cases. Qed.
Lemma return_available_ok s tid s' : wf_server s -> return_available_thread s tid = Some s' -> server_ok s s'.
Proof. intros Hwf E. unfold return_available_thread in E. server_cases. Qed.
Lemma park_ok s tid s' : wf_server s -> Server.park_thread s tid = Some s' -> server_ok s s'.
Proof. intros Hwf E. unfold Server.park_thread in E. server_cases. Qed.
Lemma event_handler_ok s event id s' r : wf_server s -> set_event_handler s event id = Some (s', r) -> server_ok s s'.
Proof. intros Hwf E. unfold set_event_handler in E. server_cases. Qed.

Section ServerRules.
Context (ph : Phase).
Abbreviation wf := (wf_gen ph).
Abbreviation keeps := (keeps ph).

Lemma server_at_lookup servers sidx h :
  server_at servers sidx = Some h <-> servers !! Z.to_nat sidx = Some (Some h).
Proof. unfold server_at. destruct (servers !! Z.to_nat sidx) as [[h'|]|]; cbn; naive_solver. Qed.

Lemma put_server_safe sidx h s' k :
  wf k -> server_at (k_servers k) sidx = Some h -> server_ok (hosted h) s' ->
  safe (fun _ => wf) wf (put_server sidx s' k).
Proof.
  intros [H1 H2 H3 H4 H5 H6 H7 H8 H9] Hh%server_at_lookup (Hwf & Hpid & Hsid). unfold put_server, st_modify, safe.
  set (f := fmap (fun h => mkHosted s' (backing h))). set (i := Z.to_nat sidx) in *.
  assert (forall j h1, alter f i (k_servers k) !! j = Some (Some h1) ->
    exists h0, k_servers k !! j = Some (Some h0) /\ server_pid (hosted h1) = server_pid (hosted h0)
      /\ server_sid (hosted h1) = server_sid (hosted h0) /\ (wf_server (hosted h0) -> wf_server (hosted h1))) as Hback.
  { intros j h1 Hj. destruct (decide (i = j)) as [<-|Hne].
    - rewrite list_lookup_alter_eq, Hh in Hj. cbn in Hj. injection Hj as <-. exists h. cbn. by split_and!.
    - rewrite list_lookup_alter_ne in Hj by done. by exists h1. }
  split; cbn; try done.
  - intros pid p Hp. destruct (H2 pid p Hp) as [Hc Hd]. split; [done|]. intros j sj r g perms Hj.
    destruct (Hd j sj r g perms Hj) as [[h0 Hs]|]; [left|by right]. apply server_at_lookup in Hs.
    destruct (decide (i = Z.to_nat sj)) as [E|E].
    + exists (mkHosted s' (backing h0)). apply server_at_lookup. by rewrite <-E, list_lookup_alter_eq, E, Hs.
    + exists h0. apply server_at_lookup. by rewrite list_lookup_alter_ne.
  - by rewrite length_alter.
  - intros j h1 Hj. destruct (Hback j h1 Hj) as (h0 & Hj0 & -> & -> & Hw). destruct (H4 j h0 Hj0) as (? & ? & ?). auto.
  - intros j1 j2 a b Ha Hb E. destruct (Hback _ _ Ha) as (a0 & Ha0 & _ & Es & _), (Hback _ _ Hb) as (b0 & Hb0 & _ & Es' & _).
    apply (H5 j1 j2 a0 b0 Ha0 Hb0). congruence.
Qed.

Lemma keeps_lift_server {A} sidx (f : Server -> option (Server * A)) :
  (forall s s' a, wf_server s -> f s = Some (s', a) -> server_ok s s') -> keeps (lift_server sidx f).
Proof.
  intros Hf k Hk. unfold lift_server, server_expect, server_from_sidx. unfold st_bind at 1 2, st_unwrap at 1.
  destruct (server_at (k_servers k) sidx) as [h|] eqn:Hh; cbn; [|done].
  destruct (f (hosted h)) as [[s' a]|] eqn:E; [|done]. cbn.
  assert (wf_server (hosted h)) as Hs by (apply server_at_lookup in Hh; by eapply kw_server).
  exact (put_server_safe sidx h s' k Hk Hh (Hf _ _ _ Hs E)).
Qed.
End ServerRules.

#[export] Hint Resolve keeps_set_thread_state keeps_set_thread_priority : inv.
#[export] Hint Extern 2 (keeps _ (wake_threads_with_state _ _)) => apply keeps_wake_threads; done : inv.

Ltac keeps_step :=
  first
    [ apply keeps_same; solve [auto with mem]
    | solve [auto with inv]
    | simple apply keeps_bind; [|intros]
    | simple apply keeps_try
    | match goal with
      | |- keeps _ (match ?x with _ => _ end) => destruct x
      | |- keeps _ (if ?x then _ else _) => destruct x
      | |- keeps _ (let '(_, _) := ?x in _) => destruct x
      end
    | apply keeps_same; solve [mem_same] ].
Ltac keeps := repeat keeps_step.

(** What leaves the tables alone. *)
Lemma tables_current_process : same tables current_process.
Proof. unfold current_process. mem_same. Qed.
Lemma tables_server_expect sidx : same tables (server_expect sidx).
Proof. unfold server_expect. mem_same. Qed.
Lemma tables_thread_state pid tid : same tables (thread_state pid tid).
Proof. unfold thread_state. mem_same. Qed.
Lemma tables_thread_priority pid tid : same tables (thread_priority pid tid).
Proof. unfold thread_priority. mem_same. Qed.
Lemma tables_with_contexts pid f : same tables (with_contexts pid f).
Proof. unfold with_contexts. mem_same. Qed.
#[export] Hint Resolve tables_current_process tables_server_expect tables_thread_state tables_thread_priority
  tables_with_contexts : mem.
Lemma tables_set_thread_result pid tid r : same tables (set_thread_result pid tid r).
Proof. unfold set_thread_result. mem_same. Qed.
Lemma tables_retry_syscall_pid pid tid : same tables (retry_syscall_pid pid tid).
Proof. unfold retry_syscall_pid. mem_same. Qed.
Lemma tables_connected cid : same tables (connected cid).
Proof. unfold connected. mem_same. Qed.
#[export] Hint Resolve tables_set_thread_result tables_retry_syscall_pid tables_connected : mem.

(** ** Connections *)

(** No operation but [add_connection] connects to a new server. *)
Definition targets_in (m m' : ConnectionMap) : Prop :=
  forall i sidx r g perms, m' !! i = Some (SlotConnected sidx r g perms) ->
    exists r' g' perms', m !! i = Some (SlotConnected sidx r' g' perms').

Lemma targets_insert m i new :
  (forall sidx r g perms, new = SlotConnected sidx r g perms ->
     exists r' g' perms', m !! i = Some (SlotConnected sidx r' g' perms')) ->
  targets_in m (<[i := new]> m).
Proof.
  intros H j sidx r g perms Hj. destruct (decide (i = j)) as [<-|Hne].
  - assert (i < length m)%nat as Hlt by (apply lookup_lt_Some in Hj; by rewrite length_insert in Hj).
    rewrite list_lookup_insert_eq in Hj by done. injection Hj as ->. by eapply H.
  - rewrite list_lookup_insert_ne in Hj by done. eauto.
Qed.
Lemma targets_refl m : targets_in m m. Proof. intros i sidx r g perms H. eauto. Qed.

Lemma disconnect_targets m cid : targets_in m (disconnect_slot m cid).1.
Proof.
  unfold disconnect_slot. destruct (connection_mut m cid) as [[i slot]|] eqn:E; [|apply targets_refl].
  apply connection_mut_Ok in E as (Hi & _). assert (forall g sidx r g' perms, free_or_condemn g <> SlotConnected sidx r g' perms) as Hf.
  { intros g sidx r g' perms. unfold free_or_condemn. by destruct (_ <=? _). }
  destruct slot as [|r g|sidx r g perms|]; try apply targets_refl; destruct (1 <? r); apply targets_insert; intros; simplify_eq; try done; eauto.
  all: exfalso; by eapply Hf.
Qed.
Lemma allow_targets m cid messages : targets_in m (allow_messages m cid messages).1.
Proof.
  unfold allow_messages. destruct (connection_mut m cid) as [[i slot]|] eqn:E; [|apply targets_refl].
  apply connection_mut_Ok in E as (Hi & _). destruct slot as [|r g|sidx r g perms|]; try apply targets_refl.
  destruct (permissions_add perms messages) as [perms' res]. apply targets_insert. intros; simplify_eq. eauto.
Qed.
Lemma tombstone_targets m sidx :
  wf_connections m -> targets_in m (tombstone_connection_by_sidx m sidx).1
  /\ forall i r g perms, (tombstone_connection_by_sidx m sidx).1 !! i <> Some (SlotConnected (u8 sidx) r g perms).
Proof.
  intros (_ & _ & Huniq). unfold tombstone_connection_by_sidx. destruct (position (connected_to sidx) m) as [i|] eqn:E.
  - apply position_lookup in E as (slot & Hi & Hc). rewrite Hi. destruct slot as [|r g|sidx' r g perms|]; try done.
    cbn in Hc. apply Z.eqb_eq in Hc. subst sidx'. split; [by apply targets_insert|]. intros j r' g' perms' Hj. cbn in Hj.
    destruct (decide (i = j)) as [<-|Hne].
    + rewrite list_lookup_insert_eq in Hj by (by eapply lookup_lt_Some). done.
    + rewrite list_lookup_insert_ne in Hj by done. apply Hne. by eapply Huniq.
  - split; [apply targets_refl|]. intros i r g perms Hi. rewrite position_None in E. pose proof (E i _ Hi) as H. cbn in H. lia.
Qed.
Lemma add_targets m sidx perms i sidx' r g perms' :
  (add_connection m sidx perms).1 !! i = Some (SlotConnected sidx' r g perms') ->
  sidx' = u8 sidx \/ exists r' g' perms0, m !! i = Some (SlotConnected sidx' r' g' perms0).
Proof.
  unfold add_connection, add_new_connection. destruct (position (connected_to sidx) m) as [j|] eqn:E.
  - apply position_lookup in E as (slot & Hj & Hc). rewrite Hj. destruct slot as [|r0 g0|s0 r0 g0 p0|]; try (intros; right; eauto; fail).
    destruct (checked_add r0 1); [|intros; right; eauto]. intros H. right.
    eapply (targets_insert m j); [|exact H]. intros; simplify_eq. eauto.
  - destruct (position is_free_slot m) as [j|] eqn:Ef; [|intros; right; eauto].
    apply position_lookup in Ef as (slot & Hj & Hf). rewrite Hj. destruct slot as [g0| | |]; try done. cbn.
    destruct (decide (j = i)) as [<-|Hne].
    + rewrite list_lookup_insert_eq by (by eapply lookup_lt_Some). intros; simplify_eq. by left.
    + rewrite list_lookup_insert_ne by done. intros; right; eauto.
Qed.

Section Calls.
Context (ph : Phase).
Abbreviation wf := (wf_gen ph).
Abbreviation keeps := (keeps ph).

(** ** Scheduling *)

Lemma coherent_queues orphan sch sch' procs :
  coherent_gen orphan sch procs -> queue_heads sch' = queue_heads sch -> links sch' = links sch ->
  highest_ready_priority sch' = highest_ready_priority sch -> in_irq_handler sch' = in_irq_handler sch ->
  coherent_gen orphan sch' procs.
Proof.
  intros (Hwf & (qs & Hrepr & Hq) & Hirq & Hu) E1 E2 E3 E4. split; [done|]. split; [|by rewrite E4].
  exists qs. split; [|done]. unfold sched_repr in *. by rewrite E1, E2, E3.
Qed.
Lemma keeps_set_scheduler k sch' : wf k -> coherent_gen (orphaned ph) sch' (k_processes k) -> wf (set_scheduler sch' k).
Proof. intros [H1 H2 H3 H4 H5 H6 H7 H8 H9] Hc. by split. Qed.

Lemma keeps_activate usage : keeps (activate_current usage).
Proof.
  intros k Hk. unfold activate_current. unfold st_bind at 1, st_get.
  destruct (Scheduler.activate_current _ _ usage) as [[sch next]|] eqn:E; [|done]. unfold st_unwrap.
  assert (coherent_gen (orphaned ph) sch (k_processes k)) as Hc.
  { pose proof (kw_threads _ _ Hk) as Hc. unfold Scheduler.activate_current in E.
    destruct (in_irq_handler _) eqn:Ei; [by injection E as <- _|].
    destruct (queue_heads _ !! _) as [[t|]|]; try done. case_decide; [by injection E as <- _|].
    destruct (cpu_usage _ !! _); [|done]. injection E as <- _.
    destruct (_ && _); by eapply coherent_queues. }
  unfold st_bind at 1, st_ret. unfold st_bind at 1, st_modify. pose proof (keeps_set_scheduler k sch Hk Hc) as Hk'.
  revert Hk'. generalize (set_scheduler sch k). intros k' Hk'. revert k' Hk'. change (keeps (match next with
    | KeepCurrent => st_ret RResumeProcess
    | ActivateThread pid tid _ =>
        let* _ := process_unwrap pid in
        let* _ := st_assert (tid <? MAX_THREAD_COUNT) in
        let* _ := st_modify (set_current pid tid) in st_ret RResumeProcess
    end)). keeps.
Qed.
Hint Resolve keeps_activate : inv.
Lemma keeps_retry_syscall usage tid state : keeps (retry_syscall usage tid state).
Proof. unfold retry_syscall. keeps. Qed.

(** ** Messages and events *)

Lemma keeps_queue sidx pid tid m a : keeps (queue_server_message sidx pid tid m a).
Proof.
  unfold queue_server_message. keeps. apply keeps_lift_server. intros s s' r Hs E. by eapply queue_message_ok.
Qed.
Lemma keeps_remember sidx pid tid m a : keeps (remember_server_message sidx pid tid m a).
Proof.
  unfold remember_server_message. keeps. apply keeps_lift_server. intros s s' r Hs [= E].
  pose proof (queue_response_ok s pid tid m a Hs) as H. by rewrite E in H.
Qed.
Hint Resolve keeps_queue keeps_remember : inv.
Lemma keeps_deliver sidx tid m a : keeps (deliver_message sidx tid m a).
Proof.
  unfold deliver_message. keeps; apply keeps_lift_server; intros s s' r Hs E.
  - by eapply take_available_ok.
  - destruct (return_available_thread s _) as [s1|] eqn:E1; [|done]. injection E as -> _. by eapply return_available_ok.
Qed.
Hint Resolve keeps_deliver : inv.
Lemma keeps_send_scalar tid sidx m : keeps (send_scalar tid sidx m).
Proof. unfold send_scalar. keeps. Qed.
Hint Resolve keeps_send_scalar : inv.
Lemma keeps_send_server_event sidx e args : keeps (send_server_event sidx e args).
Proof. unfold send_server_event. keeps. Qed.
Lemma keeps_send_system_event pid e args : keeps (send_system_event pid e args).
Proof. unfold send_system_event. keeps. Qed.
Hint Resolve keeps_send_server_event keeps_send_system_event : inv.
Lemma keeps_broadcast e args : keeps (broadcast_event e args).
Proof.
  unfold broadcast_event. generalize (seqZ 1 MAX_PROCESS_COUNT), 0. intros pids.
  induction pids as [|pid pids IH]; intros n; cbn [broadcast_loop]; keeps.
Qed.
Hint Resolve keeps_broadcast : inv.

(** ** Memory *)

Lemma keeps_perform_calls calls : keeps (perform_calls calls).
Proof. induction calls as [|[|? ?] calls IH]; cbn [perform_calls]; keeps. Qed.
Lemma keeps_lift_mem {A} (m : (Z -> Z -> result Error unit) -> MS A) : keeps (lift_mem m).
Proof.
  intros k Hk. unfold lift_mem. destruct (m _ (k_mem k)) as [s r]. set (calls := drop _ _).
  assert (wf (set_mem s k)) as Hk' by (by apply (wf_tables ph k)). revert Hk'. generalize (set_mem s k).
  change (keeps (let* _ := perform_calls calls in st_outcome r)). apply keeps_bind; [apply keeps_perform_calls|].
  intros _. apply keeps_same, same_outcome.
Qed.
Hint Resolve keeps_lift_mem : inv.

(** The search for a virtual address only moves the hint. *)
Lemma find_fields free_run p virt size :
  let p' := (Process.find_virtual_address free_run p virt size).1 in
  process_pid p' = process_pid p /\ threads p' = threads p /\ thread_priorities p' = thread_priorities p
  /\ connection_map p' = connection_map p.
Proof.
  unfold Process.find_virtual_address. repeat case_match; done.
Qed.
Lemma find_safe p virt size k :
  wf k -> k_processes k !! process_pid p = Some p ->
  safe (fun _ => wf) wf (find_virtual_address p virt size k).
Proof.
  intros Hk Hp. unfold find_virtual_address. unfold st_bind at 1, st_get. set (free_run := match _ with Some _ => _ | None => _ end).
  pose proof (find_fields free_run p virt size) as (E1 & E2 & E3 & E4).
  destruct (Process.find_virtual_address free_run p virt size) as [p' r]. cbn in E1, E2, E3, E4.
  apply keeps_safe; [|intros; keeps]. eapply put_process_safe; [done|done|done..|]. rewrite E4.
  by apply (kw_connections _ _ Hk).
Qed.
(** Finding an address in the space of a process that was just looked up. *)
Lemma keeps_find {A} pid virt size (f : Z -> KS A) :
  (forall a, keeps (f a)) -> keeps (let* p := process pid in let* v := find_virtual_address p virt size in f v).
Proof.
  intros Hf k Hk. apply process_safe; [done|]. intros p Hp. pose proof (process_pid_of _ k pid p Hk Hp) as <-.
  apply keeps_safe; [|done]. by apply find_safe.
Qed.
Lemma keeps_find_current {A} virt size (f : Z -> KS A) :
  (forall a, keeps (f a)) -> keeps (let* p := current_process in let* v := find_virtual_address p virt size in f v).
Proof.
  intros Hf k Hk. unfold current_process, current_pid. unfold st_bind at 2.
  destruct (process_safe ph (k_current k) (fun p => let* v := find_virtual_address p virt size in f v) k Hk) as [_ H]; [|exact H].
  intros p Hp. pose proof (process_pid_of _ k _ p Hk Hp) as E. apply keeps_safe; [|done]. apply find_safe; [done|by rewrite E].
Qed.
Lemma keeps_find_try {A} virt size (f : result Error Z -> KS A) :
  (forall a, keeps (f a)) -> keeps (let* p := current_process in let* v := st_try (find_virtual_address p virt size) in f v).
Proof.
  intros Hf k Hk. unfold current_process, current_pid. unfold st_bind at 2.
  destruct (process_safe ph (k_current k) (fun p => let* v := st_try (find_virtual_address p virt size) in f v) k Hk) as [_ H]; [|exact H].
  intros p Hp. pose proof (process_pid_of _ k _ p Hk Hp) as E. apply keeps_safe; [|done].
  eapply safe_try; [apply find_safe; [done|by rewrite E]|done].
Qed.

(** Changing a field of a process that was just looked up. *)
Definition same_process_state (p p' : Process) : Prop :=
  process_pid p' = process_pid p /\ threads p' = threads p /\ thread_priorities p' = thread_priorities p
  /\ connection_map p' = connection_map p.
Lemma update_safe pid p p' k :
  wf k -> k_processes k !! pid = Some p -> same_process_state p p' -> safe (fun _ => wf) wf (put_process p' k).
Proof.
  intros Hk Hp (E1 & E2 & E3 & E4). pose proof (process_pid_of _ k pid p Hk Hp) as <-.
  eapply put_process_safe; [done|done..|]. rewrite E4. by apply (kw_connections _ _ Hk).
Qed.
Lemma keeps_update {A} pid (f : Process -> Process) (g : KS A) :
  (forall p, same_process_state p (f p)) -> keeps g -> keeps (let* p := process pid in let* _ := put_process (f p) in g).
Proof.
  intros Hf Hg k Hk. apply process_safe; [done|]. intros p Hp. apply keeps_safe; [|done]. by eapply update_safe.
Qed.
Lemma keeps_update_current {A} (f : Process -> Process) (g : KS A) :
  (forall p, same_process_state p (f p)) -> keeps g -> keeps (let* p := current_process in let* _ := put_process (f p) in g).
Proof.
  intros Hf Hg k Hk. unfold current_process, current_pid. unfold st_bind at 2.
  destruct (process_safe ph (k_current k) (fun p => let* _ := put_process (f p) in g) k Hk) as [_ H]; [|exact H].
  intros p Hp. apply keeps_safe; [|done]. by eapply update_safe.
Qed.

Hint Extern 1 (KernelInvariant.keeps _ (st_bind _ _)) =>
  first [simple apply keeps_find|simple apply keeps_find_current|simple apply keeps_find_try]; intros; keeps : inv.

Section Board.
Context (regions : list (Z * Z)) (shared_peripherals : list Z) (usage : Z).

Lemma keeps_map_range phys virt size flags user : keeps (map_range regions shared_peripherals phys virt size flags user).
Proof. unfold map_range. apply keeps_bind; [keeps|]. intros pid. apply keeps_find_current. intros v. keeps. Qed.
Lemma keeps_unmap_range virt len : keeps (unmap_range regions shared_peripherals virt len).
Proof. unfold unmap_range. keeps. Qed.
Lemma keeps_check_range range : keeps (check_range_accessible range).
Proof. unfold check_range_accessible. keeps. Qed.
Hint Resolve keeps_map_range keeps_unmap_range keeps_check_range keeps_retry_syscall keeps_activate : inv.
Lemma keeps_map_deferred tid virt size flags :
  keeps (map_with_deferred_zeroing regions shared_peripherals usage tid virt size flags).
Proof.
  unfold map_with_deferred_zeroing. keeps.
Qed.
Lemma release_hint_same p virt : same_process_state p (release_allocation_hint p virt).
Proof. unfold release_allocation_hint. by destruct (_ && _). Qed.
Hint Extern 1 (KernelInvariant.keeps _ (st_bind _ _)) =>
  first [simple apply keeps_update|simple apply keeps_update_current]; [by intros; apply release_hint_same|keeps] : inv.
Lemma keeps_send_memory src dest virt len : keeps (send_memory regions shared_peripherals src dest virt len).
Proof. unfold send_memory. keeps. Qed.
Lemma keeps_lend_memory src dest virt len mutable : keeps (lend_memory regions shared_peripherals src dest virt len mutable).
Proof. unfold lend_memory. keeps. Qed.
Lemma keeps_return_memory src dest virt len : keeps (return_memory regions shared_peripherals src dest virt len).
Proof. unfold return_memory. keeps. Qed.
Lemma keeps_clear_shared pid addr len mode : keeps (clear_shared_range pid addr len mode).
Proof. unfold clear_shared_range. keeps. Qed.
Hint Resolve keeps_map_deferred keeps_send_memory keeps_lend_memory keeps_return_memory keeps_clear_shared : inv.

Lemma keeps_map_zero_finished : keeps (map_zero_finished regions shared_peripherals usage).
Proof.
  unfold map_zero_finished. apply keeps_get. intros k Hk. destruct (pending_map_zero _) as [job|]; [|done].
  revert Hk. generalize (k_tid k). intros tid Hk. revert k Hk.
  match goal with |- forall k, _ -> safe _ _ (?m k) => change (keeps m) end.
  apply keeps_bind; [keeps|]. intros _. intros k Hk. apply process_safe; [done|]. intros p Hp.
  pose proof (process_pid_of _ k _ p Hk Hp) as E. unfold st_bind at 1, st_modify at 1.
  assert (wf (set_current (pz_pid job) tid k)) as Hk' by (by apply (wf_tables ph k)).
  apply keeps_safe; [|intros; keeps]. eapply safe_try; [apply find_safe; [done|by rewrite E]|done].
Qed.

(** ** Threads *)

Lemma keeps_create_thread parent init : keeps (create_thread parent init).
Proof. unfold create_thread. keeps. Qed.
Lemma keeps_wake_joining pid tid value tids : keeps (wake_joining pid tid value tids).
Proof. induction tids as [|t tids IH]; cbn [wake_joining]; keeps. Qed.
Hint Resolve keeps_wake_joining : inv.
Lemma keeps_thread_exited tid : keeps (thread_exited regions shared_peripherals usage tid).
Proof. unfold thread_exited. keeps. Qed.
Lemma keeps_join tid join_tid : keeps (join_thread usage tid join_tid).
Proof. unfold join_thread. keeps. Qed.

(** ** Permission requests *)

Lemma wf_set_requests r k : wf k -> length r = length (k_requests k) -> wf (set_requests r k).
Proof. intros [H1 H2 H3 H4 H5 H6 H7 H8 H9] Hr. split; try done. cbn. congruence. Qed.
Lemma keeps_requests {A B} (op : PermissionRequests -> PermissionRequests * B) (f : B -> KS A) :
  (forall r, length (op r).1 = length r) -> (forall b, keeps (f b)) ->
  keeps (let* k := st_get in let '(entries, b) := op (k_requests k) in let* _ := st_modify (set_requests entries) in f b).
Proof.
  intros Hop Hf. apply keeps_get. intros k Hk. pose proof (Hop (k_requests k)) as Hl.
  destruct (op (k_requests k)) as [entries b]. unfold st_bind at 1, st_modify. apply Hf. by apply wf_set_requests.
Qed.
Lemma keeps_fail_request pid tid id e : keeps (fail_permission_request pid tid id e).
Proof. unfold fail_permission_request, expect_ok. keeps. Qed.
Hint Resolve keeps_fail_request : inv.
Lemma keeps_release_requests pred e : keeps (release_requests pred e).
Proof.
  assert (forall fuel, keeps (release_requests_loop fuel pred e)) as H.
  { induction fuel as [|fuel IH]; cbn [release_requests_loop]; [keeps|].
    apply (keeps_requests (fun r => tombstone_next r pred)).
    - intros r. exact (request_step_length r (ReqTombstone pred)).
    - intros [[[pid tid] id]|]; keeps. }
  unfold release_requests. apply keeps_bind; [keeps|]. intros k. apply H.
Qed.
Hint Resolve keeps_release_requests : inv.

(** ** Connections *)

Lemma keeps_disconnect cid : keeps (disconnect_from_server cid).
Proof.
  unfold disconnect_from_server. intros k Hk. unfold current_process, current_pid. unfold st_bind at 2.
  match goal with |- safe _ _ (st_bind _ ?f k) => destruct (process_safe ph (k_current k) f k Hk) as [_ H] end; [|exact H].
  intros p Hp. pose proof (disconnect_targets (connection_map p) cid) as Ht. pose proof (disconnect_step (connection_map p) cid) as Hs.
  destruct (disconnect_slot (connection_map p) cid) as [m r]. cbn in Ht, Hs. apply keeps_safe; [|intros; keeps].
  pose proof (process_pid_of _ k _ p Hk Hp) as E. rewrite <-E in Hp.
  eapply put_process_safe; [done|exact Hp|done..|]. destruct (kw_connections _ _ Hk _ _ Hp) as [Hw Hd].
  split; [by eapply wf_map_step|]. intros i sidx r' g perms Hi. destruct (Ht i sidx r' g perms Hi) as (? & ? & ? & Hi'). by eapply Hd.
Qed.

Lemma connections_step p m k :
  wf k -> k_processes k !! process_pid p = Some p -> map_step (connection_map p) m -> targets_in (connection_map p) m ->
  safe (fun _ => wf) wf (put_process (set_connections p m) k).
Proof.
  intros Hk Hp Hs Ht. eapply put_process_safe; [done|exact Hp|done..|].
  destruct (kw_connections _ _ Hk _ _ Hp) as [Hw Hd].
  split; [by eapply wf_map_step|]. intros i sidx r' g perms Hi. destruct (Ht i sidx r' g perms Hi) as (? & ? & ? & Hi'). by eapply Hd.
Qed.

Lemma keeps_connect pid sid : keeps (connect_to_server pid sid).
Proof.
  intros k Hk. unfold connect_to_server. unfold st_bind at 1, st_get.
  destruct (position (has_sid sid) (k_servers k)) as [i|] eqn:Ei; [|done]. unfold ok_or, st_lift. unfold st_bind at 1, st_ret at 1.
  apply position_lookup in Ei as ([h|] & Hi & Hf); [|done].
  assert (i < MAX_SERVER_COUNT)%nat as Hlt by (rewrite <-(kw_table _ _ Hk); by eapply lookup_lt_Some).
  assert (server_at (k_servers k) (Z.of_nat i) = Some h) as Hat by (by rewrite server_at_lookup, Nat2Z.id).
  unfold server_expect, server_from_sidx. unfold st_bind at 1 2, st_unwrap. rewrite Hat. cbn [fmap option_fmap option_map st_ret].
  apply process_safe; [done|]. intros p Hp. pose proof (process_pid_of _ k _ p Hk Hp) as <-.
  destruct (kw_connections _ _ Hk _ _ Hp) as [Hw Hd].
  pose proof (add_connection_step (connection_map p) (Z.of_nat i) (default_permissions (hosted h)) Hw) as Hs.
  pose proof (add_targets (connection_map p) (Z.of_nat i) (default_permissions (hosted h))) as Ht.
  destruct (add_connection _ _ _) as [m r]. cbn in Hs, Ht. apply keeps_safe; [|intros; keeps].
  eapply put_process_safe; [done|exact Hp|done..|]. split; [by eapply wf_map_step|].
  intros j sidx r' g perms Hj. destruct (Ht j sidx r' g perms Hj) as [->|(? & ? & ? & Hj')]; [|by eapply Hd].
  left. rewrite u8_id by (unfold is_u8, MAX_SERVER_COUNT in *; lia). by exists h.
Qed.
End Board.
End Calls.

#[export] Hint Resolve keeps_activate keeps_retry_syscall keeps_queue keeps_remember keeps_deliver keeps_send_scalar
  keeps_send_server_event keeps_send_system_event keeps_broadcast keeps_perform_calls keeps_lift_mem
  keeps_map_range keeps_unmap_range keeps_check_range keeps_map_deferred keeps_send_memory keeps_lend_memory
  keeps_return_memory keeps_clear_shared keeps_map_zero_finished keeps_create_thread keeps_thread_exited keeps_join
  keeps_fail_request keeps_release_requests keeps_disconnect keeps_connect : inv.
#[export] Hint Extern 1 (keeps _ (st_bind _ _)) =>
  first [simple apply keeps_find|simple apply keeps_find_current|simple apply keeps_find_try]; intros; keeps : inv.
