(* ===== verification/KernelLifecycle.v ===== *)
(** * Servers and processes come and go

    The operations that change who exists keep the kernel consistent
    ([KernelInvariant.kernel_wf]): creating a server, destroying one - every connection to it
    is cut - and the end of a process, after which nothing belongs to it any more. *)
From stdpp Require Import fin_maps gmap.
From S2P Require Import Prelude Xous SysCall Permissions Server Scheduler Threads Connections.
From S2P Require Import PermissionRequests Irq Process MemManager PageTable Mapping Memory.
From S2P Require Import Kernel KernelRules Services Syscalls KernelInvariant.

(** From one phase to another. *)
Lemma wf_phase ph ph' k :
  orphaned ph' = orphaned ph -> wf_gen ph k ->
  (forall pid p, k_processes k !! pid = Some p -> connections_ok (dangling ph') pid (k_servers k) (connection_map p)) ->
  (forall i h, k_servers k !! i = Some (Some h) -> hosts ph i (server_pid (hosted h)) (server_sid (hosted h)) ->
     hosts ph' i (server_pid (hosted h)) (server_sid (hosted h))) ->
  (forall pid, armed ph pid -> armed ph' pid) ->
  (forall pid, live ph' pid -> is_Some (k_processes k !! pid)) ->
  wf_gen ph' k.
Proof.
  intros Ho [H1 H2 H3 H4 H5 H6 H7 H8 H9] Hd Hh Ha Hl. split; try done; [by rewrite Ho|..].
  - intros i h Hi. destruct (H4 i h Hi) as (? & ? & ?). auto.
  - intros i pid pc arg Hi. destruct (H8 i pid pc arg Hi). auto.
Qed.
Lemma connections_weaken (D D' : Z -> Z -> Prop) pid servers m :
  (forall sidx, D pid sidx -> D' pid sidx) -> connections_ok D pid servers m -> connections_ok D' pid servers m.
Proof. intros HD [Hw Hc]. split; [done|]. intros i sidx r g perms Hi. destruct (Hc i sidx r g perms Hi); eauto. Qed.

Section Board.
Context (regions : list (Z * Z)) (shared_peripherals : list Z) (usage : Z).

(** ** Creating a server *)

(** [map_range] maps a range of the size asked for, in a process that exists. *)
Lemma map_range_result phys virt size flags user k :
  safe (fun range k' => range_size range = size /\ is_Some (k_processes k !! k_current k)) (fun _ => True)
    (map_range regions shared_peripherals phys virt size flags user k).
Proof.
  unfold map_range, current_process, current_pid. unfold st_bind at 1 2 3, process_unwrap.
  destruct (k_processes k !! k_current k) as [p|] eqn:Ep; [|done].
  apply safe_bind. unfold safe at 1. destruct (find_virtual_address p virt size k) as [k1 [v|e|]]; [|done..].
  unfold lift_mem. destruct (Memory.map_range _ _ _ _ _ _ size _ _ (k_mem k1)) as [s r] eqn:E.
  set (calls := drop _ _). unfold st_bind. destruct (perform_calls calls (set_mem s k1)) as [k2 [[]|e|]]; [|done..].
  unfold st_outcome, safe. destruct r as [range|e|]; [|done..].
  unfold Memory.map_range in E. apply st_bind_Done in E as (v1 & s1 & _ & E). apply st_bind_Done in E as (p1 & s2 & _ & E).
  apply st_bind_Done in E as ([] & s3 & _ & E). unfold MemoryRange_new, ok_or in E.
  destruct (nonzero_new v1); [|done]. unfold nonzero_new in E. destruct (size =? 0); [done|]. cbn in E.
  injection E as _ <-. split; [done|by eexists].
Qed.

Lemma insert_server_wf ph sid s' addr i k :
  (forall i p s, hosts ph i p s) -> wf_gen ph k -> (i < MAX_SERVER_COUNT)%nat ->
  (forall h, k_servers k !! i <> Some (Some h)) ->
  (forall j h, k_servers k !! j = Some (Some h) -> server_sid (hosted h) <> sid) ->
  wf_server s' -> server_sid s' = sid -> is_Some (k_processes k !! server_pid s') ->
  wf_gen ph (set_servers (<[i := Some (mkHosted s' addr)]> (k_servers k)) k).
Proof.
  intros Hfree [H1 H2 H3 H4 H5 H6 H7 H8 H9] Hi Hslot Hsid Hwf <- Hp.
  assert (forall j h, <[i := Some (mkHosted s' addr)]> (k_servers k) !! j = Some (Some h) ->
    (j = i /\ h = mkHosted s' addr) \/ (j <> i /\ k_servers k !! j = Some (Some h))) as Hback.
  { intros j h Hj. destruct (decide (i = j)) as [<-|Hne].
    - rewrite list_lookup_insert_eq in Hj by (rewrite H3; done). left. by simplify_eq.
    - rewrite list_lookup_insert_ne in Hj by done. by right. }
  split; cbn; try done.
  - intros pid p Hpp. destruct (H2 pid p Hpp) as [Hw Hc]. split; [done|]. intros j sidx r g perms Hj.
    destruct (Hc j sidx r g perms Hj) as [[h Hh]|]; [left|by right]. apply server_at_lookup in Hh.
    exists h. apply server_at_lookup. rewrite list_lookup_insert_ne; [done|]. intros ->. by eapply Hslot.
  - by rewrite length_insert.
  - intros j h Hj. destruct (Hback j h Hj) as [[-> ->]|[_ Hj']]; [by split_and!|]. destruct (H4 j h Hj') as (? & ? & ?). auto.
  - intros j1 j2 a b Ha Hb E. destruct (Hback _ _ Ha) as [[-> ->]|[? Ha']], (Hback _ _ Hb) as [[-> ->]|[? Hb']]; cbn in E.
    + done.
    + by destruct (Hsid _ _ Hb').
    + by destruct (Hsid _ _ Ha').
    + by eapply H5.
Qed.

Lemma keeps_create_server ph sid initial :
  (forall i p s, hosts ph i p s) -> keeps ph (create_server_with_address regions shared_peripherals sid initial).
Proof.
  intros Hfree k Hk. unfold create_server_with_address. unfold st_bind at 1, current_pid. set (pid := k_current k).
  unfold st_bind at 1, st_get. destruct (existsb (has_sid sid) (k_servers k)) eqn:Eex; [done|].
  destruct (position _ (k_servers k)) as [i|] eqn:Epos; [|done].
  apply position_lookup in Epos as ([h0|] & Hi & H0); [done|]. clear H0.
  assert (i < MAX_SERVER_COUNT)%nat as Hlt by (rewrite <-(kw_table _ _ Hk); by eapply lookup_lt_Some).
  pose proof (map_range_result 0 0 PAGE_SIZE (MemoryFlags_bitor MF_W MF_POPULATE) false k) as Hres. fold pid in Hres.
  destruct (k_processes k !! pid) as [p|] eqn:Ep.
  2: { pose proof (keeps_map_range ph regions shared_peripherals 0 0 PAGE_SIZE (MemoryFlags_bitor MF_W MF_POPULATE) false k Hk) as Hkeep.
       unfold st_bind. destruct (map_range _ _ 0 0 _ _ _ k) as [k1 [range|e|]]; cbn in Hres |- *; [|done..].
       by destruct Hres as [_ [? ?]]. }
  set (ph1 := mkPhase (dangling ph) (fun j p s => j <> i /\ s <> sid) (armed ph) (fun q => live ph q \/ q = pid) (orphaned ph)).
  assert (wf_gen ph1 k) as Hk1.
  { apply (wf_phase ph); [done|done|by apply Hk| |done|].
    - intros j h Hj _. cbn. split; [congruence|]. intros E. assert (existsb (has_sid sid) (k_servers k) = true) as Hex; [|congruence].
      apply existsb_exists. exists (Some h). split; [apply list_elem_of_In; by eapply list_elem_of_lookup_2|]. cbn. by apply bool_decide_eq_true_2.
    - cbn. intros q [Hq| ->]; [by apply (kw_live _ _ Hk)|]. by exists p. }
  pose proof (keeps_map_range ph1 regions shared_peripherals 0 0 PAGE_SIZE (MemoryFlags_bitor MF_W MF_POPULATE) false k Hk1) as Hkeep.
  apply safe_bind. destruct (map_range _ _ 0 0 _ _ _ k) as [k1 [range|e|]]; cbn in Hres, Hkeep; unfold safe at 1; cbv beta match; [| |done].
  2: { apply (wf_phase ph1); [done|done|by apply Hkeep|intros; apply Hfree|done|]. intros q Hq. apply (kw_live _ _ Hkeep). by left. }
  destruct Hres as [Hsize _]. destruct (Server.init None pid sid range initial) as [[s|] [[]|e]] eqn:Einit; try done.
  destruct (Server.init_page pid sid range initial s Hsize Einit) as (Hwf & Hpid & Hsid).
  unfold st_bind at 1, st_modify. cbv beta; apply keeps_bind; [by apply keeps_wake_threads|by intros _ ? ?|].
  assert (wf_gen ph k1) as Hk2.
  { apply (wf_phase ph1); [done|done|by apply Hkeep|intros; apply Hfree|done|]. intros q Hq. apply (kw_live _ _ Hkeep). by left. }
  apply (insert_server_wf ph sid); try done.
  - intros h Hh. by destruct (kw_server _ _ Hkeep i h Hh) as (_ & _ & ? & _).
  - intros j h Hh. by destruct (kw_server _ _ Hkeep j h Hh) as (_ & _ & _ & ?).
  - rewrite Hpid. apply (kw_live _ _ Hkeep). by right.
Qed.

(** ** Destroying a server *)

Section Destroy.
Context (ph : Phase).
#[local] Instance ops : SystemOps Kernel := kernel_ops regions shared_peripherals.

Lemma kernel_ops_wf : ops_keep (wf_gen ph).
Proof.
  split; intros *.
  - apply (run_op_inv (wf_gen ph)), keeps_return_memory.
  - apply (run_unwrap_inv (wf_gen ph)), keeps_clear_shared.
  - apply (run_unwrap_inv (wf_gen ph)), keeps_set_thread_state.
  - apply (run_unwrap_inv (wf_gen ph)). change (keeps ph (set_thread_result pid tid r)). keeps.
  - apply (run_op_inv (wf_gen ph)), keeps_unmap_range.
Qed.
Lemma destroy_wf s pid addr k k' : Server.destroy s pid addr k = Some k' -> wf_gen ph k -> wf_gen ph k'.
Proof. apply (destroy_keeps (wf_gen ph) kernel_ops_wf). Qed.
End Destroy.

(** The connections to server [sidx] of the processes [pids] are still to be cut; the slot of
    the server is empty. *)
Definition cutting (ph : Phase) (sidx : Z) (pids : list Z) : Phase :=
  mkPhase (fun pid s => dangling ph pid s \/ (s = sidx /\ pid ∈ pids))
    (fun i p sid => hosts ph i p sid /\ i <> Z.to_nat sidx) (armed ph) (live ph) (orphaned ph).

Lemma cutting_next ph sidx pid pids k :
  (forall p, k_processes k !! pid = Some p -> forall i r g perms, connection_map p !! i <> Some (SlotConnected sidx r g perms)) ->
  wf_gen (cutting ph sidx (pid :: pids)) k -> wf_gen (cutting ph sidx pids) k.
Proof.
  intros Hp Hk. apply (wf_phase (cutting ph sidx (pid :: pids))); [done|done| |done|done|apply Hk].
  intros q x Hx. destruct (kw_connections _ _ Hk q x Hx) as [Hw Hc]. split; [done|].
  intros i s r g perms Hi. destruct (Hc i s r g perms Hi) as [?|[Hd|[-> Hq]]]; [by left|by right; left|].
  apply elem_of_cons in Hq as [->|Hq]; [by destruct (Hp x Hx i r g perms)|]. right. by right.
Qed.

Lemma tombstone_connections_safe ph sidx pids : forall k,
  is_u8 sidx -> wf_gen (cutting ph sidx pids) k ->
  safe (fun _ => wf_gen (cutting ph sidx [])) (fun _ => False) (tombstone_connections sidx pids k).
Proof.
  induction pids as [|pid pids IH]; intros k Hs Hk; cbn [tombstone_connections]; [done|].
  unfold st_bind at 1, st_get. apply safe_bind.
  apply (safe_mono (fun _ => wf_gen (cutting ph sidx pids)) _ (fun _ => False) _); [| |done].
  2: { intros [] k' Hk'. by apply IH. }
  destruct (k_processes k !! pid) as [p|] eqn:Ep.
  2: { apply (cutting_next ph sidx pid); [|done]. intros p Hp. congruence. }
  pose proof (process_pid_of _ k _ p Hk Ep) as Epid. pose proof Ep as Ep'. rewrite <-Epid in Ep'.
  destruct (kw_connections _ _ Hk _ _ Ep) as [Hw Hd]. pose proof (tombstone_step (connection_map p) sidx) as Hstep.
  pose proof (tombstone_targets (connection_map p) sidx Hw) as [Ht Hno]. rewrite u8_id in Hno by done.
  pose proof (connections_step _ p (tombstone_connection_by_sidx (connection_map p) sidx).1 k Hk Ep' Hstep Ht) as Hput.
  destruct (tombstone_connection_by_sidx (connection_map p) sidx) as [m cid]. cbn [fst] in *.
  apply safe_bind. unfold put_process, st_modify in *. unfold safe at 1. unfold safe in Hput.
  set (k1 := set_processes _ k) in *.
  assert (wf_gen (cutting ph sidx pids) k1) as Hk1.
  { apply (cutting_next ph sidx pid); [|done]. intros p1 Hp1. unfold k1 in Hp1. cbn in Hp1.
    rewrite Epid, lookup_insert_eq in Hp1. injection Hp1 as <-. cbn. apply Hno. }
  clearbody k1. destruct cid as [cid|]; [|done]. apply safe_bind.
  eapply (safe_try _ (fun _ => wf_gen (cutting ph sidx pids)) (wf_gen (cutting ph sidx pids)));
    [by apply keeps_send_system_event|done].
Qed.

Lemma destroy_sidx_safe ph sidx k :
  0 <= sidx < Z.of_nat MAX_SERVER_COUNT -> wf_gen ph k ->
  safe (fun _ => wf_gen (cutting ph sidx [])) (wf_gen ph) (destroy_sidx regions shared_peripherals sidx k).
Proof.
  intros Hs Hk. unfold destroy_sidx. apply safe_bind.
  eapply safe_mono; [by apply keeps_release_requests| |done]. intros [] k1 Hk1.
  unfold st_bind at 1, st_get. destruct (server_at (k_servers k1) sidx) as [h|] eqn:Eh; [|done].
  unfold st_unwrap at 1. unfold st_bind at 1, st_ret at 1. unfold st_bind at 1, st_modify.
  set (k2 := set_servers _ k1).
  assert (wf_gen (cutting ph sidx (seqZ 1 MAX_PROCESS_COUNT)) k2) as Hk2.
  { destruct Hk1 as [H1 H2 H3 H4 H5 H6 H7 H8 H9].
    assert (forall j h', k_servers k2 !! j = Some (Some h') -> j <> Z.to_nat sidx /\ k_servers k1 !! j = Some (Some h')) as Hback.
    { intros j h' Hj. cbn in Hj. destruct (decide (j = Z.to_nat sidx)) as [->|Hne].
      - rewrite list_lookup_insert_eq in Hj; [done|]. rewrite H3. lia.
      - by rewrite list_lookup_insert_ne in Hj. }
    split; try done.
    - intros pid p Hp. destruct (H2 pid p Hp) as [Hw Hd]. split; [done|]. intros i s r g perms Hi.
      assert (is_u8 s) as Hu8.
      { destruct Hw as (_ & Hall & _). by destruct (Forall_lookup_1 _ _ _ _ Hall Hi) as (? & _). }
      destruct (Hd i s r g perms Hi) as [[h' Hh']|]; [|by right; left].
      destruct (decide (s = sidx)) as [->|Hne].
      + right. right. split; [done|]. apply elem_of_seqZ. destruct H1 as (Hwf & _). destruct (Hwf _ _ Hp) as (_ & ? & _).
        unfold MAX_PROCESS_COUNT in *. lia.
      + left. exists h'. apply server_at_lookup. apply server_at_lookup in Hh'. cbn.
        rewrite list_lookup_insert_ne; [done|]. unfold is_u8 in Hu8. lia.
    - cbn. by rewrite length_insert.
    - intros j h' Hj. destruct (Hback j h' Hj) as [Hne Hj']. destruct (H4 j h' Hj') as (? & ? & ?). split_and!; try done.
    - intros j1 j2 a b Ha Hb. destruct (Hback _ _ Ha) as [_ Ha'], (Hback _ _ Hb) as [_ Hb']. by eapply H5. }
  clearbody k2. unfold st_bind at 1, current_pid at 1. unfold st_bind at 1, st_get. unfold st_bind at 1.
  destruct (Server.destroy (hosted h) (k_current k2) (backing h) k2) as [k3|] eqn:Ed; [|done].
  unfold st_unwrap, st_ret. unfold st_bind at 1, st_put.
  pose proof (destroy_wf _ _ _ _ _ _ Ed Hk2) as Hk3.
  eapply safe_mono; [apply tombstone_connections_safe; [|exact Hk3]|done|done].
  unfold is_u8, MAX_SERVER_COUNT in *. lia.
Qed.

Lemma cutting_done ph sidx k : wf_gen (cutting ph sidx []) k -> wf_gen ph k.
Proof.
  intros Hk. apply (wf_phase (cutting ph sidx [])); [done|done| | |done|apply Hk].
  - intros pid p Hp. eapply connections_weaken; [|by apply Hk]. cbn. intros s [?|[_ ?%elem_of_nil]]; done.
  - by intros i h Hi [? _].
Qed.

Lemma keeps_destroy_server ph pid sid : keeps ph (destroy_server regions shared_peripherals pid sid).
Proof.
  intros k Hk. unfold destroy_server, sidx_from_sid. unfold st_bind at 1.
  destruct (position (owns_sid sid pid) (k_servers k)) as [i|] eqn:Ei; [|done]. cbn [fmap option_fmap option_map ok_or st_lift].
  unfold st_bind at 1, st_ret. apply position_lookup in Ei as (h & Hi & _).
  eapply safe_mono; [apply destroy_sidx_safe; [|exact Hk]| |done].
  - apply lookup_lt_Some in Hi. rewrite (kw_table _ _ Hk) in Hi. lia.
  - intros [] k'. apply cutting_done.
Qed.

(** ** The servers of a process that ends *)

(** No server outside the slots [sidxs] belongs to [pid]. *)
Definition leaving (ph : Phase) (pid : Z) (sidxs : list Z) : Phase :=
  mkPhase (dangling ph) (fun i p sid => hosts ph i p sid /\ (Z.of_nat i ∉ sidxs -> p <> pid)) (armed ph) (live ph) (orphaned ph).

Lemma leaving_weaken ph pid sidxs k : wf_gen (leaving ph pid sidxs) k -> wf_gen ph k.
Proof. intros Hk. apply (wf_phase (leaving ph pid sidxs)); [done|done|by apply Hk|by intros i h Hi [? _]|done|apply Hk]. Qed.

Lemma leaving_next ph pid sidx sidxs k :
  (forall h, k_servers k !! Z.to_nat sidx = Some (Some h) -> server_pid (hosted h) <> pid) ->
  wf_gen (leaving ph pid (sidx :: sidxs)) k -> wf_gen (leaving ph pid sidxs) k.
Proof.
  intros Hno Hk. apply (wf_phase (leaving ph pid (sidx :: sidxs))); [done|done|by apply Hk| |done|apply Hk].
  intros i h Hi [Hh Hp]. split; [done|]. intros Hni. destruct (decide (Z.of_nat i = sidx)) as [<-|Hne].
  - apply Hno. by rewrite Nat2Z.id.
  - apply Hp. by rewrite not_elem_of_cons.
Qed.

Lemma leave_servers_safe ph pid sidxs : forall k,
  (forall s, s ∈ sidxs -> 0 <= s < Z.of_nat MAX_SERVER_COUNT) -> wf_gen (leaving ph pid sidxs) k ->
  safe (fun _ => wf_gen (leaving ph pid [])) (wf_gen ph) (leave_servers regions shared_peripherals pid sidxs k).
Proof.
  induction sidxs as [|sidx sidxs IH]; intros k Hs Hk; cbn [leave_servers]; [done|].
  unfold st_bind at 1, server_from_sidx. apply safe_bind.
  apply (safe_mono (fun _ => wf_gen (leaving ph pid sidxs)) _ (wf_gen ph) _); [| |done].
  2: { intros [] k' Hk'. apply IH; [|done]. intros s' Hs'. apply Hs, elem_of_cons. by right. }
  destruct (server_at (k_servers k) sidx) as [h|] eqn:Eh; cbn [fmap option_fmap option_map].
  2: { apply (leaving_next ph pid sidx); [|done]. intros h Hh. apply server_at_lookup in Hh. congruence. }
  pose proof Eh as Eh'. apply server_at_lookup in Eh'. destruct (Z.eqb_spec (server_pid (hosted h)) pid) as [Epid|Hne].
  - eapply safe_mono; [apply destroy_sidx_safe; [|exact Hk]| |].
    + apply Hs, elem_of_cons. by left.
    + intros [] k1 Hk1. apply (leaving_next ph pid sidx).
      * intros h1 Hh1. by destruct (kw_server _ _ Hk1 _ _ Hh1) as (_ & _ & _ & ?).
      * by eapply cutting_done.
    + intros k1. apply leaving_weaken.
  - assert (wf_gen (leaving ph pid sidxs) k) as Hk1.
    { apply (leaving_next ph pid sidx); [|done]. intros h1 Hh1. congruence. }
    apply (safe_mono (fun _ => wf_gen (leaving ph pid sidxs)) _ (wf_gen (leaving ph pid sidxs)) _);
      [|done|intros k1; apply leaving_weaken].
    revert k Hs Hk Hk1 Eh Eh'. intros k _ _ Hk1 _ _. revert k Hk1.
    match goal with |- forall k, _ -> safe _ _ (?m k) => change (keeps (leaving ph pid sidxs) m) end.
    keeps. apply keeps_lift_server. intros s s' [] Hwf [= <-]. by apply discard_ok.
Qed.

(** ** Events pass by a process without servers *)

(** Nobody owned by [pid], and its threads are [ts]. *)
Definition left_alone (pid : Z) (ts : option (list ThreadState)) (k : Kernel) : Prop :=
  (forall i h, k_servers k !! i = Some (Some h) -> server_pid (hosted h) <> pid)
  /\ threads <$> (k_processes k !! pid) = ts.

Section LeftAlone.
Context (ph : Phase) (pid : Z) (ts : option (list ThreadState)).
Definition passes {A} (m : KS A) : Prop :=
  forall k, wf_gen ph k /\ left_alone pid ts k -> safe (fun _ k' => wf_gen ph k' /\ left_alone pid ts k') (fun k' => wf_gen ph k' /\ left_alone pid ts k') (m k).

Lemma passes_bind {A B} (m : KS A) (f : A -> KS B) : passes m -> (forall a, passes (f a)) -> passes (st_bind m f).
Proof. intros Hm Hf k Hk. apply safe_bind. eapply safe_mono; [by apply Hm| |done]. intros a k' Hk'. by apply Hf. Qed.
Lemma passes_try {A} (m : KS A) : passes m -> passes (st_try m).
Proof. intros Hm k Hk. eapply safe_try; [by apply Hm|done]. Qed.
Lemma passes_same {A} (m : KS A) : same tables m -> passes m.
Proof.
  intros Hm k [Hk [H1 H2]]. specialize (Hm k). pose proof Hm as E. unfold tables in E. injection E as E1 E2 E3 E4 E5.
  assert (wf_gen ph (m k).1 /\ left_alone pid ts (m k).1) as H.
  { split; [by eapply wf_tables|]. split; [by rewrite E3|by rewrite E2]. }
  unfold safe. destruct (m k) as [k' [a|e|]]; cbn in H; done.
Qed.
Lemma passes_keeps {A} (m : KS A) :
  keeps ph m -> (forall k, wf_gen ph k -> left_alone pid ts k -> safe (fun _ => left_alone pid ts) (left_alone pid ts) (m k)) -> passes m.
Proof.
  intros Hm Hl k [Hk Ha]. specialize (Hm k Hk). specialize (Hl k Hk Ha). unfold safe in *.
  destruct (m k) as [k' [a|e|]]; done.
Qed.
Lemma passes_set_thread_state q tid state k :
  q <> pid -> wf_gen ph k /\ left_alone pid ts k ->
  safe (fun _ k' => wf_gen ph k' /\ left_alone pid ts k') (fun k' => wf_gen ph k' /\ left_alone pid ts k') (set_thread_state q tid state k).
Proof.
  intros Hne [Hk [H1 H2]]. pose proof (keeps_set_thread_state ph q tid state k Hk) as Hkeep.
  assert (safe (fun _ => left_alone pid ts) (left_alone pid ts) (set_thread_state q tid state k)) as Hleft.
  { unfold set_thread_state, process_unwrap. unfold st_bind at 1. destruct (k_processes k !! q) as [p|] eqn:Ep; [|done].
    pose proof (process_pid_of _ k _ p Hk Ep) as Epid. unfold st_bind at 1, st_get.
    destruct (Process.set_thread_state _ p _ state) as [[sch p']|] eqn:E; [|done]. cbn. split; [done|].
    destruct (set_thread_state_Some _ _ _ _ _ _ _ _ (kw_threads _ _ Hk) Ep E) as [-> _]. cbn.
    rewrite Epid. by rewrite lookup_insert_ne. }
  unfold safe in *. destruct (set_thread_state q tid state k) as [k' [a|e|]]; [by split|by split|done].
Qed.
Lemma passes_lift_server {A} sidx (f : Server -> option (Server * A)) :
  (forall s s' a, wf_server s -> f s = Some (s', a) -> server_ok s s') -> passes (lift_server sidx f).
Proof.
  intros Hf. apply passes_keeps; [by apply keeps_lift_server|]. intros k Hk [H1 H2].
  unfold lift_server, server_expect, server_from_sidx. unfold st_bind at 1 2, st_unwrap at 1.
  destruct (server_at (k_servers k) sidx) as [h|] eqn:Hh; cbn; [|done]. apply server_at_lookup in Hh.
  destruct (f (hosted h)) as [[s' a]|] eqn:E; [|done]. cbn. split; [|done]. cbn. intros i h' Hi.
  destruct (Hf _ _ _ (proj1 (kw_server _ _ Hk _ _ Hh)) E) as (_ & Hpid & _).
  destruct (decide (i = Z.to_nat sidx)) as [->|Hne].
  - rewrite list_lookup_alter_eq, Hh in Hi. cbn in Hi. injection Hi as <-. cbn. rewrite Hpid. by eapply H1.
  - rewrite list_lookup_alter_ne in Hi by done. by eapply H1.
Qed.

Ltac passes_step :=
  first
    [ apply passes_same; solve [auto with mem]
    | solve [auto 2]
    | simple apply passes_bind; [|intros]
    | simple apply passes_try
    | match goal with
      | |- passes (match ?x with _ => _ end) => destruct x
      | |- passes (if ?x then _ else _) => destruct x
      | |- passes (let '(_, _) := ?x in _) => destruct x
      end
    | apply passes_same; solve [mem_same] ].
Ltac passes := repeat passes_step.

Lemma passes_queue sidx q tid m a : passes (queue_server_message sidx q tid m a).
Proof.
  unfold queue_server_message. passes. apply passes_lift_server. intros s s' r Hs E. by eapply queue_message_ok.
Qed.
Lemma passes_remember sidx q tid m a : passes (remember_server_message sidx q tid m a).
Proof.
  unfold remember_server_message. passes. apply passes_lift_server. intros s s' r Hs [= E].
  pose proof (queue_response_ok s q tid m a Hs) as H. by rewrite E in H.
Qed.
Lemma passes_deliver sidx tid m a : passes (deliver_message sidx tid m a).
Proof.
  pose proof passes_queue. pose proof passes_remember. unfold deliver_message.
  apply passes_bind; [passes|intros sender]. apply passes_bind; [|intros [server_tid|]].
  { apply passes_lift_server. intros s s' r Hs E. by eapply take_available_ok. }
  2: passes.
  apply passes_bind.
  { destruct (is_blocking m); [|passes]. apply passes_bind; [passes|]. intros [idx|e]; [passes|].
    apply passes_bind; [|intros; passes]. apply passes_lift_server. intros s s' r Hs E.
    destruct (return_available_thread s _) as [s1|] eqn:E1; [|done]. injection E as -> _. by eapply return_available_ok. }
  intros idx k Hk. unfold server_expect, server_from_sidx. unfold st_bind at 1 2 3, st_unwrap at 1.
  destruct (server_at (k_servers k) sidx) as [h|] eqn:Eh; cbn [fmap option_fmap option_map st_ret]; [|done].
  apply server_at_lookup in Eh. apply safe_bind. eapply safe_mono; [apply passes_set_thread_state; [|exact Hk]| |done].
  - destruct Hk as [_ [Hk _]]. by eapply Hk.
  - intros [] k1 Hk1. revert k1 Hk1.
    match goal with |- forall k, _ -> safe _ _ (?m k) => change (passes m) end. passes.
Qed.
Lemma passes_send_scalar tid sidx m : passes (send_scalar tid sidx m).
Proof. pose proof passes_deliver. unfold send_scalar. passes. Qed.
Lemma passes_send_system_event q e args : passes (send_system_event q e args).
Proof. pose proof passes_send_scalar. unfold send_system_event. passes. Qed.
Lemma passes_broadcast e args : passes (broadcast_event e args).
Proof.
  pose proof passes_send_system_event. unfold broadcast_event. generalize (seqZ 1 MAX_PROCESS_COUNT), 0. intros pids.
  induction pids as [|q pids IH]; intros n; cbn [broadcast_loop]; passes.
Qed.
Lemma passes_perform_calls calls : passes (perform_calls calls).
Proof. pose proof passes_broadcast. induction calls as [|[|? ?] calls IH]; cbn [perform_calls]; passes. Qed.
Lemma passes_lift_mem {A} (m : (Z -> Z -> result Error unit) -> MS A) : passes (lift_mem m).
Proof.
  intros k [Hk Ha]. unfold lift_mem. destruct (m _ (k_mem k)) as [s r]. set (calls := drop _ _).
  assert (wf_gen ph (set_mem s k) /\ left_alone pid ts (set_mem s k)) as Hk'.
  { split; [by apply (wf_tables ph k)|exact Ha]. }
  revert Hk'. generalize (set_mem s k).
  match goal with |- forall k, _ -> safe _ _ (?m k) => change (passes m) end.
  apply passes_bind; [apply passes_perform_calls|]. intros _. apply passes_same, same_outcome.
Qed.
End LeftAlone.

(** ** The end of a process *)

(** Without a ready thread a process can be taken out; if its interrupt thread is ready, the
    handler is lost. *)
Lemma coherent_delete orphan sch procs pid p :
  coherent_gen orphan sch procs -> procs !! pid = Some p -> (forall tid, tid <> 0%nat -> threads p !! tid <> Some TReady) ->
  coherent_gen (orphan \/ threads p !! 0%nat = Some TReady) sch (delete pid procs).
Proof.
  intros (Hwf & (qs & Hrepr & Hq) & Hirq & Huniq & Horphan) Hp Hno.
  assert (forall q tid pr, is_ready (delete pid procs) q tid pr <-> is_ready procs q tid pr /\ q <> pid) as Hr.
  { intros q tid pr. unfold is_ready. destruct (decide (q = pid)) as [->|Hne].
    - rewrite lookup_delete_eq. split; [by intros (? & ? & ? & _)|by intros [_ ?]].
    - rewrite lookup_delete_ne by done. tauto. }
  assert (threads p !! 0%nat = Some TReady <-> exists pr, is_ready procs pid 0 pr) as Hself.
  { destruct (Hwf _ _ Hp) as (_ & _ & Hl1 & Hl2).
    destruct (lookup_lt_is_Some_2 (thread_priorities p) 0) as [q Hpr]; [rewrite Hl2; unfold THREADS, MAX_THREAD_COUNT; lia|].
    split; [intros Ht; exists (prio q), p, q; done|]. intros (pr & x & y & Hx & Ht & _). congruence. }
  split; [|split; [|split; [|split]]].
  - by apply map_Forall_delete.
  - exists qs. split; [done|]. intros pr q tid. rewrite Hq. setoid_rewrite Hr. split; intros (n & -> & Hn & H); exists n.
    + split; [done|]. split; [done|]. split; [done|]. intros ->. destruct H as (x & y & Hx & Ht & _). rewrite Hp in Hx.
      injection Hx as <-. by eapply Hno.
    + by destruct H.
  - rewrite Hirq. setoid_rewrite Hr. rewrite Hself. split.
    + intros [?|(q & pr & H)]; [by left; left|]. destruct (decide (q = pid)) as [->|]; [left; right; by exists pr|right; by exists q, pr].
    + intros [[?|(pr & H)]|(q & pr & H & _)]; [by left|right; by eexists _, _..].
  - intros a b pr pr' [H1 _]%Hr [H2 _]%Hr. by eapply Huniq.
  - intros [Ho|(pr & H)%Hself] q pr' [H1 Hne]%Hr; [by eapply Horphan|]. apply Hne. by eapply Huniq.
Qed.

(** The phase after the process is gone. *)
Definition handler_ends (ph : Phase) (lost : Prop) : Phase :=
  mkPhase (dangling ph) (hosts ph) (armed ph) (live ph) (orphaned ph \/ lost).
Lemma delete_wf ph pid p k :
  wf_gen ph k -> k_processes k !! pid = Some p ->
  (forall tid, tid <> 0%nat -> threads p !! tid <> Some TReady) ->
  (forall i h, k_servers k !! i = Some (Some h) -> server_pid (hosted h) <> pid) ->
  ~ armed ph pid -> ~ live ph pid ->
  wf_gen (handler_ends ph (threads p !! 0%nat = Some TReady)) (set_processes (delete pid (k_processes k)) k).
Proof.
  intros [H1 H2 H3 H4 H5 H6 H7 H8 H9] Hp Hno Hsrv Harmed Hlive.
  assert (forall q, q <> pid -> is_Some (k_processes k !! q) -> is_Some (delete pid (k_processes k) !! q)) as Hdom.
  { intros q Hq Hs. by rewrite lookup_delete_ne. }
  split; cbn; try done.
  - by apply coherent_delete.
  - intros q x Hx. apply lookup_delete_Some in Hx as [_ Hx]. by apply H2.
  - intros i h Hi. destruct (H4 i h Hi) as (? & ? & ?). split_and!; [done| |done]. apply Hdom; [by eapply Hsrv|done].
  - intros i q pc arg Hi. destruct (H8 i q pc arg Hi) as [? Ha]. split; [|done]. apply Hdom; [by intros ->|done].
  - intros q Hq. apply Hdom; [by intros ->|by apply H9].
Qed.

Lemma reparent_fields pid p :
  process_pid (reparent pid p) = process_pid p /\ threads (reparent pid p) = threads p
  /\ thread_priorities (reparent pid p) = thread_priorities p /\ connection_map (reparent pid p) = connection_map p.
Proof. unfold reparent. by case_bool_decide. Qed.

Lemma reparent_wf ph pid k : wf_gen ph k -> wf_gen ph (set_processes (reparent pid <$> k_processes k) k).
Proof.
  intros [H1 H2 H3 H4 H5 H6 H7 H8 H9]. set (procs := reparent pid <$> k_processes k).
  assert (forall q p', procs !! q = Some p' -> exists p, k_processes k !! q = Some p /\ p' = reparent pid p) as Hback.
  { intros q p' Hp. unfold procs in Hp. rewrite lookup_fmap in Hp. apply fmap_Some in Hp as (p & ? & ->). by exists p. }
  assert (forall q, is_Some (k_processes k !! q) -> is_Some (procs !! q)) as Hdom.
  { intros q [p Hp]. unfold procs. rewrite lookup_fmap, Hp. by eexists. }
  assert (forall q tid pr, is_ready procs q tid pr <-> is_ready (k_processes k) q tid pr) as Hr.
  { intros q tid pr. unfold is_ready. split.
    - intros (p' & y & (p & Hp & ->)%Hback & Ht & Hy & Hpr). destruct (reparent_fields pid p) as (_ & E1 & E2 & _).
      rewrite E1 in Ht. rewrite E2 in Hy. by exists p, y.
    - intros (p & y & Hp & Ht & Hy & Hpr). destruct (reparent_fields pid p) as (_ & E1 & E2 & _). exists (reparent pid p), y.
      rewrite E1, E2. unfold procs. by rewrite lookup_fmap, Hp. }
  split; cbn; try done.
  - destruct H1 as (Hwf & (qs & Hrepr & Hq) & Hirq & Huniq & Horphan). split; [|split; [|split; [|split]]].
    + intros q p' (p & Hp & ->)%Hback. destruct (reparent_fields pid p) as (E0 & E1 & E2 & _).
      unfold wf_process. rewrite E0, E1, E2. by apply Hwf.
    + exists qs. split; [done|]. intros pr q tid. rewrite Hq. by setoid_rewrite Hr.
    + rewrite Hirq. by setoid_rewrite Hr.
    + intros a b pr pr' Ha Hb. apply Hr in Ha, Hb. by eapply Huniq.
    + intros Ho q pr H%Hr. by eapply Horphan.
  - intros q p' (p & Hp & ->)%Hback. destruct (reparent_fields pid p) as (_ & _ & _ & ->). by apply H2.
  - intros i h Hi. destruct (H4 i h Hi) as (? & ? & ?). auto.
  - intros i q pc arg Hi. destruct (H8 i q pc arg Hi). auto.
  - intros q Hq. auto.
Qed.

Lemma release_interrupts_wf ph pid k :
  wf_gen ph k ->
  wf_gen (mkPhase (dangling ph) (hosts ph) (fun q => armed ph q /\ q <> pid) (live ph) (orphaned ph))
    (set_irqs (release_interrupts_for_pid (k_irqs k) pid) k).
Proof.
  intros [H1 H2 H3 H4 H5 H6 H7 H8 H9]. split; try done.
  - cbn. by apply wf_release.
  - intros i q pc arg Hi. cbn in Hi. rewrite list_lookup_fmap in Hi. apply fmap_Some in Hi as (h & Hh & E).
    destruct h as [|q' pc' arg'|]; cbn in E; try done. destruct (Z.eqb_spec q' pid) as [->|Hne]; [done|].
    injection E as -> -> ->. destruct (H8 i q' pc' arg' Hh). done.
Qed.

(** [pid] is stopped: it has no server, no handler and no ready thread but perhaps the
    interrupt thread. *)
Definition disarmed (ph : Phase) (pid : Z) : Phase :=
  mkPhase (dangling ph) (hosts ph) (fun q => armed ph q /\ q <> pid) (live ph) (orphaned ph).
Definition stopped (pid : Z) (k : Kernel) : Prop :=
  exists ts, left_alone pid (Some ts) k /\ forall tid, tid <> 0%nat -> ts !! tid <> Some TReady.

Lemma terminate_safe ph pid k :
  wf_gen ph k -> (forall i h, k_servers k !! i = Some (Some h) -> server_pid (hosted h) <> pid) ->
  safe (fun _ k' => wf_gen (disarmed ph pid) k' /\ stopped pid k') (wf_gen ph) (terminate regions pid k).
Proof.
  intros Hk Hsrv. unfold terminate, process. unfold st_bind at 1. destruct (k_processes k !! pid) as [p|] eqn:Ep; [|done].
  pose proof (process_pid_of _ k _ p Hk Ep) as Epid. unfold st_bind at 1, st_get. unfold terminate_threads.
  destruct (free_threads _ (k_scheduler k) p) as [[sch p']|] eqn:E; [|done].
  pose proof (kw_threads _ _ Hk) as Hc. rewrite <-(insert_id _ _ _ Ep) in Hc.
  destruct (free_threads_Some _ _ _ _ _ _ _ Hc E) as ((ts & ->) & Hc' & Hfree & _). cbn in Hfree.
  pose proof (Hc') as (Hwf' & _). destruct (Hwf' pid _ (lookup_insert_eq _ _ _)) as (_ & _ & Hlen & _). cbn in Hlen.
  unfold st_unwrap. unfold st_bind at 1, st_ret. unfold st_bind at 1, st_modify.
  unfold st_bind at 1, put_process, st_modify. set (k1 := set_processes _ _).
  assert (wf_gen ph k1 /\ left_alone pid (Some ts) k1) as Hk1.
  { split.
    - refine (wf_put ph sch p (set_threads p ts) k _ _ _ _); [done|cbn; by rewrite Epid|cbn; by rewrite Epid|].
      cbn. rewrite Epid. exact (kw_connections _ _ Hk _ _ Ep).
    - split; [exact Hsrv|]. cbn. rewrite Epid. by rewrite lookup_insert_eq. }
  clearbody k1. apply safe_bind. eapply safe_mono; [by apply (passes_lift_mem ph)| |by intros ? [? _]]. clear k1 Hk1. intros [] k1 [Hk1 Ha1].
  unfold st_bind at 1, st_modify. pose proof (release_interrupts_wf ph pid k1 Hk1) as Hk2.
  assert (left_alone pid (Some ts) (set_irqs (release_interrupts_for_pid (k_irqs k1) pid) k1)) as Ha2 by exact Ha1.
  set (k2 := set_irqs _ _) in *. clearbody k2. clear k1 Hk1 Ha1.
  eapply safe_mono; [by apply (passes_lift_mem (disarmed ph pid) pid (Some ts))| |].
  - intros [] k3 [Hk3 Ha3]. split; [done|]. exists ts. split; [done|]. intros tid Hne Ht.
    assert (tid < THREADS)%nat as Hlt by (apply lookup_lt_Some in Ht; lia).
    assert (ts !! tid = Some TFree) as Hf; [|congruence]. apply Hfree, elem_of_seq. lia.
  - intros k3 [Hk3 _]. apply (wf_phase (disarmed ph pid)); [done|done|by apply Hk3|done|by intros q [? _]|apply Hk3].
Qed.

Lemma tombstone_all_length fuel : forall entries pred entries' l,
  tombstone_all fuel entries pred = Some (entries', l) -> length entries' = length entries.
Proof.
  induction fuel as [|fuel IH]; intros entries pred entries' l H; cbn [tombstone_all] in H; [done|].
  pose proof (request_step_length entries (ReqTombstone pred)) as Hl. cbn in Hl.
  destruct (tombstone_next entries pred) as [e1 [x|]]; cbn in Hl.
  - destruct (tombstone_all fuel e1 pred) as [[e2 l2]|] eqn:E2; [|done]. injection H as <- _.
    etransitivity; [by eapply IH|done].
  - by injection H as <- _.
Qed.
Lemma keeps_drop_requests ph pred : keeps ph (drop_requests pred).
Proof.
  unfold drop_requests. apply keeps_get. intros k Hk.
  destruct (tombstone_all _ (k_requests k) pred) as [[entries l]|] eqn:E; [|done].
  cbn. apply wf_set_requests; [done|]. by eapply tombstone_all_length.
Qed.
Lemma keeps_notify ph event sidxs : keeps ph (notify_servers event sidxs).
Proof. induction sidxs as [|sidx sidxs IH]; cbn [notify_servers]; keeps. Qed.
Hint Resolve keeps_drop_requests keeps_notify : inv.

Lemma wf_orphan ph P k : (orphaned ph <-> P) -> wf_gen ph k -> wf_gen (mkPhase (dangling ph) (hosts ph) (armed ph) (live ph) P) k.
Proof.
  intros HP [H1 H2 H3 H4 H5 H6 H7 H8 H9]. split; try done. cbn.
  destruct H1 as (Hwf & Hq & Hirq & Huniq & Horphan). split_and!; [done|done|by rewrite Hirq, HP|done|].
  intros Hp. by apply Horphan, HP.
Qed.
Lemma free_safe ph pid k :
  wf_gen (disarmed ph pid) k -> stopped pid k -> ~ live ph pid ->
  exists lost : bool, wf_gen (handler_ends ph (if lost then True else False)) (set_processes (reparent pid <$> delete pid (k_processes k)) k).
Proof.
  intros Hk (ts & [Hs Ht] & Hno) Hlive.
  destruct (k_processes k !! pid) as [p|] eqn:Ep; [|done]. cbn in Ht. injection Ht as <-.
  pose proof (delete_wf _ pid p k Hk Ep Hno Hs ltac:(by intros [_ ?]) Hlive) as H1.
  pose proof (reparent_wf _ pid _ H1) as H2. cbn in H2. exists (bool_decide (threads p !! 0%nat = Some TReady)).
  apply (wf_orphan (handler_ends (disarmed ph pid) (threads p !! 0%nat = Some TReady))
    (orphaned ph \/ if bool_decide (threads p !! 0%nat = Some TReady) then True else False)) in H2.
  2: { cbn. case_bool_decide; tauto. }
  eapply wf_phase; [|exact H2|..]; [done|by apply H2|done|by intros q [? _]|apply H2].
Qed.

(** Between two traps, when a process may have ended: the parts of the kernel agree, but if the
    process ended in its own interrupt handler, no thread ends the handler. *)
Definition settled (k : Kernel) : Prop := exists lost, wf_gen (resting lost) k.

Lemma leave_step {A B} ph pid (m : KS A) (f : A -> KS B) Q (I : Kernel -> Prop) k :
  (forall k', wf_gen ph k' -> I k') -> wf_gen (leaving ph pid []) k -> keeps (leaving ph pid []) m ->
  (forall a k', wf_gen (leaving ph pid []) k' -> safe Q I (f a k')) ->
  safe Q I (st_bind m f k).
Proof.
  intros HI Hk Hm Hf. apply safe_bind. eapply safe_mono; [by apply Hm|by intros; apply Hf|].
  intros k' Hk'. by eapply HI, leaving_weaken.
Qed.

Lemma activate_settled k : settled k -> safe (fun _ => settled) settled (activate_current usage k).
Proof.
  intros [lost Hk]. eapply safe_mono; [by apply (keeps_activate (resting lost))|by intros ? ? ?; exists lost|by intros ? ?; exists lost].
Qed.

Lemma terminate_current_safe lost ret k :
  wf_gen (resting lost) k -> safe (fun _ => settled) settled (terminate_current_process regions shared_peripherals usage ret k).
Proof.
  set (ph := resting lost). intros Hk. unfold terminate_current_process. unfold st_bind at 1, current_pid. generalize (k_current k). intros pid.
  assert (forall k, wf_gen ph k -> settled k) as HI by (intros k' ?; by exists lost).
  unfold st_bind at 1. destruct (current_process k) as [k1 [p|e|]] eqn:Ep; [..|done].
  2: { apply HI. apply (wf_tables ph k); [|done]. pose proof (tables_current_process k) as E. by rewrite Ep in E. }
  assert (wf_gen ph k1) as Hk1.
  { apply (wf_tables ph k); [|done]. pose proof (tables_current_process k) as E. by rewrite Ep in E. }
  clear k Hk Ep. destruct (_ && _); [done|].
  apply safe_bind. eapply safe_mono; [apply (leave_servers_safe ph pid)| |exact HI].
  { intros s Hs%elem_of_seqZ. lia. }
  { apply (wf_phase ph); [done|done|by apply Hk1| |done|done]. intros i h Hi _. split; [done|]. intros Hni. destruct Hni.
    apply elem_of_seqZ. apply lookup_lt_Some in Hi. rewrite (kw_table _ _ Hk1) in Hi. lia. }
  clear k1 Hk1 p. intros [] k Hk.
  apply (leave_step ph pid); [done..|keeps|]. clear k Hk. intros _ k Hk.
  apply (leave_step ph pid); [done..|keeps|]. clear k Hk. intros p k Hk.
  apply (leave_step ph pid); [done..|keeps|]. clear k Hk p. intros _ k Hk.
  apply (leave_step ph pid); [done..|keeps|]. clear k Hk. intros p k Hk.
  apply (leave_step ph pid); [done..|keeps|]. clear k Hk p. intros _ k Hk.
  apply (leave_step ph pid); [done..|keeps|]. clear k Hk. intros now k Hk.
  apply (leave_step ph pid); [done..|keeps|]. clear k Hk now. intros _ k Hk.
  apply safe_bind. eapply safe_mono; [apply (terminate_safe (leaving ph pid []) pid k Hk)| |].
  { intros i h Hi. destruct (kw_server _ _ Hk i h Hi) as (_ & _ & _ & Hne). exact (Hne (not_elem_of_nil _)). }
  2: { intros k' Hk'. by eapply HI, leaving_weaken. }
  clear k Hk. intros [] k [Hk Hstop]. unfold free_process. unfold st_bind at 1, st_modify. unfold st_bind at 1, st_modify.
  apply activate_settled. destruct (free_safe (leaving ph pid []) pid k Hk Hstop (fun H => H)) as [ended H].
  exists (lost || ended). apply (wf_orphan _ (if lost || ended then True else False)) in H; [|cbn; destruct lost, ended; cbn; tauto].
  eapply wf_phase; [|exact H|..]; [done|by apply H|by intros i h Hi [? _]|done|apply H].
Qed.
End Board.
