(* ===== verification/KernelCreate.v ===== *)
(** * The creation of a process keeps the kernel consistent

    [Loading.create_process] enters a process in the table whose first thread is ready, and
    loads its image: whatever the image is, the parts of the kernel agree afterwards
    ([KernelInvariant.kernel_wf]).  The loader touches the page tables and the search hint of the
    process only; an error of it is a panic. *)
From stdpp Require Import fin_maps gmap.
From S2P Require Import Prelude Xous SysCall Permissions Server Scheduler Threads Connections.
From S2P Require Import PermissionRequests Irq Process MemManager PageTable Mapping Memory.
From S2P Require Import Kernel KernelRules Services Elf ElfImage Loading Syscalls KernelInvariant.
From S2P Require Import KernelLifecycle.

(** ** A new process *)

Lemma coherent_insert orphan sch procs pid p :
  coherent_gen orphan sch procs -> procs !! pid = None -> wf_process pid p -> (forall tid, threads p !! tid <> Some TReady) ->
  coherent_gen orphan sch (<[pid := p]> procs).
Proof.
  intros (Hwf & (qs & Hrepr & Hq) & Hirq & Huniq & Horphan) Hp Hpwf Hno.
  assert (forall q tid pr, is_ready (<[pid := p]> procs) q tid pr <-> is_ready procs q tid pr) as Hr.
  { intros q tid pr. unfold is_ready. destruct (decide (q = pid)) as [->|Hne].
    - rewrite lookup_insert_eq, Hp. split; [|by intros (? & ? & ? & _)]. intros (x & y & [= <-] & Ht & _). exfalso. by eapply Hno.
    - by rewrite lookup_insert_ne. }
  split; [|split; [|split; [|split]]].
  - by apply map_Forall_insert_2.
  - exists qs. split; [done|]. intros pr q tid. rewrite Hq. by setoid_rewrite Hr.
  - rewrite Hirq. by setoid_rewrite Hr.
  - intros a b pr pr' H1 H2. apply Hr in H1, H2. by eapply Huniq.
  - intros Ho q pr H%Hr. by eapply Horphan.
Qed.

Lemma insert_wf ph pid p k :
  wf_gen ph k -> k_processes k !! pid = None -> wf_process pid p -> (forall tid, threads p !! tid <> Some TReady) ->
  connection_map p = connection_map_new -> wf_gen ph (set_processes (<[pid := p]> (k_processes k)) k).
Proof.
  intros [H1 H2 H3 H4 H5 H6 H7 H8 H9] Hp Hpwf Hno Hm.
  assert (forall q, is_Some (k_processes k !! q) -> is_Some (<[pid := p]> (k_processes k) !! q)) as Hdom.
  { intros q Hq. destruct (decide (pid = q)) as [->|]; [rewrite lookup_insert_eq; eauto|by rewrite lookup_insert_ne]. }
  split; cbn; try done.
  - by apply coherent_insert.
  - intros q x Hx. apply lookup_insert_Some in Hx as [[<- <-]|[_ Hx]]; [|by apply H2]. rewrite Hm.
    split; [apply connection_map_new_wf|]. intros i sidx r g perms Hi.
    by apply list_elem_of_lookup_2, list_elem_of_In, repeat_spec in Hi.
  - intros i h Hi. destruct (H4 i h Hi) as (? & ? & ?). split_and!; auto.
  - intros i q pc arg Hi. destruct (H8 i q pc arg Hi). auto.
  - intros q Hq. auto.
Qed.

Lemma new_process_threads pid parent app tid : threads (Process_new pid parent app) !! tid <> Some TReady.
Proof. cbn. intros H. by apply list_elem_of_lookup_2, list_elem_of_In, repeat_spec in H. Qed.

(** It is entered with its first thread ready. *)
Lemma enter_process_safe {A} ph pid p tid (g : KS A) k :
  wf_gen ph k -> k_processes k !! pid = None -> wf_process pid p -> (forall tid, threads p !! tid <> Some TReady) ->
  connection_map p = connection_map_new -> keeps ph g ->
  safe (fun _ => wf_gen ph) (wf_gen ph)
    ((let* k := st_get in
      let* (sch, p) := st_unwrap (Process.set_thread_state (k_scheduler k) p tid TReady) in
      let* _ := st_modify (set_scheduler sch) in
      let* _ := put_process p in g) k).
Proof.
  intros Hk Hnone Hp Hno Hm Hg. pose proof (insert_wf ph pid p k Hk Hnone Hp Hno Hm) as Hk1.
  set (k1 := set_processes (<[pid := p]> (k_processes k)) k) in *. unfold st_bind at 1, st_get.
  destruct (Process.set_thread_state _ p tid TReady) as [[sch p']|] eqn:E; [|done].
  assert (k_processes k1 !! pid = Some p) as Hp1 by apply lookup_insert_eq.
  destruct (set_thread_state_Some (k_scheduler k) (k_processes k1) pid p tid TReady sch p' (kw_threads _ _ Hk1) Hp1 E) as [-> Hc].
  set (p' := set_threads p _) in *. pose proof Hp as (Epid & _).
  assert (process_pid p' = pid) as Epid' by done. apply (keeps_safe ph (put_process p')); [|done].
  assert (set_processes (<[pid := p']> (k_processes k1)) (set_scheduler sch k1)
    = set_processes (<[pid := p']> (k_processes k)) (set_scheduler sch k)) as Ek.
  { unfold k1, set_processes. cbn [k_processes]. by rewrite insert_insert_eq. }
  assert (wf_gen ph (set_processes (<[pid := p']> (k_processes k1)) (set_scheduler sch k1))) as Hput.
  { rewrite <-Epid' in Hp1, Hc |- *. apply (wf_put ph sch p p' k1 Hk1 Hp1 Hc). rewrite Epid'. unfold p'. cbn [connection_map set_threads].
    rewrite Epid' in Hp1. exact (kw_connections _ _ Hk1 pid p Hp1). }
  rewrite Ek in Hput. unfold put_process, st_modify, safe. rewrite Epid'. exact Hput.
Qed.

(** ** The loader *)

Create HintDb load.

(** For any invariant [I] of the kernel that the operations on memory keep. *)
Section Loader.
Context (I : Kernel -> Prop) (regions : list (Z * Z)) (shared_peripherals : list Z).
Context (Hmem : forall A (m : (Z -> Z -> result Error unit) -> MS A), maintains I (lift_mem m)).
Context (Hmap : forall phys virt size flags user, maintains I (map_range regions shared_peripherals phys virt size flags user)).
Context (Hunmap : forall virt len, maintains I (unmap_range regions shared_peripherals virt len)).
Definition load_safe {A} (m : LS A) : Prop :=
  forall s, I (ld_kernel s) -> match m s with (_, Panic) => True | (s', _) => I (ld_kernel s') end.

Lemma safe_load_bind {A B} (m : LS A) (f : A -> LS B) : load_safe m -> (forall a, load_safe (f a)) -> load_safe (st_bind m f).
Proof. intros Hm Hf s Hs. unfold st_bind. specialize (Hm s Hs). destruct (m s) as [s' [a|e|]]; [by apply Hf|done..]. Qed.
Lemma safe_load_try {A} (m : LS A) : load_safe m -> load_safe (st_try m).
Proof. intros Hm s Hs. unfold st_try. specialize (Hm s Hs). by destruct (m s) as [s' [a|e|]]. Qed.
Lemma safe_load_kernel {A} (m : KS A) : maintains I m -> load_safe (on_kernel m).
Proof. intros Hm s Hs. unfold on_kernel. specialize (Hm (ld_kernel s) Hs). by destruct (m (ld_kernel s)) as [k [a|e|]]. Qed.
Lemma safe_load_pure {A} (m : LS A) : (forall s, ld_kernel (m s).1 = ld_kernel s) -> load_safe m.
Proof. intros Hm s Hs. specialize (Hm s). destruct (m s) as [s' [a|e|]]; cbn in Hm; by rewrite ?Hm. Qed.
Lemma safe_load_mapping {A} (m : MS A) : load_safe (on_mapping m).
Proof. apply safe_load_kernel, Hmem. Qed.

Lemma safe_map_fresh page flags : load_safe (map_fresh_page regions shared_peripherals page flags).
Proof. apply safe_load_bind; [apply safe_load_kernel, Hmap|]. intros. by apply safe_load_pure. Qed.

(** Follow the structure of the loader. *)
Ltac load_step :=
  first
    [ apply safe_load_mapping | apply safe_map_fresh | solve [auto with load]
    | simple apply safe_load_bind; [|intros] | simple apply safe_load_try
    | match goal with
      | |- load_safe (match ?x with _ => _ end) => destruct x
      | |- load_safe (if ?x then _ else _) => destruct x
      | |- load_safe (let '(_, _) := ?x in _) => destruct x
      end
    | apply safe_load_pure; intros s; reflexivity ].
Ltac load := repeat load_step.

Lemma safe_accessible mapping write pages : load_safe (assert_accessible mapping write pages).
Proof. induction pages as [|page pages IH]; cbn [assert_accessible]; load. unfold st_assert. load. Qed.
Lemma safe_read_bytes mapping addr len : load_safe (read_bytes mapping addr len).
Proof. unfold read_bytes. apply safe_load_bind; [apply safe_accessible|]. intros. load. Qed.
Lemma safe_write_bytes mapping addr new : load_safe (write_bytes mapping addr new).
Proof. unfold write_bytes. apply safe_load_bind; [apply safe_accessible|]. intros. by apply safe_load_pure. Qed.
Lemma safe_lift {A} (r : result Error A) : load_safe (st_lift r).
Proof. by destruct r; apply safe_load_pure. Qed.
Hint Resolve safe_accessible safe_read_bytes safe_write_bytes safe_lift : load.
Lemma safe_read_word mapping addr : load_safe (read_word mapping addr).
Proof. unfold read_word. load. Qed.
Lemma safe_remap mapping va flags : load_safe (remap_page_flags mapping va flags).
Proof. unfold remap_page_flags. load. Qed.
Hint Resolve safe_read_word safe_remap : load.

Lemma safe_load_segments mapping pie address len slide hs :
  load_safe (load_segments regions shared_peripherals mapping pie address len slide hs).
Proof.
  induction hs as [|h hs IH]; cbn [load_segments]; [load|]. apply safe_load_bind; [|done]. unfold load_segment. load;
  match goal with |- load_safe (load_pages _ _ _ ?n ?c _ _ _ ?f _) => generalize n, c, f end; clear - Hmem Hmap;
  intros fuel must_copy flags; revert h; induction fuel as [|fuel IH]; intros h; cbn [load_pages]; load; try done.
  all: unfold move_whole_page, copy_part; load.
Qed.
Lemma safe_read_dynamic mapping r entries : load_safe (read_dynamic mapping r entries).
Proof. revert r. induction entries as [|entry entries IH]; intros r; cbn [read_dynamic]; load. Qed.
Lemma safe_relocations mapping slide image writable rels : load_safe (apply_relocation_list mapping slide image writable rels).
Proof.
  induction rels as [|rel rels IH]; cbn [apply_relocation_list]; [load|]. apply safe_load_bind; [|done].
  unfold apply_relocation, write_word. load.
Qed.
Lemma safe_read_only mapping pages : load_safe (remap_read_only mapping pages).
Proof. induction pages as [|va pages IH]; cbn [remap_read_only]; load. Qed.
Hint Resolve safe_load_segments safe_read_dynamic safe_relocations safe_read_only : load.
Lemma safe_relocate mapping ly : load_safe (relocate_image mapping ly).
Proof. unfold relocate_image, parse_dynamic_rel_info, apply_relocations, mark_pages_read_only. load. Qed.
Hint Resolve safe_relocate : load.
Lemma safe_load_elf parse rand address len : load_safe (load_elf regions shared_peripherals parse rand address len).
Proof.
  unfold load_elf, load_elf_in. apply safe_load_bind; [by apply safe_load_pure|]. intros mapping. load.
  apply safe_load_kernel, Hunmap.
Qed.

Lemma load_sent_maintains parse_elf rand image len :
  maintains I (load_sent_elf regions shared_peripherals parse_elf rand image len).
Proof.
  intros k Hk. unfold load_sent_elf. set (s := mkLoad k _).
  pose proof (safe_load_elf parse_elf rand RAW_ELF_TEMPORARY_ADDRESS len s Hk) as H.
  by destruct (load_elf _ _ _ _ _ _ s) as [s' [a|e|]].
Qed.
End Loader.

(** ** The process *)

Section Create.
Context (ph : Phase) (regions : list (Z * Z)) (shared_peripherals : list Z).

Context (user_memory : Z -> Z -> Z) (utf8 : list Z -> bool).
Context (parse_elf : list Z -> option ElfFile) (rand canary : Z).

Lemma keeps_load_sent image len : keeps ph (load_sent_elf regions shared_peripherals parse_elf rand image len).
Proof.
  apply load_sent_maintains; intros; [exact (keeps_lift_mem _ _)|exact (keeps_map_range _ _ _ _ _ _ _ _)|exact (keeps_unmap_range _ _ _ _ _)].
Qed.
Lemma tables_activate pid : same tables (activate pid).
Proof. unfold activate. mem_same. Qed.
Hint Resolve tables_activate : mem.
Lemma keeps_setup pid entry slide stack irq_stack : keeps ph (Loading.setup_process canary pid entry slide stack irq_stack).
Proof.
  unfold Loading.setup_process. do 4 (apply keeps_bind; [keeps|intros ?]). intros k Hk. apply process_safe; [done|].
  intros p Hp. by eapply update_safe.
Qed.
Lemma keeps_splash pid pages : keeps ph (move_splash_pages regions shared_peripherals pid pages).
Proof. induction pages as [|a pages IH]; cbn [move_splash_pages]; [keeps|]. by apply keeps_bind; [apply keeps_lift_mem|]. Qed.
Lemma keeps_create pid init :
  keeps ph (create regions shared_peripherals user_memory parse_elf rand canary pid init).
Proof.
  unfold create. keeps; first [apply keeps_send_memory|apply keeps_map_range|apply keeps_load_sent|apply keeps_setup|apply keeps_splash].
Qed.

Lemma keeps_create_process init :
  keeps ph (create_process regions shared_peripherals user_memory utf8 parse_elf rand canary init).
Proof.
  intros k Hk. unfold create_process. unfold st_bind at 1, current_pid. unfold st_bind at 1, st_get.
  destruct (free_pid k) as [pid|] eqn:Ef; [|done]. unfold free_pid in Ef. apply List.find_some in Ef as [Hin Ef].
  apply list_elem_of_In, elem_of_seqZ in Hin. apply andb_prop in Ef as [Ef _].
  rewrite negb_true_iff, bool_decide_eq_false in Ef. cbn [ok_or].
  rewrite (run_bind (st_lift (Ok pid)) _ k k pid eq_refl).
  assert (k_processes k !! pid = None) as Hnone by (by apply eq_None_not_Some).
  assert (left_alone pid None k) as Halone.
  { split; [|by rewrite Hnone]. intros i h Hi <-. destruct (kw_server _ _ Hk i h Hi) as (_ & [q Hq] & _). by rewrite Hnone in Hq. }
  apply safe_bind. eapply safe_mono; [exact (passes_lift_mem ph pid None _ k (conj Hk Halone))| |by intros k1 [? _]].
  intros [] k1 [Hk1 [_ Hnone1]]. apply fmap_None in Hnone1.
  destruct (set_name utf8 _ _) as [p named] eqn:En. assert (exists name, p = set_process_name (Process_new pid (k_current k) (pi_app_id init)) name
    \/ p = Process_new pid (k_current k) (pi_app_id init)) as (name & Ep).
  { unfold set_name in En. destruct (Nat.ltb _ _); [exists None; right; by injection En|].
    destruct (get_name _ _); [exists None; right; by injection En|]. injection En as <- _. eexists. by left. }
  destruct named as [[]|e]; [|done]. rewrite (run_bind (st_lift (Ok tt)) _ k1 k1 tt eq_refl).
  apply (enter_process_safe ph pid p INITIAL_TID); [done|done| | | |].
  - destruct Ep as [-> | ->]; split_and!; cbn; rewrite ?length_replicate, ?repeat_length; done || lia.
  - intros tid. destruct Ep as [-> | ->]; apply (new_process_threads pid (k_current k) (pi_app_id init)).
  - by destruct Ep as [-> | ->].
  - unfold expect_ok. apply keeps_bind; [apply keeps_try, keeps_create|]. intros [|]; keeps.
Qed.
End Create.
