(* ===== verification/KernelCalls.v ===== *)
(** * Every trap keeps the kernel consistent

    [KernelInvariant.kernel_wf] is kept by every system call of every thread, by aborts and
    undefined instructions - a thread that ends, a page that is backed, a process that crashes -
    and by every interrupt: the values, the errors and all arguments included; a trap that makes
    the kernel panic ends the history.  The end of a process in its own interrupt handler leaves
    the scheduler with a handler that is no more ([handler_lost]). *)
From stdpp Require Import fin_maps gmap.
From S2P Require Import Prelude Xous SysCall Permissions Server Scheduler Threads Connections.
From S2P Require Import PermissionRequests Irq Process MemManager PageTable Mapping Memory.
From S2P Require Import Kernel KernelRules Services Syscalls Traps KernelIsolation.
From S2P Require Import Elf Loading KernelInvariant KernelLifecycle KernelCreate.

Section Board.
Context (lost : bool) (regions : list (Z * Z)) (shared_peripherals : list Z) (usage : Z).
Abbreviation at_rest := (resting lost).
Abbreviation kernel_wf := (wf_gen (resting lost)).
Abbreviation keeps := (keeps at_rest).
Lemma wf_settled k : kernel_wf k -> settled k.
Proof. intros Hk. by exists lost. Qed.
Hint Resolve wf_settled : core.

#[local] Hint Extern 1 (KernelInvariant.keeps _ (st_bind _ _)) =>
  first [simple apply keeps_update|simple apply keeps_update_current]; [by intros; apply release_hint_same|keeps] : inv.
Hint Extern 1 (KernelInvariant.keeps (resting lost) (create_server_with_address _ _ _ _)) => by apply keeps_create_server : inv.
Hint Resolve keeps_destroy_server : inv.

(** ** Messages *)

Lemma keeps_transfer pid message : keeps (transfer_message regions shared_peripherals pid message).
Proof. unfold transfer_message, with_message_buf. keeps. Qed.
Hint Resolve keeps_transfer : inv.
Lemma keeps_send_message tid cid message : keeps (send_message regions shared_peripherals usage tid cid message).
Proof. unfold send_message, send_message_inner. keeps. Qed.
Hint Resolve keeps_send_message : inv.

(** The table of the permission requests keeps its length. *)
Lemma requests_step {B} (op : request_op) (g : KS B) k :
  kernel_wf k -> keeps g ->
  safe (fun _ => kernel_wf) kernel_wf (st_bind (st_modify (set_requests (request_step (k_requests k) op).1)) (fun _ => g) k).
Proof. intros Hk Hg. apply Hg. apply wf_set_requests; [done|]. apply request_step_length. Qed.
Lemma keeps_withdraw id : keeps (st_modify (fun k => set_requests (take_request (k_requests k) id).1 k)).
Proof. intros k Hk. apply wf_set_requests; [done|]. exact (request_step_length (k_requests k) (ReqTake id)). Qed.
Hint Resolve keeps_withdraw : inv.

Lemma keeps_check_permission tid cid message may_wait : keeps (check_message_permission tid cid message may_wait).
Proof.
  unfold check_message_permission. apply keeps_bind; [keeps|]. intros [sidx permissions].
  apply keeps_bind; [keeps|intros o]. apply keeps_bind; [keeps|intros server]. apply keeps_bind; [keeps|intros pid].
  destruct (_ || _); [keeps|]. destruct (negb _); [keeps|]. apply keeps_bind; [keeps|intros p].
  apply keeps_get. intros k Hk.
  pose proof (fun B (g : KS B) => requests_step (ReqInsert pid (process_app_id p) tid cid sidx (server_sid server) (message_id message)) g k Hk) as Hstep.
  cbn [request_step] in Hstep. destruct (insert_request _ _ _ _ _ _ _ _) as [entries [id|]]; [|done].
  unfold ok_or, st_lift. unfold st_bind at 1, st_ret at 1. apply Hstep. keeps.
Qed.
Hint Resolve keeps_check_permission : inv.

Lemma take_waiting_some s i buf s' r : wf_server s -> Some (take_waiting_message s i buf) = Some (s', r) -> server_ok s s'.
Proof. intros Hs E. pose proof (take_waiting_ok s i buf Hs) as H. injection E as E. by rewrite E in H. Qed.
Lemma keeps_take_answer sender buf : keeps (take_answer sender buf).
Proof.
  unfold take_answer. keeps. apply keeps_lift_server. intros s s' r. apply take_waiting_some.
Qed.
Lemma keeps_answer pid tid value : keeps (answer_and_resume pid tid value).
Proof. unfold answer_and_resume. keeps. Qed.
Hint Resolve keeps_take_answer keeps_answer : inv.
Lemma keeps_return_call tid sender buf offset valid :
  keeps (return_memory_call regions shared_peripherals usage tid sender buf offset valid).
Proof. unfold return_memory_call. keeps. Qed.
Lemma keeps_return_result tid sender value : keeps (return_result usage tid sender value).
Proof. unfold return_result. keeps. Qed.
Lemma keeps_receive tid sid blocking : keeps (receive_message usage tid sid blocking).
Proof.
  unfold receive_message. keeps; apply keeps_lift_server; intros s s' r Hs E.
  - by eapply take_next_ok.
  - destruct (Server.park_thread s tid) as [s1|] eqn:E1; [|done]. injection E as -> _. by eapply park_ok.
Qed.
Lemma keeps_connect_or_retry tid sid : keeps (connect_or_retry usage tid sid).
Proof. unfold connect_or_retry. keeps. Qed.
Lemma keeps_send_call tid cid message : keeps (send_message_call regions shared_peripherals usage tid cid message).
Proof. unfold send_message_call. keeps. Qed.
Hint Resolve keeps_return_call keeps_return_result keeps_receive keeps_connect_or_retry keeps_send_call : inv.

(** ** Permissions *)

(** Granting messages on a connection. *)
Lemma allow_safe {B} pid p cid messages (f : result Error Result -> KS B) k :
  kernel_wf k -> k_processes k !! pid = Some p -> (forall r, keeps (f r)) ->
  safe (fun _ => kernel_wf) kernel_wf
    ((let '(m, r) := allow_messages (connection_map p) cid messages in
      let* _ := put_process (set_connections p m) in f r) k).
Proof.
  intros Hk Hp Hf. pose proof (process_pid_of _ k _ p Hk Hp) as <-.
  pose proof (allow_messages_step (connection_map p) cid messages) as Hs.
  pose proof (allow_targets (connection_map p) cid messages) as Ht.
  destruct (allow_messages _ _ _) as [m r]. apply keeps_safe; [|intros; apply Hf]. by apply connections_step.
Qed.

Lemma keeps_resolve id allow : keeps (resolve_message_permission id allow).
Proof.
  unfold resolve_message_permission. apply (keeps_requests at_rest (fun r => take_request r id)).
  { intros r. exact (request_step_length r (ReqTake id)). }
  intros [request|]; [|keeps]. destruct (negb (valid request)); [keeps|].
  apply keeps_bind; [|intros; unfold expect_ok; keeps]. destruct allow; [|keeps].
  apply keeps_get. intros k Hk. destruct (k_processes k !! sender_pid request) as [p|] eqn:Hp; [|done].
  apply (allow_safe (sender_pid request)); [done|done|]. intros. keeps.
Qed.
Lemma keeps_request_data id field : keeps (get_permission_request_data id field).
Proof. unfold get_permission_request_data. keeps. Qed.
Hint Resolve keeps_resolve keeps_request_data : inv.

Lemma permissions_add_ok s messages s' r :
  wf_server s -> (let '(permissions, r) := permissions_add (default_permissions s) messages in
                  Some (set_default_permissions s permissions, r)) = Some (s', r) -> server_ok s s'.
Proof. intros Hs E. destruct (permissions_add _ _) as [permissions r']. by injection E as <- _. Qed.

(** ** Memory *)

Lemma keeps_map_memory tid phys virt size flags : keeps (map_memory regions shared_peripherals usage tid phys virt size flags).
Proof. unfold map_memory. keeps. Qed.
Lemma keeps_unmap_memory range : keeps (unmap_memory regions shared_peripherals range).
Proof. unfold unmap_memory. keeps. Qed.
Lemma keeps_contiguous pid expected pages : keeps (check_contiguous pid expected pages).
Proof. revert expected. induction pages as [|page pages IH]; intros expected; cbn [check_contiguous]; keeps. Qed.
Hint Resolve keeps_map_memory keeps_unmap_memory keeps_contiguous : inv.
Lemma keeps_mirror mem pid : keeps (mirror_memory_to_pid mem pid).
Proof.
  unfold mirror_memory_to_pid. do 4 (apply keeps_bind; [keeps|intros ?]). apply keeps_bind; [keeps|]. intros [next range].
  apply keeps_update; [done|keeps].
Qed.
Lemma keeps_futex_wait user_memory tid addr val : keeps (futex_wait usage user_memory tid addr val).
Proof. unfold futex_wait. keeps. Qed.
Lemma keeps_get_panic buf : keeps (get_panic_message buf).
Proof. unfold get_panic_message. keeps. Qed.
Lemma keeps_append_panic utf8 bytes : keeps (append_panic_message utf8 bytes).
Proof. unfold append_panic_message. keeps. Qed.
Hint Resolve keeps_mirror keeps_futex_wait keeps_get_panic keeps_append_panic : inv.

(** ** Interrupts *)

Lemma set_irqs_wf irqs k :
  kernel_wf k -> wf_irq irqs ->
  (forall i pid pc arg, handlers irqs !! i = Some (HandlerUser pid pc arg) ->
     handlers (k_irqs k) !! i = Some (HandlerUser pid pc arg) \/ is_Some (k_processes k !! pid)) ->
  kernel_wf (set_irqs irqs k).
Proof.
  intros [H1 H2 H3 H4 H5 H6 H7 H8 H9] Hw Hh. split; try done.
  intros i pid pc arg Hi. destruct (Hh i pid pc arg Hi) as [Hi'|Hp]; [by eapply H8|done].
Qed.

(** A handler is claimed by a process that exists. *)
Lemma claim_safe no pid callback arg k :
  kernel_wf k -> is_Some (k_processes k !! pid) ->
  safe (fun _ => kernel_wf) kernel_wf (lift_irq no (fun s no => interrupt_claim_user s no pid callback arg) k).
Proof.
  intros Hk Hp. unfold lift_irq. destruct (irq_number no) as [i|]; [|done]. unfold st_bind at 1, st_get.
  destruct (interrupt_claim_user _ _ _ _ _) as [[irqs r]|] eqn:E; [|done]. unfold st_unwrap. unfold st_bind at 1, st_ret at 1.
  apply (keeps_safe at_rest (st_modify (set_irqs irqs))); [|intros; keeps]. unfold interrupt_claim_user in E.
  destruct (handlers (k_irqs k) !! i) as [h|] eqn:Eh; [|done]. destruct (is_free_handler h); injection E as <- _.
  2: { apply set_irqs_wf; [done|by apply Hk|by left]. }
  apply set_irqs_wf; [done| |].
  - apply (wf_set_handler _ _ (HandlerUser pid callback arg)), Hk.
  - intros j q pc a Hj. cbn in Hj. apply list_lookup_insert_Some in Hj as [(-> & [= -> -> ->] & _)|[_ Hj]]; [by right|by left].
Qed.
Lemma keeps_free_irq no pid : keeps (lift_irq no (fun s no => interrupt_free s no pid)).
Proof.
  unfold lift_irq. destruct (irq_number no) as [i|]; [|keeps]. apply keeps_get. intros k Hk.
  destruct (interrupt_free _ _ _) as [[irqs r]|] eqn:E; [|done]. unfold st_unwrap. unfold st_bind at 1, st_ret at 1.
  apply (keeps_safe at_rest (st_modify (set_irqs irqs))); [|intros; keeps]. unfold interrupt_free in E.
  destruct (handlers (k_irqs k) !! i) as [h|] eqn:Eh; [|done]. destruct (owned_by pid h); injection E as <- _.
  2: { apply set_irqs_wf; [done|by apply Hk|by left]. }
  apply set_irqs_wf; [done| |].
  - apply (wf_set_handler _ _ HandlerFree), Hk.
  - intros j q pc a Hj. cbn in Hj. apply list_lookup_insert_Some in Hj as [(-> & ? & _)|[_ Hj]]; [done|by left].
Qed.
Hint Resolve keeps_free_irq : inv.

(** ** Scheduling *)

Lemma keeps_yield pid tid prio :
  keeps (let* k := st_get in
         let* sch := st_unwrap (yield_thread (k_scheduler k) pid tid prio) in
         let* _ := st_modify (set_scheduler sch) in
         activate_current usage).
Proof.
  apply keeps_get. intros k Hk. pose proof (kw_threads _ _ Hk) as Hc.
  destruct (yield_coherent (k_scheduler k) (k_processes k) pid tid prio Hc) as (sch & E & Hc').
  rewrite E. unfold st_unwrap. unfold st_bind at 1, st_ret at 1.
  apply (keeps_safe at_rest (st_modify (set_scheduler sch))); [|intros; keeps]. by apply keeps_set_scheduler.
Qed.
Hint Resolve keeps_yield : inv.

(** ** The calls *)

Context (user_memory : Z -> Z -> Z) (random : SID) (debug_output : Z -> Z -> Z) (utf8 : list Z -> bool)
        (create_process : ProcessInit -> KS ProcessStartup).
Context (Hcreate : forall init, keeps (create_process init)).
Hint Resolve Hcreate : inv.

Lemma keeps_handle_services tid call : keeps (handle_services regions shared_peripherals usage random tid call).
Proof.
  unfold handle_services. apply keeps_bind; [keeps|intros pid]. destruct call; try (keeps; fail).
  - keeps; apply keeps_lift_server; intros; by eapply permissions_add_ok.
  - intros k Hk. apply process_safe; [done|]. intros p Hp. by apply (allow_safe pid0); [..|intros; keeps].
  - keeps; apply keeps_lift_server; intros; by eapply event_handler_ok.
  - intros k Hk. unfold current_process, current_pid. unfold st_bind at 2.
    match goal with |- safe _ _ (st_bind _ ?f k) => destruct (process_safe at_rest (k_current k) f k Hk) as [_ H] end; [|exact H].
    intros p Hp. destruct (Process.set_system_event_handler p _ _ _) as [[p' r]|] eqn:E; [|done].
    unfold st_unwrap. unfold st_bind at 1, st_ret at 1. apply keeps_safe; [|intros; keeps].
    eapply update_safe; [done|exact Hp|]. unfold Process.set_system_event_handler in E. by server_cases.
Qed.
Hint Resolve keeps_handle_services : inv.
Lemma keeps_handle_messages tid call : keeps (handle_messages regions shared_peripherals usage random tid call).
Proof. unfold handle_messages. destruct call; keeps. Qed.
Hint Resolve keeps_handle_messages : inv.

(** A process that claims an interrupt has been looked up. *)
Definition claims_interrupt (call : SysCall) : bool := match call with ClaimInterrupt _ _ _ => true | _ => false end.
Lemma claim_checked call k k' :
  claims_interrupt call = true -> check_syscall_permission call k = (k', Done tt) -> is_Some (k_processes k !! k_current k).
Proof.
  destruct call; try done. intros _. cbn [check_syscall_permission]. unfold is_permitted_by_mask, current_process, process_unwrap.
  unfold st_bind, current_pid. destruct (k_processes k !! k_current k); [by eexists|done].
Qed.

Lemma handle_memory_safe tid call k :
  kernel_wf k -> (claims_interrupt call = true -> is_Some (k_processes k !! k_current k)) ->
  safe (fun _ => kernel_wf) kernel_wf (handle_memory regions shared_peripherals usage random debug_output tid call k).
Proof.
  intros Hk Hclaim. unfold handle_memory. unfold st_bind at 1, current_pid.
  destruct call; try (apply keeps_handle_messages; done);
    try (match goal with |- safe _ _ (?m k) => assert (keeps m) as H by keeps; by apply H end).
  apply claim_safe; [done|by apply Hclaim].
Qed.

(** A call that ends a process. *)
Definition ends_process (call : SysCall) : bool :=
  match call with TerminateProcess _ | TerminatePid _ _ => true | _ => false end.

Lemma terminate_process_safe tid pid ret k :
  kernel_wf k -> safe (fun _ => settled) settled (terminate_process regions shared_peripherals usage tid pid ret k).
Proof.
  intros Hk. pose proof wf_settled as HI.
  assert (forall {A} (m : KS A) (f : A -> KS Result) k, keeps m -> kernel_wf k ->
    (forall a k', kernel_wf k' -> safe (fun _ => settled) settled (f a k')) ->
    safe (fun _ => settled) settled (st_bind m f k)) as Hstep.
  { intros A m f k0 Hm Hk0 Hf. apply safe_bind. eapply safe_mono; [by apply Hm|by intros; apply Hf|exact HI]. }
  unfold terminate_process. apply Hstep; [keeps|done|]. clear k Hk. intros caller k Hk.
  apply Hstep; [keeps|done|]. clear k Hk. intros p k Hk. case_bool_decide; [by apply HI|].
  apply Hstep; [keeps|done|]. clear k Hk. intros _ k Hk.
  apply Hstep; [keeps|done|]. clear k Hk. intros _ k Hk.
  apply Hstep; [keeps|done|]. clear k Hk. intros now k Hk.
  apply Hstep; [keeps|done|]. clear k Hk. intros _ k Hk. by apply (terminate_current_safe regions shared_peripherals usage lost).
Qed.

Lemma handle_call_safe tid call k :
  wf_syscall call -> kernel_wf k -> (claims_interrupt call = true -> is_Some (k_processes k !! k_current k)) ->
  let I k' := if ends_process call then settled k' else kernel_wf k' in
  safe (fun _ => I) I
    (handle_call regions shared_peripherals usage user_memory random debug_output utf8 create_process tid call k).
Proof.
  intros Hwf Hk Hclaim I. unfold handle_call. unfold st_bind at 1, current_pid.
  destruct call; cbn [ends_process] in I; subst I; try (by apply handle_memory_safe);
    try (match goal with |- safe _ _ (?m k) => assert (keeps m) as H by keeps; by apply H end).
  - apply keeps_bind; [|intros; keeps|done]. apply keeps_wake_process_threads. unfold wf_syscall, is_usize in Hwf. lia.
  - by apply (terminate_current_safe regions shared_peripherals usage lost).
  - apply safe_bind. unfold current_process, process_unwrap, current_pid. unfold st_bind at 1.
    destruct (k_processes k !! k_current k); [|done]. unfold safe at 1. case_match; [by apply wf_settled|by apply terminate_process_safe].
Qed.

Lemma handle_safe tid call k :
  wf_syscall call -> kernel_wf k ->
  let I k' := if ends_process call then settled k' else kernel_wf k' in
  safe (fun _ => I) I (handle regions shared_peripherals usage user_memory random debug_output utf8 create_process tid call k).
Proof.
  intros Hwf Hk I. assert (I k) as HI by (unfold I; destruct (ends_process call); [by apply wf_settled|done]).
  unfold handle. destruct (_ && _); [exact HI|]. pose proof (check_syscall_reads call k) as Hread. unfold st_bind at 1.
  destruct (check_syscall_permission call k) as [k' [[]|e|]] eqn:Ec; cbn in Hread; subst k'; [|exact HI|done].
  apply handle_call_safe; [done|done|]. intros H. by eapply claim_checked.
Qed.

(** ** The traps *)

Context (period : Z).
Lemma tables_current_thread : same tables current_thread.
Proof. unfold current_thread. mem_same. Qed.
Lemma tables_update_current f : same tables (update_current_thread f).
Proof. unfold update_current_thread. mem_same. Qed.
Hint Resolve tables_current_thread tables_update_current : mem.
Lemma tables_user_mode : same tables assert_user_mode.
Proof. unfold assert_user_mode. mem_same. Qed.
Hint Resolve tables_user_mode : mem.

(** The trap ends a process. *)
Definition trap_ends (k : Kernel) (t : trap) : bool :=
  match t with
  | TrapSwi =>
      match current_thread k with
      | (_, Done th) => match decode (th_args th) with Ok call => ends_process call | Err _ => false end
      | _ => false
      end
  | _ => crashes k t
  end.

Lemma crash_safe msg k :
  kernel_wf k -> safe (fun _ => settled) settled (crash_current_process regions shared_peripherals usage utf8 msg k).
Proof.
  intros Hk. unfold crash_current_process. apply safe_bind.
  eapply safe_mono; [apply (keeps_try at_rest); [keeps|exact Hk]| |exact wf_settled]. intros r k1 Hk1.
  unfold expect_ok. apply safe_bind, safe_bind.
  eapply (safe_try _ _ settled); [exact (terminate_current_safe regions shared_peripherals usage lost 255 k1 Hk1)|done].
Qed.

(** What follows changes no table. *)
Lemma safe_same {A} (m : KS A) (b : bool) k :
  let I k' := if b then settled k' else kernel_wf k' in same tables m -> I k -> safe (fun _ => I) I (m k).
Proof.
  intros I Hm Hk. specialize (Hm k).
  assert (forall k', tables k' = tables k -> I k') as H.
  { intros k' E. unfold I in *. destruct b; [|by eapply wf_tables]. destruct Hk as [after Hk]. exists after. by eapply wf_tables. }
  unfold safe. destruct (m k) as [k' [a|e|]]; cbn in Hm; by auto.
Qed.

(** The registers of the thread that calls hold words. *)
Definition registers_wf (k : Kernel) : Prop := forall th, current_thread k = (k, Done th) -> words_wf (th_args th).

Lemma safe_after_same {A B} (m : KS A) (f : A -> KS B) k (Q : B -> Kernel -> Prop) I :
  same (fun k => k) m -> (forall a, m k = (k, Done a) -> safe Q I (f a k)) -> I k -> safe Q I (st_bind m f k).
Proof.
  intros Hm Hf Hk. specialize (Hm k). unfold st_bind. destruct (m k) as [k' [a|e|]] eqn:E; cbn in Hm; subst k'; [by apply Hf|exact Hk|done].
Qed.

Lemma swi_safe k :
  kernel_wf k -> registers_wf k ->
  let I k' := if trap_ends k TrapSwi then settled k' else kernel_wf k' in
  safe (fun _ => I) I (swi_handler regions shared_peripherals usage user_memory random debug_output utf8 create_process k).
Proof.
  intros Hk Hr. remember (trap_ends k TrapSwi) as b eqn:Eb. intros I.
  assert (I k) as HI by (unfold I; destruct b; [by apply wf_settled|done]).
  unfold swi_handler. unfold st_bind at 1, st_get. apply safe_after_same; [apply reads_user_mode| |done]. intros [] _.
  apply safe_after_same; [apply reads_thread| |done]. intros th Et. pose proof (Hr th Et) as Hw.
  unfold trap_ends in Eb. rewrite Et in Eb. destruct (decode (th_args th)) as [call|e] eqn:Ed; subst b.
  - apply safe_bind. eapply (safe_try _ _ I).
    + eapply safe_mono; [apply handle_safe; [by eapply decode_wf|exact Hk]| |done].
      intros response k' Hk'. apply (safe_same _ (ends_process call)); [mem_same|exact Hk'].
    + intros e k' Hk'. apply (safe_same _ (ends_process call)); [mem_same|exact Hk'].
  - apply (safe_same _ false); [mem_same|exact Hk].
Qed.

Lemma keeps_ensure ph address : KernelInvariant.keeps ph (ensure_backed_current address).
Proof. unfold ensure_backed_current. keeps. Qed.
Lemma abort_safe ifar cause dfar msg k :
  kernel_wf k ->
  let I k' := if crashes k (TrapAbort ifar cause dfar msg) then settled k' else kernel_wf k' in
  safe (fun _ => I) I (abort_handler regions shared_peripherals usage utf8 ifar cause dfar msg k).
Proof.
  intros Hk I. assert (forall k, kernel_wf k -> I k) as HI by (intros k' ?; unfold I; destruct (crashes k _); [by apply wf_settled|done]).
  unfold abort_handler. apply safe_after_same; [apply reads_user_mode| |by apply HI]. intros [] _.
  unfold I, crashes in *. clear I. destruct (ifar =? EXIT_THREAD).
  - revert k Hk HI. intros k Hk _. unfold expect_ok. revert k Hk.
    match goal with |- forall k, _ -> safe _ _ (?m k) => change (keeps m) end. keeps.
  - destruct (cause =? 7); [|by apply crash_safe]. cbn [negb andb] in *.
    pose proof (keeps_ensure at_rest (Z.land dfar (usize_not (PAGE_SIZE - 1))) k Hk) as He.
    unfold st_bind at 1, st_try. destruct (ensure_backed_current _ k) as [k1 [[]|e|]]; cbn [negb andb safe] in *; [|by apply crash_safe|done].
    apply (safe_same _ false); [mem_same|exact He].
Qed.

Lemma keeps_tc0 : keeps (tc0_interrupt_handler usage period).
Proof.
  unfold tc0_interrupt_handler. apply keeps_bind; [keeps|intros k0]. apply keeps_bind; [keeps|intros _].
  apply keeps_bind; [keeps|intros prio]. apply keeps_bind.
  { intros k Hk. apply keeps_set_scheduler; [done|]. by eapply coherent_queues; [apply Hk|..]. }
  intros _. apply keeps_get. intros k Hk.
  destruct (yield_coherent (k_scheduler k) (k_processes k) (k_current k0) (k_tid k0) prio (kw_threads _ _ Hk)) as (sch & E & Hc).
  rewrite E. unfold st_unwrap. unfold st_bind at 1, st_ret at 1.
  apply (keeps_safe at_rest (st_modify (set_scheduler sch))); [|intros; keeps]. by apply keeps_set_scheduler.
Qed.
Hint Resolve keeps_tc0 : inv.

Lemma keeps_irq pending background map_memory :
  keeps (irq_handler regions shared_peripherals usage period pending background map_memory).
Proof.
  unfold irq_handler. apply keeps_bind; [keeps|intros _]. apply keeps_bind; [keeps|intros _].
  destruct pending as [irq|]; [|keeps]. unfold expect_ok. apply keeps_bind; [|intros; keeps]. apply keeps_try.
  unfold irq_handle. apply keeps_get. intros k Hk.
  destruct (handlers (k_irqs k) !! Z.to_nat irq) as [h|] eqn:Eh; [|done]. unfold st_unwrap at 1. unfold st_bind at 1, st_ret at 1.
  destruct h as [|pid pc arg|].
  - unfold unhandled. rewrite Eh. cbn [is_free_handler]. unfold st_unwrap. unfold st_bind at 1, st_ret at 1.
    apply set_irqs_wf; [done| |by left]. destruct (kw_irqs _ _ Hk) as [Hlen Hen]. split; [done|]. cbn. rewrite Hen.
    apply list_insert_id. by rewrite list_lookup_fmap, Eh.
  - revert k Hk Eh. intros k Hk _. revert k Hk.
    match goal with |- forall k, _ -> safe _ _ (?m k) => change (keeps m) end. keeps.
  - revert k Hk Eh. intros k Hk _. revert k Hk.
    match goal with |- forall k, _ -> safe _ _ (?m k) => change (keeps m) end.
    unfold kernel_handler, xdmac_interrupt. keeps.
Qed.

Definition trap_registers (k : Kernel) (t : trap) : Prop := match t with TrapSwi => registers_wf k | _ => True end.
Lemma trap_safe t k :
  kernel_wf k -> trap_registers k t ->
  let I k' := if trap_ends k t then settled k' else kernel_wf k' in
  safe (fun _ => I) I (handle_trap regions shared_peripherals usage period user_memory random debug_output utf8 create_process t k).
Proof.
  intros Hk Hr I. destruct t as [|ifar cause dfar msg|msg|pending background map_memory]; cbn [handle_trap].
  - by apply swi_safe.
  - by apply abort_safe.
  - by apply crash_safe.
  - by apply keeps_irq.
Qed.
End Board.

(** The current thread runs, or traps without a panic of the kernel; the registers of a call
    hold words. *)
Inductive consistent_step (regions : list (Z * Z)) (shared_peripherals : list Z) : Kernel -> Kernel -> Prop :=
| ThreadRuns cs t t' k :
    default contexts_new (k_contexts k !! k_current k) = cs -> cs !! Z.to_nat (k_tid k) = Some t -> runs t t' ->
    consistent_step regions shared_peripherals k
      (set_contexts (<[k_current k := <[Z.to_nat (k_tid k) := t']> cs]> (k_contexts k)) k)
| ThreadTraps usage period user_memory random debug_output utf8 parse_elf rand canary t k k' o :
    trap_registers k t ->
    handle_trap regions shared_peripherals usage period user_memory random debug_output utf8
      (create_process regions shared_peripherals user_memory utf8 parse_elf rand canary) t k = (k', o) ->
    o <> Panic -> consistent_step regions shared_peripherals k k'.

Lemma step_settled regions shared_peripherals k k' :
  consistent_step regions shared_peripherals k k' -> settled k -> settled k'.
Proof.
  intros Hstep [lost Hk]. destruct Hstep as [cs t t' x _ _ _|usage period um random dbg utf8 parse rand canary t x y o Hr E Ho].
  { exists lost. by apply (wf_tables (resting lost) x). }
  pose proof (trap_safe lost regions shared_peripherals usage um random dbg utf8 _
    (keeps_create_process (resting lost) regions shared_peripherals um utf8 parse rand canary) period t x Hk Hr) as H.
  rewrite E in H. assert (if trap_ends x t then settled y else wf_gen (resting lost) y) as Hy by (by destruct o).
  destruct (trap_ends x t); [done|by exists lost].
Qed.

(** A process has ended in its own interrupt handler: the scheduler still counts the handler as
    running, and no thread is there to end it.  The rest agrees as ever. *)
Definition handler_lost (k : Kernel) : Prop :=
  in_irq_handler (k_scheduler k) = true
  /\ (forall pid pr, ~ is_ready (k_processes k) pid 0 pr)
  /\ wf_gen (resting true) k.
Lemma settled_cases k : settled k -> kernel_wf k \/ handler_lost k.
Proof.
  intros [[] Hk]; [right|by left]. destruct (kw_threads _ _ Hk) as (_ & _ & Hirq & _ & Hno).
  split; [by apply Hirq; left|]. split; [by apply Hno|done].
Qed.


(** A machine just started: the idle thread of process 1 is ready, process 1 has a server and
    process 5 is about to connect to it. *)
Definition boot_scheduler : Scheduler :=
  match Process.set_thread_state Scheduler_initial boot_idle 1 TReady with
  | Some (sch, _) => sch
  | None => Scheduler_initial
  end.
Definition boot_sid : SID := SID_from_u32 1 2 3 4.
Definition boot_server : Server :=
  mkServer boot_sid 1 0 0 0 0 (Z.of_nat (length (repeat QEmpty 128))) (repeat QEmpty 128) 0 MessagePermissions_default
    (repeat None NUM_SERVER_EVENTS).
Definition boot_kernel : Kernel :=
  mkKernel (mkMem mm_initial ∅) running_procs
    (<[0%nat := Some (mkHosted boot_server 0x20000000)]> (repeat None MAX_SERVER_COUNT)) requests_new boot_scheduler
    irq_initial {[5 := <[1%nat := demo_thread (as_args (TryConnect boot_sid))]> contexts_new]} 5 1 [] None.

Lemma boot_kernel_wf : kernel_wf boot_kernel.
Proof.
  assert (forall i h, k_servers boot_kernel !! i = Some (Some h) -> i = 0%nat /\ h = mkHosted boot_server 0x20000000) as Hs.
  { intros i h Hi. destruct i as [|i]; [by injection Hi as <-|]. exfalso. cbn in Hi.
    apply list_elem_of_lookup_2, list_elem_of_In in Hi.
    change (In (Some h) (repeat None 127)) in Hi. by apply repeat_spec in Hi. }
  split.
  - unfold boot_kernel, boot_scheduler. cbn [k_scheduler k_processes].
    destruct running_coherent as (sch & -> & Hc & _). exact Hc.
  - intros pid p Hp. assert (connection_map p = connection_map_new) as ->.
    { change (running_procs !! pid = Some p) in Hp. unfold running_procs in Hp.
      apply lookup_insert_Some in Hp as [[_ <-]|[_ Hp]]; [done|]. by apply boot_lookup in Hp as [[_ ->]|[_ ->]]. }
    split; [exact connection_map_new_wf|]. intros i sidx r g perms Hi.
    apply list_elem_of_lookup_2, list_elem_of_In, repeat_spec in Hi. done.
  - done.
  - intros i h Hi. destruct (Hs i h Hi) as [-> ->]. split_and!; [|by eexists|done].
    apply (fresh_server_wf boot_sid 1 128). lia.
  - intros i j h h' Hi Hj _. destruct (Hs _ _ Hi) as [-> _], (Hs _ _ Hj) as [-> _]. done.
  - done.
  - apply irq_initial_wf.
  - intros i pid pc arg Hi. exfalso.
    apply list_elem_of_lookup_2, list_elem_of_In in Hi. apply repeat_spec in Hi. done.
  - done.
Qed.

Definition boot_trap (t : trap) (k : Kernel) : Kernel * outcome Error unit :=
  handle_trap [] [] 0 0 (fun _ _ => 0) boot_sid (fun _ _ => 0) (fun _ => true)
    (create_process [] [] (fun _ _ => 0) (fun _ => true) (fun _ => None) 0 0) t k.

