(* ===== verification/BootInvariant.v ===== *)
(** * The start hands over a consistent kernel

    The invariants that the traps keep - the parts of the kernel agree ([KernelInvariant]), the
    memory of the processes is apart ([KernelIsolation]), no page is writable and executable
    ([WriteExecute]) - hold when [Boot.init] is through, whatever the image is: it starts from
    the statics of the kernel and from page tables for which the loader answers. *)
From stdpp Require Import fin_maps gmap.
From S2P Require Import Prelude Xous SysCall Permissions Server Scheduler Threads Connections.
From S2P Require Import PermissionRequests Irq Process MemManager PageTable Mapping Memory.
From S2P Require Import Isolation IsolationOps Kernel KernelRules Services Elf ElfImage Loading BootImage.
From S2P Require Import Syscalls Traps Boot KernelIsolation WriteExecute KernelInvariant KernelLifecycle KernelCreate KernelCalls.

(** ** The invariant *)

(** Between two operations, with process 1 in place. *)
Definition booting : Phase := mkPhase (fun _ _ => False) (fun _ _ _ => True) (fun _ => True) (fun pid => pid = 1) False.
Definition handed_over (k : Kernel) : Prop :=
  kernel_wf k /\ is_Some (k_processes k !! 1) /\ isolated (k_mem k) /\ wx_free (k_mem k).

Lemma booting_wf k : wf_gen booting k <-> kernel_wf k /\ is_Some (k_processes k !! 1).
Proof.
  split.
  - intros [H1 H2 H3 H4 H5 H6 H7 H8 H9]. split; [by split|by apply H9].
  - intros [[H1 H2 H3 H4 H5 H6 H7 H8 H9] H]. split; try done. by intros pid ->.
Qed.
Lemma handed_over_parts k : handed_over k <-> wf_gen booting k /\ isolated (k_mem k) /\ wx_free (k_mem k).
Proof. rewrite booting_wf. unfold handed_over. tauto. Qed.

(** A step of the start. *)
Definition starts {A} (m : KS A) : Prop := forall k, handed_over k -> safe (fun _ => handed_over) handed_over (m k).

Create HintDb starts.

Lemma starts_bind {A B} (m : KS A) (f : A -> KS B) : starts m -> (forall a, starts (f a)) -> starts (st_bind m f).
Proof. intros Hm Hf k Hk. apply safe_bind. eapply safe_mono; [by apply Hm| |done]. intros. by apply Hf. Qed.
Lemma starts_expect {A} (m : KS A) : starts m -> starts (expect_ok m).
Proof.
  intros Hm k Hk. unfold expect_ok. apply safe_bind. eapply safe_try; [eapply safe_mono; [by apply Hm| |done]|]; by intros.
Qed.
(** From what each invariant says of it. *)
Lemma starts_parts {A} (m : KS A) :
  keeps booting m -> (forall k, isolated (k_mem k) -> is_Some (k_processes k !! 1) -> kept (m k)) ->
  mem_inv wx_free m -> starts m.
Proof.
  intros Hwf Hiso Hwx k Hk. pose proof Hk as (_ & H1 & Hi & Hx). apply handed_over_parts in Hk as [Hk _].
  specialize (Hwf k Hk). specialize (Hiso k Hi H1). specialize (Hwx k Hx).
  unfold safe. destruct (m k) as [k' [a|e|]]; cbn in *; [|by apply handed_over_parts..|done]. by apply handed_over_parts.
Qed.
Lemma starts_same {A} (m : KS A) : keeps booting m -> mem_same m -> starts m.
Proof.
  intros Hwf Hm. apply starts_parts; [done| |by apply mem_same_keeps].
  intros k Hi _. apply isolates_kept; [by apply mem_same_keeps|done].
Qed.
Lemma starts_pure {A} (m : KS A) : same (fun k => k) m -> starts m.
Proof. intros Hm k Hk. specialize (Hm k). unfold safe. destruct (m k) as [k' [a|e|]]; cbn in Hm; by subst. Qed.
Lemma starts_memory {A} (m : KS A) : keeps booting m -> mem_keeps m -> mem_inv wx_free m -> starts m.
Proof. intros ? Hm ?. apply starts_parts; [done| |done]. intros k Hi _. by apply isolates_kept. Qed.

Lemma st_bind_ext {S E A B} (m : state S E A) (f g : A -> state S E B) s :
  (forall a, f a = g a) -> st_bind m f s = st_bind m g s.
Proof. intros H. unfold st_bind. destruct (m s) as [s' [a|e|]]; by rewrite ?H. Qed.

Ltac start_step :=
  first
    [ solve [auto with starts]
    | simple apply starts_bind; [|intros]
    | simple apply starts_expect
    | match goal with
      | |- starts (match ?x with _ => _ end) => destruct x
      | |- starts (if ?x then _ else _) => destruct x
      | |- starts (let '(_, _) := ?x in _) => destruct x
      end
    | apply starts_pure; solve [auto with mem] ].
Ltac starts := repeat start_step.

Section Board.
Context (regions : list (Z * Z)) (shared_peripherals : list Z) (usage : Z).
Context (Hregions : Forall (fun r => r.1 <= r.2) regions).

(** ** The drivers *)

Lemma starts_map_range phys virt size flags user :
  wf_flags flags -> size mod PAGE_SIZE = 0 -> 0 < size -> 0 <= phys ->
  starts (map_range regions shared_peripherals phys virt size flags user).
Proof.
  intros. apply starts_memory; [apply keeps_map_range|by apply isolates_map_range|apply wx_map_range].
Qed.
Lemma starts_unmap virt size : starts (unmap_kernel regions shared_peripherals virt size).
Proof.
  apply starts_expect, starts_memory; [apply keeps_unmap_range|by apply isolates_unmap_range|apply wx_unmap_range].
Qed.
Lemma starts_map_device phys virt size :
  size mod PAGE_SIZE = 0 -> 0 < size -> 0 <= phys -> starts (map_device regions shared_peripherals phys virt size).
Proof. intros. by apply starts_expect, starts_map_range. Qed.

Lemma starts_claim_kernel irq : starts (claim_kernel irq).
Proof.
  intros k Hk. unfold claim_kernel. unfold st_bind at 1, st_get.
  destruct (interrupt_claim_kernel _ _) as [irqs|] eqn:E; [|done]. destruct Hk as (Hwf & H1 & Hi & Hx).
  split; [|done]. revert E. unfold interrupt_claim_kernel. destruct (handlers (k_irqs k) !! _) as [h|]; [|done]. intros E.
  destruct (is_free_handler h); [|done]. injection E as <-. apply set_irqs_wf; [done| |].
  - apply (wf_set_handler _ _ HandlerKernel), Hwf.
  - intros j q pc a Hj. cbn in Hj. apply list_lookup_insert_Some in Hj as [(_ & ? & _)|[_ Hj]]; [done|by left].
Qed.

(** The zeroer changes no owner. *)
Lemma isolated_mm s mm :
  isolated s -> wf_mm mm -> allocations mm = allocations (ms_mm s) -> pending_map_zero mm = pending_map_zero (ms_mm s) ->
  isolated (mkMem mm (ms_maps s)).
Proof.
  intros [Hi Hp] Hwf HA Hpd. unfold isolated, pending_pages, wf_pending in *. cbn [ms_mm]. rewrite Hpd. split; [|done].
  apply (iso_change _ _ s mm Hi Hwf).
  - intros i p _ _. by rewrite HA.
  - intros i p H. destruct (iso_reserved _ _ Hi i p H) as (? & ? & _). rewrite HA. eauto.
Qed.
Lemma starts_zeroer_init : starts (lift_mem (fun _ => st_modify (with_mm zeroer_init))).
Proof.
  apply starts_memory; [apply keeps_lift_mem| |by apply wx_set_mm]. apply mem_lift. intros _ s Hs.
  pose proof (iso_mm _ _ (proj1 Hs)) as Hwf. by apply isolated_mm.
Qed.
Lemma starts_zeroer_start : starts (lift_mem (fun _ => lift_mm zeroer_start)).
Proof.
  apply starts_memory; [apply keeps_lift_mem| |apply wx_lift; intros; apply gives_mm]. apply mem_lift. intros _ s Hs.
  destruct (wf_mm_start (ms_mm s) (iso_mm _ _ (proj1 Hs))) as (mm & E & Hwf & (HA & _ & _ & _ & _ & _ & Hp) & _).
  unfold lift_mm. rewrite E. by apply isolated_mm.
Qed.

(** ** The programs of the image *)

Context (utf8 : list Z -> bool) (parse_elf : list Z -> option ElfFile) (Hparse : wf_parser parse_elf).
Context (rand canary : nat -> Z) (Hrand : forall i, is_u32 (rand i)) (user_memory : nat -> Z -> Z -> Z) (name_addr : Z).

Lemma starts_create_process i init :
  starts (create_process regions shared_peripherals (user_memory i) utf8 parse_elf (rand i) (canary (S i)) init).
Proof.
  apply starts_parts; [apply keeps_create_process| |apply wx_create_process]. intros k Hi H1. by apply kept_create_process.
Qed.
Hint Resolve starts_create_process : starts.
Lemma starts_load_programs i args :
  starts (load_programs regions shared_peripherals utf8 parse_elf rand canary user_memory name_addr i args).
Proof. revert i. induction args as [|arg args IH]; intros i; cbn [load_programs]; starts. Qed.

(** A change to what a process may do. *)
Lemma starts_update {B} pid (f : Process -> Process) (g : Process -> KS B) :
  (forall p, same_process_state p (f p)) -> (forall p, starts (g p)) ->
  starts (let* p := boot_process pid in let* _ := put_process (f p) in g p).
Proof.
  intros Hf Hg. intros k Hk. unfold boot_process. destruct (nonzero_new pid) as [q|]; [|done].
  unfold st_unwrap. unfold st_bind at 2. unfold st_ret. unfold st_bind at 1. unfold process_unwrap.
  destruct (k_processes k !! q) as [p|] eqn:Hp; [|done]. apply safe_bind.
  apply (safe_mono (fun _ => handed_over) _ handed_over); [|by intros; apply Hg|done].
  pose proof Hk as (_ & _ & Hm). apply handed_over_parts in Hk as [Hk _].
  pose proof (update_safe booting q p (f p) k Hk Hp (Hf p)) as Hs. unfold safe in *. cbn in *.
  apply handed_over_parts. by split.
Qed.
Lemma starts_update_last pid (f : Process -> Process) :
  (forall p, same_process_state p (f p)) -> starts (let* p := boot_process pid in put_process (f p)).
Proof.
  intros Hf k Hk. pose proof (starts_update pid f (fun _ => st_ret tt) Hf ltac:(intros; starts) k Hk) as H.
  erewrite st_bind_ext; [exact H|done].
Qed.
Lemma starts_grant_regions pid granted : starts (grant_regions pid granted).
Proof.
  induction granted as [|[start stop] granted IH]; cbn [grant_regions]; [starts|].
  assert (starts (let* p := boot_process pid in
    let* _ := put_process (add_memory_permission p (mkMsgRange start stop)).1 in
    let* _ := st_assert (is_Ok (add_memory_permission p (mkMsgRange start stop)).2) in grant_regions pid granted)) as H.
  { apply starts_update; [|intros; starts]. intros p. unfold add_memory_permission. by destruct (add_region _ _). }
  intros k Hk. specialize (H k Hk). erewrite st_bind_ext; [exact H|]. intros p. cbv beta. by destruct (add_memory_permission p _).
Qed.
Hint Resolve starts_grant_regions : starts.
Lemma starts_grant_permissions args : starts (grant_permissions args).
Proof.
  induction args as [|arg args IH]; cbn [grant_permissions]; [starts|]. apply starts_bind; [|done].
  destruct (_ =? _); [starts|]. destruct (_ =? _); [|starts]. apply starts_bind; [starts|]. intros [pid mask].
  apply (starts_update_last pid). done.
Qed.

(** ** The interrupts claimed by a call *)

Context (call_memory : Z -> Z -> Z) (random : SID) (debug_output : Z -> Z -> Z) (call_rand call_canary : Z).
Context (Hcall : is_u32 call_rand).

(** The call touches the handlers of the interrupts only. *)
Lemma same_claim {X} (part : Kernel -> X) create tid irq callback arg :
  (forall irqs k, part (set_irqs irqs k) = part k) ->
  same part (handle regions shared_peripherals usage call_memory random debug_output utf8 create
               tid (ClaimInterrupt irq callback arg)).
Proof.
  intros Hpart. unfold handle. destruct (_ && _); [mem_same|]. apply same_bind; [apply same_check_syscall|]. intros _.
  unfold handle_call, handle_memory, lift_irq. pose proof (fun irqs => same_modify part (set_irqs irqs) (Hpart irqs)). mem_same.
Qed.
Lemma starts_claim_call tid irq callback arg :
  is_nonzero callback -> is_opt_nonzero arg ->
  starts (handle regions shared_peripherals usage call_memory random debug_output utf8
            (create_process regions shared_peripherals call_memory utf8 parse_elf call_rand call_canary)
            tid (ClaimInterrupt irq callback arg)).
Proof.
  intros Hc Ha k (Hwf & H1 & Hi & Hx). set (create := create_process _ _ _ _ _ _ _).
  pose proof (handle_safe false regions shared_peripherals usage call_memory random debug_output utf8 create
    (keeps_create_process at_rest regions shared_peripherals call_memory utf8 parse_elf call_rand call_canary)
    tid (ClaimInterrupt irq callback arg) k (conj Hc Ha) Hwf) as Hs.
  pose proof (kept_handle regions shared_peripherals usage Hregions call_memory random debug_output utf8 parse_elf call_rand
    call_canary Hparse Hcall tid (ClaimInterrupt irq callback arg) k Hi (conj Hc Ha) I) as Hk.
  pose proof (wx_handle regions shared_peripherals usage call_memory random debug_output utf8 create
    (wx_create_process regions shared_peripherals call_memory utf8 parse_elf call_rand call_canary)
    tid (ClaimInterrupt irq callback arg) k Hx) as Hw.
  pose proof (same_claim k_processes create tid irq callback arg ltac:(done) k) as Hp. fold create in Hk. cbv zeta in Hs. cbn [ends_process] in Hs.
  unfold safe in *. destruct (handle _ _ _ _ _ _ _ _ tid _ k) as [k' [r|e|]]; cbn [fst ends] in *; [..|done]; by split; [|rewrite Hp].
Qed.
Lemma starts_claim_interrupt irq callback arg :
  is_usize callback -> is_usize arg ->
  starts (claim_interrupt regions shared_peripherals usage utf8 parse_elf call_memory random debug_output call_rand
            call_canary irq callback arg).
Proof.
  intros Hc Ha. unfold claim_interrupt. destruct (nonzero_new callback) as [c|] eqn:E; [|by intros k Hk].
  apply nonzero_new_Some in E as [-> Hnz]; [|done]. pose proof (nonzero_new_wf arg Ha).
  intros k Hk. unfold st_bind at 1, st_unwrap. unfold st_ret at 1. unfold st_bind at 1, st_get.
  match goal with |- safe _ _ (?m k) => enough (starts m) as H1 by (by apply H1) end.
  apply starts_bind; [apply starts_expect, starts_claim_call; done|]. intros r. unfold st_assert. starts. 
Qed.

(** ** The start *)

Context (uart_irq uart_arg icm_irq kernel_text : Z) (Huart : is_usize uart_irq /\ is_usize uart_arg) (Hicm : is_usize icm_irq).
Lemma starts_icm :
  starts (icm_init regions shared_peripherals usage utf8 parse_elf call_memory random debug_output call_rand call_canary
            icm_irq kernel_text).
Proof.
  assert (is_usize 0) by (unfold_ints; lia).
  unfold icm_init, kernel_phys. starts; first [by apply starts_claim_interrupt|apply starts_same; [apply keeps_lift_mem|auto with mem]].
Qed.
Lemma starts_platform :
  starts (platform_init regions shared_peripherals usage utf8 parse_elf call_memory random debug_output call_rand
            call_canary uart_irq uart_arg icm_irq kernel_text).
Proof.
  destruct Huart. assert (is_usize 0) by (unfold_ints; lia).
  unfold platform_init, init_l2, init_clocks, tc0_init, init_idle, init_zeroer.
  starts; first [by apply starts_map_device|apply starts_unmap|apply starts_claim_kernel|by apply starts_map_range
    |apply starts_zeroer_init|apply starts_zeroer_start|by apply starts_claim_interrupt|apply starts_icm].
Qed.

Lemma static_wf s maps tid : kernel_wf (set_mem s (kernel_static maps tid)).
Proof.
  assert (forall i h, repeat (None : option Hosted) MAX_SERVER_COUNT !! i <> Some (Some h)) as Hs.
  { intros i h Hi. by apply list_elem_of_lookup_2, list_elem_of_In, repeat_spec in Hi. }
  split; cbn [k_scheduler k_processes k_servers k_requests k_irqs set_mem kernel_static]; try done.
  - split; [apply map_Forall_empty|]. split; [|split].
    + exists (repeat [] NUM_PRIORITIES). split; [apply Scheduler_initial_repr|]. intros pr pid tid'. split.
      * intros (l & Hl & Hin). apply list_elem_of_lookup_2, list_elem_of_In, repeat_spec in Hl. subst l. by apply elem_of_nil in Hin.
      * by intros (n & _ & _ & (p & ? & Hp & _)).
    + split; [done|]. by intros [[]|(pid & pr & (p & ? & Hp & _))].
    + split; [by intros pid pid' pr pr' (p & ? & Hp & _)|by intros []].
  - intros i h Hi. by apply Hs in Hi.
  - intros i j h h' Hi. by apply Hs in Hi.
  - intros i pid pc arg Hi. by apply list_elem_of_lookup_2, list_elem_of_In, repeat_spec in Hi.
Qed.

Lemma enter_process_1_safe s maps tid :
  isolated s -> wx_free s ->
  safe (fun _ => handed_over) handed_over (enter_process_1 utf8 canary (set_mem s (kernel_static maps tid))).
Proof.
  intros Hi Hx. set (k := set_mem s _). pose proof (static_wf s maps tid) as Hk. fold k in Hk.
  set (p := Process_new 1 1 PID1_APP_ID).
  assert (wf_process 1 p) as Hp by (split_and!; cbn; rewrite ?repeat_length; done || lia).
  pose proof (insert_wf at_rest 1 p k Hk (lookup_empty _) Hp (new_process_threads 1 1 PID1_APP_ID) eq_refl) as Hk1.
  set (k1 := set_processes _ k) in Hk1. assert (k_processes k1 !! 1 = Some p) as Hp1 by reflexivity.
  unfold enter_process_1. fold p. unfold st_bind at 1, st_get.
  destruct (Process.set_thread_priority (k_scheduler k) p INITIAL_TID Idle) as [[sch1 p1]|] eqn:E1; [|done].
  destruct (set_thread_priority_Some _ _ _ _ _ _ _ _ (kw_threads _ _ Hk1) Hp1 E1) as [-> Hc1]. set (p1 := set_priorities p _) in *.
  unfold st_bind at 1, st_unwrap, st_ret.
  destruct (Process.set_thread_state sch1 p1 INITIAL_TID TReady) as [[sch2 p2]|] eqn:E2; [|done].
  destruct (set_thread_state_Some _ _ _ _ _ _ _ _ Hc1 (lookup_insert_eq _ _ _) E2) as [-> Hc2]. set (p2 := set_threads p1 _) in *.
  unfold st_bind at 1 2, st_modify. set (p3 := set_syscall_permissions (set_process_name p2
    (Some (kernel_name ++ repeat 0 (MAX_PROCESS_NAME_LEN - length kernel_name)))) u64_MAX).
  assert (set_name utf8 p2 kernel_name = (set_process_name p2
    (Some (kernel_name ++ repeat 0 (MAX_PROCESS_NAME_LEN - length kernel_name))), Ok tt)) as -> by reflexivity.
  unfold st_bind at 1, st_assert, is_Ok. unfold st_ret at 1. unfold st_bind at 1, put_process, st_modify. fold p3.
  set (k2 := set_processes _ _). assert (handed_over k2) as Hk2; 
    [|refine (starts_expect _ _ k2 Hk2); apply starts_same; [apply keeps_setup|apply same_setup]].
  assert (coherent sch2 ({[1 := p3]} : ProcessTable)) as Hc3.
  { rewrite insert_insert_eq in Hc2. cbn [k_processes k1 set_processes] in Hc2. rewrite insert_insert_eq in Hc2.
    pose proof (coherent_same sch2 _ 1 p2 p3 Hc2 (lookup_insert_eq _ _ _)) as Hc3. rewrite insert_insert_eq in Hc3. by apply Hc3. }
  destruct Hk as [_ _ H3 H4 H5 H6 H7 H8 _]. split; [|split; [by eexists|done]]. split; try done.
  - intros pid q Hq. change (({[1 := p3]} : ProcessTable) !! pid = Some q) in Hq. apply lookup_singleton_Some in Hq as [<- <-].
    split; [exact connection_map_new_wf|]. intros i sidx r g perms H. by apply list_elem_of_lookup_2, list_elem_of_In, repeat_spec in H.
  - intros i h H. by apply list_elem_of_lookup_2, list_elem_of_In, repeat_spec in H.
  - intros i pid pc arg H. by destruct (H8 i pid pc arg H) as [[] _].
Qed.

(** Taking over the owners of the pages changes them and the free pages only. *)
Lemma init_same {X} (part : MemoryManager -> X) owners s :
  (forall n low d s, part (set_free n low (with_dirty d s)) = part s) ->
  part (with_allocations (fun _ => owners) s) = part s -> part (init_from_memory owners s) = part s.
Proof.
  intros Hfree Hown. with_strategy transparent [init_from_memory] unfold init_from_memory. rewrite <-Hown.
  generalize (with_allocations (fun _ => owners) s), (seqZ 0 RAM_PAGES). intros s' l. revert s'.
  induction l as [|i l IH]; intros s'; [done|]. cbn [fold_left]. rewrite IH. case_bool_decide; [apply Hfree|done].
Qed.
Lemma init_pending owners : pending_map_zero (init_from_memory owners mm_initial) = None.
Proof. by apply (init_same pending_map_zero). Qed.
Lemma start_memory owners maps tid :
  lift_mem (fun _ => st_modify (with_mm (init_from_memory owners))) (kernel_static maps tid)
    = (set_mem (mkMem (init_from_memory owners mm_initial) maps) (kernel_static maps tid), Done tt).
Proof. unfold lift_mem, st_modify. cbn [with_mm ms_mm ms_maps k_mem kernel_static]. by rewrite (init_same mm_calls). Qed.

Lemma start_safe owners maps tid image :
  let s := mkMem (init_from_memory owners mm_initial) maps in
  isolated s -> wx_free s ->
  safe (fun _ => handed_over) handed_over
    (init regions shared_peripherals usage utf8 parse_elf rand canary user_memory name_addr call_memory random debug_output
       call_rand call_canary uart_irq uart_arg icm_irq kernel_text owners image (kernel_static maps tid)).
Proof.
  intros s Hi Hx. unfold init.
  rewrite (run_bind _ _ _ (set_mem s (kernel_static maps tid)) tt) by apply start_memory.
  destruct (kernel_arguments image) as [args|]; [|done]. rewrite (run_bind _ _ _ (set_mem s (kernel_static maps tid)) args) by reflexivity.
  unfold init_services. apply safe_bind. apply safe_bind.
  apply (safe_mono (fun _ => handed_over) _ handed_over); [by apply enter_process_1_safe| |done]. intros _ k0 Hk0.
  apply (safe_mono (fun _ => handed_over) _ handed_over); [|clear k0 Hk0; intros _ k Hk|done].
  { apply starts_bind; [apply starts_load_programs|intros _; apply starts_grant_permissions|exact Hk0]. }
  eapply (starts_bind _ _); [apply starts_unmap|intros _|exact Hk].
  apply starts_bind; [|intros _; apply starts_platform].
  unfold arch_init. intros k1 (Hwf & H1 & Hm). split; [|done]. by apply (wf_tables at_rest k1).
Qed.
End Board.

(** C14: The kernel starts consistent, whatever the boot image holds: from its statics, over page
    tables of a loader that keep the memory of the processes apart and no page writable and
    executable, [init] panics - the way it reports every error - or hands over a state in which
    the parts of the kernel agree, the kernel's own process exists, the memory is apart and
    nothing is writable and executable.  These are the states that the theorems about the traps
    start from. *)
Theorem start_consistent regions shared_peripherals usage utf8 parse_elf rand canary user_memory name_addr call_memory random
    debug_output call_rand call_canary uart_irq uart_arg icm_irq kernel_text owners maps tid image :
  Forall (fun r => r.1 <= r.2) regions -> wf_parser parse_elf -> (forall i, is_u32 (rand i)) -> is_u32 call_rand ->
  is_usize uart_irq -> is_usize uart_arg -> is_usize icm_irq ->
  isolated (mkMem (init_from_memory owners mm_initial) maps) -> wx_free (mkMem (init_from_memory owners mm_initial) maps) ->
  let '(k, r) := init regions shared_peripherals usage utf8 parse_elf rand canary user_memory name_addr call_memory random
                   debug_output call_rand call_canary uart_irq uart_arg icm_irq kernel_text owners image (kernel_static maps tid) in
  r <> Panic -> kernel_wf k /\ is_Some (k_processes k !! 1) /\ isolated (k_mem k) /\ wx_free (k_mem k).
Proof.
  intros Hr Hp Hrand Hcall Hirq Harg Hicm Hi Hx.
  pose proof (start_safe regions shared_peripherals usage Hr utf8 parse_elf Hp rand canary Hrand user_memory name_addr call_memory
    random debug_output call_rand call_canary Hcall uart_irq uart_arg icm_irq kernel_text (conj Hirq Harg) Hicm owners maps tid image Hi Hx) as H.
  destruct (init _ _ _ _ _ _ _ _ _ _ _ _ _ _ _ _ _ _ _ _ _) as [k [[]|e|]]; [by intros _..|done].
Qed.
