(* ===== verification/BootBoard.v ===== *)
(** * A board that starts

    A state that a loader can leave, and an image of one program with its permissions: the
    start runs to its end on it.  Process 1 has tables for its own areas, with the page of the
    loader, the program of the image, the descriptors and hashes of the integrity monitor and
    the kernel's text; the last pages of the RAM are free.  The theorems about the start hold
    for this one in particular. *)
From stdpp Require Import fin_maps gmap.
From S2P Require Import Prelude Xous SysCall Permissions Server Scheduler Threads Connections.
From S2P Require Import PermissionRequests Irq Process MemManager PageTable Mapping Memory.
From S2P Require Import Isolation IsolationOps Kernel KernelRules Services Elf ElfImage Loading BootImage.
From S2P Require Import Syscalls Traps Boot KernelIsolation WriteExecute KernelInvariant BootInvariant.

Definition board_regions : list (Z * Z) := [(0x200000, 0x220000); (0xf0000000, 0xf8100000)].

(** ** What the loader leaves *)

Definition board_used : Z := RAM_PAGES - 64.
Definition board_owners : gmap Z Z := map_seqZ 0 (replicate (Z.to_nat board_used) 1).
Definition board_page (i : Z) : Z := page_address i + 0x83b.
Definition board_pages : list (Z * Z) :=
  [(0x20000, 7); (0x58000, 8); (0x58001, 9); (0xffce8, 10); (0xffce9, 11); (0xffd00, 12)].
Definition board_space : MemoryMapping :=
  let m := add_group 0x200 (page_address 2) (add_group 0x300 (page_address 3) (add_group 0x580 (page_address 4)
             (add_group 0xffc (page_address 5) (mkMapping (page_address 0) ∅ ∅)))) in
  mkMapping (ttbr0 m) (l1 m) (list_to_map (prod_map id board_page <$> board_pages)).
Definition board_maps : gmap Z MemoryMapping := {[1 := board_space]}.
Definition board_memory : MemState := mkMem (init_from_memory board_owners mm_initial) board_maps.

Lemma board_owner i : 0 <= i < 32 -> board_owners !! i = Some 1.
Proof.
  intros Hi. unfold board_owners. rewrite lookup_map_seqZ_Some. split; [lia|].
  apply lookup_replicate. split; [done|]. unfold board_used. rewrite RAM_PAGES_eq. lia.
Qed.
Lemma board_maps_lookup pid m : board_maps !! pid = Some m -> pid = 1 /\ m = board_space.
Proof. unfold board_maps. intros H. by apply lookup_singleton_Some in H as [<- <-]. Qed.
Lemma board_word pn w : l2 board_space !! pn = Some w -> exists i, (pn, i) ∈ board_pages /\ w = board_page i.
Proof.
  intros H. apply elem_of_list_to_map_2, list_elem_of_fmap in H as ([pn' i] & [= -> ->] & Hin). by exists i.
Qed.
Lemma board_page_at mm pid pn i : page_at (mkMem mm board_maps) pid pn = Some i -> pid = 1 /\ (pn, i) ∈ board_pages.
Proof.
  unfold page_at, word. cbn [ms_maps].
  destruct (board_maps !! pid) as [m|] eqn:Em; [|done]. apply board_maps_lookup in Em as [-> ->].
  destruct (l2 board_space !! pn) as [w|] eqn:Ew; [|done]. apply board_word in Ew as (j & Hin & ->). intros H. change (slot_page (board_page j) = Some i) in H.
  split; [done|]. enough (slot_page (board_page j) = Some j) as E by (rewrite E in H; by injection H as <-). clear H.
  unfold board_pages in Hin. rewrite !elem_of_cons in Hin.
  repeat destruct Hin as [[= -> ->]|Hin]; [vm_compute; reflexivity..|by apply not_elem_of_nil in Hin].
Qed.
Lemma board_page_range pn i : (pn, i) ∈ board_pages -> 7 <= i < 32.
Proof.
  unfold board_pages. rewrite !elem_of_cons. intros Hin.
  repeat destruct Hin as [[= -> ->]|Hin]; [lia..|by apply not_elem_of_nil in Hin].
Qed.
Lemma board_page_injective pn pn' i : (pn, i) ∈ board_pages -> (pn', i) ∈ board_pages -> pn = pn'.
Proof.
  unfold board_pages. rewrite !elem_of_cons. intros H1 H2.
  repeat destruct H1 as [[= -> ->]|H1]; try (by apply not_elem_of_nil in H1);
    repeat destruct H2 as [[=]|H2]; try (by apply not_elem_of_nil in H2); congruence.
Qed.
Lemma board_table i : table_page board_space i -> 0 <= i < 7.
Proof.
  assert (forall j k, 0 <= j < 7 -> 0 <= k < 4 -> ram_page (page_address j + k * L2_TABLE_BYTES) = Some j) as Hp.
  { intros. apply ram_page_address; [rewrite RAM_PAGES_eq; lia|unfold L2_TABLE_BYTES, PAGE_SIZE; lia]. }
  intros [(v & t & Hl & Hr)|(k & Hk & Hr)].
  - cbn [board_space l1] in Hl.
    repeat (apply add_group_lookup in Hl as [Hl|(k & Hk & ->)]; [|rewrite Hp in Hr by lia; injection Hr as <-; lia]).
    cbn [l1] in Hl. by rewrite lookup_empty in Hl.
  - cbn [ttbr0 board_space add_group] in Hr. unfold L1_USER_PAGE_TABLE_PAGES in Hk.
    replace (page_address 0 + k * PAGE_SIZE) with (page_address k + 0 * L2_TABLE_BYTES) in Hr
      by (unfold page_address, PAGE_SIZE; lia).
    rewrite Hp in Hr by lia. injection Hr as <-. lia.
Qed.

Lemma board_isolated_mm mm :
  wf_mm mm -> (forall i, 0 <= i < 32 -> allocations mm !! i = Some 1) -> pending_map_zero mm = None ->
  isolated (mkMem mm board_maps).
Proof.
  intros Hwf Hown Hpend. unfold isolated, pending_pages, wf_pending. cbn [ms_mm]. rewrite Hpend. split; [|by intros job]. split.
  - intros pid m [_ ->]%board_maps_lookup. repeat (apply grouped_add_group; [lia|]). intros v v' _ _ _ _. apply lookup_empty.
  - exact Hwf.
  - intros pid pn i [-> Hin]%board_page_at. apply board_page_range in Hin. apply Hown. lia.
  - intros pid pn pid' pn' i [-> H]%board_page_at [-> H']%board_page_at. split; [done|]. by eapply board_page_injective.
  - intros pid m i [-> ->]%board_maps_lookup Hi%board_table. split; [apply Hown; lia|]. split; [apply lookup_empty|].
    intros p pn [_ Hin]%board_page_at. apply board_page_range in Hin. lia.
  - intros i pid Hi. by rewrite lookup_empty in Hi.
Qed.
Lemma board_isolated : isolated board_memory.
Proof.
  pose proof (init_wf board_owners) as (Hwf & HA & _). pose proof (init_pending board_owners) as Hp.
  cbv zeta in Hwf, HA. unfold board_memory. revert Hwf HA Hp. generalize (init_from_memory board_owners mm_initial). intros mm Hwf HA Hp.
  apply board_isolated_mm; [exact Hwf| |exact Hp]. intros i Hi. rewrite HA. by apply board_owner.
Qed.
Lemma board_wx_free mm : wx_free (mkMem mm board_maps).
Proof.
  intros pid m pn w Hm Hw. cbn [ms_maps] in Hm. apply board_maps_lookup in Hm as [_ ->]. apply board_word in Hw as (i & Hin & ->).
  assert (forallb (fun '(_, i) => negb (board_page i =? 0) && negb (Z.land (board_page i) 3 =? 0) && Z.testbit (board_page i) 0)
    board_pages = true) as Hall by (vm_compute; reflexivity).
  rewrite forallb_forall in Hall. specialize (Hall _ (proj1 (list_elem_of_In _ _) Hin)). cbn beta iota in Hall.
  apply andb_prop in Hall as [[H0 H3]%andb_prop Hb]. unfold from_u32. destruct (_ =? 0); [done|].
  destruct (Z.eqb_spec (Z.land (board_page i) 3) 0); [done|]. split; [done|by left].
Qed.

(** ** The image *)

Definition board_elf : ElfFile :=
  mkElfFile true MachineArm Executable 0x10010 [Ph32 true (mkHeader32 SegmentLoad 0 0x10000 0x1000 0x1000 false true)].
Definition board_parser (image : list Z) : option ElfFile := Some board_elf.
Definition board_app : AppId := mkAppId (replicate 16 7).
Definition board_elf_bytes : list Z := replicate 4096 0.
Definition board_args : list XousArgument :=
  [BinaryElf 2 board_app [0x6c; 0x6f; 0x67] 0 board_elf_bytes; MemoryPermission 2 [(0xf8000000, 0xf8004000)];
   SyscallPermission 2 0x30004].
Definition board_image : list Z := default [] (write_image (fun _ => 0) board_args).
Definition board_sid : SID := SID_from_u32 1 2 3 4.
Definition board_init : Kernel * outcome Error unit :=
  init board_regions [] 0 (fun _ => true) board_parser (fun _ => 0) (fun _ => 0) (fun _ _ _ => 0) 0 (fun _ _ => 0) board_sid
    (fun _ _ => 0) 0 0 0x1000 0 0x2000 0xffd00000 board_owners board_image (kernel_static board_maps 0).

Lemma board_args_wf : Forall wf_argument board_args.
Proof. unfold board_args, board_app. wf_arguments. Qed.
Lemma board_parser_wf : wf_parser board_parser.
Proof.
  intros image elf E. injection E as <-. split; [unfold is_u32; cbn; lia|]. intros sane h Hin.
  unfold board_elf in Hin. cbn [elf_headers] in Hin.
  apply elem_of_cons in Hin as [E|Hin]; [injection E as -> ->; unfold wf_header, is_u32; cbn; lia|].
  by apply not_elem_of_nil in Hin.
Qed.

(** The pages in use are skipped. *)
Lemma init_skips owners n s :
  0 <= n <= RAM_PAGES -> (forall i, 0 <= i < n -> is_Some (owners !! i)) ->
  init_from_memory owners s
    = fold_left (init_page owners) (seqZ n (RAM_PAGES - n)) (with_allocations (fun _ => owners) s).
Proof.
  intros Hn Hown. with_strategy transparent [init_from_memory] unfold init_from_memory. fold (init_page owners).
  replace RAM_PAGES with (n + (RAM_PAGES - n)) at 1 by lia. rewrite seqZ_app, fold_left_app by lia. f_equal.
  generalize (with_allocations (fun _ => owners) s). intros s'.
  assert (Forall (fun i => is_Some (owners !! i)) (seqZ 0 n)) as Hall.
  { apply list.Forall_forall. intros i Hi%elem_of_seqZ. apply Hown. lia. }
  induction Hall as [|i l [pid Hi] _ IH]; [done|]. cbn [fold_left]. unfold init_page at 2. by rewrite Hi.
Qed.
Lemma board_all_used i : 0 <= i < board_used -> is_Some (board_owners !! i).
Proof.
  intros Hi. exists 1. unfold board_owners. rewrite lookup_map_seqZ_Some. split; [lia|]. apply lookup_replicate. split; [done|lia].
Qed.
Lemma board_used_range : 0 <= board_used <= RAM_PAGES.
Proof. unfold board_used. rewrite RAM_PAGES_eq. lia. Qed.
(** The start of this board, evaluated without looking at each page in use. *)
Ltac board_evaluate :=
  unfold board_init, init; erewrite run_bind by apply start_memory;
  rewrite (init_skips board_owners board_used mm_initial board_used_range board_all_used); vm_compute; reflexivity.
Lemma board_starts : board_init = (board_init.1, Done tt).
Proof. assert (board_init.2 = Done tt) as E by board_evaluate. rewrite <-E. by destruct board_init. Qed.

(** The first trap, of the first thread. *)
Definition board_trap : Kernel * outcome Error unit :=
  handle_trap board_regions [] 0 0 (fun _ _ => 0) board_sid (fun _ _ => 0) (fun _ => true)
    (create_process board_regions [] (fun _ _ => 0) (fun _ => true) board_parser 0 0) TrapSwi board_init.1.
Lemma board_traps : board_trap.2 = Done tt.
Proof. unfold board_trap. board_evaluate. Qed.

Lemma start_consistent_witness :
  kernel_wf board_init.1 /\ is_Some (k_processes board_init.1 !! 1) /\ isolated (k_mem board_init.1) /\ wx_free (k_mem board_init.1).
Proof.
  pose proof (start_consistent board_regions [] 0 (fun _ => true) board_parser (fun _ => 0) (fun _ => 0) (fun _ _ _ => 0) 0
    (fun _ _ => 0) board_sid (fun _ _ => 0) 0 0 0x1000 0 0x2000 0xffd00000 board_owners board_maps 0 board_image) as H.
  fold board_init in H. rewrite board_starts in H. apply H; try (unfold is_u32, is_usize; lia).
  - repeat constructor; cbn; lia.
  - exact board_parser_wf.
  - exact board_isolated.
  - apply board_wx_free.
  - discriminate.
Defined.
