(* ===== verification/Loader.v ===== *)
(** * The loader ([loader/src/{main,boot,load,bootconfig}.rs])

    [rust_entry] runs from the bootloader with the boot image in the RAM.  It keeps the owners of
    the pages in the page tracker, takes pages from the top of the encrypted RAM downwards, puts
    the kernel there, and builds the page tables of process 1 for the kernel, its stacks, the
    tracker, the image, the devices and a window on the RAM.  Then [start_kernel] turns the MMU
    on and jumps.  Every error is a panic.

    [BootConfig] is the record of the code with what its pointers stand for: the page tracker, a
    map of the entries that are not 0; the translation table of process 1, a [MemoryMapping] as
    the kernel has it, with the words of its sections; and the words of the RAM.  A word of the
    encrypted RAM is stored as [seal] makes it, the memory bridge of the chip.  The loader has
    one translation table, so [map_page] takes none; and the words of tables and tracker are not
    part of the RAM. *)
From stdpp Require Import fin_maps gmap.
From S2P Require Import Prelude Xous SysCall Process MemManager PageTable Mapping Loading BootImage Boot.

(** ** Constants ([consts.rs], [keyos]) *)

Definition FLG_VALID : Z := 1.
Definition FLG_X : Z := 2.
Definition FLG_W : Z := 4.
Definition FLG_R : Z := 8.
Definition FLG_U : Z := 16.
Definition FLG_GUARD : Z := 32.
Definition FLG_DEV : Z := 64.
Definition FLG_NO_CACHE : Z := 128.

Definition BOOT_SPLASH_PHYS_ADDR : Z := PLAINTEXT_DRAM_END - BOOT_SPLASH_PAGES * PAGE_SIZE.
Definition MAPPED_PHYSICAL_RAM : Z := 0xa0000000.
Definition ALLOCATION_TRACKER_OFFSET : Z := 0xff808000.
Definition KERNEL_LOAD_OFFSET : Z := 0xffd00000.
Definition KERNEL_MODE_STACK_BOTTOM : Z := 0xffff0000.
Definition KERNEL_MODE_STACK_PAGE_COUNT : Z := 8.

(** The devices that the loader maps for the kernel: virtual and physical address, pages; the
    address of the SECURAM is the one of the memory map. *)
Definition PERIPHERALS : list (Z * Z * Z) :=
  [(0xffcf0000, 0xf8020000, 4); (0xffce0000, 0xfc01c000, 4); (0xffc80000, 0x00a00000, 4); (0xffca0000, 0xfc020000, 4);
   (0xffcb0000, 0xf803c000, 4); (0xffc50000, 0xf8044000, 4); (0xffc40000, 0xf8048000, 1); (0xffcc0000, 0xf8049000, 4);
   (0xffcd0000, 0xf804c000, 4); (0xffce4000, 0xf8040000, 4)].

(** ** State *)

Record BootConfig : Type := mkBoot {
  extra_pages : Z;
  rpt_size_bytes : Z;
  (* [runtime_page_tracker] and its length *)
  tracker : gmap Z Z;
  rpt_pages : Z;
  (* where the tracker lies *)
  rpt_addr : Z;
  (* the table at [pid1.ttbr0], its section descriptors, [pid1.entrypoint] and [pid1.sp] *)
  table : MemoryMapping;
  sections : gmap Z Z;
  boot_entrypoint : Z;
  boot_sp : Z;
  (* words of the RAM, by their index *)
  ram : gmap Z Z
}.
Abbreviation LB := (state BootConfig Error).

Definition set_extra (n : Z) (c : BootConfig) : BootConfig :=
  mkBoot n (rpt_size_bytes c) (tracker c) (rpt_pages c) (rpt_addr c) (table c) (sections c) (boot_entrypoint c) (boot_sp c) (ram c).
Definition set_rpt (size addr pages : Z) (c : BootConfig) : BootConfig :=
  mkBoot (extra_pages c) size ∅ pages addr (table c) (sections c) (boot_entrypoint c) (boot_sp c) (ram c).
Definition set_tracker (t : gmap Z Z) (c : BootConfig) : BootConfig :=
  mkBoot (extra_pages c) (rpt_size_bytes c) t (rpt_pages c) (rpt_addr c) (table c) (sections c) (boot_entrypoint c) (boot_sp c) (ram c).
Definition set_table (m : MemoryMapping) (c : BootConfig) : BootConfig :=
  mkBoot (extra_pages c) (rpt_size_bytes c) (tracker c) (rpt_pages c) (rpt_addr c) m (sections c) (boot_entrypoint c) (boot_sp c) (ram c).
Definition set_sections (m : gmap Z Z) (c : BootConfig) : BootConfig :=
  mkBoot (extra_pages c) (rpt_size_bytes c) (tracker c) (rpt_pages c) (rpt_addr c) (table c) m (boot_entrypoint c) (boot_sp c) (ram c).
Definition set_entry (e s : Z) (c : BootConfig) : BootConfig :=
  mkBoot (extra_pages c) (rpt_size_bytes c) (tracker c) (rpt_pages c) (rpt_addr c) (table c) (sections c) e s (ram c).
Definition set_ram (r : gmap Z Z) (c : BootConfig) : BootConfig :=
  mkBoot (extra_pages c) (rpt_size_bytes c) (tracker c) (rpt_pages c) (rpt_addr c) (table c) (sections c) (boot_entrypoint c) (boot_sp c) r.

(** [BootConfig::default]; [ram] is what the bootloader leaves. *)
Definition boot_default (ram : gmap Z Z) : BootConfig :=
  mkBoot BOOT_SPLASH_PAGES 0 ∅ 0 0 (mkMapping 0 ∅ ∅) ∅ 0 0 ram.

Section Board.
Context (regions : list (Z * Z)).
(** The memory bridge, by the index of a word. *)
Context (seal unseal : Z -> Z -> Z).

(** ** Words of the RAM *)

Definition write_word (phys v : Z) (r : gmap Z Z) : gmap Z Z :=
  if is_address_encrypted phys then let i := (phys - ENCRYPTED_DRAM_BASE) / 4 in <[i := seal i v]> r
  else if is_address_in_plaintext_dram phys then <[(phys - PLAINTEXT_DRAM_BASE) / 4 := v]> r
  else r.
Definition read_ram (r : gmap Z Z) (phys : Z) : Z :=
  if is_address_encrypted phys then let i := (phys - ENCRYPTED_DRAM_BASE) / 4 in unseal i (default 0 (r !! i))
  else default 0 (r !! ((phys - PLAINTEXT_DRAM_BASE) / 4)).
(** [memcpy] of words and [bzero], counted in words. *)
Definition copy_words (dest src n : Z) (r : gmap Z Z) : gmap Z Z :=
  fold_left (fun r' i => write_word (usize (dest + 4 * i)) (read_ram r (usize (src + 4 * i))) r') (indices 0 n) r.
Definition zero_words (dest n : Z) (r : gmap Z Z) : gmap Z Z :=
  fold_left (fun r i => write_word (usize (dest + 4 * i)) 0 r) (indices 0 n) r.

(** ** Pages *)

Definition get_top (c : BootConfig) : Z :=
  usize (ENCRYPTED_DRAM_END - rpt_size_bytes c - extra_pages c * PAGE_SIZE).
Definition own (i : Z) : LB unit :=
  let* c := st_get in
  let* _ := st_assert ((0 <=? i) && (i <? rpt_pages c)) in st_modify (fun c => set_tracker (<[i := 1]> (tracker c)) c).
Definition alloc : LB Z :=
  let* _ := st_modify (fun c => set_extra (extra_pages c + 1) c) in
  let* c := st_get in
  let* _ := st_assert (extra_pages c <? RAM_PAGES - rpt_size_bytes c / PAGE_SIZE) in
  let pg := get_top c in
  let* _ := st_modify (fun c => set_ram (zero_words pg (PAGE_SIZE / 4) (ram c)) c) in
  let* _ := own (RAM_PAGES - extra_pages c - rpt_size_bytes c / PAGE_SIZE) in
  st_ret pg.
Definition mark_as_owned (addr : Z) : LB unit :=
  let addr := if is_address_in_plaintext_dram addr then to_encrypted_phys_addr addr else addr in
  if is_address_encrypted addr then own ((addr - ENCRYPTED_DRAM_BASE) / PAGE_SIZE) else
  let* i := st_unwrap (region_offset regions RAM_PAGES addr) in own i.

(** Four more pages, the last of which is returned. *)
Definition alloc_owned : LB Z := let* p := alloc in let* _ := mark_as_owned p in st_ret p.
Definition ALIGNMENT_16K : Z := 16 * 1024.
Fixpoint l1_tries (tries : nat) (num_alloc_pages : Z) : LB Z :=
  match tries with
  | O => st_panic
  | S tries =>
      let* p := alloc_owned in
      let num_alloc_pages := num_alloc_pages + 1 in
      if Z.land p (ALIGNMENT_16K - 1) =? 0 then
        if negb (num_alloc_pages =? 4) then
          let* _ := alloc_owned in let* _ := alloc_owned in let* _ := alloc_owned in alloc_owned
        else st_ret p
      else l1_tries tries num_alloc_pages
  end.
Definition alloc_l1_page_table : LB Z := l1_tries 4 0.

(** ** Mapping *)

Definition flag (flags f : Z) : bool := negb (Z.land flags f =? 0).
(** The flag word of a small page of section [vpn1]. *)
Definition boot_page_flags (flags vpn1 : Z) : Z :=
  let w := 0 in
  let w := if flag flags FLG_VALID
           then let w := Z.lor w SP_VALID in if negb (flag flags FLG_X) then Z.lor w SP_XN else w
           else w in
  let read_only := negb (flag flags FLG_W) in
  let w := Z.lor w (if flag flags FLG_GUARD then 0
                    else if flag flags FLG_U then (if read_only then 0x20 else SP_AP_FullAccess) else SP_AP_PrivAccess) in
  let w := if read_only && negb (flag flags FLG_GUARD) then Z.lor w SP_AP2 else w in
  let w := if negb (flag flags FLG_DEV) && negb (flag flags FLG_NO_CACHE) then Z.lor w SP_C else w in
  let w := if flag flags FLG_DEV then Z.lor w SP_B else w in
  if vpn1 <? L1_USER_PAGE_TABLE_ENTRIES then Z.lor w SP_NG else w.

Definition map_page (phys virt flags : Z) : LB unit :=
  if flag flags FLG_X && flag flags FLG_W then st_panic else
  let* _ := mark_as_owned phys in
  let vpn1 := translation_table_index virt in
  let p := Z.land phys (usize_not 0xfff) in
  let* c := st_get in
  let* _ :=
    match l1 (table c) !! vpn1 with
    | None =>
        let* na := alloc_owned in
        st_modify (fun c => set_table (add_group vpn1 na (table c)) c)
    | Some _ => st_ret tt
    end in
  let* c := st_get in
  match l1 (table c) !! vpn1 with
  | Some (L1Page _) =>
      let word := default 0 (l2 (table c) !! page_number virt) in
      match get_type word with
      | InvalidPage =>
          let* d := st_unwrap (descriptor_new SmallPage p (boot_page_flags flags vpn1)) in
          st_modify (fun c => let t := table c in
            set_table (mkMapping (ttbr0 t) (l1 t) (<[page_number virt := d]> (l2 t))) c)
      | _ => st_panic
      end
  | _ => st_panic
  end.

(** The flag word of a section. *)
Definition section_flags (flags vpn1 : Z) : Z :=
  let read_only := negb (flag flags FLG_W) in
  let w := Z.lor (Z.shiftl 1 1) (Z.shiftl 0xf 5) in
  let ap := if flag flags FLG_GUARD then 0
            else if flag flags FLG_U then (if read_only then 1 else 3) else 1 in
  let w := Z.lor w (Z.shiftl ap 10) in
  let w := if read_only && negb (flag flags FLG_GUARD) then Z.lor w (Z.shiftl 1 15) else w in
  let w := if negb (flag flags FLG_DEV) && negb (flag flags FLG_NO_CACHE) then Z.lor w (Z.shiftl 1 3) else w in
  let w := if flag flags FLG_DEV then Z.lor w (Z.shiftl 1 2) else w in
  if vpn1 <? L1_USER_PAGE_TABLE_ENTRIES then Z.lor w (Z.shiftl 1 17) else w.
Definition map_section (phys virt flags : Z) : LB unit :=
  let* _ := st_assert (Z.land virt 0xfffff =? 0) in
  let* _ := st_assert (Z.land phys 0xfffff =? 0) in
  let vpn1 := translation_table_index virt in
  let* c := st_get in
  let* _ := st_assert (bool_decide (l1 (table c) !! vpn1 = None)) in
  let* _ := st_modify (fun c => let t := table c in set_table (mkMapping (ttbr0 t) (<[vpn1 := L1Section]> (l1 t)) (l2 t)) c) in
  st_modify (fun c => set_sections (<[vpn1 := Z.lor phys (section_flags flags vpn1)]> (sections c)) c).

Fixpoint each {A} (f : A -> LB unit) (l : list A) : LB unit :=
  match l with [] => st_ret tt | a :: l => let* _ := f a in each f l end.
(** [(0..n).step_by(PAGE_SIZE)]. *)
Definition page_steps (n : Z) : list Z := pages_of 0 n.
Definition map_pages (phys virt n flags : Z) : LB unit :=
  each (fun offset => map_page (usize (phys + offset)) (usize (virt + offset)) flags) (page_steps n).

(** ** The kernel ([load.rs]) *)

(** The boot image, its place in the RAM. *)
Context (image : list Z) (args_base : Z).

Definition round_page (n : Z) : Z := Z.land (usize (n + PAGE_SIZE - 1)) (usize_not (PAGE_SIZE - 1)).
Definition data_bss (d : ProgramDescription) : Z := u32 (data_size d + bss_size d).

(** One section to the top of the free RAM: [size] bytes from [src], the rest of [rounded] bytes zero. *)
Definition copy_section (src size rounded : Z) : LB unit :=
  let* _ := st_modify (fun c => set_extra (extra_pages c + rounded / PAGE_SIZE) c) in
  let* c := st_get in
  let top := get_top c in
  let* _ := st_modify (fun c => set_ram (copy_words top src ((size + 1) / 4) (ram c)) c) in
  st_modify (fun c => set_ram (zero_words (usize (top + 4 * (size / 4))) (rounded / 4 - size / 4) (ram c)) c).
Definition copy (d : ProgramDescription) : LB unit :=
  let* _ := copy_section (usize (args_base + 4 * (load_offset d / 4))) (text_size d) (round_page (text_size d)) in
  copy_section (usize (args_base + 4 * (u32 (load_offset d + text_size d + 4) / 4 - 1))) (data_size d) (round_page (data_bss d)).

(** The pages of a stack come one below the other. *)
Fixpoint alloc_stack_pages (n : nat) (top : Z) : LB Z :=
  match n with
  | O => st_ret top
  | S n => let* p := alloc in alloc_stack_pages n (if top =? 0 then p else top)
  end.
Definition allocate_stack (flags base num_pages : Z) : LB Z :=
  let* top := alloc_stack_pages (Z.to_nat num_pages) 0 in
  let* _ := each (fun i => map_page (usize (top - PAGE_SIZE * num_pages + PAGE_SIZE * (i + 1)))
                             (usize (base - PAGE_SIZE * num_pages + PAGE_SIZE * i)) flags) (indices 0 num_pages) in
  st_ret top.

Definition map_kernel (d : ProgramDescription) : LB unit :=
  let* c := st_get in
  let load_offset := get_top c in
  let flag_defaults := Z.lor (Z.lor FLG_R FLG_W) FLG_VALID in
  let flag_defaults_text := Z.lor FLG_R FLG_VALID in
  let* _ := st_assert (text_offset d =? KERNEL_LOAD_OFFSET) in
  let* _ := st_assert (u32 (text_offset d + text_size d) <? KERNEL_MODE_STACK_BOTTOM) in
  let* _ := st_assert (u32 (data_offset d + data_size d + bss_size d) <? KERNEL_MODE_STACK_BOTTOM - 16) in
  let* _ := st_assert (KERNEL_LOAD_OFFSET <=? data_offset d) in
  let* tt_address := alloc_l1_page_table in
  let* _ := st_modify (fun c => set_table (mkMapping tt_address (l1 (table c)) (l2 (table c))) c) in
  let* thread_address := alloc in
  let* _ := map_page thread_address THREAD_CONTEXT_AREA
              (Z.lor (Z.lor (Z.lor (Z.lor FLG_R FLG_W) FLG_VALID) FLG_DEV) FLG_NO_CACHE) in
  let* _ := allocate_stack flag_defaults PID1_STACK_BOTTOM PID1_STACK_PAGE_COUNT in
  let* _ := allocate_stack flag_defaults KERNEL_MODE_STACK_BOTTOM KERNEL_MODE_STACK_PAGE_COUNT in
  let* _ := allocate_stack flag_defaults PID1_IRQ_HANDLER_STACK_BOTTOM PID1_IRQ_HANDLER_STACK_PAGE_COUNT in
  let* _ := st_assert (Z.land (text_offset d) (PAGE_SIZE - 1) =? 0) in
  let* _ := st_assert (Z.land (data_offset d) (PAGE_SIZE - 1) =? 0) in
  let rounded_data_bss := round_page (data_bss d) in
  let* _ := map_pages (usize (load_offset + rounded_data_bss)) (text_offset d) (text_size d)
              (Z.lor (Z.lor flag_defaults_text FLG_X) FLG_VALID) in
  let* _ := map_pages load_offset (data_offset d) (data_bss d) flag_defaults in
  st_modify (set_entry (BootImage.entrypoint d) PID1_STACK_BOTTOM).

(** ** The start ([main.rs]) *)

Definition read_initial_config (args : list KernelArgument) : LB unit :=
  let krn := List.filter (fun arg => arg_name arg =? tag_XKrn) args in
  let* _ := st_assert (Nat.leb (length krn) 1) in
  let* _ := st_assert (forallb (fun arg => arg_size arg =? 28) krn) in
  st_assert (Nat.eqb (length krn) 1).

Definition next_multiple_of (n m : Z) : Z := (n + m - 1) / m * m.
Definition region_pages (r : Z * Z) : Z := next_multiple_of (r.2 - r.1) PAGE_SIZE / PAGE_SIZE.
Definition tracker_entries : Z :=
  Z.land (fold_left (fun n r => n + region_pages r) regions RAM_PAGES + 4 - 1) (usize_not (4 - 1)).
Definition allocate_page_tracker : LB unit :=
  let* c := st_get in
  let size := next_multiple_of (rpt_size_bytes c + tracker_entries) PAGE_SIZE in
  let* _ := st_modify (set_rpt size 0 tracker_entries) in
  let* c := st_get in
  let addr := to_encrypted_phys_addr (get_top c) in
  let* _ := st_assert (to_plaintext_phys_addr addr <? ENCRYPTED_DRAM_END) in
  let* _ := st_modify (set_rpt size addr tracker_entries) in
  each (fun i => own (RAM_PAGES - i - 1)) (indices 0 (size / PAGE_SIZE)).

Definition map_runtime_page_tracker : LB unit :=
  let* c := st_get in
  map_pages (rpt_addr c) ALLOCATION_TRACKER_OFFSET (rpt_size_bytes c) (Z.lor (Z.lor FLG_R FLG_W) FLG_VALID).
Definition map_arguments : LB unit :=
  let* total := st_unwrap (arguments_total_size image) in
  map_pages args_base KERNEL_ARGUMENT_OFFSET total (Z.lor FLG_R FLG_VALID).
Definition map_peripherals : LB unit :=
  each (fun '(virt_start, phys_start, num_pages) =>
      each (fun page => map_page (Z.land (usize (phys_start + page * PAGE_SIZE)) (usize_not (PAGE_SIZE - 1)))
                          (Z.land (usize (virt_start + page * PAGE_SIZE)) (usize_not (PAGE_SIZE - 1)))
                          (Z.lor (Z.lor (Z.lor FLG_VALID FLG_R) FLG_W) FLG_DEV)) (indices 0 num_pages)) PERIPHERALS.
Definition map_icm_regions (kernel_text_start kernel_text_size : Z) : LB unit :=
  let* phys := alloc in
  let* _ := map_page phys ICM_KERNEL_DESC_AREA_ADDR (Z.lor (Z.lor FLG_R FLG_W) FLG_VALID) in
  let* _ := st_modify (fun c => set_ram (write_word (phys + 4) kernel_text_size (write_word phys kernel_text_start (ram c))) c) in
  let* phys := alloc in
  map_page phys ICM_KERNEL_HASH_AREA_ADDR (Z.lor (Z.lor FLG_R FLG_NO_CACHE) FLG_VALID).
Definition map_physical_ram : LB unit :=
  each (fun section => map_section (ENCRYPTED_DRAM_BASE + section * 0x100000) (MAPPED_PHYSICAL_RAM + section * 0x100000)
                         (Z.lor (Z.lor FLG_VALID FLG_R) FLG_W)) (indices 0 (RAM_SIZE / 0x100000)).
Definition map_boot_splash_screen : LB unit :=
  each (fun page => map_page (BOOT_SPLASH_PHYS_ADDR + page * PAGE_SIZE) (BOOT_SPLASH_FB + page * PAGE_SIZE)
                      (Z.lor (Z.lor (Z.lor FLG_VALID FLG_R) FLG_W) FLG_U)) (indices 0 BOOT_SPLASH_PAGES).

(** [rust_entry], up to the jump: what [start_kernel] gets. *)
Definition rust_entry : LB (Z * Z * Z * Z) :=
  let* args := st_unwrap (kernel_arguments image) in
  let* _ := read_initial_config args in
  let* _ := allocate_page_tracker in
  let* arg := st_unwrap (List.find (fun arg => arg_name arg =? tag_XKrn) args) in
  let* d := st_unwrap (boot_kernel_description (arg_data arg)) in
  let* _ := copy d in
  let* _ := map_kernel d in
  let* _ := map_runtime_page_tracker in
  let* _ := map_arguments in
  let* _ := map_peripherals in
  let* _ := map_icm_regions (text_offset d) (text_size d) in
  let* _ := map_physical_ram in
  let* _ := map_boot_splash_screen in
  let* _ := map_page LOADER_CODE_ADDRESS LOADER_CODE_ADDRESS (Z.lor (Z.lor FLG_R FLG_X) FLG_VALID) in
  let* c := st_get in
  st_ret (boot_sp c, ttbr0 (table c), boot_entrypoint c, KERNEL_ARGUMENT_OFFSET).
End Board.
