(* ===== verification/LoaderPages.v ===== *)
(** * The pages the loader takes

    [laid_out F c]: the page tables built so far are sound.  Every page in use - mapped or
    holding tables - is owned, used once, and not among those set aside in [F]; every word is
    of a page with tables and none is writable and executable.  Pages are taken from the top
    downwards and never given back; the words of the RAM in the pages of [K] stay as they are
    ([later]).  A panic ends the start, so [runs] says what holds when an operation comes to
    its end and the pages from [L] down were not needed. *)
From stdpp Require Import fin_maps gmap.
From S2P Require Import Prelude Xous SysCall Permissions Server Scheduler Threads Connections.
From S2P Require Import PermissionRequests Irq Process MemManager PageTable Mapping Memory.
From S2P Require Import Isolation IsolationOps Kernel KernelRules Services Elf ElfImage Loading BootImage.
From S2P Require Import Syscalls Traps Boot KernelIsolation WriteExecute Loader.

(** ** Runs *)

(** [runs L R m Q c]: if [m] comes to its end from [c], without a panic, and has not taken pages
    below [L], then [Q] holds of its result.  [R] is the number of pages of the tracker. *)
Definition top_page (R : Z) (c : BootConfig) : Z := RAM_PAGES - R - extra_pages c.
Definition runs (L R : Z) {A} (m : LB A) (Q : A -> BootConfig -> Prop) (c : BootConfig) : Prop :=
  forall c' a, m c = (c', Done a) -> L <= top_page R c' -> Q a c'.
(** Pages are never given back. *)
Definition grows {A} (m : LB A) : Prop := forall c c' a, m c = (c', Done a) -> extra_pages c <= extra_pages c'.

Create HintDb grow.
Lemma grows_bind {A B} (m : LB A) (k : A -> LB B) : grows m -> (forall a, grows (k a)) -> grows (st_bind m k).
Proof.
  intros Hm Hk c c' b. unfold st_bind. destruct (m c) as [c1 [a|e|]] eqn:E; [|done..]. intros H.
  etrans; [by eapply Hm|by eapply Hk].
Qed.
Lemma grows_ret {A} (a : A) : grows (st_ret a).
Proof. by intros c c' a' [= <- _]. Qed.
Lemma grows_get : grows st_get.
Proof. by intros c c' a' [= <- _]. Qed.
Lemma grows_panic {A} : grows (A := A) st_panic.
Proof. done. Qed.
Lemma grows_assert b : grows (st_assert b).
Proof. destruct b; [apply grows_ret|done]. Qed.
Lemma grows_unwrap {A} (o : option A) : grows (st_unwrap o).
Proof. destruct o; [apply grows_ret|done]. Qed.
Lemma grows_modify f : (forall c, extra_pages c <= extra_pages (f c)) -> grows (st_modify f).
Proof. intros H c c' a [= <- _]. apply H. Qed.
Lemma grows_each {A} (f : A -> LB unit) l : (forall a, grows (f a)) -> grows (each f l).
Proof. intros Hf. induction l as [|a l IH]; [apply grows_ret|]. by apply grows_bind. Qed.
#[export] Hint Resolve grows_ret grows_get grows_panic grows_assert grows_unwrap grows_each : grow.
Ltac grow_step :=
  first
    [ solve [auto with grow]
    | apply grows_bind; [|intros]
    | apply grows_modify; intros; cbn; lia
    | apply grows_each; intros
    | match goal with
      | |- grows (if ?b then _ else _) => destruct b
      | |- grows (match ?x with _ => _ end) => destruct x
      end ].
Ltac grow := repeat grow_step.

Section Grow.
Context (regions : list (Z * Z)) (seal unseal : Z -> Z -> Z).
Lemma grows_own i : grows (own i).
Proof. unfold own. grow. Qed.
Hint Resolve grows_own : grow.
Lemma grows_alloc : grows (alloc seal).
Proof. unfold alloc. grow. Qed.
Lemma grows_mark addr : grows (mark_as_owned regions addr).
Proof. unfold mark_as_owned. cbv zeta. grow. Qed.
Hint Resolve grows_alloc grows_mark : grow.
Lemma grows_alloc_owned : grows (alloc_owned regions seal).
Proof. unfold alloc_owned. grow. Qed.
Hint Resolve grows_alloc_owned : grow.
Lemma grows_tries n m : grows (l1_tries regions seal n m).
Proof. revert m. induction n as [|n IH]; intros m; cbn [l1_tries]; grow. Qed.
Lemma grows_map_page phys virt flags : grows (map_page regions seal phys virt flags).
Proof. unfold map_page. cbv zeta. grow. Qed.
Lemma grows_map_section phys virt flags : grows (map_section phys virt flags).
Proof. unfold map_section. cbv zeta. grow. Qed.
Hint Resolve grows_tries grows_map_page grows_map_section : grow.
Lemma grows_map_pages phys virt n flags : grows (map_pages regions seal phys virt n flags).
Proof. unfold map_pages. grow. Qed.
Lemma grows_stack_pages n top : grows (alloc_stack_pages seal n top).
Proof. revert top. induction n as [|n IH]; intros top; cbn [alloc_stack_pages]; grow. Qed.
Hint Resolve grows_map_pages grows_stack_pages : grow.
Lemma grows_stack flags base n : grows (allocate_stack regions seal flags base n).
Proof. unfold allocate_stack. grow. Qed.
Hint Resolve grows_stack : grow.
Lemma grows_map_kernel d : grows (map_kernel regions seal d).
Proof. unfold map_kernel, alloc_l1_page_table. cbv zeta. grow. Qed.
Lemma grows_peripherals : grows (map_peripherals regions seal).
Proof. unfold map_peripherals. grow. Qed.
Lemma grows_icm start size : grows (map_icm_regions regions seal start size).
Proof. unfold map_icm_regions. grow. Qed.
Lemma grows_physical_ram : grows map_physical_ram.
Proof. unfold map_physical_ram. grow. Qed.
Lemma grows_splash : grows (map_boot_splash_screen regions seal).
Proof. unfold map_boot_splash_screen. grow. Qed.
Lemma grows_arguments image args_base : grows (map_arguments regions seal image args_base).
Proof. unfold map_arguments. grow. Qed.
Lemma grows_runtime_tracker : grows (map_runtime_page_tracker regions seal).
Proof. unfold map_runtime_page_tracker. grow. Qed.
Lemma round_page_nonneg n : 0 <= round_page n.
Proof. unfold round_page. apply Z.land_nonneg. left. unfold usize. apply Z.mod_pos_bound. lia. Qed.
Lemma grows_copy args_base d : grows (copy seal unseal args_base d).
Proof.
  unfold copy, copy_section. grow;
    (apply grows_modify; intros; cbn; pose proof (round_page_nonneg (text_size d)); pose proof (round_page_nonneg (data_bss d));
     unfold PAGE_SIZE; Z.div_mod_to_equations; lia).
Qed.
End Grow.
#[export] Hint Resolve grows_own grows_alloc grows_mark grows_alloc_owned grows_tries grows_map_page grows_map_section grows_map_pages : grow.
#[export] Hint Resolve grows_stack_pages grows_stack grows_map_kernel grows_peripherals grows_icm grows_physical_ram grows_splash : grow.
#[export] Hint Resolve grows_arguments grows_runtime_tracker grows_copy : grow.

(** ** Sections *)

(** The window on the RAM: one section of the kernel for each megabyte. *)
Definition window_section (vpn1 w : Z) : Prop :=
  exists n, 0 <= n < 128 /\ vpn1 = translation_table_index (MAPPED_PHYSICAL_RAM + n * 0x100000)
    /\ w = Z.lor (ENCRYPTED_DRAM_BASE + n * 0x100000) (section_flags (Z.lor (Z.lor FLG_VALID FLG_R) FLG_W) vpn1).
(** The table has no other sections. *)
Definition window_only (c : BootConfig) : Prop :=
  (forall v w, sections c !! v = Some w -> window_section v w)
  /\ (forall v, l1 (table c) !! v = Some L1Section -> is_Some (sections c !! v)).
(** A section is for the kernel alone: its access bits are those of [PrivAccess]. *)
Definition kernel_only (w : Z) : Prop := Z.land (Z.shiftr w 10) 3 = 1 /\ Z.testbit w 15 = false.
Lemma window_kernel_only v w : window_section v w -> kernel_only w.
Proof.
  intros (n & Hn & -> & ->).
  assert (forallb (fun n => let w := Z.lor (ENCRYPTED_DRAM_BASE + n * 0x100000) (section_flags (Z.lor (Z.lor FLG_VALID FLG_R) FLG_W)
    (translation_table_index (MAPPED_PHYSICAL_RAM + n * 0x100000))) in (Z.land (Z.shiftr w 10) 3 =? 1) && negb (Z.testbit w 15)) (seqZ 0 128) = true)
    as H by (by vm_compute).
  rewrite forallb_forall in H. specialize (H n (proj1 (list_elem_of_In _ _) (proj2 (elem_of_seqZ 0 128 n) Hn))). cbv zeta in H.
  apply andb_prop in H as [H1%Z.eqb_eq H2%negb_true_iff]. by split.
Qed.

Definition windows {A} (m : LB A) : Prop := forall c c' a, m c = (c', Done a) -> window_only c -> window_only c'.
Create HintDb window.
Lemma windows_bind {A B} (m : LB A) (k : A -> LB B) : windows m -> (forall a, windows (k a)) -> windows (st_bind m k).
Proof.
  intros Hm Hk c c' b. unfold st_bind. destruct (m c) as [c1 [a|e|]] eqn:E; [|done..]. intros H Hc. eapply Hk; [exact H|]. by eapply Hm.
Qed.
(** What leaves the state as it is. *)
Lemma windows_reads {A} (m : LB A) : (forall c, (m c).1 = c) -> windows m.
Proof. intros Hm c c' a E Hc. specialize (Hm c). rewrite E in Hm. cbn in Hm. by subst. Qed.
Lemma windows_ret {A} (a : A) : windows (st_ret a).
Proof. by apply windows_reads. Qed.
Lemma windows_get : windows st_get.
Proof. by apply windows_reads. Qed.
Lemma windows_panic {A} : windows (A := A) st_panic.
Proof. by apply windows_reads. Qed.
Lemma windows_assert b : windows (st_assert b).
Proof. apply windows_reads. by destruct b. Qed.
Lemma windows_unwrap {A} (o : option A) : windows (st_unwrap o).
Proof. apply windows_reads. by destruct o. Qed.
Lemma windows_modify f : (forall c, window_only c -> window_only (f c)) -> windows (st_modify f).
Proof. intros H c c' a [= <- _]. apply H. Qed.
Lemma windows_each {A} (f : A -> LB unit) l : Forall (fun a => windows (f a)) l -> windows (each f l).
Proof. induction 1 as [|a l Ha _ IH]; cbn [each]; [by apply windows_reads|by apply windows_bind]. Qed.
Lemma windows_page m t : window_only t -> (forall v, l1 m !! v = Some L1Section -> l1 (table t) !! v = Some L1Section) -> window_only (set_table m t).
Proof. intros [H1 H2] Hm. split; [done|]. intros v Hv. by apply H2, Hm. Qed.
Lemma windows_group vpn1 phys c : window_only c -> window_only (set_table (add_group vpn1 phys (table c)) c).
Proof.
  intros Hc. apply windows_page; [done|]. intros v. unfold add_group; cbn [l1].
  do 4 (rewrite lookup_insert; destruct (decide _); [done|]). done.
Qed.
#[export] Hint Resolve windows_ret windows_get windows_panic windows_assert windows_unwrap windows_group : window.
Ltac window_step :=
  first
    [ solve [auto with window]
    | apply windows_bind; [|intros]
    | apply windows_modify; intros c Hc; solve [exact Hc | auto with window | apply windows_page; [exact Hc|done]]
    | apply windows_each, list.Forall_forall; intros
    | match goal with
      | |- windows (if ?b then _ else _) => destruct b
      | |- windows (match ?x with _ => _ end) => destruct x
      end ].
Ltac window := repeat window_step.

Section Windows.
Context (regions : list (Z * Z)) (seal unseal : Z -> Z -> Z).
Lemma windows_own i : windows (own i).
Proof. unfold own. window. Qed.
Hint Resolve windows_own : window.
Lemma windows_alloc : windows (alloc seal).
Proof. unfold alloc. window. Qed.
Lemma windows_mark addr : windows (mark_as_owned regions addr).
Proof. unfold mark_as_owned. cbv zeta. window. Qed.
Hint Resolve windows_alloc windows_mark : window.
Lemma windows_alloc_owned : windows (alloc_owned regions seal).
Proof. unfold alloc_owned. window. Qed.
Hint Resolve windows_alloc_owned : window.
Lemma windows_tries n m : windows (l1_tries regions seal n m).
Proof. revert m. induction n as [|n IH]; intros m; cbn [l1_tries]; window. Qed.
Lemma windows_map_page phys virt flags : windows (map_page regions seal phys virt flags).
Proof. unfold map_page. cbv zeta. window. Qed.
Hint Resolve windows_tries windows_map_page : window.
Lemma windows_map_pages phys virt n flags : windows (map_pages regions seal phys virt n flags).
Proof. unfold map_pages. window. Qed.
Lemma windows_stack_pages n top : windows (alloc_stack_pages seal n top).
Proof. revert top. induction n as [|n IH]; intros top; cbn [alloc_stack_pages]; window. Qed.
Hint Resolve windows_map_pages windows_stack_pages : window.
Lemma windows_stack flags base n : windows (allocate_stack regions seal flags base n).
Proof. unfold allocate_stack. window. Qed.
Hint Resolve windows_stack : window.
Lemma windows_map_kernel d : windows (map_kernel regions seal d).
Proof. unfold map_kernel, alloc_l1_page_table. cbv zeta. window. Qed.
Lemma windows_tracker : windows (allocate_page_tracker regions).
Proof. unfold allocate_page_tracker. cbv zeta. window. Qed.
Lemma windows_config args : windows (read_initial_config args).
Proof. unfold read_initial_config. cbv zeta. window. Qed.
Lemma windows_copy args_base d : windows (copy seal unseal args_base d).
Proof. unfold copy, copy_section. cbv zeta. window. Qed.
Lemma windows_icm start size : windows (map_icm_regions regions seal start size).
Proof. unfold map_icm_regions. window. Qed.
Lemma window_insert c t n v :
  0 <= n < 128 -> v = translation_table_index (MAPPED_PHYSICAL_RAM + n * 0x100000) -> window_only c ->
  window_only (set_sections (<[v := Z.lor (ENCRYPTED_DRAM_BASE + n * 0x100000) (section_flags (Z.lor (Z.lor FLG_VALID FLG_R) FLG_W) v)]> (sections c))
    (set_table (mkMapping t (<[v := L1Section]> (l1 (table c))) (l2 (table c))) c)).
Proof.
  intros Hn Ev [H1 H2]. split; cbn.
  - intros v' w [[<- <-]|[Hne Hw]]%lookup_insert_Some; [by exists n|by apply H1].
  - intros v' [[<- _]|[Hne Hv]]%lookup_insert_Some; [rewrite lookup_insert_eq; by eexists|]. rewrite lookup_insert_ne by done. by apply H2.
Qed.
Lemma windows_section n :
  0 <= n < 128 ->
  windows (map_section (ENCRYPTED_DRAM_BASE + n * 0x100000) (MAPPED_PHYSICAL_RAM + n * 0x100000) (Z.lor (Z.lor FLG_VALID FLG_R) FLG_W)).
Proof.
  intros Hn. unfold map_section. do 2 (apply windows_bind; [window|intros _]). cbv zeta.
  intros c c' [] E Hc. revert E. unfold st_bind at 1, st_get. unfold st_bind at 1. destruct (bool_decide _); [|done].
  intros E. exact (eq_ind _ window_only (window_insert c (ttbr0 (table c)) n _ Hn eq_refl Hc) c' (f_equal fst E)).
Qed.
Lemma windows_physical_ram : windows map_physical_ram.
Proof.
  unfold map_physical_ram. apply windows_each, list.Forall_forall. intros n Hn. apply windows_section.
  rewrite indices_seqZ in Hn. apply elem_of_seqZ in Hn. change (RAM_SIZE / 0x100000) with 128 in Hn. lia.
Qed.
End Windows.
#[export] Hint Resolve windows_own windows_alloc windows_map_page windows_map_pages windows_map_kernel windows_tracker windows_config : window.
#[export] Hint Resolve windows_copy windows_icm windows_physical_ram : window.
Lemma windows_rust_entry regions seal unseal image args_base : windows (rust_entry regions seal unseal image args_base).
Proof.
  unfold rust_entry, map_runtime_page_tracker, map_arguments, map_peripherals, map_boot_splash_screen. window.
Qed.
Lemma window_default ram0 : window_only (boot_default ram0).
Proof. split; intros v; [intros w|]; cbn; by rewrite lookup_empty. Qed.
Lemma rust_entry_sections regions seal unseal image args_base ram0 c r :
  rust_entry regions seal unseal image args_base (boot_default ram0) = (c, Done r) ->
  forall v, l1 (table c) !! v = Some L1Section -> exists w, sections c !! v = Some w /\ window_section v w /\ kernel_only w.
Proof.
  intros E v Hv. destruct (windows_rust_entry _ _ _ _ _ _ _ _ E (window_default ram0)) as [H1 H2].
  destruct (H2 v Hv) as [w Hw]. exists w. split; [done|]. specialize (H1 v w Hw). split; [done|]. by eapply window_kernel_only.
Qed.

Lemma runs_bind L R {A B} (m : LB A) (k : A -> LB B) Q c :
  (forall a, grows (k a)) -> runs L R m (fun a => runs L R (k a) Q) c -> runs L R (st_bind m k) Q c.
Proof.
  intros Hk H c' b. unfold st_bind. destruct (m c) as [c1 [a|e|]] eqn:E; [|done..]. intros E' HL.
  assert (L <= top_page R c1) as HL1 by (apply Hk in E'; unfold top_page in *; lia). by apply (H c1 a E HL1).
Qed.
Lemma runs_mono L R {A} (m : LB A) (Q Q' : A -> BootConfig -> Prop) c :
  runs L R m Q c -> (forall a c', L <= top_page R c' -> Q a c' -> Q' a c') -> runs L R m Q' c.
Proof. intros H HQ c' a E HL. apply HQ; [done|]. by apply H. Qed.
Lemma runs_ret L R {A} (a : A) (Q : A -> BootConfig -> Prop) c : Q a c -> runs L R (st_ret a) Q c.
Proof. intros H c' a' [= <- <-] _. exact H. Qed.
Lemma runs_last L R f (Q : unit -> BootConfig -> Prop) c : (L <= top_page R (f c) -> Q tt (f c)) -> runs L R (st_modify f) Q c.
Proof. intros H c' [] [= <-] HL. by apply H. Qed.
Lemma runs_get L R {A} (k : BootConfig -> LB A) Q c : runs L R (k c) Q c -> runs L R (st_bind st_get k) Q c.
Proof. done. Qed.
Lemma runs_assert L R {A} (b : bool) (k : unit -> LB A) Q c :
  (b = true -> runs L R (k tt) Q c) -> runs L R (st_bind (st_assert b) k) Q c.
Proof. destruct b; [by intros H; apply H|done]. Qed.
Lemma runs_unwrap L R {A B} (o : option A) (k : A -> LB B) Q c :
  (forall a, o = Some a -> runs L R (k a) Q c) -> runs L R (st_bind (st_unwrap o) k) Q c.
Proof. destruct o; [by intros H; apply H|done]. Qed.
Lemma runs_modify L R {A} f (k : unit -> LB A) Q c : runs L R (k tt) Q (f c) -> runs L R (st_bind (st_modify f) k) Q c.
Proof. done. Qed.
(** A step that panics has nothing to show. *)
Lemma runs_panic L R {A} (Q : A -> BootConfig -> Prop) c : runs L R st_panic Q c.
Proof. done. Qed.

(** ** Addresses *)

Lemma usize_small x : 0 <= x < 2 ^ 32 -> usize x = x.
Proof. intros. apply usize_id. done. Qed.
Lemma page_address_u32 i : 0 <= i < RAM_PAGES -> 0 <= page_address i < 2 ^ 32.
Proof. rewrite RAM_PAGES_eq. unfold page_address, PAGE_SIZE. change ENCRYPTED_DRAM_BASE with 1073741824. lia. Qed.
Lemma page_byte_encrypted i k : 0 <= i < RAM_PAGES -> 0 <= k < PAGE_SIZE -> is_address_encrypted (page_address i + k) = true.
Proof.
  rewrite RAM_PAGES_eq. unfold is_address_encrypted, page_address, PAGE_SIZE.
  change ENCRYPTED_DRAM_END with (ENCRYPTED_DRAM_BASE + 134217728). lia.
Qed.
Lemma to_encrypted_index addr :
  is_address_in_plaintext_dram addr = true ->
  is_address_encrypted (to_encrypted_phys_addr addr) = true
  /\ to_encrypted_phys_addr addr - ENCRYPTED_DRAM_BASE = addr - PLAINTEXT_DRAM_BASE.
Proof.
  unfold is_address_in_plaintext_dram, to_encrypted_phys_addr, is_address_encrypted.
  change PLAINTEXT_DRAM_END with (PLAINTEXT_DRAM_BASE + 134217728). change ENCRYPTED_DRAM_END with (ENCRYPTED_DRAM_BASE + 134217728).
  change (PLAINTEXT_DRAM_BASE - 1) with (2 ^ 29 - 1). rewrite land_ones_mod by lia. intros H.
  change PLAINTEXT_DRAM_BASE with (2 ^ 29) in *. change ENCRYPTED_DRAM_BASE with (Z.shiftl 1 30).
  assert (addr mod 2 ^ 29 = addr - 2 ^ 29) as ->.
  { symmetry. apply (Z.mod_unique _ _ 1); lia. }
  rewrite lor_shiftl_add by lia. change (1 * 2 ^ 30) with 1073741824. change (Z.shiftl 1 30) with 1073741824. lia.
Qed.
(** The page of an address. *)
Lemma ram_page_floor phys : ram_page (Z.shiftl (phys / PAGE_SIZE) 12) = ram_page phys.
Proof.
  rewrite Z.shiftl_mul_pow2 by lia. unfold ram_page, is_ram, address_to_allocation_offset, is_address_encrypted, is_address_in_plaintext_dram, PAGE_SIZE.
  change PLAINTEXT_DRAM_END with (PLAINTEXT_DRAM_BASE + 134217728). change ENCRYPTED_DRAM_END with (ENCRYPTED_DRAM_BASE + 134217728).
  change PLAINTEXT_DRAM_BASE with 536870912. change ENCRYPTED_DRAM_BASE with 1073741824.
  set (q := phys / 4096). assert (phys = q * 4096 + phys mod 4096) by (subst q; Z.div_mod_to_equations; lia).
  pose proof (Z.mod_pos_bound phys 4096 ltac:(lia)). change (2 ^ 12) with 4096.
  assert (forall b, ((b * 4096 <=? q * 4096) = (b * 4096 <=? phys)) /\ ((q * 4096 <? b * 4096) = (phys <? b * 4096))) as Hc by lia.
  change 1073741824 with (262144 * 4096). change 536870912 with (131072 * 4096).
  change (262144 * 4096 + 134217728) with (294912 * 4096). change (131072 * 4096 + 134217728) with (163840 * 4096).
  destruct (Hc 262144) as [-> _], (Hc 131072) as [-> _], (Hc 294912) as [_ ->], (Hc 163840) as [_ ->].
  repeat case_match; try done; f_equal; Z.div_mod_to_equations; lia.
Qed.
Lemma address_floor phys : is_u32 phys -> Z.land phys (usize_not 0xfff) = Z.shiftl (phys / PAGE_SIZE) 12 /\ 0 <= phys / PAGE_SIZE < 2 ^ 20.
Proof.
  intros Hu. assert (0 <= phys / PAGE_SIZE < 2 ^ 20) as Hr by (unfold is_u32, PAGE_SIZE in *; Z.div_mod_to_equations; lia).
  split; [|done]. assert (phys = Z.lor (Z.shiftl (phys / PAGE_SIZE) 12) (phys mod PAGE_SIZE)) as E.
  { rewrite shiftl_add by (unfold PAGE_SIZE; apply Z.mod_pos_bound; lia). rewrite Z.shiftl_mul_pow2 by lia.
    change (2 ^ 12) with PAGE_SIZE. unfold PAGE_SIZE. Z.div_mod_to_equations. lia. }
  rewrite E at 1. apply land_high; [unfold PAGE_SIZE; apply Z.mod_pos_bound; lia|done].
Qed.

(** ** The words of a page *)

(** A flag word that maps a page, never writable and executable. *)
Definition good_word (w : Z) : bool :=
  (0 <=? w) && (w <? 4096) && (2 <=? Z.land w 3) && (Z.testbit w 0 || Z.testbit w 9).
Definition good_flags (flags : Z) : bool :=
  negb (flag flags FLG_X && flag flags FLG_W) && good_word (boot_page_flags flags 0) && good_word (boot_page_flags flags 4095).
Lemma good_flags_word flags vpn1 : good_flags flags = true -> good_word (boot_page_flags flags vpn1) = true.
Proof.
  unfold good_flags. intros [[_ H0]%andb_prop H1]%andb_prop.
  destruct (vpn1 <? L1_USER_PAGE_TABLE_ENTRIES) eqn:E.
  - assert (boot_page_flags flags vpn1 = boot_page_flags flags 0) as ->; [|done].
    unfold boot_page_flags. by rewrite E.
  - assert (boot_page_flags flags vpn1 = boot_page_flags flags 4095) as ->; [|done].
    unfold boot_page_flags. by rewrite E.
Qed.
Lemma boot_word p f :
  0 <= p < 2 ^ 20 -> good_word f = true ->
  let d := Z.lor (Z.shiftl p 12) f in
  descriptor_new SmallPage (Z.shiftl p 12) f = Some d /\ get_addr d = Some (Z.shiftl p 12) /\ slot_page d = ram_page (Z.shiftl p 12)
  /\ apart (from_u32 d).
Proof.
  intros Hp Hg. unfold good_word in Hg. assert (0 <= f < 4096 /\ 2 <= Z.land f 3 /\ (Z.testbit f 0 = true \/ Z.testbit f 9 = true)) as (Hf & H3 & Hb).
  { repeat (apply andb_prop in Hg as [Hg ?]). split; [lia|]. split; [lia|]. by apply orb_prop. }
  destruct (mapped_word p f Hp Hf H3) as (Hphys & _ & _ & Hfrom). cbv zeta in *. cbn [as_u32] in Hfrom.
  assert (get_addr (Z.lor (Z.shiftl p 12) f) = Some (Z.shiftl p 12)) as Ha.
  { unfold entry_phys in Hphys. by destruct (get_addr _) as [a|]; cbn in Hphys; [injection Hphys as ->|]. }
  split; [|split; [done|split]].
  - unfold descriptor_new. cbn [page_align]. pose proof (aligned_shiftl p) as Hal. unfold page_aligned in Hal.
    change (PAGE_SIZE - 1) with 0xfff in Hal. by rewrite Hal.
  - unfold slot_page. rewrite Hfrom. cbn [entry_page]. by rewrite Ha.
  - rewrite Hfrom. cbn [apart]. split.
    + rewrite land_low by lia. lia.
    + rewrite !Z.lor_spec, !Z.shiftl_spec_low by lia. done.
Qed.

(** ** Words of the RAM *)

Section Words.
Context (seal unseal : Z -> Z -> Z).

(** The index of the word at an address of the RAM. *)
Definition ram_index (phys : Z) : option Z :=
  if is_address_encrypted phys then Some ((phys - ENCRYPTED_DRAM_BASE) / 4)
  else if is_address_in_plaintext_dram phys then Some ((phys - PLAINTEXT_DRAM_BASE) / 4)
  else None.
Lemma write_word_other phys v r k : ram_index phys <> Some k -> write_word seal phys v r !! k = r !! k.
Proof.
  unfold ram_index, write_word. intros Hk. destruct (is_address_encrypted phys); [rewrite lookup_insert_ne by congruence; done|].
  destruct (is_address_in_plaintext_dram phys); [rewrite lookup_insert_ne by congruence; done|done].
Qed.
Lemma page_index i k : 0 <= i < RAM_PAGES -> 0 <= k < 1024 -> ram_index (page_address i + 4 * k) = Some (i * 1024 + k).
Proof.
  clear.
  intros Hi Hk. unfold ram_index. rewrite page_byte_encrypted by (unfold PAGE_SIZE; lia). f_equal.
  unfold page_address, PAGE_SIZE. Z.div_mod_to_equations. lia.
Qed.

(** Words from word [k] of page [i] on, [n] of them, all in the RAM. *)
Lemma block_word i k n j :
  0 <= i < RAM_PAGES -> 0 <= k -> i * 1024 + k + n <= RAM_PAGES * 1024 -> 0 <= j < n ->
  is_address_encrypted (usize (usize (page_address i + 4 * k) + 4 * j)) = true
  /\ (usize (usize (page_address i + 4 * k) + 4 * j) - ENCRYPTED_DRAM_BASE) / 4 = i * 1024 + k + j.
Proof.
  clear.
  rewrite RAM_PAGES_eq. intros Hi Hk Hn Hj. unfold page_address, PAGE_SIZE, is_address_encrypted.
  change ENCRYPTED_DRAM_END with (ENCRYPTED_DRAM_BASE + 134217728). change ENCRYPTED_DRAM_BASE with 1073741824.
  rewrite (usize_small (1073741824 + i * 4096 + 4 * k)) by lia. rewrite usize_small by lia. split; [lia|].
  Z.div_mod_to_equations. lia.
Qed.
Lemma fold_words (f : Z -> Z) i k n r :
  0 <= i < RAM_PAGES -> 0 <= k -> 0 <= n -> i * 1024 + k + n <= RAM_PAGES * 1024 ->
  forall w, fold_left (fun r' j => write_word seal (usize (usize (page_address i + 4 * k) + 4 * j)) (f j) r') (indices 0 n) r !! w
  = if decide (i * 1024 + k <= w < i * 1024 + k + n) then Some (seal w (f (w - (i * 1024 + k)))) else r !! w.
Proof.
  clear unseal.
  intros Hi Hk Hn Hend w. rewrite indices_seqZ.
  enough (forall m, 0 <= m <= n ->
    fold_left (fun r' j => write_word seal (usize (usize (page_address i + 4 * k) + 4 * j)) (f j) r') (seqZ 0 m) r !! w
    = if decide (i * 1024 + k <= w < i * 1024 + k + m) then Some (seal w (f (w - (i * 1024 + k)))) else r !! w) as H by (by apply H).
  intros m Hm. assert (exists m', m = Z.of_nat m') as [m' ->] by (exists (Z.to_nat m); lia).
  induction m' as [|m' IH]; [rewrite decide_False by lia; done|].
  replace (Z.of_nat (S m')) with (Z.of_nat m' + 1) by lia. rewrite seqZ_app, fold_left_app by lia. rewrite (seqZ_cons _ 1), (seqZ_nil _ (Z.pred 1)) by lia.
  cbn [fold_left]. rewrite Z.add_0_l. unfold write_word at 1.
  destruct (block_word i k n (Z.of_nat m') Hi Hk Hend) as [-> ->]; [lia|].
  destruct (decide (w = i * 1024 + k + Z.of_nat m')) as [->|Hne].
  - rewrite lookup_insert_eq, decide_True by lia. do 3 f_equal. lia.
  - rewrite lookup_insert_ne by done. rewrite IH by lia. repeat case_decide; try done; lia.
Qed.
Lemma zero_words_lookup i k n r w :
  0 <= i < RAM_PAGES -> 0 <= k -> 0 <= n -> i * 1024 + k + n <= RAM_PAGES * 1024 ->
  zero_words seal (usize (page_address i + 4 * k)) n r !! w
  = if decide (i * 1024 + k <= w < i * 1024 + k + n) then Some (seal w 0) else r !! w.
Proof. clear unseal. intros. unfold zero_words. by apply (fold_words (fun _ => 0)). Qed.
Lemma copy_words_lookup i k src n r w :
  0 <= i < RAM_PAGES -> 0 <= k -> 0 <= n -> i * 1024 + k + n <= RAM_PAGES * 1024 ->
  copy_words seal unseal (usize (page_address i + 4 * k)) src n r !! w
  = if decide (i * 1024 + k <= w < i * 1024 + k + n)
    then Some (seal w (read_ram unseal r (usize (src + 4 * (w - (i * 1024 + k)))))) else r !! w.
Proof. intros. unfold copy_words. by apply (fold_words (fun j => read_ram unseal r (usize (src + 4 * j)))). Qed.
End Words.

(** ** The layout *)

(** The page that the word at page number [pn] maps. *)
Definition mapped_at (m : MemoryMapping) (pn i : Z) : Prop := slot_page (default 0 (l2 m !! pn)) = Some i.
Definition in_use (m : MemoryMapping) (i : Z) : Prop := (exists pn, mapped_at m pn i) \/ table_page m i.

Lemma owned_insert (t : gmap Z Z) i j : t !! j = Some 1 -> <[i := 1]> t !! j = Some 1.
Proof. intros H. destruct (decide (i = j)) as [->|]; [apply lookup_insert_eq|by rewrite lookup_insert_ne]. Qed.

Section Layout.
Context (regions : list (Z * Z)) (seal : Z -> Z -> Z).
(** The lowest page that may be taken, the pages of the tracker, the pages kept. *)
Context (L R : Z) (K : Z -> Prop) (HL : 0 < L) (HR : 0 <= R).
Abbreviation top := (top_page R).
Abbreviation runs := (runs L R).

Definition taken (c : BootConfig) (i : Z) : Prop := top c <= i < RAM_PAGES \/ 0 <= i < L.

Record laid_out (F : Z -> Prop) (c : BootConfig) : Prop := {
  lo_size : rpt_size_bytes c = R * PAGE_SIZE;
  lo_top : L <= top c <= RAM_PAGES;
  lo_kept i : K i -> top c <= i \/ i < L;
  lo_aside i : F i -> taken c i;
  lo_used i : in_use (table c) i -> ~ F i /\ taken c i /\ tracker c !! i = Some 1;
  lo_apart pn i : mapped_at (table c) pn i -> ~ table_page (table c) i;
  lo_once pn pn' i : mapped_at (table c) pn i -> mapped_at (table c) pn' i -> pn = pn';
  lo_words pn w : l2 (table c) !! pn = Some w ->
    0 <= pn < 2 ^ 20 /\ apart (from_u32 w) /\ get_type w <> InvalidPage /\ exists t, l1 (table c) !! Z.shiftr pn 8 = Some (L1Page t);
  lo_groups : grouped (table c)
}.

(** What the rest of the run keeps of a state. *)
Record later (c c' : BootConfig) : Prop := {
  lt_words pn w : l2 (table c) !! pn = Some w -> l2 (table c') !! pn = Some w;
  lt_ram w : K (w / 1024) -> ram c' !! w = ram c !! w;
  lt_owned i : tracker c !! i = Some 1 -> tracker c' !! i = Some 1;
  lt_rpt : rpt_size_bytes c' = rpt_size_bytes c /\ rpt_addr c' = rpt_addr c;
  lt_regs : boot_sp c' = boot_sp c /\ boot_entrypoint c' = boot_entrypoint c
}.
#[export] Instance later_preorder : PreOrder later.
Proof.
  split; [by intros c; split|]. intros a b c H1 H2. split.
  - intros pn w Hw. by apply (lt_words _ _ H2), (lt_words _ _ H1).
  - intros w Hw. by rewrite (lt_ram _ _ H2), (lt_ram _ _ H1).
  - intros i Hi. by apply (lt_owned _ _ H2), (lt_owned _ _ H1).
  - destruct (lt_rpt _ _ H1), (lt_rpt _ _ H2). split; congruence.
  - destruct (lt_regs _ _ H1), (lt_regs _ _ H2). split; congruence.
Qed.

Lemma laid_out_weaken (F F' : Z -> Prop) c : (forall i, F' i -> F i) -> laid_out F c -> laid_out F' c.
Proof.
  intros HF [H1 H2 H3 H4 H5 H6 H7 H8 H9]. split; try done.
  - auto.
  - intros i Hi. destruct (H5 i Hi) as (? & ? & ?). auto.
Qed.

(** ** Taking a page *)

Lemma get_top_page c : rpt_size_bytes c = R * PAGE_SIZE -> 0 <= top c <= RAM_PAGES -> get_top c = page_address (top c).
Proof.
  intros Hs. unfold get_top, top_page. rewrite Hs, RAM_PAGES_eq. intros Ht.
  assert (ENCRYPTED_DRAM_END - R * PAGE_SIZE - extra_pages c * PAGE_SIZE = page_address (32768 - R - extra_pages c)) as ->.
  { unfold page_address, PAGE_SIZE. change ENCRYPTED_DRAM_END with (ENCRYPTED_DRAM_BASE + 134217728). lia. }
  apply usize_small. unfold page_address, PAGE_SIZE. change ENCRYPTED_DRAM_BASE with 1073741824. lia.
Qed.
Lemma own_run i (Q : unit -> BootConfig -> Prop) c :
  (L <= top c -> Q tt (set_tracker (<[i := 1]> (tracker c)) c)) -> runs (own i) Q c.
Proof. intros H. unfold own. apply runs_get, runs_assert. intros _. by apply runs_last. Qed.

Lemma laid_out_owned F c i :
  laid_out F c -> laid_out F (set_tracker (<[i := 1]> (tracker c)) c) /\ later c (set_tracker (<[i := 1]> (tracker c)) c).
Proof.
  intros [H1 H2 H3 H4 H5 H6 H7 H8 H9]. split; [|by split; [| |apply owned_insert| |]]. split; try done.
  intros j Hj. destruct (H5 j Hj) as (? & ? & Hown). split; [done|]. split; [done|]. by apply owned_insert.
Qed.

(** The next page, as a set of pages set aside. *)
Definition with_page (F : Z -> Prop) (t i : Z) : Prop := F i \/ i = t.

Lemma alloc_run F c :
  laid_out F c ->
  runs (alloc seal) (fun p c' => p = page_address (top c - 1) /\ top c' = top c - 1 /\ table c' = table c
    /\ later c c' /\ tracker c' !! (top c - 1) = Some 1 /\ ~ K (top c - 1) /\ 0 < top c - 1 < RAM_PAGES
    /\ laid_out (with_page F (top c - 1)) c') c.
Proof.
  intros Hc. pose proof (lo_size _ _ Hc) as Hs. pose proof (lo_top _ _ Hc) as Ht. set (i := top c - 1).
  unfold alloc. apply runs_modify, runs_get. set (c1 := set_extra _ c).
  assert (top c1 = i) as Ht1 by (unfold top_page, c1, i; cbn [extra_pages set_extra]; unfold top_page; lia).
  apply runs_assert. intros Ha. apply runs_modify. assert (rpt_size_bytes c1 / PAGE_SIZE = R) as ER.
  { change (rpt_size_bytes c1) with (rpt_size_bytes c). rewrite Hs. unfold PAGE_SIZE. by rewrite Z.div_mul. }
  rewrite ER in *. assert (0 <= i < RAM_PAGES) as Hi by (unfold top_page in Ht1; lia).
  assert (get_top c1 = page_address i) as Hg by (rewrite <-Ht1; apply get_top_page; [done|lia]). rewrite Hg.
  assert (RAM_PAGES - extra_pages c1 - R = i) as -> by (unfold top_page in Ht1; lia).
  apply runs_bind; [intros; grow|]. apply own_run. intros HL'. set (c' := set_tracker _ _) in *. apply runs_ret.
  assert (top c' = i) as Ht' by exact Ht1. change (L <= top c1) in HL'. rewrite Ht1 in HL'.
  assert (~ K i) as HK by (intros [?|?]%(lo_kept _ _ Hc); lia).
  assert (forall w, K (w / 1024) -> ram c' !! w = ram c !! w) as Hram.
  { intros w Hw. change (ram c') with (zero_words seal (page_address i) (PAGE_SIZE / 4) (ram c)).
    pose proof (zero_words_lookup seal i 0 1024 (ram c) w Hi ltac:(lia) ltac:(lia) ltac:(lia)) as Hz.
    rewrite Z.mul_0_r, !Z.add_0_r, usize_small in Hz by (by apply page_address_u32). change (PAGE_SIZE / 4) with 1024. rewrite Hz.
    rewrite decide_False; [done|]. intros Hr. assert (w / 1024 = i) as E by (Z.div_mod_to_equations; lia). rewrite E in Hw. exact (HK Hw). }
  split; [done|]. split; [done|]. split; [done|]. split; [by split; [| |apply owned_insert| |]|]. split; [apply lookup_insert_eq|].
  split; [done|]. split; [lia|]. destruct Hc as [_ _ H3 H4 H5 H6 H7 H8 H9]. unfold taken in *. split; try done.
  - rewrite Ht'. lia.
  - intros j Hj. rewrite Ht'. apply H3 in Hj. lia.
  - intros j [Hj| ->]; unfold taken; rewrite Ht'; [apply H4 in Hj|]; lia.
  - intros j Hj. destruct (H5 j Hj) as (Hf & Htk & Hown). unfold taken. rewrite Ht'. split; [|split; [lia|]].
    + intros [?|Hj']; [done|]. lia.
    + by apply owned_insert.
Qed.

(** The index of an address in the tracker is its page, if it is in the RAM. *)
Lemma mark_run addr (Q : unit -> BootConfig -> Prop) c :
  (forall i, (forall j, ram_page addr = Some j -> i = j) -> L <= top c -> Q tt (set_tracker (<[i := 1]> (tracker c)) c)) ->
  runs (mark_as_owned regions addr) Q c.
Proof.
  intros H. unfold mark_as_owned.
  assert (forall i, (forall j, address_to_allocation_offset [] addr = Some j -> i = j) -> runs (own i) Q c) as Hown.
  { intros i Hi. apply own_run. apply H. intros j Hj. unfold ram_page in Hj. destruct (is_ram addr); [by apply Hi|done]. }
  unfold address_to_allocation_offset in Hown. destruct (is_address_encrypted addr) eqn:E1.
  - assert (is_address_in_plaintext_dram addr = false) as ->.
    { unfold is_address_encrypted, is_address_in_plaintext_dram in *. change PLAINTEXT_DRAM_END with 671088640.
      change ENCRYPTED_DRAM_BASE with 1073741824 in E1. lia. }
    rewrite E1. apply Hown. congruence.
  - destruct (is_address_in_plaintext_dram addr) eqn:E2.
    + destruct (to_encrypted_index addr E2) as [-> ->]. apply Hown. congruence.
    + rewrite E1. apply runs_unwrap. intros i _. apply own_run. apply H. intros j Hj.
      unfold ram_page, is_ram in Hj. by rewrite E1, E2 in Hj.
Qed.
Lemma mark_laid_out F addr c :
  laid_out F c ->
  runs (mark_as_owned regions addr) (fun _ c' => laid_out F c' /\ later c c' /\ top c' = top c /\ table c' = table c
    /\ forall i, ram_page addr = Some i -> tracker c' !! i = Some 1) c.
Proof.
  intros Hc. apply mark_run. intros i Hi _. destruct (laid_out_owned F c i Hc) as [Hc1 Hlt1].
  split; [done|]. split; [done|]. split; [done|]. split; [done|]. intros j Hj. rewrite (Hi j Hj). apply lookup_insert_eq.
Qed.

Lemma alloc_owned_run F c :
  laid_out F c ->
  runs (alloc_owned regions seal) (fun p c' => p = page_address (top c - 1) /\ top c' = top c - 1 /\ table c' = table c
    /\ later c c' /\ tracker c' !! (top c - 1) = Some 1 /\ 0 < top c - 1 < RAM_PAGES
    /\ laid_out (with_page F (top c - 1)) c') c.
Proof.
  intros Hc. unfold alloc_owned. apply runs_bind; [intros; grow|].
  eapply runs_mono; [by apply alloc_run|]. intros p c' _ (-> & Ht' & Htab & Hlt & Hown & _ & Hr & Hc').
  apply runs_bind; [intros; grow|]. eapply runs_mono; [by apply mark_laid_out|]. intros _ c2 _ (Hc2 & Hlt2 & Ht2 & Htab2 & _).
  apply runs_ret. split; [done|]. split; [by rewrite Ht2|]. split; [by rewrite Htab2|]. split; [by etrans|].
  split; [by apply (lt_owned _ _ Hlt2)|done].
Qed.

(** ** New tables *)

Lemma new_tables F c t vpn1 :
  laid_out (with_page F t) c -> ~ F t -> tracker c !! t = Some 1 -> 0 <= t < RAM_PAGES ->
  0 <= vpn1 < 4096 -> l1 (table c) !! vpn1 = None ->
  laid_out F (set_table (add_group vpn1 (page_address t) (table c)) c)
  /\ later c (set_table (add_group vpn1 (page_address t) (table c)) c).
Proof.
  intros [H1 H2 H3 H4 H5 H6 H7 H8 H9] Hft Ht Htr Hv Hnone. set (m := add_group _ _ _). set (c' := set_table m c).
  assert (forall pn, l2 m !! pn = l2 (table c) !! pn) as Hl2.
  { intros pn. unfold m, add_group; cbn [l2]. rewrite map_lookup_filter. destruct (l2 (table c) !! pn) as [w|] eqn:Ew; [|done]. cbn.
    rewrite option_guard_True; [done|]. intros Hg. destruct (H8 pn w Ew) as (Hpn & _ & _ & tp & Hp).
    assert (0 <= Z.shiftr pn 8 < 4096) as Hr by (rewrite Z.shiftr_div_pow2 by lia; Z.div_mod_to_equations; lia).
    by rewrite (H9 vpn1 (Z.shiftr pn 8) Hv Hr (eq_sym Hg) Hnone) in Hp. }
  assert (forall pn j, mapped_at m pn j <-> mapped_at (table c) pn j) as Hmap by (intros; unfold mapped_at; by rewrite Hl2).
  assert (forall j, table_page m j -> table_page (table c) j \/ j = t) as Htab.
  { intros j [(v & a & Hl & Hp)|Hp]; [|by left; right]. apply add_group_lookup in Hl as [Hl|(k & Hk & ->)]; [left; left; eauto|right].
    rewrite ram_page_address in Hp by (done || unfold L2_TABLE_BYTES, PAGE_SIZE; lia). congruence. }
  assert (~ in_use (table c) t) as Hunused by (intros Hu; destruct (H5 t Hu) as [Hn _]; apply Hn; by right).
  assert (taken c t) as Htk by (apply H4; by right).
  split; [|split; try done; intros pn w; cbn [table c' set_table]; by rewrite Hl2].
  split; try done.
  - intros i Hi. apply H4. by left.
  - intros j Hj. assert (in_use (table c) j \/ j = t) as [Hu| ->].
    { destruct Hj as [[pn Hj]|Hj]; [left; left; exists pn; by apply Hmap|]. apply Htab in Hj as [Hj| ->]; [left; by right|by right]. }
    + destruct (H5 j Hu) as (Hn & ? & ?). split; [|done]. intros Hf. apply Hn. by left.
    + done.
  - intros pn j Hj%Hmap Hp%Htab. destruct Hp as [Hp| ->]; [by apply (H6 pn j)|]. apply Hunused. left. by exists pn.
  - intros pn pn' j Hj%Hmap Hj'%Hmap. by apply (H7 pn pn' j).
  - intros pn w Hw. cbn [table c' set_table] in Hw. rewrite Hl2 in Hw. destruct (H8 pn w Hw) as (Hpn & ? & ? & tp & Hp).
    split; [done|]. split; [done|]. split; [done|]. cbn [table c' set_table].
    destruct (decide (group_base (Z.shiftr pn 8) = group_base vpn1)) as [Eg|Eg].
    + apply add_group_present; [done| |done]. rewrite Z.shiftr_div_pow2 by lia. Z.div_mod_to_equations. lia.
    + exists tp. unfold m. by rewrite add_group_other.
  - by apply grouped_add_group.
Qed.

(** The section of an address has an entry. *)
Lemma tables_run F c vpn1 :
  laid_out F c -> 0 <= vpn1 < 4096 ->
  runs (match l1 (table c) !! vpn1 with
        | None => let* na := alloc_owned regions seal in st_modify (fun c => set_table (add_group vpn1 na (table c)) c)
        | Some _ => st_ret tt
        end)
    (fun _ c' => laid_out F c' /\ later c c') c.
Proof.
  intros Hc Hv. pose proof (lo_top _ _ Hc) as Ht. destruct (l1 (table c) !! vpn1) as [e|] eqn:El; [by apply runs_ret|].
  apply runs_bind; [intros; grow|]. eapply runs_mono; [by apply alloc_owned_run|].
  intros p c' _ (-> & Ht' & Htab & Hlt & Hown & Hr & Hc').
  assert (~ F (top c - 1)) as Hft by (intros [?|?]%(lo_aside _ _ Hc); pose proof (lo_top _ _ Hc'); lia).
  apply runs_last. intros _. destruct (new_tables F c' (top c - 1) vpn1 Hc' Hft Hown) as [Hc2 Hlt2]; [lia|done|by rewrite Htab|].
  split; [done|]. by etrans.
Qed.

(** ** One page, set aside or of a device *)

Definition page_word (phys virt flags : Z) : Z :=
  Z.lor (Z.shiftl (phys / PAGE_SIZE) 12) (boot_page_flags flags (translation_table_index virt)).
(** The pages of [F] but that of [phys]. *)
Definition without (F : Z -> Prop) (phys i : Z) : Prop := F i /\ ram_page phys <> Some i.

Lemma page_number_u32 virt : is_u32 virt ->
  0 <= page_number virt < 2 ^ 20 /\ Z.shiftr (page_number virt) 8 = translation_table_index virt /\ 0 <= translation_table_index virt < 4096.
Proof.
  clear. unfold page_number, translation_table_index. rewrite Z.shiftr_shiftr by lia. rewrite !Z.shiftr_div_pow2 by lia.
  unfold is_u32. intros Hv. split; [Z.div_mod_to_equations; lia|]. split; [done|]. Z.div_mod_to_equations. lia.
Qed.

Lemma new_word F c phys virt flags t :
  laid_out F c -> good_flags flags = true -> is_u32 phys -> is_u32 virt -> (forall i, ram_page phys = Some i -> F i /\ tracker c !! i = Some 1) ->
  l2 (table c) !! page_number virt = None -> l1 (table c) !! translation_table_index virt = Some (L1Page t) ->
  let c' := set_table (mkMapping (ttbr0 (table c)) (l1 (table c)) (<[page_number virt := page_word phys virt flags]> (l2 (table c)))) c in
  laid_out (without F phys) c' /\ later c c'.
Proof.
  intros [G1 G2 G3 G4 G5 G6 G7 G8 G9] Hg Hp Hv HF Hnone Hl1 c'. set (pn := page_number virt) in *. set (d := page_word phys virt flags) in *.
  destruct (page_number_u32 virt Hv) as (Hpn & Eshift & _). fold pn in Hpn, Eshift.
  destruct (address_floor phys Hp) as [_ Hfl]. pose proof (good_flags_word flags (translation_table_index virt) Hg) as Hgw.
  destruct (boot_word _ _ Hfl Hgw) as (_ & Haddr & Hslot & Hapart). cbv zeta in *.
  fold (page_word phys virt flags) in Haddr, Hslot, Hapart. fold d in Haddr, Hslot, Hapart. rewrite ram_page_floor in Hslot.
  set (m := mkMapping _ _ _) in *.
  assert (forall q j, mapped_at m q j -> (q = pn /\ ram_page phys = Some j) \/ (q <> pn /\ mapped_at (table c) q j)) as Hmap.
  { intros q j Hq. unfold mapped_at in Hq. cbn [l2 m] in Hq. destruct (decide (q = pn)) as [->|].
    - rewrite lookup_insert_eq in Hq. cbn in Hq. left. split; [done|]. congruence.
    - rewrite lookup_insert_ne in Hq by done. by right. }
  assert (forall j, ram_page phys = Some j -> ~ in_use (table c) j) as Hfree.
  { intros j Hj Hu. by destruct (G5 j Hu) as [? _], (HF j Hj). }
  split; [|split; try done; intros q w Hq; cbn; destruct (decide (q = pn)) as [->|]; [congruence|by rewrite lookup_insert_ne]].
  split; try done.
  - intros j [Hj _]. by apply G4.
  - intros j [[q Hq]|Hj].
    + apply Hmap in Hq as [[-> Hq]|[Hne Hq]].
      * destruct (HF j Hq). split; [by intros [_ ?]|]. split; [by apply G4|done].
      * destruct (G5 j (or_introl (ex_intro _ q Hq))) as (Hnf & ? & ?). split; [by intros [? _]|done].
    + destruct (G5 j (or_intror Hj)) as (Hnf & ? & ?). split; [by intros [? _]|done].
  - intros q j Hq Hj. apply Hmap in Hq as [[-> Hq]|[Hne Hq]]; [|by apply (G6 q j)]. apply (Hfree j Hq). by right.
  - intros q q' j Hq Hq'. apply Hmap in Hq as [[-> Hq]|[Hne Hq]], Hq' as [[-> Hq']|[Hne' Hq']]; [done| | |by apply (G7 q q' j)].
    + exfalso. apply (Hfree j Hq). left. by exists q'.
    + exfalso. apply (Hfree j Hq'). left. by exists q.
  - intros q w Hq. cbn in Hq |- *. destruct (decide (q = pn)) as [->|].
    + rewrite lookup_insert_eq in Hq. injection Hq as <-. rewrite Eshift. split; [done|]. split; [done|]. split; [|eauto].
      intros E. unfold get_addr in Haddr. by rewrite E in Haddr.
    + rewrite lookup_insert_ne in Hq by done. by apply G8.
Qed.

Lemma map_page_run F c phys virt flags :
  laid_out F c -> good_flags flags = true -> is_u32 phys -> is_u32 virt -> (forall i, ram_page phys = Some i -> F i) ->
  runs (map_page regions seal phys virt flags)
    (fun _ c' => laid_out (without F phys) c' /\ later c c'
       /\ l2 (table c') !! page_number virt = Some (page_word phys virt flags)) c.
Proof.
  intros Hc Hg Hp Hv HF. destruct (page_number_u32 virt Hv) as (_ & _ & Hvpn). unfold map_page.
  destruct (flag flags FLG_X && flag flags FLG_W); [done|]. apply runs_bind; [intros; cbv zeta; grow|].
  eapply runs_mono; [by apply mark_laid_out|]. intros _ c1 _ (Hc1 & Hlt1 & _ & _ & Hown). cbv zeta. apply runs_get.
  apply runs_bind; [intros; grow|]. eapply runs_mono; [by apply (tables_run F)|]. intros _ c2 _ [Hc2 Hlt2]. apply runs_get.
  destruct (l1 (table c2) !! translation_table_index virt) as [[t|]|] eqn:El; [|done..].
  destruct (l2 (table c2) !! page_number virt) as [w|] eqn:Ew.
  { change (default 0 (Some w)) with w. destruct (lo_words _ _ Hc2 _ _ Ew) as (_ & _ & Hty & _). destruct (get_type w); [done|apply runs_panic..]. }
  change (get_type (default 0 None)) with InvalidPage. cbv iota. destruct (address_floor phys Hp) as [-> Hfl].
  destruct (boot_word _ _ Hfl (good_flags_word flags (translation_table_index virt) Hg)) as (Hd & _). cbv zeta in Hd. rewrite Hd.
  apply runs_unwrap. intros d [= <-]. apply runs_last. intros _. fold (page_word phys virt flags).
  destruct (new_word F c2 phys virt flags t Hc2 Hg Hp Hv) as [Hc3 Hlt3]; [|done|done|].
  { intros i Hi. split; [by apply HF|]. by apply (lt_owned _ _ Hlt2), Hown. }
  split; [exact Hc3|]. split; [by etrans; [|etrans]|]. cbn. by rewrite lookup_insert_eq.
Qed.

(** ** Several pages *)

Lemma map_each_run {A} (phys virt : A -> Z) flags l F c :
  laid_out F c -> good_flags flags = true ->
  (forall x, x ∈ l -> is_u32 (phys x) /\ is_u32 (virt x) /\ forall i, ram_page (phys x) = Some i -> F i) ->
  NoDup (omap (fun x => ram_page (phys x)) l) ->
  runs (each (fun x => map_page regions seal (phys x) (virt x) flags) l)
    (fun _ c' => laid_out (fun i => F i /\ forall x, x ∈ l -> ram_page (phys x) <> Some i) c' /\ later c c'
       /\ forall x, x ∈ l -> l2 (table c') !! page_number (virt x) = Some (page_word (phys x) (virt x) flags)) c.
Proof.
  intros Hc Hg. revert F c Hc. induction l as [|x l IH]; intros F c Hc Hl Hnd; cbn [each].
  { apply runs_ret. split; [|split; [done|by intros ? ?%not_elem_of_nil]].
    eapply laid_out_weaken; [|exact Hc]. by intros i [Hi _]. }
  destruct (Hl x (list_elem_of_here _ _)) as (Hp & Hv & HF). apply runs_bind; [intros; grow|].
  eapply runs_mono; [by apply map_page_run|]. intros _ c1 _ (Hc1 & Hlt1 & Hw1).
  eapply runs_mono; [apply (IH (without F (phys x)) c1 Hc1)|].
  - intros y Hy. destruct (Hl y (list_elem_of_further _ _ _ Hy)) as (Hpy & Hvy & HFy). split; [done|]. split; [done|].
    intros i Hi. split; [by apply HFy|]. intros Hi'. cbn in Hnd. rewrite Hi' in Hnd. apply list.NoDup_cons in Hnd as [Hn _].
    apply Hn, list_elem_of_omap. by exists y.
  - cbn in Hnd. destruct (ram_page (phys x)); [by apply list.NoDup_cons in Hnd as [_ ?]|done].
  - intros _ c2 _ (Hc2 & Hlt2 & Hw2). split; [|split; [by etrans|]].
    + eapply laid_out_weaken; [|exact Hc2]. intros i [Hi Hn]. split; [split; [done|]|].
      * by apply Hn, list_elem_of_here.
      * intros y Hy. by apply Hn, list_elem_of_further.
    + intros y [->|Hy]%elem_of_cons; [by apply (lt_words _ _ Hlt2)|by apply Hw2].
Qed.

(** Pages that follow each other. *)
Definition block (base i0 n : Z) : Prop :=
  forall k, 0 <= k < n -> is_u32 (base + PAGE_SIZE * k) /\ ram_page (base + PAGE_SIZE * k) = Some (i0 + k).

Lemma map_block_run {A} (phys virt : A -> Z) flags (f : Z -> A) base i0 n F c :
  laid_out F c -> good_flags flags = true -> block base i0 n -> (forall k, 0 <= k < n -> F (i0 + k)) ->
  (forall k, 0 <= k < n -> phys (f k) = base + PAGE_SIZE * k /\ is_u32 (virt (f k))) ->
  runs (each (fun x => map_page regions seal (phys x) (virt x) flags) (f <$> seqZ 0 n))
    (fun _ c' => laid_out (fun i => F i /\ ~ i0 <= i < i0 + n) c' /\ later c c'
       /\ forall k, 0 <= k < n -> l2 (table c') !! page_number (virt (f k)) = Some (page_word (base + PAGE_SIZE * k) (virt (f k)) flags)) c.
Proof.
  intros Hc Hg Hb HF Hf. eapply runs_mono; [apply (map_each_run phys virt flags (f <$> seqZ 0 n) F c Hc Hg)|].
  - intros x (k & -> & Hk%elem_of_seqZ)%list_elem_of_fmap. destruct (Hf k) as [-> Hv]; [lia|]. destruct (Hb k) as [Hu ->]; [lia|].
    split; [done|]. split; [done|]. intros i [= <-]. apply HF. lia.
  - assert (omap (fun x => ram_page (phys x)) (f <$> seqZ 0 n) = Z.add i0 <$> seqZ 0 n) as ->.
    { assert (Forall (fun k => ram_page (phys (f k)) = Some (i0 + k)) (seqZ 0 n)) as Hall.
      { apply list.Forall_forall. intros k Hk%elem_of_seqZ. destruct (Hf k) as [-> _]; [lia|]. apply Hb. lia. }
      induction Hall as [|k l Hk _ IH]; [done|]. cbn. by rewrite Hk, IH. }
    apply list.NoDup_fmap_2; [intros ? ?; lia|apply NoDup_seqZ].
  - intros _ c' _ (Hc' & Hlt & Hw). split; [|split; [done|]].
    + eapply laid_out_weaken; [|exact Hc']. intros i [Hi Hn]. split; [done|].
      intros x (k & -> & Hk%elem_of_seqZ)%list_elem_of_fmap. destruct (Hf k) as [-> _]; [lia|]. destruct (Hb k) as [_ ->]; [lia|].
      intros [= <-]. lia.
    + intros k Hk. rewrite Hw; [by destruct (Hf k) as [-> _]|]. apply list_elem_of_fmap. exists k. split; [done|]. rewrite elem_of_seqZ. lia.
Qed.
End Layout.
