(* ===== verification/LoaderRun.v ===== *)
(** * The stages of the loader

    What each stage of [Loader.rust_entry] does to a sound layout: the first-level table, the
    stacks, ranges of pages, the devices, the descriptors of the integrity monitor, the window
    on the RAM and the splash screen. *)
From stdpp Require Import fin_maps gmap.
From S2P Require Import Prelude Xous SysCall Permissions Server Scheduler Threads Connections.
From S2P Require Import PermissionRequests Irq Process MemManager PageTable Mapping Memory.
From S2P Require Import Isolation IsolationOps Kernel KernelRules Services Elf ElfImage Loading BootImage.
From S2P Require Import Syscalls Traps Boot KernelIsolation WriteExecute Loader LoaderPages.

Section Stages.
Context (regions : list (Z * Z)) (seal : Z -> Z -> Z).
Context (L R : Z) (K : Z -> Prop) (HL : 0 < L) (HR : 0 <= R).
Abbreviation top := (top_page R).
Abbreviation runs := (runs L R).
Abbreviation laid_out := (laid_out L R K).
Abbreviation later := (later K).

(** ** The first-level table *)

(** The pages from [top c'] to [top c] were taken, and are set aside. *)
Definition and_range (F : Z -> Prop) (a b i : Z) : Prop := F i \/ a <= i < b.
Record reserved (F : Z -> Prop) (c c' : BootConfig) : Prop := {
  rs_table : table c' = table c;
  rs_later : later c c';
  rs_top : top c' <= top c;
  rs_owned i : top c' <= i < top c -> tracker c' !! i = Some 1;
  rs_laid : laid_out (and_range F (top c') (top c)) c'
}.
Lemma reserved_here F c : laid_out F c -> reserved F c c.
Proof. intros H. split; try done; [lia|]. eapply laid_out_weaken; [|exact H]. intros i [?|?]; [done|lia]. Qed.
Lemma reserve_one F c c1 :
  reserved F c c1 -> runs (alloc_owned regions seal) (fun p c2 => p = page_address (top c2) /\ top c2 = top c1 - 1 /\ reserved F c c2) c1.
Proof.
  intros [H1 H2 H3 H4 H5]. eapply runs_mono; [by apply alloc_owned_run|]. intros p c2 _ (-> & Ht & Htab & Hlt & Hown & Hr & Hc2).
  rewrite Ht. split; [done|]. split; [done|]. split.
  - by rewrite Htab.
  - by etrans.
  - lia.
  - intros i Hi. destruct (decide (i = top c1 - 1)) as [->|]; [done|]. apply (lt_owned _ _ _ Hlt), H4. lia.
  - eapply laid_out_weaken; [|exact Hc2]. intros i [Hi|Hi]; [by left; left|].
    destruct (decide (i = top c1 - 1)); [by right|left; right; lia].
Qed.

(** Four pages that follow each other for the table. *)
Definition table_pages (F : Z -> Prop) (c : BootConfig) (p : Z) (c' : BootConfig) : Prop :=
  exists q, p = page_address q /\ top c' <= q /\ q + 4 <= top c /\ reserved F c c'.
Lemma tries_run F c n num c1 :
  reserved F c c1 -> Z.of_nat n + num = 4 -> num = top c - top c1 ->
  runs (l1_tries regions seal n num) (table_pages F c) c1.
Proof.
  revert num c1. induction n as [|n IH]; intros num c1 Hc1 Hn Hnum; cbn [l1_tries]; [apply runs_panic|].
  pose proof (rs_top _ _ _ Hc1).
  apply runs_bind; [intros; grow|]. eapply runs_mono; [by apply reserve_one|]. intros p c2 _ (-> & Ht2 & Hc2).
  destruct (_ =? 0); [|apply IH; [done|lia|lia]]. destruct (Z.eqb_spec (num + 1) 4); cbn [negb].
  - apply runs_ret. exists (top c2). split; [done|]. split; [lia|]. split; [lia|done].
  - do 3 (apply runs_bind; [intros; grow|]; eapply runs_mono; [eapply reserve_one; eassumption|]; intros ? ? _ (_ & ? & ?)).
    eapply runs_mono; [eapply reserve_one; eassumption|]. intros p c6 _ (-> & Ht6 & Hc6).
    exists (top c6). split; [done|]. split; [lia|]. split; [lia|done].
Qed.
Lemma l1_run F c : laid_out F c -> runs (alloc_l1_page_table regions seal) (table_pages F c) c.
Proof. intros H. apply tries_run; [by apply reserved_here|done|lia]. Qed.

(** The table starts empty. *)
Lemma first_level F c p c' :
  table c = mkMapping 0 ∅ ∅ -> laid_out F c -> table_pages F c p c' ->
  let c2 := set_table (mkMapping p (l1 (table c')) (l2 (table c'))) c' in
  laid_out F c2 /\ later c c2.
Proof.
  intros Ht HF0 (q & -> & Hq & Hq4 & [Htab Hlt _ Hown [H1 H2 H3 H4 H5 H6 H7 H8 H9]]). rewrite Htab, Ht in *. cbn [l1 l2]. set (m := mkMapping _ _ _).
  pose proof (lo_top _ _ _ _ _ HF0) as Ht0.
  assert (forall pn i, ~ mapped_at m pn i) as Hnone by (intros pn i; unfold mapped_at; cbn; rewrite lookup_empty; done).
  assert (forall i, table_page m i -> q <= i < q + 4) as Htp.
  { intros i [(v & t & Hl & _)|(k & Hk & Hp)]; [cbn in Hl; by rewrite lookup_empty in Hl|]. cbn [ttbr0 m] in Hp. unfold L1_USER_PAGE_TABLE_PAGES in Hk.
    replace (page_address q + k * PAGE_SIZE) with (page_address (q + k) + 0) in Hp by (unfold page_address, PAGE_SIZE; lia).
    rewrite ram_page_address in Hp by (unfold PAGE_SIZE; lia). injection Hp as <-. lia. }
  split; [|destruct Hlt as [G1 G2 G3 G4 G5]; split; try done].
  split; try done.
  - intros i Hi. apply H4. by left.
  - intros i [[pn Hi]|Hi]; [by apply Hnone in Hi|]. apply Htp in Hi. split; [|split].
    + intros [?|?]%(lo_aside _ _ _ _ _ HF0); lia.
    + left. change (top c' <= i < RAM_PAGES). lia.
    + apply Hown. lia.
  - intros pn w. by rewrite Ht.
Qed.

(** ** New pages *)

Lemma fresh_page F c virt flags :
  laid_out F c -> good_flags flags = true -> is_u32 virt ->
  runs (alloc seal) (fun p c1 => runs (map_page regions seal p virt flags)
    (fun _ c' => laid_out F c' /\ later c c' /\ exists i, p = page_address i /\ 0 < i < RAM_PAGES /\ ~ K i) c1) c.
Proof.
  intros Hc Hg Hv. eapply runs_mono; [by apply alloc_run|]. intros p c1 HL1 (-> & Ht1 & _ & Hlt1 & _ & HK & Hr & Hc1).
  assert (ram_page (page_address (top c - 1)) = Some (top c - 1)) as Hp.
  { rewrite <-(Z.add_0_r (page_address _)). apply ram_page_address; unfold PAGE_SIZE; lia. }
  eapply runs_mono; [apply (map_page_run regions seal L R K HL _ c1 _ virt flags Hc1 Hg)|].
  - apply page_address_u32. lia.
  - done.
  - rewrite Hp. intros i [= <-]. by right.
  - intros _ c2 _ (Hc2 & Hlt2 & _). split; [|split; [by etrans|eauto]]. eapply laid_out_weaken; [|exact Hc2].
    intros i Hi. split; [by left|]. rewrite Hp. intros [= <-]. apply (lo_aside _ _ _ _ _ Hc) in Hi. unfold taken in Hi.
    pose proof (lo_top _ _ _ _ _ Hc). lia.
Qed.

Lemma stack_pages_run F c n t :
  laid_out F c ->
  runs (alloc_stack_pages seal n t) (fun p c' => top c' = top c - Z.of_nat n /\ later c c'
    /\ p = (if (t =? 0) && negb (Nat.eqb n 0) then page_address (top c - 1) else t) /\ laid_out (and_range F (top c') (top c)) c') c.
Proof.
  revert F c t. induction n as [|n IH]; intros F c t Hc; cbn [alloc_stack_pages].
  - apply runs_ret. split; [lia|]. split; [done|]. split; [by rewrite andb_false_r|]. eapply laid_out_weaken; [|exact Hc]. intros i [?|?]; [done|lia].
  - apply runs_bind; [intros; grow|]. eapply runs_mono; [by apply alloc_run|]. intros p c1 _ (-> & Ht1 & _ & Hlt1 & _ & _ & Hr & Hc1).
    eapply runs_mono; [by apply (IH (with_page F (top c - 1)))|]. intros p c2 _ (Ht2 & Hlt2 & -> & Hc2).
    split; [lia|]. split; [by etrans|]. split.
    + rewrite andb_true_r. destruct (t =? 0) eqn:Et; [|by rewrite Et]. assert (page_address (top c - 1) =? 0 = false) as ->; [|done].
      unfold page_address, PAGE_SIZE. change ENCRYPTED_DRAM_BASE with 1073741824. lia.
    + eapply laid_out_weaken; [|exact Hc2]. intros i [Hi|Hi]; [by left; left|].
      destruct (decide (i = top c - 1)) as [->|]; [by left; right|right; lia].
Qed.
Lemma top_plus i k : page_address (i + k) = page_address i + PAGE_SIZE * k.
Proof. unfold page_address, PAGE_SIZE. lia. Qed.
Lemma block_top i n : 0 <= i -> i + n <= RAM_PAGES -> block (page_address i) i n.
Proof.
  intros Hi Hn k Hk. rewrite <-top_plus. split; [apply page_address_u32; lia|].
  rewrite <-(Z.add_0_r (page_address _)). apply ram_page_address; unfold PAGE_SIZE; lia.
Qed.
Lemma usize_u32 x : is_u32 (usize x).
Proof. clear. unfold is_u32, usize. pose proof (Z.mod_pos_bound x (2 ^ 32) ltac:(lia)). lia. Qed.

Lemma stack_run F c flags base n :
  laid_out F c -> good_flags flags = true -> 0 < n ->
  runs (allocate_stack regions seal flags base n) (fun _ c' => laid_out F c' /\ later c c') c.
Proof.
  intros Hc Hg Hn. pose proof (lo_top _ _ _ _ _ Hc) as Ht. unfold allocate_stack. apply runs_bind; [intros; grow|].
  eapply runs_mono; [by apply stack_pages_run|]. intros p c1 HL1 (Ht1 & Hlt1 & -> & Hc1). rewrite Z2Nat.id in Ht1 by lia.
  assert ((0 =? 0) && negb (Nat.eqb (Z.to_nat n) 0) = true) as -> by (destruct (Nat.eqb_spec (Z.to_nat n) 0); [lia|done]).
  apply runs_bind; [intros; grow|]. rewrite indices_seqZ, <-(list_fmap_id (seqZ 0 n)).
  assert (block (page_address (top c1)) (top c1) n) as Hb by (apply block_top; lia).
  eapply runs_mono; [eapply (map_block_run regions seal L R K HL
    (fun i => usize (page_address (top c - 1) - PAGE_SIZE * n + PAGE_SIZE * (i + 1)))
    (fun i => usize (base - PAGE_SIZE * n + PAGE_SIZE * i)) flags id); [exact Hc1|exact Hg|exact Hb| |]|].
  - intros k Hk. right. lia.
  - intros k Hk. split; [|apply usize_u32]. cbn [id].
    replace (page_address (top c - 1) - PAGE_SIZE * n + PAGE_SIZE * (k + 1)) with (page_address (top c1) + PAGE_SIZE * k).
    + apply usize_id. apply Hb. lia.
    + unfold page_address, PAGE_SIZE. lia.
  - intros _ c2 _ (Hc2 & Hlt2 & _). apply runs_ret. split; [|by etrans]. eapply laid_out_weaken; [|exact Hc2].
    intros i Hi. split; [by left|]. apply (lo_aside _ _ _ _ _ Hc) in Hi. unfold taken in Hi. lia.
Qed.

(** [n] bytes at [phys], of pages set aside, to [virt]. *)
Lemma map_pages_run F c phys i0 virt n m flags :
  laid_out F c -> good_flags flags = true -> m = (n + PAGE_SIZE - 1) / PAGE_SIZE -> block phys i0 m -> (forall k, 0 <= k < m -> F (i0 + k)) ->
  runs (map_pages regions seal phys virt n flags)
    (fun _ c' => laid_out (fun i => F i /\ ~ i0 <= i < i0 + m) c' /\ later c c'
       /\ forall k, 0 <= k < m -> l2 (table c') !! page_number (usize (virt + PAGE_SIZE * k))
                                  = Some (page_word (phys + PAGE_SIZE * k) (usize (virt + PAGE_SIZE * k)) flags)) c.
Proof.
  intros Hc Hg -> Hb HF. unfold map_pages, page_steps, pages_of.
  eapply runs_mono; [eapply (map_block_run regions seal L R K HL (fun o => usize (phys + o)) (fun o => usize (virt + o)) flags
    (fun k => 0 + k * PAGE_SIZE)); [exact Hc|exact Hg|exact Hb|exact HF|]|].
  - intros k Hk. replace (phys + (0 + k * PAGE_SIZE)) with (phys + PAGE_SIZE * k) by lia. split; [|apply usize_u32].
    apply usize_id. by apply Hb.
  - intros _ c' _ (Hc' & Hlt & Hw). split; [done|]. split; [done|]. intros k Hk. specialize (Hw k Hk).
    by replace (virt + (0 + k * PAGE_SIZE)) with (virt + PAGE_SIZE * k) in Hw by lia.
Qed.

(** ** Devices *)

Lemma each_run {A} (f : A -> LB unit) l F c :
  laid_out F c -> (forall x, grows (f x)) ->
  (forall x c, x ∈ l -> laid_out F c -> runs (f x) (fun _ c' => laid_out F c' /\ later c c') c) ->
  runs (each f l) (fun _ c' => laid_out F c' /\ later c c') c.
Proof.
  intros Hc Hgrow Hf. revert c Hc. induction l as [|x l IH]; intros c Hc; cbn [each]; [by apply runs_ret|].
  apply runs_bind; [intros; grow|]. eapply runs_mono; [apply Hf; [apply list_elem_of_here|done]|]. intros _ c1 _ [Hc1 Hlt1].
  eapply runs_mono; [apply IH; [|done]|].
  - intros y c' Hy. apply Hf. by apply list_elem_of_further.
  - intros _ c2 _ [Hc2 Hlt2]. split; [done|]. by etrans.
Qed.
Lemma device_run F c phys virt flags :
  laid_out F c -> good_flags flags = true -> is_u32 phys -> is_u32 virt -> ram_page phys = None ->
  runs (map_page regions seal phys virt flags) (fun _ c' => laid_out F c' /\ later c c') c.
Proof.
  intros Hc Hg Hp Hv Hn. eapply runs_mono; [by eapply map_page_run; [..|rewrite Hn]|].
  intros _ c' _ (Hc' & Hlt & _). split; [|done]. eapply laid_out_weaken; [|exact Hc']. intros i Hi. split; [done|]. by rewrite Hn.
Qed.
Lemma land_below_u32 x y : is_u32 x -> 0 <= y -> is_u32 (Z.land x y).
Proof.
  clear. unfold is_u32. intros Hx Hy. rewrite <-(Z.mod_small x (2 ^ 32)) by lia. rewrite <-Z.land_ones, <-Z.land_assoc, (Z.land_comm _ y), Z.land_assoc by lia.
  rewrite Z.land_ones by lia. apply Z.mod_pos_bound. lia.
Qed.
Lemma peripherals_run F c : laid_out F c -> runs (map_peripherals regions seal) (fun _ c' => laid_out F c' /\ later c c') c.
Proof.
  intros Hc. unfold map_peripherals. apply each_run; [done|intros [[v p] n]; grow|].
  intros [[v p] n] c1 Hin Hc1. apply each_run; [done|intros; grow|]. intros k c2 Hk Hc2.
  apply device_run; [done|by vm_compute| | |].
  - apply land_below_u32; [apply usize_u32|by vm_compute].
  - apply land_below_u32; [apply usize_u32|by vm_compute].
  - assert (forallb (fun '(_, p, n) => forallb (fun k => bool_decide (ram_page (Z.land (usize (p + k * PAGE_SIZE)) (usize_not (PAGE_SIZE - 1))) = None))
      (indices 0 n)) PERIPHERALS = true) as Hall by (vm_compute; reflexivity).
    rewrite forallb_forall in Hall. specialize (Hall _ (proj1 (list_elem_of_In _ _) Hin)). cbn beta iota in Hall.
    rewrite forallb_forall in Hall. apply (bool_decide_eq_true_1 _), Hall. by apply list_elem_of_In.
Qed.

(** ** The integrity monitor *)

Lemma laid_out_ram F c r :
  laid_out F c -> (forall w, K (w / 1024) -> r !! w = ram c !! w) -> laid_out F (set_ram r c) /\ later c (set_ram r c).
Proof. intros [] Hr. split; [by split|]. by split. Qed.
Lemma write_kept i k v r w :
  0 < i < RAM_PAGES -> ~ K i -> 0 <= k < 1024 -> K (w / 1024) -> write_word seal (page_address i + 4 * k) v r !! w = r !! w.
Proof.
  intros Hi HK Hk Hw. apply write_word_other. rewrite page_index by lia. intros [= <-]. apply HK.
  by assert (i = (i * 1024 + k) / 1024) as -> by (Z.div_mod_to_equations; lia).
Qed.
Lemma icm_run F c start size : laid_out F c -> runs (map_icm_regions regions seal start size) (fun _ c' => laid_out F c' /\ later c c') c.
Proof.
  intros Hc. unfold map_icm_regions. apply runs_bind; [intros; grow|].
  eapply runs_mono; [apply (fresh_page F c ICM_KERNEL_DESC_AREA_ADDR (Z.lor (Z.lor FLG_R FLG_W) FLG_VALID)); [done|by vm_compute..]|].
  intros p c1 _ H1. apply runs_bind; [intros; grow|]. eapply runs_mono; [exact H1|]. intros _ c2 _ (Hc2 & Hlt2 & i & -> & Hi & HK).
  apply runs_modify. set (r := write_word seal _ _ _). destruct (laid_out_ram F c2 r Hc2) as [Hc3 Hlt3].
  { intros w Hw. unfold r. change (page_address i + 4) with (page_address i + 4 * 1). rewrite <-(Z.add_0_r (page_address i)) at 2.
    change 0 with (4 * 0) at 1. by rewrite !write_kept by (done || lia). }
  apply runs_bind; [intros; grow|]. eapply runs_mono; [apply (fresh_page F _ ICM_KERNEL_HASH_AREA_ADDR (Z.lor (Z.lor FLG_R FLG_NO_CACHE) FLG_VALID)
    Hc3); by vm_compute|]. intros p c4 _ H4. eapply runs_mono; [exact H4|]. intros _ c5 _ (Hc5 & Hlt5 & _).
  split; [done|]. by etrans; [|etrans].
Qed.

(** ** The window on the RAM *)

(** The sections from [a] on, [n] of them, were free and are mapped. *)
Record windowed (c : BootConfig) (n : Z) (c' : BootConfig) : Prop := {
  wd_l1 v : l1 (table c') !! v = if decide (2560 <= v < 2560 + n) then Some L1Section else l1 (table c) !! v;
  wd_free v : 2560 <= v < 2560 + n -> l1 (table c) !! v = None;
  wd_table : ttbr0 (table c') = ttbr0 (table c) /\ l2 (table c') = l2 (table c);
  wd_rest : extra_pages c' = extra_pages c /\ rpt_size_bytes c' = rpt_size_bytes c /\ rpt_addr c' = rpt_addr c
            /\ tracker c' = tracker c /\ ram c' = ram c /\ boot_sp c' = boot_sp c /\ boot_entrypoint c' = boot_entrypoint c
}.
Lemma window_loop c n c1 m :
  windowed c n c1 -> 0 <= n -> n + Z.of_nat m <= 128 ->
  runs (each (fun section => map_section (ENCRYPTED_DRAM_BASE + section * 0x100000) (MAPPED_PHYSICAL_RAM + section * 0x100000)
                               (Z.lor (Z.lor FLG_VALID FLG_R) FLG_W)) (seqZ n (Z.of_nat m)))
    (fun _ c' => windowed c (n + Z.of_nat m) c') c1.
Proof.
  revert n c1. induction m as [|m IH]; intros n c1 Hw Hn Hm.
  - rewrite (seqZ_nil n) by lia. apply runs_ret. by rewrite Z.add_0_r.
  - rewrite seqZ_cons by lia. cbn [each]. apply runs_bind; [intros; grow|]. eapply runs_mono with (Q := fun _ => windowed c (n + 1)).
    + unfold map_section. do 2 (apply runs_assert; intros _). cbv zeta. apply runs_get, runs_assert. intros Hfree%bool_decide_eq_true_1.
      assert (translation_table_index (MAPPED_PHYSICAL_RAM + n * 0x100000) = 2560 + n) as Ev.
      { unfold translation_table_index. change MAPPED_PHYSICAL_RAM with (2560 * 2 ^ 20). rewrite Z.shiftr_div_pow2 by lia. Z.div_mod_to_equations. lia. }
      rewrite Ev in *. apply runs_modify, runs_last. intros _. destruct Hw as [H1 H2 H3 H4]. split.
      * intros v. cbn. destruct (decide (v = 2560 + n)) as [->|].
        -- rewrite lookup_insert_eq, decide_True by lia. done.
        -- rewrite lookup_insert_ne by done. rewrite H1. repeat case_decide; try done; lia.
      * intros v Hv. destruct (decide (v = 2560 + n)) as [->|]; [|apply H2; lia].
        rewrite H1, decide_False in Hfree by lia. exact Hfree.
      * exact H3.
      * exact H4.
    + intros _ c2 _ Hw2. replace (Z.pred (Z.of_nat (S m))) with (Z.of_nat m) by lia. replace (n + Z.of_nat (S m)) with (Z.succ n + Z.of_nat m) by lia.
      apply IH; [exact Hw2|lia|lia].
Qed.
Lemma window_run F c : laid_out F c -> runs map_physical_ram (fun _ c' => laid_out F c' /\ later c c') c.
Proof.
  intros Hc. unfold map_physical_ram. rewrite indices_seqZ. change (RAM_SIZE / 0x100000) with (Z.of_nat 128).
  assert (windowed c 0 c) as H0 by (split; try done; [intros v; by rewrite decide_False by lia|intros v Hv; lia]).
  eapply runs_mono; [apply (window_loop c 0 c 128 H0); lia|]. intros _ c' _ [H1 H2 [H3 H4] (H5 & H6 & H7 & H8 & H9 & H10)]. change (0 + Z.of_nat 128) with 128 in *.
  assert (top c' = top c) as Ht by (unfold top_page; by rewrite H5).
  assert (forall pn i, mapped_at (table c') pn i -> mapped_at (table c) pn i) as Hmap by (intros pn i; unfold mapped_at; by rewrite H4).
  assert (forall i, table_page (table c') i -> table_page (table c) i) as Htab.
  { intros i [(v & t & Hl & Hp)|(k & Hk & Hp)]; [left|right; exists k; by rewrite <-H3]. exists v, t. split; [|done].
    rewrite H1 in Hl. by destruct (decide _). }
  assert (forall i, in_use (table c') i -> in_use (table c) i) as Huse.
  { intros i [[pn Hi]|Hi]; [left; exists pn; by apply Hmap|right; by apply Htab]. }
  destruct Hc as [G1 G2 G3 G4 G5 G6 G7 G8 G9]. split.
  - split; rewrite ?Ht, ?H6; try done.
    + intros i Hi. unfold taken. rewrite Ht. by apply G4.
    + intros i Hi%Huse. unfold taken. rewrite Ht, H8. by apply G5.
    + intros pn i Hi%Hmap Hp%Htab. by apply (G6 pn i).
    + intros pn pn' i Hi%Hmap Hi'%Hmap. by apply (G7 pn pn' i).
    + intros pn w Hw. rewrite H4 in Hw. destruct (G8 pn w Hw) as (? & ? & ? & t & Hl). split; [done|]. split; [done|]. split; [done|].
      exists t. rewrite H1. destruct (decide _) as [Hr|]; [by rewrite H2 in Hl|done].
    + intros v v' Hv Hv' Hg. rewrite !H1. rewrite !group_base_eq in Hg by done.
      assert (2560 <= v < 2560 + 128 <-> 2560 <= v' < 2560 + 128) by (Z.div_mod_to_equations; lia).
      repeat case_decide; try done; try lia. apply G9; [done|done|]. by rewrite !group_base_eq by done.
  - split; [by rewrite H4|by rewrite H9|by rewrite H8|done|done].
Qed.

(** ** The splash screen and the page of the loader *)

Lemma block_plain i n : 0 <= i -> i + n <= RAM_PAGES -> block (PLAINTEXT_DRAM_BASE + i * PAGE_SIZE) i n.
Proof.
  intros Hi Hn k Hk. replace (PLAINTEXT_DRAM_BASE + i * PAGE_SIZE + PAGE_SIZE * k) with (PLAINTEXT_DRAM_BASE + (i + k) * PAGE_SIZE) by lia.
  rewrite <-to_plaintext_page_address by lia. split; [|apply ram_page_plaintext; lia]. rewrite to_plaintext_page_address by lia.
  rewrite RAM_PAGES_eq in Hn. unfold is_u32, PAGE_SIZE. change PLAINTEXT_DRAM_BASE with 536870912. lia.
Qed.
Lemma splash_run F c :
  laid_out F c -> (forall i, RAM_PAGES - BOOT_SPLASH_PAGES <= i < RAM_PAGES -> F i) ->
  runs (map_boot_splash_screen regions seal)
    (fun _ c' => laid_out (fun i => F i /\ ~ RAM_PAGES - BOOT_SPLASH_PAGES <= i < RAM_PAGES) c' /\ later c c') c.
Proof.
  intros Hc HF. unfold map_boot_splash_screen. rewrite indices_seqZ, <-(list_fmap_id (seqZ 0 BOOT_SPLASH_PAGES)).
  assert (block BOOT_SPLASH_PHYS_ADDR (RAM_PAGES - BOOT_SPLASH_PAGES) BOOT_SPLASH_PAGES) as Hb.
  { change BOOT_SPLASH_PHYS_ADDR with (PLAINTEXT_DRAM_BASE + (RAM_PAGES - BOOT_SPLASH_PAGES) * PAGE_SIZE).
    apply block_plain; rewrite RAM_PAGES_eq; by vm_compute. }
  eapply runs_mono; [eapply (map_block_run regions seal L R K HL (fun k => BOOT_SPLASH_PHYS_ADDR + k * PAGE_SIZE)
    (fun k => BOOT_SPLASH_FB + k * PAGE_SIZE) (Z.lor (Z.lor (Z.lor FLG_VALID FLG_R) FLG_W) FLG_U) id); [exact Hc|by vm_compute|exact Hb| |]|].
  - intros k Hk. apply HF. lia.
  - intros k Hk. cbn [id]. split; [lia|]. change BOOT_SPLASH_PAGES with 376 in Hk. unfold is_u32, PAGE_SIZE. change BOOT_SPLASH_FB with 1342177280. lia.
  - intros _ c' _ (Hc' & Hlt & _). split; [|done]. eapply laid_out_weaken; [|exact Hc']. intros i [Hi Hn]. split; [done|].
    intros Hr. apply Hn. lia.
Qed.
Lemma loader_page_run F c :
  laid_out F c -> F 0 ->
  runs (map_page regions seal LOADER_CODE_ADDRESS LOADER_CODE_ADDRESS (Z.lor (Z.lor FLG_R FLG_X) FLG_VALID))
    (fun _ c' => laid_out (fun i => F i /\ i <> 0) c' /\ later c c') c.
Proof.
  intros Hc HF. assert (ram_page LOADER_CODE_ADDRESS = Some 0) as Hp by (vm_compute; reflexivity).
  eapply runs_mono; [eapply map_page_run; [exact HL|exact Hc|by vm_compute..| |by rewrite Hp; intros i [= <-]]|]; [by vm_compute|].
  intros _ c' _ (Hc' & Hlt & _). split; [|done]. eapply laid_out_weaken; [|exact Hc']. intros i [Hi Hn]. split; [done|].
  rewrite Hp. intros [= <-]. done.
Qed.
End Stages.
