(* ===== verification/LoaderStart.v ===== *)
(** * The loader, from the boot image to the kernel

    [rust_entry] as a whole.  When it comes to the jump, the page tables and the page tracker
    are a start for the kernel ([BootInvariant]): memory apart, no small page writable and executable.
    And the kernel reads its text, its data and the boot image through these tables. *)
From stdpp Require Import fin_maps gmap.
From S2P Require Import Prelude Xous SysCall Permissions Server Scheduler Threads Connections.
From S2P Require Import PermissionRequests Irq Process MemManager PageTable Mapping Memory.
From S2P Require Import Isolation IsolationOps Kernel KernelRules Services Elf ElfImage Loading BootImage.
From S2P Require Import Syscalls Traps Boot KernelIsolation WriteExecute BootInvariant Loader LoaderPages LoaderRun.

(** The kernel in a boot image. *)
Definition image_kernel (image : list Z) : option ProgramDescription :=
  let! args := kernel_arguments image in
  let! arg := List.find (fun arg => arg_name arg =? tag_XKrn) args in boot_kernel_description (arg_data arg).
Definition page_count (n : Z) : Z := (n + PAGE_SIZE - 1) / PAGE_SIZE.

Lemma round_page_eq n : 0 <= n -> n + PAGE_SIZE <= 2 ^ 32 -> round_page n = page_count n * PAGE_SIZE.
Proof.
  intros H0 H1. unfold round_page, page_count. unfold PAGE_SIZE in *. rewrite usize_small by lia. change (usize_not (4096 - 1)) with (usize_not 0xfff).
  destruct (address_floor (n + 4096 - 1)) as [-> _]; [unfold is_u32; lia|]. by rewrite Z.shiftl_mul_pow2 by lia.
Qed.
Lemma page_count_bounds n : 0 <= n -> 0 <= page_count n /\ n <= page_count n * PAGE_SIZE < n + PAGE_SIZE.
Proof. unfold page_count, PAGE_SIZE. Z.div_mod_to_equations. lia. Qed.

Lemma to_encrypted_page i : 0 <= i < RAM_PAGES -> to_encrypted_phys_addr (page_address i) = page_address i.
Proof.
  rewrite RAM_PAGES_eq. intros Hi. unfold to_encrypted_phys_addr, page_address, PAGE_SIZE.
  change (PLAINTEXT_DRAM_BASE - 1) with (2 ^ 29 - 1). rewrite land_ones_mod by lia.
  change ENCRYPTED_DRAM_BASE with (Z.shiftl 1 30). change (Z.shiftl 1 30 + i * 4096) with (1073741824 + i * 4096) at 1.
  assert ((1073741824 + i * 4096) mod 2 ^ 29 = i * 4096) as -> by (symmetry; apply (Z.mod_unique _ _ 2); lia).
  rewrite lor_shiftl_add by lia. change (1 * 2 ^ 30) with (Z.shiftl 1 30). reflexivity.
Qed.

Lemma bind_done {A B} (m : LB A) (k : A -> LB B) c c' b :
  st_bind m k c = (c', Done b) -> exists c1 a, m c = (c1, Done a) /\ k a c1 = (c', Done b).
Proof. unfold st_bind. destruct (m c) as [c1 [a|e|]]; [|done..]. eauto. Qed.
Lemma assert_done b (c c' : BootConfig) u : st_assert (E := Error) b c = (c', Done u) -> c' = c.
Proof. destruct b; [by intros [= <-]|done]. Qed.

Section Start.
Context (regions : list (Z * Z)) (seal unseal : Z -> Z -> Z).

(** ** The page tracker *)

Definition tracker_pages : Z := page_count (tracker_entries regions).
Lemma tracker_pages_nonneg : 0 <= tracker_pages.
Proof.
  unfold tracker_pages. apply page_count_bounds. unfold tracker_entries. apply Z.land_nonneg. right. by vm_compute.
Qed.
Lemma own_done i c c' : own i c = (c', Done tt) -> c' = set_tracker (<[i := 1]> (tracker c)) c.
Proof. unfold own, st_bind, st_get, st_assert, st_modify. destruct (_ && _); [|done]. by intros [= <-]. Qed.
Lemma each_own (f : Z -> Z) l c c' : each (fun i => own (f i)) l c = (c', Done tt) -> exists t, c' = set_tracker t c.
Proof.
  revert c. induction l as [|i l IH]; intros c; cbn [each].
  - intros [= <-]. exists (tracker c). by destruct c.
  - unfold st_bind. destruct (own (f i) c) as [c1 [[]|e|]] eqn:E; [|done..]. apply own_done in E as ->. intros H.
    apply IH in H as [t ->]. by exists t.
Qed.
Lemma tracker_run ram0 c :
  allocate_page_tracker regions (boot_default ram0) = (c, Done tt) ->
  exists t, c = set_tracker t (set_rpt (tracker_pages * PAGE_SIZE)
    (to_encrypted_phys_addr (usize (ENCRYPTED_DRAM_END - tracker_pages * PAGE_SIZE - BOOT_SPLASH_PAGES * PAGE_SIZE))) (tracker_entries regions) (boot_default ram0)).
Proof.
  unfold allocate_page_tracker, st_bind, st_get, st_modify, st_assert. destruct (_ <? ENCRYPTED_DRAM_END); [|done].
  intros H. apply each_own in H as [t ->]. exists t. reflexivity.
Qed.

(** ** The sections of the kernel *)

Section Copy.
Context (L R : Z) (HL : 0 < L).
Abbreviation top := (top_page R).
Abbreviation runs := (runs L R).

Lemma top_after r n c : top (set_ram r (set_extra (extra_pages c + n) c)) = top c - n.
Proof. clear. unfold top_page. cbn. lia. Qed.
(** The words of a section at page [p]: those of the source, then zeroes. *)
Definition section_word (r : gmap Z Z) (src size p w : Z) : Z :=
  seal w (if decide (w < p * 1024 + size / 4) then read_ram unseal r (usize (src + 4 * (w - p * 1024))) else 0).
Lemma copy_section_run c src size n :
  rpt_size_bytes c = R * PAGE_SIZE -> 0 <= size <= n * PAGE_SIZE -> 0 <= n -> top c < RAM_PAGES ->
  runs (copy_section seal unseal src size (n * PAGE_SIZE)) (fun _ c' => exists r, c' = set_ram r (set_extra (extra_pages c + n) c)
    /\ forall w, r !! w = if decide ((top c - n) * 1024 <= w < top c * 1024) then Some (section_word (ram c) src size (top c - n) w)
                         else ram c !! w) c.
Proof.
  intros Hs Hsize Hn Ht. unfold copy_section. assert (n * PAGE_SIZE / PAGE_SIZE = n) as -> by (unfold PAGE_SIZE; by rewrite Z.div_mul).
  apply runs_modify, runs_get. set (c1 := set_extra _ c). cbv zeta. assert (top c1 = top c - n) as Ht1 by (unfold c1, top_page; cbn; lia).
  apply runs_modify, runs_last. intros HL'. change (L <= top c1) in HL'. rewrite Ht1 in HL'. set (p := top c - n) in *.
  assert (get_top c1 = usize (page_address p + 4 * 0)) as Hg.
  { rewrite (get_top_page R) by (done || lia). rewrite Ht1, Z.mul_0_r, Z.add_0_r. symmetry. apply usize_small, page_address_u32. lia. }
  eexists. split; [reflexivity|]. intros w. cbn [ram set_ram].
  assert (usize (get_top c1 + 4 * (size / 4)) = usize (page_address p + 4 * (size / 4))) as ->.
  { rewrite Hg, Z.mul_0_r, Z.add_0_r. by rewrite (usize_small (page_address p)) by (apply page_address_u32; lia). }
  assert (n * PAGE_SIZE / 4 = n * 1024) as -> by (unfold PAGE_SIZE; Z.div_mod_to_equations; lia).
  rewrite Hg. change (ram c1) with (ram c). unfold PAGE_SIZE in *. unfold section_word.
  rewrite zero_words_lookup, (copy_words_lookup seal unseal p 0) by (Z.div_mod_to_equations; lia). rewrite Z.add_0_r.
  repeat case_decide; try done; try (exfalso; Z.div_mod_to_equations; lia).
Qed.
End Copy.

(** ** One start *)

Section Run.
Context (image : list Z) (args_base first_page total : Z) (d : ProgramDescription) (ram0 : gmap Z Z).
(** The image lies in whole pages of the plaintext RAM, above the page of the loader. *)
Definition image_placed : Prop :=
  0 < first_page /\ args_base = PLAINTEXT_DRAM_BASE + first_page * PAGE_SIZE /\ arguments_total_size image = Some total.
(** The sizes of the kernel do not wrap around. *)
Definition kernel_sized : Prop :=
  0 <= text_size d /\ text_size d + PAGE_SIZE <= 2 ^ 32 /\ 0 <= data_size d /\ 0 <= bss_size d /\ data_size d + bss_size d + PAGE_SIZE <= 2 ^ 32.
Context (Hplaced : image_placed) (Hsized : kernel_sized).

Definition image_end : Z := first_page + page_count total.
Definition text_pages : Z := page_count (text_size d).
Definition data_pages : Z := page_count (data_size d + bss_size d).
(** Where the kernel starts: its data, then its text, then the page tracker and the splash screen. *)
Definition tracker_page : Z := RAM_PAGES - tracker_pages - BOOT_SPLASH_PAGES.
Definition text_page : Z := tracker_page - text_pages.
Definition data_page : Z := text_page - data_pages.
Definition kept (i : Z) : Prop := data_page <= i \/ i < image_end.
Definition set_aside (from i : Z) : Prop := from <= i < RAM_PAGES \/ first_page <= i < image_end \/ i = 0.
Abbreviation top := (top_page tracker_pages).
Abbreviation runs := (runs image_end tracker_pages).
Abbreviation laid_out := (laid_out image_end tracker_pages kept).
Abbreviation later := (later kept).

Lemma total_nonneg : 0 <= total.
Proof.
  destruct Hplaced as (_ & _ & Ht).
  unfold arguments_total_size in Ht. destruct (read_word image 3) as [w|]; [|done]. injection Ht as <-. unfold usize. apply Z.mod_pos_bound. lia.
Qed.
Lemma placed_total : 0 <= page_count total /\ 0 < image_end.
Proof. destruct Hplaced as (Ha & _ & _). pose proof (page_count_bounds total total_nonneg). unfold image_end. lia. Qed.
Lemma sized_pages :
  round_page (text_size d) = text_pages * PAGE_SIZE /\ round_page (data_bss d) = data_pages * PAGE_SIZE /\ data_bss d = data_size d + bss_size d
  /\ 0 <= text_pages /\ text_size d <= text_pages * PAGE_SIZE /\ 0 <= data_pages /\ data_size d + bss_size d <= data_pages * PAGE_SIZE.
Proof.
  destruct Hsized as (H1 & H2 & H3 & H4 & H5).
  assert (data_bss d = data_size d + bss_size d) as Ed by (unfold data_bss, u32; rewrite Z.mod_small; unfold PAGE_SIZE in *; lia).
  rewrite Ed, !round_page_eq by lia. pose proof (page_count_bounds (text_size d) H1). pose proof (page_count_bounds (data_size d + bss_size d) ltac:(lia)).
  unfold text_pages, data_pages. split_and!; done || lia.
Qed.

Definition text_source : Z := usize (args_base + 4 * (load_offset d / 4)).
Definition data_source : Z := usize (args_base + 4 * (u32 (load_offset d + text_size d + 4) / 4 - 1)).
(** The RAM after the copy, [r1] in between. *)
Definition copied (r1 r2 : gmap Z Z) : Prop :=
  (forall w, r1 !! w = if decide (text_page * 1024 <= w < tracker_page * 1024)
                       then Some (section_word ram0 text_source (text_size d) text_page w) else ram0 !! w)
  /\ (forall w, r2 !! w = if decide (data_page * 1024 <= w < text_page * 1024)
                          then Some (section_word r1 data_source (data_size d) data_page w) else r1 !! w).

Lemma copy_run c :
  allocate_page_tracker regions (boot_default ram0) = (c, Done tt) ->
  runs (copy seal unseal args_base d) (fun _ c' => laid_out (set_aside data_page) c' /\ table c' = mkMapping 0 ∅ ∅ /\ top c' = data_page
    /\ (0 <= tracker_page -> rpt_addr c' = page_address tracker_page) /\ exists r1, copied r1 (ram c')) c.
Proof.
  intros [t ->]%tracker_run. set (c := set_tracker t _). destruct placed_total as [Htotal HL]. pose proof tracker_pages_nonneg as HR.
  destruct sized_pages as (Et & Ed & _ & Ht & Hts & Hd & Hds). destruct Hsized as (H1 & _ & H3 & H4 & _).
  assert (top c = tracker_page) as Htop by (unfold top_page, tracker_page, c; cbn; lia).
  assert (tracker_page < RAM_PAGES) as Htr by (unfold tracker_page; change BOOT_SPLASH_PAGES with 376; lia).
  unfold copy. fold text_source data_source. rewrite Et, Ed. apply runs_bind; [intros; unfold copy_section; grow|].
  { apply grows_modify. intros. cbn. unfold PAGE_SIZE. rewrite Z.div_mul; lia. }
  eapply runs_mono; [apply (copy_section_run image_end tracker_pages HL c); [done|lia|done|lia]|].
  intros _ c1 _ (r1 & -> & Hr1). rewrite Htop in Hr1. set (c1 := set_ram _ _). assert (top c1 = text_page) as Htop1.
  { unfold c1, text_page. by rewrite top_after, Htop. }
  eapply runs_mono; [apply (copy_section_run image_end tracker_pages HL c1); [done|lia|done|unfold text_page in Htop1; lia]|].
  intros _ c2 HL2 (r2 & -> & Hr2). rewrite Htop1 in Hr2. set (c2 := set_ram r2 (set_extra (extra_pages c1 + data_pages) c1)) in *. assert (top c2 = data_page) as Htop2.
  { unfold c2, data_page. by rewrite top_after, Htop1. }
  rewrite Htop2 in HL2. assert (data_page <= RAM_PAGES) by (unfold data_page, text_page; lia).
  split; [|split; [done|split; [done|split]]].
  - assert (forall pn i, ~ mapped_at (table c2) pn i) as Hnone by (intros pn i; unfold mapped_at; cbn; by rewrite lookup_empty).
    assert (forall i, ~ table_page (table c2) i) as Htp.
    { intros i [(v & u & Hl & _)|(k & Hk & Hp)]; [cbn in Hl; by rewrite lookup_empty in Hl|]. cbn in Hp. unfold L1_USER_PAGE_TABLE_PAGES in Hk.
      assert (k = 0 \/ k = 1) as [-> | ->] by lia; by vm_compute in Hp. }
    split; rewrite ?Htop2; try done; try lia.
    + intros i Hi. unfold taken. rewrite Htop2. destruct Hplaced. destruct Hi as [?|[?| ->]]; lia.
    + intros i [[pn Hi]|Hi]; [by apply Hnone in Hi|by apply Htp in Hi].
  - intros H0. change (rpt_addr c2) with (to_encrypted_phys_addr (get_top c)). rewrite (get_top_page tracker_pages) by (done || lia).
    rewrite Htop. apply to_encrypted_page. lia.
  - exists r1. by split.
Qed.

(** The words of a section of the kernel: its pages follow each other from [from]. *)
Definition section_mapped (m : MemoryMapping) (from virt n flags : Z) : Prop :=
  forall k, 0 <= k < n -> l2 m !! page_number (usize (virt + PAGE_SIZE * k))
                         = Some (page_word (page_address (from + k)) (usize (virt + PAGE_SIZE * k)) flags).
Definition text_flags : Z := Z.lor (Z.lor (Z.lor FLG_R FLG_VALID) FLG_X) FLG_VALID.
Definition data_flags : Z := Z.lor (Z.lor FLG_R FLG_W) FLG_VALID.
Record kernel_ready (c c' : BootConfig) : Prop := {
  kr_ram w : kept (w / 1024) -> ram c' !! w = ram c !! w;
  kr_rpt : rpt_size_bytes c' = rpt_size_bytes c /\ rpt_addr c' = rpt_addr c;
  kr_regs : boot_sp c' = PID1_STACK_BOTTOM /\ boot_entrypoint c' = BootImage.entrypoint d;
  kr_offsets : text_offset d = KERNEL_LOAD_OFFSET /\ Z.land (data_offset d) (PAGE_SIZE - 1) = 0;
  kr_text : section_mapped (table c') text_page (text_offset d) text_pages text_flags;
  kr_data : section_mapped (table c') data_page (data_offset d) data_pages data_flags
}.
Lemma laid_out_entry F e s c : laid_out F c -> laid_out F (set_entry e s c).
Proof. intros []. by split. Qed.
Lemma section_later m from virt n flags c c' : m = table c -> section_mapped m from virt n flags -> later c c' -> section_mapped (table c') from virt n flags.
Proof. intros -> H Hlt k Hk. by apply (lt_words _ _ _ Hlt), H. Qed.

Lemma map_kernel_run c :
  laid_out (set_aside data_page) c -> table c = mkMapping 0 ∅ ∅ -> top c = data_page ->
  runs (map_kernel regions seal d) (fun _ c' => laid_out (set_aside tracker_page) c' /\ kernel_ready c c') c.
Proof.
  intros Hc Htab Htop. destruct placed_total as [Htotal HL]. destruct sized_pages as (Et & Ed & Eb & Ht & Hts & Hd & Hds).
  pose proof tracker_pages_nonneg as HR. pose proof (lo_top _ _ _ _ _ Hc) as Hct. rewrite Htop in Hct.
  assert (tracker_page < RAM_PAGES) as Htr by (unfold tracker_page; change BOOT_SPLASH_PAGES with 376; lia).
  unfold map_kernel. apply runs_get. rewrite (get_top_page tracker_pages) by (try apply (lo_size _ _ _ _ _ Hc); lia). rewrite Htop. cbv zeta.
  apply runs_assert. intros Etext%Z.eqb_eq. do 3 (apply runs_assert; intros _).
  apply runs_bind; [intros; unfold map_pages; grow|]. eapply runs_mono; [by apply l1_run|]. intros p c1 _ H1. apply runs_modify.
  destruct (first_level image_end tracker_pages kept HL _ _ _ _ Htab Hc H1) as [Hc2 Hlt2]. cbv zeta in Hc2, Hlt2. set (c2 := set_table _ c1) in *.
  apply runs_bind; [intros; unfold map_pages; grow|].
  eapply runs_mono; [apply (fresh_page regions seal image_end tracker_pages kept HL _ c2 THREAD_CONTEXT_AREA
    (Z.lor (Z.lor (Z.lor (Z.lor FLG_R FLG_W) FLG_VALID) FLG_DEV) FLG_NO_CACHE) Hc2); by vm_compute|].
  intros q c3 _ H3. apply runs_bind; [intros; unfold map_pages; grow|]. eapply runs_mono; [exact H3|]. clear H1 H3. intros _ c4 _ (Hc4 & Hlt4 & _).
  assert (later c c4) as Hlt by (by etrans).
  apply runs_bind; [intros; unfold map_pages; grow|].
  eapply runs_mono; [apply (stack_run regions seal image_end tracker_pages kept HL _ _ _ _ _ Hc4); by vm_compute|]. intros _ c5 _ [Hc5 Hlt5].
  apply runs_bind; [intros; unfold map_pages; grow|].
  eapply runs_mono; [apply (stack_run regions seal image_end tracker_pages kept HL _ _ _ _ _ Hc5); by vm_compute|]. intros _ c6 _ [Hc6 Hlt6].
  apply runs_bind; [intros; unfold map_pages; grow|].
  eapply runs_mono; [apply (stack_run regions seal image_end tracker_pages kept HL _ _ _ _ _ Hc6); by vm_compute|]. intros _ c7 _ [Hc7 Hlt7].
  apply runs_assert; intros _. apply runs_assert; intros Edata%Z.eqb_eq.
  assert (later c c7) as Hltc by (by etrans; [|etrans; [|etrans]]).
  assert (usize (page_address data_page + round_page (data_bss d)) = page_address text_page) as ->.
  { rewrite Ed. replace (page_address data_page + data_pages * PAGE_SIZE) with (page_address text_page)
      by (unfold data_page, page_address, PAGE_SIZE; lia). apply usize_small, page_address_u32. unfold data_page, text_page in *. lia. }
  apply runs_bind; [intros; unfold map_pages; grow|].
  eapply runs_mono; [apply (map_pages_run regions seal image_end tracker_pages kept HL _ _ _ text_page _ _ text_pages _ Hc7)|].
  { by vm_compute. } { reflexivity. }
  { apply block_top; unfold data_page, text_page in *; lia. }
  { intros k Hk. left. unfold data_page, text_page in *. lia. }
  intros _ c8 _ (Hc8 & Hlt8 & Htext). apply runs_bind; [intros; grow|]. rewrite Eb.
  eapply runs_mono; [apply (map_pages_run regions seal image_end tracker_pages kept HL _ _ _ data_page _ _ data_pages _ Hc8)|].
  { by vm_compute. } { reflexivity. }
  { apply block_top; unfold data_page, text_page in *; lia. }
  { intros k Hk. split; [left|]; unfold data_page, text_page in *; lia. }
  intros _ c9 _ (Hc9 & Hlt9 & Hdata). apply runs_last. intros _.
  assert (later c c9) as Hltf by (by etrans; [|etrans]). split; [|split].
  - apply laid_out_entry. eapply laid_out_weaken; [|exact Hc9]. unfold set_aside. intros i Hi. unfold data_page, text_page in *. lia.
  - apply (lt_ram _ _ _ Hltf).
  - apply (lt_rpt _ _ _ Hltf).
  - done.
  - done.
  - change (section_mapped (table c9) text_page (text_offset d) text_pages text_flags). apply (section_later (table c8) _ _ _ _ c8 c9 eq_refl); [|done].
    intros k Hk. rewrite top_plus. by apply Htext.
  - change (section_mapped (table c9) data_page (data_offset d) data_pages data_flags). intros k Hk. rewrite top_plus. by apply Hdata.
Qed.

(** ** The other stages *)

Definition after_copy : LB (Z * Z * Z * Z) :=
  let* _ := copy seal unseal args_base d in
  let* _ := map_kernel regions seal d in
  let* _ := map_runtime_page_tracker regions seal in
  let* _ := map_arguments regions seal image args_base in
  let* _ := map_peripherals regions seal in
  let* _ := map_icm_regions regions seal (text_offset d) (text_size d) in
  let* _ := map_physical_ram in
  let* _ := map_boot_splash_screen regions seal in
  let* _ := map_page regions seal LOADER_CODE_ADDRESS LOADER_CODE_ADDRESS (Z.lor (Z.lor FLG_R FLG_X) FLG_VALID) in
  let* c := st_get in
  st_ret (boot_sp c, ttbr0 (table c), boot_entrypoint c, KERNEL_ARGUMENT_OFFSET).
Lemma rust_entry_steps c r :
  image_kernel image = Some d -> rust_entry regions seal unseal image args_base (boot_default ram0) = (c, Done r) ->
  exists c1, allocate_page_tracker regions (boot_default ram0) = (c1, Done tt) /\ after_copy c1 = (c, Done r).
Proof.
  unfold image_kernel, rust_entry. intros Hd H. apply bind_done in H as (c0 & args & H0 & H).
  destruct (kernel_arguments image) as [args'|]; [|done]. injection H0 as <- ->. cbn in Hd.
  apply bind_done in H as (c1 & [] & H1 & H). assert (c1 = boot_default ram0) as ->.
  { revert H1. unfold read_initial_config. cbv zeta. generalize (List.filter (fun arg => arg_name arg =? tag_XKrn) args). intros krn H1.
    apply bind_done in H1 as (c2 & [] & H1 & H2). apply assert_done in H1 as ->. apply bind_done in H2 as (c3 & [] & H2 & H3).
    apply assert_done in H2 as ->. apply assert_done in H3. exact H3. }
  apply bind_done in H as (c1' & [] & H & H'). exists c1'. split; [done|].
  destruct (List.find _ args) as [arg|]; [|done]. cbn in Hd.
  apply bind_done in H' as (c2 & arg' & E & H'). injection E as <- <-. rewrite Hd in H'. exact H'.
Qed.

Record jump_ready (c : BootConfig) (r : Z * Z * Z * Z) : Prop := {
  jr_laid : laid_out (fun _ => False) c;
  jr_below : image_end <= data_page <= RAM_PAGES;
  jr_regs : r = (PID1_STACK_BOTTOM, ttbr0 (table c), BootImage.entrypoint d, KERNEL_ARGUMENT_OFFSET);
  jr_offsets : text_offset d = KERNEL_LOAD_OFFSET /\ Z.land (data_offset d) (PAGE_SIZE - 1) = 0;
  jr_ram : exists r1 r2, copied r1 r2 /\ forall w, kept (w / 1024) -> ram c !! w = r2 !! w;
  jr_text : section_mapped (table c) text_page (text_offset d) text_pages text_flags;
  jr_data : section_mapped (table c) data_page (data_offset d) data_pages data_flags;
  jr_args k : 0 <= k < page_count total ->
    l2 (table c) !! page_number (usize (KERNEL_ARGUMENT_OFFSET + PAGE_SIZE * k))
      = Some (page_word (args_base + PAGE_SIZE * k) (usize (KERNEL_ARGUMENT_OFFSET + PAGE_SIZE * k)) (Z.lor FLG_R FLG_VALID))
}.
Lemma rust_entry_run c r :
  image_kernel image = Some d -> rust_entry regions seal unseal image args_base (boot_default ram0) = (c, Done r) -> image_end <= top c ->
  jump_ready c r.
Proof.
  intros Hd H HL'. destruct (rust_entry_steps c r Hd H) as (c1 & H1 & H2). clear H. revert c r H2 HL'.
  change (runs after_copy (fun r c => jump_ready c r) c1). destruct placed_total as [Htotal HL]. pose proof tracker_pages_nonneg as HR.
  destruct Hplaced as (Hfirst & Hbase & Etotal). destruct sized_pages as (_ & _ & _ & Ht & _ & Hdp & _).
  unfold after_copy. apply runs_bind; [intros; grow|]. eapply runs_mono; [by apply copy_run|].
  intros _ c2 _ (Hc2 & Htab2 & Htop2 & Hrpt2 & r1 & Hcopied). pose proof (lo_top _ _ _ _ _ Hc2) as Hct. rewrite Htop2 in Hct.
  apply runs_bind; [intros; grow|]. eapply runs_mono; [by apply map_kernel_run|]. intros _ c3 _ (Hc3 & [K1 [K2 K2'] [K3 K3'] K4 K5 K6]).
  apply runs_bind; [intros; grow|]. unfold map_runtime_page_tracker. apply runs_get.
  rewrite (lo_size _ _ _ _ _ Hc3), K2', Hrpt2 by (unfold data_page, text_page in *; lia).
  eapply runs_mono; [apply (map_pages_run regions seal image_end tracker_pages kept HL _ c3 _ tracker_page _ _ tracker_pages _ Hc3)|].
  { by vm_compute. } { unfold PAGE_SIZE. Z.div_mod_to_equations. lia. }
  { apply block_top; unfold data_page, text_page, tracker_page in *; change BOOT_SPLASH_PAGES with 376 in *; lia. }
  { intros k Hk. left. unfold data_page, text_page, tracker_page in *. change BOOT_SPLASH_PAGES with 376 in *. lia. }
  intros _ c4 _ (Hc4 & Hlt4 & _). apply (laid_out_weaken _ _ _ _ (set_aside (RAM_PAGES - BOOT_SPLASH_PAGES))) in Hc4.
  2:{ intros i Hi. unfold set_aside, data_page, text_page, tracker_page in *. change BOOT_SPLASH_PAGES with 376 in *. lia. }
  apply runs_bind; [intros; grow|]. unfold map_arguments. rewrite Etotal. apply runs_unwrap. intros t [= <-].
  eapply runs_mono; [apply (map_pages_run regions seal image_end tracker_pages kept HL _ c4 _ first_page _ _ (page_count total) _ Hc4)|].
  { by vm_compute. } { done. }
  { rewrite Hbase. apply block_plain; unfold image_end, data_page, text_page in *; lia. }
  { intros k Hk. right. left. unfold image_end. lia. }
  intros _ c5 _ (Hc5 & Hlt5 & Hargs). apply (laid_out_weaken _ _ _ _ (fun i => RAM_PAGES - BOOT_SPLASH_PAGES <= i < RAM_PAGES \/ i = 0)) in Hc5.
  2:{ intros i Hi. unfold set_aside, image_end, data_page, text_page, tracker_page in *. change BOOT_SPLASH_PAGES with 376 in *. lia. }
  apply runs_bind; [intros; grow|]. eapply runs_mono; [by apply (peripherals_run regions seal image_end tracker_pages kept HL _ c5 Hc5)|]. intros _ c6 _ [Hc6 Hlt6].
  apply runs_bind; [intros; grow|]. eapply runs_mono; [by apply (icm_run regions seal image_end tracker_pages kept HL _ c6 _ _ Hc6)|]. intros _ c7 _ [Hc7 Hlt7].
  apply runs_bind; [intros; grow|]. eapply runs_mono; [by apply (window_run seal image_end tracker_pages kept _ c7 Hc7)|]. intros _ c8 _ [Hc8 Hlt8].
  apply runs_bind; [intros; grow|]. eapply runs_mono; [apply (splash_run regions seal image_end tracker_pages kept HL _ c8 Hc8); by left|]. intros _ c9 _ [Hc9 Hlt9].
  apply runs_bind; [intros; grow|]. eapply runs_mono; [apply (loader_page_run regions seal image_end tracker_pages kept HL _ c9 Hc9)|].
  { split; [by right|]. rewrite RAM_PAGES_eq. change BOOT_SPLASH_PAGES with 376. lia. }
  intros _ c10 _ [Hc10 Hlt10]. apply runs_get, runs_ret. assert (later c5 c10) as Hlt by (by etrans; [|etrans; [|etrans; [|etrans]]]).
  assert (later c3 c10) as Hltk by (by etrans; [|etrans]). split.
  - eapply laid_out_weaken; [|exact Hc10]. done.
  - done.
  - destruct (lt_regs _ _ _ Hltk) as [-> ->]. by rewrite K3, K3'.
  - done.
  - exists r1, (ram c2). split; [done|]. intros w Hw. by rewrite (lt_ram _ _ _ Hltk), K1.
  - by apply (section_later (table c3) _ _ _ _ c3 c10 eq_refl).
  - by apply (section_later (table c3) _ _ _ _ c3 c10 eq_refl).
  - intros k Hk. by apply (lt_words _ _ _ Hlt), Hargs.
Qed.

(** ** What the kernel reads *)

(** The boot image as the bootloader put it in the RAM; the parts of the kernel are in it. *)
Definition image_in_ram : Prop :=
  forall i, 0 <= i < total / 4 -> is_Some (read_word image i) /\ read_word image i = ram0 !! (first_page * 1024 + i).
Definition kernel_in_image : Prop :=
  0 <= load_offset d /\ load_offset d mod 4 = 0 /\ text_size d mod 4 = 0 /\ load_offset d + text_size d + data_size d <= total.
Context (Hin : image_in_ram) (Hkernel : kernel_in_image).

(** A word at a virtual address, through the tables and the memory bridge. *)
Definition mmu_word (c : BootConfig) (virt : Z) : option Z :=
  let! w := l2 (table c) !! page_number virt in
  let! a := get_addr w in Some (read_ram unseal (ram c) (a + virt mod PAGE_SIZE)).

Lemma source_word r i :
  0 <= i < total / 4 -> image_end <= RAM_PAGES -> (forall w, w < image_end * 1024 -> r !! w = ram0 !! w) ->
  Some (read_ram unseal r (usize (args_base + 4 * i))) = read_word image i.
Proof.
  intros Hi Hend Hr. destruct Hplaced as (Ha & -> & _). destruct (Hin i Hi) as [[w Hw] Eram].
  assert (i < page_count total * 1024) as Hb by (unfold page_count, PAGE_SIZE; Z.div_mod_to_equations; lia).
  rewrite RAM_PAGES_eq in Hend. unfold image_end in *. unfold PAGE_SIZE.
  rewrite usize_small by (change PLAINTEXT_DRAM_BASE with 536870912; lia). unfold read_ram, is_address_encrypted, is_address_in_plaintext_dram.
  change PLAINTEXT_DRAM_END with (PLAINTEXT_DRAM_BASE + 134217728). change ENCRYPTED_DRAM_BASE with (PLAINTEXT_DRAM_BASE + 536870912).
  assert (PLAINTEXT_DRAM_BASE + 536870912 <=? PLAINTEXT_DRAM_BASE + first_page * 4096 + 4 * i = false) as -> by lia. cbn [andb].
  assert ((PLAINTEXT_DRAM_BASE + first_page * 4096 + 4 * i - PLAINTEXT_DRAM_BASE) / 4 = first_page * 1024 + i) as -> by (Z.div_mod_to_equations; lia).
  rewrite Hr, <-Eram, Hw by lia. done.
Qed.

Lemma virtual_word virt j :
  Z.land virt (PAGE_SIZE - 1) = 0 ->
  page_number (usize (virt + 4 * j)) = page_number (usize (virt + PAGE_SIZE * (j / 1024))) /\ usize (virt + 4 * j) mod PAGE_SIZE = 4 * (j mod 1024).
Proof.
  clear. unfold PAGE_SIZE. change (4096 - 1) with (2 ^ 12 - 1). rewrite land_ones_mod by lia. intros Ha. unfold page_number, usize.
  rewrite !Z.shiftr_div_pow2 by lia. change (2 ^ 12) with 4096 in *. change (2 ^ 32) with 4294967296. Z.div_mod_to_equations. lia.
Qed.
Lemma page_word_addr phys virt flags : is_u32 phys -> good_flags flags = true -> phys mod PAGE_SIZE = 0 -> get_addr (page_word phys virt flags) = Some phys.
Proof.
  clear. intros Hp Hg Ha. destruct (address_floor phys Hp) as [_ Hr].
  destruct (boot_word _ _ Hr (good_flags_word flags (translation_table_index virt) Hg)) as (_ & E & _). cbv zeta in E. unfold page_word. rewrite E.
  f_equal. rewrite Z.shiftl_mul_pow2 by lia. change (2 ^ 12) with PAGE_SIZE. unfold PAGE_SIZE in *. Z.div_mod_to_equations. lia.
Qed.
Lemma section_read c from virt n flags j :
  section_mapped (table c) from virt n flags -> good_flags flags = true -> Z.land virt (PAGE_SIZE - 1) = 0 -> 0 <= from -> from + n <= RAM_PAGES ->
  0 <= j < n * 1024 -> mmu_word c (usize (virt + 4 * j)) = Some (unseal (from * 1024 + j) (default 0 (ram c !! (from * 1024 + j)))).
Proof.
  clear. intros Hs Hg Ha Hf Hn Hj. unfold mmu_word. destruct (virtual_word virt j Ha) as [-> ->].
  rewrite Hs by (Z.div_mod_to_equations; lia). assert (0 <= from + j / 1024 < RAM_PAGES) as Hi by (Z.div_mod_to_equations; lia).
  rewrite page_word_addr; [|by apply page_address_u32|done|].
  2:{ unfold page_address, PAGE_SIZE. change ENCRYPTED_DRAM_BASE with 1073741824. Z.div_mod_to_equations. lia. }
  f_equal. unfold read_ram. rewrite page_byte_encrypted by (unfold PAGE_SIZE; Z.div_mod_to_equations; lia).
  assert ((page_address (from + j / 1024) + 4 * (j mod 1024) - ENCRYPTED_DRAM_BASE) / 4 = from * 1024 + j) as ->; [|done].
  unfold page_address, PAGE_SIZE. Z.div_mod_to_equations. lia.
Qed.

Context (Hunseal : forall i v, unseal i (seal i v) = v).
Lemma usize_plus a b : usize (usize a + b) = usize (a + b).
Proof. clear. unfold usize. apply Zplus_mod_idemp_l. Qed.
(** A word of a section of the kernel: a word of the image, or one of the zeroes behind. *)
Lemma section_content r src size p first j :
  0 <= j -> src = usize (args_base + 4 * first) -> 0 <= first -> first + size / 4 <= total / 4 -> image_end <= RAM_PAGES ->
  (forall w, w < image_end * 1024 -> r !! w = ram0 !! w) ->
  Some (unseal (p * 1024 + j) (section_word r src size p (p * 1024 + j))) = if decide (j < size / 4) then read_word image (first + j) else Some 0.
Proof.
  intros Hj -> Hf Hs Hend Hr. unfold section_word. rewrite Hunseal. repeat case_decide; try lia; [|done].
  replace (p * 1024 + j - p * 1024) with j by lia. rewrite usize_plus. replace (args_base + 4 * first + 4 * j) with (args_base + 4 * (first + j)) by lia.
  apply source_word; [lia|done|done].
Qed.

Definition text_loaded (c : BootConfig) : Prop :=
  forall j, 0 <= j < text_pages * 1024 ->
    mmu_word c (usize (text_offset d + 4 * j)) = if decide (j < text_size d / 4) then read_word image (load_offset d / 4 + j) else Some 0.
Definition data_loaded (c : BootConfig) : Prop :=
  forall j, 0 <= j < data_pages * 1024 ->
    mmu_word c (usize (data_offset d + 4 * j))
    = if decide (j < data_size d / 4) then read_word image ((load_offset d + text_size d) / 4 + j) else Some 0.
Definition image_mapped (c : BootConfig) : Prop :=
  forall j, 0 <= j < total / 4 -> mmu_word c (usize (KERNEL_ARGUMENT_OFFSET + 4 * j)) = read_word image j.

Lemma loaded_run c r : jump_ready c r -> text_loaded c /\ data_loaded c /\ image_mapped c.
Proof.
  intros [Hc [Hend Hdr] _ [Eo1 Eo2] (r1 & r2 & [H1 H2] & Hram) Htext Hdata Hargs].
  destruct placed_total as [Htotal HL]. pose proof tracker_pages_nonneg as HR. pose proof (page_count_bounds total total_nonneg) as [_ Hpc].
  destruct sized_pages as (_ & _ & _ & Htp & Hts & Hdp & Hds). destruct Hsized as (Hs1 & _ & Hs3 & Hs4 & _). destruct Hkernel as (Hk1 & Hk2 & Hk3 & Hk4).
  pose proof total_nonneg as Ht0. assert (text_page = data_page + data_pages /\ tracker_page = text_page + text_pages) as [E1 E2] by (unfold data_page, text_page; lia).
  assert (tracker_page <= RAM_PAGES) as Htr by (unfold tracker_page; change BOOT_SPLASH_PAGES with 376; lia).
  assert (total <= image_end * PAGE_SIZE) as Htl by (destruct Hplaced; unfold image_end, PAGE_SIZE in *; lia).
  assert (forall w, w < image_end * 1024 -> r1 !! w = ram0 !! w) as Hr1 by (intros w Hw; rewrite H1, decide_False; [done|lia]).
  unfold text_loaded, data_loaded, image_mapped. split; [|split]; intros j Hj.
  - assert (Z.land (text_offset d) (PAGE_SIZE - 1) = 0) as Ea by (by rewrite Eo1). rewrite (section_read c text_page (text_offset d) text_pages text_flags) by (done || lia).
    rewrite Hram by (left; Z.div_mod_to_equations; lia). rewrite H2, decide_False by lia. rewrite H1, decide_True by lia. cbn [default from_option id].
    apply section_content; [lia|done|Z.div_mod_to_equations; lia|Z.div_mod_to_equations; lia|lia|done].
  - rewrite (section_read c data_page (data_offset d) data_pages data_flags) by (done || lia).
    rewrite Hram by (left; Z.div_mod_to_equations; lia). rewrite H2, decide_True by lia. cbn [default from_option id].
    apply section_content; [lia| |Z.div_mod_to_equations; lia|Z.div_mod_to_equations; lia|lia|done].
    unfold data_source, u32. rewrite RAM_PAGES_eq in *. unfold PAGE_SIZE in *. rewrite Z.mod_small by lia. f_equal. Z.div_mod_to_equations. lia.
  - assert (j / 1024 < page_count total) as Hjp by (unfold PAGE_SIZE in *; Z.div_mod_to_equations; lia).
    unfold mmu_word. destruct (virtual_word KERNEL_ARGUMENT_OFFSET j) as [-> ->]; [by vm_compute|]. rewrite Hargs by (Z.div_mod_to_equations; lia).
    destruct Hplaced as (Ha & Hb & _). assert (is_u32 (args_base + PAGE_SIZE * (j / 1024))) as Hu.
    { rewrite Hb. apply (block_plain first_page (page_count total)); [lia|unfold image_end in *; lia|Z.div_mod_to_equations; lia]. }
    rewrite page_word_addr; [|done|by vm_compute|].
    2:{ rewrite Hb. unfold PAGE_SIZE. change PLAINTEXT_DRAM_BASE with (131072 * 4096). Z.div_mod_to_equations. lia. }
    rewrite <-(source_word (ram c) j); [|lia|lia|].
    + do 2 f_equal. rewrite usize_small; [unfold PAGE_SIZE; Z.div_mod_to_equations; lia|].
      rewrite Hb, RAM_PAGES_eq in *. unfold image_end, PAGE_SIZE in *. change PLAINTEXT_DRAM_BASE with 536870912. Z.div_mod_to_equations. lia.
    + intros w Hw. rewrite Hram by (right; Z.div_mod_to_equations; lia). rewrite H2, decide_False by lia. by apply Hr1.
Qed.
End Run.
End Start.

(** ** What the kernel starts from *)

Lemma laid_out_isolated L R K mm c :
  laid_out L R K (fun _ => False) c -> wf_mm mm -> allocations mm = tracker c -> pending_map_zero mm = None ->
  isolated (mkMem mm {[1 := table c]}) /\ wx_free (mkMem mm {[1 := table c]}).
Proof.
  intros [_ _ _ _ H5 H6 H7 H8 H9] Hwf Hown Hpend.
  assert (forall pid m, ({[1 := table c]} : gmap Z MemoryMapping) !! pid = Some m -> pid = 1 /\ m = table c) as Hone.
  { intros pid m H. by apply lookup_singleton_Some in H as [<- <-]. }
  assert (forall pid pn i, page_at (mkMem mm {[1 := table c]}) pid pn = Some i -> pid = 1 /\ mapped_at (table c) pn i) as Hat.
  { intros pid pn i. unfold page_at, word. cbn [ms_maps]. destruct (_ !! pid) as [m|] eqn:E; [|done]. by apply Hone in E as [-> ->]. }
  split.
  - unfold isolated, pending_pages, wf_pending. cbn [ms_mm]. rewrite Hpend. split; [|by intros job]. split; cbn [ms_mm ms_maps].
    + by intros pid m [_ ->]%Hone.
    + done.
    + intros pid pn i [-> Hi]%Hat. rewrite Hown. apply H5. left. by exists pn.
    + intros pid pn pid' pn' i [-> Hi]%Hat [-> Hi']%Hat. split; [done|]. by apply (H7 pn pn' i).
    + intros pid m i [-> ->]%Hone Hi. rewrite Hown. split; [apply H5; by right|]. split; [apply lookup_empty|].
      intros p pn [_ Hp]%Hat. by apply (H6 pn i).
    + intros i pid Hi. by rewrite lookup_empty in Hi.
  - intros pid m pn w Hm Hw. cbn [ms_maps] in Hm. apply Hone in Hm as [_ ->]. by destruct (H8 pn w Hw) as (_ & ? & _).
Qed.

(** ** An image on the chip *)

Definition chip_regions : list (Z * Z) :=
  [(0xa0000000, 0xa0001000); (0xf0000000, 0xf0030000); (0xf8000000, 0xf8060000); (0xfc000000, 0xfc070000); (0x00a00000, 0x00a04000);
   (0xf8044000, 0xf8045000); (0xf8045000, 0xf8046000); (0x00200000, 0x00220000); (0x00300000, 0x00400000); (0x00400000, 0x00401000);
   (0x00500000, 0x00501000)].
Definition chip_image : list Z :=
  default [] (write_image (fun _ => 0)
    [XousKernel_new 0xffd00000 0x1004 0xffd40000 0x104 0x2000 0xffd00010 (map (fun i => i mod 251) (seqZ 0 0x1108))]).
Definition chip_kernel : ProgramDescription :=
  default (mkDescription 0 0 0 0 0 0 0) (image_kernel chip_image).
Definition chip_ram : gmap Z Z := map_seqZ (256 * 1024) (BootImage.words chip_image).
(** A bridge that is not the identity. *)
Definition chip_seal (i v : Z) : Z := Z.lxor v (i * 2654435761 mod 2 ^ 32).
Definition chip_run : BootConfig * outcome Error (Z * Z * Z * Z) :=
  rust_entry chip_regions chip_seal chip_seal chip_image (PLAINTEXT_DRAM_BASE + 256 * PAGE_SIZE) (boot_default chip_ram).
Definition chip_total : Z := default 0 (arguments_total_size chip_image).
#[local] Opaque rust_entry.
Lemma chip_outcome : chip_run.2 = Done (0xfff80000, 0x47e74000, 0xffd00010, 0x58000000).
Proof. vm_compute. reflexivity. Qed.
Lemma chip_extra : extra_pages chip_run.1 = 424.
Proof. vm_compute. reflexivity. Qed.
Lemma chip_tracker : tracker_pages chip_regions = 9.
Proof. vm_compute. reflexivity. Qed.
Lemma chip_size : arguments_total_size chip_image = Some chip_total.
Proof. vm_compute. reflexivity. Qed.
Lemma chip_has_kernel : image_kernel chip_image = Some chip_kernel.
Proof. vm_compute. reflexivity. Qed.
Lemma outcome_pair {A} (p : BootConfig * outcome Error A) o : p.2 = o -> p = (p.1, o).
Proof. destruct p as [c o']. cbn. by intros ->. Qed.
Lemma chip_done :
  rust_entry chip_regions chip_seal chip_seal chip_image (PLAINTEXT_DRAM_BASE + 256 * PAGE_SIZE) (boot_default chip_ram)
  = (chip_run.1, Done (0xfff80000, 0x47e74000, 0xffd00010, 0x58000000)).
Proof. exact (outcome_pair chip_run _ chip_outcome). Qed.
Lemma chip_bridge i v : chip_seal i (chip_seal i v) = v.
Proof. unfold chip_seal. by rewrite Z.lxor_assoc, Z.lxor_nilpotent, Z.lxor_0_r. Qed.
Lemma chip_placed : image_placed chip_image (PLAINTEXT_DRAM_BASE + 256 * PAGE_SIZE) 256 chip_total.
Proof. split; [done|]. split; [done|]. exact chip_size. Qed.
Lemma chip_sized : kernel_sized chip_kernel.
Proof. unfold kernel_sized. by vm_compute. Qed.
Lemma chip_end : image_end 256 chip_total = 259.
Proof. vm_compute. reflexivity. Qed.
Lemma chip_below : image_end 256 chip_total <= top_page (tracker_pages chip_regions) chip_run.1.
Proof. unfold top_page. rewrite chip_end, chip_extra, chip_tracker, RAM_PAGES_eq. lia. Qed.
Lemma chip_total_eq : chip_total = 12288.
Proof. vm_compute. reflexivity. Qed.
Lemma read_word_lookup image i : read_word image (Z.of_nat i) = BootImage.words image !! i.
Proof.
  revert image. induction i as [|i IH]; intros image.
  - change (Z.of_nat 0) with 0. destruct image as [|b0 [|b1 [|b2 [|b3 image]]]]; done.
  - assert (read_word image (Z.of_nat (S i)) = read_word (drop 4 image) (Z.of_nat i)) as ->.
    { unfold read_word, slice, bytes_at. rewrite drop_drop. by replace (4 + Z.to_nat (4 * Z.of_nat i))%nat with (Z.to_nat (4 * Z.of_nat (S i))) by lia. }
    rewrite IH. by destruct image as [|b0 [|b1 [|b2 [|b3 image]]]].
Qed.
Lemma chip_words : List.length (BootImage.words chip_image) = 3072%nat.
Proof. vm_compute. reflexivity. Qed.
Lemma chip_in_ram : image_in_ram chip_image 256 chip_total chip_ram.
Proof.
  unfold image_in_ram. rewrite chip_total_eq. change (12288 / 4) with 3072. intros i Hi.
  assert (i = Z.of_nat (Z.to_nat i)) as -> by lia. rewrite read_word_lookup. generalize chip_words. unfold chip_ram.
  generalize (BootImage.words chip_image). intros ws Hlen. split; [apply lookup_lt_is_Some; lia|].
  rewrite lookup_map_seqZ. rewrite option_guard_True by lia. f_equal. lia.
Qed.
Lemma chip_in_image : kernel_in_image chip_total chip_kernel.
Proof. unfold kernel_in_image. by vm_compute. Qed.

(** ** The theorems *)

(** C6: When the loader comes to the jump, the tables and the page tracker that it hands over are
    what the kernel needs to start from.  Among the small pages, those of the second-level tables,
    a page of the RAM is mapped at most once, every page that is mapped or holds tables has its
    owner in the tracker, and none is writable and executable.  Next to them the table has only
    the sections of the window on the RAM, which maps all of it once more, and for the kernel
    alone; they are writable and lack the bit that forbids execution.  This asks that the image
    lies in whole pages above the first, that the sizes of the kernel do not wrap around
    ([kernel_sized]), and that the pages the loader took do not reach down to the image. *)
Theorem loader_isolates regions seal unseal image args_base first_page total d ram0 c r :
  image_placed image args_base first_page total -> image_kernel image = Some d -> kernel_sized d ->
  rust_entry regions seal unseal image args_base (boot_default ram0) = (c, Done r) ->
  image_end first_page total <= top_page (tracker_pages regions) c ->
  isolated (mkMem (init_from_memory (tracker c) mm_initial) {[1 := table c]})
  /\ wx_free (mkMem (init_from_memory (tracker c) mm_initial) {[1 := table c]})
  /\ (forall v, l1 (table c) !! v = Some L1Section ->
        exists w, sections c !! v = Some w /\ window_section v w /\ kernel_only w).
Proof.
  intros Hp Hd Hs Hrun Hend. apply and_assoc. split; [|by eapply rust_entry_sections]. destruct (rust_entry_run regions seal unseal image args_base first_page total d ram0 Hp Hs c r Hd Hrun Hend) as [Hc _ _ _ _ _ _ _].
  pose proof (init_wf (tracker c)) as (Hwf & Hown & _). pose proof (init_pending (tracker c)) as Hpend. cbv zeta in Hwf, Hown.
  revert Hwf Hown Hpend. generalize (init_from_memory (tracker c) mm_initial). intros mm Hwf Hown Hpend. by apply (laid_out_isolated _ _ _ _ _ Hc).
Qed.
Lemma loader_isolates_witness :
  isolated (mkMem (init_from_memory (tracker chip_run.1) mm_initial) {[1 := table chip_run.1]})
  /\ wx_free (mkMem (init_from_memory (tracker chip_run.1) mm_initial) {[1 := table chip_run.1]})
  /\ (forall v, l1 (table chip_run.1) !! v = Some L1Section ->
        exists w, sections chip_run.1 !! v = Some w /\ window_section v w /\ kernel_only w).
Proof.
  exact (loader_isolates chip_regions chip_seal chip_seal chip_image (PLAINTEXT_DRAM_BASE + 256 * PAGE_SIZE) 256 chip_total chip_kernel chip_ram
    chip_run.1 _ chip_placed chip_has_kernel chip_sized chip_done chip_below).
Defined.

(** C7: The loader hands over the kernel of the boot image: it jumps to the entry point with the stack,
    the tables and the place of the arguments.  Through these tables the kernel finds the words of
    its text and of its data as the image has them, the data up to its last whole word, both
    followed by zeroes to the end of the page, and the whole words of the image at its own address -
    for any memory bridge that reads back what it has written.  This asks that the image lies in
    whole pages of the RAM above the first, that text and data are in it, with an offset and a
    size of the text that are multiples of four ([kernel_in_image]), that sizes do not wrap around
    ([kernel_sized]) and that the pages the loader took do not reach down to the image.  The last
    bytes of a data section with another size are lost: they are zero. *)
Theorem kernel_loaded regions seal unseal image args_base first_page total d ram0 c r :
  (forall i v, unseal i (seal i v) = v) ->
  image_placed image args_base first_page total -> image_in_ram image first_page total ram0 ->
  image_kernel image = Some d -> kernel_sized d -> kernel_in_image total d ->
  rust_entry regions seal unseal image args_base (boot_default ram0) = (c, Done r) ->
  image_end first_page total <= top_page (tracker_pages regions) c ->
  r = (PID1_STACK_BOTTOM, ttbr0 (table c), BootImage.entrypoint d, KERNEL_ARGUMENT_OFFSET)
  /\ text_loaded unseal image d c /\ data_loaded unseal image d c /\ image_mapped unseal image total c.
Proof.
  intros Hu Hp Hin Hd Hs Hk Hrun Hend.
  pose proof (rust_entry_run regions seal unseal image args_base first_page total d ram0 Hp Hs c r Hd Hrun Hend) as H.
  split; [destruct H as [_ _ Hr _ _ _ _ _]; exact Hr|]. exact (loaded_run regions seal unseal image args_base first_page total d ram0 Hp Hs Hin Hk Hu c r H).
Qed.
Lemma kernel_loaded_witness :
  text_loaded chip_seal chip_image chip_kernel chip_run.1 /\ data_loaded chip_seal chip_image chip_kernel chip_run.1
  /\ image_mapped chip_seal chip_image chip_total chip_run.1.
Proof.
  exact (proj2 (kernel_loaded chip_regions chip_seal chip_seal chip_image (PLAINTEXT_DRAM_BASE + 256 * PAGE_SIZE) 256 chip_total chip_kernel chip_ram
    chip_run.1 _ chip_bridge chip_placed chip_in_ram chip_has_kernel chip_sized chip_in_image chip_done chip_below)).
Defined.
