(* ===== verification/Privilege.v ===== *)
(** * What a process may do is settled at the start

    The system calls a process may make and the peripherals it may map are fields of its entry
    in the process table.  Every entry keeps what does not change them: [same_privileges].

    [grants P m]: the computation [m] keeps [table_ok] - every process of the table is [ok] - and
    its value has [P]; [ok] is any property of processes that only depends on their privileges.
    The hint database [priv] holds what is known, and [priv_steps] follows a computation. *)
From stdpp Require Import fin_maps gmap.
From S2P Require Import Prelude Xous SysCall Permissions Server Scheduler Threads Connections.
From S2P Require Import PermissionRequests Irq Process MemManager PageTable Mapping Memory.
From S2P Require Import Kernel Services KernelRules Elf Loading Syscalls Traps KernelIsolation WriteExecute KernelInvariant.
From S2P Require Import KernelLifecycle KernelCreate KernelCalls.

(** ** Privileges *)

Definition same_privileges (p p' : Process) : Prop :=
  process_pid p' = process_pid p /\ process_app_id p' = process_app_id p
  /\ memory_permissions p' = memory_permissions p /\ syscall_permissions p' = syscall_permissions p.
#[export] Instance same_privileges_equivalence : Equivalence same_privileges.
Proof.
  unfold same_privileges. split; [by intros p|by intros p q (? & ? & ? & ?)|].
  intros p q r (? & ? & ? & ?) (? & ? & ? & ?). split_and!; congruence.
Qed.

(** Changes of the threads. *)
Lemma set_thread_state_privileges sch p tid state sch' p' :
  Process.set_thread_state sch p tid state = Some (sch', p') -> same_privileges p p'.
Proof. unfold Process.set_thread_state. intros E. by server_cases. Qed.
Lemma set_thread_priority_privileges sch p tid priority sch' p' :
  Process.set_thread_priority sch p tid priority = Some (sch', p') -> same_privileges p p'.
Proof. unfold Process.set_thread_priority. intros E. by server_cases. Qed.
Lemma wake_threads_privileges sch p state n sch' p' :
  Process.wake_threads_with_state sch p state n = Some (sch', p') -> same_privileges p p'.
Proof.
  unfold Process.wake_threads_with_state. destruct (n =? 0); [by intros [= _ <-]|]. generalize (seq 1 (THREADS - 1)).
  intros tids. revert sch p n. induction tids as [|tid tids IH]; intros sch p n E; cbn [wake_loop] in E; [by injection E as _ <-|].
  destruct (Process.thread_state p tid) as [st|]; [|done]. destruct (decide (st = state)); [|by eapply IH].
  destruct (Process.set_thread_state sch p tid TReady) as [[sch1 p1]|] eqn:E1; [|done].
  apply set_thread_state_privileges in E1. destruct (n - 1 =? 0); [by injection E as _ <-|]. etrans; [exact E1|by eapply IH].
Qed.
Lemma terminate_threads_privileges sch p sch' p' : terminate_threads sch p = Some (sch', p') -> same_privileges p p'.
Proof.
  unfold terminate_threads. generalize (seq 1 (THREADS - 1)). intros tids. revert sch p.
  induction tids as [|tid tids IH]; intros sch p E; cbn [free_threads] in E; [by injection E as _ <-|].
  destruct (Process.set_thread_state sch p tid TFree) as [[sch1 p1]|] eqn:E1; [|done].
  apply set_thread_state_privileges in E1. etrans; [exact E1|by eapply IH].
Qed.
Lemma find_privileges free_run p virt size : same_privileges p (Process.find_virtual_address free_run p virt size).1.
Proof. unfold Process.find_virtual_address. by repeat case_match. Qed.
Lemma set_name_privileges utf8 p name : same_privileges p (set_name utf8 p name).1.
Proof. unfold set_name. by repeat case_match. Qed.
Lemma set_handler_privileges p event sid id p' r :
  Process.set_system_event_handler p event sid id = Some (p', r) -> same_privileges p p'.
Proof. unfold Process.set_system_event_handler. intros E. by server_cases. Qed.

(** ** The rules *)

Section Rules.
Context (ok : Process -> Prop) (Hsame : forall p p', same_privileges p p' -> ok p -> ok p').

Definition table_ok (k : Kernel) : Prop :=
  forall pid p, k_processes k !! pid = Some p -> process_pid p = pid /\ ok p.
Definition grants {A} (P : A -> Prop) (m : KS A) : Prop :=
  forall k, table_ok k -> safe (fun a k' => P a /\ table_ok k') table_ok (m k).

Lemma grants_bind {A B} (P : A -> Prop) (Q : B -> Prop) (m : KS A) (f : A -> KS B) :
  grants P m -> (forall a, P a -> grants Q (f a)) -> grants Q (st_bind m f).
Proof.
  intros Hm Hf k Hk. apply safe_bind. eapply safe_mono; [by apply Hm| |done]. intros a k' [Ha Hk']. by apply Hf.
Qed.
Lemma grants_ret {A} (P : A -> Prop) a : P a -> grants P (st_ret a). Proof. by intros Ha k Hk. Qed.
Lemma grants_fail {A} (P : A -> Prop) e : grants P (st_fail e). Proof. by intros k Hk. Qed.
Lemma grants_panic {A} (P : A -> Prop) : grants P st_panic. Proof. by intros k Hk. Qed.
Lemma grants_unwrap {A} (o : option A) : grants (fun a => o = Some a) (st_unwrap o).
Proof. intros k Hk. by destruct o. Qed.
Lemma grants_try {A} (m : KS A) : grants (fun _ => True) m -> grants (fun _ => True) (st_try m).
Proof. intros Hm k Hk. eapply safe_try; [eapply safe_mono; [by apply Hm| |done]|]; by intros. Qed.
Lemma grants_get : grants table_ok st_get. Proof. by intros k Hk. Qed.
(** What leaves the table alone. *)
Lemma grants_same {A} (m : KS A) : same k_processes m -> grants (fun _ => True) m.
Proof.
  intros Hm k Hk. specialize (Hm k). unfold safe, table_ok in *. destruct (m k) as [k' [a|e|]]; cbn in Hm; by rewrite ?Hm.
Qed.
Lemma grants_weaken {A} (P Q : A -> Prop) (m : KS A) : grants P m -> (forall a, P a -> Q a) -> grants Q m.
Proof. intros Hm H k Hk. eapply safe_mono; [by apply Hm| |done]. intros a k' [? ?]. auto. Qed.

Lemma grants_process pid : grants ok (process pid).
Proof. intros k Hk. unfold process. destruct (k_processes k !! pid) as [p|] eqn:E; [|done]. split; [by eapply Hk|done]. Qed.
Lemma grants_process_unwrap pid : grants ok (process_unwrap pid).
Proof. intros k Hk. unfold process_unwrap. destruct (k_processes k !! pid) as [p|] eqn:E; [|done]. split; [by eapply Hk|done]. Qed.
Lemma grants_current : grants ok current_process.
Proof. intros k Hk. by apply grants_process_unwrap. Qed.
Lemma grants_put p : ok p -> grants (fun _ => True) (put_process p).
Proof.
  intros Hp k Hk. split; [done|]. intros q p' Hq. cbn in Hq.
  apply lookup_insert_Some in Hq as [[<- <-]|[_ Hq]]; [done|by apply Hk].
Qed.
Lemma grants_put_same p p' : ok p -> same_privileges p p' -> grants (fun _ => True) (put_process p').
Proof. intros Hp Hs. apply grants_put. by eapply Hsame. Qed.
Lemma grants_free pid : grants (fun _ => True) (free_process pid).
Proof. intros k Hk. split; [done|]. intros q p Hq. cbn in Hq. apply lookup_delete_Some in Hq as [_ Hq]. by apply Hk. Qed.
Lemma grants_reparent pid : grants (fun _ => True) (st_modify (fun k => set_processes (reparent pid <$> k_processes k) k)).
Proof.
  intros k Hk. split; [done|]. intros q p Hq. cbn in Hq. rewrite lookup_fmap in Hq.
  destruct (k_processes k !! q) as [p0|] eqn:E; [|done]. injection Hq as <-. destruct (Hk q p0 E) as [Hpid Hp].
  assert (same_privileges p0 (reparent pid p0)) as Hs by (unfold reparent; by case_bool_decide).
  split; [by rewrite (proj1 Hs)|by eapply Hsame].
Qed.
End Rules.

Create HintDb priv.

(** Follow the structure of a computation: a process that is looked up is [ok], one that is made
    of it has its privileges; what has no lemma is unfolded. *)
#[export] Hint Resolve grants_process grants_process_unwrap grants_current grants_free grants_get : priv.
#[export] Hint Resolve set_thread_state_privileges set_thread_priority_privileges wake_threads_privileges
  terminate_threads_privileges set_handler_privileges : priv.
Ltac privileges_kept :=
  match goal with
  | H : Process.find_virtual_address ?f ?p ?v ?s = (?p', _) |- same_privileges ?p ?p' =>
      change p' with (p', Ok 0 : result Error Z).1; pose proof (find_privileges f p v s) as Hf; rewrite H in Hf; exact Hf
  | |- same_privileges ?p (release_allocation_hint ?p ?v) => unfold release_allocation_hint; by case_match
  | _ => solve [done|eauto with priv]
  end.
Ltac head t := match t with ?f _ => head f | _ => t end.
Ltac priv_step :=
  match goal with
  | |- _ => solve [auto with priv]
  | |- grants _ _ (st_ret _) => simple apply grants_ret; exact I
  | |- grants _ _ (st_fail _) => simple apply grants_fail
  | |- grants _ _ st_panic => simple apply grants_panic
  | Hk : table_ok _ ?k, E : k_processes ?k !! ?pid = Some ?p |- _ => destruct (Hk pid p E) as [_ ?]; clear E
  | Hsame : (forall p p', same_privileges p p' -> ?ok p -> ?ok p'), Hp : ?ok ?p |- grants ?ok _ (put_process ?p') =>
      apply (grants_put_same ok Hsame p p' Hp); solve [privileges_kept]
  | |- grants ?ok _ (st_bind (process _) _) => simple apply (grants_bind ok ok); [simple apply grants_process|intros ? ?]
  | |- grants ?ok _ (st_bind (process_unwrap _) _) => simple apply (grants_bind ok ok); [simple apply grants_process_unwrap|intros ? ?]
  | |- grants ?ok _ (st_bind current_process _) => simple apply (grants_bind ok ok); [simple apply grants_current|intros ? ?]
  | |- grants ?ok _ (st_bind (st_unwrap ?o) _) => apply (grants_bind ok (fun a => o = Some a)); [simple apply grants_unwrap|intros ? ?]
  | |- grants ?ok _ (st_bind st_get _) => simple apply (grants_bind ok (table_ok ok)); [simple apply grants_get|intros ? ?]
  | |- grants ?ok _ (st_bind _ _) => simple apply (grants_bind ok (fun _ => True)); [|intros ? _]
  | |- grants _ _ (st_try _) => simple apply grants_try
  | |- grants _ _ (match ?x with _ => _ end) => destruct x eqn:?
  | |- grants _ _ (if ?x then _ else _) => destruct x eqn:?
  | |- grants _ _ (let '(_, _) := ?x in _) => destruct x eqn:?
  | |- grants _ _ _ => simple apply grants_same; solve [mem_same]
  | |- grants _ _ ?m => let h := head m in progress unfold h
  end.
Ltac priv_steps := repeat priv_step.

Section Kernel.
Context (ok : Process -> Prop) (Hsame : forall p p', same_privileges p p' -> ok p -> ok p').
Abbreviation grants_any := (grants ok (fun _ => True)).

Lemma grants_set_state pid tid state : grants_any (set_thread_state pid tid state).
Proof. priv_steps. Qed.
Lemma grants_set_priority pid tid priority : grants_any (set_thread_priority pid tid priority).
Proof. priv_steps. Qed.
Hint Resolve grants_set_state grants_set_priority : priv.
Lemma grants_wake_process state n pid : grants_any (wake_process_threads state n pid).
Proof. priv_steps. Qed.
Hint Resolve grants_wake_process : priv.
Lemma grants_for_pids f pids : (forall pid, grants_any (f pid)) -> grants_any (for_pids f pids).
Proof. intros Hf. induction pids as [|pid pids IH]; cbn [for_pids]; priv_steps. Qed.
Lemma grants_wake_threads state n : grants_any (wake_threads_with_state state n).
Proof. apply grants_for_pids. priv_steps. Qed.
Hint Resolve grants_wake_threads : priv.
Lemma grants_send_scalar tid sidx m : grants_any (send_scalar tid sidx m).
Proof. priv_steps. Qed.
Hint Resolve grants_send_scalar : priv.
Lemma grants_broadcast e args : grants_any (broadcast_event e args).
Proof.
  unfold broadcast_event. generalize (seqZ 1 MAX_PROCESS_COUNT), 0. intros pids.
  induction pids as [|pid pids IH]; intros n; cbn [broadcast_loop]; priv_steps.
Qed.
Hint Resolve grants_broadcast : priv.
Lemma grants_lift_mem {A} (m : (Z -> Z -> result Error unit) -> MS A) : grants_any (lift_mem m).
Proof.
  intros k Hk. unfold lift_mem. destruct (m _ _) as [mem r]. set (calls := drop _ _).
  assert (grants_any (let* _ := perform_calls calls in st_outcome r)) as H; [|by apply H].
  apply (grants_bind ok (fun _ => True)); [|intros _ _; by apply grants_same, same_outcome].
  induction calls as [|[|? ?] calls IH]; cbn [perform_calls]; priv_steps.
Qed.
Hint Resolve grants_lift_mem : priv.
Lemma grants_find p virt size : ok p -> grants_any (find_virtual_address p virt size).
Proof. intros Hp. priv_steps. Qed.
Hint Resolve grants_find : priv.

Context (regions : list (Z * Z)) (shared_peripherals : list Z) (usage : Z).
Lemma grants_map_range phys virt size flags user : grants_any (map_range regions shared_peripherals phys virt size flags user).
Proof. priv_steps. Qed.
Lemma grants_unmap_range virt len : grants_any (unmap_range regions shared_peripherals virt len).
Proof. priv_steps. Qed.
Hint Resolve grants_map_range grants_unmap_range : priv.
Lemma grants_retry tid state : grants_any (retry_syscall usage tid state).
Proof. priv_steps. Qed.
Lemma grants_deferred tid virt size flags :
  grants_any (map_with_deferred_zeroing regions shared_peripherals usage tid virt size flags).
Proof. priv_steps. Qed.
Lemma grants_map_zero_finished : grants_any (map_zero_finished regions shared_peripherals usage).
Proof. priv_steps. Qed.
Lemma grants_send_memory src dest virt len : grants_any (send_memory regions shared_peripherals src dest virt len).
Proof. priv_steps. Qed.
Lemma grants_lend_memory src dest virt len mutable : grants_any (lend_memory regions shared_peripherals src dest virt len mutable).
Proof. priv_steps. Qed.
Lemma grants_return_memory src dest virt len : grants_any (return_memory regions shared_peripherals src dest virt len).
Proof. priv_steps. Qed.
Hint Resolve grants_retry grants_deferred grants_map_zero_finished grants_send_memory grants_lend_memory grants_return_memory : priv.
Lemma grants_thread_exited tid : grants_any (thread_exited regions shared_peripherals usage tid).
Proof.
  assert (forall pid tid value tids, grants_any (wake_joining pid tid value tids)) as Hj.
  { intros pid tid' value tids. induction tids as [|t tids IH]; cbn [wake_joining]; priv_steps. }
  priv_steps.
Qed.
Lemma grants_release_requests pred e : grants_any (release_requests pred e).
Proof.
  unfold release_requests. apply (grants_bind ok (fun _ => True)); [priv_steps|intros k _]. generalize (S (length (k_requests k))).
  intros fuel. induction fuel as [|fuel IH]; cbn [release_requests_loop]; priv_steps.
Qed.
Hint Resolve grants_thread_exited grants_release_requests : priv.

(** ** The end of servers and processes *)

#[local] Instance ops : SystemOps Kernel := kernel_ops regions shared_peripherals.
Lemma grants_safe {A} (m : KS A) k :
  grants_any m -> table_ok ok k -> safe (fun _ => table_ok ok) (table_ok ok) (m k).
Proof. intros Hm Hk. eapply safe_mono; [by apply Hm|by intros ? ? [_ ?]|done]. Qed.
Lemma kernel_ops_grants : ops_keep (table_ok ok).
Proof.
  split; intros *.
  - eapply run_op_inv. intros k. apply grants_safe. priv_steps.
  - eapply run_unwrap_inv. intros k. apply grants_safe. priv_steps.
  - eapply run_unwrap_inv. intros k. apply grants_safe. priv_steps.
  - eapply run_unwrap_inv. intros k. apply grants_safe. priv_steps.
  - eapply run_op_inv. intros k. apply grants_safe. priv_steps.
Qed.
Lemma grants_destroy_sidx sidx : grants_any (destroy_sidx regions shared_peripherals sidx).
Proof.
  assert (forall pids, grants_any (tombstone_connections sidx pids)) as Ht.
  { intros pids. induction pids as [|pid pids IH]; cbn [tombstone_connections]; priv_steps. }
  unfold destroy_sidx. do 5 (apply (grants_bind ok (fun _ => True)); [priv_steps|intros ? _]).
  intros k Hk. unfold st_bind at 1, st_get. destruct (Server.destroy _ _ _ k) as [k1|] eqn:E; [|done].
  apply (destroy_keeps _ kernel_ops_grants) in E; [|done]. by apply Ht.
Qed.
Hint Resolve grants_destroy_sidx : priv.
Lemma grants_terminate_current ret : grants_any (terminate_current_process regions shared_peripherals usage ret).
Proof.
  assert (forall pid sidxs, grants_any (leave_servers regions shared_peripherals pid sidxs)) as Hl.
  { intros pid sidxs. induction sidxs as [|sidx sidxs IH]; cbn [leave_servers]; priv_steps. }
  assert (forall event sidxs, grants_any (notify_servers event sidxs)) as Hn.
  { intros event sidxs. induction sidxs as [|sidx sidxs IH]; cbn [notify_servers]; priv_steps. }
  pose proof (grants_reparent ok Hsame) as Hr. unfold terminate_current_process. priv_steps.
Qed.
Hint Resolve grants_terminate_current : priv.

(** ** The calls *)

Context (user_memory : Z -> Z -> Z) (random : SID) (debug_output : Z -> Z -> Z) (utf8 : list Z -> bool)
        (create_process : ProcessInit -> KS ProcessStartup).

Lemma grants_handle_services tid call : grants_any (handle_services regions shared_peripherals usage random tid call).
Proof. unfold handle_services. priv_steps. Qed.
Lemma grants_send_message tid cid message : grants_any (send_message regions shared_peripherals usage tid cid message).
Proof. priv_steps. Qed.
Hint Resolve grants_handle_services grants_send_message : priv.
Lemma grants_handle_messages tid call : grants_any (handle_messages regions shared_peripherals usage random tid call).
Proof. unfold handle_messages. priv_steps. Qed.
Hint Resolve grants_handle_messages : priv.
Lemma grants_handle_memory tid call : grants_any (handle_memory regions shared_peripherals usage random debug_output tid call).
Proof.
  assert (forall pid expected pages, grants_any (check_contiguous pid expected pages)) as Hc.
  { intros pid expected pages. revert expected. induction pages as [|page pages IH]; intros expected; cbn [check_contiguous]; priv_steps. }
  unfold handle_memory. priv_steps.
Qed.
Hint Resolve grants_handle_memory : priv.

Context (Hcreate : forall init, grants_any (create_process init)).
Lemma grants_handle tid call :
  grants_any (handle regions shared_peripherals usage user_memory random debug_output utf8 create_process tid call).
Proof. unfold handle, handle_call. pose proof Hcreate. priv_steps. Qed.
Hint Resolve grants_handle : priv.
Context (period : Z).
Lemma grants_trap t :
  grants_any (handle_trap regions shared_peripherals usage period user_memory random debug_output utf8 create_process t).
Proof. unfold handle_trap. priv_steps. Qed.
End Kernel.

(** ** A new process *)

Section Create.
Context (ok : Process -> Prop) (Hsame : forall p p', same_privileges p p' -> ok p -> ok p').
Abbreviation grants_any := (grants ok (fun _ => True)).
Context (regions : list (Z * Z)) (shared_peripherals : list Z).
Context (user_memory : Z -> Z -> Z) (utf8 : list Z -> bool) (parse_elf : list Z -> option ElfFile) (rand canary : Z).
Hint Resolve grants_lift_mem grants_map_range grants_unmap_range grants_send_memory : priv.

Lemma grants_maintains {A} (m : KS A) : grants_any m -> maintains (table_ok ok) m.
Proof. intros Hm k. by apply grants_safe. Qed.
Lemma maintains_grants {A} (m : KS A) : maintains (table_ok ok) m -> grants_any m.
Proof. intros Hm k Hk. eapply safe_mono; [by apply Hm|done|done]. Qed.
Lemma grants_load_sent image len : grants_any (load_sent_elf regions shared_peripherals parse_elf rand image len).
Proof. apply maintains_grants, load_sent_maintains; intros; apply grants_maintains; priv_steps. Qed.
Lemma grants_setup pid entry slide stack irq_stack :
  grants_any (Loading.setup_process canary pid entry slide stack irq_stack).
Proof. priv_steps. Qed.
Lemma grants_splash pid pages : grants_any (move_splash_pages regions shared_peripherals pid pages).
Proof. induction pages as [|page pages IH]; cbn [move_splash_pages]; priv_steps. Qed.
Hint Resolve grants_load_sent grants_setup grants_splash : priv.
Lemma grants_create pid init : grants_any (create regions shared_peripherals user_memory parse_elf rand canary pid init).
Proof. priv_steps. Qed.
Hint Resolve grants_create : priv.
Lemma grants_new_process init k :
  table_ok ok k -> (forall pid parent, free_pid k = Some pid -> ok (Process_new pid parent (pi_app_id init))) ->
  safe (fun _ => table_ok ok) (table_ok ok)
    (create_process regions shared_peripherals user_memory utf8 parse_elf rand canary init k).
Proof.
  intros Hk Hnew. unfold create_process. unfold st_bind at 1, current_pid. unfold st_bind at 1, st_get.
  destruct (free_pid k) as [pid|]; [|done]. cbn [ok_or]. rewrite (run_bind (st_lift (Ok pid)) _ k k pid eq_refl).
  specialize (Hnew pid (k_current k) eq_refl).
  match goal with |- safe _ _ (?m k) => enough (grants_any m) as H by (by apply grants_safe) end.
  apply (grants_bind ok (fun _ => True)); [priv_steps|intros ? _].
  match goal with |- context [set_name utf8 ?p ?name] => pose proof (set_name_privileges utf8 p name) as Hs end.
  destruct (set_name _ _ _) as [p named]. apply Hsame in Hs; [|exact Hnew]. cbn [fst] in Hs. priv_steps.
Qed.
Lemma grants_create_process init :
  (forall pid parent, ok (Process_new pid parent (pi_app_id init))) ->
  grants_any (create_process regions shared_peripherals user_memory utf8 parse_elf rand canary init).
Proof. intros Hnew. apply maintains_grants. intros k Hk. by apply grants_new_process. Qed.
End Create.

(** ** Histories *)

(** The current thread runs, or traps without a panic of the kernel, with any arguments. *)
Inductive live_step (regions : list (Z * Z)) (shared_peripherals : list Z) : Kernel -> Kernel -> Prop :=
| LiveRun cs t t' k :
    default contexts_new (k_contexts k !! k_current k) = cs -> cs !! Z.to_nat (k_tid k) = Some t -> runs t t' ->
    live_step regions shared_peripherals k
      (set_contexts (<[k_current k := <[Z.to_nat (k_tid k) := t']> cs]> (k_contexts k)) k)
| LiveTrap usage period user_memory random debug_output utf8 parse_elf rand canary t k k' o :
    handle_trap regions shared_peripherals usage period user_memory random debug_output utf8
      (create_process regions shared_peripherals user_memory utf8 parse_elf rand canary) t k = (k', o) ->
    o <> Panic -> live_step regions shared_peripherals k k'.

Lemma live_steps_keep ok regions shared_peripherals k0 k :
  (forall p p', same_privileges p p' -> ok p -> ok p') -> (forall pid parent app, ok (Process_new pid parent app)) ->
  table_ok ok k0 -> rtc (live_step regions shared_peripherals) k0 k -> table_ok ok k.
Proof.
  intros Hsame Hnew H0 Hrun. induction Hrun as [|x y z Hxy _ IH]; [done|]. apply IH. clear IH.
  destruct Hxy as [|usage period um random dbg utf8 parse rand canary t x y o E Ho]; [done|].
  pose proof (grants_trap ok Hsame regions shared_peripherals usage um random dbg utf8 _
    (fun init => grants_create_process ok Hsame regions shared_peripherals um utf8 parse rand canary init
                   (fun pid parent => Hnew pid parent (pi_app_id init))) period t x H0) as H.
  rewrite E in H. by destruct o; [destruct H| |].
Qed.

(** The calls the mask of the process decides alone. *)
Definition restricted (call : SysCall) : bool :=
  match call with
  | ClaimInterrupt _ _ _ | FreeInterrupt _ | CreateProcess _ | CreateServerWithAddress _ _ | Shutdown _
  | PowerManagement _ | TerminatePid _ _ | MirrorMemoryToPid _ _ | GetSystemStats _ | GetPanicMessage _
  | ResolveMessagePermission _ _ | GetPermissionRequestData _ _
  | VirtToPhys _ | VirtToPhysPid _ _ | DebugCommand _ _ => true
  | _ => false
  end.
Definition call_number (call : SysCall) : Z := let '(W8 number _ _ _ _ _ _ _) := as_args call in number.
Definition may_call (k : Kernel) (pid number : Z) : bool :=
  match k_processes k !! pid with
  | Some p => negb (Z.land (syscall_permissions p) (Z.shiftl 1 number) =? 0)
  | None => false
  end.
Definition may_map (k : Kernel) (pid addr : Z) : bool :=
  match k_processes k !! pid with Some p => is_Ok (check_memory_permission p addr) | None => false end.

Lemma restricted_refused create regions shared_peripherals usage um random dbg utf8 tid call k :
  restricted call = true -> is_Some (k_processes k !! k_current k) -> may_call k (k_current k) (call_number call) = false ->
  exists e, handle regions shared_peripherals usage um random dbg utf8 create tid call k = (k, Fail e).
Proof.
  intros Hr [p Hp] Hm. unfold handle. destruct (_ && _); [by eexists|].
  assert (check_syscall_permission call k = (k, Fail AccessDenied)) as E.
  { assert (is_permitted_by_mask call k = (k, Fail AccessDenied)) as E.
    { unfold is_permitted_by_mask, current_process, process_unwrap, current_pid, st_bind. rewrite Hp.
      unfold may_call, call_number in Hm. rewrite Hp in Hm. destruct (as_args call) as [n ? ? ? ? ? ? ?]. by rewrite Hm. }
    by destruct call. }
  unfold st_bind. rewrite E. by eexists.
Qed.

(** What a process of the table may do, compared with the state [k0]. *)
Definition no_more (k0 : Kernel) (p : Process) : Prop :=
  (exists p0, k_processes k0 !! process_pid p = Some p0 /\ same_privileges p0 p)
  \/ (syscall_permissions p = 0 /\ memory_permissions p = repeat (mkMsgRange 0 0) MEMORY_PERMISSION_COUNT).

Lemma no_regions n addr : region_permitted (repeat (mkMsgRange 0 0) n) addr = false.
Proof.
  destruct n as [|n]; [done|]. cbn [repeat region_permitted]. assert (range_contains (mkMsgRange 0 0) addr = false) as ->; [|done].
  unfold range_contains. cbn. lia.
Qed.
Lemma no_more_table k0 regions shared_peripherals k :
  (forall pid p, k_processes k0 !! pid = Some p -> process_pid p = pid) -> rtc (live_step regions shared_peripherals) k0 k -> table_ok (no_more k0) k.
Proof.
  intros H0 Hrun. eapply live_steps_keep; [..|exact Hrun].
  - intros p p' Hs [(p0 & Hp0 & Hs0)|[H1 H2]].
    + left. exists p0. destruct Hs as (Hpid & Hs). rewrite Hpid. split; [done|]. by etrans.
    + right. destruct Hs as (_ & _ & -> & ->). done.
  - intros pid parent app. by right.
  - intros pid p Hp. pose proof (H0 pid p Hp) as <-. split; [done|]. left. by exists p.
Qed.

(** C15: Through every history of traps - any calls of any process with any arguments, the creation
    and the end of processes, crashes and interrupts - no process gains a privilege: it may make
    a call only if the process with its id could at the beginning, and map a page outside the
    RAM only if that process could.  So a call that needs a permission the process did not have
    then is refused, without any effect. *)
Theorem privileges_never_grow regions shared_peripherals k0 k pid :
  kernel_wf k0 -> is_Some (k_processes k0 !! 1) -> rtc (live_step regions shared_peripherals) k0 k ->
  (forall number, may_call k pid number = true -> may_call k0 pid number = true)
  /\ (forall addr, may_map k pid addr = true -> may_map k0 pid addr = true \/ is_ram addr = true)
  /\ (forall usage um random dbg utf8 create tid call,
        restricted call = true -> k_current k = pid -> is_Some (k_processes k !! pid) ->
        may_call k0 pid (call_number call) = false ->
        exists e, handle regions shared_peripherals usage um random dbg utf8 create tid call k = (k, Fail e)).
Proof.
  intros H0 H1 Hrun. pose proof (no_more_table k0 _ _ k (fun q p => process_pid_of _ k0 q p H0) Hrun) as Hk.
  assert (forall number, may_call k pid number = true -> may_call k0 pid number = true) as Hcall.
  { unfold may_call. intros number. destruct (k_processes k !! pid) as [p|] eqn:Hp; [|done].
    destruct (Hk pid p Hp) as [<- [(p0 & -> & _ & _ & _ & ->)|[-> _]]]; [done|]. by rewrite Z.land_0_l. }
  split; [exact Hcall|]. split.
  - unfold may_map. intros addr. destruct (k_processes k !! pid) as [p|] eqn:Hp; [|done]. unfold is_ram.
    destruct (Hk pid p Hp) as [<- [(p0 & -> & Hpid & _ & Hm & _)|[_ Hm]]]; unfold check_memory_permission; rewrite ?Hpid, Hm; [by left|].
    destruct (Z.eqb_spec (process_pid p) 1) as [E|]; cbn [orb].
    + destruct H1 as [p1 Hp1]. pose proof (process_pid_of _ k0 1 p1 H0 Hp1) as E1. rewrite E, Hp1, E1. by left.
    + rewrite no_regions. intros H. right. by destruct (is_address_in_plaintext_dram addr), (is_address_encrypted addr).
  - intros usage um random dbg utf8 create tid call Hr <- Hp Hn. apply restricted_refused; [done|done|].
    destruct (may_call k _ _) eqn:E; [|done]. apply Hcall in E. congruence.
Qed.

(** Process 5 has no privileges and asks for a connection. *)
Lemma privileges_never_grow_witness :
  exists k, rtc (live_step [] []) boot_kernel k /\ k = (boot_trap TrapSwi boot_kernel).1
    /\ may_map k 5 0xf0004000 = false /\ may_map k 1 0xf0004000 = true
    /\ (forall number, may_call k 5 number = true -> may_call boot_kernel 5 number = true).
Proof.
  exists (boot_trap TrapSwi boot_kernel).1.
  assert (rtc (live_step [] []) boot_kernel (boot_trap TrapSwi boot_kernel).1) as Hrun.
  { apply rtc_once. apply (LiveTrap [] [] 0 0 (fun _ _ => 0) boot_sid (fun _ _ => 0) (fun _ => true) (fun _ => None) 0 0 TrapSwi
      boot_kernel _ (Done tt)); [vm_compute; reflexivity|discriminate]. }
  split; [exact Hrun|]. split; [reflexivity|]. split; [vm_compute; reflexivity|]. split; [vm_compute; reflexivity|].
  apply (privileges_never_grow [] [] boot_kernel _ 5 boot_kernel_wf); [by eexists|exact Hrun].
Defined.
