(* ===== verification/BootTable.v ===== *)
(** * What the start gives to each process

    After [Boot.init] the process table is the one that the boot image describes: the kernel as
    process 1 and then the programs in the order of the image, each with the application id, the
    system calls and the memory regions that the arguments of the image give to its id, and
    nothing else.

    [present D]: the processes in [D] exist, and nobody has reported a panic; [stays D m] says
    that a computation keeps this.  Together with [Privilege.table_ok] it determines the table. *)
From stdpp Require Import fin_maps gmap.
From S2P Require Import Prelude Xous SysCall Permissions Server Scheduler Threads Connections.
From S2P Require Import PermissionRequests Irq Process MemManager PageTable Mapping Memory.
From S2P Require Import Kernel Services KernelRules Elf Loading BootImage Syscalls Traps Boot KernelInvariant.
From S2P Require Import KernelLifecycle KernelCreate KernelCalls BootInvariant BootBoard Privilege.

(** ** Processes that exist *)

Definition present (D : Z -> Prop) (k : Kernel) : Prop :=
  (forall pid, D pid -> is_Some (k_processes k !! pid)) /\ k_panic_pid k = None.
Definition whole (k : Kernel) := (k_processes k, k_panic_pid k).

Section Stays.
Context (D : Z -> Prop).
Abbreviation stays := (maintains (present D)).

Lemma stays_bind {A B} (m : KS A) (f : A -> KS B) : stays m -> (forall a, stays (f a)) -> stays (st_bind m f).
Proof. intros Hm Hf k Hk. apply safe_bind. eapply safe_mono; [by apply Hm| |done]. intros a k' Hk'. by apply Hf. Qed.
Lemma stays_try {A} (m : KS A) : stays m -> stays (st_try m).
Proof. intros Hm k Hk. eapply safe_try; [by apply Hm|done]. Qed.
Lemma stays_same {A} (m : KS A) : same whole m -> stays m.
Proof.
  intros Hm k [Hk Hp]. specialize (Hm k). unfold whole in Hm. unfold safe, present.
  destruct (m k) as [k' [a|e|]]; cbn in Hm; [..|done]; injection Hm as -> ->; done.
Qed.
Lemma stays_put p : stays (put_process p).
Proof.
  intros k [Hk Hp]. split; [|done]. intros pid Hpid. cbn.
  destruct (decide (process_pid p = pid)) as [->|]; [rewrite lookup_insert_eq; eauto|rewrite lookup_insert_ne by done; auto].
Qed.
End Stays.

Create HintDb stays.
#[export] Hint Resolve stays_put : stays.
Ltac stays_step :=
  match goal with
  | |- _ => solve [auto with stays]
  | |- maintains _ (st_bind _ _) => simple apply stays_bind; [|intros]
  | |- maintains _ (st_try _) => simple apply stays_try
  | |- maintains _ (match ?x with _ => _ end) => destruct x
  | |- maintains _ (if ?x then _ else _) => destruct x
  | |- maintains _ (let '(_, _) := ?x in _) => destruct x
  | |- maintains _ _ => simple apply stays_same; solve [mem_same]
  | |- maintains _ ?m => let h := head m in progress unfold h
  end.
Ltac stays_steps := repeat stays_step.

Section Board.
Context (D : Z -> Prop) (regions : list (Z * Z)) (shared_peripherals : list Z).
Abbreviation stays := (maintains (present D)).

Lemma stays_broadcast e args : stays (broadcast_event e args).
Proof.
  unfold broadcast_event. generalize (seqZ 1 MAX_PROCESS_COUNT), 0. intros pids.
  induction pids as [|pid pids IH]; intros n; cbn [broadcast_loop]; stays_steps.
Qed.
Hint Resolve stays_broadcast : stays.
Lemma stays_lift_mem {A} (m : (Z -> Z -> result Error unit) -> MS A) : stays (lift_mem m).
Proof.
  intros k Hk. unfold lift_mem. destruct (m _ _) as [mem r]. set (calls := drop _ _).
  assert (stays (let* _ := perform_calls calls in st_outcome r)) as H; [|by apply H].
  apply stays_bind; [|intros; by apply stays_same, same_outcome].
  induction calls as [|[|? ?] calls IH]; cbn [perform_calls]; stays_steps.
Qed.
Hint Resolve stays_lift_mem : stays.
Lemma stays_map_range phys virt size flags user : stays (map_range regions shared_peripherals phys virt size flags user).
Proof. stays_steps. Qed.
Lemma stays_unmap_range virt len : stays (unmap_range regions shared_peripherals virt len).
Proof. stays_steps. Qed.
Lemma stays_send_memory src dest virt len : stays (send_memory regions shared_peripherals src dest virt len).
Proof. stays_steps. Qed.
Hint Resolve stays_map_range stays_unmap_range stays_send_memory : stays.

Context (user_memory : Z -> Z -> Z) (utf8 : list Z -> bool) (parse_elf : list Z -> option ElfFile) (rand canary : Z).
Lemma stays_create pid init : stays (create regions shared_peripherals user_memory parse_elf rand canary pid init).
Proof.
  assert (forall image len, stays (load_sent_elf regions shared_peripherals parse_elf rand image len)) as Hload
    by (intros; apply load_sent_maintains; intros; stays_steps).
  assert (forall pid pages, stays (move_splash_pages regions shared_peripherals pid pages)) as Hsplash.
  { intros p pages. induction pages as [|page pages IH]; cbn [move_splash_pages]; stays_steps. }
  stays_steps.
Qed.
End Board.
#[export] Hint Resolve stays_lift_mem stays_map_range stays_unmap_range stays_create : stays.

Section Create.
Context (regions : list (Z * Z)) (shared_peripherals : list Z).
Context (user_memory : Z -> Z -> Z) (utf8 : list Z -> bool) (parse_elf : list Z -> option ElfFile) (rand canary : Z).
(** A new process is the one with the pid that was free. *)
Lemma present_new_process D init pid k :
  present D k -> free_pid k = Some pid ->
  safe (fun _ => present (fun q => D q \/ q = pid)) (fun _ => True)
    (create_process regions shared_peripherals user_memory utf8 parse_elf rand canary init k).
Proof.
  intros Hk Hpid. unfold create_process. unfold st_bind at 1, current_pid. unfold st_bind at 1, st_get. rewrite Hpid. cbn [ok_or].
  rewrite (run_bind (st_lift (Ok pid)) _ k k pid eq_refl). apply safe_bind.
  apply (safe_mono (fun _ => present D) _ (present D)); [exact (stays_lift_mem D _ k Hk)| |done]. clear Hk. intros _ k1 Hk.
  match goal with |- context [set_name utf8 ?p ?name] => pose proof (set_name_privileges utf8 p name) as [Hs _] end.
  destruct (set_name _ _ _) as [p [[]|e]]; [|done]. rewrite (run_bind (st_lift (Ok tt)) _ k1 k1 tt eq_refl).
  unfold st_bind at 1, st_get. destruct (Process.set_thread_state _ p _ _) as [[sch p']|] eqn:E; [|done].
  apply set_thread_state_privileges in E as [E _]. unfold st_bind at 1, st_unwrap, st_ret. unfold st_bind at 1, st_modify at 1. unfold st_bind at 1, put_process, st_modify.
  match goal with |- safe _ _ (expect_ok ?m ?k) => set (k2 := k) end.
  assert (present (fun q => D q \/ q = pid) k2) as Hk2.
  { destruct Hk as [Hk Hp]. split; [|done]. cbn in Hs. intros q Hq. cbn. rewrite E, Hs.
    destruct (decide (pid = q)) as [->|]; [rewrite lookup_insert_eq; eauto|rewrite lookup_insert_ne by done].
    destruct Hq as [Hq| ->]; [auto|done]. }
  set (D' := fun q => _) in *. apply (safe_mono (fun _ => present D') _ (present D')); [|done|done]. unfold expect_ok.
  apply (stays_bind D'); [apply stays_try, stays_create|intros; stays_steps|exact Hk2].
Qed.
End Create.

(** ** The slots are taken in order *)

Definition first_pids (n : nat) (pid : Z) : Prop := 1 <= pid <= Z.of_nat n + 1.
Lemma find_seqZ_first f n : forall a x, List.find f (seqZ a n) = Some x -> f x = true /\ forall y, a <= y < x -> f y = false.
Proof.
  induction (Z.to_nat n) as [|m IH] eqn:En in n |- *; intros a x H.
  - rewrite seqZ_nil in H by lia. done.
  - rewrite seqZ_cons in H by lia. cbn [List.find] in H. destruct (f a) eqn:Ea.
    + injection H as <-. split; [done|]. lia.
    + destruct (IH (Z.pred n) ltac:(lia) _ _ H) as [? Hy]. split; [done|]. intros y Hr.
      destruct (decide (y = a)) as [->|]; [done|]. apply Hy. lia.
Qed.
Lemma next_pid n k pid :
  present (first_pids n) k -> (forall q p, k_processes k !! q = Some p -> first_pids n q) -> free_pid k = Some pid ->
  pid = Z.of_nat n + 2.
Proof.
  intros [Hk Hp] Hdom H. unfold free_pid in H. rewrite Hp in H. pose proof H as Hin. apply List.find_some in Hin as [Hin _].
  apply list_elem_of_In, elem_of_seqZ in Hin. apply find_seqZ_first in H as [H Hfirst].
  rewrite andb_true_r, negb_true_iff, bool_decide_eq_false in H.
  assert (~ first_pids n pid) as Hn by auto. unfold first_pids in *. assert (Z.of_nat n + 2 <= pid) by lia.
  destruct (decide (pid = Z.of_nat n + 2)) as [|Hne]; [done|]. specialize (Hfirst (Z.of_nat n + 2) ltac:(lia)).
  rewrite andb_true_r, negb_false_iff, bool_decide_eq_true in Hfirst. destruct Hfirst as [p Hq]. apply Hdom in Hq. lia.
Qed.

(** ** What the image gives *)

(** The application ids of the programs, in their order. *)
Definition image_apps (args : list KernelArgument) : list AppId :=
  omap (fun arg => if arg_name arg =? tag_BElf then bp_app <$> boot_program (arg_data arg) else None) args.
(** The system calls and the memory regions of each process. *)
Abbreviation grant := (Z * list MessageRange)%type.
Definition region_of (r : Z * Z) : MessageRange := mkMsgRange r.1 r.2.
Definition give_regions (pid : Z) (rs : list (Z * Z)) (given : Z -> grant) (q : Z) : grant :=
  if q =? pid then ((given q).1, (given q).2 ++ map region_of rs) else given q.
Definition give_calls (pid mask : Z) (given : Z -> grant) (q : Z) : grant :=
  if q =? pid then (mask, (given q).2) else given q.
Definition give (given : Z -> grant) (arg : KernelArgument) : Z -> grant :=
  if arg_name arg =? tag_PMem then
    match boot_memory (arg_data arg) with Some (pid, rs) => give_regions pid rs given | None => given end
  else if arg_name arg =? tag_PSys then
    match boot_syscalls (arg_data arg) with Some (pid, mask) => give_calls pid mask given | None => given end
  else given.
Definition given_at_first (pid : Z) : grant := (if pid =? 1 then u64_MAX else 0, []).
Definition image_grants (args : list KernelArgument) : Z -> grant := fold_left give args given_at_first.
(** No region ends at 0. *)
Definition regions_end (arg : KernelArgument) : Prop :=
  arg_name arg = tag_PMem -> forall pid rs, boot_memory (arg_data arg) = Some (pid, rs) -> Forall (fun r => 0 < r.2) rs.

(** An entry of the table that says so. *)
Definition settled (apps : list AppId) (given : Z -> grant) (p : Process) : Prop :=
  1 <= process_pid p /\ (PID1_APP_ID :: apps) !! Z.to_nat (process_pid p - 1) = Some (process_app_id p)
  /\ syscall_permissions p = (given (process_pid p)).1
  /\ regions_repr (memory_permissions p) (given (process_pid p)).2.
Definition stage (apps : list AppId) (given : Z -> grant) (k : Kernel) : Prop :=
  table_ok (settled apps given) k /\ present (first_pids (length apps)) k.

Lemma settled_same apps given p p' : same_privileges p p' -> settled apps given p -> settled apps given p'.
Proof. intros (H1 & H2 & H3 & H4). unfold settled. by rewrite H1, H2, H3, H4. Qed.
Lemma settled_pid apps given p : settled apps given p -> first_pids (length apps) (process_pid p).
Proof. intros (? & H & _). apply lookup_lt_Some in H. cbn in H. unfold first_pids. lia. Qed.
Lemma stage_dom apps given k q p : stage apps given k -> k_processes k !! q = Some p -> first_pids (length apps) q.
Proof. intros [Hk _] Hp. destruct (Hk q p Hp) as [<- Hs]. by eapply settled_pid. Qed.
Lemma stage_ext apps given given' k : (forall q, given q = given' q) -> stage apps given k -> stage apps given' k.
Proof.
  intros E [Hk Hp]. split; [|done]. intros q p Hq. destruct (Hk q p Hq) as [? (? & ? & ? & ?)]. split; [done|].
  unfold settled. by rewrite <-E.
Qed.

Lemma safe_and {A} (Q Q' : A -> Kernel -> Prop) I I' r : safe Q I r -> safe Q' I' r -> safe (fun a k => Q a k /\ Q' a k) (fun _ => True) r.
Proof. unfold safe. by destruct r as [k [a|e|]]. Qed.

(** A step that leaves all this alone. *)
Lemma stage_kept {A} apps given (m : KS A) k :
  grants (settled apps given) (fun _ => True) m -> maintains (present (first_pids (length apps))) m -> stage apps given k ->
  safe (fun _ => stage apps given) (fun _ => True) (m k).
Proof. intros Hg Hs [H1 H2]. eapply safe_mono; [exact (safe_and _ _ _ _ _ (Hg k H1) (Hs k H2))|by intros ? ? [[_ ?] ?]|done]. Qed.

(** Changing the privileges of one process. *)
Lemma stage_put apps given given' pid p p' k :
  stage apps given k -> k_processes k !! pid = Some p -> (forall q, q <> pid -> given' q = given q) ->
  process_pid p' = process_pid p -> settled apps given' p' ->
  safe (fun _ => stage apps given') (fun _ => True) (put_process p' k).
Proof.
  intros [Hk Hpres] Hp Hg Epid Hs. destruct (Hk pid p Hp) as [<- _]. split; [|exact (stays_put _ p' k Hpres)].
  intros q r Hq. cbn in Hq. apply lookup_insert_Some in Hq as [[<- <-]|[Hne Hq]]; [done|]. destruct (Hk q r Hq) as [<- (? & ? & ? & ?)].
  split; [done|]. unfold settled. rewrite !Hg by congruence. done.
Qed.

Lemma boot_process_safe {B} pid (f : Process -> KS B) k Q :
  (forall p, k_processes k !! pid = Some p -> safe Q (fun _ => True) (f p k)) ->
  safe Q (fun _ => True) (st_bind (boot_process pid) f k).
Proof.
  intros H. unfold boot_process, nonzero_new. destruct (pid =? 0); [done|]. unfold st_bind, st_unwrap, st_ret, process_unwrap.
  destruct (k_processes k !! pid) as [p|] eqn:E; [by apply H|done].
Qed.

Lemma grant_regions_stage apps pid rs : Forall (fun r => 0 < r.2) rs -> forall given k, stage apps given k ->
  safe (fun _ => stage apps (give_regions pid rs given)) (fun _ => True) (grant_regions pid rs k).
Proof.
  induction 1 as [|[start stop] rs Hr _ IH]; intros given k Hk; cbn [grant_regions].
  - eapply stage_ext; [|exact Hk]. intros q. unfold give_regions. destruct (q =? pid); [|done]. cbn [map]. rewrite app_nil_r. by destruct (given q).
  - apply boot_process_safe. intros p Hp. destruct Hk as [Ht Hpres]. destruct (Ht pid p Hp) as [Epid (H1 & H2 & H3 & H4)].
    pose proof (add_memory_permission_spec p _ (mkMsgRange start stop) H4 Hr) as Ha.
    destruct (add_memory_permission _ _) as [p' [[]|e]]; [|apply safe_bind; by destruct (put_process p' k) as [? [?|?|]]].
    destruct Ha as [Ha Ep]. subst pid. apply safe_bind.
    set (given1 := give_regions (process_pid p) [(start, stop)] given).
    apply (safe_mono (fun _ => stage apps given1) _ (fun _ => True)).
    + apply (stage_put apps given given1 (process_pid p) p p'); [done|done| |by rewrite Ep|].
      * intros q Hq. unfold given1, give_regions. by rewrite (proj2 (Z.eqb_neq _ _) Hq).
      * unfold settled. rewrite Ep. cbn [process_pid process_app_id syscall_permissions set_memory_permissions].
        unfold given1, give_regions. rewrite Z.eqb_refl. cbn [map fst snd memory_permissions set_memory_permissions] in *. done.
    + intros _ k' Hk'. unfold st_assert, is_Ok. rewrite (run_bind (st_ret tt) _ k' k' tt eq_refl).
      eapply safe_mono; [by apply IH| |done].  intros ? k2. apply stage_ext. intros q. unfold given1, give_regions.
      destruct (q =? process_pid p); [|done]. cbn. by rewrite <-app_assoc.
    + done.
Qed.
Lemma grant_permissions_stage apps args : Forall regions_end args -> forall given k, stage apps given k ->
  safe (fun _ => stage apps (fold_left give args given)) (fun _ => True) (grant_permissions args k).
Proof.
  induction 1 as [|arg args Harg _ IH]; intros given k Hk; cbn [grant_permissions]; [done|]. cbn [fold_left]. apply safe_bind.
  apply (safe_mono (fun _ => stage apps (give given arg)) _ (fun _ => True)); [|intros _ k' Hk'; by apply IH|done].
  unfold give. destruct (Z.eqb_spec (arg_name arg) tag_PMem) as [E|_].
  - specialize (Harg E). destruct (boot_memory (arg_data arg)) as [[pid rs]|]; [|done].
    exact (grant_regions_stage apps pid rs (Harg pid rs eq_refl) given k Hk).
  - destruct (arg_name arg =? tag_PSys); [|done]. destruct (boot_syscalls (arg_data arg)) as [[pid mask]|]; [|done].
    rewrite (run_bind (st_unwrap (Some (pid, mask))) _ k k (pid, mask) eq_refl).
    apply (boot_process_safe pid (fun p => put_process (set_syscall_permissions p mask))). intros p Hp.
    destruct Hk as [Ht Hpres]. destruct (Ht pid p Hp) as [Epid (H1 & H2 & H3 & H4)]. subst pid.
    apply (stage_put apps given _ (process_pid p) p); [done|done| |done|].
    + intros q Hq. unfold give_calls. by rewrite (proj2 (Z.eqb_neq _ _) Hq).
    + unfold settled, give_calls. cbn [process_pid process_app_id syscall_permissions memory_permissions set_syscall_permissions].
      by rewrite Z.eqb_refl.
Qed.

Section Start.
Context (regions : list (Z * Z)) (shared_peripherals : list Z) (usage : Z).
Context (utf8 : list Z -> bool) (parse_elf : list Z -> option ElfFile).
Context (rand canary : nat -> Z) (user_memory : nat -> Z -> Z -> Z) (name_addr : Z).

Lemma create_stage i apps init k :
  stage apps given_at_first k ->
  safe (fun _ => stage (apps ++ [pi_app_id init]) given_at_first) (fun _ => True)
    (create_process regions shared_peripherals (user_memory i) utf8 parse_elf (rand i) (canary (S i)) init k).
Proof.
  intros Hk. pose proof Hk as [Ht Hpres]. destruct (free_pid k) as [pid|] eqn:Ef.
  2: { unfold create_process. unfold st_bind at 1, current_pid. unfold st_bind at 1, st_get. by rewrite Ef. }
  assert (pid = Z.of_nat (length apps) + 2) as ->.
  { apply (next_pid _ k); [done| |done]. intros q p Hq. by eapply stage_dom. }
  set (apps' := apps ++ [pi_app_id init]). set (ok := settled apps' given_at_first).
  assert (table_ok ok k) as Ht'.
  { intros q p Hq. destruct (Ht q p Hq) as [? (? & Ha & ?)]. split; [done|]. split; [done|]. split; [|done].
    unfold apps'. rewrite app_comm_cons. by apply lookup_app_l_Some. }
  assert (forall pid parent, free_pid k = Some pid -> ok (Process_new pid parent (pi_app_id init))) as Hnew.
  { intros q parent E. rewrite Ef in E. injection E as <-. unfold ok, settled, apps'. cbn [process_pid process_app_id syscall_permissions memory_permissions Process_new].
    split; [lia|]. replace (Z.to_nat (Z.of_nat (length apps) + 2 - 1)) with (S (length apps)) by lia.
    split; [by apply (list_lookup_middle (PID1_APP_ID :: apps) [])|]. unfold given_at_first.
    destruct (Z.eqb_spec (Z.of_nat (length apps) + 2) 1); [lia|]. split; [done|]. split; [done|]. split; [cbn; lia|constructor]. }
  eapply safe_mono; [apply (safe_and _ _ _ _ _
    (grants_new_process ok (settled_same _ _) regions shared_peripherals (user_memory i) utf8 parse_elf (rand i) (canary (S i)) init k Ht' Hnew)
    (present_new_process regions shared_peripherals (user_memory i) utf8 parse_elf (rand i) (canary (S i)) _ init _ k Hpres Ef))| |done].
  intros startup k' [H1 [H2 H3]]. split; [done|]. split; [|done]. intros q Hq. apply H2. unfold apps' in Hq.
  unfold first_pids in *. rewrite length_app in Hq. cbn in Hq. lia.
Qed.

Lemma load_programs_stage args : forall i apps k, stage apps given_at_first k ->
  safe (fun _ => stage (apps ++ image_apps args) given_at_first) (fun _ => True)
    (load_programs regions shared_peripherals utf8 parse_elf rand canary user_memory name_addr i args k).
Proof.
  induction args as [|arg args IH]; intros i apps k Hk; cbn [load_programs image_apps omap list_omap].
  { by rewrite app_nil_r. }
  fold (image_apps args). destruct (arg_name arg =? tag_BElf); [|by apply IH].
  destruct (boot_program (arg_data arg)) as [p|]; [|done]. rewrite (run_bind (st_unwrap (Some p)) _ k k p eq_refl). cbn [fmap option_fmap option_map].
  destruct (boot_init name_addr p) as [init|] eqn:Ei; [|done]. rewrite (run_bind (st_unwrap (Some init)) _ k k init eq_refl).
  assert (pi_app_id init = bp_app p) as <-.
  { unfold boot_init in Ei. destruct (MemoryRange_new _ _); [by injection Ei as <-|done]. }
  unfold expect_ok. apply safe_bind, safe_bind. eapply (safe_try _ _ (fun _ => True)); [|done].
  eapply safe_mono; [by apply create_stage| |done]. intros startup k' Hk'. 
  rewrite (cons_middle (pi_app_id init)), app_assoc. exact (IH (S i) _ k' Hk').
Qed.

Lemma enter_stage s maps tid :
  safe (fun _ => stage [] given_at_first) (fun _ => True) (enter_process_1 utf8 canary (set_mem s (kernel_static maps tid))).
Proof.
  set (k := set_mem s _). set (p := Process_new 1 1 PID1_APP_ID). unfold enter_process_1. fold p. unfold st_bind at 1, st_get.
  destruct (Process.set_thread_priority (k_scheduler k) p INITIAL_TID Idle) as [[sch1 p1]|] eqn:E1; [|done].
  apply set_thread_priority_privileges in E1. unfold st_bind at 1, st_unwrap, st_ret.
  destruct (Process.set_thread_state sch1 p1 INITIAL_TID TReady) as [[sch2 p2]|] eqn:E2; [|done].
  apply set_thread_state_privileges in E2. unfold st_bind at 1 2, st_modify.
  pose proof (set_name_privileges utf8 p2 kernel_name) as E3. destruct (set_name utf8 p2 kernel_name) as [p3 [[]|e]]; [|done].
  assert (same_privileges p p3) as (Epid & Eapp & Emem & _) by (etrans; [exact E1|]; etrans; [exact E2|exact E3]).
  unfold st_bind at 1, st_assert, is_Ok. unfold st_ret at 1. unfold st_bind at 1, put_process, st_modify.
  set (k2 := set_processes _ _). assert (stage [] given_at_first k2) as Hk2.
  - split.
    + intros q r Hq. cbn in Hq. apply lookup_insert_Some in Hq as [[<- <-]|[_ Hq]]; [|done]. split; [done|].
      unfold settled. cbn [process_pid process_app_id syscall_permissions memory_permissions set_syscall_permissions].
      rewrite Epid, Eapp, Emem. split; [done|]. split; [done|]. split; [done|]. split; [done|]. split; [cbn; lia|constructor].
    + split; [|done]. intros q Hq. unfold first_pids in Hq. cbn in Hq. assert (q = 1) as -> by lia. cbn. rewrite Epid.
      rewrite lookup_insert_eq. by eexists.
  - refine (stage_kept [] given_at_first _ k2 _ _ Hk2).
    + unfold expect_ok. pose proof (settled_same [] given_at_first) as Hsame. priv_steps.
    + stays_steps.
Qed.

Context (call_memory : Z -> Z -> Z) (random : SID) (debug_output : Z -> Z -> Z) (call_rand call_canary : Z).
Context (uart_irq uart_arg icm_irq kernel_text : Z).

Lemma drivers_stage apps given k :
  stage apps given k ->
  safe (fun _ => stage apps given) (fun _ => True)
    ((let* _ := unmap_kernel regions shared_peripherals (align_down LOADER_CODE_ADDRESS) PAGE_SIZE in
      let* _ := arch_init in
      platform_init regions shared_peripherals usage utf8 parse_elf call_memory random debug_output call_rand call_canary
        uart_irq uart_arg icm_irq kernel_text) k).
Proof.
  assert (forall create tid irq callback arg, same whole (handle regions shared_peripherals usage call_memory random debug_output
    utf8 create tid (ClaimInterrupt irq callback arg))) as Hw by (intros; by apply same_claim).
  assert (forall create tid irq callback arg, same k_processes (handle regions shared_peripherals usage call_memory random
    debug_output utf8 create tid (ClaimInterrupt irq callback arg))) as Hp by (intros; by apply same_claim).
  pose proof (settled_same apps given) as Hsame. apply stage_kept.
  - pose proof (grants_map_range _ Hsame regions shared_peripherals). pose proof (grants_unmap_range _ Hsame regions shared_peripherals).
    pose proof (fun A => @grants_lift_mem _ Hsame A). unfold platform_init, claim_interrupt. priv_steps.
  - unfold platform_init, claim_interrupt. stays_steps.
Qed.
End Start.

(** ** The table *)

Section Image.
Context (regions : list (Z * Z)) (shared_peripherals : list Z) (usage : Z).
Context (utf8 : list Z -> bool) (parse_elf : list Z -> option ElfFile).
Context (rand canary : nat -> Z) (user_memory : nat -> Z -> Z -> Z) (name_addr : Z).
Context (call_memory : Z -> Z -> Z) (random : SID) (debug_output : Z -> Z -> Z) (call_rand call_canary : Z).
Context (uart_irq uart_arg icm_irq kernel_text : Z).
Abbreviation start owners image maps tid :=
  (init regions shared_peripherals usage utf8 parse_elf rand canary user_memory name_addr call_memory random debug_output
     call_rand call_canary uart_irq uart_arg icm_irq kernel_text owners image (kernel_static maps tid)).

Lemma start_stage owners maps tid image args k :
  kernel_arguments image = Some args -> Forall regions_end args -> start owners image maps tid = (k, Done tt) ->
  stage (image_apps args) (image_grants args) k.
Proof.
  intros Ea Hends E. set (s := mkMem (init_from_memory owners mm_initial) maps).
  enough (safe (fun _ => stage (image_apps args) (image_grants args)) (fun _ => True) (start owners image maps tid)) as H by (by rewrite E in H).
  clear E. unfold init. rewrite (run_bind _ _ _ (set_mem s (kernel_static maps tid)) tt) by apply start_memory.
  rewrite Ea. rewrite (run_bind (st_unwrap (Some args)) _ _ _ args eq_refl). unfold init_services. apply safe_bind, safe_bind.
  apply (safe_mono (fun _ => stage [] given_at_first) _ (fun _ => True)); [by apply enter_stage| |done]. intros _ k1 Hk1. apply safe_bind.
  apply (safe_mono (fun _ => stage (image_apps args) given_at_first) _ (fun _ => True)); [|intros _ k2 Hk2|done].
  { exact (load_programs_stage regions shared_peripherals utf8 parse_elf rand canary user_memory name_addr args 0%nat [] k1 Hk1). }
  apply (safe_mono (fun _ => stage (image_apps args) (image_grants args)) _ (fun _ => True)); [by apply grant_permissions_stage| |done].
  intros _ k3 Hk3. by apply drivers_stage.
Qed.
End Image.

(** C16: What the start makes of a boot image: the process table holds the kernel as process 1 and
    the programs of the image behind it, in their order and no others.  Each process has the
    application id of its program, exactly the system calls of the last [PSys] argument for its
    id - all of them for the kernel, none for a program without such an argument - and exactly
    the memory regions of the [PMem] arguments for its id, in their order. *)
Theorem start_privileges regions shared_peripherals usage utf8 parse_elf rand canary user_memory name_addr call_memory random
    debug_output call_rand call_canary uart_irq uart_arg icm_irq kernel_text owners maps tid image args k pid :
  kernel_arguments image = Some args -> Forall regions_end args ->
  init regions shared_peripherals usage utf8 parse_elf rand canary user_memory name_addr call_memory random debug_output
    call_rand call_canary uart_irq uart_arg icm_irq kernel_text owners image (kernel_static maps tid) = (k, Done tt) ->
  match k_processes k !! pid with
  | Some p => 1 <= pid <= Z.of_nat (length (image_apps args)) + 1
      /\ (PID1_APP_ID :: image_apps args) !! Z.to_nat (pid - 1) = Some (process_app_id p)
      /\ syscall_permissions p = (image_grants args pid).1
      /\ regions_repr (memory_permissions p) (image_grants args pid).2
  | None => ~ 1 <= pid <= Z.of_nat (length (image_apps args)) + 1
  end.
Proof.
  intros Ea Hends E. pose proof (start_stage _ _ _ _ _ _ _ _ _ _ _ _ _ _ _ _ _ _ _ _ _ _ _ _ Ea Hends E) as Hk.
  pose proof (fun p => stage_dom _ _ k pid p Hk) as Hdom. destruct (k_processes k !! pid) as [p|] eqn:Hp.
  - destruct Hk as [Ht Hpres]. destruct (Ht pid p Hp) as [<- (H1 & H2 & H3 & H4)]. split_and!; [done| |done..].
    apply (Hdom p eq_refl).
  - intros Hr. destruct Hk as [_ [Hpres _]]. destruct (Hpres pid Hr) as [p Hp']. congruence.
Qed.

Lemma start_privileges_witness :
  exists p, k_processes board_init.1 !! 2 = Some p /\ process_app_id p = board_app /\ syscall_permissions p = 0x30004
    /\ regions_repr (memory_permissions p) [mkMsgRange 0xf8000000 0xf8004000] /\ k_processes board_init.1 !! 3 = None.
Proof.
  destruct (kernel_arguments board_image) as [args|] eqn:Ea; [|by vm_compute in Ea].
  assert (image_apps args = [board_app] /\ (image_grants args 2) = (0x30004, [mkMsgRange 0xf8000000 0xf8004000])
    /\ forallb (fun arg => match boot_memory (arg_data arg) with
                           | Some (_, rs) => negb (arg_name arg =? tag_PMem) || forallb (fun r => 0 <? r.2) rs
                           | None => true end) args = true) as (Eapps & Egrants & Eends).
  { vm_compute in Ea. injection Ea as <-. split; [vm_compute; reflexivity|split; vm_compute; reflexivity]. }
  assert (Forall regions_end args) as Hends.
  { apply list.Forall_forall. intros arg Harg Htag pid rs Hm. rewrite forallb_forall in Eends.
    specialize (Eends arg (proj1 (list_elem_of_In _ _) Harg)). rewrite Hm, Htag in Eends.
    change (negb (tag_PMem =? tag_PMem)) with false in Eends. cbn [orb] in Eends.
    apply list.Forall_forall. intros r Hr. rewrite forallb_forall in Eends.
    specialize (Eends r (proj1 (list_elem_of_In _ _) Hr)). cbn in Eends. lia. }
  pose proof (fun pid => start_privileges board_regions [] 0 (fun _ => true) board_parser (fun _ => 0) (fun _ => 0) (fun _ _ _ => 0) 0
    (fun _ _ => 0) board_sid (fun _ _ => 0) 0 0 0x1000 0 0x2000 0xffd00000 board_owners board_maps 0 board_image args
    board_init.1 pid Ea Hends board_starts) as H. rewrite Eapps in H.
  pose proof (H 2) as H2. pose proof (H 3) as H3. cbn [length] in H2, H3. rewrite Egrants in H2.
  destruct (k_processes board_init.1 !! 3) as [q|]; [destruct H3 as [? _]; lia|].
  destruct (k_processes board_init.1 !! 2) as [p|]; [|lia]. destruct H2 as (_ & Happ & Hcalls & Hreg). exists p.
  split; [reflexivity|]. split; [by injection Happ as <-|]. split; [exact Hcalls|]. split; [exact Hreg|reflexivity].
Defined.

(** ** From the build tool on *)

Definition give_entry (given : Z -> grant) (e : BootEntry) : Z -> grant :=
  match e with
  | EntryMemory pid rs => give_regions pid rs given
  | EntrySyscalls pid mask => give_calls pid mask given
  | _ => given
  end.
(** What the arguments of the tool say. *)
Definition build (given : Z -> grant) (a : XousArgument) : Z -> grant :=
  match a with
  | MemoryPermission pid rs => give_regions pid rs given
  | SyscallPermission pid mask => give_calls pid mask given
  | _ => given
  end.
Definition built_grants (args : list XousArgument) : Z -> grant := fold_left build args given_at_first.
Definition built_regions_end (a : XousArgument) : Prop :=
  match a with MemoryPermission _ rs => Forall (fun r => 0 < r.2) rs | _ => True end.

Lemma entry_of_give given arg e : entry_of arg = Some e -> give given arg = give_entry given e.
Proof.
  unfold entry_of, give. destruct (Z.eqb_spec (arg_name arg) tag_BElf) as [E|_].
  { rewrite E. change (tag_BElf =? tag_PMem) with false. change (tag_BElf =? tag_PSys) with false. intros H. by server_cases. }
  destruct (arg_name arg =? tag_PMem); [intros H; by server_cases|]. destruct (arg_name arg =? tag_PSys); [intros H; by server_cases|].
  intros H. by server_cases.
Qed.
Lemma entries_give args : forall entries given, mapM entry_of args = Some entries ->
  fold_left give args given = fold_left give_entry (List.filter is_entry entries) given.
Proof.
  intros entries given H. apply mapM_Some in H. revert given. induction H as [|arg e args entries He _ IH]; intros given; [done|].
  cbn [fold_left List.filter]. rewrite (entry_of_give given arg e He), IH. by destruct e.
Qed.
Lemma reads_back_build image args entries given :
  Forall2 (reads_back image) args entries -> fold_left give_entry entries given = fold_left build args given.
Proof.
  intros H. revert given. induction H as [|a e args entries He _ IH]; intros given; [done|]. cbn [fold_left]. rewrite IH. f_equal.
  destruct a; cbn in He; [by destruct He as (? & -> & _)|by subst|by subst|by destruct He as (? & -> & _)].
Qed.

(** The grants of an image the tool has written. *)
Lemma built_image_grants crc16 args total placed image :
  Forall wf_argument args -> args <> [] -> (length args <= 1024)%nat -> clear_of_page_end args ->
  finalize args = Some (total, placed) -> total < 2 ^ 32 -> write_image crc16 args = Some image ->
  Forall built_regions_end args ->
  exists kargs, kernel_arguments image = Some kargs /\ Forall regions_end kargs /\ image_grants kargs = built_grants args.
Proof.
  intros Hwf Hne Hlen Hclear Hf Ht Hw Hends.
  destruct (image_reads_back crc16 args total placed image Hwf Hne Hlen Hclear Hf Ht Hw) as (entries & He & Hback).
  unfold boot_entries in He. destruct (kernel_arguments image) as [kargs|]; [|done].
  destruct (mapM entry_of kargs) as [es|] eqn:Em; [|done]. injection He as <-. exists kargs. split; [done|]. split.
  - apply list.Forall_forall. intros arg Harg Etag pid rs Hm. apply mapM_Some in Em.
    apply list_elem_of_lookup in Harg as [i Hi]. destruct (Forall2_lookup_l _ _ _ _ _ Em Hi) as (e & Hj & Ee).
    assert (e = EntryMemory pid rs) as ->.
    { unfold entry_of in Ee. rewrite Etag, Hm in Ee. change (tag_PMem =? tag_BElf) with false in Ee.
      change (tag_PMem =? tag_PMem) with true in Ee. by injection Ee as <-. }
    assert (EntryMemory pid rs ∈ List.filter is_entry es) as Hin.
    { apply list_elem_of_In, filter_In. split; [|done]. apply list_elem_of_In. by eapply list_elem_of_lookup_2. }
    apply list_elem_of_lookup in Hin as [n Hn]. destruct (Forall2_lookup_r _ _ _ _ _ Hback Hn) as (a & Ha & Hr).
    pose proof (Forall_lookup_1 _ _ _ _ Hends Ha) as Hend.
    destruct a; cbn in Hr; [by destruct Hr as (? & ? & _)|by injection Hr as -> ->|done|by destruct Hr as (? & ? & _)].
  - unfold image_grants, built_grants. rewrite (entries_give _ es) by done. by eapply reads_back_build.
Qed.

(** C5: What the build tool was told limits what a process may ask for, at any time: when the kernel
    has started from an image that the tool wrote, then after every history of traps a process
    other than the kernel passes the test for a restricted call only if the last
    [SyscallPermission] for its id names the call, and the test for an address only if it lies in
    the RAM or in a region of the [MemoryPermission]s for its id.  These are the tests that the
    system calls and the transfer of a page to an owner make ([may_call], [may_map]).  It says
    nothing of pages that are mapped without passing the test: mirrored ones, and a page of a
    device that another process sends, which stays mapped where it came though it is refused.
    The image has at most 1024 arguments and less than 4 GiB, and its arguments leave sixteen
    bytes free in their last page ([clear_of_page_end]). *)
Theorem image_limits_processes crc16 args total placed image regions shared_peripherals usage utf8 parse_elf rand canary
    user_memory name_addr call_memory random debug_output call_rand call_canary uart_irq uart_arg icm_irq kernel_text owners maps tid k0 k pid :
  Forall wf_argument args -> args <> [] -> (length args <= 1024)%nat -> clear_of_page_end args ->
  finalize args = Some (total, placed) -> total < 2 ^ 32 -> write_image crc16 args = Some image ->
  Forall built_regions_end args ->
  init regions shared_peripherals usage utf8 parse_elf rand canary user_memory name_addr call_memory random debug_output
    call_rand call_canary uart_irq uart_arg icm_irq kernel_text owners image (kernel_static maps tid) = (k0, Done tt) ->
  rtc (live_step regions shared_peripherals) k0 k -> pid <> 1 ->
  (forall number, may_call k pid number = true -> Z.land (built_grants args pid).1 (Z.shiftl 1 number) <> 0)
  /\ (forall addr, 0 <= addr -> may_map k pid addr = true ->
        is_ram addr = true \/ exists r, r ∈ (built_grants args pid).2 /\ r_start r <= addr < r_end r).
Proof.
  intros Hwf Hne Hlen Hclear Hf Ht Hw Hends E Hrun Hpid.
  destruct (built_image_grants crc16 args total placed image Hwf Hne Hlen Hclear Hf Ht Hw Hends) as (kargs & Ek & Hk & <-).
  pose proof (start_stage _ _ _ _ _ _ _ _ _ _ _ _ _ _ _ _ _ _ _ _ _ _ _ _ Ek Hk E) as [H0 _].
  assert (forall q p, k_processes k0 !! q = Some p -> process_pid p = q) as Hkeys by (intros q p Hq; by destruct (H0 q p Hq)).
  pose proof (no_more_table k0 _ _ k Hkeys Hrun) as Hno.
  split.
  - unfold may_call. intros number. destruct (k_processes k !! pid) as [p|] eqn:Hp; [|done].
    destruct (Hno pid p Hp) as [<- [(p0 & Hp0 & _ & _ & _ & ->)|[-> _]]]; [|by rewrite Z.land_0_l].
    destruct (H0 _ p0 Hp0) as [Epid (_ & _ & -> & _)]. rewrite Epid. intros Hn%negb_true_iff%Z.eqb_neq. done.
  - unfold may_map. intros addr Haddr. destruct (k_processes k !! pid) as [p|] eqn:Hp; [|done].
    destruct (Hno pid p Hp) as [Epid Hcases]. unfold check_memory_permission. rewrite Epid, (proj2 (Z.eqb_neq _ _) Hpid). cbn [orb].
    unfold is_ram. destruct (is_address_in_plaintext_dram addr); [rewrite orb_true_r; by left|].
    destruct (is_address_encrypted addr); [by left|]. cbn [orb]. destruct Hcases as [(p0 & Hp0 & _ & _ & -> & _)|[_ ->]]; [|by rewrite no_regions].
    rewrite Epid in Hp0. destruct (H0 _ p0 Hp0) as [Epid0 (_ & _ & _ & (Hreg & _ & Hall))].
    rewrite Hreg, Epid0, region_permitted_app in * by done. destruct (existsb _ _) eqn:Ex; [|done]. intros _. right.
    apply existsb_exists in Ex as (r & Hr & Hc). exists r. split; [by apply list_elem_of_In|]. unfold range_contains in Hc. lia.
Qed.

(** Process 2 of the board, after the first trap. *)
Lemma image_limits_processes_witness :
  rtc (live_step board_regions []) board_init.1 board_trap.1
  /\ (forall number, may_call board_trap.1 2 number = true -> Z.land 0x30004 (Z.shiftl 1 number) <> 0)
  /\ (forall addr, 0 <= addr -> may_map board_trap.1 2 addr = true ->
        is_ram addr = true \/ exists r, r ∈ [mkMsgRange 0xf8000000 0xf8004000] /\ r_start r <= addr < r_end r).
Proof.
  assert (rtc (live_step board_regions []) board_init.1 board_trap.1) as Hrun.
  { apply rtc_once. apply (LiveTrap board_regions [] 0 0 (fun _ _ => 0) board_sid (fun _ _ => 0) (fun _ => true) board_parser 0 0
      TrapSwi _ _ board_trap.2); [apply surjective_pairing|]. rewrite board_traps. discriminate. }
  split; [exact Hrun|].
  destruct (write_image (fun _ => 0) board_args) as [image|] eqn:Ew; [|by vm_compute in Ew].
  assert (image = board_image) as -> by (unfold board_image; by rewrite Ew).
  destruct (finalize board_args) as [[total placed]|] eqn:Ef; [|by vm_compute in Ef].
  apply (image_limits_processes (fun _ => 0) board_args total placed board_image board_regions [] 0 (fun _ => true) board_parser
    (fun _ => 0) (fun _ => 0) (fun _ _ _ => 0) 0 (fun _ _ => 0) board_sid (fun _ _ => 0) 0 0 0x1000 0 0x2000 0xffd00000
    board_owners board_maps 0 board_init.1 board_trap.1 2).
  - exact board_args_wf.
  - discriminate.
  - cbn. lia.
  - vm_compute. split; [reflexivity|discriminate].
  - exact Ef.
  - vm_compute in Ef. injection Ef as <- _. reflexivity.
  - exact Ew.
  - repeat constructor.
  - exact board_starts.
  - exact Hrun.
  - discriminate.
Defined.
