(* ===== verification/MessageAccess.v ===== *)
(** * Messages that a connection does not permit

    What the kernel does with a message that the connection of the sender does not permit, and
    with the answer of the permission broker: the paths [check_message_permission] and
    [resolve_message_permission] of [xous/kernel/src/syscall.rs] in whole calls.  Until the
    broker agrees nothing of the message reaches the server; the grant is for the message the
    request was made for, and the retried call then passes. *)
From stdpp Require Import fin_maps gmap.
From S2P Require Import Prelude Xous SysCall Permissions Server Scheduler Threads Connections.
From S2P Require Import PermissionRequests Irq Process MemManager PageTable Mapping Memory.
From S2P Require Import Kernel KernelRules Services Syscalls KernelIsolation KernelInvariant.
From S2P Require Import KernelCalls.

Section Calls.
Context (regions : list (Z * Z)) (shared_peripherals : list Z) (usage : Z)
        (user_memory : Z -> Z -> Z) (random : SID) (debug_output : Z -> Z -> Z) (utf8 : list Z -> bool)
        (create_process : ProcessInit -> KS ProcessStartup).
Abbreviation handle := (handle regions shared_peripherals usage user_memory random debug_output utf8 create_process).

(** The connection [cid] of process [pid] leads to the server [h] with [permissions]. *)
Definition connected_to (k : Kernel) (pid cid sidx : Z) (permissions : MessagePermissions) (h : Hosted) : Prop :=
  (exists p r g, k_processes k !! pid = Some p /\ connection (connection_map p) cid = Ok (SlotConnected sidx r g permissions))
  /\ server_at (k_servers k) sidx = Some h.

Lemma connected_eq k pid cid sidx permissions h :
  k_current k = pid -> connected_to k pid cid sidx permissions h -> connected cid k = (k, Done (sidx, permissions)).
Proof.
  intros <- ((p & r & g & Hp & Hc) & _). unfold connected, current_process, process_unwrap, current_pid, st_bind. rewrite Hp.
  unfold st_lift. by rewrite Hc.
Qed.
Lemma server_eq k sidx h : server_at (k_servers k) sidx = Some h -> server_from_sidx sidx k = (k, Done (Some (hosted h))).
Proof. intros H. unfold server_from_sidx. by rewrite H. Qed.

(** The own server, or a permitted message. *)
Lemma check_permitted k tid cid sidx permissions h message may_wait :
  connected_to k (k_current k) cid sidx permissions h ->
  server_pid (hosted h) = k_current k \/ is_permitted permissions (message_id message) = true ->
  check_message_permission tid cid message may_wait k = (k, Done false).
Proof.
  intros Hc Hok. unfold check_message_permission. unfold st_bind at 1. rewrite (connected_eq k _ _ _ _ _ eq_refl Hc).
  unfold st_bind at 1. rewrite (server_eq _ _ h) by apply Hc. unfold ok_or, st_lift. unfold st_bind at 1, st_ret at 1.
  unfold st_bind at 1, current_pid.
  assert ((server_pid (hosted h) =? k_current k) || is_permitted permissions (message_id message) = true) as ->; [|done].
  destruct Hok as [-> | ->]; [by rewrite Z.eqb_refl|apply orb_true_r].
Qed.

End Calls.

(** ** The broadcast to the broker

    Events change servers and threads, not the memory, the requests or the current thread. *)
Definition aside (k : Kernel) := (k_mem k, k_requests k, k_current k, k_tid k).
Lemma aside_lift_server {A} sidx (f : Server -> option (Server * A)) : same aside (lift_server sidx f).
Proof. unfold lift_server, server_expect, put_server. mem_same. Qed.
Lemma aside_set_thread_state pid tid state : same aside (set_thread_state pid tid state).
Proof. unfold set_thread_state, put_process. mem_same. Qed.
Lemma aside_with_contexts pid f : same aside (with_contexts pid f).
Proof. unfold with_contexts. mem_same. Qed.
#[local] Hint Resolve aside_lift_server aside_set_thread_state aside_with_contexts : mem.
Lemma aside_set_thread_result pid tid r : same aside (set_thread_result pid tid r).
Proof. unfold set_thread_result. mem_same. Qed.
Lemma aside_retry pid tid : same aside (retry_syscall_pid pid tid).
Proof. unfold retry_syscall_pid. mem_same. Qed.
#[local] Hint Resolve aside_set_thread_result aside_retry : mem.
Lemma aside_deliver sidx tid m a : same aside (deliver_message sidx tid m a).
Proof. unfold deliver_message, remember_server_message, queue_server_message, server_expect. mem_same. Qed.
#[local] Hint Resolve aside_deliver : mem.
Lemma aside_broadcast e args : same aside (broadcast_event e args).
Proof.
  unfold broadcast_event. generalize (seqZ 1 MAX_PROCESS_COUNT), 0. intros pids.
  induction pids as [|pid pids IH]; intros n; cbn [broadcast_loop]; unfold send_system_event, send_scalar, server_expect; mem_same.
Qed.

(** A thread that is parked stays so while the next thread is chosen. *)
Definition settled_parts (k : Kernel) := (k_mem k, k_requests k, k_servers k, k_processes k).
Lemma activate_parts usage : same settled_parts (activate_current usage).
Proof. unfold activate_current. mem_same. Qed.
Lemma activate_no_error usage k k' e : activate_current usage k <> (k', Fail e).
Proof.
  unfold activate_current. unfold st_bind at 1, st_get. destruct (Scheduler.activate_current _ _ usage) as [[sch next]|]; [|done].
  unfold st_unwrap. unfold st_bind at 1, st_ret at 1. unfold st_bind at 1, st_modify. destruct next; [done|].
  unfold st_bind, process_unwrap. destruct (k_processes _ !! pid); [|done]. unfold st_assert. by destruct (_ <? _).
Qed.

Lemma set_thread_state_no_error pid tid state k k' e : set_thread_state pid tid state k <> (k', Fail e).
Proof.
  unfold set_thread_state, process_unwrap, st_bind at 1. destruct (k_processes k !! pid) as [p|]; [|done].
  unfold st_bind at 1, st_get. by destruct (Process.set_thread_state (k_scheduler k) p (Z.to_nat tid) state) as [[sch p']|].
Qed.
Lemma park_thread_state pid tid state k k' :
  kernel_wf k -> set_thread_state pid tid state k = (k', Done tt) ->
  (k_mem k', k_requests k', k_servers k') = (k_mem k, k_requests k, k_servers k)
  /\ exists p', k_processes k' !! pid = Some p' /\ threads p' !! Z.to_nat tid = Some state.
Proof.
  intros Hk E. unfold set_thread_state, process_unwrap in E. unfold st_bind at 1 in E.
  destruct (k_processes k !! pid) as [p|] eqn:Hp; [|done]. pose proof (process_pid_of _ k _ p Hk Hp) as Hpid.
  unfold st_bind at 1, st_get in E. destruct (Process.set_thread_state _ p _ state) as [[sch p']|] eqn:Es; [|done].
  cbn in E. injection E as <-. split; [done|]. cbn.
  destruct (set_thread_state_Some _ _ _ _ _ _ _ _ (kw_threads _ _ Hk) Hp Es) as [-> _].
  eexists. cbn. rewrite Hpid, lookup_insert_eq. split; [done|]. cbn. apply list_lookup_insert_eq.
  unfold Process.set_thread_state, Process.thread_priority, Process.thread_state in Es.
  destruct (thread_priorities p !! _); [|done]. destruct (threads p !! Z.to_nat tid) eqn:Et; [|done]. by eapply lookup_lt_Some.
Qed.

Section Forbidden.
Context (regions : list (Z * Z)) (shared_peripherals : list Z) (usage : Z)
        (user_memory : Z -> Z -> Z) (random : SID) (debug_output : Z -> Z -> Z) (utf8 : list Z -> bool)
        (create_process : ProcessInit -> KS ProcessStartup).
Abbreviation handle := (handle regions shared_peripherals usage user_memory random debug_output utf8 create_process).

(** The servers after the event for the broker, when the request got the slot [id]. *)
Definition told (k : Kernel) (id : Z) (request : PermissionRequest) : Kernel :=
  (broadcast_event PermissionRequested (mkArgs id 0 0 0) (set_requests (<[Z.to_nat id := Some request]> (k_requests k)) k)).1.

Definition the_request (k : Kernel) (p : Process) (tid cid sidx : Z) (h : Hosted) (message : Message) : PermissionRequest :=
  mkRequest (k_current k) (process_app_id p) tid cid sidx (server_sid (hosted h)) (message_id message) true.

(** The check of a message that is not permitted, up to the park of the thread. *)
Lemma check_forbidden tid cid sidx message permissions p h k :
  connected_to k (k_current k) cid sidx permissions h -> k_processes k !! k_current k = Some p ->
  server_pid (hosted h) <> k_current k -> is_permitted permissions (message_id message) = false ->
  check_message_permission tid cid message false k = (k, Fail AccessDenied)
  /\ check_message_permission tid cid message true k
     = (let '(entries, id) := insert_request (k_requests k) (k_current k) (process_app_id p) tid cid sidx
                               (server_sid (hosted h)) (message_id message) in
        match id with
        | None => (k, Fail KernelTableFull)
        | Some id =>
            let withdraw := st_modify (fun k => set_requests (take_request (k_requests k) id).1 k) in
            (let* delivered := st_try (broadcast_event PermissionRequested (mkArgs id 0 0 0)) in
             match delivered with
             | Err error => let* _ := withdraw in st_fail error
             | Ok delivered =>
                 if delivered =? 0 then let* _ := withdraw in st_fail AccessDenied else
                 let* _ := set_thread_state (k_current k) tid (TRetryPermission id) in
                 st_ret true
             end) (set_requests entries k)
        end).
Proof.
  intros Hc Hp Hpid Hno.
  assert ((server_pid (hosted h) =? k_current k) || is_permitted permissions (message_id message) = false) as Hf.
  { rewrite Hno, orb_false_r. by apply Z.eqb_neq. }
  split; unfold check_message_permission; unfold st_bind at 1; rewrite (connected_eq k _ _ _ _ _ eq_refl Hc);
    unfold st_bind at 1; rewrite (server_eq _ _ h) by apply Hc; unfold ok_or at 1, st_lift at 1;
    unfold st_bind at 1, st_ret at 1; unfold st_bind at 1, current_pid; rewrite Hf; [done|].
  cbn [negb]. unfold current_process, process_unwrap, current_pid. unfold st_bind at 1 2. rewrite Hp.
  unfold st_bind at 1, st_get. by destruct (insert_request _ _ _ _ _ _ _ _) as [entries [id|]].
Qed.

(** The thread is parked on a new request, the broker has been told, and nothing else. *)
Definition waits_for_broker (k : Kernel) (tid : Z) (request : PermissionRequest) (k' : Kernel) : Prop :=
  exists id p',
    0 <= id < 64 /\ k_requests k !! Z.to_nat id = Some None
    /\ k_requests k' = <[Z.to_nat id := Some request]> (k_requests k)
    /\ k_processes k' !! k_current k = Some p' /\ threads p' !! Z.to_nat tid = Some (TRetryPermission id)
    /\ k_mem k' = k_mem k /\ k_servers k' = k_servers (told k id request).
(** No request is left, at most the broker has been told. *)
Definition refused (k : Kernel) (request : PermissionRequest) (k' : Kernel) : Prop :=
  k_requests k' = k_requests k /\ k_mem k' = k_mem k
  /\ (k' = k \/ exists id, k_servers k' = k_servers (told k id request)).

Lemma forbidden_check_safe tid cid sidx message permissions p h k :
  kernel_wf k -> connected_to k (k_current k) cid sidx permissions h -> k_processes k !! k_current k = Some p ->
  server_pid (hosted h) <> k_current k -> is_permitted permissions (message_id message) = false ->
  let request := the_request k p tid cid sidx h message in
  safe (fun parked k' => parked = true /\ waits_for_broker k tid request k') (refused k request)
    (check_message_permission tid cid message true k).
Proof.
  intros Hk Hc Hp Hpid Hno request. destruct (check_forbidden tid cid sidx message permissions p h k Hc Hp Hpid Hno) as [_ ->].
  pose proof (insert_request_spec (k_requests k) (k_current k) (process_app_id p) tid cid sidx
                (server_sid (hosted h)) (message_id message) (kw_requests _ _ Hk)) as Hins.
  destruct (insert_request _ _ _ _ _ _ _ _) as [entries [id|]]; [|split; [done|split; [done|by left]]].
  destruct Hins as (Hid & Hnone & Hentries). change (mkRequest _ _ _ _ _ _ _ _) with request in Hentries.
  assert (kernel_wf (set_requests entries k)) as Hk1.
  { apply wf_set_requests; [done|]. by rewrite Hentries, length_insert. }
  pose proof (keeps_broadcast at_rest PermissionRequested (mkArgs id 0 0 0) _ Hk1) as Hkeep.
  pose proof (aside_broadcast PermissionRequested (mkArgs id 0 0 0) (set_requests entries k)) as Haside.
  assert ((broadcast_event PermissionRequested (mkArgs id 0 0 0) (set_requests entries k)).1 = told k id request) as Htold.
  { unfold told. by rewrite Hentries. }
  unfold st_bind at 1, st_try at 1. destruct (broadcast_event _ _ (set_requests entries k)) as [k2 r].
  cbn [fst] in *. unfold aside in Haside. cbn in Haside. injection Haside as Hmem Hreq Hcur _.
  assert (refused k request (set_requests (take_request (k_requests k2) id).1 k2)) as Hrefused.
  { split; [|split; [exact Hmem|right; exists id; by rewrite <-Htold]]. rewrite Hreq, Hentries. unfold take_request.
    rewrite list_lookup_insert_eq by (by eapply lookup_lt_Some). cbn. rewrite list_insert_insert_eq. by apply list_insert_id. }
  destruct r as [n|e|]; [|exact Hrefused|done]. destruct (n =? 0); [exact Hrefused|].
  unfold st_bind. destruct (set_thread_state _ tid _ k2) as [k3 [[]|e|]] eqn:E3; [| |done].
  - destruct (park_thread_state _ _ _ _ _ Hkeep E3) as [E (p' & Hp' & Ht)]. injection E as Em Er Es.
    split; [done|]. exists id, p'. rewrite Em, Er, Es, <-Htold. split_and!; try done; [lia..|]. by rewrite Hreq.
  - by destruct (set_thread_state_no_error _ _ _ _ _ _ E3).
Qed.

(** C22: A message that the connection does not permit.  [TrySendMessage] fails with [AccessDenied]
    and changes nothing.  [SendMessage] fails - with the table of requests as it was - or parks
    the thread on a request that records who wants to send which message where, in a slot of
    the table that was free.  In each case the memory is as before, and all that reaches a
    server is the event that tells the broker. *)
Theorem forbidden_message_waits tid cid sidx message permissions p h k :
  kernel_wf k -> tid <> IRQ_TID ->
  connected_to k (k_current k) cid sidx permissions h -> k_processes k !! k_current k = Some p ->
  server_pid (hosted h) <> k_current k -> is_permitted permissions (message_id message) = false ->
  handle tid (TrySendMessage cid message) k = (k, Fail AccessDenied)
  /\ let request := the_request k p tid cid sidx h message in
     match handle tid (SendMessage cid message) k with
     | (k', Done _) => waits_for_broker k tid request k'
     | (k', Fail _) => refused k request k'
     | (_, Panic) => True
     end.
Proof.
  intros Hk Htid Hc Hp Hpid Hno. apply Z.eqb_neq in Htid. split.
  - destruct (check_forbidden tid cid sidx message permissions p h k Hc Hp Hpid Hno) as [Htry _].
    unfold Syscalls.handle. rewrite Htid. unfold st_bind. cbn [andb check_syscall_permission st_ret].
    unfold handle_call, handle_memory, handle_messages, current_pid, st_bind. by rewrite Htry.
  - cbv zeta. unfold Syscalls.handle. rewrite Htid.
    pose proof (forbidden_check_safe tid cid sidx message permissions p h k Hk Hc Hp Hpid Hno) as H. cbv zeta in H.
    unfold handle_call, handle_memory, handle_messages, send_message_call. cbn [andb check_syscall_permission].
    unfold st_bind, st_ret, current_pid. destruct (check_message_permission tid cid message true k) as [k1 [b|e|]]; [|done..].
    destruct H as [-> H]. pose proof (activate_parts usage k1) as Hact. pose proof (activate_no_error usage k1) as Hno'.
    destruct (activate_current usage k1) as [k2 [v|e|]]; [|by destruct (Hno' k2 e)|done].
    unfold settled_parts in Hact. cbn in Hact. injection Hact as E1 E2 E3 E4. unfold waits_for_broker. by rewrite E1, E2, E3, E4.
Qed.
End Forbidden.

(** ** The answer of the broker *)

(** Writing the context of a process that is there, and waking its thread. *)
Lemma with_contexts_eq pid f cs k :
  f (default contexts_new (k_contexts k !! pid)) = Some cs ->
  with_contexts pid f k = (set_contexts (<[pid := cs]> (k_contexts k)) k, Done tt).
Proof. intros E. unfold with_contexts, st_bind, st_get. by rewrite E. Qed.
Lemma enter_eq (m : KS unit) pid k k' :
  is_Some (k_processes k !! k_current k) -> is_Some (k_processes k !! pid) -> m k = (k', Done tt) ->
  k_processes k' = k_processes k -> k_current k' = k_current k ->
  (let* current := current_pid in
   if current =? pid then m else
   let* _ := process pid in let* _ := m in let* _ := process_unwrap current in st_ret tt) k = (k', Done tt).
Proof.
  intros [pc Hc] [p Hp] Hm E1 E2. unfold st_bind at 1, current_pid. destruct (_ =? _); [done|].
  unfold st_bind, process, process_unwrap. rewrite Hp, Hm, E1, Hc. done.
Qed.
Lemma wake_eq pid tid p k :
  kernel_wf k -> k_processes k !! pid = Some p -> 0 < tid < MAX_THREAD_COUNT ->
  exists sch, set_thread_state pid tid TReady k
    = (set_processes (<[pid := set_threads p (<[Z.to_nat tid := TReady]> (threads p))]> (k_processes k)) (set_scheduler sch k), Done tt).
Proof.
  intros Hk Hp Htid. destruct (set_thread_state_spec (k_scheduler k) (k_processes k) pid p (Z.to_nat tid) TReady (kw_threads _ _ Hk)) as (sch & E & _).
  - done.
  - unfold THREADS. lia.
  - apply change_allowed_ready. lia.
  - lia.
  - exists sch. unfold set_thread_state, process_unwrap. unfold st_bind at 1. rewrite Hp. unfold st_bind at 1, st_get. rewrite E.
    pose proof (process_pid_of _ k _ p Hk Hp) as Hpid. unfold st_unwrap. unfold st_bind at 1, st_ret. unfold st_bind, st_modify, put_process.
    cbn. by rewrite Hpid.
Qed.

(** What a grant does to the connections, and whether it succeeded. *)
Definition granting (allow : bool) (r : PermissionRequest) (m : ConnectionMap) : ConnectionMap * bool :=
  if allow then
    let '(m, res) := allow_messages m (request_cid r) (mkMsgRange (request_message_id r) (usize (request_message_id r + 1))) in
    (m, is_Ok res)
  else (m, false).

Lemma connection_lookup m cid slot : connection m cid = Ok slot -> exists i, m !! i = Some slot.
Proof.
  unfold connection. destruct (connection_mut m cid) as [[i slot']|] eqn:E; [|done]. cbn. intros [= ->].
  apply connection_mut_Ok in E as [Hi _]. by exists i.
Qed.
Lemma granted_connection r m m' :
  granting true r m = (m', true) -> 0 <= request_message_id r < 2 ^ 32 - 1 ->
  exists sidx rc g rc' g' perms perms',
    connection m (request_cid r) = Ok (SlotConnected sidx rc g perms)
    /\ connection m' (request_cid r) = Ok (SlotConnected sidx rc' g' perms')
    /\ is_permitted perms' (request_message_id r) = true.
Proof.
  unfold granting, allow_messages, connection. intros E Hid.
  destruct (connection_mut m (request_cid r)) as [[i slot]|] eqn:Ec; [|done].
  destruct slot as [|rc g|sidx rc g perms|]; try done.
  destruct (permissions_add perms _) as [perms' [v|]] eqn:Ea; [|done]. cbn in E. injection E as <-.
  exists sidx, rc, g, rc, g, perms, perms'. split; [done|]. split.
  - pose proof Ec as (Hi & g0 & Hu & _)%connection_mut_Ok. unfold connection_mut in *. rewrite Hu in *.
    rewrite Hi in Ec. cbn in Ec. rewrite list_lookup_insert_eq by (by eapply lookup_lt_Some). cbn.
    by destruct (g =? g0).
  - assert (usize (request_message_id r + 1) = request_message_id r + 1) as Eu by (apply usize_id; unfold is_usize; lia).
    rewrite Eu in Ea. eapply permissions_add_grants; [exact Ea|cbn; lia|]. unfold range_contains. cbn. lia.
Qed.

Lemma granting_step allow r m :
  map_step m (granting allow r m).1 /\ targets_in m (granting allow r m).1.
Proof.
  unfold granting. destruct allow; [|split; [constructor|apply targets_refl]].
  pose proof (allow_messages_step m (request_cid r) (mkMsgRange (request_message_id r) (usize (request_message_id r + 1)))) as Hs.
  pose proof (allow_targets m (request_cid r) (mkMsgRange (request_message_id r) (usize (request_message_id r + 1)))) as Ht.
  by destruct (allow_messages _ _ _).
Qed.

(** The state after the grant, or after the decision not to grant. *)
Lemma grant_eq allow r p k :
  kernel_wf k -> k_processes k !! sender_pid r = Some p ->
  let '(m, granted) := granting allow r (connection_map p) in
  let k' := set_processes (<[sender_pid r := set_connections p m]> (k_processes k)) k in
  (if allow then
     let* k := st_get in
     match k_processes k !! sender_pid r with
     | None => st_ret false
     | Some p =>
         let id := request_message_id r in
         let '(m, r) := allow_messages (connection_map p) (request_cid r) (mkMsgRange id (usize (id + 1))) in
         let* _ := put_process (set_connections p m) in st_ret (is_Ok r)
     end
   else st_ret false) k = (k', Done granted) /\ kernel_wf k'.
Proof.
  intros Hk Hp. pose proof (process_pid_of _ k _ p Hk Hp) as Hpid.
  destruct (granting_step allow r (connection_map p)) as [Hs Ht]. destruct (granting allow r (connection_map p)) as [m granted] eqn:Eg.
  cbn [fst] in Hs, Ht. cbv zeta. split.
  - unfold granting in Eg. destruct allow.
    + unfold st_bind at 1, st_get. rewrite Hp. destruct (allow_messages _ _ _) as [m' res]. injection Eg as -> <-.
      unfold st_bind, put_process, st_modify, st_ret. cbn. by rewrite Hpid.
    + injection Eg as <- <-. unfold st_ret. assert (set_connections p (connection_map p) = p) as -> by (by destruct p).
      rewrite insert_id by done. by destruct k.
  - rewrite <-Hpid in Hp. pose proof (connections_step at_rest p m k Hk Hp Hs Ht) as H.
    unfold put_process, st_modify, safe in H. by rewrite <-Hpid.
Qed.

(** The rewound call, or the error as its result. *)
Lemma answer_context (granted : bool) cs tid :
  length cs = THREADS -> 0 < tid < MAX_THREAD_COUNT ->
  exists cs', (if granted then retry_swi_instruction cs tid else set_context_result cs tid (RError AccessDenied)) = Some cs'.
Proof.
  intros Hlen Htid. destruct (lookup_lt_is_Some_2 cs (Z.to_nat tid)) as [t Ht].
  { rewrite Hlen. unfold THREADS. lia. }
  destruct granted; unfold retry_swi_instruction, set_context_result, update_thread; rewrite Ht; by eexists.
Qed.

Lemma answer_eq (granted : bool) pid tid cs' k :
  is_Some (k_processes k !! k_current k) -> is_Some (k_processes k !! pid) ->
  (if granted then retry_swi_instruction (default contexts_new (k_contexts k !! pid)) tid
   else set_context_result (default contexts_new (k_contexts k !! pid)) tid (RError AccessDenied)) = Some cs' ->
  (if granted then retry_syscall_pid pid tid else set_thread_result pid tid (RError AccessDenied)) k
  = (set_contexts (<[pid := cs']> (k_contexts k)) k, Done tt).
Proof.
  intros Hc Hp E. destruct granted; apply enter_eq; try done; by apply with_contexts_eq.
Qed.

(** C23: The broker answers a request whose sender still waits.  The entry of the table is free
    again, the sender runs again and no other process, no server and no memory changes.  A
    grant permits the message on the connection and rewinds the call of the sender, so that it
    is made again - and then its message passes the check; a refusal, or a grant that does not
    fit, makes the call fail with [AccessDenied]. *)
Theorem answer_resumes_sender id allow r p cs k :
  kernel_wf k -> is_Some (k_processes k !! k_current k) ->
  k_requests k !! Z.to_nat id = Some (Some r) -> valid r = true ->
  k_processes k !! sender_pid r = Some p -> 0 < sender_tid r < MAX_THREAD_COUNT ->
  threads p !! Z.to_nat (sender_tid r) = Some (TRetryPermission id) ->
  default contexts_new (k_contexts k !! sender_pid r) = cs -> length cs = THREADS ->
  let tid := sender_tid r in
  let '(m, granted) := granting allow r (connection_map p) in
  exists k' cs', resolve_message_permission id allow k = (k', Done ROk)
    /\ k_requests k' = <[Z.to_nat id := None]> (k_requests k)
    /\ k_mem k' = k_mem k /\ k_servers k' = k_servers k
    /\ k_processes k' = <[sender_pid r := set_threads (set_connections p m) (<[Z.to_nat tid := TReady]> (threads p))]> (k_processes k)
    /\ (if granted then retry_swi_instruction cs tid else set_context_result cs tid (RError AccessDenied)) = Some cs'
    /\ k_contexts k' = <[sender_pid r := cs']> (k_contexts k)
    /\ (granted = true -> forall message may_wait, 0 <= request_message_id r < 2 ^ 32 - 1 ->
         message_id message = request_message_id r ->
         check_message_permission tid (request_cid r) message may_wait (set_current (sender_pid r) tid k')
         = (set_current (sender_pid r) tid k', Done false)).
Proof.
  intros Hk Hcur Hr Hv Hp Htid Ht Hcs Hlen tid.
  set (k1 := set_requests (<[Z.to_nat id := None]> (k_requests k)) k).
  assert (kernel_wf k1) as Hk1 by (by apply wf_set_requests; [|rewrite length_insert]).
  pose proof (grant_eq allow r p k1 Hk1 Hp) as Hgrant. destruct (granting allow r (connection_map p)) as [m granted] eqn:Eg.
  cbv zeta in Hgrant. set (k2 := set_processes (<[sender_pid r := set_connections p m]> (k_processes k1)) k1) in *.
  destruct Hgrant as [Hgrant Hk2]. destruct (answer_context granted cs tid Hlen Htid) as [cs' Hcs'].
  set (k3 := set_contexts (<[sender_pid r := cs']> (k_contexts k2)) k2).
  assert (kernel_wf k3) as Hk3 by (by apply (wf_tables at_rest k2)).
  assert (k_processes k3 !! sender_pid r = Some (set_connections p m)) as Hp3 by (cbn; apply lookup_insert_eq).
  destruct (wake_eq (sender_pid r) tid (set_connections p m) k3 Hk3 Hp3 Htid) as [sch Hwake].
  set (k4 := set_processes _ (set_scheduler sch k3)) in Hwake. exists k4, cs'. split.
  - unfold resolve_message_permission. erewrite run_bind by reflexivity. unfold take_request. rewrite Hr.
    erewrite run_bind by reflexivity. fold k1. rewrite Hv. cbn [negb]. cbv zeta. erewrite run_bind by exact Hgrant.
    erewrite run_bind by (unfold expect_ok, st_try, st_bind, process; cbn; rewrite lookup_insert_eq; reflexivity).
    erewrite run_bind by (unfold Process.thread_state; cbn; rewrite Ht; reflexivity).
    erewrite run_bind by (rewrite bool_decide_eq_true_2; reflexivity).
    erewrite run_bind by (apply answer_eq; [by apply lookup_insert_is_Some'; right|by eexists|cbn; rewrite Hcs; exact Hcs']).
    erewrite run_bind by (unfold process; cbn; rewrite lookup_insert_eq; reflexivity).
    erewrite run_bind by exact Hwake. reflexivity.
  - split_and!; try done; [cbn; by rewrite insert_insert_eq|].
    intros -> message may_wait Hid Hmid. unfold granting in Eg. destruct allow; [|done].
    destruct (granted_connection r (connection_map p) m Eg Hid) as (sidx & rc & g & rc' & g' & perms & perms' & Hc & Hc' & Hperm).
    destruct (kw_connections _ _ Hk _ _ Hp) as [_ Hconn]. apply connection_lookup in Hc as [i Hi].
    destruct (Hconn _ _ _ _ _ Hi) as [[h Hh]|[]].
    eapply (check_permitted _ _ _ sidx perms' h); [|right; by rewrite Hmid]. split; [|exact Hh].
    exists (set_threads (set_connections p m) (<[Z.to_nat tid := TReady]> (threads p))), rc', g'. split; [|exact Hc'].
    cbn. rewrite insert_insert_eq. apply lookup_insert_eq.
Qed.

(** Process 5 is connected to the server of process 1, which permits nothing yet. *)
Definition demo_connected : Kernel := (connect_to_server 5 boot_sid boot_kernel).1.
Lemma demo_connected_wf : kernel_wf demo_connected.
Proof.
  pose proof (keeps_connect at_rest 5 boot_sid boot_kernel boot_kernel_wf) as H. unfold demo_connected.
  assert ((connect_to_server 5 boot_sid boot_kernel).2 = Done 258) as E by (vm_compute; reflexivity).
  destruct (connect_to_server 5 boot_sid boot_kernel) as [k o]. cbn in E. subst o. exact H.
Qed.
Definition demo_message : Message := Scalar (mkScalarMessage 3 10 20 30 40).
Definition demo_call (call : SysCall) : Kernel * outcome Error Result :=
  handle [] [] 0 (fun _ _ => 0) boot_sid (fun _ _ => 0) (fun _ => true) (fun _ => st_fail InternalError) 1 call demo_connected.

Definition demo_client : Process := default boot_idle (k_processes demo_connected !! 5).
Lemma demo_client_eq : k_processes demo_connected !! 5 = Some demo_client. Proof. vm_compute. reflexivity. Qed.
Lemma demo_connection : connected_to demo_connected 5 258 0 MessagePermissions_default (mkHosted boot_server 0x20000000).
Proof.
  split; [|vm_compute; reflexivity]. exists demo_client, 1, 1. split; [exact demo_client_eq|]. vm_compute. reflexivity.
Qed.

Lemma forbidden_message_waits_witness :
  demo_call (TrySendMessage 258 demo_message) = (demo_connected, Fail AccessDenied)
  /\ (demo_call (SendMessage 258 demo_message)).2 = Fail AccessDenied
  /\ refused demo_connected (the_request demo_connected demo_client 1 258 0 (mkHosted boot_server 0x20000000) demo_message)
       (demo_call (SendMessage 258 demo_message)).1.
Proof.
  assert ((demo_call (SendMessage 258 demo_message)).2 = Fail AccessDenied) as E by (vm_compute; reflexivity).
  destruct (forbidden_message_waits [] [] 0 (fun _ _ => 0) boot_sid (fun _ _ => 0) (fun _ => true) (fun _ => st_fail InternalError)
    1 258 0 demo_message MessagePermissions_default demo_client (mkHosted boot_server 0x20000000) demo_connected) as [H1 H2];
    [exact demo_connected_wf|discriminate|exact demo_connection|exact demo_client_eq|discriminate|reflexivity|].
  split; [exact H1|]. split; [exact E|]. fold (demo_call (SendMessage 258 demo_message)) in H2. revert E H2.
  destruct (demo_call (SendMessage 258 demo_message)) as [k [v|e|]]; [discriminate| |discriminate]. intros _ H. exact H.
Defined.

(** Thread 1 of process 5 waits to send the message; the broker grants it. *)
Definition demo_request : PermissionRequest := the_request demo_connected demo_client 1 258 0 (mkHosted boot_server 0x20000000) demo_message.
Definition demo_waiting : Kernel :=
  (set_thread_state 5 1 (TRetryPermission 0) (set_requests (<[0%nat := Some demo_request]> requests_new) demo_connected)).1.
Definition demo_waiting_client : Process := default boot_idle (k_processes demo_waiting !! 5).
Lemma demo_waiting_wf : kernel_wf demo_waiting.
Proof.
  assert (kernel_wf (set_requests (<[0%nat := Some demo_request]> requests_new) demo_connected)) as Hk.
  { apply wf_set_requests; [exact demo_connected_wf|]. rewrite length_insert. symmetry. apply (kw_requests _ _ demo_connected_wf). }
  pose proof (keeps_set_thread_state at_rest 5 1 (TRetryPermission 0) _ Hk) as H. unfold demo_waiting.
  assert ((set_thread_state 5 1 (TRetryPermission 0) (set_requests (<[0%nat := Some demo_request]> requests_new) demo_connected)).2 = Done tt)
    as E by (vm_compute; reflexivity).
  destruct (set_thread_state 5 1 _ _) as [k o]. cbn in E. subst o. exact H.
Qed.

Lemma answer_resumes_sender_witness :
  exists k', resolve_message_permission 0 true demo_waiting = (k', Done ROk)
    /\ check_message_permission 1 258 demo_message false (set_current 5 1 k') = (set_current 5 1 k', Done false).
Proof.
  pose proof (answer_resumes_sender 0 true demo_request demo_waiting_client (default contexts_new (k_contexts demo_waiting !! 5)) demo_waiting demo_waiting_wf) as H.
  destruct (granting true demo_request (connection_map demo_waiting_client)) as [m granted] eqn:Eg.
  assert (granted = true) as Hg.
  { change granted with ((m, granted).2). rewrite <-Eg. vm_compute. reflexivity. }
  destruct H as (k' & cs' & E & _ & _ & _ & _ & _ & _ & Hcheck);
    [eexists; vm_compute; reflexivity|vm_compute; reflexivity|reflexivity|vm_compute; reflexivity
    |unfold MAX_THREAD_COUNT; cbn; lia|vm_compute; reflexivity|reflexivity|vm_compute; reflexivity|].
  exists k'. split; [exact E|]. apply (Hcheck Hg demo_message false); [cbn; lia|reflexivity].
Defined.
