(* ===== verification/Names.v ===== *)
(** * The name server ([xous/names/src/main.rs])

    Processes find servers by name.  The name server knows from manifests which application may
    register a name and which may connect to it with which messages, and asks the kernel for the
    connection.  [NameServer] is its state; [run_message] is one turn of its loop.  The kernel is
    a parameter: what it answers to a call may depend on all calls before ([calls], the newest
    first), which also record the requests that go back to their senders.

    A name is the list of its UTF-8 bytes.  A [HashMap] is a [gmap] and a [HashSet] a [gset]:
    where the code takes the first entry of a map that fits, the order is that of the map. *)
From stdpp Require Import fin_maps gmap sets sorting strings.
From S2P Require Import Prelude Xous SysCall.

Abbreviation Name := (list Z).
#[export] Instance AppId_countable : Countable AppId.
Proof. apply (inj_countable' app_bytes mkAppId). by intros []. Defined.

#[export] Instance result_eq_dec {E A} `{EqDecision E, EqDecision A} : EqDecision (result E A).
Proof. solve_decision. Defined.

(** ** Manifests ([app_manifest], as parsed): maps are lists in the order of their keys *)

Record Manifest : Type := mkManifest {
  mf_app_id : list Z;
  (* messages of a server by name, with their id *)
  servers : list (Name * list (Name * Z));
  fixed_sids : list (Name * list Z);
  permissions : list (Name * list Name)
}.
Definition manifest_app (m : Manifest) : AppId := mkAppId (mf_app_id m).
Definition manifest_server_names (m : Manifest) : gset Name :=
  list_to_set (map fst (servers m) ++ map fst (fixed_sids m)).

(** ** State *)

(** A message with the bytes of its buffer. *)
Record Request : Type := mkRequest { rq_envelope : MessageEnvelope; rq_buf : list Z }.
Definition rq_body (r : Request) : Message := env_body (rq_envelope r).
Definition rq_pid (r : Request) : option Z := MessageSender_pid (env_sender (rq_envelope r)).

Record NameServer : Type := mkNames {
  waiting_connections : list Request;
  name_table : gmap Name SID;
  registered_names_by_pid : gmap Z (gset Name);
  message_name_to_id : gmap (Name * Name) (list Z);
  server_owners : gmap Name AppId;
  register_permissions : gmap AppId (gset Name);
  connect_permissions : gmap AppId (gmap Name (list Z))
}.
Definition NameServer_default : NameServer := mkNames [] ∅ ∅ ∅ ∅ ∅ ∅.
Definition set_waiting (l : list Request) (s : NameServer) : NameServer :=
  mkNames l (name_table s) (registered_names_by_pid s) (message_name_to_id s) (server_owners s) (register_permissions s) (connect_permissions s).
Definition set_names (t : gmap Name SID) (r : gmap Z (gset Name)) (s : NameServer) : NameServer :=
  mkNames (waiting_connections s) t r (message_name_to_id s) (server_owners s) (register_permissions s) (connect_permissions s).
Definition set_connect (c : gmap AppId (gmap Name (list Z))) (s : NameServer) : NameServer :=
  mkNames (waiting_connections s) (name_table s) (registered_names_by_pid s) (message_name_to_id s) (server_owners s) (register_permissions s) c.

(** ** Manifests *)

Definition owned_names (s : NameServer) (app_id : AppId) : gset Name :=
  dom (filter (fun '(_, owner) => owner = app_id) (server_owners s)).

(** A name of another application, or one that is in use and belongs to nobody. *)
Definition name_collides (s : NameServer) (app_id : AppId) (name : Name) : bool :=
  let owner := server_owners s !! name in
  match owner with Some o => negb (bool_decide (o = app_id)) | None => false end
  || (bool_decide (is_Some (name_table s !! name)) && negb (bool_decide (owner = Some app_id))).
Definition reject_server_name_collisions (s : NameServer) (app_id : AppId) (names : gset Name) : result Error unit :=
  if existsb (name_collides s app_id) (elements names) then Err MemoryInUse else Ok tt.

Definition insert_messages (server : Name) (messages : list (Name * Z)) (t : gmap (Name * Name) (list Z)) : gmap (Name * Name) (list Z) :=
  fold_left (fun t '(message, id) => <[(server, message) := [id]]> t) messages t.
Definition insert_fixed_sids (l : list (Name * list Z)) (t : gmap Name SID) : gmap Name SID :=
  fold_left (fun t '(name, bytes) => match SID_from_bytes bytes with Some sid => <[name := sid]> t | None => t end) l t.

Definition process_manifest_servers (s : NameServer) (m : Manifest) : result Error NameServer :=
  let app_id := manifest_app m in
  let server_names := manifest_server_names m in
  let? _ := reject_server_name_collisions s app_id server_names in
  let previously_owned_names := owned_names s app_id in
  let replace_message_names := previously_owned_names ∪ server_names in
  let messages := filter (fun '((server, _), _) => server ∉ replace_message_names) (message_name_to_id s) in
  let owners := filter (fun '(name, _) => name ∉ previously_owned_names ∖ server_names) (server_owners s) in
  let owners := gset_to_gmap app_id server_names ∪ owners in
  let app_register_permissions := list_to_set (map fst (servers m)) in
  let messages := fold_left (fun t '(server, l) => insert_messages server l t) (servers m) messages in
  Ok (mkNames (waiting_connections s) (insert_fixed_sids (fixed_sids m) (name_table s)) (registered_names_by_pid s)
        messages owners (<[app_id := app_register_permissions]> (register_permissions s)) (connect_permissions s)).

(** The ids of messages of a server, by name. *)
Fixpoint message_ids (s : NameServer) (server : Name) (messages : list Name) (ids : list Z) : result Error (list Z) :=
  match messages with
  | [] => Ok ids
  | message :: messages =>
      match message_name_to_id s !! (server, message) with
      | None => Err ServerNotFound
      | Some message_id => message_ids s server messages (ids ++ message_id)
      end
  end.
Fixpoint manifest_permissions (s : NameServer) (l : list (Name * list Name)) (p : gmap Name (list Z)) : result Error (gmap Name (list Z)) :=
  match l with
  | [] => Ok p
  | (server, messages) :: l =>
      let? ids := message_ids s server messages (default [] (p !! server)) in
      manifest_permissions s l (<[server := merge_sort Z.le ids]> p)
  end.
Definition process_manifest_permissions (s : NameServer) (m : Manifest) : result Error NameServer :=
  let? p := manifest_permissions s (permissions m) ∅ in
  Ok (set_connect (<[manifest_app m := p]> (connect_permissions s)) s).

(** Both on a copy, which replaces the state when they succeed. *)
Definition process_manifest_update (s : NameServer) (m : Manifest) : result Error NameServer :=
  let? staged := process_manifest_servers (set_waiting [] s) m in
  let? staged := process_manifest_permissions staged m in
  Ok (mkNames (waiting_connections s) (name_table staged) (registered_names_by_pid s) (message_name_to_id staged)
        (server_owners staged) (register_permissions staged) (connect_permissions staged)).

Definition registered_names (s : NameServer) : gset Name := map_fold (fun _ names acc => names ∪ acc) ∅ (registered_names_by_pid s).
Definition remove_manifest (s : NameServer) (app_id : AppId) : NameServer :=
  let owned := owned_names s app_id in
  mkNames (waiting_connections s) (filter (fun '(name, _) => name ∉ owned ∖ registered_names s) (name_table s)) (registered_names_by_pid s)
    (filter (fun '((server, _), _) => server ∉ owned) (message_name_to_id s))
    (filter (fun '(_, owner) => owner <> app_id) (server_owners s))
    (delete app_id (register_permissions s)) (delete app_id (connect_permissions s)).

Fixpoint all_servers (s : NameServer) (l : list Manifest) : option NameServer :=
  match l with [] => Some s | m :: l => match process_manifest_servers s m with Ok s => all_servers s l | Err _ => None end end.
Fixpoint all_permissions (s : NameServer) (l : list Manifest) : option NameServer :=
  match l with [] => Some s | m :: l => match process_manifest_permissions s m with Ok s => all_permissions s l | Err _ => None end end.
Definition process_system_manifests (s : NameServer) (l : list Manifest) : option NameServer :=
  let! s := all_servers s l in all_permissions s l.

Definition unregister_pid (s : NameServer) (pid : Z) : NameServer :=
  match registered_names_by_pid s !! pid with
  | Some names => set_names (filter (fun '(name, _) => name ∉ names) (name_table s)) (delete pid (registered_names_by_pid s)) s
  | None => s
  end.

(** ** Requests *)

Definition NAME_MAX_LENGTH : Z := 64.
Inductive Opcode : Type := Register | AddManifest | RemoveManifest | LookupNameBySid | BlockingConnect | TryConnect.
Definition Opcode_from_usize (n : Z) : option Opcode :=
  match n with
  | 0 => Some Register | 1 => Some AddManifest | 2 => Some RemoveManifest | 3 => Some LookupNameBySid
  | 6 => Some BlockingConnect | 7 => Some TryConnect | _ => None
  end.
Definition PROCESS_DISCONNECTED_MESSAGE_ID : Z := 8.

(** Words of a buffer, [as_slice::<u32>()]. *)
Definition buf_len (r : Request) : Z := Z.of_nat (length (rq_buf r)).
Definition buf_word (buf : list Z) (i : nat) : option Z :=
  match drop (4 * i) buf with b0 :: b1 :: b2 :: b3 :: _ => Some (u32_from_le_bytes b0 b1 b2 b3) | _ => None end.
Definition set_buf_word (i : nat) (v : Z) (buf : list Z) : option (list Z) :=
  if decide (4 * i + 4 <= length buf)%nat then Some (take (4 * i) buf ++ u32_to_le_bytes v ++ drop (4 * i + 4) buf) else None.

Definition sid_from_msg (r : Request) : result Error SID :=
  match memory_message (rq_body r) with
  | None => Err InvalidArguments
  | Some _ =>
      match buf_word (rq_buf r) 0, buf_word (rq_buf r) 1, buf_word (rq_buf r) 2, buf_word (rq_buf r) 3 with
      | Some a, Some b, Some c, Some d => Ok (SID_from_u32 a b c d)
      | _, _, _, _ => Err InvalidArguments
      end
  end.

(** The name of the name server itself. *)
Definition nameserver : Name := map (fun c => Z.of_N (Ascii.N_of_ascii c)) (String.list_ascii_of_string "os/nameserver"%string).

Section Kernel.
Context (utf8 : list Z -> bool) (parse_manifest : list Z -> option Manifest).

Definition name_from_msg (r : Request) (offset : Z) : result Error Name :=
  match memory_message (rq_body r) with
  | None => Err InvalidArguments
  | Some m =>
      match mm_valid m with
      | None => Err InvalidString
      | Some valid =>
          if NAME_MAX_LENGTH <? valid then Err InvalidString else
          match checked_add offset valid with
          | None => Err InvalidString
          | Some stop =>
              if stop <=? buf_len r then
                let name := take (Z.to_nat valid) (drop (Z.to_nat offset) (rq_buf r)) in
                if utf8 name then Ok name else Err InvalidString
              else Err InvalidString
          end
      end
  end.

(** ** The kernel *)

Inductive Call : Type :=
| GetAppId (pid : Z) (answer : result Error (option AppId))
| GetServerOwner (sid : SID) (answer : result Error Z)
| ConnectForProcess (pid : Z) (sid : SID) (answer : result Error Z)
| AllowMessages (pid cid first last : Z) (answer : result Error unit)
| ReturnScalar (sender : MessageSender) (value : Z) (answer : result Error unit)
| Dropped (r : Request).
Record KernelAnswers : Type := mkAnswers {
  ka_app_id : list Call -> Z -> result Error (option AppId);
  ka_server_owner : list Call -> SID -> result Error Z;
  ka_connect : list Call -> Z -> SID -> result Error Z;
  ka_allow : list Call -> Z -> Z -> Z -> result Error unit;
  ka_return : list Call -> MessageSender -> result Error unit
}.
Context (kernel : KernelAnswers).

Record World : Type := mkWorld { ns : NameServer; calls : list Call }.
Abbreviation N := (state World Error).
Definition call (c : Call) : N unit := st_modify (fun w => mkWorld (ns w) (c :: calls w)).
Definition with_ns (f : NameServer -> NameServer) : N unit := st_modify (fun w => mkWorld (f (ns w)) (calls w)).
Definition get_app_id (pid : Z) : N (option AppId) :=
  let* w := st_get in
  let answer := ka_app_id kernel (calls w) pid in let* _ := call (GetAppId pid answer) in st_lift answer.
Definition get_server_owner (sid : SID) : N (result Error Z) :=
  let* w := st_get in
  let answer := ka_server_owner kernel (calls w) sid in let* _ := call (GetServerOwner sid answer) in st_ret answer.
Definition connect_for_process (pid : Z) (sid : SID) : N Z :=
  let* w := st_get in
  let answer := ka_connect kernel (calls w) pid sid in let* _ := call (ConnectForProcess pid sid answer) in st_lift answer.
Definition allow_messages_on_connection (pid cid first last : Z) : N (result Error unit) :=
  let* w := st_get in
  let answer := ka_allow kernel (calls w) pid cid first in let* _ := call (AllowMessages pid cid first last answer) in st_ret answer.
Definition return_scalar (sender : MessageSender) (value : Z) : N (result Error unit) :=
  let* w := st_get in
  let answer := ka_return kernel (calls w) sender in let* _ := call (ReturnScalar sender value answer) in st_ret answer.
(** The end of an envelope: memory goes back to its sender. *)
Definition drop_request (r : Request) : N unit := call (Dropped r).

Definition some_or {A} (o : option A) (e : Error) : N A := match o with Some a => st_ret a | None => st_fail e end.
(** [xous::get_app_id(msg.sender.pid().ok_or(..)?)?.ok_or(..)?]. *)
Definition sender_app (r : Request) : N AppId :=
  let* pid := some_or (rq_pid r) ProcessNotFound in
  let* app := get_app_id pid in
  some_or app ProcessNotFound.

(** ** Replies *)

(** [memory_message_mut]: a buffer that is lent for reading cannot be written. *)
Definition is_mutable (m : Message) : bool :=
  match m with MutableBorrow _ | Move _ | BlockingMove _ => true | _ => false end.
Definition set_message (m : MemoryMessage) (msg : Message) : Message :=
  match msg with
  | MutableBorrow _ => MutableBorrow m | Borrow _ => Borrow m | Move _ => Move m | BlockingMove _ => BlockingMove m
  | Scalar s => Scalar s | BlockingScalar s => BlockingScalar s
  end.
Definition answered (r : Request) (buf : list Z) (valid : option Z) : option Request :=
  if is_mutable (rq_body r) then
    let! m := memory_message (rq_body r) in
    Some (mkRequest (mkEnvelope (env_sender (rq_envelope r)) (set_message (mkMemoryMessage (mm_id m) (mm_buf m) None valid) (rq_body r))) buf)
  else None.
Definition error_reply (r : Request) (error : Error) : option Request :=
  let! buf := set_buf_word 0 1 (rq_buf r) in let! buf := set_buf_word 1 (Error_to_usize error) buf in answered r buf None.
Definition connect_reply (r : Request) (cid : Z) : option Request :=
  let! buf := set_buf_word 0 0 (rq_buf r) in let! buf := set_buf_word 1 cid buf in answered r buf None.
Definition name_reply (r : Request) (name : Name) : option Request :=
  if decide (length name <= length (rq_buf r))%nat
  then answered r (name ++ drop (length name) (rq_buf r)) (nonzero_new (Z.of_nat (length name)))
  else error_reply r InvalidArguments.
Definition success_reply (r : Request) : option Request :=
  let! buf := set_buf_word 0 0 (rq_buf r) in answered r buf None.
Definition respond (reply : option Request) : N unit := let* r := st_unwrap reply in drop_request r.
Definition respond_error (r : Request) (error : Error) : N unit := respond (error_reply r error).
Definition respond_connect_success (r : Request) (cid : Z) : N unit := respond (connect_reply r cid).
Definition respond_name (r : Request) (name : Name) : N unit := respond (name_reply r name).
Definition respond_simple_success (r : Request) : N unit := respond (success_reply r).

(** ** Connections and names *)

Inductive ConnectSuccess : Type := Connected (cid : Z) | Wait.
(** The messages an application may send to a server it may connect to. *)
Definition connection_permissions (s : NameServer) (app_id : AppId) (name : Name) : option (list Z) :=
  match default ∅ (connect_permissions s !! app_id) !! name with
  | Some l => Some l
  | None =>
      let! names := register_permissions s !! app_id in
      if decide (name ∈ names) then Some [] else None
  end.
Fixpoint allow_each (pid cid : Z) (l : list Z) : N unit :=
  match l with
  | [] => st_ret tt
  | permission :: l => let* _ := allow_messages_on_connection pid cid permission (u32 (permission + 1)) in allow_each pid cid l
  end.
Definition connect_impl (r : Request) : N ConnectSuccess :=
  let* app_id := sender_app r in
  let* server_name := st_lift (name_from_msg r 0) in
  let* sender_pid := st_unwrap (rq_pid r) in
  let* w := st_get in
  match name_table (ns w) !! server_name with
  | Some server_sid =>
      let* l := some_or (connection_permissions (ns w) app_id server_name) AccessDenied in
      let* connection_id := connect_for_process sender_pid server_sid in
      let* _ := allow_each sender_pid connection_id l in
      st_ret (Connected connection_id)
  | None => st_ret Wait
  end.

Definition register_impl (r : Request) : N Name :=
  let* sid := st_lift (sid_from_msg r) in
  let* server_name := st_lift (name_from_msg r 16) in
  let* pid := some_or (rq_pid r) ProcessNotFound in
  let* app := get_app_id pid in
  let* app_id := some_or app ProcessNotFound in
  let* w := st_get in
  let* names := some_or (register_permissions (ns w) !! app_id) AccessDenied in
  if negb (bool_decide (server_name ∈ names)) then st_fail AccessDenied else
  let* owner := get_server_owner sid in
  if negb (bool_decide (owner = Ok pid)) then st_fail AccessDenied else
  if decide (is_Some (name_table (ns w) !! server_name)) then st_fail MemoryInUse else
  let* _ := with_ns (fun s => set_names (<[server_name := sid]> (name_table s))
    (<[pid := {[server_name]} ∪ default ∅ (registered_names_by_pid s !! pid)]> (registered_names_by_pid s)) s) in
  st_ret server_name.

Definition lookup_name_by_sid_impl (r : Request) : N Name :=
  let* sid := st_lift (sid_from_msg r) in
  let* w := st_get in
  some_or (fst <$> List.find (fun '(_, table_sid) => bool_decide (table_sid = sid)) (map_to_list (name_table (ns w)))) ServerNotFound.

(** [Vec::swap_remove]. *)
Definition swap_remove (i : nat) (l : list Request) : list Request :=
  match List.rev l with
  | [] => []
  | last :: rest => if decide (i = length rest) then List.rev rest else <[i := last]> (List.rev rest)
  end.
(** The answer to a request for a connection. *)
Definition respond_connect (r : Request) (answer : result Error ConnectSuccess) (wait : N unit) : N unit :=
  match answer with
  | Err e => respond_error r e
  | Ok (Connected cid) => respond_connect_success r cid
  | Ok Wait => wait
  end.
Fixpoint wake_from (fuel : nat) (server_name : Name) (i : nat) : N unit :=
  let* w := st_get in
  match waiting_connections (ns w) !! i with
  | None => st_ret tt
  | Some r =>
      match fuel with
      | O => st_panic
      | S fuel =>
          if decide (name_from_msg r 0 = Ok server_name) then
            let* _ := with_ns (fun s => set_waiting (swap_remove i (waiting_connections s)) s) in
            let* answer := st_try (connect_impl r) in
            let* _ := respond_connect r answer st_panic in
            wake_from fuel server_name i
          else wake_from fuel server_name (S i)
      end
  end.
Definition wake_waiting_connections (server_name : Name) : N unit :=
  let* w := st_get in wake_from (length (waiting_connections (ns w))) server_name 0.

(** ** Manifests of applications *)

(** The sender may send [op] to the name server itself, ["os/nameserver"]. *)
Definition check_manifest_permission (r : Request) (op : Z) : N unit :=
  let* app_id := sender_app r in
  let* w := st_get in
  let* names := some_or (connect_permissions (ns w) !! app_id) AccessDenied in
  let* l := some_or (names !! nameserver) AccessDenied in
  if decide (op ∈ l) then st_ret tt else st_fail AccessDenied.
Definition valid_bytes (r : Request) : N Z :=
  let* m := some_or (memory_message (rq_body r)) InvalidArguments in some_or (mm_valid m) InvalidArguments.
Definition add_manifest_impl (r : Request) : N unit :=
  let* _ := check_manifest_permission r 1 in
  let* valid := valid_bytes r in
  if buf_len r <? valid then st_fail InvalidArguments else
  let* manifest := some_or (parse_manifest (take (Z.to_nat valid) (rq_buf r))) ParseError in
  if decide (fixed_sids manifest <> []) then st_fail AccessDenied else
  let* w := st_get in
  let* s := st_lift (process_manifest_update (ns w) manifest) in
  with_ns (fun _ => s).
Definition remove_manifest_impl (r : Request) : N unit :=
  let* _ := check_manifest_permission r 2 in
  let* valid := valid_bytes r in
  if negb (valid =? Z.of_nat APP_ID_SIZE) || (buf_len r <? valid) then st_fail InvalidArguments else
  with_ns (fun s => remove_manifest s (mkAppId (take (Z.to_nat valid) (rq_buf r)))).

(** ** The loop *)

Definition answer_with (r : Request) (m : N unit) : N unit :=
  let* answer := st_try m in
  match answer with Ok _ => respond_simple_success r | Err e => respond_error r e end.
Definition run_message (r : Request) : N unit :=
  if message_id (rq_body r) =? PROCESS_DISCONNECTED_MESSAGE_ID then
    let* _ := match rq_pid r with Some pid => with_ns (fun s => unregister_pid s pid) | None => st_ret tt end in drop_request r
  else if negb (is_blocking (rq_body r)) then drop_request r
  else if negb (has_memory (rq_body r)) then
    let* answer := return_scalar (env_sender (rq_envelope r)) 0 in
    match answer with Ok _ => drop_request r | Err _ => st_panic end
  else match Opcode_from_usize (message_id (rq_body r)) with
  | Some Register =>
      let* answer := st_try (register_impl r) in
      match answer with
      | Ok name => let* _ := respond_simple_success r in wake_waiting_connections name
      | Err e => respond_error r e
      end
  | Some BlockingConnect =>
      let* answer := st_try (connect_impl r) in
      respond_connect r answer (with_ns (fun s => set_waiting (waiting_connections s ++ [r]) s))
  | Some TryConnect =>
      let* answer := st_try (connect_impl r) in respond_connect r answer (respond_error r ServerNotFound)
  | Some AddManifest => answer_with r (add_manifest_impl r)
  | Some RemoveManifest => answer_with r (remove_manifest_impl r)
  | Some LookupNameBySid =>
      let* answer := st_try (lookup_name_by_sid_impl r) in
      match answer with Ok name => respond_name r name | Err e => respond_error r e end
  | None => drop_request r
  end.
Fixpoint run (l : list Request) : N unit :=
  match l with [] => st_ret tt | r :: l => let* _ := run_message r in run l end.
End Kernel.
