(* ===== verification/NamesRules.v ===== *)
(** * What the name server guarantees

    The tables agree through any history; a name is bound to a server only by a process of the
    application that owns it and never bound anew while it is in use; the kernel is asked for
    connections only as the manifests permit; a manifest is taken as a whole or not at all; and
    a registration answers all who wait for the name. *)
From stdpp Require Import fin_maps gmap sets sorting.
From S2P Require Import Prelude Xous SysCall Names.

(** ** The tables *)

Record names_wf (s : NameServer) : Prop := {
  nw_bound pid names name : registered_names_by_pid s !! pid = Some names -> name ∈ names -> is_Some (name_table s !! name);
  nw_apart pid pid' names names' name :
    registered_names_by_pid s !! pid = Some names -> registered_names_by_pid s !! pid' = Some names' ->
    name ∈ names -> name ∈ names' -> pid = pid';
  nw_owner app names name : register_permissions s !! app = Some names -> name ∈ names -> server_owners s !! name = Some app;
  nw_messages server message ids : message_name_to_id s !! (server, message) = Some ids -> is_Some (server_owners s !! server)
}.
Lemma names_wf_default : names_wf NameServer_default.
Proof. split; cbn; intros *; by rewrite lookup_empty. Qed.

Lemma owned_names_spec s app name : name ∈ owned_names s app <-> server_owners s !! name = Some app.
Proof.
  unfold owned_names. rewrite elem_of_dom. unfold is_Some. setoid_rewrite map_lookup_filter_Some. naive_solver.
Qed.
Lemma manifest_server_names_spec m name :
  name ∈ manifest_server_names m <-> name ∈ map fst (servers m) \/ name ∈ map fst (fixed_sids m).
Proof. unfold manifest_server_names. by rewrite elem_of_list_to_set, elem_of_app. Qed.
Lemma reject_ok s app names name :
  reject_server_name_collisions s app names = Ok tt -> name ∈ names -> server_owners s !! name = None \/ server_owners s !! name = Some app.
Proof.
  unfold reject_server_name_collisions. destruct (existsb _ _) eqn:E; [done|]. intros _ Hin.
  destruct (server_owners s !! name) as [o|] eqn:Eo; [|by left]. right. destruct (decide (o = app)) as [->|Hne]; [done|].
  assert (existsb (name_collides s app) (elements names) = true) as Ht; [|congruence].
  apply existsb_exists. exists name. split; [by apply list_elem_of_In, elem_of_elements|]. unfold name_collides. rewrite Eo.
  rewrite (bool_decide_eq_false_2 (o = app)) by done. done.
Qed.
Lemma insert_fixed_mono l t name : is_Some (t !! name) -> is_Some (insert_fixed_sids l t !! name).
Proof.
  unfold insert_fixed_sids. revert t. induction l as [|[n bytes] l IH]; intros t H; [done|]. cbn [fold_left]. apply IH.
  destruct (SID_from_bytes bytes) as [sid|]; [|done]. destruct (decide (n = name)) as [->|]; [rewrite lookup_insert_eq; eauto|by rewrite lookup_insert_ne].
Qed.
Lemma insert_messages_spec server l t sv msg :
  insert_messages server l t !! (sv, msg)
  = if decide (sv = server) then match List.find (fun '(n, _) => bool_decide (n = msg)) (List.rev l) with Some (_, id) => Some [id] | None => t !! (sv, msg) end
    else t !! (sv, msg).
Proof.
  unfold insert_messages. revert t. induction l as [|[n id] l IH] using rev_ind; intros t; cbn [fold_left List.rev List.find]; [by case_decide|].
  rewrite fold_left_app. cbn [fold_left]. rewrite rev_app_distr. cbn [List.rev app List.find].
  destruct (decide ((server, n) = (sv, msg))) as [[= <- <-]|Hne].
  - rewrite lookup_insert_eq, decide_True by done. by rewrite bool_decide_eq_true_2.
  - rewrite lookup_insert_ne by done. rewrite IH. case_decide as Hs; [|done]. rewrite bool_decide_eq_false_2; [done|]. congruence.
Qed.
Lemma insert_all_messages_old l t sv msg :
  sv ∉ map fst l -> fold_left (fun t '(server, l) => insert_messages server l t) l t !! (sv, msg) = t !! (sv, msg).
Proof.
  revert t. induction l as [|[server l'] l IH]; intros t Hn; [done|]. cbn in Hn |- *. rewrite not_elem_of_cons in Hn. destruct Hn as [Hne Hn].
  rewrite IH by done. rewrite insert_messages_spec. by rewrite decide_False by congruence.
Qed.

(** The owners after a manifest. *)
Lemma owners_after s m name :
  let owners := gset_to_gmap (manifest_app m) (manifest_server_names m)
    ∪ filter (fun '(name, _) => name ∉ owned_names s (manifest_app m) ∖ manifest_server_names m) (server_owners s) in
  owners !! name = if decide (name ∈ manifest_server_names m) then Some (manifest_app m)
                   else if decide (server_owners s !! name = Some (manifest_app m)) then None else server_owners s !! name.
Proof.
  cbv zeta. rewrite lookup_union, lookup_gset_to_gmap. case_decide as Hin.
  - rewrite option_guard_True by done. by destruct (filter _ _ !! name).
  - rewrite option_guard_False by done. assert (forall o : option AppId, None ∪ o = o) as -> by (by intros []). rewrite map_lookup_filter.
    destruct (server_owners s !! name) as [o|] eqn:Eo; [|by case_decide]. cbn. case_decide as Hown.
    + rewrite option_guard_False; [done|]. intros H. apply H. apply elem_of_difference. split; [|done]. apply owned_names_spec. congruence.
    + rewrite option_guard_True; [done|]. intros [Ho%owned_names_spec _]%elem_of_difference. congruence.
Qed.

Lemma servers_wf s m s' : names_wf s -> process_manifest_servers s m = Ok s' -> names_wf s'.
Proof.
  intros [H1 H2 H3 H4]. unfold process_manifest_servers. destruct (reject_server_name_collisions _ _ _) as [[]|] eqn:E; [|done].
  intros [= <-]. pose proof (owners_after s m) as Hown. cbv zeta in Hown. split; cbn.
  - intros pid names name Hr Hin. by apply insert_fixed_mono, (H1 pid names).
  - exact H2.
  - intros app names name. destruct (decide (app = manifest_app m)) as [->|Hne].
    + rewrite lookup_insert_eq. intros [= <-] Hin%elem_of_list_to_set. rewrite Hown, decide_True; [done|].
      apply manifest_server_names_spec. by left.
    + rewrite lookup_insert_ne by done. intros Hr Hin. pose proof (H3 app names name Hr Hin) as Ho. rewrite Hown. case_decide as Hn.
      * destruct (reject_ok _ _ _ _ E Hn); congruence.
      * rewrite decide_False by congruence. done.
  - intros server message ids Hm. rewrite Hown. case_decide as Hn; [eauto|].
    rewrite insert_all_messages_old in Hm by (intros Hin; apply Hn, manifest_server_names_spec; by left).
    apply map_lookup_filter_Some in Hm as [Hm Hrep]. apply not_elem_of_union in Hrep as [Hprev _].
    rewrite decide_False; [by eapply H4|]. intros Ho. by apply Hprev, owned_names_spec.
Qed.
Lemma permissions_wf s m s' : names_wf s -> process_manifest_permissions s m = Ok s' -> names_wf s'.
Proof.
  intros [H1 H2 H3 H4]. unfold process_manifest_permissions. destruct (manifest_permissions _ _ _); [|done]. intros [= <-]. by split.
Qed.
Lemma waiting_wf l s : names_wf s -> names_wf (set_waiting l s).
Proof. intros [H1 H2 H3 H4]. by split. Qed.
Lemma update_wf s m s' : names_wf s -> process_manifest_update s m = Ok s' -> names_wf s'.
Proof.
  intros Hs. unfold process_manifest_update. destruct (process_manifest_servers _ m) as [s1|] eqn:E1; [|done].
  destruct (process_manifest_permissions s1 m) as [s2|] eqn:E2; [|done]. intros [= <-].
  pose proof (permissions_wf _ _ _ (servers_wf _ _ _ (waiting_wf [] s Hs) E1) E2) as [H1 H2 H3 H4].
  assert (registered_names_by_pid s2 = registered_names_by_pid s) as Er.
  { unfold process_manifest_permissions in E2. destruct (manifest_permissions _ _ _); [|done]. injection E2 as <-. cbn.
    unfold process_manifest_servers in E1. destruct (reject_server_name_collisions _ _ _); [|done]. by injection E1 as <-. }
  rewrite Er in *. by split.
Qed.
Lemma registered_names_spec s name :
  name ∈ registered_names s <-> exists pid names, registered_names_by_pid s !! pid = Some names /\ name ∈ names.
Proof.
  unfold registered_names. apply (map_fold_weak_ind (fun acc (m : gmap Z (gset Name)) => name ∈ acc <-> exists pid names, m !! pid = Some names /\ name ∈ names)).
  - split; [set_solver|]. intros (pid & names & H & _). by rewrite lookup_empty in H.
  - intros pid names m acc Hnone IH. rewrite elem_of_union, IH. split.
    + intros [Hin|(pid' & names' & H & Hin)]; [exists pid, names; by rewrite lookup_insert_eq|].
      exists pid', names'. rewrite lookup_insert_ne by congruence. done.
    + intros (pid' & names' & H & Hin). apply lookup_insert_Some in H as [[_ ->]|[_ H]]; [by left|right; eauto].
Qed.
Lemma remove_wf s app : names_wf s -> names_wf (remove_manifest s app).
Proof.
  intros [H1 H2 H3 H4]. split; cbn.
  - intros pid names name Hr Hin. destruct (H1 pid names name Hr Hin) as [sid Hsid]. exists sid. apply map_lookup_filter_Some. split; [done|].
    intros [_ Hn]%elem_of_difference. apply Hn, registered_names_spec. eauto.
  - exact H2.
  - intros app' names name Hr Hin. apply lookup_delete_Some in Hr as [Hne Hr]. apply map_lookup_filter_Some. split; [by eapply H3|congruence].
  - intros server message ids [Hm Hn]%map_lookup_filter_Some. destruct (H4 _ _ _ Hm) as [o Ho]. exists o. apply map_lookup_filter_Some.
    split; [done|]. intros ->. by apply Hn, owned_names_spec.
Qed.
Lemma unregister_wf s pid : names_wf s -> names_wf (unregister_pid s pid).
Proof.
  intros Hs. unfold unregister_pid. destruct (registered_names_by_pid s !! pid) as [names|] eqn:Er; [|done].
  destruct Hs as [H1 H2 H3 H4]. split; cbn; [| |done..].
  - intros pid' names' name Hr Hin. apply lookup_delete_Some in Hr as [Hne Hr]. destruct (H1 pid' names' name Hr Hin) as [sid Hsid].
    exists sid. apply map_lookup_filter_Some. split; [done|]. intros Hin'. by apply Hne, (H2 pid pid' names names' name).
  - intros p1 p2 n1 n2 name Hr1 Hr2. apply lookup_delete_Some in Hr1 as [_ Hr1], Hr2 as [_ Hr2]. by apply (H2 p1 p2 n1 n2 name).
Qed.
Lemma register_wf s pid name sid :
  names_wf s -> name_table s !! name = None ->
  names_wf (set_names (<[name := sid]> (name_table s)) (<[pid := {[name]} ∪ default ∅ (registered_names_by_pid s !! pid)]> (registered_names_by_pid s)) s).
Proof.
  intros [H1 H2 H3 H4] Hnone.
  assert (forall pid' names name', (<[pid := {[name]} ∪ default ∅ (registered_names_by_pid s !! pid)]> (registered_names_by_pid s)) !! pid' = Some names ->
    name' ∈ names -> (pid' = pid /\ name' = name) \/ exists names', registered_names_by_pid s !! pid' = Some names' /\ name' ∈ names') as Hold.
  { intros pid' names name' Hr Hin. apply lookup_insert_Some in Hr as [[<- <-]|[_ Hr]]; [|right; eauto].
    apply elem_of_union in Hin as [->%elem_of_singleton|Hin]; [by left|right].
    destruct (registered_names_by_pid s !! pid) as [names'|]; [by exists names'|set_solver]. }
  split; cbn; [| |done..].
  - intros pid' names name' Hr Hin. destruct (decide (name' = name)) as [->|Hne]; [rewrite lookup_insert_eq; eauto|rewrite lookup_insert_ne by done].
    destruct (Hold _ _ _ Hr Hin) as [[_ ?]|(names' & Hr' & Hin')]; [done|]. by apply (H1 pid' names').
  - intros p1 p2 n1 n2 name' Hr1 Hr2 Hin1 Hin2.
    destruct (Hold _ _ _ Hr1 Hin1) as [[-> ->]|(m1 & Hm1 & Hi1)], (Hold _ _ _ Hr2 Hin2) as [[-> E]|(m2 & Hm2 & Hi2)]; [done| | |by apply (H2 p1 p2 m1 m2 name')].
    + destruct (H1 _ _ _ Hm2 Hi2) as [? H]. congruence.
    + subst name'. destruct (H1 _ _ _ Hm1 Hi1) as [? H]. congruence.
Qed.
Lemma system_wf s l s' : names_wf s -> process_system_manifests s l = Some s' -> names_wf s'.
Proof.
  intros Hs. unfold process_system_manifests. destruct (all_servers s l) as [s1|] eqn:E1; [|done]. intros E2.
  assert (names_wf s1) as Hs1.
  { revert s Hs E1. clear E2. induction l as [|m l IH]; intros s Hs; cbn; [by intros [= <-]|].
    destruct (process_manifest_servers s m) as [s2|] eqn:E; [|done]. apply IH. by eapply servers_wf. }
  clear E1 Hs. revert s1 Hs1 E2. induction l as [|m l IH]; intros s1 Hs1; cbn; [by intros [= <-]|].
  destruct (process_manifest_permissions s1 m) as [s2|] eqn:E; [|done]. apply IH. by eapply permissions_wf.
Qed.

(** ** Calls *)

Section Server.
Context (utf8 : list Z -> bool) (parse_manifest : list Z -> option Manifest) (kernel : KernelAnswers).
Abbreviation N := (state World Error).
Abbreviation name_from_msg := (name_from_msg utf8).
Abbreviation run_message := (run_message utf8 parse_manifest kernel).
Abbreviation connect_impl := (connect_impl utf8 kernel).
Abbreviation register_impl := (register_impl utf8 kernel).

(** A question. *)
Definition quiet (c : Call) : Prop := match c with GetAppId _ _ | GetServerOwner _ _ => True | _ => False end.
(** [new] are the calls of [m] from [w]; the tables stay. *)
Definition asks (w w' : World) (new : list Call) : Prop := ns w' = ns w /\ calls w' = new ++ calls w.
Lemma asks_trans w w1 w2 a b : asks w w1 a -> asks w1 w2 b -> asks w w2 (b ++ a).
Proof. intros [H1 H2] [H3 H4]. split; [congruence|]. by rewrite H4, H2, app_assoc. Qed.
Lemma asks_nil w : asks w w [].
Proof. done. Qed.

Lemma bind_cases {A B} (m : N A) (k : A -> N B) w w' o :
  st_bind m k w = (w', o) ->
  exists w1 o1, m w = (w1, o1) /\ match o1 with Done a => k a w1 = (w', o) | Fail e => w' = w1 /\ o = Fail e | Panic => w' = w1 /\ o = Panic end.
Proof.
  unfold st_bind. destruct (m w) as [w1 [a|e|]] eqn:E; intros H; eexists _, _; split; try reflexivity; try exact H; by injection H as <- <-.
Qed.
Lemma try_cases {A} (m : N A) w w' o :
  st_try m w = (w', o) -> exists o1, m w = (w', o1) /\ o = match o1 with Done a => Done (Ok a) | Fail e => Done (Err e) | Panic => Panic end.
Proof. unfold st_try. destruct (m w) as [w1 [a|e|]]; intros [= <- <-]; eauto. Qed.

Lemma sender_app_spec r w w' o :
  sender_app kernel r w = (w', o) -> exists new, asks w w' new /\ Forall quiet new
    /\ match o with Done app => exists pid, rq_pid r = Some pid /\ GetAppId pid (Ok (Some app)) ∈ new | Fail _ => True | Panic => False end.
Proof.
  unfold sender_app, get_app_id, call, some_or, st_bind, st_get, st_modify, st_lift. destruct (rq_pid r) as [pid|]; [|intros [= <- <-]; by exists []].
  cbn. set (a := ka_app_id kernel (calls w) pid). intros H. exists [GetAppId pid a].
  destruct a as [[app|]|e]; injection H as <- <-; (split; [done|]); (split; [by apply list.Forall_singleton|first [done|exists pid; split; [done|apply list_elem_of_here]]]).
Qed.
Lemma allow_each_spec pid cid l w w' o :
  allow_each kernel pid cid l w = (w', o) -> exists new, asks w w' new /\ o = Done tt
    /\ forall c, c ∈ new -> exists p a, p ∈ l /\ c = AllowMessages pid cid p (u32 (p + 1)) a.
Proof.
  revert w. induction l as [|p l IH]; intros w; cbn [allow_each].
  { intros H. injection H as <- <-. exists []. split; [apply asks_nil|]. split; [done|]. intros c Hc. by apply not_elem_of_nil in Hc. }
  unfold allow_messages_on_connection, call, st_bind at 1, st_bind at 1, st_get, st_bind at 1, st_modify, st_ret. intros H.
  apply IH in H as (new & Ha & -> & Hnew). set (a := ka_allow kernel (calls w) pid cid p) in *.
  exists (new ++ [AllowMessages pid cid p (u32 (p + 1)) a]). split; [destruct Ha as [E1 E2]; split; [exact E1|by rewrite E2, <-app_assoc]|]. split; [done|].
  intros c [Hc|Hc]%elem_of_app.
  - destruct (Hnew c Hc) as (q & b & Hq & ->). exists q, b. split; [by apply list_elem_of_further|done].
  - apply list_elem_of_singleton in Hc as ->. exists p, a. split; [apply list_elem_of_here|done].
Qed.

(** The application may send [l] to the server: its manifest says so, or the server is its own. *)
Definition permitted (s : NameServer) (app : AppId) (name : Name) (l : list Z) : Prop :=
  (exists p, connect_permissions s !! app = Some p /\ p !! name = Some l)
  \/ (l = [] /\ exists names, register_permissions s !! app = Some names /\ name ∈ names).
Lemma connection_permissions_spec s app name l : connection_permissions s app name = Some l -> permitted s app name l.
Proof.
  unfold connection_permissions, permitted. destruct (connect_permissions s !! app) as [p|]; cbn.
  - destruct (p !! name) as [l'|] eqn:E; [intros [= ->]; left; by exists p|].
    destruct (register_permissions s !! app) as [names|]; cbn; [|done]. case_decide; [|done]. intros [= <-]. right. eauto.
  - rewrite lookup_empty. destruct (register_permissions s !! app) as [names|]; cbn; [|done]. case_decide; [|done]. intros [= <-]. right. eauto.
Qed.
(** What a call asks for is in the tables [s]. *)
Definition granted (s : NameServer) (new : list Call) (c : Call) : Prop :=
  match c with
  | ConnectForProcess pid sid _ =>
      exists app name l, GetAppId pid (Ok (Some app)) ∈ new /\ name_table s !! name = Some sid /\ permitted s app name l
  | AllowMessages pid cid first last _ =>
      exists app name sid l, GetAppId pid (Ok (Some app)) ∈ new /\ name_table s !! name = Some sid /\ permitted s app name l
        /\ ConnectForProcess pid sid (Ok cid) ∈ new /\ first ∈ l /\ last = u32 (first + 1)
  | _ => True
  end.
Lemma granted_mono s a b c : a ⊆ b -> granted s a c -> granted s b c.
Proof.
  intros Hab. destruct c; cbn; try done.
  - intros (app & name & l & H1 & H2 & H3). exists app, name, l. split; [by apply Hab|done].
  - intros (app & name & sid & l & H1 & H2 & H3 & H4 & H5). exists app, name, sid, l.
    split; [by apply Hab|]. split; [done|]. split; [done|]. split; [by apply Hab|done].
Qed.
Lemma granted_app s a b : Forall (granted s a) a -> Forall (granted s b) b -> Forall (granted s (a ++ b)) (a ++ b).
Proof.
  clear parse_manifest utf8 kernel.
  intros Ha Hb. apply list.Forall_app. split.
  - eapply list.Forall_impl; [exact Ha|]. intros c. apply granted_mono. set_solver.
  - eapply list.Forall_impl; [exact Hb|]. intros c. apply granted_mono. set_solver.
Qed.
Lemma quiet_granted s l : Forall quiet l -> forall l', Forall (granted s l') l.
Proof. intros H l'. eapply list.Forall_impl; [exact H|]. by intros []. Qed.

Lemma connect_spec r w w' o :
  connect_impl r w = (w', o) -> exists new, asks w w' new /\ Forall (granted (ns w) new) new /\ (forall r', Dropped r' ∉ new)
    /\ match o with
       | Done Wait => exists name, name_from_msg r 0 = Ok name /\ name_table (ns w) !! name = None
       | Panic => False
       | _ => True
       end.
Proof.
  clear parse_manifest.
  unfold Names.connect_impl. intros H. apply bind_cases in H as (w1 & o1 & H1 & H). apply sender_app_spec in H1 as (new1 & Ha1 & Hq1 & Ho1).
  assert (Forall (granted (ns w) new1) new1) as Hg1 by (by apply quiet_granted).
  assert (forall r', Dropped r' ∉ new1) as Hd1 by (intros r' Hin; by apply (proj1 (list.Forall_forall _ _) Hq1) in Hin).
  destruct o1 as [app|e|]; [|destruct H as [-> ->]; by exists new1|done]. destruct Ho1 as (pid & Hpid & Happ).
  destruct (name_from_msg r 0) as [name|e] eqn:En; [|injection H as <- <-; by exists new1]. rewrite Hpid in H. pose proof Ha1 as [Ens _].
  cbn [st_lift st_unwrap] in H. unfold st_bind at 1, st_ret at 1, st_bind at 1, st_ret at 1, st_bind at 1, st_get in H. rewrite Ens in H.
  destruct (name_table (ns w) !! name) as [sid|] eqn:Et; [|injection H as <- <-; exists new1; naive_solver].
  destruct (connection_permissions (ns w) app name) as [l|] eqn:El; [|injection H as <- <-; by exists new1]. cbn [some_or] in H.
  unfold st_bind at 1, st_ret at 1 in H. apply bind_cases in H as (w2 & o2 & H2 & H).
  set (a := ka_connect kernel (calls w1) pid sid) in *. assert (asks w1 w2 [ConnectForProcess pid sid a] /\ o2 = match a with Ok cid => Done cid | Err e => Fail e end) as [Ha2 ->].
  { revert H2. unfold connect_for_process, call, st_bind, st_get, st_modify, st_lift. cbn. fold a. by destruct a; intros [= <- <-]. }
  assert (Forall (granted (ns w) ([ConnectForProcess pid sid a] ++ new1)) ([ConnectForProcess pid sid a] ++ new1)) as Hg2.
  { apply list.Forall_cons. split; [|eapply list.Forall_impl; [exact Hg1|]; intros c; apply granted_mono; set_solver].
    exists app, name, l. split; [set_solver|]. split; [done|by apply connection_permissions_spec]. }
  assert (forall r', Dropped r' ∉ [ConnectForProcess pid sid a] ++ new1) as Hd2 by (intros r' [?|?]%elem_of_cons; [done|by eapply Hd1]).
  pose proof (asks_trans _ _ _ _ _ Ha1 Ha2) as Ha. destruct a as [cid|e] eqn:Eans; [|destruct H as [-> ->]; eexists; split; [exact Ha|done]].
  apply bind_cases in H as (w3 & o3 & H3 & H). apply allow_each_spec in H3 as (new3 & Ha3 & -> & Hnew3). injection H as <- <-.
  eexists. split; [exact (asks_trans _ _ _ _ _ Ha Ha3)|]. split; [|split; [|done]].
  - apply list.Forall_app. split; [|eapply list.Forall_impl; [exact Hg2|]; intros c; apply granted_mono; set_solver].
    apply list.Forall_forall. intros c Hc. destruct (Hnew3 c Hc) as (p & a' & Hp & ->). exists app, name, sid, l. split; [set_solver|].
    split; [done|]. split; [by apply connection_permissions_spec|]. split; [set_solver|done].
  - intros r' [Hc|Hc]%elem_of_app; [destruct (Hnew3 _ Hc) as (? & ? & _ & ?); done|by eapply Hd2].
Qed.

Lemma register_spec r w w' o :
  register_impl r w = (w', o) -> exists new, calls w' = new ++ calls w /\ Forall quiet new
    /\ match o with
       | Done name => exists pid app sid names, rq_pid r = Some pid /\ sid_from_msg r = Ok sid /\ name_from_msg r 16 = Ok name
           /\ GetAppId pid (Ok (Some app)) ∈ new /\ GetServerOwner sid (Ok pid) ∈ new
           /\ register_permissions (ns w) !! app = Some names /\ name ∈ names /\ name_table (ns w) !! name = None
           /\ ns w' = set_names (<[name := sid]> (name_table (ns w)))
                        (<[pid := {[name]} ∪ default ∅ (registered_names_by_pid (ns w) !! pid)]> (registered_names_by_pid (ns w))) (ns w)
       | Fail _ => ns w' = ns w
       | Panic => False
       end.
Proof.
  clear parse_manifest.
  unfold Names.register_impl. intros H. destruct (sid_from_msg r) as [sid|e] eqn:Es; [|injection H as <- <-; by exists []].
  destruct (name_from_msg r 16) as [name|e] eqn:En; [|injection H as <- <-; by exists []].
  cbn [st_lift] in H. unfold st_bind at 1, st_ret at 1, st_bind at 1, st_ret at 1 in H.
  destruct (rq_pid r) as [pid|] eqn:Ep; [|injection H as <- <-; by exists []]. cbn [some_or] in H. unfold st_bind at 1, st_ret at 1 in H.
  apply bind_cases in H as (w1 & o1 & H1 & H). set (a := ka_app_id kernel (calls w) pid) in *.
  assert (asks w w1 [GetAppId pid a] /\ o1 = match a with Ok app => Done app | Err e => Fail e end) as [[Ens Ecalls] ->].
  { revert H1. unfold get_app_id, call, st_bind, st_get, st_modify, st_lift. cbn. fold a. by destruct a; intros [= <- <-]. }
  assert (exists new, calls w1 = new ++ calls w /\ Forall quiet new /\ ns w1 = ns w) as Hquiet.
  { eexists. split; [exact Ecalls|]. split; [by apply list.Forall_singleton|done]. }
  destruct a as [app|e] eqn:Ea; [|by destruct H as [-> ->]]. destruct app as [app|]; [|injection H as <- <-; exact Hquiet].
  cbn [some_or] in H. unfold st_bind at 1, st_ret at 1, st_bind at 1, st_get in H. rewrite Ens in H.
  destruct (register_permissions (ns w) !! app) as [names|] eqn:Er; [|injection H as <- <-; exact Hquiet]. cbn [some_or] in H.
  unfold st_bind at 1, st_ret at 1 in H. case_bool_decide as Hin; cbn [negb] in H; [|injection H as <- <-; exact Hquiet].
  apply bind_cases in H as (w2 & o2 & H2 & H). set (b := ka_server_owner kernel (calls w1) sid) in *.
  assert (asks w1 w2 [GetServerOwner sid b] /\ o2 = Done b) as [[Ens2 Ecalls2] ->].
  { revert H2. unfold get_server_owner, call, st_bind, st_get, st_modify. cbn. fold b. by intros [= <- <-]. }
  assert (exists new, calls w2 = new ++ calls w /\ Forall quiet new /\ ns w2 = ns w) as Hquiet2.
  { exists [GetServerOwner sid b; GetAppId pid (Ok (Some app))]. split; [by rewrite Ecalls2, Ecalls|]. split; [by repeat constructor|congruence]. }
  case_bool_decide as Hb; cbn [negb] in H; [|injection H as <- <-; exact Hquiet2].
  case_decide as Ht; [injection H as <- <-; exact Hquiet2|]. injection H as <- <-. cbn [calls ns].
  exists [GetServerOwner sid b; GetAppId pid (Ok (Some app))]. split; [by rewrite Ecalls2, Ecalls|]. split; [by repeat constructor|].
  exists pid, app, sid, names. rewrite Hb. split; [done|]. split; [done|]. split; [done|]. split; [set_solver|]. split; [set_solver|].
  split; [done|]. split; [done|]. split; [by apply eq_None_not_Some|]. by rewrite Ens2, Ens.
Qed.

(** ** Requests of applications to change manifests *)

Definition may_send (s : NameServer) (app : AppId) (op : Z) : Prop :=
  exists names l, connect_permissions s !! app = Some names /\ names !! nameserver = Some l /\ op ∈ l.
(** The sender is an application that may send [op] to the name server. *)
Definition manager (w : World) (r : Request) (op : Z) (new : list Call) : Prop :=
  exists pid app, rq_pid r = Some pid /\ GetAppId pid (Ok (Some app)) ∈ new /\ may_send (ns w) app op.
Lemma check_spec r op w w' o :
  check_manifest_permission kernel r op w = (w', o) -> exists new, asks w w' new /\ Forall quiet new
    /\ match o with Done _ => manager w r op new | Fail _ => True | Panic => False end.
Proof.
  unfold check_manifest_permission. intros H. apply bind_cases in H as (w1 & o1 & H1 & H). apply sender_app_spec in H1 as (new & Ha & Hq & Ho).
  exists new. destruct o1 as [app|e|]; [|by destruct H as [-> ->]|done]. destruct Ho as (pid & Hp & Happ). pose proof Ha as [Ens _].
  unfold st_bind at 1, st_get in H. rewrite Ens in H.
  destruct (connect_permissions (ns w) !! app) as [names|] eqn:E1; [|by injection H as <- <-]. cbn [some_or] in H. unfold st_bind at 1, st_ret at 1 in H.
  destruct (names !! nameserver) as [l|] eqn:E2; [|by injection H as <- <-]. cbn [some_or] in H. unfold st_bind at 1, st_ret at 1 in H.
  case_decide; [|by injection H as <- <-]. injection H as <- <-. split; [done|]. split; [done|]. exists pid, app. split; [done|]. split; [done|].
  by exists names, l.
Qed.
Lemma valid_spec r w w' o :
  valid_bytes r w = (w', o) -> w' = w /\ match o with Done v => exists m, memory_message (rq_body r) = Some m /\ mm_valid m = Some v | Fail _ => True | Panic => False end.
Proof.
  unfold valid_bytes, some_or, st_bind, st_ret, st_fail. destruct (memory_message _) as [m|]; [|by intros [= <- <-]].
  destruct (mm_valid m) as [v|] eqn:E; intros [= <- <-]; [eauto|done].
Qed.
Lemma add_manifest_spec r w w' o :
  add_manifest_impl parse_manifest kernel r w = (w', o) ->
  exists new, calls w' = new ++ calls w /\ Forall quiet new
    /\ match o with
       | Done _ => exists m v manifest, manager w r 1 new /\ memory_message (rq_body r) = Some m /\ mm_valid m = Some v /\ v <= buf_len r
           /\ parse_manifest (take (Z.to_nat v) (rq_buf r)) = Some manifest /\ fixed_sids manifest = []
           /\ process_manifest_update (ns w) manifest = Ok (ns w')
       | Fail _ => ns w' = ns w
       | Panic => False
       end.
Proof.
  unfold add_manifest_impl. intros H. apply bind_cases in H as (w1 & o1 & H1 & H). apply check_spec in H1 as (new & [Ens Ec] & Hq & Ho).
  exists new. destruct o1 as [[]|e|]; [|by destruct H as [-> ->]|done]. apply bind_cases in H as (w2 & o2 & H2 & H).
  apply valid_spec in H2 as [-> Hv]. destruct o2 as [v|e|]; [|by destruct H as [-> ->]|done]. destruct Hv as (m & Hm & Hv).
  destruct (Z.ltb_spec (buf_len r) v); [by injection H as <- <-|].
  destruct (parse_manifest _) as [manifest|] eqn:Ep; [|by injection H as <- <-]. cbn [some_or] in H. unfold st_bind at 1, st_ret at 1 in H.
  case_decide as Hf; [by injection H as <- <-|]. unfold st_bind at 1, st_get in H. rewrite Ens in H.
  destruct (process_manifest_update (ns w) manifest) as [s|e] eqn:Eu; [|by injection H as <- <-]. injection H as <- <-. cbn [calls ns].
  split; [done|]. split; [done|]. exists m, v, manifest. rewrite <-Ep. done.
Qed.
Lemma remove_manifest_spec r w w' o :
  remove_manifest_impl kernel r w = (w', o) ->
  exists new, calls w' = new ++ calls w /\ Forall quiet new
    /\ match o with
       | Done _ => manager w r 2 new /\ ns w' = remove_manifest (ns w) (mkAppId (take APP_ID_SIZE (rq_buf r)))
       | Fail _ => ns w' = ns w
       | Panic => False
       end.
Proof.
  unfold remove_manifest_impl. intros H. apply bind_cases in H as (w1 & o1 & H1 & H). apply check_spec in H1 as (new & [Ens Ec] & Hq & Ho).
  exists new. destruct o1 as [[]|e|]; [|by destruct H as [-> ->]|done]. apply bind_cases in H as (w2 & o2 & H2 & H).
  apply valid_spec in H2 as [-> Hv]. destruct o2 as [v|e|]; [|by destruct H as [-> ->]|done].
  destruct (Z.eqb_spec v (Z.of_nat APP_ID_SIZE)) as [->|]; cbn [negb orb] in H; [|by injection H as <- <-].
  destruct (buf_len r <? _); [by injection H as <- <-|]. injection H as <- <-. cbn [calls ns]. rewrite Nat2Z.id, Ens. done.
Qed.

(** ** What all messages keep *)

Definition tables (s : NameServer) : NameServer := set_waiting [] s.
Lemma granted_tables s s' new c : tables s = tables s' -> granted s new c -> granted s' new c.
Proof.
  destruct s, s'. unfold tables, set_waiting. cbn.
  intros [= -> -> -> -> -> ->]. by destruct c.
Qed.
Definition keeps (s : NameServer) (w w' : World) : Prop :=
  tables (ns w) = tables s -> tables (ns w') = tables s /\ exists new, calls w' = new ++ calls w /\ Forall (granted s new) new.
Definition does (s : NameServer) {A} (m : N A) : Prop := forall w w' o, m w = (w', o) -> keeps s w w'.
Lemma keeps_here s w : keeps s w w.
Proof. intros H. split; [done|]. by exists []. Qed.
Lemma keeps_trans s a b c : keeps s a b -> keeps s b c -> keeps s a c.
Proof.
  intros Hab Hbc Ha. destruct (Hab Ha) as (Hb & n1 & E1 & H1), (Hbc Hb) as (Hc & n2 & E2 & H2). split; [done|].
  exists (n2 ++ n1). split; [by rewrite E2, E1, app_assoc|]. by apply granted_app.
Qed.
Lemma does_bind s {A B} (m : N A) (k : A -> N B) : does s m -> (forall a, does s (k a)) -> does s (st_bind m k).
Proof.
  intros Hm Hk w w' o H. apply bind_cases in H as (w1 & o1 & H1 & H). eapply keeps_trans; [by eapply Hm|].
  destruct o1 as [a|e|]; [by eapply Hk|destruct H as [-> _]; apply keeps_here..].
Qed.
Lemma does_try s {A} (m : N A) : does s m -> does s (st_try m).
Proof. intros Hm w w' o H. apply try_cases in H as (o1 & H & _). by eapply Hm. Qed.
Lemma does_get s : does s st_get.
Proof. intros w w' o [= <- _]. apply keeps_here. Qed.
Lemma does_pure s {A} (o : outcome Error A) : does s (fun w => (w, o)).
Proof. intros w w' o' [= <- _]. apply keeps_here. Qed.
Lemma does_drop s r : does s (drop_request r).
Proof. intros w w' o [= <- _] Hw. split; [done|]. exists [Dropped r]. split; [done|]. by apply list.Forall_singleton. Qed.
Lemma does_waiting s f : does s (with_ns (fun s' => set_waiting (f s') s')).
Proof. intros w w' o [= <- _] Hw. split; [exact Hw|]. by exists []. Qed.
Lemma does_connect s r : does s (connect_impl r).
Proof.
  intros w w' o H. apply connect_spec in H as (new & [Ens Ec] & Hg & _). intros Hw. split; [by rewrite Ens|]. exists new. split; [done|].
  eapply list.Forall_impl; [exact Hg|]. intros c. by apply granted_tables.
Qed.
Lemma does_respond s reply : does s (respond reply).
Proof. apply does_bind; [destruct reply; apply does_pure|intros; apply does_drop]. Qed.
Lemma does_respond_connect s r answer wait : does s wait -> does s (respond_connect r answer wait).
Proof. intros Hw. unfold respond_connect, respond_connect_success, respond_error. destruct answer as [[]|]; [apply does_respond|done|apply does_respond]. Qed.
Lemma does_wake s fuel name i : does s (wake_from utf8 kernel fuel name i).
Proof.
  revert i. induction fuel as [|fuel IH]; intros i; cbn [wake_from]; (apply does_bind; [apply does_get|intros w]);
    (destruct (waiting_connections (ns w) !! i); [|apply does_pure]); [apply does_pure|]. case_decide; [|apply IH].
  apply does_bind; [apply does_waiting|intros _]. apply does_bind; [apply does_try, does_connect|intros a].
  apply does_bind; [apply does_respond_connect, does_pure|intros _]. apply IH.
Qed.

(** ** One message *)

(** What a message may do to the tables. *)
Inductive change (w : World) (r : Request) (new : list Call) (s : NameServer) : Prop :=
| no_change : tables s = tables (ns w) -> change w r new s
| disconnected pid :
    message_id (rq_body r) = PROCESS_DISCONNECTED_MESSAGE_ID -> rq_pid r = Some pid -> s = unregister_pid (ns w) pid -> change w r new s
| registered pid app sid names name :
    message_id (rq_body r) = 0 -> rq_pid r = Some pid -> name_from_msg r 16 = Ok name -> GetAppId pid (Ok (Some app)) ∈ new -> GetServerOwner sid (Ok pid) ∈ new ->
    register_permissions (ns w) !! app = Some names -> name ∈ names -> name_table (ns w) !! name = None ->
    tables s = tables (set_names (<[name := sid]> (name_table (ns w)))
      (<[pid := {[name]} ∪ default ∅ (registered_names_by_pid (ns w) !! pid)]> (registered_names_by_pid (ns w))) (ns w)) -> change w r new s
| manifest_added m :
    message_id (rq_body r) = 1 -> manager w r 1 new -> fixed_sids m = [] -> process_manifest_update (ns w) m = Ok s -> change w r new s
| manifest_removed app :
    message_id (rq_body r) = 2 -> manager w r 2 new -> s = remove_manifest (ns w) app -> change w r new s.

(** The calls and the change of a message. *)
Definition message_result (w w' : World) (r : Request) : Prop :=
  exists new, calls w' = new ++ calls w /\ Forall (granted (ns w') new) new /\ change w r new (ns w').
Lemma granted_eq s s' new : tables s = tables s' -> Forall (granted s new) new -> Forall (granted s' new) new.
Proof. intros E H. eapply list.Forall_impl; [exact H|]. intros c. by apply granted_tables. Qed.
Lemma does_result {A} (m : N A) r w w' o : does (ns w) m -> m w = (w', o) -> message_result w w' r.
Proof.
  intros Hm H. destruct (Hm _ _ _ H eq_refl) as (Ht & new & Ec & Hg). exists new. split; [done|]. split; [|by constructor].
  by eapply granted_eq.
Qed.
Lemma change_mono w r a b s : a ⊆ b -> change w r a s -> change w r b s.
Proof.
  intros Hab []; [by apply no_change|by eapply disconnected|eapply registered; eauto|eapply manifest_added; eauto|eapply manifest_removed; eauto].
  all: match goal with H : manager _ _ _ _ |- _ => destruct H as (pid & app' & ? & ? & ?); exists pid, app'; auto end.
Qed.
Lemma respond_spec reply w w' o :
  respond reply w = (w', o) -> ns w' = ns w /\ match reply with
    | Some r => o = Done tt /\ calls w' = Dropped r :: calls w
    | None => o = Panic /\ calls w' = calls w
    end.
Proof. unfold respond, st_bind, st_unwrap, st_ret, drop_request, call, st_modify, st_panic. destruct reply; by intros [= <- <-]. Qed.
Lemma respond_result r w w1 w' reply new o :
  calls w1 = new ++ calls w -> Forall quiet new -> change w r new (ns w1) -> respond reply w1 = (w', o) -> message_result w w' r.
Proof.
  intros Ec Hq Hc H. apply respond_spec in H as [Ens H].
  assert (exists l, calls w' = (l ++ new) ++ calls w /\ Forall (fun c => forall s n, granted s n c) l) as (l & Ec' & Hl).
  { destruct reply as [r'|]; destruct H as [_ E].
    - exists [Dropped r']. rewrite E, Ec. split; [done|]. by apply list.Forall_singleton.
    - exists []. by rewrite E, Ec. }
  exists (l ++ new). split; [done|]. split.
  - apply list.Forall_app. split; [eapply list.Forall_impl; [exact Hl|]; auto|by apply quiet_granted].
  - rewrite Ens. eapply change_mono; [|exact Hc]. set_solver.
Qed.
Lemma answer_result r m w w' o :
  (forall w1 o1, m w = (w1, o1) -> exists new, calls w1 = new ++ calls w /\ Forall quiet new
     /\ match o1 with Done _ => change w r new (ns w1) | Fail _ => ns w1 = ns w | Panic => False end) ->
  answer_with r m w = (w', o) -> message_result w w' r.
Proof.
  intros Hm H. apply bind_cases in H as (w1 & o1 & H1 & H). apply try_cases in H1 as (o2 & H1 & ->).
  destruct (Hm _ _ H1) as (new & Ec & Hq & Ho). destruct o2 as [[]|e|]; [| |done].
  - by eapply respond_result.
  - eapply respond_result; [exact Ec|exact Hq|by apply no_change; rewrite Ho|exact H].
Qed.
Lemma opcode_cases n op : Opcode_from_usize n = Some op ->
  n = match op with Register => 0 | AddManifest => 1 | RemoveManifest => 2 | LookupNameBySid => 3 | BlockingConnect => 6 | TryConnect => 7 end.
Proof. unfold Opcode_from_usize. repeat case_match; intros E; first [discriminate | congruence]. Qed.
Lemma register_result r w w' o :
  message_id (rq_body r) = 0 ->
  (let* answer := st_try (register_impl r) in
   match answer with Ok name => let* _ := respond_simple_success r in wake_waiting_connections utf8 kernel name | Err e => respond_error r e end) w = (w', o) ->
  message_result w w' r.
Proof.
  intros Hid H. apply bind_cases in H as (w1 & o1 & H1 & H). apply try_cases in H1 as (o2 & H1 & ->).
  apply register_spec in H1 as (new & Ec & Hq & Ho). destruct o2 as [name|e|]; [| |done].
  2: { eapply respond_result; [exact Ec|exact Hq|by apply no_change; rewrite Ho|exact H]. }
  destruct Ho as (pid & app & sid & names & Hp & Hs & Hn & Happ & Hown & Hr & Hin & Ht & Ens).
  assert (does (ns w1) (let* _ := respond_simple_success r in wake_waiting_connections utf8 kernel name)) as Hd.
  { apply does_bind; [apply does_respond|]. intros _. apply does_bind; [apply does_get|]. intros w2. apply does_wake. }
  destruct (Hd _ _ _ H eq_refl) as (Et & new2 & Ec2 & Hg). exists (new2 ++ new). split; [by rewrite Ec2, Ec, app_assoc|]. split.
  - apply (granted_eq (ns w1)); [done|]. apply granted_app; [done|by apply quiet_granted].
  - apply (change_mono w r new); [set_solver|]. eapply registered; eauto. by rewrite Et, Ens.
Qed.
Lemma message_spec r w w' o : run_message r w = (w', o) -> message_result w w' r.
Proof.
  unfold Names.run_message. destruct (Z.eqb_spec (message_id (rq_body r)) PROCESS_DISCONNECTED_MESSAGE_ID) as [Hd|_].
  { destruct (rq_pid r) as [pid|] eqn:Ep; intros H; injection H as <- <-; (exists [Dropped r]; split; [done|]; split; [by apply list.Forall_singleton|]);
      [by eapply disconnected|by apply no_change]. }
  destruct (is_blocking _); cbn [negb]; [|intros H; by eapply does_result; [apply does_drop|]].
  destruct (has_memory _); cbn [negb].
  2: { intros H. eapply does_result; [|exact H]. apply does_bind; [|intros []; [apply does_drop|apply does_pure]].
       intros w0 w1 o1 [= <- _] E. split; [done|]. eexists [_]. split; [done|]. by apply list.Forall_singleton. }
  destruct (Opcode_from_usize _) as [op|] eqn:E; [|intros H; by eapply does_result; [apply does_drop|]]. apply opcode_cases in E. destruct op; intros H.
  - by eapply register_result.
  - eapply answer_result; [|exact H]. intros w1 o1 H1. apply add_manifest_spec in H1 as (new & Ec & Hq & Ho). exists new. split; [done|]. split; [done|].
    destruct o1; [|done..]. destruct Ho as (m & v & manifest & Hm & _ & _ & _ & _ & Hf & Hu). by eapply manifest_added.
  - eapply answer_result; [|exact H]. intros w1 o1 H1. apply remove_manifest_spec in H1 as (new & Ec & Hq & Ho). exists new. split; [done|]. split; [done|].
    destruct o1; [|done..]. destruct Ho as [Hm Hn]. by eapply manifest_removed.
  - eapply does_result; [|exact H]. apply does_bind; [|intros []; apply does_respond]. apply does_try. unfold lookup_name_by_sid_impl.
    apply does_bind; [destruct (sid_from_msg r); apply does_pure|]. intros sid. apply does_bind; [apply does_get|]. intros w0. unfold some_or.
    destruct (fst <$> _); apply does_pure.
  - eapply does_result; [|exact H]. apply does_bind; [apply does_try, does_connect|]. intros a. apply does_respond_connect, does_waiting.
  - eapply does_result; [|exact H]. apply does_bind; [apply does_try, does_connect|]. intros a. apply does_respond_connect, does_respond.
Qed.
End Server.
