(* ===== verification/NameServing.v ===== *)
(** * What the name server promises

    A name means one server from the registration on until the process that registered it is
    gone ([names_bound]); the kernel is asked only for what the manifests permit
    ([connections_granted]), and for all of it ([connect_answered]); a manifest takes effect as a
    whole ([manifest_installed]); a registration answers all who wait ([registration_wakes]); and
    [read_only_request_panics] says which requests with memory lent for reading stop the server. *)
From stdpp Require Import fin_maps gmap sets sorting.
From S2P Require Import Prelude Xous SysCall Names NamesRules.

Section Server.
Context (utf8 : list Z -> bool) (parse_manifest : list Z -> option Manifest) (kernel : KernelAnswers).
Abbreviation N := (state World Error).
Abbreviation name_from_msg := (name_from_msg utf8).
Abbreviation run_message := (run_message utf8 parse_manifest kernel).
Abbreviation connect_impl := (connect_impl utf8 kernel).
Abbreviation register_impl := (register_impl utf8 kernel).

(** The states of a server that started with the manifests of the system. *)
Inductive reachable : World -> Prop :=
| names_started manifests s : process_system_manifests NameServer_default manifests = Some s -> reachable (mkWorld s [])
| names_message w r w' o : reachable w -> run_message r w = (w', o) -> reachable w'.

Lemma tables_wf s s' : tables s = tables s' -> names_wf s -> names_wf s'.
Proof. destruct s, s'. unfold tables, set_waiting. cbn. intros [= -> -> -> -> -> ->] [H1 H2 H3 H4]. by split. Qed.
Lemma change_wf w r new s : names_wf (ns w) -> change utf8 w r new s -> names_wf s.
Proof.
  intros Hw [E|pid _ _ ->|pid app sid names name _ _ _ _ _ _ _ Ht E|m _ _ _ E|app _ _ ->].
  - by eapply tables_wf.
  - by apply unregister_wf.
  - eapply tables_wf; [symmetry; exact E|]. by apply register_wf.
  - by eapply update_wf.
  - by apply remove_wf.
Qed.
Lemma reachable_wf w : reachable w -> names_wf (ns w).
Proof.
  induction 1 as [l s H|w r w' o _ IH H]; [by eapply system_wf; [apply names_wf_default|]|].
  apply message_spec in H as (new & _ & _ & Hc). by eapply change_wf.
Qed.

(** ** Names *)

(** What happened to a name. *)
Definition name_change (w w' : World) (r : Request) (new : list Call) (name : Name) : Prop :=
  match name_table (ns w) !! name, name_table (ns w') !! name with
  | Some sid, Some sid' => sid' = sid
  | None, None => True
  | None, Some sid =>
      exists pid app, rq_pid r = Some pid /\ GetAppId pid (Ok (Some app)) ∈ new /\ server_owners (ns w) !! name = Some app
        /\ GetServerOwner sid (Ok pid) ∈ new /\ message_id (rq_body r) = 0 /\ name_from_msg r 16 = Ok name
  | Some _, None =>
      (message_id (rq_body r) = PROCESS_DISCONNECTED_MESSAGE_ID
       /\ exists pid names, rq_pid r = Some pid /\ registered_names_by_pid (ns w) !! pid = Some names /\ name ∈ names)
      \/ (message_id (rq_body r) = 2 /\ manager w r 2 new /\ name ∉ registered_names (ns w))
  end.
Lemma name_change_same w w' r new name : name_table (ns w') !! name = name_table (ns w) !! name -> name_change w w' r new name.
Proof. unfold name_change. intros ->. by destruct (name_table (ns w) !! name). Qed.
Lemma tables_names s s' : tables s = tables s' -> name_table s = name_table s'.
Proof. by intros [= ->]. Qed.
Lemma update_names s m s' : fixed_sids m = [] -> process_manifest_update s m = Ok s' -> name_table s' = name_table s.
Proof.
  intros Hf. unfold process_manifest_update, process_manifest_servers, process_manifest_permissions.
  destruct (reject_server_name_collisions _ _ _); [|done]. destruct (manifest_permissions _ _ _); [|done]. intros [= <-]. cbn. by rewrite Hf.
Qed.
Lemma change_names w w' r new name : names_wf (ns w) -> change utf8 w r new (ns w') -> name_change w w' r new name.
Proof.
  intros Hw [E|pid Hid Hp E|pid app sid names name' Hid Hp Hn Happ Hown Hr Hin Ht E|m _ _ Hf E|app Hid Hm E].
  - apply name_change_same. by rewrite (tables_names _ _ E).
  - unfold unregister_pid in E. destruct (registered_names_by_pid (ns w) !! pid) as [names|] eqn:Er; [|apply name_change_same; by rewrite E].
    destruct (decide (name ∈ names)) as [Hin|Hn]; [|apply name_change_same; rewrite E; cbn].
    + unfold name_change. rewrite E. cbn. rewrite map_lookup_filter. destruct (name_table (ns w) !! name); [|done]. cbn.
      rewrite option_guard_False by auto. left. split; [done|]. by exists pid, names.
    + rewrite map_lookup_filter. destruct (name_table (ns w) !! name); [|done]. cbn. by rewrite option_guard_True.
  - apply tables_names in E. cbn in E. destruct (decide (name' = name)) as [->|Hne].
    + unfold name_change. rewrite E, Ht, lookup_insert_eq. exists pid, app. split; [done|]. split; [done|]. split; [by eapply nw_owner|done].
    + apply name_change_same. by rewrite E, lookup_insert_ne.
  - apply name_change_same. by rewrite (update_names _ _ _ Hf E).
  - destruct (decide (name ∈ owned_names (ns w) app ∖ registered_names (ns w))) as [Hin|Hn]; [|apply name_change_same; rewrite E; cbn].
    + unfold name_change. rewrite E. cbn. rewrite map_lookup_filter. destruct (name_table (ns w) !! name); [|done]. cbn.
      rewrite option_guard_False by auto. right. apply elem_of_difference in Hin as [_ Hin]. done.
    + rewrite map_lookup_filter. destruct (name_table (ns w) !! name); [|done]. cbn. by rewrite option_guard_True.
Qed.
(** C8: A name is never bound to another server: it stays, or goes with the process that registered
    it (or with the manifest of its owner, when no process has registered it); and it comes only
    with a registration, from a process of the application that owns the name, of a server of
    that process. *)
Theorem names_bound w r w' o :
  reachable w -> run_message r w = (w', o) -> exists new, calls w' = new ++ calls w /\ forall name, name_change w w' r new name.
Proof.
  intros Hw (new & Ec & _ & Hc)%message_spec. exists new. split; [done|]. intros name. by apply change_names; [apply reachable_wf|].
Qed.

(** ** Connections *)

(** C9: Each connection the kernel is asked for is to a server whose name the application of the
    process may connect to, and each message allowed on it is one the manifest gives. *)
Theorem connections_granted r w w' o :
  run_message r w = (w', o) -> exists new, calls w' = new ++ calls w /\ Forall (granted (ns w') new) new.
Proof. intros (new & Ec & Hg & _)%message_spec. by exists new. Qed.

Lemma st_done {A B} (m : N A) (k : A -> N B) w w1 a : m w = (w1, Done a) -> st_bind m k w = k a w1.
Proof. intros H. unfold st_bind. by rewrite H. Qed.
(** The calls once each message of [l] has been asked for, in order; the kernel answers each. *)
Fixpoint allow_log (pid cid : Z) (l : list Z) (asked : list Call) : list Call :=
  match l with
  | [] => asked
  | p :: l => allow_log pid cid l (AllowMessages pid cid p (u32 (p + 1)) (ka_allow kernel asked pid cid p) :: asked)
  end.
Lemma allow_each_all pid cid l w : allow_each kernel pid cid l w = (mkWorld (ns w) (allow_log pid cid l (calls w)), Done tt).
Proof.
  revert w. induction l as [|p l IH]; intros w; cbn [allow_each allow_log]; [by destruct w|].
  set (a := ka_allow kernel (calls w) pid cid p).
  rewrite (st_done _ _ w (mkWorld (ns w) (AllowMessages pid cid p (u32 (p + 1)) a :: calls w)) a) by done. by rewrite IH.
Qed.
Lemma connect_result r w pid app name sid :
  rq_pid r = Some pid -> ka_app_id kernel (calls w) pid = Ok (Some app) -> name_from_msg r 0 = Ok name -> name_table (ns w) !! name = Some sid ->
  let asked := GetAppId pid (Ok (Some app)) :: calls w in
  match connection_permissions (ns w) app name with
  | None => connect_impl r w = (mkWorld (ns w) asked, Fail AccessDenied)
  | Some l =>
      match ka_connect kernel asked pid sid with
      | Err e => connect_impl r w = (mkWorld (ns w) (ConnectForProcess pid sid (Err e) :: asked), Fail e)
      | Ok cid => connect_impl r w = (mkWorld (ns w) (allow_log pid cid l (ConnectForProcess pid sid (Ok cid) :: asked)), Done (Connected cid))
      end
  end.
Proof.
  intros Hp Happ Hn Ht asked. unfold Names.connect_impl.
  rewrite !(st_done _ _ w (mkWorld (ns w) asked) app).
  2: { unfold sender_app. rewrite Hp. unfold some_or, get_app_id, call, st_bind, st_get, st_modify, st_lift, st_ret. by rewrite Happ. }
  rewrite Hn, Hp. cbn [st_lift st_unwrap]. rewrite !(st_done (st_ret _) _ _ _ _ eq_refl), !(st_done st_get _ _ _ _ eq_refl). cbn [ns]. rewrite Ht.
  destruct (connection_permissions (ns w) app name) as [l|]; [|done]. cbn [some_or]. rewrite !(st_done (st_ret _) _ _ _ _ eq_refl).
  assert (forall a, ka_connect kernel asked pid sid = a ->
    connect_for_process kernel pid sid (mkWorld (ns w) asked) = (mkWorld (ns w) (ConnectForProcess pid sid a :: asked), match a with Ok cid => Done cid | Err e => Fail e end)) as Hc.
  { intros a <-. unfold connect_for_process, call, st_bind, st_get, st_modify, st_lift. cbn [calls ns]. by destruct (ka_connect _ _ _ _). }
  destruct (ka_connect kernel asked pid sid) as [cid|e]; specialize (Hc _ eq_refl); [|unfold st_bind at 1; by rewrite Hc].
  rewrite (st_done _ _ _ _ _ Hc).
  by rewrite (st_done _ _ _ _ _ (allow_each_all pid cid l _)).
Qed.

(** ** Replies *)

(** A request that blocks its sender on memory it lends for writing, of two words at least. *)
Definition writable (r : Request) : Prop := is_mutable (rq_body r) = true /\ 8 <= buf_len r.
Lemma writable_memory r : is_mutable (rq_body r) = true -> exists m, memory_message (rq_body r) = Some m.
Proof. destruct (rq_body r); cbn; try done; eauto. Qed.
Lemma answered_some r buf valid : is_mutable (rq_body r) = true -> exists r', answered r buf valid = Some r' /\ rq_buf r' = buf
  /\ env_sender (rq_envelope r') = env_sender (rq_envelope r).
Proof. intros H. unfold answered. rewrite H. destruct (writable_memory r H) as [m ->]. by eexists. Qed.
Lemma set_buf_word_some i v buf : (4 * i + 4 <= length buf)%nat ->
  exists buf', set_buf_word i v buf = Some buf' /\ length buf' = length buf.
Proof.
  intros H. unfold set_buf_word. rewrite decide_True by done. eexists. split; [done|].
  rewrite !length_app, length_take, length_drop. change (length (u32_to_le_bytes v)) with 4%nat. lia.
Qed.
Lemma two_words r v0 v1 : writable r ->
  exists b0 b1 r', set_buf_word 0 v0 (rq_buf r) = Some b0 /\ set_buf_word 1 v1 b0 = Some b1 /\ answered r b1 None = Some r' /\ rq_buf r' = b1
    /\ env_sender (rq_envelope r') = env_sender (rq_envelope r).
Proof.
  intros [Hm Hl]. unfold buf_len in Hl. destruct (set_buf_word_some 0 v0 (rq_buf r)) as (b0 & E0 & L0); [lia|].
  destruct (set_buf_word_some 1 v1 b0) as (b1 & E1 & L1); [lia|]. destruct (answered_some r b1 None Hm) as (r' & E & Eb & Es).
  by exists b0, b1, r'.
Qed.
Lemma error_reply_some r e : writable r -> exists r', error_reply r e = Some r' /\ env_sender (rq_envelope r') = env_sender (rq_envelope r).
Proof. intros H. destruct (two_words r 1 (Error_to_usize e) H) as (b0 & b1 & r' & E0 & E1 & E & _ & Es). unfold error_reply. rewrite E0. cbn. rewrite E1. cbn. eauto. Qed.
Lemma connect_reply_some r cid : writable r -> exists r', connect_reply r cid = Some r' /\ env_sender (rq_envelope r') = env_sender (rq_envelope r).
Proof. intros H. destruct (two_words r 0 cid H) as (b0 & b1 & r' & E0 & E1 & E & _ & Es). unfold connect_reply. rewrite E0. cbn. rewrite E1. cbn. eauto. Qed.
Lemma success_reply_some r : writable r -> exists r', success_reply r = Some r' /\ env_sender (rq_envelope r') = env_sender (rq_envelope r).
Proof.
  intros H. destruct (two_words r 0 0 H) as (b0 & _ & _ & E0 & _). unfold success_reply. rewrite E0. cbn.
  destruct (answered_some r b0 None (proj1 H)) as (r' & E & _ & Es). eauto.
Qed.
Lemma respond_some reply r w : reply = Some r -> respond reply w = (mkWorld (ns w) (Dropped r :: calls w), Done tt).
Proof. by intros ->. Qed.

(** C12: A request to connect to a bound name, whose memory is lent for writing and has two words.
    When the application may connect and the kernel makes the connection, the kernel is asked to
    allow each message of the manifest on it, one by one and in order, and the connection is the
    answer whatever the kernel says to these; when the kernel refuses the connection, its error
    is the answer; and without permission it is [AccessDenied], and the kernel is not asked.  The
    tables stay in every case. *)
Theorem connect_answered r w pid app name sid :
  writable r -> is_blocking (rq_body r) = true -> message_id (rq_body r) = 6 \/ message_id (rq_body r) = 7 ->
  rq_pid r = Some pid -> ka_app_id kernel (calls w) pid = Ok (Some app) -> name_from_msg r 0 = Ok name -> name_table (ns w) !! name = Some sid ->
  let asked := GetAppId pid (Ok (Some app)) :: calls w in
  exists answer,
    match connection_permissions (ns w) app name with
    | None => error_reply r AccessDenied = Some answer /\ run_message r w = (mkWorld (ns w) (Dropped answer :: asked), Done tt)
    | Some l =>
        match ka_connect kernel asked pid sid with
        | Err e => error_reply r e = Some answer
            /\ run_message r w = (mkWorld (ns w) (Dropped answer :: ConnectForProcess pid sid (Err e) :: asked), Done tt)
        | Ok cid => connect_reply r cid = Some answer
            /\ run_message r w = (mkWorld (ns w) (Dropped answer :: allow_log pid cid l (ConnectForProcess pid sid (Ok cid) :: asked)), Done tt)
        end
    end.
Proof.
  intros Hw Hb Hid Hp Happ Hn Ht asked. pose proof (connect_result r w pid app name sid Hp Happ Hn Ht) as H. cbv zeta in H. fold asked in H.
  assert (exists wait, run_message r w = (let* answer := st_try (connect_impl r) in respond_connect r answer (wait r)) w) as [wait ->].
  { unfold Names.run_message. destruct (writable_memory r (proj1 Hw)) as [m Hm].
    assert (has_memory (rq_body r) = true) as -> by (revert Hm; by destruct (rq_body r)). rewrite Hb. cbn [negb].
    destruct Hid as [-> | ->]; cbn; eexists (fun r => _); reflexivity. }
  assert (forall w1 o, connect_impl r w = (w1, o) -> o <> Panic -> st_try (connect_impl r) w = (w1, match o with Done a => Done (Ok a) | Fail e => Done (Err e) | Panic => Panic end)) as Htry.
  { intros w1 o E Hne. unfold st_try. rewrite E. by destruct o. }
  destruct (connection_permissions (ns w) app name) as [l|].
  2: { destruct (error_reply_some r AccessDenied Hw) as (a & Ea & _). exists a. split; [done|]. apply Htry in H; [|done].
       rewrite (st_done _ _ _ _ _ H). unfold respond_connect, respond_error. by rewrite (respond_some _ a). }
  destruct (ka_connect kernel asked pid sid) as [cid|e].
  - destruct (connect_reply_some r cid Hw) as (a & Ea & _). exists a. split; [done|].
    apply Htry in H; [|done]. rewrite (st_done _ _ _ _ _ H). cbn [respond_connect]. unfold respond_connect_success. by rewrite (respond_some _ a).
  - destruct (error_reply_some r e Hw) as (a & Ea & _). exists a. split; [done|]. apply Htry in H; [|done].
    rewrite (st_done _ _ _ _ _ H). unfold respond_connect, respond_error. by rewrite (respond_some _ a).
Qed.

(** ** Waiting requests *)

Lemma swap_remove_spec i l r : l !! i = Some r ->
  l ≡ₚ r :: swap_remove i l /\ take i (swap_remove i l) = take i l /\ S (length (swap_remove i l)) = length l.
Proof.
  intros Hi. destruct l as [|last l _] using rev_ind; [done|]. unfold swap_remove. rewrite rev_app_distr. cbn [List.rev app]. rewrite length_rev, rev_involutive.
  apply lookup_lt_Some in Hi as Hlt. rewrite length_app in *. cbn in Hlt |- *. case_decide as Hd.
  - subst i. rewrite lookup_app_r, Nat.sub_diag in Hi by lia. injection Hi as ->. split; [by rewrite Permutation_app_comm|].
    split; [by rewrite take_app_le|lia].
  - rewrite lookup_app_l in Hi by lia. split; [|split; [|rewrite length_insert; lia]].
    + rewrite Permutation_app_comm. cbn. rewrite (insert_take_drop l i last) by lia. rewrite <-(take_drop_middle l i r) at 1 by done.
      rewrite <-!Permutation_middle. apply perm_swap.
    + rewrite take_app_le by lia. by apply take_insert_ge.
Qed.
(** Who waits for a name, and who got an answer. *)
Definition waits_for (name : Name) (r : Request) : Prop := name_from_msg r 0 = Ok name.
#[local] Instance waits_for_dec name r : Decision (waits_for name r).
Proof. unfold waits_for. apply _. Defined.
Definition sender_of (r : Request) : MessageSender := env_sender (rq_envelope r).
Definition answers_to (l : list Call) : list MessageSender := omap (fun c => match c with Dropped r => Some (sender_of r) | _ => None end) l.
Lemma answers_none l : (forall r, Dropped r ∉ l) -> answers_to l = [].
Proof.
  induction l as [|c l IH]; intros H; [done|].
  assert (answers_to l = []) as E by (apply IH; intros r Hr; by apply (H r), list_elem_of_further).
  unfold answers_to in *. cbn. rewrite E. destruct c; try done. by destruct (H r (list_elem_of_here _ _)).
Qed.
Lemma answers_app a b : answers_to (a ++ b) = answers_to a ++ answers_to b.
Proof. apply omap_app. Qed.

Lemma answer_waiting r w name :
  writable r -> waits_for name r -> is_Some (name_table (ns w) !! name) ->
  exists w' new, (let* answer := st_try (connect_impl r) in respond_connect r answer st_panic) w = (w', Done tt)
    /\ ns w' = ns w /\ calls w' = new ++ calls w /\ answers_to new = [sender_of r].
Proof.
  intros Hw Hn [sid Ht]. destruct (connect_impl r w) as [w1 o] eqn:E. pose proof E as Hs. apply connect_spec in Hs as (new & [Ens Ec] & _ & Hd & Ho).
  assert (exists reply a, (let* answer := st_try (connect_impl r) in respond_connect r answer st_panic) w = respond reply w1 /\ reply = Some a
    /\ sender_of a = sender_of r) as (reply & a & Er & Ea & Es).
  { destruct o as [[cid|]|e|]; [| | |done].
    - destruct (connect_reply_some r cid Hw) as (a & Ea & Es). exists (connect_reply r cid), a. split; [|done]. unfold st_bind, st_try. by rewrite E.
    - destruct Ho as (name' & Hn' & Ht'). unfold waits_for in Hn. congruence.
    - destruct (error_reply_some r e Hw) as (a & Ea & Es). exists (error_reply r e), a. split; [|done]. unfold st_bind, st_try. by rewrite E. }
  exists (mkWorld (ns w1) (Dropped a :: calls w1)), (Dropped a :: new). split; [by rewrite Er, (respond_some _ a)|]. split; [done|].
  split; [cbn; by rewrite Ec|]. pose proof (answers_none new Hd) as En. unfold answers_to in *. cbn. by rewrite En, Es.
Qed.
Lemma nobody_waits name l : Forall (fun r => ~ waits_for name r) l -> filter (fun r => ~ waits_for name r) l = l /\ filter (waits_for name) l = [].
Proof.
  induction 1 as [|r l Hr _ [IH1 IH2]]; [done|]. rewrite filter_cons_True by done. rewrite (filter_cons_False (waits_for name)) by done.
  by rewrite IH1, IH2.
Qed.
Lemma wake_spec fuel name i w :
  Forall (fun r => waits_for name r -> writable r) (waiting_connections (ns w)) -> is_Some (name_table (ns w) !! name) ->
  Forall (fun r => ~ waits_for name r) (take i (waiting_connections (ns w))) -> (length (waiting_connections (ns w)) <= i + fuel)%nat ->
  exists w' new, wake_from utf8 kernel fuel name i w = (w', Done tt) /\ tables (ns w') = tables (ns w)
    /\ waiting_connections (ns w') ≡ₚ filter (fun r => ~ waits_for name r) (waiting_connections (ns w))
    /\ calls w' = new ++ calls w /\ answers_to new ≡ₚ map sender_of (filter (waits_for name) (waiting_connections (ns w))).
Proof.
  revert i w. induction fuel as [|fuel IH]; intros i w Hw Hb Hi Hf; cbn [wake_from]; rewrite (st_done st_get _ _ _ _ eq_refl).
  all: destruct (waiting_connections (ns w) !! i) as [r|] eqn:Er; [|exists w, []; split; [done|]].
  1: { apply lookup_lt_Some in Er. lia. }
  1, 3: apply lookup_ge_None in Er; rewrite take_ge in Hi by done; apply nobody_waits in Hi as [-> ->]; done.
  case_decide as Hm; cycle 1.
  { apply (IH (S i)); [done|done| |lia]. rewrite (take_S_r _ _ r) by done. apply list.Forall_app. split; [done|]. by apply list.Forall_singleton. }
  destruct (swap_remove_spec _ _ _ Er) as (Hp & Ht & Hl). remember (swap_remove i (waiting_connections (ns w))) as rest eqn:Erest.
  assert (writable r) as Hwr by (by apply (proj1 (list.Forall_lookup _ _) Hw i r Er)). set (w1 := mkWorld (set_waiting rest (ns w)) (calls w)).
  rewrite (st_done (with_ns _) _ w w1 tt) by (unfold w1; by rewrite Erest). clear Erest. destruct (answer_waiting r w1 name Hwr Hm Hb) as (w2 & new & E & Ens & Ec & Ha).
  assert (forall k : N unit, (let* answer := st_try (connect_impl r) in let* _ := respond_connect r answer st_panic in k) w1 = k w2) as ->.
  { intros k. revert E. unfold st_bind. destruct (st_try (connect_impl r) w1) as [w3 [a|e|]]; [|done..]. by intros ->. }
  destruct (IH i w2) as (w' & new2 & E2 & Et & Hperm & Ec2 & Ha2).
  - rewrite Ens. cbn. rewrite Hp in Hw. by apply list.Forall_cons in Hw as [_ Hw].
  - by rewrite Ens.
  - rewrite Ens. cbn. by rewrite Ht.
  - rewrite Ens. cbn. lia.
  - rewrite Ens in *. cbn in Hperm, Ha2. exists w', (new2 ++ new). split; [done|]. split; [done|]. split; [|split].
    + rewrite Hperm, Hp. rewrite filter_cons_False by auto. done.
    + rewrite Ec2, Ec. by rewrite app_assoc.
    + rewrite answers_app, Ha, Ha2, Hp. rewrite filter_cons_True by done. cbn. by rewrite Permutation_app_comm.
Qed.

Lemma waiting_after_register r w w1 name : register_impl r w = (w1, Done name) ->
  waiting_connections (ns w1) = waiting_connections (ns w) /\ is_Some (name_table (ns w1) !! name)
  /\ exists new, calls w1 = new ++ calls w /\ Forall quiet new.
Proof.
  intros (new & Ec & Hq & pid & app & sid & names & _ & _ & _ & _ & _ & _ & _ & _ & E)%register_spec. rewrite E. cbn. rewrite lookup_insert_eq.
  split; [done|]. split; [by eexists|]. by exists new.
Qed.
Lemma quiet_answers l : Forall quiet l -> answers_to l = [].
Proof. intros H. apply answers_none. intros r Hr. by apply (proj1 (list.Forall_forall _ _) H) in Hr. Qed.
Lemma run_writable r w op : is_blocking (rq_body r) = true -> has_memory (rq_body r) = true -> Opcode_from_usize (message_id (rq_body r)) = Some op ->
  run_message r w = match op with
    | Register =>
        (let* answer := st_try (register_impl r) in
         match answer with Ok name => let* _ := respond_simple_success r in wake_waiting_connections utf8 kernel name | Err e => respond_error r e end) w
    | BlockingConnect =>
        (let* answer := st_try (connect_impl r) in
         respond_connect r answer (with_ns (fun s => set_waiting (waiting_connections s ++ [r]) s))) w
    | TryConnect => (let* answer := st_try (connect_impl r) in respond_connect r answer (respond_error r ServerNotFound)) w
    | AddManifest => answer_with r (add_manifest_impl parse_manifest kernel r) w
    | RemoveManifest => answer_with r (remove_manifest_impl kernel r) w
    | LookupNameBySid =>
        (let* answer := st_try (lookup_name_by_sid_impl r) in match answer with Ok name => respond_name r name | Err e => respond_error r e end) w
    end.
Proof.
  intros Hb Hm Hop. unfold Names.run_message. rewrite Hb, Hm, Hop. cbn [negb]. apply opcode_cases in Hop. rewrite Hop. by destruct op.
Qed.
Lemma register_wakes r w w1 name :
  writable r -> Forall (fun q => waits_for name q -> writable q) (waiting_connections (ns w)) -> register_impl r w = (w1, Done name) ->
  exists w' new, (let* _ := respond_simple_success r in wake_waiting_connections utf8 kernel name) w1 = (w', Done tt) /\ tables (ns w') = tables (ns w1)
    /\ waiting_connections (ns w') ≡ₚ filter (fun q => ~ waits_for name q) (waiting_connections (ns w))
    /\ calls w' = new ++ calls w /\ answers_to new ≡ₚ sender_of r :: map sender_of (filter (waits_for name) (waiting_connections (ns w))).
Proof.
  intros Hw Hl (Ew & Hs & new1 & Ec1 & Hq)%waiting_after_register. destruct (success_reply_some r Hw) as (a & Ea & Es).
  set (w2 := mkWorld (ns w1) (Dropped a :: calls w1)).
  rewrite (st_done (respond_simple_success r) _ w1 w2 tt) by (unfold respond_simple_success; by rewrite (respond_some _ a)).
  unfold wake_waiting_connections. rewrite (st_done st_get _ _ _ _ eq_refl).
  destruct (wake_spec (length (waiting_connections (ns w2))) name 0 w2) as (w' & new & E & Et & Hp & Ec & Ha); [by cbn; rewrite Ew|done|constructor|lia|].
  exists w', (new ++ Dropped a :: new1). split; [done|]. split; [done|]. cbn in Hp, Ec, Ha. rewrite Ew in Hp, Ha. split; [done|].
  split; [by rewrite Ec, Ec1, <-app_assoc|]. rewrite answers_app, Ha. change (Dropped a :: new1) with ([Dropped a] ++ new1).
  rewrite (answers_app [Dropped a]), (quiet_answers new1 Hq), app_nil_r. rewrite Permutation_app_comm. cbn. unfold sender_of at 1. by rewrite Es.
Qed.
(** C10: A registration that is accepted, with its memory lent for writing with room for two words
    ([writable]) and that of all who wait for the name too, ends: its sender and everybody who waited for the name have an answer,
    once, and the others wait on.  (If one of them has lent its memory for reading only, the
    server stops, see [read_only_request_panics].) *)
Theorem registration_wakes r w w1 name :
  writable r -> is_blocking (rq_body r) = true -> message_id (rq_body r) = 0 ->
  Forall (fun q => waits_for name q -> writable q) (waiting_connections (ns w)) ->
  register_impl r w = (w1, Done name) ->
  exists w' new, run_message r w = (w', Done tt) /\ tables (ns w') = tables (ns w1)
    /\ waiting_connections (ns w') ≡ₚ filter (fun q => ~ waits_for name q) (waiting_connections (ns w))
    /\ calls w' = new ++ calls w /\ answers_to new ≡ₚ sender_of r :: map sender_of (filter (waits_for name) (waiting_connections (ns w))).
Proof.
  intros Hw Hb Hid Hl E. destruct (register_wakes r w w1 name Hw Hl E) as (w' & new & H & Hrest). exists w', new. split; [|done].
  assert (has_memory (rq_body r) = true) as Hm by (destruct Hw as [Hm _]; by destruct (rq_body r)).
  assert (Opcode_from_usize (message_id (rq_body r)) = Some Register) as Hop by (by rewrite Hid).
  rewrite (run_writable r w Register Hb Hm Hop).
  rewrite (st_done (st_try _) _ w w1 (Ok name)); [exact H|]. unfold st_try. by rewrite E.
Qed.

(** ** Requests that stop the server *)

Lemma read_only_answered r buf valid : is_mutable (rq_body r) = false -> answered r buf valid = None.
Proof. unfold answered. by intros ->. Qed.
Definition never_panics {A} (m : N A) (w : World) : Prop := (m w).2 <> Panic.
Lemma respond_panics reply w : (respond reply w).2 = Panic <-> reply = None.
Proof. by destruct reply. Qed.
(** A handler that does not panic and then answers. *)
Lemma answer_panics {A} r (m : N A) (k : result Error A -> N unit) w :
  never_panics m w -> (forall a w1, (k a w1).2 = Panic <-> is_mutable (rq_body r) = false) ->
  ((let* answer := st_try m in k answer) w).2 = Panic <-> is_mutable (rq_body r) = false.
Proof. unfold never_panics, st_bind, st_try. intros Hm Hk. destruct (m w) as [w1 [a|e|]]; [apply Hk|apply Hk|done]. Qed.
Lemma reply_panics r reply w :
  (is_mutable (rq_body r) = true -> exists a, reply = Some a) -> (is_mutable (rq_body r) = false -> reply = None) ->
  (respond reply w).2 = Panic <-> is_mutable (rq_body r) = false.
Proof.
  intros H1 H2. rewrite respond_panics. split; [|exact H2]. destruct (is_mutable _); [|done]. by destruct H1 as [a ->].
Qed.
Lemma error_panics r e w : 8 <= buf_len r -> (respond_error r e w).2 = Panic <-> is_mutable (rq_body r) = false.
Proof.
  intros Hl. apply reply_panics; intros H.
  - destruct (error_reply_some r e) as (a & Ea & _); [done|eauto].
  - unfold error_reply. destruct (set_buf_word 0 _ _); [cbn|done]. destruct (set_buf_word 1 _ _); [cbn|done]. by apply read_only_answered.
Qed.
Lemma connected_panics r cid w : 8 <= buf_len r -> (respond_connect_success r cid w).2 = Panic <-> is_mutable (rq_body r) = false.
Proof.
  intros Hl. apply reply_panics; intros H.
  - destruct (connect_reply_some r cid) as (a & Ea & _); [done|eauto].
  - unfold connect_reply. destruct (set_buf_word 0 _ _); [cbn|done]. destruct (set_buf_word 1 _ _); [cbn|done]. by apply read_only_answered.
Qed.
Lemma success_panics r w : 8 <= buf_len r -> (respond_simple_success r w).2 = Panic <-> is_mutable (rq_body r) = false.
Proof.
  intros Hl. apply reply_panics; intros H.
  - destruct (success_reply_some r) as (a & Ea & _); [done|eauto].
  - unfold success_reply. destruct (set_buf_word 0 _ _); [cbn|done]. by apply read_only_answered.
Qed.
Lemma name_panics r name w : 8 <= buf_len r -> (respond_name r name w).2 = Panic <-> is_mutable (rq_body r) = false.
Proof.
  intros Hl. unfold respond_name, name_reply. case_decide; [|by apply error_panics]. apply reply_panics; intros H'.
  - destruct (answered_some r (name ++ drop (length name) (rq_buf r)) (nonzero_new (Z.of_nat (length name))) H') as (a & Ea & _). eauto.
  - by apply read_only_answered.
Qed.
Lemma answer_with_panics r m w :
  8 <= buf_len r -> never_panics m w -> (answer_with r m w).2 = Panic <-> is_mutable (rq_body r) = false.
Proof. intros Hl Hm. apply answer_panics; [done|]. intros [[]|e] w1; [by apply success_panics|by apply error_panics]. Qed.
(** Somebody who waits has lent memory for reading only. *)
Lemma answer_read_only r w name :
  is_mutable (rq_body r) = false -> waits_for name r -> is_Some (name_table (ns w) !! name) ->
  (st_bind (st_try (connect_impl r)) (fun answer => respond_connect r answer st_panic) w).2 = Panic.
Proof.
  intros Hm Hn [sid Ht]. unfold st_bind, st_try. destruct (connect_impl r w) as [w1 o] eqn:E. apply connect_spec in E as (new & _ & _ & _ & Ho).
  assert (forall e c, error_reply r e = None /\ connect_reply r c = None) as Hnone.
  { intros e c. unfold error_reply, connect_reply. split; (destruct (set_buf_word 0 _ _); [cbn|done]); (destruct (set_buf_word 1 _ _); [cbn|done]); by apply read_only_answered. }
  destruct o as [[cid|]|e|]; [| | |done]; cbn.
  - unfold respond_connect_success. by rewrite (proj2 (Hnone InternalError cid)).
  - destruct Ho as (name' & Hn' & Ht'). unfold waits_for in Hn. congruence.
  - unfold respond_error. by rewrite (proj1 (Hnone e 0)).
Qed.
Lemma wake_panics fuel name i w :
  Forall (fun q => 8 <= buf_len q) (waiting_connections (ns w)) -> is_Some (name_table (ns w) !! name) ->
  Forall (fun r => ~ waits_for name r) (take i (waiting_connections (ns w))) -> (length (waiting_connections (ns w)) <= i + fuel)%nat ->
  (exists q, q ∈ waiting_connections (ns w) /\ waits_for name q /\ is_mutable (rq_body q) = false) ->
  (wake_from utf8 kernel fuel name i w).2 = Panic.
Proof.
  revert i w. induction fuel as [|fuel IH]; intros i w Hw Hb Hi Hf (q & Hq & Hwq & Hmq); cbn [wake_from]; rewrite (st_done st_get _ _ _ _ eq_refl);
    (destruct (waiting_connections (ns w) !! i) as [r|] eqn:Er;
     [|apply lookup_ge_None in Er; rewrite take_ge in Hi by done; by destruct (proj1 (list.Forall_forall _ _) Hi q Hq)]).
  { done. }
  case_decide as Hm; cycle 1.
  { apply (IH (S i)); [done|done| |lia|by exists q]. rewrite (take_S_r _ _ r) by done. apply list.Forall_app. split; [done|]. by apply list.Forall_singleton. }
  destruct (swap_remove_spec _ _ _ Er) as (Hp & Ht & Hl). remember (swap_remove i (waiting_connections (ns w))) as rest eqn:Erest.
  set (w1 := mkWorld (set_waiting rest (ns w)) (calls w)).
  rewrite (st_done (with_ns _) _ w w1 tt) by (unfold w1; by rewrite Erest). clear Erest.
  destruct (is_mutable (rq_body r)) eqn:Emr; cycle 1.
  { pose proof (answer_read_only r w1 name Emr Hm Hb) as H. revert H. unfold st_bind. destruct (st_try (connect_impl r) w1) as [w3 [a|e|]]; [|done..].
    by destruct (respond_connect r a st_panic w3) as [w4 [[]|e|]]. }
  assert (writable r) as Hwr by (split; [done|exact (proj1 (list.Forall_lookup _ _) Hw i r Er)]).
  destruct (answer_waiting r w1 name Hwr Hm Hb) as (w2 & new & E & Ens & _).
  assert (forall k : N unit, (let* answer := st_try (connect_impl r) in let* _ := respond_connect r answer st_panic in k) w1 = k w2) as ->.
  { intros k. revert E. unfold st_bind. destruct (st_try (connect_impl r) w1) as [w3 [a|e|]]; [|done..]. by intros ->. }
  apply (IH i w2); rewrite Ens; cbn; [|done|by rewrite Ht|lia|].
  - rewrite Hp in Hw. by apply list.Forall_cons in Hw as [_ Hw].
  - exists q. rewrite Hp in Hq. apply elem_of_cons in Hq as [->|Hq]; [congruence|done].
Qed.
Lemma connect_never_panics r w : never_panics (connect_impl r) w.
Proof.
  unfold never_panics. destruct (connect_impl r w) as [w1 o] eqn:E. apply connect_spec in E as (new & _ & _ & _ & Ho). by destruct o.
Qed.
Lemma lookup_never_panics r w : never_panics (lookup_name_by_sid_impl r) w.
Proof. unfold never_panics, lookup_name_by_sid_impl, st_bind, st_get, some_or. destruct (sid_from_msg r); [cbn|done]. by destruct (fst <$> _). Qed.
Lemma add_never_panics r w : never_panics (add_manifest_impl parse_manifest kernel r) w.
Proof. unfold never_panics. destruct (add_manifest_impl _ _ r w) as [w1 o] eqn:E. apply add_manifest_spec in E as (new & _ & _ & Ho). by destruct o. Qed.
Lemma remove_never_panics r w : never_panics (remove_manifest_impl kernel r) w.
Proof. unfold never_panics. destruct (remove_manifest_impl _ r w) as [w1 o] eqn:E. apply remove_manifest_spec in E as (new & _ & _ & Ho). by destruct o. Qed.
(** A request to register stops the server. *)
Definition registration_stops (r : Request) (w : World) : Prop :=
  is_mutable (rq_body r) = false
  \/ exists w1 name q, register_impl r w = (w1, Done name) /\ q ∈ waiting_connections (ns w) /\ waits_for name q /\ is_mutable (rq_body q) = false.
Lemma register_panics r w :
  8 <= buf_len r -> Forall (fun q => 8 <= buf_len q) (waiting_connections (ns w)) ->
  ((let* answer := st_try (register_impl r) in
    match answer with Ok name => let* _ := respond_simple_success r in wake_waiting_connections utf8 kernel name | Err e => respond_error r e end) w).2 = Panic
  <-> registration_stops r w.
Proof.
  intros Hl Hw. unfold st_bind at 1, st_try, registration_stops. destruct (register_impl r w) as [w1 [name|e|]] eqn:E.
  - pose proof (waiting_after_register r w w1 name E) as (Ew & Hs & _). destruct (is_mutable (rq_body r)) eqn:Em; cycle 1.
    { split; [by left|]. intros _. pose proof (proj2 (success_panics r w1 Hl) Em) as H. unfold st_bind. by destruct (respond_simple_success r w1) as [w2 [[]|e|]]. }
    destruct (decide (Exists (fun q => waits_for name q /\ is_mutable (rq_body q) = false) (waiting_connections (ns w)))) as [Hx|Hn].
    + apply list.Exists_exists in Hx as (q & Hq & Hwq & Hmq). split; [|intros _].
      { intros _. right. exists w1, name, q. done. }
      destruct (success_reply_some r (conj Em Hl)) as (a & Ea & _).
      rewrite (st_done (respond_simple_success r) _ w1 (mkWorld (ns w1) (Dropped a :: calls w1)) tt) by (unfold respond_simple_success; by rewrite (respond_some _ a)).
      unfold wake_waiting_connections. rewrite (st_done st_get _ _ _ _ eq_refl). cbn [ns].
      apply wake_panics; cbn [ns]; [by rewrite Ew|done|constructor|lia|]. rewrite Ew. by exists q.
    + destruct (register_wakes r w w1 name) as (w' & new & E' & _); [done| |done|].
      { apply list.Forall_forall. intros q Hq Hwq. split; [|by apply (proj1 (list.Forall_forall _ _) Hw)].
        destruct (is_mutable (rq_body q)) eqn:Emq; [done|]. destruct Hn. apply list.Exists_exists. by exists q. }
      rewrite E'. split; [done|]. intros [?|(w2 & name' & q & [= <- <-] & Hq & Hwq & Hmq)]; [done|]. destruct Hn. apply list.Exists_exists. by exists q.
  - rewrite (error_panics r e w1 Hl). split; [by left|]. intros [?|(w2 & name' & q & ? & _)]; done.
  - by apply register_spec in E as (new & _ & _ & []).
Qed.
(** When a request stops the server. *)
Definition stops (op : Opcode) (r : Request) (w : World) : Prop :=
  match op with
  | Register => registration_stops r w
  | BlockingConnect => is_mutable (rq_body r) = false /\ (connect_impl r w).2 <> Done Wait
  | _ => is_mutable (rq_body r) = false
  end.
(** C13: A request that blocks its sender on memory of two words at least, as have all who wait, stops
    the server, whoever sends it, exactly in these cases: its own memory is lent for reading only - unless it asks to
    connect to a name that is not bound yet, and waits -, or it registers a name for which a
    request waits whose memory is lent for reading only. *)
Theorem read_only_request_panics r w op :
  is_blocking (rq_body r) = true -> has_memory (rq_body r) = true -> Opcode_from_usize (message_id (rq_body r)) = Some op ->
  8 <= buf_len r -> Forall (fun q => 8 <= buf_len q) (waiting_connections (ns w)) ->
  (run_message r w).2 = Panic <-> stops op r w.
Proof.
  intros Hb Hm Hop Hl Hw. rewrite (run_writable r w op Hb Hm Hop). destruct op; cbn [stops].
  - by apply register_panics.
  - apply answer_with_panics; [done|apply add_never_panics].
  - apply answer_with_panics; [done|apply remove_never_panics].
  - apply answer_panics; [apply lookup_never_panics|]. intros [name|e] w1; [by apply name_panics|by apply error_panics].
  - pose proof (connect_never_panics r w) as Hc. unfold never_panics in Hc. unfold st_bind at 1, st_try.
    destruct (connect_impl r w) as [w1 [[cid|]|e|]]; cbn [snd] in *; [| | |done].
    + cbn [respond_connect]. rewrite (connected_panics r cid w1 Hl). naive_solver.
    + cbn. naive_solver.
    + cbn [respond_connect]. rewrite (error_panics r e w1 Hl). naive_solver.
  - apply answer_panics; [apply connect_never_panics|]. intros [[cid|]|e] w1; [by apply connected_panics|by apply error_panics..].
Qed.
End Server.

(** ** Manifests *)

(** The keys of a map are distinct. *)
Record manifest_keys (m : Manifest) : Prop := {
  mk_servers : NoDup (map fst (servers m));
  mk_messages : Forall (fun p => NoDup (map fst p.2)) (servers m);
  mk_permissions : NoDup (map fst (permissions m))
}.
(** The ids of a message once [m] is taken. *)
Definition messages_after (s : NameServer) (m : Manifest) (server message : Name) : option (list Z) :=
  if decide (server ∈ manifest_server_names m) then
    let! l := (list_to_map (servers m) : gmap Name _) !! server in let! id := (list_to_map l : gmap Name Z) !! message in Some [id]
  else if decide (server_owners s !! server = Some (manifest_app m)) then None else message_name_to_id s !! (server, message).
(** Another application owns the name, or somebody uses it and the application does not own it. *)
Definition collides (s : NameServer) (app : AppId) (name : Name) : Prop :=
  server_owners s !! name <> Some app /\ (is_Some (server_owners s !! name) \/ is_Some (name_table s !! name)).
Definition granted_ids (s : NameServer) (m : Manifest) (server : Name) (messages : list Name) (ids : list Z) : Prop :=
  StronglySorted Z.le ids
  /\ exists l, Forall2 (fun message ids => messages_after s m server message = Some ids) messages l /\ ids ≡ₚ concat l.
Record installed (s : NameServer) (m : Manifest) (s' : NameServer) : Prop := {
  in_apart name : name ∈ manifest_server_names m -> ~ collides s (manifest_app m) name;
  in_owners name : server_owners s' !! name =
    if decide (name ∈ manifest_server_names m) then Some (manifest_app m)
    else if decide (server_owners s !! name = Some (manifest_app m)) then None else server_owners s !! name;
  in_messages server message : message_name_to_id s' !! (server, message) = messages_after s m server message;
  in_register : register_permissions s' = <[manifest_app m := list_to_set (map fst (servers m))]> (register_permissions s);
  in_connect : exists p, connect_permissions s' = <[manifest_app m := p]> (connect_permissions s)
    /\ forall server, match (list_to_map (permissions m) : gmap Name _) !! server with
       | Some messages => exists ids, p !! server = Some ids /\ granted_ids s m server messages ids
       | None => p !! server = None
       end;
  in_names : name_table s' = insert_fixed_sids (fixed_sids m) (name_table s);
  in_rest : waiting_connections s' = waiting_connections s /\ registered_names_by_pid s' = registered_names_by_pid s
}.

Lemma name_collides_spec s app name : name_collides s app name = true <-> collides s app name.
Proof.
  unfold name_collides, collides. destruct (server_owners s !! name) as [o|].
  - destruct (decide (o = app)) as [->|Hne].
    + rewrite !(bool_decide_eq_true_2 (_ = _)) by done. cbn [negb orb]. rewrite andb_false_r. naive_solver.
    + rewrite (bool_decide_eq_false_2 (o = app)) by done. naive_solver.
  - rewrite (bool_decide_eq_false_2 (None = Some app)) by done. cbn [negb orb]. rewrite andb_true_r. rewrite bool_decide_eq_true. unfold is_Some. naive_solver.
Qed.
Lemma reject_spec s app names :
  match reject_server_name_collisions s app names with
  | Ok _ => forall name, name ∈ names -> ~ collides s app name
  | Err e => e = MemoryInUse /\ exists name, name ∈ names /\ collides s app name
  end.
Proof.
  unfold reject_server_name_collisions. destruct (existsb _ _) eqn:E.
  - apply existsb_exists in E as (name & Hin%list_elem_of_In%elem_of_elements & Hc%name_collides_spec). split; [done|]. by exists name.
  - intros name Hin Hc%name_collides_spec. assert (existsb (name_collides s app) (elements names) = true) as Ht; [|congruence].
    apply existsb_exists. exists name. split; [by apply list_elem_of_In, elem_of_elements|done].
Qed.
Lemma insert_messages_lookup server l t sv msg : NoDup (map fst l) ->
  insert_messages server l t !! (sv, msg)
  = if decide (sv = server) then match (list_to_map l : gmap Name Z) !! msg with Some id => Some [id] | None => t !! (sv, msg) end else t !! (sv, msg).
Proof.
  unfold insert_messages. revert t. induction l as [|[n id] l IH]; intros t Hnd; cbn [fold_left list_to_map foldr]; [rewrite lookup_empty; by case_decide|].
  cbn in Hnd. apply list.NoDup_cons in Hnd as [Hn Hnd]. rewrite (IH _ Hnd). cbn [fst snd uncurry]. case_decide as Hs.
  - subst sv. destruct (decide (n = msg)) as [->|Hne].
    + rewrite !lookup_insert_eq. rewrite (proj1 (not_elem_of_list_to_map _ _) Hn). done.
    + rewrite (lookup_insert_ne _ n msg) by done. rewrite lookup_insert_ne by congruence. done.
  - rewrite lookup_insert_ne by congruence. done.
Qed.
Lemma insert_all_lookup l t sv msg : NoDup (map fst l) -> Forall (fun p => NoDup (map fst p.2)) l ->
  fold_left (fun t '(server, l) => insert_messages server l t) l t !! (sv, msg)
  = match (list_to_map l : gmap Name (list (Name * Z))) !! sv with
    | Some ms => match (list_to_map ms : gmap Name Z) !! msg with Some id => Some [id] | None => t !! (sv, msg) end
    | None => t !! (sv, msg)
    end.
Proof.
  revert t. induction l as [|[server ms] l IH]; intros t Hnd Hall; cbn [fold_left list_to_map foldr]; [by rewrite lookup_empty|].
  cbn in Hnd. apply list.NoDup_cons in Hnd as [Hn Hnd]. apply list.Forall_cons in Hall as [Hms Hall]. rewrite (IH _ Hnd Hall).
  rewrite !(insert_messages_lookup _ _ _ _ _ Hms). cbn [fst snd uncurry]. case_decide as Hs.
  - subst sv. rewrite lookup_insert_eq. by rewrite (proj1 (not_elem_of_list_to_map _ _) Hn).
  - by rewrite lookup_insert_ne.
Qed.
Lemma message_ids_spec s server messages ids :
  match message_ids s server messages ids with
  | Ok ids' => exists l, Forall2 (fun message ids => message_name_to_id s !! (server, message) = Some ids) messages l /\ ids' = ids ++ concat l
  | Err e => e = ServerNotFound /\ exists message, message ∈ messages /\ message_name_to_id s !! (server, message) = None
  end.
Proof.
  revert ids. induction messages as [|message messages IH]; intros ids; cbn [message_ids]; [exists []; by rewrite app_nil_r|].
  destruct (message_name_to_id s !! (server, message)) as [mid|] eqn:E; [|split; [done|]; exists message; split; [apply list_elem_of_here|done]].
  specialize (IH (ids ++ mid)). destruct (message_ids s server messages (ids ++ mid)) as [ids'|e].
  - destruct IH as (l & Hl & ->). exists (mid :: l). split; [by constructor|]. cbn. by rewrite app_assoc.
  - destruct IH as (-> & msg & Hin & Hm). split; [done|]. exists msg. split; [by apply list_elem_of_further|done].
Qed.
Lemma manifest_permissions_spec s l p : NoDup (map fst l) -> (forall server, server ∈ map fst l -> p !! server = None) ->
  match manifest_permissions s l p with
  | Ok p' => forall server, match (list_to_map l : gmap Name _) !! server with
      | Some messages => exists ids, p' !! server = Some ids /\ StronglySorted Z.le ids
          /\ exists l, Forall2 (fun message ids => message_name_to_id s !! (server, message) = Some ids) messages l /\ ids ≡ₚ concat l
      | None => p' !! server = p !! server
      end
  | Err e => e = ServerNotFound /\ exists server messages message,
      (server, messages) ∈ l /\ message ∈ messages /\ message_name_to_id s !! (server, message) = None
  end.
Proof.
  revert p. induction l as [|[server messages] l IH]; intros p Hnd Hp; cbn [manifest_permissions].
  { intros server. cbn [list_to_map foldr]. by rewrite lookup_empty. }
  cbn in Hnd, Hp. apply list.NoDup_cons in Hnd as [Hn Hnd]. rewrite (Hp server) by apply list_elem_of_here. cbn [default].
  pose proof (message_ids_spec s server messages []) as Hm. destruct (message_ids s server messages []) as [ids|e].
  2: { destruct Hm as (-> & msg & Hin & Hnone). split; [done|]. exists server, messages, msg. split; [apply list_elem_of_here|done]. }
  destruct Hm as (ll & Hll & ->). cbn [app]. specialize (IH (<[server := merge_sort Z.le (concat ll)]> p) Hnd).
  destruct (manifest_permissions s l _) as [p'|e].
  - intros sv. assert (forall sv, sv ∈ map fst l -> <[server := merge_sort Z.le (concat ll)]> p !! sv = None) as Hp'.
    { intros sv' Hin. rewrite lookup_insert_ne by congruence. by apply Hp, list_elem_of_further. }
    specialize (IH Hp' sv). cbn [list_to_map foldr fst snd uncurry]. destruct (decide (sv = server)) as [->|Hne].
    + rewrite lookup_insert_eq. rewrite (proj1 (not_elem_of_list_to_map _ _) Hn) in IH. rewrite IH, lookup_insert_eq.
      exists (merge_sort Z.le (concat ll)). split; [done|]. split; [apply StronglySorted_merge_sort; apply _|]. exists ll. split; [done|]. apply merge_sort_Permutation.
    + rewrite lookup_insert_ne by done. destruct ((list_to_map l : gmap Name (list Name)) !! sv); [done|]. by rewrite IH, lookup_insert_ne.
  - destruct IH as (-> & sv & msgs & msg & H1 & H2 & H3); [|split; [done|]; exists sv, msgs, msg; split; [by apply list_elem_of_further|done]].
    intros sv' Hin. rewrite lookup_insert_ne by congruence. by apply Hp, list_elem_of_further.
Qed.
Lemma servers_messages s m s1 : manifest_keys m -> process_manifest_servers s m = Ok s1 ->
  forall server message, message_name_to_id s1 !! (server, message) = messages_after s m server message.
Proof.
  intros [H1 H2 _]. unfold process_manifest_servers. destruct (reject_server_name_collisions _ _ _) as [[]|]; [|done]. intros [= <-] server message. cbn.
  rewrite (insert_all_lookup _ _ _ _ H1 H2). rewrite map_lookup_filter. unfold messages_after. cbn.
  pose proof (not_elem_of_list_to_map (servers m) server) as Hnot. case_decide as Hin.
  - assert (forall P (b : Decision P), ~ P -> forall o, (o ≫= (fun x : list Z => guard P;; Some x)) = None) as Hnone.
    { intros P b HP []; [cbn|done]. by rewrite option_guard_False. }
    rewrite Hnone by set_solver. destruct (list_to_map (servers m) !! server) as [ms|]; [|done]. cbn. by destruct (list_to_map ms !! message).
  - assert ((list_to_map (servers m) : gmap Name (list (Name * Z))) !! server = None) as ->.
    { apply Hnot. intros H. by apply Hin, manifest_server_names_spec; left. }
    destruct (message_name_to_id s !! (server, message)) as [ids|]; cbn; case_decide as Ho; try done.
    + rewrite option_guard_False; [done|]. intros H. apply H, elem_of_union_l. by apply owned_names_spec.
    + rewrite option_guard_True; [done|]. intros [H%owned_names_spec|H]%elem_of_union; done.
Qed.
(** C11: A manifest is taken as a whole: the application owns the names it lists and no others, the
    messages of its servers and what it may send are those of the manifest, and everything of
    other applications stays.  It is refused, and nothing changes, exactly if a name collides or
    a message it asks for is unknown. *)
Theorem manifest_installed s m : manifest_keys m ->
  match process_manifest_update s m with
  | Ok s' => installed s m s'
  | Err e => (e = MemoryInUse /\ exists name, name ∈ manifest_server_names m /\ collides s (manifest_app m) name)
      \/ (e = ServerNotFound /\ exists server messages message,
           (server, messages) ∈ permissions m /\ message ∈ messages /\ messages_after s m server message = None)
  end.
Proof.
  intros Hk. unfold process_manifest_update. destruct (process_manifest_servers (set_waiting [] s) m) as [s1|e] eqn:E1.
  2: { left. unfold process_manifest_servers in E1. pose proof (reject_spec (set_waiting [] s) (manifest_app m) (manifest_server_names m)) as Hr.
       destruct (reject_server_name_collisions _ _ _); [done|]. by injection E1 as <-. }
  pose proof (servers_messages _ _ _ Hk E1) as Hm. unfold process_manifest_permissions.
  pose proof (manifest_permissions_spec s1 (permissions m) ∅ (mk_permissions m Hk)) as Hp.
  destruct (manifest_permissions s1 (permissions m) ∅) as [p|e]; (specialize (Hp ltac:(intros; apply lookup_empty))).
  2: { right. destruct Hp as (-> & sv & msgs & msg & H1 & H2 & H3). split; [done|]. exists sv, msgs, msg. split; [done|]. split; [done|].
       rewrite Hm in H3. exact H3. }
  pose proof (reject_spec (set_waiting [] s) (manifest_app m) (manifest_server_names m)) as Hr.
  pose proof (owners_after s m) as Hown. cbv zeta in Hown.
  unfold process_manifest_servers in E1. destruct (reject_server_name_collisions _ _ _) as [[]|]; [|done]. injection E1 as E1. split; cbn.
  - exact Hr.
  - intros name. rewrite <-E1. apply Hown.
  - exact Hm.
  - by rewrite <-E1.
  - exists p. split; [by rewrite <-E1|]. intros server. specialize (Hp server).
    destruct ((list_to_map (permissions m) : gmap Name (list Name)) !! server) as [messages|]; [|by rewrite Hp].
    destruct Hp as (ids & Hi & Hs & l & Hl & Hpm). exists ids. split; [done|]. split; [done|]. exists l. split; [|done].
    eapply list.Forall2_impl; [exact Hl|]. intros message i Hmi. pose proof (Hm server message) as Hm1. cbn in Hmi, Hm1. rewrite <-Hmi. symmetry. exact Hm1.
  - by rewrite <-E1.
  - done.
Qed.

(** ** Two applications *)

Definition demo_app_id (v : Z) : list Z := replicate 16 v.
Definition demo_name : Name := [97; 98].
Definition demo_manifest : Manifest := mkManifest (demo_app_id 1) [(demo_name, [([112], 3); ([113], 4)])] [] [].
Definition demo_client : Manifest := mkManifest (demo_app_id 2) [] [] [(demo_name, [[113]])].
Definition demo_sid : SID := SID_from_u32 1 2 3 4.
Definition demo_kernel : KernelAnswers :=
  mkAnswers (fun _ pid => Ok (if pid =? 5 then Some (mkAppId (demo_app_id 1)) else if pid =? 6 then Some (mkAppId (demo_app_id 2)) else None))
    (fun _ _ => Ok 5) (fun _ _ _ => Ok 9) (fun _ _ _ _ => Ok tt) (fun _ _ => Ok tt).
Definition demo_request (pid : Z) (body : MemoryMessage -> Message) (id valid : Z) (buf : list Z) : Request :=
  mkRequest (mkEnvelope (pid * 2 ^ 24) (body (mkMemoryMessage id (mkRange 0x1000 0x1000) None (Some valid)))) buf.
Definition demo_register : Request := demo_request 5 MutableBorrow 0 2 ([1; 0; 0; 0; 2; 0; 0; 0; 3; 0; 0; 0; 4; 0; 0; 0] ++ demo_name).
Definition demo_connect : Request := demo_request 6 MutableBorrow 6 2 (demo_name ++ replicate 14 0).
Abbreviation demo_run := (run_message (fun _ => true) (fun _ => None) demo_kernel).
Definition demo_tables : option NameServer := process_system_manifests NameServer_default [demo_manifest; demo_client].
(** The client waits for the name. *)
Definition demo_world : World := (demo_run demo_connect (mkWorld (default NameServer_default demo_tables) [])).1.
(** The server has registered. *)
Definition demo_bound : World := (demo_run demo_register demo_world).1.

Lemma demo_start : demo_tables = Some (default NameServer_default demo_tables).
Proof. destruct demo_tables as [s|] eqn:E; [done|]. vm_compute in E. discriminate. Qed.
Lemma demo_reachable : reachable (fun _ => true) (fun _ => None) demo_kernel demo_world.
Proof. eapply (names_message _ _ _ _ demo_connect); [exact (names_started _ _ _ _ _ demo_start)|apply surjective_pairing]. Qed.

Lemma names_bound_witness :
  (demo_run demo_register demo_world).2 = Done tt /\ name_table (ns demo_world) !! demo_name = None /\ name_table (ns demo_bound) !! demo_name = Some demo_sid
  /\ exists new, calls demo_bound = new ++ calls demo_world
     /\ forall name, name_change (fun _ => true) demo_world demo_bound demo_register new name.
Proof.
  split; [vm_compute; reflexivity|]. split; [vm_compute; reflexivity|]. split; [vm_compute; reflexivity|].
  exact (names_bound _ _ _ _ _ _ _ demo_reachable (surjective_pairing _)).
Defined.
Lemma connections_granted_witness :
  (exists l, calls demo_bound = Dropped l :: tail (calls demo_bound)) /\ ConnectForProcess 6 demo_sid (Ok 9) ∈ calls demo_bound
  /\ exists new, calls demo_bound = new ++ calls demo_world /\ Forall (granted (ns demo_bound) new) new.
Proof.
  split; [eexists; vm_compute; reflexivity|]. split; [apply list_elem_of_lookup; exists 2%nat; vm_compute; reflexivity|].
  exact (connections_granted _ _ _ _ _ _ _ (surjective_pairing _)).
Defined.
Definition demo_try : Request := demo_request 6 MutableBorrow 7 2 (demo_name ++ replicate 14 0).
Lemma connect_answered_witness :
  let asked := GetAppId 6 (Ok (Some (mkAppId (demo_app_id 2)))) :: calls demo_bound in
  exists answer, connect_reply demo_try 9 = Some answer
    /\ demo_run demo_try demo_bound
       = (mkWorld (ns demo_bound) (Dropped answer :: AllowMessages 6 9 4 5 (Ok tt) :: ConnectForProcess 6 demo_sid (Ok 9) :: asked), Done tt).
Proof.
  assert (connection_permissions (ns demo_bound) (mkAppId (demo_app_id 2)) demo_name = Some [4]) as El by (vm_compute; reflexivity).
  assert (8 <= buf_len demo_try) as Hl by (vm_compute; discriminate).
  assert (name_table (ns demo_bound) !! demo_name = Some demo_sid) as Ht by (vm_compute; reflexivity).
  pose proof (connect_answered (fun _ => true) (fun _ => None) demo_kernel demo_try demo_bound 6 (mkAppId (demo_app_id 2)) demo_name demo_sid
    (conj eq_refl Hl) eq_refl (or_intror eq_refl) eq_refl eq_refl eq_refl Ht) as H.
  cbv zeta in H. rewrite El in H. exact H.
Defined.
Lemma demo_lent l : Forall (fun r => is_mutable (rq_body r) = true) l -> Forall (fun r => 8 <= buf_len r) l -> Forall writable l.
Proof. intros H1 H2. apply list.Forall_and. done. Qed.
Lemma demo_waiting : Forall writable (waiting_connections (ns demo_world)).
Proof.
  assert (waiting_connections (ns demo_world) = [demo_connect]) as -> by (vm_compute; reflexivity).
  apply list.Forall_singleton. split; [reflexivity|vm_compute; discriminate].
Qed.
Lemma registration_wakes_witness :
  exists w' new, demo_run demo_register demo_world = (w', Done tt) /\ waiting_connections (ns w') = []
    /\ calls w' = new ++ calls demo_world /\ answers_to new ≡ₚ [5 * 2 ^ 24; 6 * 2 ^ 24].
Proof.
  set (m := register_impl (fun _ => true) demo_kernel demo_register demo_world).
  assert (m = (m.1, Done demo_name)) as E by (assert (m.2 = Done demo_name) by (vm_compute; reflexivity); destruct m; cbn in *; congruence).
  assert (8 <= buf_len demo_register) as Hl by (vm_compute; discriminate).
  destruct (registration_wakes (fun _ => true) (fun _ => None) demo_kernel demo_register demo_world m.1 demo_name
    (conj eq_refl Hl) eq_refl eq_refl (list.Forall_impl _ _ _ demo_waiting (fun _ H _ => H)) E) as (w' & new & H1 & _ & H2 & H3 & H4).
  assert (waiting_connections (ns demo_world) = [demo_connect]) as Ew by (vm_compute; reflexivity). rewrite Ew in H2, H4.
  exists w', new. split; [exact H1|]. split; [apply Permutation_nil; symmetry; exact H2|]. split; [exact H3|exact H4].
Defined.
Lemma demo_waiting_sizes : Forall (fun q => 8 <= buf_len q) (waiting_connections (ns demo_world)).
Proof. eapply list.Forall_impl; [exact demo_waiting|]. by intros q []. Qed.
Definition demo_read_only : Request := demo_request 77 Borrow 3 2 (replicate 16 0).
Lemma read_only_request_panics_witness : (demo_run demo_read_only demo_world).2 = Panic /\ (demo_run demo_register demo_world).2 <> Panic.
Proof.
  assert (8 <= buf_len demo_read_only) as Hl by (vm_compute; discriminate).
  assert (8 <= buf_len demo_register) as Hl' by (vm_compute; discriminate). split.
  - apply (proj2 (read_only_request_panics (fun _ => true) (fun _ => None) demo_kernel demo_read_only demo_world LookupNameBySid
      eq_refl eq_refl eq_refl Hl demo_waiting_sizes)). reflexivity.
  - intros [H|(w1 & name & q & _ & Hq & _ & Hm)]%(proj1 (read_only_request_panics (fun _ => true) (fun _ => None) demo_kernel demo_register demo_world Register
      eq_refl eq_refl eq_refl Hl' demo_waiting_sizes)); [discriminate|].
    pose proof (proj1 (list.Forall_forall _ _) demo_waiting q Hq) as [Ht _]. rewrite Ht in Hm. discriminate.
Defined.
Lemma demo_keys : manifest_keys demo_manifest.
Proof. split; cbn; repeat constructor; cbn; set_solver. Qed.
Lemma manifest_installed_witness :
  exists s', process_manifest_update NameServer_default demo_manifest = Ok s' /\ installed NameServer_default demo_manifest s'.
Proof.
  pose proof (manifest_installed NameServer_default demo_manifest demo_keys) as H.
  destruct (process_manifest_update NameServer_default demo_manifest) as [s'|e] eqn:E; [exists s'; exact (conj eq_refl H)|]. vm_compute in E. discriminate.
Defined.
